(* ===== verification/_CoqProject ===== *)
-Q . S2P
Prelude.v
Sums.v
F64.v
F64Int.v
Clock.v
Text.v
Core.v
Csv.v
Pool.v
Prefix.v
Radix.v
Policy.v
Prefill.v
Controller.v
Decode.v
Router.v
Decide.v
Wire.v
Tokenizer.v
Frontend.v
Serving.v
Dynamo.v
Transfer.v
PyHost.v
Capacity.v
Engine.v
Config.v
Aic.v
Load.v
Remedy.v
Worker.v
PrefillLive.v
DecodeLive.v
InProcess.v
InProcessInv.v
InProcessRun.v
InProcessLive.v
InProcessServe.v
InProcessDone.v
Sim.v
SimTime.v
SimLive.v
SimHandle.v
SimDecode.v
SimEnds.v
Report.v
Tuning.v
Cli.v
Testing.v
KvTests.v
SchedTests.v
CoreTests.v
DecideTests.v
DeployTests.v
NetTests.v
TuneTests.v
