(* ===== verification/Prelude.v ===== *)
(** * Verification of the trt-llm-rs control plane

    trt-llm-rs is a control plane for disaggregated LLM serving: prefill workers
    compute prompts, decode workers generate, and this program decides which
    tokens run when.  The development models its crates ([crates/*/src]) as
    executable functions and step relations and proves what they promise.

    ** The program's parts and the files that model them

    Foundations.  [Prelude] has results, errors, machine integers, sorting and
    selection as Rust's iterators do them, and the lemmas and tactics shared by
    all.  [F64] is Rust's [f64] bit for bit, over the Standard Library's IEEE 754
    specification, with the order theory the components need; [F64Int] the
    doubles that hold integers; [Clock] points in time; [Text] the functions and
    formatting directives of [str]; [Sums] the sums over lists and maps by which
    the liveness proofs keep account.

    [crates/core].  [Core] (error.rs, ids.rs, slo.rs, request.rs, stats.rs): the
    objective, the verdict on a request, percentiles and the goodput report.
    [Capacity] (capacity.rs): the calibrated model that evaluates a
    prefill/decode split and searches all of them.  [Config] (config.rs,
    engine_config.rs): the configuration, its validation and the launcher
    environment.  [Remedy] (remedy.rs, verdict.rs): what to do about the resource
    that binds, and the comparison of a run with its prediction.

    [crates/kvcache].  [Pool] (pool.rs, lib.rs): the reference-counted page
    allocator.  [Prefix] (prefix.rs): the hash-chain prefix cache over a pool.
    [Radix] (radix.rs): the router's trie of who holds which prefix.

    [crates/sched].  [Policy] (policy.rs): FCFS, EDF and Moore-Hodgson order.
    [Prefill] (prefill.rs): queue, batch assembly, completion.  [Controller]
    (decode.rs): the AIMD controller of the decode concurrency.  [Decode]
    (decode.rs): the running batch, admission, per-token accounting.

    [crates/router].  [Router] (registry.rs, policy.rs): the worker registry and
    the choice of a prefill and a decode worker; it calls [Radix].

    [crates/engine].  [Engine] (lib.rs, cost.rs, mock.rs): the class [Engine]
    with its laws, the cost curves and the mock that implements it.

    [crates/transfer].  [Transfer] (reshard.rs, local.rs, lib.rs): which rank
    sends which KV heads to which, and the in-process transfer.

    [crates/wire].  [Wire] (transport.rs, telemetry.rs): server-sent events, the
    stream life cycle, the HTTP transport and the factory that opens it, with the
    classes [Transport], [TransportFactory] and [Json].

    [crates/worker].  [Worker] (prefill_worker.rs, decode_worker.rs): one round
    of each loop against any lawful [Engine].  [InProcess] (deployment.rs): the
    router, the workers and the pumps of a whole deployment, joined by channels;
    [InProcessInv] proves its invariant step by step, [InProcessRun] the theorems
    on every run and [InProcessLive] that its channels do not deadlock.
    [PrefillLive] and [DecodeLive] show what a round and an iteration do over an
    engine of the class [EngineServes], which refuses nothing and says how many
    tokens it owes; [InProcessServe] that over such engines every step moves a
    request on, and [InProcessDone] that every request is answered in full.
    [Tokenizer] (tokenizer.rs).
    [Serving] (serving.rs): the front door over remote engine processes, which
    joins [Router], [Wire] and [Tokenizer] and implements [Frontend]'s class.

    [crates/frontend].  [Frontend] (api.rs, server.rs): completions over any
    backend of the class [Completions], streamed and collected.

    [crates/dynamo].  [Dynamo] (config.rs, engine.rs): the adapter between the
    Dynamo runtime's requests and outputs and [Wire].

    [crates/sim].  [Sim] (events.rs, sim.rs, report.rs): the event heap, every
    handler, the run and its report, over [Prefill], [Decode], [Router] and
    [Engine].  [SimTime], [SimLive], [SimHandle], [SimDecode] and [SimEnds] prove
    that a run never panics and ends.  [Report] (report.rs, verdict.rs, pyext's
    statistics): the texts and numbers that go out.

    [crates/pyext].  [Decide] (decide.rs, lib.rs): the capacity decision made
    inside the executor's loop, over [Controller] and [Decode].

    [crates/pyhost].  [PyHost] (lib.rs): the thread that owns the Python
    interpreter, its commands and their replies, over the class [Python].

    [crates/cli].  [Cli] (main.rs): the commands, what they print and when they
    fail, and the deployments [serve] starts; it calls nearly all the others.

    [crates/tuner].  [Csv] (csv.rs), [Aic] (aic.rs), [Load] (lib.rs) and
    [Tuning] (plan.rs): AIConfigurator's tables, the deployments they describe,
    and their ranking by the simulator of [Sim] or by measured runs.

    The unit tests.  The [#[test]] functions of the crates are translated too and
    run on the model ([Testing]: a failed assertion is a panic, [None]):
    [KvTests] (kvcache), [SchedTests] (sched), [CoreTests] and [DeployTests]
    (core), [DecideTests] (pyext), [NetTests] (router, transfer, wire, worker,
    frontend, dynamo) and [TuneTests] (engine, sim's event heap, tuner).  Each
    module ends in a lemma that all its tests pass, so the model is held to what
    the code is held to.

    ** How the model reads

    A struct is a Record, an enum an Inductive, a method a function from the old
    state to the new one.  [f64] is [F64.f64]; [u32], [u64] and [usize] are [Z]
    with the saturation or the wrap-around of the source written out; a
    [HashMap] is a [gmap], and where Rust's order of iteration is unspecified the
    theorems show that it does not matter.  [None] is a panic (an index out of
    range, an [expect]), and in the loops below also exhausted fuel; errors of the source
    are [Err].  An [async] function is split at its await points, so concurrent
    tasks are steps of a relation ([Serving.Serving.step],
    [Dynamo.Dynamo.step], [InProcess.InProcess.act] with [reach]).  Clock readings are arguments.

    A wait may never be answered.  What a remote worker sends is given by what
    arrives in the time under consideration: a request for a connection may stay
    without an answer ([Wire.Stream.Silent]) and a body that has been read without
    an [Ended] is still open, so reading on gives [Pending] where there is
    something to read it gives [Ready] ([Wire.Stream.Awaited]).  A worker that
    hangs or streams for ever is one all of whose prefixes end so, and the
    theorems that something comes to an end say which workers they need.  In
    [Serving] the other tasks of the process may take any steps between two steps
    of a request ([Serving.Host]).  A call into Python that does not return is
    [None] of the class [Python], and what waits for it waits
    ([PyHost.drop_host]).  An engine's [prefill] and [decode_step] may panic
    ([None]); the laws of [Engine] say that an engine in order does not, and the
    mock is in order when the times it sleeps fit a [Duration]
    ([Mock.mock_calm]; [Timing.sleepable] says when a configuration's mocks are).

    ** What the theorems show

    - The scheduler.  Moore-Hodgson accepts the largest feasible set of requests
      (Policy); a batch respects its budgets and the deadlines of its members,
      is empty exactly when nothing that may be planned is waiting or a limit is 0,
      and completion books exactly what was
      planned (Prefill).  The concurrency cap stays in its bounds and grows only
      when the gate allows it (Controller); a step books one token for each
      sequence that advanced, and the tolerance gate is the break-even interval
      (Decode).
    - Memory.  Every page is free, cached or referenced, and reference counts are
      the references held, as long as those fit the [u32] that counts them
      (Pool; [Pool.refcount_wraps] shows what happens beyond); what is inserted is found (Prefix); the trie
      stays well formed, matches exactly the claims made and terminates (Radix).
    - Workers.  Prompt pages and decode pages are owned by exactly the requests
      in the worker, whatever the engine does within its laws (Worker).
    - The deployment.  In whatever order its tasks run, clients leave and tasks
      are aborted: no task panics, a request is in one place at most, and a
      client's stream is tokens and then at most one closing chunk
      (InProcessRun); with the tasks alive there is always one that can run while
      work is left (InProcessLive).  Over engines that serve, and for requests
      that fit the pages, every schedule comes to rest within a bound that the
      requests determine, and at rest every client has its whole answer
      (InProcessDone): the steps still to be taken, the tokens still to come, the
      ends and the map's entries are each a weight of the state
      ([InProcessDone.Done.Account]) that every step pays for.
    - Routing and serving.  The chosen pair minimises the predicted time among
      the live workers (Router); the load counts are the open streams, a request
      goes to the process with the most room, and a chat completion comes to its
      end among whatever else the process does, provided the workers it is sent
      to answer and end their bodies (Serving; without that it waits for as long
      as they do, [Serving.chat_waits_for_the_worker]); framing does not depend on how the bytes arrive, and a
      stream ends once (Wire); a streamed answer and a collected one agree
      (Frontend); the adapter refuses what it cannot honour and drops no control
      (Dynamo).
    - The simulator.  No handler panics, requests are conserved, each client has
      one arrival or one request, the event loop stops, and the report adds up (Sim to SimEnds).
    - The Python host.  Concurrent callers get the answers of the sequential
      execution of their requests, an exception stops nobody, dropping the host
      ends exactly when the calls made into Python return, and the imports happen in the order that loads (PyHost).
    - Commands.  A sweep is the table of its configurations up to the first
      error; [serve] without endpoints starts a deployment that holds each GPU
      once and never panics, under the conditions its statement lists, of which
      [Cli.small_decode_limit_panics] and [Cli.zero_rate_panics] show valid
      configurations that miss one; with endpoints it starts no mock (Cli).
    - Planning.  The search returns the best split of those that fit (Capacity);
      every candidate of the tuner is a row or is skipped for a reason, and the
      ranking is that of the scores (Tuning); layouts and CSV tables read back
      (Aic, Csv), independently of the directory order (Load).
    - Decisions inside the executor.  The answer is a partition of the
      candidates, stalls only when the cap says so, and is the same on ranks that
      list the candidates in different orders but read the same clock, arrival
      times, limits and cap (Decide; [Capacity.clocks_split_ranks] without).
    - Transfer plans move every head once, from a rank that has it to a rank that
      needs it (Transfer).

    Theorems that state a defect or a surprise are in the same files: for
    example [Transfer.uneven_plan_leaves_the_group],
    [PrefillW.dropped_chunk_is_lost], [Stream.split_crlf_ends_in_error],
    [Serving.refusing_process_is_chosen_again], [Runs.lost_request_waits_forever],
    [DecodeW.oversized_job_blocks] and [Aic.parse_stops_at_long_key].

    ** Fuel and bounds

    [Simulation.run_loop] takes fuel for its events; [Ends.event_bound] (clients,
    prompt length and the square of the simulated milliseconds) is enough by
    [Ends.run_total].  [Trie.match_loop], [Trie.insert_loop] and [Trie.prune_loop]
    are given the length of the query or the number of nodes, and the index's
    theorems show they never run out.  [Stream.next_event] is given the size of
    what the transport has received, and [Serving.forward] the same for the
    connection; their lemmas show it is enough.  [Aic.parse_groups] is given the
    length of the text.  [Load.LEVELS] is a constant of the source.

    Hypotheses the theorems use: whole milliseconds up to 2^53 where optimality
    needs an exact clock; [Timing.runnable] (a configuration that validates, with
    at most 1000 prefill workers and derived times that are numbers) for the
    simulator; at most 2^31 endpoints for the serving deployment, whose registry
    ids are 32 bits wide, and fewer than 2^32 streams on a process, which a [u32]
    counts.  For the deployment in one process: at most 2^31
    workers of each role for the same reason, at most 2^53 requests, so that a
    worker's concurrency is exact as the double its cap is compared with, and
    [EngineTracks]: a decode engine speaks only of sequences it was given, which
    the mock does.  For whole answers also: [EngineServes], of which the mock is
    an instance; requests whose prompt and budget fit the pages of a worker
    (without that, [DecodeW.oversized_job_blocks]); arrivals while the prompts on
    their way to a prefill worker fit its pages (without that,
    [PrefillW.dropped_chunk_is_lost]); clients that stay and tasks that are not
    aborted.

    ** What is not modelled

    HTTP, the routes of the axum server, JSON, TOML, file access, clap,
    HuggingFace tokenizers, the Python interpreter and the Dynamo runtime are
    libraries: parameters and classes with the behaviour relied on.  The unit tests
    that only exercise these, that read an error's text the model leaves out, or
    that run whole simulations are not translated.  Texts of
    error messages, logging and the passing of time in wall-clock sleeps carry no
    decision (that a sleep panics on a time no [Duration] holds is modelled).
    Panics from arithmetic overflow in debug builds are not modelled: hashes,
    identifiers, 32-bit counts and the 32-bit products of the validation wrap as
    in release builds, and 64-bit counters, which no run can exhaust, are
    unbounded. *)

From stdpp Require Import base option list numbers gmap strings.
From Stdlib Require Import ZArith Lia Sorted.

#[export] Set Default Goal Selector "!".
#[export] Set Warnings "-clear-no-such-hyp".

(** Facts about doubles that are side conditions everywhere. *)
Create HintDb f64.

(** ** Results and errors *)

(** Rust's [Result<T, E>]. *)
Inductive result (E A : Type) : Type :=
  | Ok (a : A)
  | Err (e : E).
Arguments Ok {E A} a.
Arguments Err {E A} e.

Definition is_ok {E A} (r : result E A) : bool :=
  match r with Ok _ => true | Err _ => false end.

(** The [?] operator of Rust, as monadic sequencing. *)
Definition result_bind {E A B} (r : result E A) (k : A -> result E B) : result E B :=
  match r with Ok a => k a | Err e => Err e end.

Declare Scope s_scope.
Delimit Scope s_scope with s.
Notation "x <-? r ;; k" := (result_bind r (fun x => k))
  (at level 100, r at next level, right associativity) : s_scope.

(** ** Machine integers

    Quantities of type [u32], [u64] and [usize] are integers of type [Z];
    the operations that saturate or wrap in the source do so here. *)

Definition sat_sub (a b : Z) : Z := Z.max 0 (a - b).
Definition u64_wrap (a : Z) : Z := a mod 2 ^ 64.
Definition u32_wrap (a : Z) : Z := a mod 2 ^ 32.
Definition u32_max : Z := 2 ^ 32 - 1.
Definition u64_max : Z := 2 ^ 64 - 1.

(** [x.checked_div(y).unwrap_or(d)] on unsigned integers. *)
Definition checked_div_or (d x y : Z) : Z := if (y =? 0)%Z then d else (x / y)%Z.

(** [a.div_ceil(b)] on unsigned integers. *)
Definition div_ceil (a b : Z) : Z := (a / b + (if (a mod b =? 0)%Z then 0 else 1))%Z.

Lemma sat_sub_bounds a b : (0 <= b -> 0 <= a -> 0 <= sat_sub a b <= a)%Z.
Proof. unfold sat_sub. lia. Qed.

Lemma u64_wrap_range a : (0 <= u64_wrap a < 2 ^ 64)%Z.
Proof. apply Z.mod_pos_bound. reflexivity. Qed.

Lemma div_ceil_spec a b : (0 < b -> 0 <= a ->
  a <= div_ceil a b * b /\ (div_ceil a b - 1) * b < a \/ a = 0 /\ div_ceil a b = 0)%Z.
Proof.
  intros Hb Ha. unfold div_ceil.
  pose proof (Z.div_mod a b ltac:(lia)) as Hdm.
  pose proof (Z.mod_pos_bound a b Hb) as Hm.
  destruct (Z.eqb_spec (a mod b) 0) as [Hz|Hz].
  - destruct (decide (a = 0)%Z) as [->|]; [right|left].
    + rewrite Z.div_0_l by lia. lia.
    + nia.
  - left. nia.
Qed.

Lemma div_ceil_mono a b n : (0 < n -> 0 <= a -> a <= b -> div_ceil a n <= div_ceil b n)%Z.
Proof.
  intros Hn Ha Hab. destruct (div_ceil_spec a n Hn Ha) as [[_ H1]|[-> ->]], (div_ceil_spec b n Hn ltac:(lia)) as [[H2 _]|[-> ->]]; nia.
Qed.

(** ** Comparators

    [sort_by] and [max_by] take a comparator as in Rust.  [TotalCmp] is what
    the source relies on: a total preorder. *)

Class TotalCmp {A : Type} (cmp : A -> A -> comparison) : Prop := {
  cmp_opp : forall x y, cmp y x = CompOpp (cmp x y);
  cmp_le_trans : forall x y z, cmp x y <> Gt -> cmp y z <> Gt -> cmp x z <> Gt
}.
Arguments cmp_opp {A} cmp {_} x y.
Arguments cmp_le_trans {A} cmp {_} x y z.

(** [a.cmp(b).then(c.cmp(d))] *)
Definition then_cmp (c d : comparison) : comparison :=
  match c with Eq => d | _ => c end.

Definition cmp_on {A} (key : A -> Z) (x y : A) : comparison := Z.compare (key x) (key y).
Definition cmp_then {A} (c d : A -> A -> comparison) (x y : A) : comparison :=
  then_cmp (c x y) (d x y).
Definition cmp_rev {A} (c : A -> A -> comparison) (x y : A) : comparison := c y x.

Section cmp_lemmas.
Context {A : Type} (cmp : A -> A -> comparison) `{!TotalCmp cmp}.

Lemma cmp_refl x : cmp x x = Eq.
Proof. pose proof (cmp_opp cmp x x). destruct (cmp x x); simpl in *; congruence. Qed.

Lemma cmp_Gt_Lt x y : cmp x y = Gt <-> cmp y x = Lt.
Proof. rewrite (cmp_opp cmp x y). destruct (cmp x y); simpl; intuition congruence. Qed.

Lemma cmp_not_Gt x y : cmp x y <> Gt \/ cmp y x <> Gt.
Proof. rewrite (cmp_opp cmp x y). destruct (cmp x y); simpl; auto; right; congruence. Qed.

Lemma cmp_Lt_not_Gt x y : cmp x y = Gt -> cmp y x <> Gt.
Proof. rewrite (cmp_opp cmp x y). destruct (cmp x y); simpl; congruence. Qed.

Lemma cmp_Eq_sym x y : cmp x y = Eq <-> cmp y x = Eq.
Proof. rewrite (cmp_opp cmp x y). destruct (cmp x y); simpl; intuition congruence. Qed.

Lemma cmp_Eq_trans x y z : cmp x y = Eq -> cmp y z = Eq -> cmp x z = Eq.
Proof.
  intros H1 H2.
  assert (cmp x z <> Gt) by (eapply (cmp_le_trans cmp x y z); congruence).
  assert (cmp z x <> Gt).
  { apply (cmp_le_trans cmp z y x).
    - rewrite (cmp_opp cmp y z), H2. done.
    - rewrite (cmp_opp cmp x y), H1. done. }
  pose proof (cmp_opp cmp x z). destruct (cmp x z); simpl in *; congruence.
Qed.

Lemma cmp_Lt_le_trans x y z : cmp x y = Lt -> cmp y z <> Gt -> cmp x z = Lt.
Proof.
  intros H1 H2.
  assert (cmp x z <> Gt) as H3 by (eapply (cmp_le_trans cmp x y z); congruence).
  destruct (cmp x z) eqn:E; [|done|congruence].
  exfalso. assert (cmp z x <> Gt) by (rewrite (cmp_opp cmp x z), E; done).
  assert (cmp y x <> Gt) as H4 by (eapply (cmp_le_trans cmp y z x); eauto).
  rewrite (cmp_opp cmp x y), H1 in H4. done.
Qed.

Lemma cmp_le_Lt_trans x y z : cmp x y <> Gt -> cmp y z = Lt -> cmp x z = Lt.
Proof.
  intros H1 H2. apply (cmp_Gt_Lt z x).
  assert (cmp z y = Gt) as H3 by by apply cmp_Gt_Lt.
  destruct (cmp z x) eqn:E; [| |done].
  all: exfalso; apply (cmp_le_trans cmp z x y); congruence.
Qed.
End cmp_lemmas.

#[export] Instance cmp_on_total {A} (key : A -> Z) : TotalCmp (cmp_on key).
Proof.
  split; unfold cmp_on.
  - intros x y. apply Z.compare_antisym.
  - intros x y z. rewrite !Z.compare_ngt_iff. lia.
Qed.

#[export] Instance cmp_rev_total {A} (c : A -> A -> comparison) :
  TotalCmp c -> TotalCmp (cmp_rev c).
Proof.
  intros ?. split; unfold cmp_rev.
  - intros x y. apply (cmp_opp c).
  - intros x y z ? ?. eapply (cmp_le_trans c); eauto.
Qed.

#[export] Instance cmp_then_total {A} (c d : A -> A -> comparison) :
  TotalCmp c -> TotalCmp d -> TotalCmp (cmp_then c d).
Proof.
  intros Hc Hd. split; unfold cmp_then, then_cmp.
  - intros x y. rewrite (cmp_opp c x y).
    destruct (c x y); simpl; [apply (cmp_opp d)|done|done].
  - intros x y z H1 H2.
    destruct (c x y) eqn:E1; [| |done].
    + destruct (c y z) eqn:E2; [| |done].
      * rewrite (cmp_Eq_trans c x y z E1 E2). by eapply (cmp_le_trans d).
      * assert (c x z = Lt) as ->; [|done].
        destruct (c x z) eqn:E3; [|done|].
        -- exfalso. apply (cmp_Eq_sym c) in E1.
           rewrite (cmp_Eq_trans c y x z) in E2; done.
        -- exfalso. revert E3. apply (cmp_le_trans c x y z); congruence.
    + assert (c x z = Lt) as ->; [|done].
      apply (cmp_Lt_le_trans c x y z); [done|]. destruct (c y z); congruence.
Qed.

(** ** Sorting and extrema *)

Section sort.
Context {A : Type} (cmp : A -> A -> comparison).

Fixpoint insert_by (x : A) (l : list A) : list A :=
  match l with
  | [] => [x]
  | y :: l' => match cmp x y with Gt => y :: insert_by x l' | _ => x :: l end
  end.

(** [slice::sort_by]: the stable sort. *)
Definition sort_by (l : list A) : list A := foldr insert_by [] l.

Definition cmp_le (x y : A) : Prop := cmp x y <> Gt.
Definition sorted_by (l : list A) : Prop := StronglySorted cmp_le l.

(** [Iterator::max_by]: the last of the maximal elements. *)
Definition max_by (l : list A) : option A :=
  match l with
  | [] => None
  | x :: l' => Some (foldl (fun m y => match cmp m y with Gt => m | _ => y end) x l')
  end.

Lemma insert_by_perm x l : insert_by x l ≡ₚ x :: l.
Proof.
  induction l as [|y l IH]; simpl; [done|].
  destruct (cmp x y); [done|done|]. rewrite IH. apply Permutation_swap.
Qed.

Lemma sort_by_perm l : sort_by l ≡ₚ l.
Proof. induction l as [|x l IH]; simpl; [done|]. by rewrite insert_by_perm, IH. Qed.

Lemma sort_by_length l : length (sort_by l) = length l.
Proof. by rewrite sort_by_perm. Qed.

Lemma elem_of_sort_by x l : x ∈ sort_by l <-> x ∈ l.
Proof. by rewrite sort_by_perm. Qed.

Lemma sort_by_sorted_id l : sorted_by l -> sort_by l = l.
Proof.
  unfold sorted_by. induction 1 as [|x l Hs IH Hall]; simpl; [done|].
  rewrite IH. destruct l as [|y l]; simpl; [done|].
  apply Forall_cons in Hall as [Hxy _]. unfold cmp_le in Hxy.
  by destruct (cmp x y).
Qed.

Context `{!TotalCmp cmp}.

Lemma insert_by_sorted x l : sorted_by l -> sorted_by (insert_by x l).
Proof.
  unfold sorted_by. induction 1 as [|y l Hs IH Hall]; simpl; [repeat constructor|].
  destruct (cmp x y) eqn:E.
  3: { constructor; [done|]. rewrite insert_by_perm. constructor; [|done].
       unfold cmp_le. by apply cmp_Lt_not_Gt. }
  all: constructor; [by constructor|]; constructor; [unfold cmp_le; congruence|].
  all: eapply Forall_impl; [exact Hall|]; intros z Hz; unfold cmp_le in *.
  all: apply (cmp_le_trans cmp x y z); congruence.
Qed.

Lemma sort_by_sorted l : sorted_by (sort_by l).
Proof. induction l; simpl; [constructor|by apply insert_by_sorted]. Qed.

Lemma sorted_by_unique l1 l2 :
  (forall x y, x ∈ l1 -> y ∈ l1 -> cmp x y = Eq -> x = y) ->
  sorted_by l1 -> sorted_by l2 -> l1 ≡ₚ l2 -> l1 = l2.
Proof.
  unfold sorted_by. intros Hinj H1. revert l2 Hinj.
  induction H1 as [|x l1 Hs IH Hall]; intros l2 Hinj H2 Hp.
  { by apply Permutation_nil_l in Hp as ->. }
  destruct H2 as [|y l2 Hs2 Hall2]; [by apply Permutation_nil_r in Hp|].
  assert (x = y) as ->.
  { apply Hinj; [left|rewrite Hp; left|].
    assert (y ∈ x :: l1) as Hy by (rewrite Hp; left).
    assert (x ∈ y :: l2) as Hx by (rewrite <- Hp; left).
    apply elem_of_cons in Hy as [->|Hy]; [by apply cmp_refl|].
    apply elem_of_cons in Hx as [->|Hx]; [by apply cmp_refl|].
    rewrite Forall_forall in Hall, Hall2.
    specialize (Hall _ Hy). specialize (Hall2 _ Hx). unfold cmp_le in *.
    rewrite (cmp_opp cmp x y) in Hall2. by destruct (cmp x y). }
  f_equal. apply IH; [|done|].
  - intros a b Ha Hb. apply Hinj; by right.
  - by apply Permutation_cons_inv in Hp.
Qed.

(** The result of sorting does not depend on the order of the input when the
    comparator separates its elements: this is what makes an iteration over a
    hash map harmless. *)
Lemma sort_by_order_independent l1 l2 :
  (forall x y, x ∈ l1 -> y ∈ l1 -> cmp x y = Eq -> x = y) ->
  l1 ≡ₚ l2 -> sort_by l1 = sort_by l2.
Proof.
  intros Hinj Hp. apply sorted_by_unique.
  - intros x y. rewrite !elem_of_sort_by. apply Hinj.
  - apply sort_by_sorted.
  - apply sort_by_sorted.
  - by rewrite !sort_by_perm.
Qed.

Lemma sorted_by_lookup l i j x y :
  sorted_by l -> l !! i = Some x -> l !! j = Some y -> (i <= j)%nat -> cmp_le x y.
Proof.
  unfold sorted_by. intros Hs. revert i j.
  induction Hs as [|z l Hs IH Hall]; intros i j Hi Hj Hij; [done|].
  destruct i as [|i], j as [|j]; simpl in *; [| |lia|].
  - simplify_eq. unfold cmp_le. rewrite cmp_refl by done. done.
  - simplify_eq. rewrite Forall_forall in Hall. apply Hall.
    by eapply list_elem_of_lookup_2.
  - apply (IH i j); [done|done|lia].
Qed.

Lemma max_fold_spec l x :
  let m := foldl (fun m y => match cmp m y with Gt => m | _ => y end) x l in
  (m = x \/ m ∈ l) /\ cmp_le x m /\ Forall (fun y => cmp_le y m) l.
Proof.
  revert x. induction l as [|y l IH]; intros x; simpl.
  { split; [by left|]. split; [|done]. unfold cmp_le. by rewrite cmp_refl. }
  unfold cmp_le in *. destruct (cmp x y) eqn:E.
  1,2: destruct (IH y) as (Hin & Hle & Hall); split;
    [right; destruct Hin as [Hin|Hin]; [rewrite Hin; left|by right]|];
    split; [apply (cmp_le_trans cmp x y); congruence|by constructor].
  destruct (IH x) as (Hin & Hle & Hall). split.
  { destruct Hin; [by left|by right; right]. }
  split; [done|]. constructor; [|done].
  apply (cmp_le_trans cmp y x); [by apply cmp_Lt_not_Gt|done].
Qed.

Lemma max_by_spec l m :
  max_by l = Some m -> m ∈ l /\ Forall (fun y => cmp_le y m) l.
Proof.
  destruct l as [|x l]; simpl; [done|]. intros [= <-].
  destruct (max_fold_spec l x) as (Hin & Hle & Hall). split.
  - destruct Hin as [->|Hin]; [left|by right].
  - by constructor.
Qed.

Lemma max_by_is_Some l : l <> [] -> exists m, max_by l = Some m.
Proof. destruct l; [done|]. simpl. eauto. Qed.

Lemma max_by_order_independent l1 l2 :
  (forall x y, x ∈ l1 -> y ∈ l1 -> cmp x y = Eq -> x = y) ->
  l1 ≡ₚ l2 -> max_by l1 = max_by l2.
Proof.
  intros Hinj Hp.
  destruct (max_by l1) as [m1|] eqn:E1, (max_by l2) as [m2|] eqn:E2; [| | |done].
  - destruct (max_by_spec _ _ E1) as [Hin1 Hall1].
    destruct (max_by_spec _ _ E2) as [Hin2 Hall2].
    rewrite <- Hp in Hin2, Hall2. rewrite Forall_forall in Hall1, Hall2.
    f_equal. apply Hinj; [done|done|].
    specialize (Hall1 _ Hin2). specialize (Hall2 _ Hin1). unfold cmp_le in *.
    rewrite (cmp_opp cmp m1 m2) in Hall1. by destruct (cmp m1 m2).
  - destruct l2; [|done]. by apply Permutation_nil_r in Hp; subst.
  - destruct l1; [|done]. by apply Permutation_nil_l in Hp; subst.
Qed.
End sort.

(** Sorting by a key of the elements commutes with taking the key. *)
Lemma insert_by_map {A B} (cmp : B -> B -> comparison) (f : A -> B) x l :
  map f (insert_by (fun a b => cmp (f a) (f b)) x l) = insert_by cmp (f x) (map f l).
Proof.
  induction l as [|y l IH]; simpl; [done|]. destruct (cmp (f x) (f y)); simpl; [done|done|].
  by rewrite IH.
Qed.

Lemma sort_by_map {A B} (cmp : B -> B -> comparison) (f : A -> B) l :
  map f (sort_by (fun a b => cmp (f a) (f b)) l) = sort_by cmp (map f l).
Proof. induction l as [|x l IH]; simpl; [done|]. by rewrite insert_by_map, IH. Qed.

(** ** Sums over lists *)

Section zsum.
Local Open Scope Z_scope.
Context {A : Type} (f : A -> Z).

Definition zsum (l : list A) : Z := foldr (fun a n => f a + n) 0 l.

Lemma zsum_cons a l : zsum (a :: l) = f a + zsum l.
Proof. done. Qed.

Lemma zsum_app l1 l2 : zsum (l1 ++ l2) = zsum l1 + zsum l2.
Proof. induction l1 as [|a l1 IH]; cbn [app]; rewrite ?zsum_cons, ?IH; [done|lia]. Qed.

Lemma zsum_perm l1 l2 : l1 ≡ₚ l2 -> zsum l1 = zsum l2.
Proof. induction 1; rewrite ?zsum_cons; lia. Qed.

Lemma zsum_nonneg l : (forall a, a ∈ l -> 0 <= f a) -> 0 <= zsum l.
Proof.
  induction l as [|a l IH]; intros H; [done|]. rewrite zsum_cons.
  pose proof (H a ltac:(left)). pose proof (IH ltac:(intros b ?; apply H; by right)). lia.
Qed.

Lemma zsum_zero l : (forall a, a ∈ l -> f a = 0) -> zsum l = 0.
Proof.
  induction l as [|a l IH]; intros H; [done|]. rewrite zsum_cons, (H a), IH; [done| |left].
  intros b ?; apply H; by right.
Qed.

Lemma zsum_elem l a : (forall b, b ∈ l -> 0 <= f b) -> a ∈ l -> f a <= zsum l.
Proof.
  intros H Ha. apply list_elem_of_split in Ha as (l1 & l2 & ->). rewrite zsum_app, zsum_cons.
  pose proof (zsum_nonneg l1 ltac:(intros b ?; apply H, elem_of_app; by left)).
  pose proof (zsum_nonneg l2 ltac:(intros b ?; apply H, elem_of_app; by right; right)). lia.
Qed.

Lemma zsum_insert l i a b : l !! i = Some a -> zsum (<[i := b]> l) = zsum l - f a + f b.
Proof.
  revert i. induction l as [|x l IH]; intros [|i] Hi; [done|done| |].
  - injection Hi as ->. change (<[0%nat := b]> (a :: l)) with (b :: l). rewrite !zsum_cons. lia.
  - change (<[S i := b]> (x :: l)) with (x :: <[i := b]> l). rewrite !zsum_cons, (IH i) by done. lia.
Qed.
End zsum.

Lemma zsum_map {A B} (f : B -> Z) (g : A -> B) l : zsum f (map g l) = zsum (fun a => f (g a)) l.
Proof. induction l as [|a l IH]; [done|]. cbn [map]. by rewrite !zsum_cons, IH. Qed.

Lemma zsum_ext {A} (f g : A -> Z) l : (forall a, f a = g a) -> zsum f l = zsum g l.
Proof. intros H. induction l as [|a l IH]; [done|]. by rewrite !zsum_cons, H, IH. Qed.

(** ** Counting identifiers *)

Section counting.
Local Open Scope Z_scope.

Definition is_id (id i : Z) : Z := Z.b2z (i =? id).
Definition has {A} (m : gmap Z A) (id : Z) : Z := Z.b2z (bool_decide (is_Some (m !! id))).

Lemma is_id_nonneg id i : 0 <= is_id id i.
Proof. unfold is_id. destruct (_ =? _); done. Qed.

Lemma ids_nonneg id l : 0 <= zsum (is_id id) l.
Proof. apply zsum_nonneg. intros. apply is_id_nonneg. Qed.

Lemma ids_elem id l : id ∈ l <-> 0 < zsum (is_id id) l.
Proof.
  split.
  - intros H. pose proof (zsum_elem (is_id id) l id ltac:(intros; apply is_id_nonneg) H) as Hle.
    unfold is_id at 1 in Hle. rewrite Z.eqb_refl in Hle. cbn in Hle. lia.
  - intros H. destruct (decide (id ∈ l)) as [|Hn]; [done|]. rewrite zsum_zero in H; [lia|].
    intros a Ha. unfold is_id. destruct (Z.eqb_spec a id); [|done]. by subst.
Qed.

Lemma has_nonneg {A} (m : gmap Z A) id : 0 <= has m id <= 1.
Proof. unfold has. by destruct (bool_decide _). Qed.

Lemma has_Some {A} (m : gmap Z A) id a : m !! id = Some a -> has m id = 1.
Proof. intros H. unfold has. by rewrite bool_decide_true by (by eexists). Qed.

Lemma has_None {A} (m : gmap Z A) id : m !! id = None -> has m id = 0.
Proof. intros H. unfold has. rewrite bool_decide_false; [done|]. rewrite H. by intros []. Qed.

Lemma has_pos {A} (m : gmap Z A) id : 0 < has m id -> exists a, m !! id = Some a.
Proof. destruct (m !! id) eqn:E; [by eauto|]. rewrite has_None by done. lia. Qed.

Lemma has_eq {A B} (m : gmap Z A) (m' : gmap Z B) id : (is_Some (m !! id) <-> is_Some (m' !! id)) -> has m id = has m' id.
Proof. intros H. unfold has. by rewrite (bool_decide_ext _ _ H). Qed.

Lemma has_insert {A} (m : gmap Z A) i a id : m !! i = None -> has (<[i := a]> m) id = has m id + is_id id i.
Proof.
  intros H. unfold is_id. destruct (Z.eqb_spec i id) as [->|Hne].
  - rewrite (has_None m) by done. by rewrite (has_Some _ _ a) by apply lookup_insert_eq.
  - unfold has. rewrite lookup_insert_ne by done. cbn. lia.
Qed.

Lemma has_replace {A} (m : gmap Z A) i a id : is_Some (m !! i) -> has (<[i := a]> m) id = has m id.
Proof.
  intros [b H]. apply has_eq. destruct (decide (i = id)) as [->|Hne].
  - rewrite lookup_insert_eq, H. split; by eexists.
  - by rewrite lookup_insert_ne.
Qed.

Lemma has_delete {A} (m : gmap Z A) i id : is_Some (m !! i) -> has (delete i m) id = has m id - is_id id i.
Proof.
  intros [a H]. unfold is_id. destruct (Z.eqb_spec i id) as [->|Hne].
  - rewrite (has_Some m id a) by done. by rewrite has_None by apply lookup_delete_eq.
  - unfold has. rewrite lookup_delete_ne by done. cbn. lia.
Qed.

Lemma ids_NoDup id l : NoDup l -> zsum (is_id id) l = Z.b2z (bool_decide (id ∈ l)).
Proof.
  induction 1 as [|i l Hn Hl IH]; [done|]. rewrite zsum_cons, IH. unfold is_id.
  destruct (Z.eqb_spec i id) as [->|Hne].
  - rewrite bool_decide_false, bool_decide_true; [done|left|done].
  - cbn [Z.b2z]. rewrite Z.add_0_l. f_equal. apply bool_decide_ext. rewrite elem_of_cons. split; [tauto|]. intros [E|H]; [by subst|done].
Qed.

Lemma is_id_same id : is_id id id = 1.
Proof. unfold is_id. by rewrite Z.eqb_refl. Qed.

Lemma once_NoDup (l : list Z) : (forall id, zsum (is_id id) l <= 1) -> NoDup l.
Proof.
  induction l as [|i l IH]; intros H; [constructor|]. constructor.
  - intros Hin. apply ids_elem in Hin. specialize (H i). rewrite zsum_cons in H. unfold is_id at 1 in H.
    rewrite Z.eqb_refl in H. cbn [Z.b2z] in H. lia.
  - apply IH. intros id. specialize (H id). rewrite zsum_cons in H. pose proof (is_id_nonneg id i). lia.
Qed.
End counting.

(** ** Removal by position *)

Definition remove_at {A} (i : nat) (l : list A) : list A := take i l ++ drop (S i) l.

Lemma zsum_remove {A} (f : A -> Z) i l a : l !! i = Some a -> (zsum f (remove_at i l) = zsum f l - f a)%Z.
Proof.
  intros H. unfold remove_at. rewrite zsum_app. rewrite <- (take_drop_middle l i a H) at 3.
  rewrite zsum_app, zsum_cons. lia.
Qed.

Lemma Forall_remove {A} (P : A -> Prop) i l : Forall P l -> Forall P (remove_at i l).
Proof. intros H. apply Forall_app. split; [by apply Forall_take|by apply Forall_drop]. Qed.

(** ** Updates by position *)

Lemma list_alter_Some {A} (f : A -> A) i (l : list A) n : l !! i = Some n -> alter f i l = <[i := f n]> l.
Proof.
  revert i. induction l as [|x l IH]; intros [|i] H; try done.
  - by injection H as ->.
  - change (x :: alter f i l = x :: <[i := f n]> l). by rewrite IH.
Qed.

Lemma list_alter_None {A} (f : A -> A) i (l : list A) : l !! i = None -> alter f i l = l.
Proof.
  revert i. induction l as [|x l IH]; intros [|i] H; try done.
  change (x :: alter f i l = x :: l). by rewrite IH.
Qed.

Lemma Exists_insert {A} (P : A -> Prop) l i x : Exists P (<[i := x]> l) -> P x \/ Exists P l.
Proof.
  rewrite !Exists_exists. intros (y & Hy & Hp). apply list_elem_of_lookup in Hy as [j Hj].
  destruct (decide (i = j)) as [->|Hne].
  - destruct (decide (j < length l)%nat) as [Hlt|Hge].
    + rewrite list_lookup_insert_eq in Hj by done. injection Hj as <-. by left.
    + rewrite list_insert_ge in Hj by lia. right. exists y. split; [by eapply list_elem_of_lookup_2|done].
  - rewrite list_lookup_insert_ne in Hj by done. right. exists y. split; [by eapply list_elem_of_lookup_2|done].
Qed.

Lemma Exists_lookup {A} (P : A -> Prop) l i x : l !! i = Some x -> P x -> Exists P l.
Proof. intros H Hp. apply Exists_exists. exists x. split; [by eapply list_elem_of_lookup_2|done]. Qed.

(** ** Related lists *)

Lemma Forall2_elem_l {A B} (P : A -> B -> Prop) l k a : Forall2 P l k -> a ∈ l -> exists b, b ∈ k /\ P a b.
Proof.
  intros H Ha. apply list_elem_of_lookup in Ha as [i Ha]. destruct (Forall2_lookup_l _ _ _ _ _ H Ha) as (b & Hb & Hp).
  exists b. split; [by eapply list_elem_of_lookup_2|done].
Qed.

Lemma Forall2_elem_r {A B} (P : A -> B -> Prop) l k b : Forall2 P l k -> b ∈ k -> exists a, a ∈ l /\ P a b.
Proof.
  intros H Hb. apply list_elem_of_lookup in Hb as [i Hb]. destruct (Forall2_lookup_r _ _ _ _ _ H Hb) as (a & Ha & Hp).
  exists a. split; [by eapply list_elem_of_lookup_2|done].
Qed.
