(* ===== verification/Sums.v ===== *)
(** * Sums over lists and finite maps

    The accounts of the liveness proofs: what a queue, a batch or a whole
    deployment weighs. *)

From Stdlib Require Import ZArith Lia.
From stdpp Require Import base option list numbers gmap.
From S2P Require Import Prelude.

Local Open Scope Z_scope.

(** ** Lists *)

Section lists.
Context {A : Type}.
Implicit Types f g : A -> Z.

Lemma zsum_le f g l : (forall a, a ∈ l -> f a <= g a) -> zsum f l <= zsum g l.
Proof.
  induction l as [|a l IH]; intros H; [done|]. rewrite !zsum_cons.
  pose proof (H a ltac:(left)). specialize (IH ltac:(intros b ?; apply H; by right)). lia.
Qed.

Lemma zsum_eq f g l : (forall a, a ∈ l -> f a = g a) -> zsum f l = zsum g l.
Proof. intros H. apply Z.le_antisymm; apply zsum_le; intros a Ha; by rewrite H. Qed.

Lemma zsum_plus f g l : zsum (fun a => f a + g a) l = zsum f l + zsum g l.
Proof. induction l as [|a l IH]; [done|]. rewrite !zsum_cons, IH. lia. Qed.

Lemma zsum_opp f l : zsum (fun a => - f a) l = - zsum f l.
Proof. induction l as [|a l IH]; [done|]. rewrite !zsum_cons, IH. lia. Qed.

Lemma zsum_const (c : Z) (l : list A) : zsum (fun _ => c) l = c * Z.of_nat (length l).
Proof. induction l as [|a l IH]; [cbn; lia|]. rewrite zsum_cons, IH. cbn [length]. lia. Qed.

Lemma zsum_filter (P : A -> Prop) `{!forall a, Decision (P a)} f l :
  zsum f (filter P l) = zsum (fun a => if decide (P a) then f a else 0) l.
Proof.
  induction l as [|a l IH]; [done|]. rewrite filter_cons, zsum_cons, <- IH.
  destruct (decide (P a)); [by rewrite zsum_cons|lia].
Qed.

(** The sum over a list of some of the elements of another. *)
Lemma zsum_within f (l k : list A) (P : A -> Prop) `{!forall a, Decision (P a)} : NoDup l -> NoDup k ->
  (forall a, a ∈ l <-> a ∈ k /\ P a) -> zsum f l = zsum (fun a => if decide (P a) then f a else 0) k.
Proof.
  intros Hl Hk Hin. rewrite <- zsum_filter. apply zsum_perm. apply NoDup_Permutation; [done|by apply NoDup_filter|].
  intros a. rewrite list_elem_of_filter, Hin. tauto.
Qed.

(** A strict decrease somewhere is one overall. *)
Lemma zsum_lt f g l a : (forall a, a ∈ l -> f a <= g a) -> a ∈ l -> f a < g a -> zsum f l < zsum g l.
Proof.
  intros H Ha Hlt. apply list_elem_of_split in Ha as (l1 & l2 & ->). rewrite !zsum_app, !zsum_cons.
  pose proof (zsum_le f g l1 ltac:(intros b ?; apply H, elem_of_app; by left)).
  pose proof (zsum_le f g l2 ltac:(intros b ?; apply H, elem_of_app; by right; right)). lia.
Qed.
End lists.

(** ** Maps *)

Definition msum {A} (f : Z -> A -> Z) (m : gmap Z A) : Z := zsum (fun kv => f kv.1 kv.2) (map_to_list m).

(** The part of one key. *)
Definition part {A} (f : Z -> A -> Z) (m : gmap Z A) (id : Z) : Z :=
  match m !! id with Some a => f id a | None => 0 end.

Section maps.
Context {A : Type}.
Implicit Types (f g : Z -> A -> Z) (m : gmap Z A).

Lemma msum_empty f : msum f ∅ = 0.
Proof. unfold msum. by rewrite map_to_list_empty. Qed.

Lemma msum_insert f m i a : m !! i = None -> msum f (<[i := a]> m) = f i a + msum f m.
Proof. intros H. unfold msum. rewrite (zsum_perm _ _ _ (map_to_list_insert m i a H)). by rewrite zsum_cons. Qed.

Lemma msum_delete f m i a : m !! i = Some a -> msum f m = f i a + msum f (delete i m).
Proof. intros H. rewrite <- (msum_insert f (delete i m) i a) by apply lookup_delete_eq. by rewrite insert_delete_id. Qed.

Lemma msum_update f m i a b : m !! i = Some a -> msum f (<[i := b]> m) = msum f m - f i a + f i b.
Proof.
  intros H. rewrite (msum_delete f m i a H), <- insert_delete_eq, msum_insert by apply lookup_delete_eq. lia.
Qed.

Lemma msum_nonneg f m : (forall id a, m !! id = Some a -> 0 <= f id a) -> 0 <= msum f m.
Proof. intros H. apply zsum_nonneg. intros [id a] Hin%elem_of_map_to_list. by apply H. Qed.

Lemma msum_elem f m id a : (forall id a, m !! id = Some a -> 0 <= f id a) -> m !! id = Some a -> f id a <= msum f m.
Proof.
  intros H Ha. rewrite (msum_delete f m id a Ha). pose proof (msum_nonneg f (delete id m)) as Hn.
  enough (0 <= msum f (delete id m)) by lia. apply Hn. intros i b [_ Hb]%lookup_delete_Some. by apply H.
Qed.

(** The sum over a map, key by key. *)
Lemma msum_keys f m (ks : list Z) : NoDup ks -> (forall id, is_Some (m !! id) -> id ∈ ks) ->
  msum f m = zsum (part f m) ks.
Proof.
  intros Hnd Hks. unfold msum.
  assert (zsum (fun kv => f kv.1 kv.2) (map_to_list m) = zsum (part f m) (map_to_list m).*1) as ->.
  { change (?g <$> map_to_list m) with (map g (map_to_list m)). rewrite zsum_map. apply zsum_eq.
    intros [id a] Hin%elem_of_map_to_list. unfold part. cbn [fst snd]. by rewrite Hin. }
  rewrite (zsum_within (part f m) (map_to_list m).*1 ks (fun id => is_Some (m !! id))).
  - apply zsum_eq. intros id _. unfold part. destruct (m !! id); destruct (decide _) as [H|H]; try done.
    + destruct H. by eexists.
  - apply NoDup_fst_map_to_list.
  - done.
  - intros id. rewrite list_elem_of_fmap. split.
    + intros ([i a] & -> & Hin%elem_of_map_to_list). cbn [fst]. split; [apply Hks|]; by eexists.
    + intros [_ [a Ha]]. exists (id, a). split; [done|by apply elem_of_map_to_list].
Qed.

Lemma keys_elem m id : id ∈ (map_to_list m).*1 <-> is_Some (m !! id).
Proof.
  rewrite list_elem_of_fmap. split.
  - intros ([i a] & -> & Hin%elem_of_map_to_list). by eexists.
  - intros [a Ha]. exists (id, a). split; [done|by apply elem_of_map_to_list].
Qed.
End maps.
