(* ===== verification/F64.v ===== *)
(** * Binary64 floating point

    Rust's [f64] as the Standard Library's specification of IEEE 754
    ([SpecFloat], 53 bits of precision, exponent bound 1024): every operation
    of the source computes here bit for bit.  [SpecFloat] has a single NaN; the
    sign and payload of a NaN are not modelled, and [total_cmp] places it above
    plus infinity.

    The second half is the theory the components need: the comparisons are
    those of a total preorder, a valid finite value is an integer multiple of
    2^-1074, and a rounded result never crosses a representable value. *)

From stdpp Require Import base option list numbers.
From Stdlib Require Import ZArith Lia SpecFloat.
From S2P Require Import Prelude.

Abbreviation f64 := spec_float.

Declare Scope f64_scope.
Delimit Scope f64_scope with f64.

(** ** Arithmetic *)

Definition fadd : f64 -> f64 -> f64 := SFadd 53 1024.
Definition fsub : f64 -> f64 -> f64 := SFsub 53 1024.
Definition fmul : f64 -> f64 -> f64 := SFmul 53 1024.
Definition fdiv : f64 -> f64 -> f64 := SFdiv 53 1024.
Definition fneg : f64 -> f64 := SFopp.
Definition fabs : f64 -> f64 := SFabs.

Notation "x + y" := (fadd x y) : f64_scope.
Notation "x - y" := (fsub x y) : f64_scope.
Notation "x * y" := (fmul x y) : f64_scope.
Notation "x / y" := (fdiv x y) : f64_scope.

(** The conversions [n as f64] and [f64::from(n)]: correctly rounded. *)
Definition of_Z (n : Z) : f64 := binary_normalize 53 1024 n 0 false.
Definition of_nat (n : nat) : f64 := of_Z (Z.of_nat n).

(** The decimal literal [m * 10^-k].  Both operands are exact for the literals
    of the source, so the correctly rounded quotient is the literal's value. *)
Definition dec (m : Z) (k : Z) : f64 := fdiv (of_Z m) (of_Z (10 ^ k)).

Definition f0 : f64 := S754_zero false.
Definition fneg0 : f64 := S754_zero true.
Definition f1 : f64 := of_Z 1.
Definition INFINITY : f64 := S754_infinity false.
Definition NAN : f64 := S754_nan.
(** [f64::MIN_POSITIVE], the smallest normal number. *)
Definition MIN_POSITIVE : f64 := S754_finite false (2 ^ 52) (-1074).

(** ** Comparisons *)

Definition flt (x y : f64) : bool := SFltb x y.
Definition fle (x y : f64) : bool := SFleb x y.
Definition fgt (x y : f64) : bool := SFltb y x.
Definition fge (x y : f64) : bool := SFleb y x.
Definition feq (x y : f64) : bool := SFeqb x y.

Definition is_nan (x : f64) : bool := match x with S754_nan => true | _ => false end.
Definition is_infinite (x : f64) : bool :=
  match x with S754_infinity _ => true | _ => false end.
Definition is_finite (x : f64) : bool :=
  match x with S754_zero _ | S754_finite _ _ _ => true | _ => false end.

(** [f64::max] and [f64::min]: a NaN operand is ignored. *)
Definition fmax (x y : f64) : f64 :=
  if is_nan x then y else if is_nan y then x else if flt x y then y else x.
Definition fmin (x y : f64) : f64 :=
  if is_nan x then y else if is_nan y then x else if flt y x then y else x.

(** [f64::clamp] for [lo <= hi]; Rust panics otherwise, which callers that may
    pass other bounds model themselves. *)
Definition fclamp (x lo hi : f64) : f64 :=
  if flt x lo then lo else if flt hi x then hi else x.

(** The magnitude bits of a value, as an integer. *)
Definition mag_bits (x : f64) : Z :=
  match x with
  | S754_zero _ => 0
  | S754_finite _ m e => (e + 1074) * 2 ^ 52 + Zpos m
  | S754_infinity _ => 2047 * 2 ^ 52
  | S754_nan => 2047 * 2 ^ 52 + 2 ^ 51
  end%Z.

Definition sign_bit (x : f64) : bool :=
  match x with
  | S754_zero s | S754_infinity s | S754_finite s _ _ => s
  | S754_nan => false
  end.

(** The signed integer [f64::total_cmp] compares: the bit pattern, with the
    magnitude bits of a negative number complemented. *)
Definition total_key (x : f64) : Z :=
  if sign_bit x then (- mag_bits x - 1)%Z else mag_bits x.
Definition total_cmp (x y : f64) : comparison := cmp_on total_key x y.

(** [f64::partial_cmp] *)
Definition partial_cmp (x y : f64) : option comparison := SFcompare x y.

(** ** Rounding to integers *)

Definition fceil (x : f64) : f64 :=
  match x with
  | S754_finite s m e =>
      if (0 <=? e)%Z then x
      else
        let d := (2 ^ (- e))%Z in
        if s then binary_normalize 53 1024 (- (Zpos m / d)) 0 true
        else of_Z (div_ceil (Zpos m) d)
  | _ => x
  end.

(** [f64::round]: half away from zero. *)
Definition fround (x : f64) : f64 :=
  match x with
  | S754_finite s m e =>
      if (0 <=? e)%Z then x
      else
        let d := (2 ^ (- e))%Z in
        let n := ((2 * Zpos m + d) / (2 * d))%Z in
        binary_normalize 53 1024 (if s then - n else n)%Z 0 s
  | _ => x
  end.

(** [x as usize] on a 64-bit target: truncating and saturating. *)
Definition to_usize (x : f64) : Z :=
  match x with
  | S754_finite false m e =>
      Z.min u64_max (if (0 <=? e)%Z then Zpos m * 2 ^ e else Zpos m / 2 ^ (- e))%Z
  | S754_infinity false => u64_max
  | _ => 0%Z
  end.

(** [Iterator::sum::<f64>], whose neutral element is -0.0. *)
Definition fsum (l : list f64) : f64 := foldl fadd fneg0 l.

(** ** The comparisons as a total preorder *)

Section key.
Local Open Scope Z_scope.
Definition key_class (x : f64) : Z :=
  match x with
  | S754_infinity true => -2
  | S754_finite true _ _ => -1
  | S754_zero _ => 0
  | S754_finite false _ _ => 1
  | S754_infinity false => 2
  | S754_nan => 3
  end.
Definition key_exp (x : f64) : Z :=
  match x with
  | S754_finite true _ e => - e
  | S754_finite false _ e => e
  | _ => 0
  end.
Definition key_man (x : f64) : Z :=
  match x with
  | S754_finite true m _ => Zneg m
  | S754_finite false m _ => Zpos m
  | _ => 0
  end.
End key.

Definition fcmp : f64 -> f64 -> comparison :=
  cmp_then (cmp_on key_class) (cmp_then (cmp_on key_exp) (cmp_on key_man)).

#[export] Instance fcmp_total : TotalCmp fcmp.
Proof. apply cmp_then_total; [|apply cmp_then_total]; apply cmp_on_total. Qed.

#[export] Instance total_cmp_total : TotalCmp total_cmp.
Proof. apply (cmp_on_total total_key). Qed.

Lemma SFcompare_fcmp x y :
  is_nan x = false -> is_nan y = false -> SFcompare x y = Some (fcmp x y).
Proof.
  destruct x as [[]|[]| |[] m1 e1], y as [[]|[]| |[] m2 e2]; simpl; try done; intros _ _;
    unfold fcmp, cmp_then, then_cmp, cmp_on; simpl; f_equal.
  - rewrite !Z.compare_opp, (Z.compare_antisym e1 e2). destruct (Z.compare e1 e2); simpl; [|done|done].
    change (Pos.compare_cont Eq m1 m2) with (Pos.compare m1 m2). done.
  - destruct (Z.compare e1 e2); done.
Qed.

Lemma SFcompare_nan x y :
  is_nan x || is_nan y = true -> SFcompare x y = None.
Proof. by destruct x as [[]|[]| |[] ? ?], y as [[]|[]| |[] ? ?]. Qed.

Lemma flt_fcmp x y :
  flt x y = true <-> is_nan x = false /\ is_nan y = false /\ fcmp x y = Lt.
Proof.
  unfold flt, SFltb. destruct (is_nan x) eqn:Hx, (is_nan y) eqn:Hy;
    try (rewrite SFcompare_nan by (rewrite Hx, Hy; done); intuition congruence).
  rewrite SFcompare_fcmp by done. destruct (fcmp x y); intuition congruence.
Qed.

Lemma fle_fcmp x y :
  fle x y = true <-> is_nan x = false /\ is_nan y = false /\ fcmp x y <> Gt.
Proof.
  unfold fle, SFleb. destruct (is_nan x) eqn:Hx, (is_nan y) eqn:Hy;
    try (rewrite SFcompare_nan by (rewrite Hx, Hy; done); intuition congruence).
  rewrite SFcompare_fcmp by done. destruct (fcmp x y); intuition congruence.
Qed.

Lemma fle_refl x : is_nan x = false -> fle x x = true.
Proof. intros. rewrite fle_fcmp, (cmp_refl fcmp). done. Qed.

Lemma fle_trans x y z : fle x y = true -> fle y z = true -> fle x z = true.
Proof.
  rewrite !fle_fcmp. intros (?&?&?) (?&?&?). split; [done|]. split; [done|].
  by apply (cmp_le_trans fcmp x y z).
Qed.

Lemma flt_le_trans x y z : flt x y = true -> fle y z = true -> flt x z = true.
Proof.
  rewrite !flt_fcmp, fle_fcmp. intros (?&?&?) (?&?&?). split; [done|]. split; [done|].
  by apply (cmp_Lt_le_trans fcmp x y z).
Qed.

Lemma flt_fle x y : flt x y = true -> fle x y = true.
Proof. rewrite flt_fcmp, fle_fcmp. intros (?&?&->). done. Qed.

Lemma fle_lt_trans x y z : fle x y = true -> flt y z = true -> flt x z = true.
Proof.
  rewrite !flt_fcmp, fle_fcmp. intros (?&?&?) (?&?&?). split; [done|]. split; [done|].
  by apply (cmp_le_Lt_trans fcmp x y z).
Qed.

Lemma flt_trans x y z : flt x y = true -> flt y z = true -> flt x z = true.
Proof. intros H1 H2%flt_fle. by eapply flt_le_trans. Qed.

Lemma flt_irrefl x : flt x x = false.
Proof.
  destruct (flt x x) eqn:E; [|done]. rewrite flt_fcmp, (cmp_refl fcmp) in E. by destruct E as (_&_&?).
Qed.

Lemma fle_negb_flt x y :
  is_nan x = false -> is_nan y = false -> fle x y = negb (flt y x).
Proof.
  intros Hx Hy. apply eq_true_iff_eq. rewrite fle_fcmp, negb_true_iff, <- (not_true_iff_false (flt y x)), flt_fcmp.
  rewrite (cmp_opp fcmp x y). destruct (fcmp x y); simpl; intuition congruence.
Qed.

Lemma flt_nan_l x y : flt x y = true -> is_nan x = false.
Proof. rewrite flt_fcmp. tauto. Qed.
Lemma flt_nan_r x y : flt x y = true -> is_nan y = false.
Proof. rewrite flt_fcmp. tauto. Qed.
Lemma fle_nan_l x y : fle x y = true -> is_nan x = false.
Proof. rewrite fle_fcmp. tauto. Qed.
Lemma fle_nan_r x y : fle x y = true -> is_nan y = false.
Proof. rewrite fle_fcmp. tauto. Qed.

(** ** Values

    A valid finite number is [ival x * 2^-1074] with [ival x] an integer, so
    the theory of the comparisons and of rounding is integer arithmetic.  The
    infinities are given the first magnitude beyond the finite ones. *)

Definition valid (x : f64) : Prop := valid_binary 53 1024 x = true.

Section values.
Local Open Scope Z_scope.

Definition signed (s : bool) (n : Z) : Z := if s then - n else n.

Definition ival (x : f64) : Z :=
  match x with
  | S754_zero _ | S754_nan => 0
  | S754_finite s m e => signed s (Zpos m * 2 ^ (e + 1074))
  | S754_infinity s => signed s (2 ^ 2098)
  end.

Lemma pow2_pos n : 0 <= n -> 0 < 2 ^ n.
Proof. intros. by apply Z.pow_pos_nonneg. Qed.

Lemma pow2_split a b : 0 <= a -> 0 <= b -> 2 ^ (a + b) = 2 ^ a * 2 ^ b.
Proof. intros. by apply Z.pow_add_r. Qed.

Lemma pow2_mono a b : 0 <= a <= b -> 2 ^ a <= 2 ^ b.
Proof. intros. apply Z.pow_le_mono_r; lia. Qed.

Lemma digits_bounds m :
  2 ^ (Zpos (digits2_pos m) - 1) <= Zpos m < 2 ^ Zpos (digits2_pos m).
Proof.
  induction m as [m IH|m IH|]; cbn [digits2_pos]; [| |done].
  all: rewrite Pos2Z.inj_succ, <- Z.add_1_r, Z.add_simpl_r.
  all: rewrite (pow2_split (Zpos (digits2_pos m)) 1) by lia.
  all: pose proof (pow2_split (Zpos (digits2_pos m) - 1) 1) as Hs;
       rewrite Z.sub_add in Hs; lia.
Qed.

Lemma fexp_eq n : fexp 53 1024 n = Z.max (n - 53) (-1074).
Proof. done. Qed.

Lemma valid_finite s m e :
  valid (S754_finite s m e) <->
  Zpos m < 2 ^ 53 /\ -1074 <= e <= 971 /\ (2 ^ 52 <= Zpos m \/ e = -1074).
Proof.
  unfold valid; cbn [valid_binary]. unfold bounded, canonical_mantissa.
  rewrite andb_true_iff, Z.eqb_eq, Z.leb_le, fexp_eq.
  pose proof (digits_bounds m) as [Hl Hu].
  set (d := Zpos (digits2_pos m)) in *. assert (1 <= d) by lia.
  split.
  - intros [He H971]. assert (d <= 53) by lia.
    pose proof (pow2_mono d 53). split; [lia|]. split; [lia|].
    destruct (decide (d = 53)) as [->|]; [left; done|right; lia].
  - intros (Hm & He & Hc). split; [|lia].
    assert (d <= 53).
    { destruct (decide (d <= 53)); [done|]. pose proof (pow2_mono 53 (d - 1)). lia. }
    destruct Hc as [Hc| ->]; [|lia].
    destruct (decide (d <= 52)); [|lia]. pose proof (pow2_mono d 52). lia.
Qed.

Lemma valid_neg x : valid (fneg x) <-> valid x.
Proof. by destruct x. Qed.

Lemma finite_lex_lt s1 s2 m1 e1 m2 e2 :
  valid (S754_finite s1 m1 e1) -> valid (S754_finite s2 m2 e2) -> e1 < e2 ->
  Zpos m1 * 2 ^ (e1 + 1074) < Zpos m2 * 2 ^ (e2 + 1074).
Proof.
  rewrite !valid_finite. intros (Hm1 & He1 & _) (Hm2 & He2 & Hc) Hlt.
  destruct Hc as [Hc|]; [|lia].
  pose proof (pow2_pos (e1 + 1074) ltac:(lia)).
  assert (2 ^ (e1 + 1074) * 2 <= 2 ^ (e2 + 1074)).
  { pose proof (pow2_mono (e1 + 1074 + 1) (e2 + 1074) ltac:(lia)) as Hp.
    rewrite pow2_split in Hp by lia. lia. }
  nia.
Qed.

Lemma finite_below_inf s m e :
  valid (S754_finite s m e) -> 0 < Zpos m * 2 ^ (e + 1074) < 2 ^ 2098.
Proof.
  rewrite valid_finite. intros (Hm & He & _).
  pose proof (pow2_pos (e + 1074) ltac:(lia)). split; [nia|].
  pose proof (pow2_mono (e + 1074) 2045 ltac:(lia)) as Hp.
  assert (2 ^ 2098 = 2 ^ 53 * 2 ^ 2045) as -> by (rewrite <- pow2_split by lia; done).
  nia.
Qed.

Lemma lex_compare s1 s2 m1 e1 m2 e2 :
  valid (S754_finite s1 m1 e1) -> valid (S754_finite s2 m2 e2) ->
  then_cmp (e1 ?= e2) (Zpos m1 ?= Zpos m2) =
  (Zpos m1 * 2 ^ (e1 + 1074) ?= Zpos m2 * 2 ^ (e2 + 1074)).
Proof.
  intros H1 H2. unfold then_cmp. symmetry.
  destruct (Z.compare_spec e1 e2) as [->|Hlt|Hgt].
  - assert (0 < 2 ^ (e2 + 1074)).
    { apply pow2_pos. apply valid_finite in H2. lia. }
    destruct (Z.compare_spec (Zpos m1) (Zpos m2)) as [->|?|?].
    + apply Z.compare_refl.
    + apply Z.compare_lt_iff. nia.
    + apply Z.compare_gt_iff. nia.
  - apply Z.compare_lt_iff. by eapply finite_lex_lt.
  - apply Z.compare_gt_iff. by eapply finite_lex_lt.
Qed.

Lemma fcmp_ival x y :
  valid x -> valid y -> is_nan x = false -> is_nan y = false ->
  fcmp x y = (ival x ?= ival y).
Proof.
  intros Hx Hy Nx Ny. unfold fcmp, cmp_then, cmp_on.
  destruct x as [[]|[]| |[] m1 e1]; try done;
  destruct y as [[]|[]| |[] m2 e2]; try done;
    cbn [key_class key_exp key_man ival signed];
    match goal with |- context [then_cmp (?a ?= ?b) _] =>
      let c := eval vm_compute in (a ?= b) in change (a ?= b) with c end;
    cbn [then_cmp]; try done; symmetry.
  all: try (pose proof (finite_below_inf _ _ _ Hx)).
  all: try (pose proof (finite_below_inf _ _ _ Hy)).
  all: try (apply Z.compare_lt_iff; lia).
  all: try (apply Z.compare_gt_iff; lia).
  - change (Zneg m1 ?= Zneg m2) with (- Zpos m1 ?= - Zpos m2).
    rewrite !Z.compare_opp. by rewrite <- (lex_compare true true m2 e2 m1 e1) by done.
  - by rewrite <- (lex_compare false false m1 e1 m2 e2) by done.
Qed.

Lemma fle_ival x y :
  valid x -> valid y -> is_nan x = false -> is_nan y = false ->
  fle x y = true <-> ival x <= ival y.
Proof. intros. rewrite fle_fcmp, fcmp_ival, Z.compare_le_iff by done. tauto. Qed.

Lemma flt_ival x y :
  valid x -> valid y -> is_nan x = false -> is_nan y = false ->
  flt x y = true <-> ival x < ival y.
Proof. intros. rewrite flt_fcmp, fcmp_ival, Z.compare_lt_iff by done. tauto. Qed.
End values.

(** ** Rounding

    [binary_round_aux] is analysed through the exact value it rounds, [N / W]
    in units of 2^e: a shift record is the integer part of [N / W] together
    with the position of the remainder, and two shifts produce the nearest
    integer, ties to even. *)

Section rounding.
Local Open Scope Z_scope.

Definition rec_spec (N W : Z) (r : shr_record) : Prop :=
  let R := N - shr_m r * W in
  0 <= R < W /\
  match loc_of_shr_record r with
  | loc_Exact => R = 0
  | loc_Inexact Lt => 0 < R /\ 2 * R < W
  | loc_Inexact Eq => 0 < R /\ 2 * R = W
  | loc_Inexact Gt => W < 2 * R
  end.

Lemma shr_1_spec N W r :
  0 <= shr_m r -> rec_spec N W r ->
  0 <= shr_m (shr_1 r) /\ rec_spec N (W * 2) (shr_1 r).
Proof.
  unfold rec_spec. destruct r as [m [] []]; destruct m as [|[p|p|]|p]; simpl; lia.
Qed.

Lemma iter_shr_1_spec p N W r :
  0 <= shr_m r -> rec_spec N W r ->
  0 <= shr_m (iter_pos shr_1 p r) /\ rec_spec N (W * 2 ^ Zpos p) (iter_pos shr_1 p r).
Proof.
  revert W r. induction p as [p IH|p IH|]; intros W r Hm Hr; cbn [iter_pos].
  - destruct (shr_1_spec _ _ _ Hm Hr) as [Hm1 Hr1].
    destruct (IH _ _ Hm1 Hr1) as [Hm2 Hr2].
    replace (W * 2 ^ Zpos p~1) with (W * 2 * 2 ^ Zpos p * 2 ^ Zpos p); [by apply IH|].
    replace (Zpos p~1) with (Zpos p + Zpos p + 1) by lia.
    rewrite !pow2_split by lia. change (2 ^ 1) with 2. lia.
  - destruct (IH _ _ Hm Hr) as [Hm2 Hr2].
    replace (W * 2 ^ Zpos p~0) with (W * 2 ^ Zpos p * 2 ^ Zpos p); [by apply IH|].
    replace (Zpos p~0) with (Zpos p + Zpos p) by lia.
    rewrite !pow2_split by lia. lia.
  - change (2 ^ 1) with 2. by apply shr_1_spec.
Qed.

Lemma shr_spec r e n N W :
  0 <= shr_m r -> rec_spec N W r ->
  let r' := fst (shr r e n) in
  0 <= shr_m r' /\ rec_spec N (W * 2 ^ Z.max 0 n) r' /\ snd (shr r e n) = e + Z.max 0 n.
Proof.
  intros Hm Hr. destruct n as [|p|p]; cbn [shr fst snd Z.max Z.compare].
  - rewrite Z.mul_1_r, Z.add_0_r. done.
  - destruct (iter_shr_1_spec p N W r Hm Hr). done.
  - rewrite Z.mul_1_r, Z.add_0_r. done.
Qed.

(** Division rounded to nearest, ties to even. *)
Definition rne (N W : Z) : Z :=
  let q := N / W in
  match (2 * (N mod W) ?= W) with
  | Lt => q
  | Gt => q + 1
  | Eq => if Z.even q then q else q + 1
  end.

Lemma rec_spec_rne N W r :
  0 < W -> rec_spec N W r ->
  round_nearest_even (shr_m r) (loc_of_shr_record r) = rne N W.
Proof.
  unfold rec_spec, rne. intros HW [Hb Hl].
  rewrite <- (Z.div_unique_pos N W (shr_m r) (N - shr_m r * W)) by lia.
  rewrite <- (Z.mod_unique_pos N W (shr_m r) (N - shr_m r * W)) by lia.
  destruct (loc_of_shr_record r) as [|[]]; cbn [round_nearest_even].
  - rewrite Hl. by destruct W.
  - destruct Hl as [_ ->]. by rewrite Z.compare_refl.
  - destruct Hl as [_ Hl%Z.compare_lt_iff]. by rewrite Hl.
  - assert ((2 * (N - shr_m r * W) ?= W) = Gt) as -> by (apply Z.compare_gt_iff; lia). done.
Qed.

Lemma rne_cases N W : 0 < W -> rne N W = N / W \/ rne N W = N / W + 1 /\ N mod W <> 0.
Proof.
  intros HW. unfold rne. destruct (Z.compare_spec (2 * (N mod W)) W).
  - destruct (Z.even _); [by left|right]. lia.
  - by left.
  - right. lia.
Qed.

Lemma rne_ge N W k : 0 < W -> k * W <= N -> k <= rne N W.
Proof.
  intros HW Hk. assert (k <= N / W) by (apply Z.div_le_lower_bound; lia).
  destruct (rne_cases N W HW) as [-> | [-> _]]; lia.
Qed.

Lemma rne_le N W k : 0 < W -> N <= k * W -> rne N W <= k.
Proof.
  intros HW Hk. pose proof (Z.div_mod N W ltac:(lia)).
  pose proof (Z.mod_pos_bound N W HW).
  destruct (rne_cases N W HW) as [-> | [-> Hr]]; nia.
Qed.

Lemma shr_record_of_loc_m m l : shr_m (shr_record_of_loc m l) = m.
Proof. by destruct l as [|[]]. Qed.

Lemma Zdigits2_bounds m :
  0 < m -> 2 ^ (Zdigits2 m - 1) <= m < 2 ^ Zdigits2 m /\ 0 < Zdigits2 m.
Proof.
  destruct m as [|p|p]; [lia| |lia]. intros _.
  split; [apply digits_bounds|]. cbn [Zdigits2]. lia.
Qed.

Lemma Zdigits2_nonneg m : 0 <= Zdigits2 m.
Proof. by destruct m. Qed.

Lemma Zdigits2_le m d : 0 <= m < 2 ^ d -> 0 <= d -> Zdigits2 m <= d.
Proof.
  intros Hm Hd. destruct (decide (m = 0)) as [->|]; [done|].
  destruct (Zdigits2_bounds m) as [[Hl _] Hp]; [lia|].
  destruct (decide (Zdigits2 m <= d)); [done|].
  pose proof (pow2_mono d (Zdigits2 m - 1)). lia.
Qed.
End rounding.

Section round_aux.
Local Open Scope Z_scope.

Lemma shr_nonpos r e n : n <= 0 -> shr r e n = (r, e).
Proof. by destruct n. Qed.

Definition finish_round (s : bool) (M E : Z) : f64 :=
  match M with
  | Z0 => S754_zero s
  | Zpos m => if E <=? 971 then S754_finite s m E else S754_infinity s
  | Zneg _ => S754_nan
  end.

Lemma finish_round_spec s M E :
  -1074 <= E -> 0 <= M < 2 ^ 53 -> 2 ^ 52 <= M \/ E = -1074 ->
  let r := finish_round s M E in
  valid r /\ is_nan r = false /\ sign_bit r = s /\
  ival r = signed s (Z.min (M * 2 ^ (E + 1074)) (2 ^ 2098)).
Proof.
  intros HE HM Hc. destruct M as [|m|m]; [| |lia]; cbn [finish_round].
  { cbn zeta. rewrite Z.mul_0_l, Z.min_l by (by apply Z.pow_nonneg).
    by destruct s. }
  cbn zeta. destruct (Z.leb_spec E 971) as [H971|H971].
  - assert (valid (S754_finite s m E)) as Hv by (apply valid_finite; lia).
    pose proof (finite_below_inf _ _ _ Hv).
    split; [done|]. split; [done|]. split; [done|].
    cbn [ival]. rewrite Z.min_l by lia. done.
  - split; [done|]. split; [done|]. split; [done|].
    cbn [ival]. rewrite Z.min_r; [done|].
    assert (2 ^ 2098 = 2 ^ 52 * 2 ^ 2046) as -> by (rewrite <- pow2_split by lia; done).
    pose proof (pow2_mono 2046 (E + 1074) ltac:(lia)).
    pose proof (pow2_pos 2046 ltac:(lia)). nia.
Qed.

Lemma second_shift_spec s M E :
  -1074 <= E -> 0 <= M <= 2 ^ 53 -> 2 ^ 52 <= M \/ E = -1074 ->
  let r := let '(r2, e2) := shr_fexp 53 1024 M E loc_Exact in
           finish_round s (shr_m r2) e2 in
  valid r /\ is_nan r = false /\ sign_bit r = s /\
  ival r = signed s (Z.min (M * 2 ^ (E + 1074)) (2 ^ 2098)).
Proof.
  intros HE HM Hc. unfold shr_fexp. destruct (decide (M = 2 ^ 53)) as [->|Hne].
  - rewrite fexp_eq. change (Zdigits2 (2 ^ 53)) with 54.
    replace (Z.max (54 + E - 53) (-1074) - E) with 1 by lia.
    change (shr _ _ 1) with ({| shr_m := 2 ^ 52; shr_r := false; shr_s := false |}, E + 1).
    cbn [shr_m].
    destruct (finish_round_spec s (2 ^ 52) (E + 1)) as (?&?&?&Hi); [lia|lia|by left|].
    split; [done|]. split; [done|]. split; [done|]. rewrite Hi.
    replace (2 ^ 53 * 2 ^ (E + 1074)) with (2 ^ 52 * 2 ^ (E + 1 + 1074)); [done|].
    replace (E + 1 + 1074) with (1 + (E + 1074)) by lia.
    rewrite pow2_split by lia. lia.
  - assert (Zdigits2 M <= 53) by (apply Zdigits2_le; lia).
    rewrite shr_nonpos by (rewrite fexp_eq; lia).
    rewrite shr_record_of_loc_m. apply finish_round_spec; lia.
Qed.

Lemma binary_round_aux_val s m e l N W :
  0 <= m -> 0 < W -> rec_spec N W (shr_record_of_loc m l) ->
  e <= fexp 53 1024 (Zdigits2 m + e) ->
  let E := fexp 53 1024 (Zdigits2 m + e) in
  let M := rne N (W * 2 ^ (E - e)) in
  let r := binary_round_aux 53 1024 s m e l in
  (E = -1074 \/ W * 2 ^ (52 + (E - e)) <= N) /\
  valid r /\ is_nan r = false /\ sign_bit r = s /\
  ival r = signed s (Z.min (M * 2 ^ (E + 1074)) (2 ^ 2098)).
Proof.
  intros Hm HW Hr HeE E M r.
  assert (-1074 <= E) as HE by (unfold E; rewrite fexp_eq; lia).
  pose proof (Zdigits2_nonneg m) as Hd0.
  pose proof (pow2_pos (E - e) ltac:(lia)) as Hp.
  assert (m * W <= N < (m + 1) * W) as HN.
  { destruct Hr as [Hr _]. rewrite shr_record_of_loc_m in Hr. lia. }
  assert (N <= 2 ^ 53 * (W * 2 ^ (E - e))) as Hup.
  { assert (m < 2 ^ Zdigits2 m).
    { destruct (decide (m = 0)) as [->|]; [done|]. by apply Zdigits2_bounds; lia. }
    assert (Zdigits2 m <= 53 + (E - e)) by (unfold E; rewrite fexp_eq; lia).
    pose proof (pow2_mono (Zdigits2 m) (53 + (E - e)) ltac:(lia)) as Hmono.
    rewrite pow2_split in Hmono by lia. nia. }
  assert (E = -1074 \/ W * 2 ^ (52 + (E - e)) <= N) as Hlow.
  { destruct (decide (E = -1074)); [by left|right].
    assert (E = Zdigits2 m + e - 53) by (unfold E in *; rewrite fexp_eq in *; lia).
    assert (0 < m) as Hm0.
    { destruct (decide (m = 0)) as [->|]; [|lia]. cbn [Zdigits2] in *. lia. }
    destruct (Zdigits2_bounds m Hm0) as [[Hl _] _].
    replace (52 + (E - e)) with (Zdigits2 m - 1) by lia. nia. }
  split; [done|].
  assert (0 <= M <= 2 ^ 53) as HM.
  { split; [apply rne_ge; nia|apply rne_le; nia]. }
  assert (2 ^ 52 <= M \/ E = -1074) as Hc.
  { destruct Hlow as [|Hlow]; [by right|left]. apply rne_ge; [nia|].
    rewrite pow2_split in Hlow by lia. nia. }
  assert (r = let '(r2, e2) := shr_fexp 53 1024 M E loc_Exact in
              finish_round s (shr_m r2) e2) as ->;
    [|exact (second_shift_spec s M E HE HM Hc)].
  unfold r, binary_round_aux, shr_fexp at 1. fold E.
  pose proof (shr_spec (shr_record_of_loc m l) e (E - e) N W) as Hs.
  rewrite shr_record_of_loc_m in Hs. destruct (Hs Hm Hr) as (_ & Hr1 & He1). clear Hs.
  destruct (shr (shr_record_of_loc m l) e (E - e)) as [r1 e1]. cbn [fst snd] in *.
  rewrite Z.max_r in Hr1, He1 by lia. assert (e1 = E) as -> by lia.
  rewrite (rec_spec_rne N (W * 2 ^ (E - e)) r1) by (done || nia). done.
Qed.
End round_aux.

(** ** Faithful rounding

    [faithful r Num Den] says that [r] is what rounding [Num / Den] (in units
    of 2^-1074) may give: no representable value lies strictly between the two.
    It is the only fact about rounding that the components use. *)

Section faithful.
Local Open Scope Z_scope.

Definition grid (g : Z) : Prop :=
  (exists m e, Z.abs m < 2 ^ 53 /\ -1074 <= e /\ g = m * 2 ^ (e + 1074)) /\
  Z.abs g <= 2 ^ 2098.

Definition faithful (r : f64) (Num Den : Z) : Prop :=
  valid r /\ is_nan r = false /\
  forall g, grid g -> (Den * g <= Num -> g <= ival r) /\ (Num <= Den * g -> ival r <= g).

Lemma grid_opp g : grid g -> grid (- g).
Proof.
  intros [(m & e & Hm & He & ->) Hg]. split; [|lia].
  exists (- m), e. split; [lia|]. split; [done|]. lia.
Qed.

Lemma grid_0 : grid 0.
Proof. split; [|done]. exists 0, 0. done. Qed.

Lemma valid_grid x : valid x -> grid (ival x).
Proof.
  assert (forall s g, grid g -> grid (signed s g)) as Hs.
  { intros [] g; [apply grid_opp|done]. }
  intros Hv. destruct x as [s|s| |s m e]; cbn [ival].
  - apply grid_0.
  - apply Hs. split; [|done]. exists 1, 1024. done.
  - apply grid_0.
  - apply Hs. pose proof (finite_below_inf _ _ _ Hv). apply valid_finite in Hv.
    split; [|lia]. exists (Zpos m), e. split; [lia|]. split; [lia|done].
Qed.

(** A rounding grid at least as coarse as the target's, or a target below the
    first binade of the result. *)
Lemma grid_split g E :
  grid g -> 0 <= g -> -1074 <= E ->
  (exists j, 0 <= j /\ g = j * 2 ^ (E + 1074)) \/
  (-1074 < E /\ g < 2 ^ 52 * 2 ^ (E + 1074)).
Proof.
  intros [(m & e & Hm & He & ->) _] Hg HE.
  pose proof (pow2_pos (e + 1074) ltac:(lia)).
  destruct (decide (E <= e)) as [Hle|Hgt]; [left|right].
  - exists (m * 2 ^ (e - E)). pose proof (pow2_pos (e - E) ltac:(lia)). split; [nia|].
    rewrite <- Z.mul_assoc, <- pow2_split by lia. f_equal. f_equal. lia.
  - split; [lia|]. pose proof (pow2_mono (e + 1074 + 1) (E + 1074) ltac:(lia)) as Hmono.
    rewrite (pow2_split (e + 1074) 1) in Hmono by lia. nia.
Qed.

Lemma round_unsigned N W E e k M g :
  0 < W -> -1074 <= E -> e <= E -> 0 <= k -> 0 <= e + 1074 + k ->
  M = rne N (W * 2 ^ (E - e)) ->
  E = -1074 \/ W * 2 ^ (52 + (E - e)) <= N ->
  grid g -> 0 <= g ->
  (g * (W * 2 ^ k) <= N * 2 ^ (e + 1074 + k) -> g <= M * 2 ^ (E + 1074)) /\
  (N * 2 ^ (e + 1074 + k) <= g * (W * 2 ^ k) -> M * 2 ^ (E + 1074) <= g).
Proof.
  intros HW HE He Hk Hek -> Hlow Hg Hg0.
  pose proof (pow2_pos (E - e) ltac:(lia)) as Hp1.
  pose proof (pow2_pos (E + 1074) ltac:(lia)) as Hp2.
  pose proof (pow2_pos (e + 1074 + k) Hek) as Hp3.
  assert (2 ^ (E + 1074) * 2 ^ k = 2 ^ (E - e) * 2 ^ (e + 1074 + k)) as Hpow.
  { rewrite <- !pow2_split by lia. f_equal. lia. }
  destruct (grid_split g E Hg Hg0 HE) as [(j & Hj & ->)|[HE' Hlt]].
  - replace (j * 2 ^ (E + 1074) * (W * 2 ^ k))
      with (j * (W * 2 ^ (E - e)) * 2 ^ (e + 1074 + k)) by nia.
    split; intros Hcmp; apply Z.mul_le_mono_pos_r in Hcmp; try done;
      apply Z.mul_le_mono_pos_r; try done; [apply rne_ge|apply rne_le]; nia.
  - destruct Hlow as [?|Hlow]; [lia|]. rewrite pow2_split in Hlow by lia.
    assert (2 ^ 52 <= rne N (W * 2 ^ (E - e))) by (apply rne_ge; nia).
    split; intros Hcmp; [nia|exfalso].
    assert (g * (W * 2 ^ k) < 2 ^ 52 * 2 ^ (E + 1074) * (W * 2 ^ k)).
    { apply Z.mul_lt_mono_pos_r; [|done]. pose proof (pow2_pos k Hk). nia. }
    assert (2 ^ 52 * 2 ^ (E + 1074) * (W * 2 ^ k)
            = (W * (2 ^ 52 * 2 ^ (E - e))) * 2 ^ (e + 1074 + k)) as Heq by nia.
    nia.
Qed.

Lemma scale_le Num Den P Q g :
  0 < Den -> 0 < P -> Num * P = Den * Q -> Den * g <= Num -> g * P <= Q.
Proof. nia. Qed.

Lemma scale_ge Num Den P Q g :
  0 < Den -> 0 < P -> Num * P = Den * Q -> Num <= Den * g -> Q <= g * P.
Proof. nia. Qed.

Lemma binary_round_aux_faithful s m e l N W k Num Den :
  0 <= m -> 0 < W -> rec_spec N W (shr_record_of_loc m l) ->
  e <= fexp 53 1024 (Zdigits2 m + e) ->
  0 <= k -> 0 <= e + 1074 + k -> 0 < Den ->
  Num * (W * 2 ^ k) = Den * (N * 2 ^ (e + 1074 + k)) ->
  faithful (binary_round_aux 53 1024 s m e l) (signed s Num) Den.
Proof.
  intros Hm HW Hr He Hk Hek HD Heq.
  destruct (binary_round_aux_val s m e l N W Hm HW Hr He) as (Hlow & Hv & Hn & Hs & Hi).
  set (E := fexp 53 1024 (Zdigits2 m + e)) in *.
  set (M := rne N (W * 2 ^ (E - e))) in *.
  assert (-1074 <= E) as HE by (unfold E; rewrite fexp_eq; lia).
  assert (0 <= N) as HN.
  { destruct Hr as [Hr _]. rewrite shr_record_of_loc_m in Hr. nia. }
  pose proof (pow2_pos k Hk) as Hpk. pose proof (pow2_pos (E + 1074) ltac:(lia)) as HpE.
  pose proof (pow2_pos (e + 1074 + k) Hek) as Hpe.
  assert (0 <= M) by (apply rne_ge; pose proof (pow2_pos (E - e) ltac:(lia)); nia).
  assert (0 <= Num) by nia.
  assert (forall g, grid g ->
    (Den * g <= Num -> g <= Z.min (M * 2 ^ (E + 1074)) (2 ^ 2098)) /\
    (Num <= Den * g -> Z.min (M * 2 ^ (E + 1074)) (2 ^ 2098) <= g)) as Hu.
  { intros g Hg. assert (Z.abs g <= 2 ^ 2098) by apply Hg.
    destruct (decide (0 <= g)) as [Hg0|Hg0].
    - destruct (round_unsigned N W E e k M g HW HE He Hk Hek eq_refl Hlow Hg Hg0) as [Hlo Hhi].
      split; intros Hcmp; [apply Z.min_glb; [apply Hlo|lia]|etrans; [apply Z.le_min_l|apply Hhi]].
      + by apply (scale_le Num Den (W * 2 ^ k) _ g); [|nia|..].
      + by apply (scale_ge Num Den (W * 2 ^ k) _ g); [|nia|..].
    - assert (0 <= M * 2 ^ (E + 1074)) by (apply Z.mul_nonneg_nonneg; lia).
      assert (Den * g < 0) by (apply Z.mul_pos_neg; lia). split; intros Hcmp; lia. }
  split; [done|]. split; [done|]. intros g Hg. rewrite Hi.
  destruct s; cbn [signed]; [|by apply Hu].
  destruct (Hu (- g) (grid_opp g Hg)) as [Hlo Hhi].
  split; intros ?; [assert (Num <= Den * - g) by lia|assert (Den * - g <= Num) by lia]; lia.
Qed.
End faithful.

(** ** The operations round faithfully *)

Section operations.
Local Open Scope Z_scope.

Lemma iter_xO m d : Zpos (Pos.iter xO m d) = Zpos m * 2 ^ Zpos d.
Proof.
  induction d as [|d IH] using Pos.peano_ind; [change (2 ^ 1) with 2; cbn; lia|].
  rewrite Pos.iter_succ, Pos2Z.inj_xO, IH, Pos2Z.inj_succ, Z.pow_succ_r by lia. lia.
Qed.

Lemma digits_iter_xO m d : Zpos (digits2_pos (Pos.iter xO m d)) = Zpos (digits2_pos m) + Zpos d.
Proof.
  induction d as [|d IH] using Pos.peano_ind; [cbn; lia|].
  rewrite Pos.iter_succ. cbn [digits2_pos]. lia.
Qed.

Lemma shl_align_spec m e e2 :
  let '(m', e') := shl_align m e e2 in
  e' = Z.min e e2 /\ Zpos m' = Zpos m * 2 ^ (e - e') /\
  Zpos (digits2_pos m') + e' = Zpos (digits2_pos m) + e.
Proof.
  unfold shl_align. destruct (e2 - e) as [|d|d] eqn:E.
  - assert (e2 = e) as -> by lia. rewrite Z.sub_diag. lia.
  - replace (Z.min e e2) with e by lia. rewrite Z.sub_diag. lia.
  - rewrite iter_xO, digits_iter_xO. replace (e - e2) with (Zpos d) by lia. lia.
Qed.

Lemma rec_spec_exact m : rec_spec m 1 (shr_record_of_loc m loc_Exact).
Proof. unfold rec_spec. simpl. lia. Qed.

Lemma faithful_exact x : valid x -> is_nan x = false -> faithful x (ival x) 1.
Proof. intros. split; [done|]. split; [done|]. intros g _. lia. Qed.

Lemma binary_round_faithful s m e :
  -1074 <= e ->
  faithful (binary_round 53 1024 s m e) (signed s (Zpos m * 2 ^ (e + 1074))) 1.
Proof.
  intros He. unfold binary_round.
  pose proof (shl_align_spec m e (fexp 53 1024 (Zpos (digits2_pos m) + e))) as Hs.
  destruct (shl_align m e _) as [m' e']. destruct Hs as (He' & Hm' & Hd).
  assert (-1074 <= e' <= e) by (rewrite fexp_eq in He'; lia).
  apply (binary_round_aux_faithful s (Zpos m') e' loc_Exact (Zpos m') 1 0);
    [lia|lia|apply rec_spec_exact| |lia|lia|lia|].
  - cbn [Zdigits2]. rewrite Hd. lia.
  - assert (2 ^ (e + 1074) = 2 ^ (e - e') * 2 ^ (e' + 1074 + 0)) as ->.
    { rewrite <- pow2_split by lia. f_equal. lia. }
    rewrite Hm'. change (2 ^ 0) with 1. lia.
Qed.

Lemma binary_normalize_faithful n e z :
  -1074 <= e -> faithful (binary_normalize 53 1024 n e z) (n * 2 ^ (e + 1074)) 1.
Proof.
  intros He. destruct n as [|p|p]; cbn [binary_normalize].
  - rewrite Z.mul_0_l. by apply (faithful_exact (S754_zero z)).
  - by apply (binary_round_faithful false).
  - pose proof (binary_round_faithful true p e He) as Hf. cbn [signed] in Hf.
    by rewrite <- Z.mul_opp_l in Hf.
Qed.

Lemma of_Z_faithful n : faithful (of_Z n) (n * 2 ^ 1074) 1.
Proof. by apply (binary_normalize_faithful n 0 false). Qed.

Lemma align_ival s m e k :
  -1074 <= k <= e ->
  cond_Zopp s (Zpos (fst (shl_align m e k))) * 2 ^ (k + 1074) = ival (S754_finite s m e).
Proof.
  intros Hk. pose proof (shl_align_spec m e k) as Hs.
  destruct (shl_align m e k) as [m' e']. destruct Hs as (-> & Hm & _).
  replace (Z.min e k) with k in Hm by lia. cbn [fst ival].
  assert (Zpos m' * 2 ^ (k + 1074) = Zpos m * 2 ^ (e + 1074)) as Heq.
  { rewrite Hm, <- Z.mul_assoc, <- pow2_split by lia. f_equal. f_equal. lia. }
  destruct s; cbn [cond_Zopp signed]; lia.
Qed.

Lemma fadd_faithful x y :
  valid x -> valid y -> is_finite x = true -> is_finite y = true ->
  faithful (fadd x y) (ival x + ival y) 1.
Proof.
  intros Hx Hy Fx Fy. unfold fadd.
  destruct x as [sx|sx| |sx mx ex]; try done; destruct y as [sy|sy| |sy my ey]; try done.
  - destruct sx, sy; by apply (faithful_exact (S754_zero _)).
  - by apply (faithful_exact (S754_finite sy my ey)).
  - rewrite Z.add_0_r. by apply (faithful_exact (S754_finite sx mx ex)).
  - apply valid_finite in Hx, Hy. cbn [SFadd].
    rewrite <- (align_ival sx mx ex (Z.min ex ey)), <- (align_ival sy my ey (Z.min ex ey)),
      <- Z.mul_add_distr_r by lia.
    apply binary_normalize_faithful. lia.
Qed.

Lemma fsub_faithful x y :
  valid x -> valid y -> is_finite x = true -> is_finite y = true ->
  faithful (fsub x y) (ival x - ival y) 1.
Proof.
  intros Hx Hy Fx Fy. unfold fsub.
  destruct x as [sx|sx| |sx mx ex]; try done; destruct y as [sy|sy| |sy my ey]; try done.
  - destruct sx, sy; by apply (faithful_exact (S754_zero _)).
  - replace (ival (S754_zero sx) - ival (S754_finite sy my ey))
      with (ival (S754_finite (negb sy) my ey)) by (destruct sy; cbn [ival signed negb]; lia).
    by apply (faithful_exact (S754_finite (negb sy) my ey)).
  - rewrite Z.sub_0_r. by apply (faithful_exact (S754_finite sx mx ex)).
  - apply valid_finite in Hx, Hy. cbn [SFsub].
    rewrite <- (align_ival sx mx ex (Z.min ex ey)), <- (align_ival sy my ey (Z.min ex ey)),
      <- Z.mul_sub_distr_r by lia.
    apply binary_normalize_faithful. lia.
Qed.

Lemma digits_mul_ge m1 m2 :
  Zpos (digits2_pos m1) + Zpos (digits2_pos m2) - 1 <= Zdigits2 (Zpos m1 * Zpos m2).
Proof.
  pose proof (digits_bounds m1) as [H1 _]. pose proof (digits_bounds m2) as [H2 _].
  set (d1 := Zpos (digits2_pos m1)) in *. set (d2 := Zpos (digits2_pos m2)) in *.
  assert (1 <= d1 /\ 1 <= d2) by lia.
  destruct (Zdigits2_bounds (Zpos m1 * Zpos m2)) as [[_ Hu] Hp]; [lia|].
  destruct (decide (d1 + d2 - 1 <= Zdigits2 (Zpos m1 * Zpos m2))); [done|exfalso].
  pose proof (pow2_mono (Zdigits2 (Zpos m1 * Zpos m2)) (d1 - 1 + (d2 - 1)) ltac:(lia)) as Hm.
  rewrite pow2_split in Hm by lia.
  pose proof (pow2_pos (d1 - 1) ltac:(lia)). pose proof (pow2_pos (d2 - 1) ltac:(lia)). nia.
Qed.

Lemma valid_digits s m e :
  valid (S754_finite s m e) -> e = -1074 \/ Zpos (digits2_pos m) = 53.
Proof.
  intros Hv. unfold valid in Hv; cbn [valid_binary] in Hv.
  unfold bounded, canonical_mantissa in Hv.
  rewrite andb_true_iff, Z.eqb_eq, fexp_eq in Hv. lia.
Qed.

Lemma signed_xor s1 s2 a b : signed (xorb s1 s2) (a * b) = signed s1 a * signed s2 b.
Proof. destruct s1, s2; cbn [xorb signed]; lia. Qed.

Lemma fmul_faithful x y :
  valid x -> valid y -> is_finite x = true -> is_finite y = true ->
  faithful (fmul x y) (ival x * ival y) (2 ^ 1074).
Proof.
  intros Hx Hy Fx Fy. unfold fmul.
  assert (forall s, faithful (S754_zero s) 0 (2 ^ 1074)) as H0.
  { intros s. split; [done|]. split; [done|]. intros g _. cbn [ival].
    pose proof (pow2_pos 1074 ltac:(lia)). nia. }
  destruct x as [sx|sx| |sx mx ex]; try done; destruct y as [sy|sy| |sy my ey]; try done;
    cbn [SFmul].
  1,2: apply H0.
  { rewrite Z.mul_0_r. apply H0. }
  pose proof (valid_digits _ _ _ Hx) as Dx. pose proof (valid_digits _ _ _ Hy) as Dy.
  pose proof (digits_mul_ge mx my) as Hd. apply valid_finite in Hx, Hy.
  cbn [ival]. rewrite <- signed_xor, Pos2Z.inj_mul.
  apply (binary_round_aux_faithful _ _ (ex + ey) loc_Exact (Zpos mx * Zpos my) 1 1074);
    [lia|lia|apply rec_spec_exact| |lia|lia|done|].
  - rewrite fexp_eq. lia.
  - replace (ex + ey + 1074 + 1074) with ((ex + 1074) + (ey + 1074)) by lia.
    rewrite (pow2_split (ex + 1074)) by lia. lia.
Qed.
End operations.

Section division.
Local Open Scope Z_scope.

Lemma new_location_spec q r m :
  0 < m -> 0 <= r < m -> rec_spec (q * m + r) m (shr_record_of_loc q (new_location m r)).
Proof.
  intros Hm Hr. unfold rec_spec. rewrite shr_record_of_loc_m.
  replace (q * m + r - q * m) with r by lia. split; [done|].
  assert (forall l, loc_of_shr_record (shr_record_of_loc q l) = l) as ->
    by (by intros [|[]]).
  unfold new_location, new_location_even, new_location_odd.
  destruct (Z.even m) eqn:Ev; destruct (Z.eqb_spec r 0); try done.
  - destruct (Z.compare_spec (2 * r) m); lia.
  - assert (2 * r <> m).
    { intros <-. rewrite Z.even_mul in Ev. done. }
    destruct (Z.compare_spec (2 * r + 1) m); lia.
Qed.

Lemma div_core_spec mx ex my ey :
  let '(q, e, l) := SFdiv_core_binary 53 1024 (Zpos mx) ex (Zpos my) ey in
  e <= ex - ey /\ 0 <= q /\
  rec_spec (Zpos mx * 2 ^ (ex - ey - e)) (Zpos my) (shr_record_of_loc q l) /\
  e <= fexp 53 1024 (Zdigits2 q + e).
Proof.
  unfold SFdiv_core_binary.
  set (d1 := Zdigits2 (Zpos mx)). set (d2 := Zdigits2 (Zpos my)).
  set (e := Z.min (fexp 53 1024 (d1 + ex - (d2 + ey))) (ex - ey)).
  set (s := ex - ey - e). assert (0 <= s) as Hs by lia.
  assert ((match s with Zpos _ => Z.shiftl (Zpos mx) s | Z0 => Zpos mx | Zneg _ => 0 end)
          = Zpos mx * 2 ^ s) as ->.
  { destruct s as [|p|p]; [rewrite Z.mul_1_r; done|by rewrite Z.shiftl_mul_pow2|lia]. }
  pose proof (Z_div_mod (Zpos mx * 2 ^ s) (Zpos my) ltac:(lia)) as Hdm.
  destruct (Z.div_eucl (Zpos mx * 2 ^ s) (Zpos my)) as [q r]. destruct Hdm as [Hdm Hr].
  pose proof (pow2_pos s Hs) as Hps.
  split; [lia|]. split; [nia|]. split.
  - fold s. rewrite Hdm, (Z.mul_comm (Zpos my)). by apply new_location_spec; lia.
  - rewrite !fexp_eq in *. destruct (decide (e <= -1074)); [lia|].
    assert (e <= fexp 53 1024 (d1 + ex - (d2 + ey))) as He by (unfold e; lia).
    rewrite fexp_eq in He. assert (e <= d1 + ex - (d2 + ey) - 53) by lia.
    assert (s >= 53 - d1 + d2) by lia.
    enough (d1 + s - d2 <= Zdigits2 q) by lia.
    pose proof (digits_bounds mx) as [Hx _]. pose proof (digits_bounds my) as [_ Hy].
    fold d1 in Hx. change (Zpos (digits2_pos mx)) with d1 in Hx.
    change (Zpos (digits2_pos my)) with d2 in Hy.
    assert (1 <= d1 /\ 1 <= d2) by (unfold d1, d2; cbn [Zdigits2]; lia).
    assert (2 ^ (d1 - 1 + s - d2) <= q) as Hq.
    { assert (2 ^ (d1 - 1 + s - d2) * 2 ^ d2 <= Zpos mx * 2 ^ s) as Hle.
      { rewrite <- pow2_split by lia. replace (d1 - 1 + s - d2 + d2) with (d1 - 1 + s) by lia.
        rewrite pow2_split by lia. by apply Z.mul_le_mono_nonneg_r; lia. }
      pose proof (pow2_pos (d1 - 1 + s - d2) ltac:(lia)). nia. }
    pose proof (pow2_pos (d1 - 1 + s - d2) ltac:(lia)).
    destruct (Zdigits2_bounds q) as [[_ Hu] Hp]; [lia|].
    destruct (decide (d1 + s - d2 <= Zdigits2 q)); [done|].
    pose proof (pow2_mono (Zdigits2 q) (d1 - 1 + s - d2)). lia.
Qed.

Lemma fdiv_faithful x y :
  valid x -> valid y -> is_finite x = true -> is_finite y = true -> ival y <> 0 ->
  faithful (fdiv x y) (ival x * 2 ^ 1074 * Z.sgn (ival y)) (Z.abs (ival y)).
Proof.
  intros Hx Hy Fx Fy Hy0. unfold fdiv.
  destruct y as [sy|sy| |sy my ey]; try done.
  pose proof (finite_below_inf _ _ _ Hy) as [Hpy _].
  assert (Z.abs (ival (S754_finite sy my ey)) = Zpos my * 2 ^ (ey + 1074)) as ->.
  { cbn [ival]. destruct sy; cbn [signed]; lia. }
  destruct x as [sx|sx| |sx mx ex]; try done; cbn [SFdiv].
  { split; [done|]. split; [done|]. intros g _. cbn [ival]. nia. }
  apply valid_finite in Hx, Hy.
  pose proof (div_core_spec mx ex my ey) as Hd.
  destruct (SFdiv_core_binary 53 1024 (Zpos mx) ex (Zpos my) ey) as [[q e] l].
  destruct Hd as (He & Hq & Hr & Hf).
  assert (ival (S754_finite sx mx ex) * 2 ^ 1074 * Z.sgn (ival (S754_finite sy my ey))
          = signed (xorb sx sy) (Zpos mx * 2 ^ (ex + 1074) * 2 ^ 1074)) as ->.
  { cbn [ival]. destruct sx, sy; cbn [signed xorb];
      rewrite ?Z.sgn_opp, (Z.sgn_pos (Zpos my * _)) by lia; lia. }
  apply (binary_round_aux_faithful _ q e l _ (Zpos my) (Z.max 0 (- (e + 1074))) _ _
           Hq ltac:(lia) Hr Hf); [lia|lia|done|].
  set (k := Z.max 0 (- (e + 1074))).
  assert (2 ^ (ex + 1074) * 2 ^ 1074 * 2 ^ k
          = 2 ^ (ey + 1074) * 2 ^ (ex - ey - e) * 2 ^ (e + 1074 + k)) as Hpow.
  { rewrite <- !pow2_split by lia. f_equal. lia. }
  nia.
Qed.
End division.

(** ** Consequences used by the components *)

Section bounds.
Local Open Scope Z_scope.

Lemma faithful_fle r Num Den x :
  faithful r Num Den -> valid x -> is_nan x = false -> Num <= Den * ival x ->
  fle r x = true.
Proof.
  intros (Hv & Hn & Hf) Hx Nx Hle. apply fle_ival; try done.
  by apply (Hf _ (valid_grid x Hx)).
Qed.

Lemma faithful_fge r Num Den x :
  faithful r Num Den -> valid x -> is_nan x = false -> Den * ival x <= Num ->
  fle x r = true.
Proof.
  intros (Hv & Hn & Hf) Hx Nx Hle. apply fle_ival; try done.
  by apply (Hf _ (valid_grid x Hx)).
Qed.

(** Integers up to 2^53 are exact. *)
Lemma of_Z_ival n : Z.abs n <= 2 ^ 53 -> ival (of_Z n) = n * 2 ^ 1074.
Proof.
  intros Hn. destruct (of_Z_faithful n) as (_ & _ & Hf).
  assert (grid (n * 2 ^ 1074)) as Hg.
  { split.
    - destruct (decide (Z.abs n = 2 ^ 53)) as [He|He].
      + exists (Z.sgn n), 53. split; [lia|]. split; [lia|].
        replace n with (Z.sgn n * 2 ^ 53) at 1 by lia.
        rewrite <- Z.mul_assoc, <- pow2_split by lia. done.
      + exists n, 0. split; [lia|]. split; [lia|]. done.
    - rewrite Z.abs_mul, (Z.abs_eq (2 ^ 1074)) by (apply Z.pow_nonneg; lia).
      pose proof (pow2_mono (53 + 1074) 2098 ltac:(lia)) as Hm.
      rewrite (pow2_split 53) in Hm by lia. pose proof (pow2_pos 1074 ltac:(lia)). nia. }
  destruct (Hf _ Hg) as [H1 H2]. lia.
Qed.

Lemma of_Z_valid n : valid (of_Z n).
Proof. apply (of_Z_faithful n). Qed.

Lemma of_Z_not_nan n : is_nan (of_Z n) = false.
Proof. apply (of_Z_faithful n). Qed.

Lemma of_Z_nonneg n : 0 <= n -> fle f0 (of_Z n) = true.
Proof.
  intros. apply (faithful_fge _ _ _ f0 (of_Z_faithful n)); [done|done|].
  cbn [ival f0]. pose proof (pow2_pos 1074 ltac:(lia)). nia.
Qed.

(** Conversion is monotone on the integers it represents exactly. *)
Lemma of_Z_le a b : Z.abs a <= 2 ^ 53 -> Z.abs b <= 2 ^ 53 ->
  fle (of_Z a) (of_Z b) = true <-> a <= b.
Proof.
  intros Ha Hb. rewrite fle_ival by auto using of_Z_valid, of_Z_not_nan.
  rewrite !of_Z_ival by done. pose proof (pow2_pos 1074 ltac:(lia)). nia.
Qed.

Lemma of_Z_lt a b : Z.abs a <= 2 ^ 53 -> Z.abs b <= 2 ^ 53 ->
  flt (of_Z a) (of_Z b) = true <-> a < b.
Proof.
  intros Ha Hb. rewrite flt_ival by auto using of_Z_valid, of_Z_not_nan.
  rewrite !of_Z_ival by done. pose proof (pow2_pos 1074 ltac:(lia)). nia.
Qed.
End bounds.
