(* ===== verification/F64Int.v ===== *)
(** * Doubles that hold integers

    Every time stamp and token count the components compare is a double that
    was an integer number of milliseconds or tokens.  Up to 2^53 the arithmetic
    on those is exact, so the theorems about schedules can be stated over the
    integers. *)

From stdpp Require Import base option list numbers.
From Stdlib Require Import ZArith Lia Floats.SpecFloat.
From S2P Require Import Prelude F64.

Local Open Scope Z_scope.

(** ** A double is determined by its value, up to the sign of zero *)

Definition is_zero (x : f64) : bool := match x with S754_zero _ => true | _ => false end.

Lemma ival_zero x : valid x -> is_nan x = false -> ival x = 0 -> is_zero x = true.
Proof.
  destruct x as [s|s| |s m e]; try done; intros Hv _ Hi.
  - destruct s; cbn [ival signed] in Hi; lia.
  - pose proof (finite_below_inf _ _ _ Hv). destruct s; cbn [ival signed] in Hi; lia.
Qed.

Lemma ival_inj x y :
  valid x -> valid y -> is_nan x = false -> is_nan y = false -> ival x = ival y ->
  x = y \/ (is_zero x = true /\ is_zero y = true).
Proof.
  intros Hx Hy Nx Ny He. pose proof (fcmp_ival x y Hx Hy Nx Ny) as Hc.
  rewrite He, Z.compare_refl in Hc. unfold fcmp, cmp_then, then_cmp, cmp_on in Hc.
  destruct (key_class x ?= key_class y) eqn:E1; try done.
  destruct (key_exp x ?= key_exp y) eqn:E2; try done.
  apply Z.compare_eq in E1, E2, Hc.
  destruct x as [s|[]| |[] m e], y as [s'|[]| |[] m' e']; try done; cbn in *; auto.
  - assert (m = m') as -> by lia. assert (e = e') as -> by lia. by left.
  - assert (m = m') as -> by lia. assert (e = e') as -> by lia. by left.
Qed.

Lemma ival_inj_pos x y :
  valid x -> valid y -> is_nan x = false -> is_nan y = false -> x <> fneg0 -> y <> fneg0 ->
  ival x = ival y -> x = y.
Proof.
  intros Hx Hy Nx Ny Zx Zy He. destruct (ival_inj x y Hx Hy Nx Ny He) as [|[H1 H2]]; [done|].
  destruct x as [[]|?| |? ? ?]; try done. destruct y as [[]|?| |? ? ?]; done.
Qed.

#[export] Instance valid_dec x : Decision (valid x).
Proof. unfold valid. apply _. Defined.

(** ** Small integers *)

Definition small (n : Z) : Prop := Z.abs n <= 2 ^ 53.

Lemma of_Z_grid n : small n -> grid (n * 2 ^ 1074).
Proof. intros H. rewrite <- (of_Z_ival n H). apply valid_grid, of_Z_valid. Qed.

Lemma of_Z_finite n : small n -> is_finite (of_Z n) = true.
Proof.
  intros H. pose proof (of_Z_ival n H) as Hi. pose proof (of_Z_not_nan n) as Hn.
  destruct (of_Z n) as [s|s| |s m e]; try done. exfalso.
  assert (2 ^ 2098 = 2 ^ 1024 * 2 ^ 1074) as Hp by (rewrite <- pow2_split by lia; done).
  pose proof (pow2_pos 1074 ltac:(lia)). pose proof (pow2_mono 54 1024 ltac:(lia)).
  unfold small in H. destruct s; cbn [ival signed] in Hi; nia.
Qed.

Lemma of_Z_not_neg0 n : small n -> of_Z n <> fneg0.
Proof.
  intros H He. pose proof (of_Z_ival n H) as Hi. rewrite He in Hi. cbn in Hi.
  assert (n = 0) as -> by (pose proof (pow2_pos 1074 ltac:(lia)); nia). done.
Qed.

#[export] Hint Resolve of_Z_valid of_Z_not_nan of_Z_finite of_Z_not_neg0 : f64.

Lemma of_Z_neg n : small n -> n <> 0 -> fneg (of_Z n) = of_Z (- n).
Proof.
  intros H Hn. assert (small (- n)) as H' by (unfold small in *; lia).
  assert (is_nan (fneg (of_Z n)) = false) as Hnn.
  { pose proof (of_Z_not_nan n). by destruct (of_Z n). }
  assert (ival (fneg (of_Z n)) = - ival (of_Z n)) as Hi.
  { destruct (of_Z n) as [s|s| |s m e]; try done; destruct s; cbn [fneg SFopp ival signed]; simpl; lia. }
  destruct (ival_inj (fneg (of_Z n)) (of_Z (- n))) as [|[Hz _]]; auto with f64.
  - apply valid_neg. auto with f64.
  - rewrite Hi, !of_Z_ival by done. lia.
  - exfalso. apply Hn. assert (ival (of_Z n) = 0) as Hz' by by destruct (of_Z n).
    rewrite of_Z_ival in Hz' by done. pose proof (pow2_pos 1074 ltac:(lia)). nia.
Qed.

Lemma exact_result r n :
  small n -> faithful r (n * 2 ^ 1074) 1 -> (n = 0 -> r <> fneg0) -> r = of_Z n.
Proof.
  intros H Hf Hz. pose proof Hf as (Hv & Hn & Hg).
  destruct (Hg _ (of_Z_grid n H)) as [H1 H2].
  assert (ival r = n * 2 ^ 1074) as Hi by lia.
  destruct (ival_inj r (of_Z n)) as [|[Hr Ho]]; auto with f64.
  - by rewrite of_Z_ival.
  - apply ival_inj_pos; auto with f64.
    + apply Hz. destruct r; try done. cbn in Hi. pose proof (pow2_pos 1074 ltac:(lia)). nia.
    + by rewrite of_Z_ival.
Qed.

(** A number minus itself is +0. *)
Lemma fsub_diag x : is_finite x = true -> x <> fneg0 -> fsub x x = f0.
Proof.
  destruct x as [[]|s| |s m e]; try done. intros _ _. unfold fsub. cbn [SFsub].
  by rewrite Z.sub_diag.
Qed.

Lemma fadd_neg_diag x : is_finite x = true -> x <> fneg0 -> is_zero x = false -> fadd x (fneg x) = f0.
Proof.
  destruct x as [s|s| |s m e]; try done. intros _ _ _. unfold fadd, fneg. cbn [SFadd SFopp].
  set (a := Zpos (fst (shl_align m e (Z.min e e)))).
  by replace (cond_Zopp s a + cond_Zopp (negb s) a) with 0 by (destruct s; simpl; lia).
Qed.

Lemma fadd_of_Z a b : small a -> small b -> small (a + b) -> fadd (of_Z a) (of_Z b) = of_Z (a + b).
Proof.
  intros Ha Hb Hab. apply exact_result; [done| |].
  - pose proof (fadd_faithful (of_Z a) (of_Z b)) as Hf. rewrite !of_Z_ival, <- Z.mul_add_distr_r in Hf by done.
    apply Hf; auto with f64.
  - intros H0. destruct (decide (a = 0)) as [->|Hne].
    { assert (b = 0) as -> by lia. by vm_compute. }
    assert (b = - a) as -> by lia. rewrite <- of_Z_neg by done.
    rewrite fadd_neg_diag; [done|auto with f64..|].
    destruct (is_zero (of_Z a)) eqn:Hz; [|done]. exfalso.
    assert (ival (of_Z a) = 0) as Hi by by destruct (of_Z a).
    rewrite of_Z_ival in Hi by done. pose proof (pow2_pos 1074 ltac:(lia)). nia.
Qed.

Lemma fsub_of_Z a b : small a -> small b -> small (a - b) -> fsub (of_Z a) (of_Z b) = of_Z (a - b).
Proof.
  intros Ha Hb Hab. apply exact_result; [done| |].
  - pose proof (fsub_faithful (of_Z a) (of_Z b)) as Hf. rewrite !of_Z_ival, <- Z.mul_sub_distr_r in Hf by done.
    apply Hf; auto with f64.
  - intros H0. assert (b = a) as -> by lia. rewrite fsub_diag; auto with f64.
Qed.

(** Division is exact when the quotient is an integer. *)
Lemma fdiv_of_Z q b : small (q * b) -> small b -> 0 < b -> 0 < q -> fdiv (of_Z (q * b)) (of_Z b) = of_Z q.
Proof.
  intros Hqb Hb Hpos Hq. assert (small q) as Hsq by (unfold small in *; nia).
  pose proof (pow2_pos 1074 ltac:(lia)) as Hp.
  pose proof (fdiv_faithful (of_Z (q * b)) (of_Z b)) as Hf. rewrite !of_Z_ival in Hf by done.
  assert (faithful (fdiv (of_Z (q * b)) (of_Z b)) (q * b * 2 ^ 1074 * 2 ^ 1074 * Z.sgn (b * 2 ^ 1074))
            (Z.abs (b * 2 ^ 1074))) as Hf' by (apply Hf; auto with f64; nia).
  rewrite Z.sgn_pos, Z.abs_eq in Hf' by nia.
  apply exact_result; [done| |lia]. destruct Hf' as (Hv & Hn & Hg). split; [done|]. split; [done|].
  intros g Hgr. destruct (Hg g Hgr) as [H1 H2]. split; intros; [apply H1|apply H2]; nia.
Qed.

Lemma fmul_of_Z a b : small a -> small b -> small (a * b) -> 0 < a -> 0 < b -> fmul (of_Z a) (of_Z b) = of_Z (a * b).
Proof.
  intros Ha Hb Hab Pa Pb. pose proof (pow2_pos 1074 ltac:(lia)) as Hp.
  pose proof (fmul_faithful (of_Z a) (of_Z b)) as Hf. rewrite !of_Z_ival in Hf by done.
  destruct Hf as (Hv & Hn & Hg); [auto with f64..|].
  apply exact_result; [done| |nia]. split; [done|]. split; [done|].
  intros g Hgr. destruct (Hg g Hgr) as [H1 H2]. split; intros; [apply H1|apply H2]; nia.
Qed.

Lemma of_Z_inj a b : small a -> small b -> of_Z a = of_Z b -> a = b.
Proof.
  intros Ha Hb He. pose proof (of_Z_ival a Ha) as H. rewrite He, of_Z_ival in H by done.
  pose proof (pow2_pos 1074 ltac:(lia)). nia.
Qed.

Lemma fgt_of_Z a b : small a -> small b -> fgt (of_Z a) (of_Z b) = (b <? a).
Proof.
  intros. destruct (Z.ltb_spec b a).
  - by apply of_Z_lt.
  - destruct (fgt (of_Z a) (of_Z b)) eqn:E; [|done]. apply of_Z_lt in E; [lia|done|done].
Qed.

(** ** The total order *)

Lemma mag_finite s m e : valid (S754_finite s m e) ->
  0 < mag_bits (S754_finite s m e) < 2047 * 2 ^ 52.
Proof. rewrite valid_finite. intros (Hm & He & Hc). cbn [mag_bits]. nia. Qed.

Lemma mag_compare s1 s2 m1 e1 m2 e2 :
  valid (S754_finite s1 m1 e1) -> valid (S754_finite s2 m2 e2) ->
  (mag_bits (S754_finite s1 m1 e1) ?= mag_bits (S754_finite s2 m2 e2)) =
  (Zpos m1 * 2 ^ (e1 + 1074) ?= Zpos m2 * 2 ^ (e2 + 1074)).
Proof.
  intros H1 H2. rewrite <- (lex_compare s1 s2) by done.
  apply valid_finite in H1 as (Hm1 & He1 & Hc1). apply valid_finite in H2 as (Hm2 & He2 & Hc2).
  cbn [mag_bits]. unfold then_cmp. destruct (Z.compare_spec e1 e2) as [->|Hlt|Hgt].
  - destruct (Z.compare_spec (Zpos m1) (Zpos m2)); [apply Z.compare_eq_iff|apply Z.compare_lt_iff|apply Z.compare_gt_iff]; lia.
  - apply Z.compare_lt_iff. nia.
  - apply Z.compare_gt_iff. nia.
Qed.

(** On numbers other than -0 the total order is the order of values. *)
Lemma total_cmp_ival x y :
  valid x -> valid y -> is_nan x = false -> is_nan y = false -> x <> fneg0 -> y <> fneg0 ->
  total_cmp x y = (ival x ?= ival y).
Proof.
  intros Hx Hy Nx Ny Zx Zy. unfold total_cmp, cmp_on, total_key.
  destruct x as [[]|[]| |[] m1 e1]; try done;
  destruct y as [[]|[]| |[] m2 e2]; try done; cbn [sign_bit ival signed].
  all: try (pose proof (mag_finite _ _ _ Hx)); try (pose proof (mag_finite _ _ _ Hy)).
  all: try (pose proof (finite_below_inf _ _ _ Hx)); try (pose proof (finite_below_inf _ _ _ Hy)).
  all: try (change (mag_bits (S754_infinity true)) with (2047 * 2 ^ 52)).
  all: try (change (mag_bits (S754_infinity false)) with (2047 * 2 ^ 52)).
  all: try (change (mag_bits (S754_zero false)) with 0).
  all: try (rewrite Z.compare_refl; symmetry; apply Z.compare_refl).
  all: try (transitivity Lt; [apply Z.compare_lt_iff; lia|symmetry; apply Z.compare_lt_iff; lia]).
  all: try (transitivity Gt; [apply Z.compare_gt_iff; lia|symmetry; apply Z.compare_gt_iff; lia]).
  - rewrite Z.compare_opp, <- (mag_compare true true) by done.
    set (a := mag_bits (S754_finite true m1 e1)). set (b := mag_bits (S754_finite true m2 e2)).
    destruct (Z.compare_spec b a); [apply Z.compare_eq_iff|apply Z.compare_lt_iff|apply Z.compare_gt_iff]; lia.
  - by rewrite (mag_compare false false).
Qed.

Lemma total_cmp_of_Z a b : small a -> small b -> total_cmp (of_Z a) (of_Z b) = (a ?= b).
Proof.
  intros Ha Hb. rewrite total_cmp_ival by auto with f64. rewrite !of_Z_ival by done.
  pose proof (pow2_pos 1074 ltac:(lia)).
  destruct (Z.compare_spec a b); [apply Z.compare_eq_iff|apply Z.compare_lt_iff|apply Z.compare_gt_iff]; nia.
Qed.

Lemma total_key_inj x y : valid x -> valid y -> total_key x = total_key y -> x = y.
Proof.
  intros Hx Hy Hk. unfold total_key in Hk.
  destruct x as [[]|[]| |s1 m1 e1]; destruct y as [[]|[]| |s2 m2 e2]; try done; try discriminate Hk; cbn [sign_bit] in Hk.
  all: try (pose proof (mag_finite _ _ _ Hx)); try (pose proof (mag_finite _ _ _ Hy)).
  all: repeat match type of Hk with context [mag_bits ?z] =>
         match z with
         | S754_finite _ _ _ => fail 1
         | _ => let v := eval vm_compute in (mag_bits z) in change (mag_bits z) with v in Hk
         end end.
  all: try (destruct s1); try (destruct s2); try lia.
  all: apply valid_finite in Hx as (Hm1 & He1 & Hc1); apply valid_finite in Hy as (Hm2 & He2 & Hc2);
       cbn [mag_bits] in Hk; assert (e1 = e2) as -> by nia; assert (m1 = m2) as -> by lia; done.
Qed.

(** ** Back to integers *)

Lemma to_usize_ival x :
  valid x -> is_finite x = true -> 0 <= ival x -> to_usize x = Z.min u64_max (ival x / 2 ^ 1074).
Proof.
  intros Hv Hf Hi. destruct x as [s|s| |s m e]; try done.
  pose proof (finite_below_inf _ _ _ Hv) as [Hp _].
  destruct s; cbn [ival signed] in *; [lia|]. apply valid_finite in Hv as (Hm & He & Hc).
  cbn [to_usize]. f_equal. destruct (Z.leb_spec 0 e).
  - rewrite (pow2_split e 1074) by lia. rewrite Z.mul_assoc. symmetry. by apply Z.div_mul.
  - assert (2 ^ 1074 = 2 ^ (- e) * 2 ^ (e + 1074)) as -> by (rewrite <- pow2_split by lia; f_equal; lia).
    symmetry. apply Z.div_mul_cancel_r; [pose proof (pow2_pos (- e)); lia|pose proof (pow2_pos (e + 1074)); lia].
Qed.

Lemma to_usize_of_Z n : 0 <= n <= 2 ^ 53 -> to_usize (of_Z n) = n.
Proof.
  intros H. assert (small n) by (unfold small; lia). pose proof (pow2_pos 1074 ltac:(lia)).
  rewrite to_usize_ival by (first [apply of_Z_valid|by apply of_Z_finite|rewrite of_Z_ival by done; nia]).
  rewrite of_Z_ival, Z.div_mul by (done || lia). unfold u64_max. lia.
Qed.

(** Rounding a number below the integer [k] does not exceed [k]. *)
Lemma to_usize_fround_le x k :
  valid x -> is_finite x = true -> 0 <= k <= 2 ^ 53 -> 0 <= ival x <= k * 2 ^ 1074 ->
  0 <= to_usize (fround x) <= k.
Proof.
  intros Hv Hf Hk [H0 Hle]. pose proof (pow2_pos 1074 ltac:(lia)) as Hp.
  assert (forall y, y = x -> to_usize x = Z.min u64_max (ival x / 2 ^ 1074)) as Hx.
  { intros y _. by apply to_usize_ival. }
  assert (ival x / 2 ^ 1074 <= k) as Hd by (apply Z.div_le_upper_bound; lia).
  assert (0 <= ival x / 2 ^ 1074) as Hd0 by (apply Z.div_pos; lia).
  destruct x as [s|s| |s m e]; try done; cbn [fround].
  destruct (0 <=? e) eqn:E.
  { rewrite (Hx _ eq_refl). revert Hd Hd0. generalize (ival (S754_finite s m e) / 2 ^ 1074). unfold u64_max. lia. }
  apply Z.leb_gt in E.
  pose proof (finite_below_inf _ _ _ Hv) as [Hpos _].
  destruct s; cbn [ival signed] in *; [lia|]. apply valid_finite in Hv as (Hm & He & Hc).
  set (n := (2 * Zpos m + 2 ^ (- e)) / (2 * 2 ^ (- e))).
  assert (0 < 2 ^ (- e)) as Hpe by (apply pow2_pos; lia).
  assert (Zpos m <= k * 2 ^ (- e)) as Hmk.
  { assert (2 ^ 1074 = 2 ^ (- e) * 2 ^ (e + 1074)) as He2 by (rewrite <- pow2_split by lia; f_equal; lia).
    rewrite He2 in Hle. pose proof (pow2_pos (e + 1074) ltac:(lia)). nia. }
  assert (0 <= n <= k) as Hn.
  { unfold n. split; [apply Z.div_pos; lia|]. assert ((2 * Zpos m + 2 ^ (- e)) / (2 * 2 ^ (- e)) < k + 1); [|lia].
    apply Z.div_lt_upper_bound; nia. }
  change (0 <= to_usize (of_Z n) <= k). rewrite to_usize_of_Z; lia.
Qed.

(** Scaling a non-negative number by a factor of at most one. *)
Lemma fmul_shrink x c :
  valid x -> is_finite x = true -> fle f0 x = true ->
  valid c -> is_finite c = true -> 0 <= ival c <= 2 ^ 1074 ->
  valid (fmul x c) /\ is_nan (fmul x c) = false /\ fle f0 (fmul x c) = true /\ fle (fmul x c) x = true.
Proof.
  intros Hx Fx H0 Hc Fc Hi. pose proof (fmul_faithful x c Hx Hc Fx Fc) as Hf.
  assert (is_nan x = false) as Nx by by destruct x.
  apply fle_ival in H0; [|done..]. change (ival f0) with 0 in H0.
  split; [apply Hf|]. split; [apply Hf|].
  split; [eapply faithful_fge|eapply faithful_fle]; try exact Hf; try done; change (ival f0) with 0; nia.
Qed.

(** Adding a non-negative number. *)
Lemma fadd_grow x y :
  valid x -> is_finite x = true -> valid y -> is_finite y = true -> fle f0 y = true ->
  valid (fadd x y) /\ is_nan (fadd x y) = false /\ fle x (fadd x y) = true.
Proof.
  intros Hx Fx Hy Fy H0. pose proof (fadd_faithful x y Hx Hy Fx Fy) as Hf.
  assert (is_nan y = false) as Ny by by destruct y. assert (is_nan x = false) as Nx by by destruct x.
  apply fle_ival in H0; [|done..]. change (ival f0) with 0 in H0.
  split; [apply Hf|]. split; [apply Hf|]. eapply faithful_fge; [exact Hf|done|done|lia].
Qed.

(** Minima and maxima. *)
Lemma fmin_spec x y : is_nan x = false -> is_nan y = false ->
  (fmin x y = x \/ fmin x y = y) /\ fle (fmin x y) x = true /\ fle (fmin x y) y = true.
Proof.
  intros Nx Ny. unfold fmin. rewrite Nx, Ny. destruct (flt y x) eqn:E.
  - split; [by right|]. split; [by apply flt_fle|by apply fle_refl].
  - split; [by left|]. split; [by apply fle_refl|]. by rewrite fle_negb_flt, E.
Qed.

Lemma fmax_spec x y : is_nan x = false -> is_nan y = false ->
  (fmax x y = x \/ fmax x y = y) /\ fle x (fmax x y) = true /\ fle y (fmax x y) = true.
Proof.
  intros Nx Ny. unfold fmax. rewrite Nx, Ny. destruct (flt x y) eqn:E.
  - split; [by right|]. split; [by apply flt_fle|by apply fle_refl].
  - split; [by left|]. split; [by apply fle_refl|]. by rewrite fle_negb_flt, E.
Qed.
