(* ===== verification/Clock.v ===== *)
(** * Points in time

    Times in milliseconds are doubles.  An instant is a non-negative number,
    possibly infinite; [tick] is its whole number of milliseconds, the measure
    in which a simulation advances. *)

From Stdlib Require Import ZArith Lia SpecFloat.
From stdpp Require Import base option list numbers.
From S2P Require Import Prelude F64 F64Int.

Local Open Scope Z_scope.

Definition instant (x : f64) : Prop := valid x /\ is_nan x = false /\ fle f0 x = true.

(** A finite instant. *)
Definition moment (x : f64) : Prop := instant x /\ is_finite x = true.

Definition tick (x : f64) : Z := ival x / 2 ^ 1074.

(** Beyond 2^52 the doubles are further than a millisecond apart. *)
Definition clock_limit : Z := 2 ^ 52.

Lemma ms_pos : 0 < 2 ^ 1074.
Proof. apply pow2_pos. lia. Qed.

Lemma instant_ival x : instant x -> 0 <= ival x.
Proof. intros (Hv & Hn & H0). by apply fle_ival in H0. Qed.

Lemma instant_of_Z n : 0 <= n -> instant (of_Z n).
Proof. intros H. split; [apply of_Z_valid|]. split; [apply of_Z_not_nan|by apply of_Z_nonneg]. Qed.

Lemma moment_0 : moment f0.
Proof. repeat split. Qed.

Lemma moment_instant x : moment x -> instant x.
Proof. by intros []. Qed.

Lemma instant_le x y : instant x -> instant y -> fle x y = true <-> ival x <= ival y.
Proof. intros (? & ? & _) (? & ? & _). by apply fle_ival. Qed.

Lemma instant_lt x y : instant x -> instant y -> flt x y = true <-> ival x < ival y.
Proof. intros (? & ? & _) (? & ? & _). by apply flt_ival. Qed.

Lemma tick_nonneg x : instant x -> 0 <= tick x.
Proof. intros Hx. apply Z.div_pos; [by apply instant_ival|apply ms_pos]. Qed.

Lemma tick_mono x y : instant x -> instant y -> fle x y = true -> tick x <= tick y.
Proof.
  intros Hx Hy H. apply instant_le in H; [|done..]. apply Z.div_le_mono; [apply ms_pos|done].
Qed.

Lemma infinite_instant x : instant x -> is_finite x = false -> x = INFINITY.
Proof. intros (_ & Hn & H0) Hf. destruct x as [|[]| |]; done. Qed.

Lemma finite_le x y : instant x -> instant y -> fle x y = true -> is_finite y = true -> is_finite x = true.
Proof.
  intros Hx Hy H Hf. destruct (is_finite x) eqn:E; [done|].
  rewrite (infinite_instant x Hx E) in H. by destruct y as [|[]| |[]].
Qed.

(** Time passes: adding a duration to a moment. *)
Lemma instant_add x d : moment x -> instant d -> instant (fadd x d) /\ fle x (fadd x d) = true.
Proof.
  intros [Hx Fx] Hd. destruct (is_finite d) eqn:Fd.
  - destruct Hx as (Vx & Nx & Zx). destruct Hd as (Vd & Nd & Zd).
    destruct (fadd_grow x d Vx Fx Vd Fd Zd) as (V & N & L). split; [|done].
    split; [done|]. split; [done|]. exact (fle_trans _ _ _ Zx L).
  - rewrite (infinite_instant d Hd Fd). destruct x as [s|s| |s m e]; try done; by split.
Qed.

(** A duration of at least a millisecond moves the clock's whole part. *)
Lemma tick_add x d : moment x -> instant d -> ival x < clock_limit * 2 ^ 1074 -> fle f1 d = true ->
  tick x + 1 <= tick (fadd x d).
Proof.
  intros [Hx Fx] Hd Hlim H1.
  pose proof ms_pos. pose proof (instant_ival x Hx) as Hx0. unfold clock_limit in Hlim.
  assert (0 <= tick x < 2 ^ 52) as Ht.
  { split; [by apply tick_nonneg|]. unfold tick. apply Z.div_lt_upper_bound; lia. }
  assert (ival (of_Z (tick x + 1)) = (tick x + 1) * 2 ^ 1074) as Hi by (apply of_Z_ival; lia).
  assert (instant (of_Z (tick x + 1))) as Hk by (apply instant_of_Z; lia).
  assert (instant (fadd x d)) as Ha by (by apply instant_add).
  assert (fle (of_Z (tick x + 1)) (fadd x d) = true) as Hle.
  2: { apply tick_mono in Hle; [|done..]. unfold tick at 1 in Hle. by rewrite Hi, Z.div_mul in Hle by lia. }
  apply (instant_le f1 d (instant_of_Z 1 ltac:(lia)) Hd) in H1.
  change (ival f1) with (2 ^ 1074) in H1.
  assert (tick x * 2 ^ 1074 <= ival x) as Hd1 by (unfold tick; rewrite Z.mul_comm; apply Z.mul_div_le; lia).
  destruct (is_finite d) eqn:Fd.
  - destruct Hx as (Vx & Nx & Zx). destruct Hd as (Vd & Nd & Zd). destruct Hk as (Vk & Nk & _).
    eapply faithful_fge; [exact (fadd_faithful x d Vx Vd Fx Fd)|done|done|]. rewrite Hi. lia.
  - rewrite (infinite_instant d Hd Fd) in *. apply instant_le; [done|done|].
    assert (fadd x INFINITY = INFINITY) as -> by (destruct x as [s|s| |s m e]; done).
    rewrite Hi. change (ival INFINITY) with (2 ^ 2098).
    pose proof (pow2_mono (52 + 1074) 2098 ltac:(lia)). rewrite (pow2_split 52 1074) in * by lia. nia.
Qed.

(** The sum of two moments that are not too large is a moment. *)
Lemma moment_add x d k : moment x -> moment d -> 0 <= k <= 1000 -> ival x + ival d <= 2 ^ (k + 1074) ->
  moment (fadd x d).
Proof.
  intros Hx Hd Hk Hb. destruct (instant_add x d Hx (moment_instant _ Hd)) as [Ha _]. split; [done|].
  destruct Hx as [(Vx & Nx & Zx) Fx], Hd as [(Vd & Nd & Zd) Fd].
  pose proof (fadd_faithful x d Vx Vd Fx Fd) as (_ & _ & Hf).
  destruct (Hf (2 ^ (k + 1074))) as [_ Hle].
  { split.
    - exists 1, k. split; [lia|]. split; [lia|]. lia.
    - rewrite Z.abs_eq by (apply Z.lt_le_incl, pow2_pos; lia). apply pow2_mono; lia. }
  specialize (Hle ltac:(lia)).
  destruct (is_finite (fadd x d)) eqn:E; [done|]. rewrite (infinite_instant _ Ha E) in Hle.
  change (ival INFINITY) with (2 ^ 2098) in Hle.
  pose proof (pow2_mono (k + 1074 + 1) 2098 ltac:(lia)). pose proof (pow2_pos (k + 1074) ltac:(lia)).
  rewrite (pow2_split (k + 1074) 1) in * by lia. lia.
Qed.

(** The total order of instants refines their order. *)
Lemma key_fle x y : instant x -> instant y -> total_key x <= total_key y -> fle x y = true.
Proof.
  intros Hx Hy Hk. pose proof (instant_ival x Hx). pose proof (instant_ival y Hy). apply instant_le; [done..|].
  destruct Hx as (Vx & Nx & Zx), Hy as (Vy & Ny & Zy).
  assert (x = fneg0 \/ x <> fneg0) as [->|Nzx] by (destruct x as [[]| | |]; first [by left|by right]).
  { done. }
  assert (y = fneg0 \/ y <> fneg0) as [->|Nzy] by (destruct y as [[]| | |]; first [by left|by right]).
  - exfalso. unfold total_key in Hk. change (mag_bits fneg0) with 0 in Hk. cbn [sign_bit fneg0] in Hk.
    destruct x as [[]|[]| |[] m e]; try done; cbn [sign_bit] in Hk.
    pose proof (mag_finite _ _ _ Vx). lia.
  - pose proof (total_cmp_ival x y Vx Vy Nx Ny Nzx Nzy) as Hc. unfold total_cmp, cmp_on in Hc.
    destruct (Z.compare_spec (ival x) (ival y)); [lia|lia|]. apply Z.compare_gt_iff in Hc. lia.
Qed.

(** Moments have ages. *)
Lemma moment_sub_not_nan x y : moment x -> moment y -> is_nan (fsub x y) = false.
Proof.
  intros [(Vx & _ & _) Fx] [(Vy & _ & _) Fy]. by destruct (fsub_faithful x y Vx Vy Fx Fy) as (_ & ? & _).
Qed.

Lemma fmax_moment x y : moment x -> moment y -> moment (fmax x y).
Proof.
  intros Hx Hy. destruct (fmax_spec x y) as [[->| ->] _]; [apply Hx|apply Hy|done..].
Qed.

Lemma positive_moment y : moment y -> 0 < ival y -> exists m e, y = S754_finite false m e.
Proof.
  intros [(Vy & _) Fy] Hp. destruct y as [s|s| |s m e]; try done.
  destruct s; [|by eauto]. cbn [ival signed] in Hp. apply valid_finite in Vy.
  pose proof (pow2_pos (e + 1074)). nia.
Qed.
