(* ===== verification/Text.v ===== *)
(** * Text as Rust's standard library sees it

    Strings are UTF-8 bytes.  The functions of [str] and the formatting and
    parsing of numbers that the components use: [trim], [to_ascii_lowercase],
    [contains], [replace], [parse::<u32>], [parse::<f64>], the conversions to
    [u32], and the directives [{}], [{:.n}], [{:<w}] and [{:>w}]. *)

From Stdlib Require Import ZArith Lia Ascii SpecFloat.
From stdpp Require Import base option list numbers pretty strings.
From S2P Require Import Prelude F64 F64Int Clock.

Module Text.
Local Open Scope string_scope.
Local Open Scope Z_scope.

(** ** Bytes *)

Definition byte (c : ascii) : Z := Z.of_N (N_of_ascii c).
Definition chr (n : Z) : ascii := ascii_of_N (Z.to_N n).

(** A byte that continues a character of several bytes: [str] may not be cut
    before it. *)
Definition is_continuation (c : ascii) : bool := (128 <=? byte c) && (byte c <? 192).
Definition is_digit (c : ascii) : bool := (48 <=? byte c) && (byte c <=? 57).
Definition is_ascii (c : ascii) : bool := byte c <? 128.

Fixpoint all_chars (P : ascii -> bool) (s : string) : bool :=
  match s with "" => true | String c s => P c && all_chars P s end.

Definition DQUOTE : ascii := chr 34.
Definition COMMA : ascii := chr 44.
Definition CR : ascii := chr 13.
Definition LF : ascii := chr 10.

Definition of_char (c : ascii) : string := String c "".

(** ** [str::trim] *)

(** The White_Space characters of one, two and three bytes. *)
Definition space1 (a : Z) : bool := (9 <=? a) && (a <=? 13) || (a =? 32).
Definition space2 (a b : Z) : bool := (a =? 194) && ((b =? 133) || (b =? 160)).
Definition space3 (a b d : Z) : bool :=
  (a =? 225) && (b =? 154) && (d =? 128) ||
  (a =? 226) && (b =? 128) && ((128 <=? d) && (d <=? 138) || (d =? 168) || (d =? 169) || (d =? 175)) ||
  (a =? 226) && (b =? 129) && (d =? 159) ||
  (a =? 227) && (b =? 128) && (d =? 128).

(** Leading characters of one, two or three bytes are dropped. *)
Fixpoint drop_spaces (w2 : Z -> Z -> bool) (w3 : Z -> Z -> Z -> bool) (s : string) : string :=
  match s with
  | String a s1 =>
      if space1 (byte a) then drop_spaces w2 w3 s1
      else match s1 with
        | String b s2 =>
            if w2 (byte a) (byte b) then drop_spaces w2 w3 s2
            else match s2 with
              | String d s3 => if w3 (byte a) (byte b) (byte d) then drop_spaces w2 w3 s3 else s
              | _ => s
              end
        | _ => s
        end
  | _ => s
  end.

Definition trim_start (s : string) : string := drop_spaces space2 space3 s.
Definition trim_end (s : string) : string :=
  String.rev (drop_spaces (fun b a => space2 a b) (fun d b a => space3 a b d) (String.rev s)).
Definition trim (s : string) : string := trim_end (trim_start s).

(** ** Searching and rewriting *)

Definition to_lower (c : ascii) : ascii :=
  if (65 <=? byte c) && (byte c <=? 90) then chr (byte c + 32) else c.

Fixpoint to_ascii_lowercase (s : string) : string :=
  match s with "" => "" | String c s => String (to_lower c) (to_ascii_lowercase s) end.

Fixpoint contains (s n : string) : bool :=
  String.prefix n s || match s with "" => false | String _ s => contains s n end.

(** [s.replace(c, "")] *)
Fixpoint remove_char (c : ascii) (s : string) : string :=
  match s with
  | "" => ""
  | String a s => if Ascii.eqb a c then remove_char c s else String a (remove_char c s)
  end.

(** [argv.join(sep)] *)
Fixpoint join (sep : string) (l : list string) : string :=
  match l with
  | [] => ""
  | [s] => s
  | s :: l => s +:+ sep +:+ join sep l
  end.

(** ** Numbers read *)

(** The leading digits, and what follows them. *)
Fixpoint take_digits (s : string) : string * string :=
  match s with
  | String c s' => if is_digit c then let '(d, r) := take_digits s' in (String c d, r) else ("", s)
  | "" => ("", "")
  end.

Fixpoint digits_from (n : Z) (s : string) : Z :=
  match s with "" => n | String c s => digits_from (10 * n + (byte c - 48)) s end.
Definition digits_value (s : string) : Z := digits_from 0 s.

(** [str::parse::<u32>] *)
Definition parse_u32 (s : string) : option Z :=
  let t := match s with String c r => if byte c =? 43 then r else s | "" => s end in
  if bool_decide (t <> "") && all_chars is_digit t && (digits_value t <=? u32_max)
  then Some (digits_value t) else None.

(** The number [m * 10^e], correctly rounded. *)
Definition decimal (neg : bool) (m e : Z) : f64 :=
  match m with
  | Zpos p =>
      if 0 <=? e then binary_normalize 53 1024 (if neg then - (m * 10 ^ e) else m * 10 ^ e) 0 neg
      else fdiv (S754_finite neg p 0) (S754_finite false (Z.to_pos (10 ^ (- e))) 0)
  | _ => S754_zero neg
  end.

(** An exponent, as far as the end of the text. *)
Definition parse_exponent (s : string) : option Z :=
  match s with
  | "" => Some 0
  | String c r =>
      if Ascii.eqb (to_lower c) "e" then
        let '(neg, t) := match r with
          | String g r' => if byte g =? 45 then (true, r') else if byte g =? 43 then (false, r') else (false, r)
          | "" => (false, r)
          end in
        let '(d, rest) := take_digits t in
        if bool_decide (d <> "" /\ rest = "") then Some (if neg then - digits_value d else digits_value d) else None
      else None
  end.

(** [str::parse::<f64>] *)
Definition parse_f64 (s : string) : option f64 :=
  let '(neg, t) := match s with
    | String g r => if byte g =? 45 then (true, r) else if byte g =? 43 then (false, r) else (false, s)
    | "" => (false, s)
    end in
  let low := to_ascii_lowercase t in
  if bool_decide (low = "inf" \/ low = "infinity") then Some (S754_infinity neg)
  else if bool_decide (low = "nan") then Some NAN
  else
    let '(whole, r) := take_digits t in
    let '(frac, rest) := match r with
      | String c r' => if byte c =? 46 then take_digits r' else ("", r)
      | "" => ("", r)
      end in
    if bool_decide (whole +:+ frac = "") then None
    else
      e ← parse_exponent rest;
      Some (decimal neg (digits_value (whole +:+ frac)) (e - Z.of_nat (String.length frac))).

(** [x as u32]: truncating and saturating. *)
Definition to_u32 (x : f64) : Z :=
  match x with
  | S754_finite false m e =>
      Z.min u32_max (if 0 <=? e then Zpos m * 2 ^ e else Zpos m / 2 ^ (- e))
  | S754_infinity false => u32_max
  | _ => 0
  end.

(** [f64::floor] *)
Definition ffloor (x : f64) : f64 :=
  match x with
  | S754_finite s m e =>
      if 0 <=? e then x
      else
        let d := 2 ^ (- e) in
        if s then binary_normalize 53 1024 (- div_ceil (Zpos m) d) 0 true
        else of_Z (Zpos m / d)
  | _ => x
  end.

(** ** Numbers written *)

(** The quotient rounded to nearest, ties to even. *)
Definition round_half_even (num den : Z) : Z :=
  let q := num / den in let r := num mod den in
  if 2 * r <? den then q else if den <? 2 * r then q + 1 else if Z.even q then q else q + 1.

Fixpoint zeros (n : nat) : string := match n with O => "" | S n => String "0" (zeros n) end.

Definition pad_zeros (w : nat) (s : string) : string := zeros (w - String.length s) +:+ s.

(** The decimal text of the integer [k], with the last [n] digits behind the
    point. *)
Definition with_point (n : nat) (k : Z) : string :=
  let p := 10 ^ Z.of_nat n in
  match n with
  | O => pretty k
  | _ => pretty (k / p) +:+ "." +:+ pad_zeros n (pretty (k mod p))
  end.

(** [format!("{:.n}")] of a double: its exact value, rounded to [n] places. *)
Definition fixed (n : nat) (x : f64) : string :=
  match x with
  | S754_nan => "NaN"
  | S754_infinity s => if s then "-inf" else "inf"
  | S754_zero s => (if s then "-" else "") +:+ with_point n 0
  | S754_finite s m e =>
      let p := 10 ^ Z.of_nat n in
      let k := if 0 <=? e then Zpos m * 2 ^ e * p else round_half_even (Zpos m * p) (2 ^ (- e)) in
      (if s then "-" else "") +:+ with_point n k
  end.

(** Characters, not bytes, are counted for padding. *)
Fixpoint char_count (s : string) : nat :=
  match s with
  | "" => O
  | String c s => if is_continuation c then char_count s else S (char_count s)
  end.

Fixpoint spaces (n : nat) : string := match n with O => "" | S n => String " " (spaces n) end.

Definition pad_right (w : nat) (s : string) : string := s +:+ spaces (w - char_count s).
Definition pad_left (w : nat) (s : string) : string := spaces (w - char_count s) +:+ s.

(** ** Strings as monoid *)

Lemma sapp_cons c s t : String c s +:+ t = String c (s +:+ t).
Proof. reflexivity. Qed.

Lemma sapp_nil_l t : "" +:+ t = t.
Proof. reflexivity. Qed.

Lemma sapp_nil_r s : s +:+ "" = s.
Proof. induction s as [|c s IH]; [done|]. by rewrite sapp_cons, IH. Qed.

Lemma sapp_assoc s1 s2 s3 : s1 +:+ s2 +:+ s3 = (s1 +:+ s2) +:+ s3.
Proof. induction s1 as [|c s1 IH]; [done|]. by rewrite !sapp_cons, IH. Qed.

Lemma sapp_char s c t : (s +:+ of_char c) +:+ t = s +:+ String c t.
Proof. by rewrite <- sapp_assoc. Qed.

Lemma slength_app s t : (String.length (s +:+ t) = String.length s + String.length t)%nat.
Proof. induction s as [|c s IH]; [done|]. rewrite sapp_cons. cbn. by rewrite IH. Qed.

Lemma all_chars_app P s t : all_chars P (s +:+ t) = all_chars P s && all_chars P t.
Proof. induction s as [|c s IH]; [done|]. rewrite sapp_cons. cbn [all_chars]. by rewrite IH, andb_assoc. Qed.

Lemma all_chars_impl (P Q : ascii -> bool) s : (forall c, P c = true -> Q c = true) ->
  all_chars P s = true -> all_chars Q s = true.
Proof.
  intros H. induction s as [|c s IH]; cbn; [done|]. rewrite !andb_true_iff. intros [H1 H2]. split; auto.
Qed.

(** ** Decimal digits *)

Lemma digits_from_app a s t : digits_from a (s +:+ t) = digits_from (digits_from a s) t.
Proof. revert a. induction s as [|c s IH]; intros a; [done|]. rewrite sapp_cons. cbn [digits_from]. apply IH. Qed.

Lemma pretty_char_digit x : (x < 10)%N ->
  is_digit (pretty_N_char x) = true /\ byte (pretty_N_char x) - 48 = Z.of_N x.
Proof.
  intros H. assert (x = 0 \/ x = 1 \/ x = 2 \/ x = 3 \/ x = 4 \/ x = 5 \/ x = 6 \/ x = 7 \/ x = 8 \/ x = 9)%N as D by lia.
  destruct D as [->|[->|[->|[->|[->|[->|[->|[->|[->| ->]]]]]]]]]; done.
Qed.

Lemma pretty_go_digits x : forall s,
  all_chars is_digit (pretty_N_go x s) = all_chars is_digit s /\
  digits_from 0 (pretty_N_go x s) = digits_from (Z.of_N x) s.
Proof.
  induction (N.lt_wf_0 x) as [x _ IH]. intros s. destruct (decide (x = 0)%N) as [->|Hx]; [by rewrite pretty_N_go_0|].
  rewrite pretty_N_go_step by lia.
  destruct (IH (x `div` 10)%N ltac:(apply N.div_lt; lia) (String (pretty_N_char (x `mod` 10)) s)) as [-> ->].
  destruct (pretty_char_digit (x `mod` 10)) as [H1 H2]; [by apply N.mod_lt|].
  cbn [all_chars digits_from]. rewrite H1, H2. split; [done|]. f_equal.
  pose proof (N.div_mod x 10 ltac:(lia)). lia.
Qed.

(** The decimal text of a natural number is made of digits and reads back. *)
Lemma pretty_digits n : 0 <= n ->
  all_chars is_digit (pretty n) = true /\ digits_value (pretty n) = n /\ pretty n <> "".
Proof.
  intros H. destruct n as [|p|p]; [done| |done].
  change (pretty (Zpos p)) with (pretty_N_go (Npos p) ""). destruct (pretty_go_digits (Npos p) "") as [H1 H2].
  split; [done|]. split; [done|]. intros E. rewrite E in H2. cbn in H2. lia.
Qed.

Lemma digit_not_plus c : is_digit c = true -> (byte c =? 43) = false.
Proof. unfold is_digit. rewrite andb_true_iff, !Z.leb_le. intros []. apply Z.eqb_neq. lia. Qed.

Lemma parse_u32_digits d : d <> "" -> all_chars is_digit d = true ->
  parse_u32 d = if digits_value d <=? u32_max then Some (digits_value d) else None.
Proof.
  intros Hne Hd. unfold parse_u32. destruct d as [|c r]; [done|]. pose proof Hd as Hc. cbn in Hc.
  apply andb_true_iff in Hc as [Hc _]. rewrite (digit_not_plus c Hc), Hd, bool_decide_true by done. done.
Qed.

Lemma parse_u32_pretty n : 0 <= n <= u32_max -> parse_u32 (pretty n) = Some n.
Proof.
  intros H. destruct (pretty_digits n) as (H1 & H2 & H3); [lia|]. rewrite parse_u32_digits, H2 by done.
  by rewrite (proj2 (Z.leb_le n u32_max)) by lia.
Qed.

Lemma take_digits_app d r : all_chars is_digit d = true ->
  match r with String c _ => is_digit c = false | "" => True end ->
  take_digits (d +:+ r) = (d, r).
Proof.
  intros Hd Hr. induction d as [|c d IH].
  - rewrite sapp_nil_l. destruct r as [|c r]; [done|]. cbn. by rewrite Hr.
  - cbn in Hd. apply andb_true_iff in Hd as [Hc Hd]. rewrite sapp_cons. cbn [take_digits]. by rewrite Hc, IH.
Qed.

Lemma take_digits_spec s : let '(d, r) := take_digits s in
  s = d +:+ r /\ all_chars is_digit d = true /\ match r with String c _ => is_digit c = false | "" => True end.
Proof.
  induction s as [|c s IH]; cbn; [done|]. destruct (is_digit c) eqn:E; [|by cbn; rewrite E].
  destruct (take_digits s) as [d r]. destruct IH as (-> & H1 & H2). cbn. by rewrite E, H1.
Qed.
(** ** Reversal and trimming *)

Lemma rev_app_spec s : forall t, String.rev_app s t = String.rev s +:+ t.
Proof.
  unfold String.rev. induction s as [|c s IH]; intros t; [done|]. cbn [String.rev_app].
  rewrite (IH (String c t)), (IH (String c "")). by rewrite <- sapp_assoc.
Qed.

Lemma rev_cons c s : String.rev (String c s) = String.rev s +:+ of_char c.
Proof. unfold String.rev at 1. cbn [String.rev_app]. by rewrite rev_app_spec. Qed.

Lemma rev_sapp s t : String.rev (s +:+ t) = String.rev t +:+ String.rev s.
Proof.
  induction s as [|c s IH]; [by rewrite sapp_nil_l, sapp_nil_r|].
  rewrite sapp_cons, !rev_cons, IH. by rewrite sapp_assoc.
Qed.

Lemma rev_rev s : String.rev (String.rev s) = s.
Proof. induction s as [|c s IH]; [done|]. rewrite rev_cons, rev_sapp, IH. done. Qed.

Lemma all_chars_rev P s : all_chars P (String.rev s) = all_chars P s.
Proof.
  induction s as [|c s IH]; [done|]. rewrite rev_cons, all_chars_app, IH. cbn [all_chars of_char].
  rewrite andb_true_r. apply andb_comm.
Qed.

(** Trimming drops a prefix. *)
Lemma drop_spaces_suffix w2 w3 n : forall s, (String.length s <= n)%nat ->
  exists p, s = p +:+ drop_spaces w2 w3 s.
Proof.
  induction n as [|n IH]; intros s Hn; [destruct s; [by exists ""|cbn in Hn; lia]|].
  destruct s as [|a s1]; [by exists ""|]. cbn [String.length] in Hn.
  assert (forall pre t, (String.length t <= n)%nat -> exists p, pre +:+ t = p +:+ drop_spaces w2 w3 t) as Hstep.
  { intros pre t Ht. destruct (IH t Ht) as [p E]. exists (pre +:+ p). by rewrite <- sapp_assoc, <- E. }
  cbn [drop_spaces]. destruct (space1 (byte a)); [apply (Hstep (of_char a)); lia|].
  destruct s1 as [|b s2]; [by exists ""|]. cbn [String.length] in Hn.
  destruct (w2 _ _); [apply (Hstep (String a (of_char b))); lia|].
  destruct s2 as [|d s3]; [by exists ""|]. cbn [String.length] in Hn.
  destruct (w3 _ _ _); [apply (Hstep (String a (String b (of_char d)))); lia|by exists ""].
Qed.

Lemma drop_spaces_all P w2 w3 s : all_chars P s = true -> all_chars P (drop_spaces w2 w3 s) = true.
Proof.
  intros H. destruct (drop_spaces_suffix w2 w3 _ s (le_n _)) as [p E]. rewrite E, all_chars_app in H.
  by apply andb_true_iff in H as [_ H].
Qed.

Lemma trim_all P s : all_chars P s = true -> all_chars P (trim s) = true.
Proof.
  intros H. unfold trim, trim_end, trim_start. rewrite all_chars_rev. apply drop_spaces_all.
  rewrite all_chars_rev. by apply drop_spaces_all.
Qed.

(** Printable ASCII is left alone. *)
Definition printable (c : ascii) : bool := (33 <=? byte c) && (byte c <? 127).

Lemma drop_spaces_printable w2 w3 a s : printable a = true ->
  (forall b, w2 (byte a) b = false) -> (forall b d, w3 (byte a) b d = false) ->
  drop_spaces w2 w3 (String a s) = String a s.
Proof.
  intros Ha H2 H3. unfold printable in Ha. apply andb_true_iff in Ha as [Hlo Hhi].
  apply Z.leb_le in Hlo. apply Z.ltb_lt in Hhi.
  assert (space1 (byte a) = false) as H1.
  { unfold space1. rewrite (proj2 (Z.leb_gt (byte a) 13)), (proj2 (Z.eqb_neq (byte a) 32)) by lia. by rewrite andb_false_r. }
  cbn [drop_spaces]. rewrite H1. destruct s as [|b s2]; [done|]. rewrite H2. destruct s2 as [|d s3]; [done|]. by rewrite H3.
Qed.

Lemma trim_printable s : all_chars printable s = true -> trim s = s.
Proof.
  intros H.
  assert (forall w2 w3 t, all_chars printable t = true ->
    (forall a b, printable a = true -> w2 (byte a) b = false) ->
    (forall a b d, printable a = true -> w3 (byte a) b d = false) -> drop_spaces w2 w3 t = t) as Hd.
  { intros w2 w3 [|a t] Ht H2 H3; [done|]. cbn [all_chars] in Ht. apply andb_true_iff in Ht as [Ha _].
    apply drop_spaces_printable; auto. }
  assert (forall a, printable a = true -> byte a < 127) as Hp.
  { intros a Ha. unfold printable in Ha. apply andb_true_iff in Ha as [_ Ha]. by apply Z.ltb_lt. }
  unfold trim, trim_start, trim_end.
  rewrite (Hd space2 space3); [|done| |]; [rewrite Hd; [apply rev_rev|by rewrite all_chars_rev| |]| |];
    intros a b; intros; pose proof (Hp a ltac:(done));
    unfold space2, space3; repeat match goal with |- context[?x =? ?y] =>
      first [rewrite (proj2 (Z.eqb_neq x y)) by lia|destruct (x =? y)] | |- context[?x <=? ?y] =>
      first [rewrite (proj2 (Z.leb_gt x y)) by lia|destruct (x <=? y)] end; done.
Qed.

Lemma lower_all P s : (forall c, P c = true -> P (to_lower c) = true) ->
  all_chars P s = true -> all_chars P (to_ascii_lowercase s) = true.
Proof.
  intros H. induction s as [|c s IH]; [done|]. cbn [all_chars to_ascii_lowercase]. rewrite !andb_true_iff.
  intros [H1 H2]. split; auto.
Qed.

Lemma byte_chr n : 0 <= n < 256 -> byte (chr n) = n.
Proof. intros H. unfold byte, chr. rewrite N_ascii_embedding by lia. lia. Qed.

Lemma to_lower_ascii c : is_ascii c = true -> is_ascii (to_lower c) = true.
Proof.
  unfold is_ascii, to_lower. rewrite !Z.ltb_lt. intros H. destruct (Z.leb_spec 65 (byte c)), (Z.leb_spec (byte c) 90);
    cbn [andb]; try done. rewrite byte_chr; lia.
Qed.

(** Lower-case letters and digits are left alone. *)
Definition lower_alnum (c : ascii) : bool := is_digit c || (97 <=? byte c) && (byte c <=? 122).

Lemma lower_alnum_range c : lower_alnum c = true -> 48 <= byte c <= 57 \/ 97 <= byte c <= 122.
Proof. unfold lower_alnum, is_digit. rewrite orb_true_iff, !andb_true_iff, !Z.leb_le. tauto. Qed.

Lemma lower_alnum_same s : all_chars lower_alnum s = true -> trim s = s /\ to_ascii_lowercase s = s.
Proof.
  intros H. split.
  - apply trim_printable. eapply all_chars_impl; [|exact H]. intros c Hc%lower_alnum_range.
    unfold printable. rewrite andb_true_iff, Z.leb_le, Z.ltb_lt. lia.
  - induction s as [|c s IH]; [done|]. cbn [all_chars to_ascii_lowercase] in *. apply andb_true_iff in H as [Hc H].
    rewrite IH by done. f_equal. apply lower_alnum_range in Hc. unfold to_lower.
    destruct (Z.leb_spec 65 (byte c)), (Z.leb_spec (byte c) 90); try done. lia.
Qed.

Lemma digits_from_nonneg s : forall a, 0 <= a -> all_chars is_digit s = true -> 0 <= digits_from a s.
Proof.
  induction s as [|c s IH]; intros a Ha; [done|]. cbn [all_chars digits_from]. rewrite andb_true_iff. intros [Hc H].
  apply IH; [|done]. unfold is_digit in Hc. apply andb_true_iff in Hc as [Hc _]. apply Z.leb_le in Hc. lia.
Qed.

Lemma parse_u32_range s n : parse_u32 s = Some n -> 0 <= n <= u32_max.
Proof.
  unfold parse_u32. set (t := match s with "" => s | String _ _ => _ end).
  destruct (bool_decide (t <> "") && all_chars is_digit t && (digits_value t <=? u32_max)) eqn:E; [|done].
  intros [= <-]. apply andb_true_iff in E as [[_ Hd]%andb_true_iff Hle]. apply Z.leb_le in Hle. split; [|done].
  by apply digits_from_nonneg.
Qed.
(** ** A whole number written and read back *)

Lemma of_Z_shape k : 0 < k <= 2 ^ 53 -> exists m e, of_Z k = S754_finite false m e /\
  (0 <= e -> Zpos m * 2 ^ e = k) /\ (e < 0 -> Zpos m = k * 2 ^ (- e)).
Proof.
  intros H. destruct (positive_moment (of_Z k)) as (m & e & E).
  { split; [apply instant_of_Z; lia|apply of_Z_finite; unfold small; lia]. }
  { rewrite of_Z_ival by lia. pose proof ms_pos. nia. }
  exists m, e. split; [done|]. pose proof (of_Z_valid k) as Hv. pose proof (of_Z_ival k ltac:(lia)) as Hi.
  rewrite E in Hv, Hi. apply valid_finite in Hv. cbn [ival signed] in Hi. split; intros He.
  - rewrite pow2_split in Hi by lia. pose proof ms_pos. nia.
  - replace (2 ^ 1074) with (2 ^ (- e) * 2 ^ (e + 1074)) in Hi by (rewrite <- pow2_split by lia; f_equal; lia).
    pose proof (pow2_pos (e + 1074)). nia.
Qed.

Lemma round_half_even_exact k d : 0 < d -> round_half_even (k * d) d = k.
Proof.
  intros Hd. unfold round_half_even. rewrite Z.div_mul, Z.mod_mul by lia.
  by rewrite (proj2 (Z.ltb_lt (2 * 0) d)) by lia.
Qed.

Lemma fixed_whole k : 0 <= k <= 2 ^ 53 -> fixed 0 (of_Z k) = pretty k.
Proof.
  intros H. destruct (decide (k = 0)) as [->|Hne]; [done|].
  destruct (of_Z_shape k ltac:(lia)) as (m & e & E & Hp & Hn). rewrite E. cbn [fixed]. rewrite sapp_nil_l.
  unfold with_point. f_equal. rewrite !Z.mul_1_r. destruct (Z.leb_spec 0 e); [by apply Hp|].
  rewrite (Hn ltac:(lia)). apply round_half_even_exact. apply pow2_pos. lia.
Qed.

Lemma digits_not_word s w : all_chars is_digit s = true -> all_chars (fun c => negb (is_digit c)) w = true -> w <> "" ->
  to_ascii_lowercase s <> w.
Proof.
  intros Hs Hw Hne <-. destruct s as [|c s]; [done|]. cbn [all_chars to_ascii_lowercase] in *.
  apply andb_true_iff in Hs as [Hc _]. apply andb_true_iff in Hw as [Hw _].
  assert (to_lower c = c) as E; [|by rewrite E, Hc in Hw].
  unfold is_digit in Hc. apply andb_true_iff in Hc as [_ Hc]. apply Z.leb_le in Hc. unfold to_lower.
  by rewrite (proj2 (Z.leb_gt 65 (byte c))) by lia.
Qed.

Lemma parse_f64_digits d : d <> "" -> all_chars is_digit d = true -> parse_f64 d = Some (decimal false (digits_value d) 0).
Proof.
  intros Hne Hd. unfold parse_f64.
  assert (match d with String g r => if byte g =? 45 then (true, r) else if byte g =? 43 then (false, r) else (false, d)
          | "" => (false, d) end = (false, d)) as ->.
  { destruct d as [|g r]; [done|]. cbn [all_chars] in Hd. apply andb_true_iff in Hd as [Hg _].
    rewrite (digit_not_plus g Hg). unfold is_digit in Hg. apply andb_true_iff in Hg as [Hg _]. apply Z.leb_le in Hg.
    by rewrite (proj2 (Z.eqb_neq (byte g) 45)) by lia. }
  rewrite !bool_decide_false by (repeat intros [H|H] || intros H; revert H; by apply digits_not_word).
  pose proof (take_digits_app d "" Hd I) as Ht. rewrite sapp_nil_r in Ht. rewrite Ht. rewrite sapp_nil_r.
  by rewrite bool_decide_false.
Qed.

Lemma fixed_reads_back k : 0 <= k <= 2 ^ 53 -> parse_f64 (fixed 0 (of_Z k)) = Some (of_Z k).
Proof.
  intros H. rewrite fixed_whole by done. destruct (pretty_digits k) as (Hd & Hv & Hne); [lia|].
  rewrite parse_f64_digits, Hv by done. f_equal. destruct k as [|p|p]; [done| |lia].
  unfold decimal. cbn [Z.leb Z.compare]. unfold of_Z. by rewrite Z.mul_1_r.
Qed.
(** ** Whole parts *)

Lemma to_u32_usize x : to_u32 x = Z.min u32_max (to_usize x).
Proof.
  unfold u32_max. destruct x as [|[]| |[] m e]; cbn [to_u32 to_usize]; unfold u32_max, u64_max; lia.
Qed.

Lemma to_u32_floor x : valid x -> is_finite x = true -> 0 <= ival x -> ival x / 2 ^ 1074 <= u32_max ->
  to_u32 (ffloor x) = ival x / 2 ^ 1074.
Proof.
  intros Hv Hf Hi Hb. pose proof (to_usize_ival x Hv Hf Hi) as Hu. rewrite to_u32_usize.
  destruct x as [s|s| |s m e]; try done. cbn [ffloor]. destruct (Z.leb_spec 0 e) as [He|He].
  - rewrite Hu. unfold u64_max, u32_max in *. lia.
  - destruct s.
    { cbn [ival signed] in Hi. apply valid_finite in Hv. pose proof (pow2_pos (e + 1074)). nia. }
    cbn [to_usize] in Hu. rewrite (proj2 (Z.leb_gt 0 e)) in Hu by done.
    assert (0 <= ival (S754_finite false m e) / 2 ^ 1074) as H0 by (apply Z.div_pos; [done|apply ms_pos]).
    assert (Zpos m / 2 ^ (- e) = ival (S754_finite false m e) / 2 ^ 1074) as -> by (unfold u64_max, u32_max in *; lia).
    rewrite to_usize_of_Z by (unfold u32_max in *; lia). lia.
Qed.

(** The quotient of two 32-bit integers, computed in doubles and rounded down,
    is their integer quotient. *)
Lemma floor_quotient n g : 0 <= n <= u32_max -> 0 < g <= u32_max ->
  to_u32 (ffloor (fdiv (of_Z n) (of_Z g))) = n / g.
Proof.
  unfold u32_max. intros Hn Hg. pose proof ms_pos as Hms.
  assert (ival (of_Z g) = g * 2 ^ 1074) as Ig by (apply of_Z_ival; lia).
  assert (ival (of_Z n) = n * 2 ^ 1074) as In by (apply of_Z_ival; lia).
  pose proof (fdiv_faithful (of_Z n) (of_Z g) (of_Z_valid _) (of_Z_valid _) (of_Z_finite n ltac:(unfold small; lia))
    (of_Z_finite g ltac:(unfold small; lia)) ltac:(rewrite Ig; nia)) as (Vx & Nx & Hf).
  rewrite In, Ig, Z.sgn_pos, Z.mul_1_r, Z.abs_eq in Hf by nia. set (x := fdiv _ _) in *.
  pose proof (Z.div_mod n g ltac:(lia)) as Hdm. pose proof (Z.mod_pos_bound n g ltac:(lia)) as Hr.
  set (q := n / g) in *. assert (0 <= q <= n) as Hq by nia.
  assert (q * 2 ^ 1074 <= ival x) as Hlo.
  { destruct (Hf (q * 2 ^ 1074)) as [H _]; [apply of_Z_grid; unfold small; lia|]. apply H. nia. }
  assert (exists s, 0 <= s <= 32 /\ (q + 1) * 2 ^ s <= 2 ^ 53 /\ g <= 2 ^ s) as (s & Hs & Hfit & Hgs).
  { destruct (Z.le_gt_cases g (2 ^ 21)); [exists 21; nia|exists 32]. assert (q <= 2 ^ 11) by nia. nia. }
  assert (ival x <= ((q + 1) * 2 ^ s - 1) * 2 ^ (1074 - s)) as Hhi.
  { pose proof (pow2_pos (1074 - s) ltac:(lia)) as Hps. pose proof (pow2_pos s ltac:(lia)) as Hp.
    assert (2 ^ 1074 = 2 ^ s * 2 ^ (1074 - s)) as Hsp by (rewrite <- pow2_split by lia; f_equal; lia).
    destruct (Hf (((q + 1) * 2 ^ s - 1) * 2 ^ (1074 - s))) as [_ H].
    - split.
      + exists ((q + 1) * 2 ^ s - 1), (- s). split; [nia|]. split; [lia|]. f_equal. f_equal. lia.
      + rewrite Z.abs_eq by nia. pose proof (pow2_mono (53 + 1074) 2098 ltac:(lia)) as Hm.
        rewrite (pow2_split 53 1074) in Hm by lia. rewrite Hsp in Hm. nia.
    - apply H. rewrite Hsp. generalize dependent (2 ^ (1074 - s)). intros u Hu _. 
      assert (n * 2 ^ s <= g * ((q + 1) * 2 ^ s - 1)) by nia. nia. }
  assert (ival x < (q + 1) * 2 ^ 1074) as Hlt.
  { assert (2 ^ 1074 = 2 ^ s * 2 ^ (1074 - s)) as Hsp by (rewrite <- pow2_split by lia; f_equal; lia).
    pose proof (pow2_pos (1074 - s) ltac:(lia)). rewrite Hsp. nia. }
  assert (ival x / 2 ^ 1074 = q) as Ediv by (symmetry; apply (Z.div_unique _ _ _ (ival x - q * 2 ^ 1074)); [left|]; lia).
  assert (is_finite x = true) as Fx.
  { destruct x as [|b| |]; try done. exfalso. cbn [ival signed] in Hlt, Hlo.
    pose proof (pow2_mono (33 + 1074) 2098 ltac:(lia)) as Hm. rewrite (pow2_split 33 1074) in Hm by lia.
    destruct b; cbn [signed] in *; nia. }
  rewrite to_u32_floor; [done|done|done|nia|]. rewrite Ediv. unfold u32_max. lia.
Qed.
End Text.
