(* ===== verification/Core.v ===== *)
(** * The vocabulary of the control plane ([crates/core/src]: error.rs, ids.rs,
    slo.rs, request.rs, stats.rs)

    Errors, identifiers, the service-level objective, the verdict on a finished
    request and the report over a benchmark window. *)

From stdpp Require Import base option list numbers pretty strings.
From Stdlib Require Import ZArith Lia.
From S2P Require Import Prelude F64 F64Int.

(** ** Errors and identifiers *)

(** Request and worker identifiers are [u64] and [u32] values. *)
Abbreviation RequestId := Z (only parsing).
Abbreviation WorkerId := Z (only parsing).

(** The messages of the string-carrying variants are left out. *)
Inductive Error : Type :=
  | NoWorker (role : string)
  | UnknownWorker (w : WorkerId)
  | UnknownRequest (id : RequestId)
  | KvExhausted (needed free : Z)
  | Rejected (id : RequestId)
  | EngineError
  | TransferError
  | ConfigError
  | JsonError.

Definition display_request (id : RequestId) : string := ("req-" +:+ pretty id)%string.
Definition display_worker (id : WorkerId) : string := ("w" +:+ pretty id)%string.

(** [RequestIdSource::next]: [fetch_add], which wraps. *)
Definition next_id (src : Z) : RequestId * Z := (src, u64_wrap (src + 1)).

(** The identifiers handed out by [n] calls. *)
Fixpoint ids_from (n : nat) (src : Z) : list RequestId :=
  match n with
  | O => []
  | S n' => let '(id, src') := next_id src in id :: ids_from n' src'
  end.

(** ** The objective *)

Record Slo := mkSlo {
  slo_ttft_ms : f64;
  slo_itl_ms : f64;
  good_frac_target : f64
}.

Definition slo_default : Slo := mkSlo (of_Z 3000) (of_Z 20) (dec 90 2).

Definition decode_slot_seconds (s : Slo) (osl : Z) : f64 :=
  fdiv (fmul (of_Z osl) (slo_itl_ms s)) (of_Z 1000).

Definition decode_req_per_s (s : Slo) (concurrency : f64) (osl : Z) : f64 :=
  fdiv concurrency (decode_slot_seconds s osl).

Inductive Verdict := Good | LateFirstToken | SlowTokens | LateAndSlow | Incomplete.

#[export] Instance Verdict_eq_dec : EqDecision Verdict.
Proof. solve_decision. Defined.

Definition is_good (v : Verdict) : bool := match v with Good => true | _ => false end.

(** ** Requests

    [J] is the JSON value type of the parameters that only a backend reads. *)

Definition f32 : Type := SpecFloat.spec_float.
Definition f32_of_Z (n : Z) : f32 := SpecFloat.binary_normalize 24 128 n 0 false.

Record SamplingParams (J : Type) := mkParams {
  max_tokens : Z;
  temperature : f32;
  top_p : f32;
  top_k : Z;
  ignore_eos : bool;
  seed : option Z;
  extra : list (string * J)
}.
Arguments mkParams {J}.
Arguments max_tokens {J}.

Definition params_default {J} : SamplingParams J :=
  mkParams 200 (f32_of_Z 0) (f32_of_Z 1) (-1) true None [].

Inductive Phase := PhasePrefill | PhaseDecode.
Definition phase_as_str (p : Phase) : string :=
  match p with PhasePrefill => "prefill" | PhaseDecode => "decode" end.

Record Request (J : Type) := mkRequest {
  req_id : RequestId;
  prompt : list Z;
  params : SamplingParams J;
  req_arrival_ms : f64;
  ttft_deadline_ms : f64;
  prefill_worker : option WorkerId;
  decode_worker : option WorkerId
}.
Arguments mkRequest {J}.
Arguments req_id {J}.
Arguments prompt {J}.
Arguments params {J}.
Arguments req_arrival_ms {J}.
Arguments ttft_deadline_ms {J}.

Definition request_new {J} (id : RequestId) (p : list Z) (sp : SamplingParams J) (arrival : f64) (slo : Slo)
    : Request J :=
  mkRequest id p sp arrival (fadd arrival (slo_ttft_ms slo)) None None.

Definition prompt_len {J} (r : Request J) : nat := length (prompt r).
Definition slack_ms {J} (r : Request J) (now : f64) : f64 := fsub (ttft_deadline_ms r) now.

(** ** The outcome of a request *)

Record RequestOutcome := mkOutcome {
  out_id : RequestId;
  arrival_ms : f64;
  first_token_ms : f64;
  last_token_ms : f64;
  prompt_tokens : Z;
  output_tokens : Z;
  requested_tokens : Z
}.

Definition ttft_ms (o : RequestOutcome) : f64 := fsub (first_token_ms o) (arrival_ms o).

Definition mean_itl_ms (o : RequestOutcome) : f64 :=
  if (output_tokens o <=? 1)%Z then f0
  else fdiv (fsub (last_token_ms o) (first_token_ms o)) (of_Z (output_tokens o - 1)).

Definition verdict (o : RequestOutcome) (slo : Slo) : Verdict :=
  if (output_tokens o <? requested_tokens o)%Z then Incomplete
  else
    match fgt (ttft_ms o) (slo_ttft_ms slo), fgt (mean_itl_ms o) (slo_itl_ms slo) with
    | false, false => Good
    | true, false => LateFirstToken
    | false, true => SlowTokens
    | true, true => LateAndSlow
    end.

(** ** Statistics *)

Record LatencyStats := mkLatency {
  lat_count : nat;
  lat_mean : f64;
  p50 : f64; p90 : f64; p95 : f64; p99 : f64;
  lat_max : f64
}.

Definition latency_default : LatencyStats := mkLatency 0 f0 f0 f0 f0 f0 f0.

(** Nearest rank in a sorted slice.  The index is in range, so the default of
    [nth] is never used ([percentile_elem]). *)
Definition percentile (sorted : list f64) (q : f64) : f64 :=
  match sorted with
  | [] => f0
  | _ =>
      let rank := to_usize (fceil (fmul q (of_nat (length sorted)))) in
      nth (Z.to_nat (Z.max 1 (Z.min rank (Z.of_nat (length sorted)))) - 1) sorted NAN
  end.

Definition from_samples (samples : list f64) : LatencyStats :=
  match samples with
  | [] => latency_default
  | _ =>
      let v := sort_by total_cmp samples in
      mkLatency (length v) (fdiv (fsum v) (of_nat (length v)))
        (percentile v (dec 50 2)) (percentile v (dec 90 2))
        (percentile v (dec 95 2)) (percentile v (dec 99 2)) (List.last v NAN)
  end.

Record GoodputReport := mkReport {
  window_s : f64;
  total_requests : nat;
  good_requests : nat;
  good_frac : f64;
  req_per_s : f64;
  goodput_req_s : f64;
  good_output_tok_s : f64;
  late_first_token : nat;
  slow_tokens : nat;
  late_and_slow : nat;
  incomplete : nat;
  rep_ttft : LatencyStats;
  rep_itl : LatencyStats;
  passed : bool
}.

(** The counters of the loop over the outcomes. *)
Record Tally := mkTally {
  t_good : nat; t_late : nat; t_slow : nat; t_both : nat; t_incomplete : nat; t_tokens : Z
}.

Definition tally_one (slo : Slo) (t : Tally) (o : RequestOutcome) : Tally :=
  match verdict o slo with
  | Good => mkTally (S (t_good t)) (t_late t) (t_slow t) (t_both t) (t_incomplete t)
              (t_tokens t + output_tokens o)
  | LateFirstToken => mkTally (t_good t) (S (t_late t)) (t_slow t) (t_both t) (t_incomplete t) (t_tokens t)
  | SlowTokens => mkTally (t_good t) (t_late t) (S (t_slow t)) (t_both t) (t_incomplete t) (t_tokens t)
  | LateAndSlow => mkTally (t_good t) (t_late t) (t_slow t) (S (t_both t)) (t_incomplete t) (t_tokens t)
  | Incomplete => mkTally (t_good t) (t_late t) (t_slow t) (t_both t) (S (t_incomplete t)) (t_tokens t)
  end.

Definition from_outcomes (outcomes : list RequestOutcome) (window : f64) (slo : Slo) : GoodputReport :=
  let n := length outcomes in
  let t := foldl (tally_one slo) (mkTally 0 0 0 0 0 0) outcomes in
  let frac := if (0 <? n)%nat then fdiv (of_nat (t_good t)) (of_nat n) else f0 in
  let per_s (x : Z) := if fgt window f0 then fdiv (of_Z x) window else f0 in
  mkReport window n (t_good t) frac (per_s (Z.of_nat n)) (per_s (Z.of_nat (t_good t)))
    (per_s (t_tokens t)) (t_late t) (t_slow t) (t_both t) (t_incomplete t)
    (from_samples (map ttft_ms outcomes)) (from_samples (map mean_itl_ms outcomes))
    (fge frac (good_frac_target slo)).

(** ** Lemmas *)

Definition count_verdict (slo : Slo) (v : Verdict) (os : list RequestOutcome) : nat :=
  length (filter (fun o => verdict o slo = v) os).

Definition good_tokens (slo : Slo) (os : list RequestOutcome) : Z :=
  foldr (fun o n => if is_good (verdict o slo) then output_tokens o + n else n)%Z 0%Z os.

Lemma count_cons slo v o os :
  count_verdict slo v (o :: os) =
  (if decide (verdict o slo = v) then 1 else 0) + count_verdict slo v os.
Proof. unfold count_verdict. rewrite filter_cons. by destruct (decide _). Qed.

Lemma tally_spec slo os t :
  foldl (tally_one slo) t os =
  mkTally (t_good t + count_verdict slo Good os) (t_late t + count_verdict slo LateFirstToken os)
    (t_slow t + count_verdict slo SlowTokens os) (t_both t + count_verdict slo LateAndSlow os)
    (t_incomplete t + count_verdict slo Incomplete os) (t_tokens t + good_tokens slo os).
Proof.
  revert t. induction os as [|o os IH]; intros t; cbn [foldl].
  { destruct t. unfold count_verdict. simpl. f_equal; lia. }
  rewrite IH, !count_cons. unfold tally_one. cbn [good_tokens foldr]. fold (good_tokens slo os).
  destruct (verdict o slo); simpl; f_equal; lia.
Qed.

Lemma count_total slo os :
  count_verdict slo Good os + count_verdict slo LateFirstToken os + count_verdict slo SlowTokens os +
  count_verdict slo LateAndSlow os + count_verdict slo Incomplete os = length os.
Proof.
  induction os as [|o os IH]; [done|]. rewrite !count_cons. cbn [length].
  destruct (verdict o slo); simpl; lia.
Qed.

(** A ratio of counts lies between 0 and 1. *)
Lemma ratio_unit (a b : Z) :
  (0 <= a <= b)%Z -> (0 < b <= 2 ^ 53)%Z ->
  fle f0 (fdiv (of_Z a) (of_Z b)) = true /\ fle (fdiv (of_Z a) (of_Z b)) f1 = true.
Proof.
  intros Ha Hb. pose proof (pow2_pos 1074 ltac:(lia)) as Hp.
  assert (small a /\ small b) as [Sa Sb] by (unfold small; lia).
  pose proof (fdiv_faithful (of_Z a) (of_Z b)) as Hf. rewrite !of_Z_ival in Hf by done.
  assert (b * 2 ^ 1074 <> 0)%Z as Hne by nia.
  specialize (Hf (of_Z_valid _) (of_Z_valid _) (of_Z_finite _ Sa) (of_Z_finite _ Sb) Hne).
  rewrite Z.sgn_pos, Z.abs_eq in Hf by nia.
  assert (ival f1 = 2 ^ 1074)%Z as H1 by (unfold f1; rewrite of_Z_ival by done; lia).
  split.
  - apply (faithful_fge _ _ _ _ Hf); [done|done|]. change (ival f0) with 0%Z. nia.
  - apply (faithful_fle _ _ _ _ Hf); [apply of_Z_valid|done|]. rewrite H1. nia.
Qed.

Lemma percentile_elem v q : v <> [] -> percentile v q ∈ v.
Proof.
  intros Hv. unfold percentile. destruct v as [|x v]; [done|].
  apply list_elem_of_In, nth_In. cbn [length] in *. lia.
Qed.

Lemma last_max v :
  v <> [] -> sorted_by total_cmp v -> forall x, x ∈ v -> cmp_le total_cmp x (List.last v NAN).
Proof.
  intros Hv Hs x Hx. apply list_elem_of_lookup in Hx as [i Hi].
  pose proof (lookup_lt_Some _ _ _ Hi).
  apply (sorted_by_lookup total_cmp v i (length v - 1)); [done|done| |lia].
  destruct (exists_last Hv) as (l & y & ->).
  rewrite length_app; simpl. replace (length l + 1 - 1) with (length l) by lia.
  rewrite lookup_app_r, Nat.sub_diag by lia. simpl. by rewrite List.last_last.
Qed.

(** ** Theorems *)

(** The report accounts for every request: the five verdict counters are
    the numbers of outcomes with each verdict and add up to the total, the good
    fraction is a number between 0 and 1, and the run passes exactly when that
    fraction reaches the target. *)
Theorem report_accounts os window slo :
  (Z.of_nat (length os) <= 2 ^ 53)%Z ->
  let r := from_outcomes os window slo in
  total_requests r = length os /\
  good_requests r = count_verdict slo Good os /\
  good_requests r + late_first_token r + slow_tokens r + late_and_slow r + incomplete r = total_requests r /\
  fle f0 (good_frac r) = true /\ fle (good_frac r) f1 = true /\
  passed r = fge (good_frac r) (good_frac_target slo) /\
  (fgt window f0 = true -> good_output_tok_s r = fdiv (of_Z (good_tokens slo os)) window).
Proof.
  intros Hn. unfold from_outcomes. rewrite tally_spec. cbn -[fdiv fle fgt count_verdict good_tokens of_nat from_samples f1].
  pose proof (count_total slo os) as Hc.
  split; [done|]. split; [done|]. split; [lia|].
  assert (forall b, (if b : bool then fle f0 (fdiv (of_nat (count_verdict slo Good os)) (of_nat (length os))) = true /\
                       fle (fdiv (of_nat (count_verdict slo Good os)) (of_nat (length os))) f1 = true else True) ->
            fle f0 (if b then fdiv (of_nat (count_verdict slo Good os)) (of_nat (length os)) else f0) = true /\
            fle (if b then fdiv (of_nat (count_verdict slo Good os)) (of_nat (length os)) else f0) f1 = true) as Hb.
  { intros []; [done|]. intros _. split; by vm_compute. }
  destruct (Hb (0 <? length os)) as [H0 H1].
  { destruct (Nat.ltb_spec 0 (length os)); [|done]. apply ratio_unit; lia. }
  split; [done|]. split; [done|]. split; [done|]. by intros ->.
Qed.

Definition outcome_sample : list RequestOutcome :=
  [mkOutcome 0 f0 (of_Z 100) (of_Z 300) 10 11 11;
   mkOutcome 1 f0 (of_Z 4000) (of_Z 4100) 10 11 11].

Lemma report_accounts_witness :
  (Z.of_nat (length outcome_sample) <= 2 ^ 53)%Z /\
  good_requests (from_outcomes outcome_sample (of_Z 1) slo_default) = 1 /\
  passed (from_outcomes outcome_sample (of_Z 1) slo_default) = false.
Proof.
  assert (Z.of_nat (length outcome_sample) <= 2 ^ 53)%Z as H by done.
  split; [done|].
  destruct (report_accounts outcome_sample (of_Z 1) slo_default H) as (_ & -> & _ & _ & _ & -> & _).
  split; by vm_compute.
Defined.

(** The mean inter-token latency divides by the number of gaps: a request
    whose [n + 1] tokens come exactly [g] milliseconds apart has mean [g], so it
    is good with respect to an objective of [g] and misses any smaller one. *)
Theorem mean_itl_counts_gaps id arr a n g p slo :
  (0 < n)%Z -> (0 < g)%Z -> (0 <= a)%Z -> (a + n * g <= 2 ^ 53)%Z -> (n < 2 ^ 32 - 1)%Z ->
  let o := mkOutcome id arr (of_Z a) (of_Z (a + n * g)) p (n + 1) (n + 1) in
  mean_itl_ms o = of_Z g /\
  (verdict o slo = Good <-> fgt (ttft_ms o) (slo_ttft_ms slo) = false /\
                            fgt (of_Z g) (slo_itl_ms slo) = false).
Proof.
  intros Hn Hg Ha Hs Hu o.
  assert (mean_itl_ms o = of_Z g) as Hm.
  { unfold mean_itl_ms, o; cbn [output_tokens last_token_ms first_token_ms].
    destruct (Z.leb_spec (n + 1) 1); [lia|].
    rewrite fsub_of_Z by (unfold small; nia). replace (a + n * g - a)%Z with (g * n)%Z by lia.
    rewrite Z.add_simpl_r. apply fdiv_of_Z; unfold small; nia. }
  split; [done|]. unfold verdict. rewrite Hm. cbn [output_tokens requested_tokens o].
  rewrite Z.ltb_irrefl. destruct (fgt (ttft_ms o) _), (fgt (of_Z g) _); intuition congruence.
Qed.

Lemma mean_itl_counts_gaps_witness :
  let o := mkOutcome 0 f0 (of_Z 100) (of_Z 4080) 8 200 200 in
  mean_itl_ms o = of_Z 20 /\ verdict o slo_default = Good.
Proof.
  destruct (mean_itl_counts_gaps 0 f0 100 199 20 8 slo_default) as [H1 H2]; [lia..|].
  split; [exact H1|]. apply H2. by vm_compute.
Defined.

(** A latency summary of a non-empty sample reports percentiles that are
    members of the sample, a maximum that bounds all of them in the total order,
    and depends only on which samples were taken, not on their order. *)
Theorem from_samples_sound l l' :
  l <> [] -> Forall valid l -> l ≡ₚ l' ->
  from_samples l = from_samples l' /\
  lat_count (from_samples l) = length l /\
  Forall (fun q => q (from_samples l) ∈ l) [p50; p90; p95; p99; lat_max] /\
  (forall x, x ∈ l -> cmp_le total_cmp x (lat_max (from_samples l))).
Proof.
  intros Hl Hv Hp. rewrite Forall_forall in Hv.
  pose proof (cmp_on_total total_key : TotalCmp total_cmp) as Htot.
  assert (sort_by total_cmp l = sort_by total_cmp l') as Hs.
  { apply (@sort_by_order_independent _ total_cmp Htot); [|done]. intros x y Hx Hy He. apply total_key_inj; auto.
    by apply Z.compare_eq. }
  assert (from_samples l = let v := sort_by total_cmp l in
    mkLatency (length v) (fdiv (fsum v) (of_nat (length v)))
        (percentile v (dec 50 2)) (percentile v (dec 90 2))
        (percentile v (dec 95 2)) (percentile v (dec 99 2)) (List.last v NAN)) as Hf by by destruct l.
  assert (from_samples l' = from_samples l) as Heq.
  { rewrite Hf, Hs. destruct l'; [|done]. by apply Permutation_nil_r in Hp. }
  split; [done|]. rewrite Hf.
  set (v := sort_by total_cmp l).
  assert (v ≡ₚ l) as Hvl by apply sort_by_perm.
  assert (v <> []) as Hvn by (intros E; rewrite E in Hvl; by apply Permutation_nil_l in Hvl).
  cbv zeta. cbn [lat_count lat_max]. split; [by rewrite Hvl|]. split.
  - repeat constructor; cbn [p50 p90 p95 p99 lat_max]; rewrite <- Hvl; try by apply percentile_elem.
    destruct (exists_last Hvn) as (k & y & ->).
    rewrite List.last_last. apply elem_of_app. right. by left.
  - intros x Hx. apply last_max; [done|apply (@sort_by_sorted _ total_cmp Htot)|by rewrite Hvl].
Qed.

Lemma from_samples_sound_witness :
  let l := [of_Z 30; of_Z 10; of_Z 20] in
  from_samples l = from_samples (rev l) /\ p50 (from_samples l) = of_Z 20.
Proof.
  split; [|by vm_compute].
  apply from_samples_sound; [done| |].
  - repeat first [apply Forall_nil_2|apply Forall_cons_2; [apply of_Z_valid|]].
  - apply Permutation_rev.
Defined.

(** Identifiers handed out by one source are pairwise distinct until the
    64-bit counter wraps. *)
Theorem ids_distinct n src :
  (0 <= src)%Z -> (src + Z.of_nat n <= 2 ^ 64)%Z -> NoDup (ids_from n src).
Proof.
  intros H0 Hn.
  assert (forall n src, (0 <= src)%Z -> (src + Z.of_nat n <= 2 ^ 64)%Z ->
            NoDup (ids_from n src) /\ forall x, x ∈ ids_from n src -> (src <= x)%Z) as H.
  { clear. induction n as [|n IH]; intros src H0 Hn; cbn [ids_from next_id].
    { split; [constructor|]. intros x Hx. by apply not_elem_of_nil in Hx. }
    destruct n as [|n].
    { cbn [ids_from]. split; [repeat constructor; apply not_elem_of_nil|].
      intros x Hx. apply list_elem_of_singleton in Hx. lia. }
    assert (u64_wrap (src + 1) = src + 1)%Z as -> by (apply Z.mod_small; lia).
    destruct (IH (src + 1)%Z) as [Hnd Hge]; [lia|lia|]. split.
    - constructor; [|done]. intros Hin. apply Hge in Hin. lia.
    - intros x [->|Hx]%elem_of_cons; [lia|]. apply Hge in Hx. lia. }
  by apply H.
Qed.

Lemma ids_distinct_witness : NoDup (ids_from 3 7) /\ ids_from 3 7 = [7; 8; 9]%Z.
Proof. split; [apply ids_distinct; lia|by vm_compute]. Defined.
