(* ===== verification/Csv.v ===== *)
(** * The CSV reader of the tuner ([crates/tuner/src/csv.rs])

    A reader of RFC 4180 records, addressed by patterns in the header.  The
    text is scanned byte by byte: the characters that matter are ASCII, and in
    UTF-8 such a byte is never part of another character. *)

From Stdlib Require Import ZArith Lia Ascii.
From stdpp Require Import base option list numbers gmap strings.
From S2P Require Import Prelude F64 Core Text.

Module Csv.
Import Text.
Local Open Scope string_scope.
Local Open Scope Z_scope.
Local Open Scope list_scope.

(** ** The reader *)

Record Table := mkTable {
  header : list string;
  rows : list (list string)
}.

(** The loop of [parse_records] over the text that remains. *)
Fixpoint parse_from (s : string) (in_quotes : bool) (field : string) (record : list string)
    (records : list (list string)) : list (list string) :=
  match s with
  | "" =>
      if bool_decide (field = "") && bool_decide (record = []) then records
      else records ++ [record ++ [field]]
  | String c s1 =>
      if Ascii.eqb c DQUOTE then
        if in_quotes then
          match s1 with
          | String d s2 =>
              if Ascii.eqb d DQUOTE then parse_from s2 true (field +:+ of_char DQUOTE) record records
              else parse_from s1 false field record records
          | "" => parse_from s1 false field record records
          end
        else parse_from s1 true field record records
      else if Ascii.eqb c COMMA && negb in_quotes then parse_from s1 in_quotes "" (record ++ [field]) records
      else if Ascii.eqb c CR && negb in_quotes then parse_from s1 in_quotes field record records
      else if Ascii.eqb c LF && negb in_quotes then
        parse_from s1 in_quotes "" [] (records ++ [record ++ [field]])
      else parse_from s1 in_quotes (field +:+ of_char c) record records
  end.

Definition parse_records (text : string) : list (list string) := parse_from text false "" [] [].

Definition not_blank (r : list string) : bool := existsb (fun c => negb (bool_decide (trim c = ""))) r.

Definition parse (text : string) : result Error Table :=
  match parse_records text with
  | [] => Err ConfigError
  | h :: records => Ok (mkTable (map trim h) (filter (fun r => not_blank r = true) records))
  end.

(** [Iterator::position] *)
Fixpoint position {A} (P : A -> bool) (l : list A) : option nat :=
  match l with
  | [] => None
  | a :: l => if P a then Some O else option_map S (position P l)
  end.

Definition matches (needles : list string) (h : string) : bool :=
  let h := to_ascii_lowercase h in
  forallb (fun n => contains h (to_ascii_lowercase n)) needles.

Definition column (t : Table) (needles : list string) : option nat := position (matches needles) (header t).

Definition cell (t : Table) (row : list string) (needles : list string) : option string :=
  i ← column t needles; s ← row !! i; Some (trim s).

Definition number (t : Table) (row : list string) (needles : list string) : option f64 :=
  s ← cell t row needles; parse_f64 (remove_char COMMA s).

(** Later columns of the same name win, as when collecting into a map. *)
Definition row_map (t : Table) (row : list string) : gmap string string :=
  foldl (fun m kv => <[kv.1 := kv.2]> m) ∅ (zip (header t) row).

(** ** A writer, as RFC 4180 specifies it *)

Definition plain (c : ascii) : bool :=
  negb (Ascii.eqb c DQUOTE || Ascii.eqb c COMMA || Ascii.eqb c CR || Ascii.eqb c LF).

Fixpoint escape (s : string) : string :=
  match s with
  | "" => ""
  | String c s => if Ascii.eqb c DQUOTE then String DQUOTE (String DQUOTE (escape s)) else String c (escape s)
  end.

Definition write_field (f : string) : string :=
  if all_chars plain f then f else String DQUOTE (escape f +:+ of_char DQUOTE).

Definition eol (crlf : bool) : string := if crlf then String CR (of_char LF) else of_char LF.

Definition write_fields (r : list string) : string := join (of_char COMMA) (map write_field r).

Fixpoint write (crlf : bool) (rs : list (list string)) : string :=
  match rs with [] => "" | r :: rs => write_fields r +:+ eol crlf +:+ write crlf rs end.

(** ** What the reader does with what the writer wrote *)

Lemma plain_step c s q f r rs : plain c = true ->
  parse_from (String c s) q f r rs = parse_from s q (f +:+ of_char c) r rs.
Proof.
  unfold plain. rewrite negb_true_iff, !orb_false_iff. intros [[[H1 H2] H3] H4].
  cbn [parse_from]. by rewrite H1, H2, H3, H4.
Qed.

Lemma read_plain f rest : forall fld r rs, all_chars plain f = true ->
  parse_from (f +:+ rest) false fld r rs = parse_from rest false (fld +:+ f) r rs.
Proof.
  induction f as [|c f IH]; intros fld r rs H; [by rewrite sapp_nil_l, sapp_nil_r|].
  cbn [all_chars] in H. apply andb_true_iff in H as [Hc H].
  rewrite sapp_cons, plain_step by done. by rewrite IH, sapp_char.
Qed.

(** The next byte does not continue a quoted field. *)
Definition ends_field (rest : string) : Prop :=
  match rest with String d _ => Ascii.eqb d DQUOTE = false | "" => True end.

Lemma read_quoted f rest : ends_field rest -> forall fld r rs,
  parse_from (escape f +:+ String DQUOTE rest) true fld r rs = parse_from rest false (fld +:+ f) r rs.
Proof.
  intros Hr. induction f as [|c f IH]; intros fld r rs; cbn [escape].
  - rewrite sapp_nil_l, sapp_nil_r. cbn [parse_from]. rewrite Ascii.eqb_refl.
    destruct rest as [|d rest]; [done|]. cbn [ends_field] in Hr. by rewrite Hr.
  - destruct (Ascii.eqb c DQUOTE) eqn:E.
    + apply Ascii.eqb_eq in E as ->. rewrite !sapp_cons. cbn [parse_from]. rewrite Ascii.eqb_refl, IH.
      by rewrite sapp_char.
    + rewrite sapp_cons. cbn [parse_from]. rewrite E, !andb_false_r. by rewrite IH, sapp_char.
Qed.

Lemma read_field f rest r rs : ends_field rest ->
  parse_from (write_field f +:+ rest) false "" r rs = parse_from rest false f r rs.
Proof.
  intros Hr. unfold write_field. destruct (all_chars plain f) eqn:E; [by rewrite read_plain|].
  rewrite sapp_cons. cbn [parse_from]. rewrite Ascii.eqb_refl, sapp_char. by rewrite read_quoted.
Qed.

(** A whole record, up to what ends it. *)
Lemma read_fields rest : ends_field rest -> forall l r f rs,
  exists r' f', r ++ [f] ++ l = r' ++ [f'] /\
    parse_from (join (of_char COMMA) (map write_field (f :: l)) +:+ rest) false "" r rs =
    parse_from rest false f' r' rs.
Proof.
  intros Hr. induction l as [|g l IH]; intros r f rs.
  - exists r, f. split; [done|]. cbn [map join]. by apply read_field.
  - destruct (IH (r ++ [f]) g rs) as (r' & f' & E & H). exists r', f'. split; [rewrite <- E; by rewrite <- app_assoc|].
    rewrite <- H. cbn [map join]. destruct (map write_field l) eqn:Em; cbn [join].
    all: rewrite <- !sapp_assoc; rewrite read_field by done; unfold of_char; by rewrite sapp_cons, sapp_nil_l.
Qed.

Lemma read_record crlf r rs rest : r <> [] ->
  parse_from (write_fields r +:+ eol crlf +:+ rest) false "" [] rs = parse_from rest false "" [] (rs ++ [r]).
Proof.
  intros Hne. destruct r as [|f l]; [done|]. unfold write_fields.
  destruct (read_fields (eol crlf +:+ rest) ltac:(by destruct crlf) l [] f rs) as (r' & f' & E & ->).
  cbn [app] in E. rewrite E. destruct crlf; reflexivity.
Qed.

Lemma read_table crlf l : forall rs rest, Forall (fun r => r <> []) l ->
  parse_from (write crlf l +:+ rest) false "" [] rs = parse_from rest false "" [] (rs ++ l).
Proof.
  induction l as [|r l IH]; intros rs rest H; cbn [write].
  - by rewrite sapp_nil_l, app_nil_r.
  - apply Forall_cons in H as [Hr H]. rewrite <- !sapp_assoc, read_record by done.
    rewrite IH by done. by rewrite <- app_assoc.
Qed.
Lemma position_spec {A} (P : A -> bool) l :
  match position P l with
  | Some i => exists a, l !! i = Some a /\ P a = true /\ forall j b, (j < i)%nat -> l !! j = Some b -> P b = false
  | None => forall a, a ∈ l -> P a = false
  end.
Proof.
  induction l as [|a l IH]; cbn [position]; [by intros a ?%not_elem_of_nil|].
  destruct (P a) eqn:E; [exists a; split; [done|]; split; [done|]; lia|].
  destruct (position P l) as [i|]; cbn [option_map].
  - destruct IH as (x & Hx & Hp & Hj). exists x. split; [done|]. split; [done|].
    intros [|j] b Hlt Hb; [by injection Hb as <-|]. apply (Hj j); [lia|done].
  - intros x [->|Hx]%elem_of_cons; [done|by apply IH].
Qed.

(** ** Theorems *)

(** C37. Reading what was written gives the same records: for any records of at
    least one field, any bytes in the fields (quotes, separators and line ends
    included) and either line end, and also when the last record is not
    terminated, unless it is a single empty field. *)
Theorem csv_round_trip (crlf : bool) (rs : list (list string)) (last : list string) :
  Forall (fun r => r <> []) rs ->
  parse_records (write crlf rs) = rs /\
  (last <> [] -> last <> [""] -> parse_records (write crlf rs +:+ write_fields last) = rs ++ [last]).
Proof.
  intros H. unfold parse_records. split.
  - rewrite <- (sapp_nil_r (write crlf rs)), read_table by done. done.
  - intros Hne Hne2. rewrite read_table by done. cbn [app]. destruct last as [|f l]; [done|].
    destruct (read_fields "" I l [] f rs) as (r' & f' & E & Hp). cbn [app] in E. rewrite sapp_nil_r in Hp.
    unfold write_fields. rewrite Hp. cbn [parse_from]. rewrite E.
    destruct (decide (r' = [])) as [->|Hr]; [|by rewrite (bool_decide_false (r' = [])), andb_false_r].
    cbn [app] in E. rewrite bool_decide_false; [done|]. intros ->. by rewrite E in Hne2.
Qed.

(** A table reads back: its header, trimmed already, and the rows that are not
    blank; a text without records is refused. *)
Theorem table_reads_back (crlf : bool) (h : list string) (rs : list (list string)) :
  h <> [] -> Forall (fun c => trim c = c) h -> Forall (fun r => r <> [] /\ not_blank r = true) rs ->
  parse (write crlf (h :: rs)) = Ok (mkTable h rs).
Proof.
  intros Hh Ht Hr. unfold parse, parse_records.
  rewrite <- (sapp_nil_r (write crlf (h :: rs))), read_table.
  - cbn [app parse_from]. rewrite !bool_decide_true by done. cbn [andb]. f_equal. f_equal.
    + clear Hh. induction Ht as [|c l E _ IH]; [done|]. cbn [map]. by rewrite E, IH.
    + induction Hr as [|r l [_ E] _ IH]; [done|]. rewrite filter_cons, decide_True by done. by rewrite IH.
  - constructor; [done|]. eapply Forall_impl; [exact Hr|]. by intros r [? _].
Qed.

(** A column is the first whose name has every needle, letter case aside, and
    there is none exactly when no name does. *)
Theorem column_first (t : Table) (needles : list string) :
  match column t needles with
  | Some i => exists h, header t !! i = Some h /\ matches needles h = true /\
      forall j h', (j < i)%nat -> header t !! j = Some h' -> matches needles h' = false
  | None => forall h, h ∈ header t -> matches needles h = false
  end.
Proof. apply position_spec. Qed.

(** ** Samples *)

Definition quoted_sample : list (list string) :=
  [["a"; "b,c"]; ["1"; String DQUOTE (String LF "x"); ""]; [""; ""]].

Lemma csv_round_trip_witness : parse_records (write true quoted_sample) = quoted_sample.
Proof. apply (csv_round_trip true quoted_sample []). repeat constructor; done. Defined.

Lemma table_reads_back_witness :
  parse (write false [["(p)workers"; "tokens/s/gpu"]; ["4"; "1,446.85"]]) =
    Ok (mkTable ["(p)workers"; "tokens/s/gpu"] [["4"; "1,446.85"]]).
Proof.
  apply (table_reads_back false ["(p)workers"; "tokens/s/gpu"] [["4"; "1,446.85"]]).
  - discriminate.
  - repeat constructor; vm_compute; reflexivity.
  - constructor; [split; [discriminate|vm_compute; reflexivity]|constructor].
Defined.

Example number_of_sample :
  let t := mkTable ["(p)workers"; "tokens/s/gpu"] [["4"; " 1,446.85 "]] in
  number t ["4"; " 1,446.85 "] ["TOKENS"; "gpu"] = Some (dec 144685 2) /\
  number t ["4"] ["tokens"] = None /\ column t ["ttft"] = None.
Proof. vm_compute. done. Qed.
End Csv.
