(* ===== verification/Pool.v ===== *)
(** * The paged KV allocator ([crates/kvcache/src/pool.rs], [lib.rs])

    A [BlockPool] owns the pages of one worker.  Indexing out of range panics
    in Rust, so the operations that index return [None] for a panic; the
    invariant shows that no panic is reachable by a client that only gives back
    references it holds. *)

From stdpp Require Import base option list numbers relations.
From Stdlib Require Import ZArith Lia.
From S2P Require Import Prelude F64 F64Int Core.

(** [blocks_for]: blocks needed to hold [tokens] tokens. *)
Definition blocks_for (tokens block_size : Z) : Z := div_ceil tokens (Z.max block_size 1).

(** ** State *)

(** [free] is the stack of clean pages with its top first; [cached] is the
    queue of reclaimable pages with its oldest first.  A count is a [u32], which
    wraps around. *)
Record BlockPool := mkPool {
  block_size : Z;
  refcount : list Z;
  free : list nat;
  cached : list nat;
  watermark : f64
}.

Record PoolStats := mkStats {
  st_total : nat;
  st_free : nat;
  st_in_use : nat;
  st_cached : nat
}.

Definition pool_new (num_blocks : nat) (bs : Z) (wm : f64) : BlockPool :=
  mkPool bs (replicate num_blocks 0%Z) (seq 0 num_blocks) [] (fclamp wm f0 f1).

Definition total (p : BlockPool) : nat := length (refcount p).
Definition available (p : BlockPool) : nat := length (free p) + length (cached p).

Definition stats (p : BlockPool) : PoolStats :=
  mkStats (total p) (length (free p))
    (length (filter (fun c => 0 < c)%Z (refcount p))) (length (cached p)).

Definition utilisation (s : PoolStats) : f64 :=
  if decide (st_total s = 0) then f0
  else fdiv (of_nat (st_in_use s)) (of_nat (st_total s)).

(** Pages kept in reserve by the watermark. *)
Definition reserve (p : BlockPool) : Z :=
  to_usize (fceil (fmul (of_nat (total p)) (watermark p))).

Definition can_admit (p : BlockPool) (blocks : Z) : bool :=
  (blocks + reserve p <=? Z.of_nat (available p))%Z.

(** ** Operations *)

Definition set_ref (p : BlockPool) (b : nat) (c : Z) : BlockPool :=
  mkPool (block_size p) (<[b := c]> (refcount p)) (free p) (cached p) (watermark p).
Definition set_free (p : BlockPool) (l : list nat) : BlockPool :=
  mkPool (block_size p) (refcount p) l (cached p) (watermark p).
Definition set_cached (p : BlockPool) (l : list nat) : BlockPool :=
  mkPool (block_size p) (refcount p) (free p) l (watermark p).

(** One page: the top of the free stack, else the oldest cached page. *)
Definition take_block (p : BlockPool) : option (nat * BlockPool) :=
  match free p with
  | b :: fs => Some (b, set_free p fs)
  | [] => match cached p with
          | b :: cs => Some (b, set_cached p cs)
          | [] => None
          end
  end.

Fixpoint alloc_loop (n : nat) (p : BlockPool) (out : list nat)
    : option (list nat * BlockPool) :=
  match n with
  | O => Some (out, p)
  | S n' =>
      '(b, p1) ← take_block p;
      if decide (b < length (refcount p1))
      then alloc_loop n' (set_ref p1 b 1) (out ++ [b])
      else None
  end.

Definition alloc (p : BlockPool) (n : nat) : option (result Error (list nat) * BlockPool) :=
  if decide (available p < n)
  then Some (Err (KvExhausted (Z.of_nat n) (Z.of_nat (available p))), p)
  else '(bs, p') ← alloc_loop n p []; Some (Ok bs, p').

Fixpoint incref (p : BlockPool) (blocks : list nat) : option BlockPool :=
  match blocks with
  | [] => Some p
  | b :: bs => c ← refcount p !! b; incref (set_ref p b (u32_wrap (c + 1))) bs
  end.

(** The reference drop shared by [release] and [release_to_cache]: the count
    after the decrement. *)
Definition drop_ref (c : Z) : Z := if decide (0 < c)%Z then (c - 1)%Z else c.

Fixpoint release (p : BlockPool) (blocks : list nat) : option BlockPool :=
  match blocks with
  | [] => Some p
  | b :: bs =>
      c ← refcount p !! b;
      let p1 := set_ref p b (drop_ref c) in
      release (if decide (drop_ref c = 0%Z) then set_free p1 (b :: free p1) else p1) bs
  end.

Fixpoint release_to_cache (p : BlockPool) (blocks : list nat) : option BlockPool :=
  match blocks with
  | [] => Some p
  | b :: bs =>
      c ← refcount p !! b;
      let p1 := set_ref p b (drop_ref c) in
      release_to_cache
        (if decide (drop_ref c = 0%Z) then set_cached p1 (cached p1 ++ [b]) else p1) bs
  end.

(** [VecDeque::remove] at the first position holding the block. *)
Fixpoint remove_first (b : nat) (l : list nat) : list nat :=
  match l with
  | [] => []
  | x :: l' => if decide (x = b) then l' else x :: remove_first b l'
  end.

Definition reacquire (p : BlockPool) (b : nat) : option (bool * BlockPool) :=
  c ← refcount p !! b;
  if decide (b ∈ cached p) then
    Some (true, set_ref (set_cached p (remove_first b (cached p))) b (u32_wrap (c + 1)))
  else if decide (0 < c)%Z then Some (true, set_ref p b (u32_wrap (c + 1)))
  else Some (false, p).

Fixpoint evict_loop (n : nat) (p : BlockPool) (out : list nat) : list nat * BlockPool :=
  match n with
  | O => (out, p)
  | S n' =>
      match cached p with
      | b :: cs => evict_loop n' (set_free (set_cached p cs) (b :: free p)) (out ++ [b])
      | [] => (out, p)
      end
  end.

Definition evict_cached (p : BlockPool) (n : nat) : list nat * BlockPool := evict_loop n p [].

(** ** The invariant

    Relative to the references the clients hold (a multiset [refs]): every
    count is the number of references to its block, and the reclaimable blocks
    are exactly the free and the cached ones, each listed once. *)

Definition refs_of (refs : list nat) (b : nat) : nat := length (filter (eq b) refs).

Record pool_inv (p : BlockPool) (refs : list nat) : Prop := {
  inv_count : forall b, b < total p -> refcount p !! b = Some (Z.of_nat (refs_of refs b));
  inv_range : forall b, b ∈ refs -> b < total p;
  inv_nodup : NoDup (free p ++ cached p);
  inv_idle : forall b, b ∈ free p ++ cached p <-> b < total p /\ ~ (b ∈ refs)
}.

(** The count of [b] has room for the references [refs]. *)
Definition fits_u32 (refs : list nat) (b : nat) : Prop := (Z.of_nat (refs_of refs b) <= u32_max)%Z.

(** One call on the pool, with the references it adds or takes away.  Clients
    return only references they hold, share only pages they hold, and never hold
    more references to a page than its count has room for. *)
Inductive pool_step : BlockPool * list nat -> BlockPool * list nat -> Prop :=
  | step_alloc p refs n bs p' :
      alloc p n = Some (Ok bs, p') -> pool_step (p, refs) (p', bs ++ refs)
  | step_alloc_err p refs n e p' :
      alloc p n = Some (Err e, p') -> pool_step (p, refs) (p', refs)
  | step_incref p refs bs p' :
      Forall (fun b => b ∈ refs) bs -> Forall (fits_u32 (bs ++ refs)) bs -> incref p bs = Some p' ->
      pool_step (p, refs) (p', bs ++ refs)
  | step_release p refs refs' bs p' :
      refs ≡ₚ bs ++ refs' -> release p bs = Some p' -> pool_step (p, refs) (p', refs')
  | step_release_to_cache p refs refs' bs p' :
      refs ≡ₚ bs ++ refs' -> release_to_cache p bs = Some p' ->
      pool_step (p, refs) (p', refs')
  | step_reacquire p refs b p' :
      fits_u32 (b :: refs) b -> reacquire p b = Some (true, p') -> pool_step (p, refs) (p', b :: refs)
  | step_reacquire_miss p refs b p' :
      reacquire p b = Some (false, p') -> pool_step (p, refs) (p', refs)
  | step_evict p refs n out p' :
      evict_cached p n = (out, p') -> pool_step (p, refs) (p', refs).

Definition pool_reachable (n : nat) (bs : Z) (wm : f64) : BlockPool * list nat -> Prop :=
  rtc pool_step (pool_new n bs wm, []).

(** ** Block counts *)

Lemma blocks_for_mono a b bs : (0 <= a -> a <= b -> blocks_for a bs <= blocks_for b bs)%Z.
Proof. intros Ha Hab. apply div_ceil_mono; lia. Qed.

Lemma blocks_for_nonneg a bs : (0 <= a -> 0 <= blocks_for a bs)%Z.
Proof.
  intros Ha. unfold blocks_for, div_ceil. pose proof (Z.div_pos a (Z.max bs 1) Ha ltac:(lia)). destruct (_ =? _)%Z; lia.
Qed.

(** ** Multisets of references *)

Lemma refs_of_cons b x l : refs_of (x :: l) b = (if decide (b = x) then 1 else 0) + refs_of l b.
Proof. unfold refs_of. rewrite filter_cons. by destruct (decide (b = x)). Qed.

Lemma refs_of_app l1 l2 b : refs_of (l1 ++ l2) b = refs_of l1 b + refs_of l2 b.
Proof. unfold refs_of. by rewrite filter_app, length_app. Qed.

Lemma refs_of_zero l b : refs_of l b = 0 <-> b ∉ l.
Proof.
  induction l as [|x l IH]; [split; [intros _; apply not_elem_of_nil|done]|].
  rewrite refs_of_cons, not_elem_of_cons.
  destruct (decide (b = x)); [split; [lia|naive_solver]|]. rewrite <- IH. naive_solver.
Qed.

#[export] Instance refs_of_proper : Proper ((≡ₚ) ==> eq ==> eq) refs_of.
Proof. intros l1 l2 Hl b ? <-. unfold refs_of. by rewrite Hl. Qed.

#[export] Instance pool_inv_proper : Proper (eq ==> (≡ₚ) ==> iff) pool_inv.
Proof.
  assert (forall p l1 l2, l1 ≡ₚ l2 -> pool_inv p l1 -> pool_inv p l2) as H.
  { intros p l1 l2 Hl [H1 H2 H3 H4]. split; [| |done|].
    - intros b. rewrite <- Hl. apply H1.
    - intros b. rewrite <- Hl. apply H2.
    - intros b. rewrite <- Hl. apply H4. }
  intros p ? <- l1 l2 Hl. split; by apply H.
Qed.

Lemma total_set_ref p b c : total (set_ref p b c) = total p.
Proof. unfold total; simpl. apply length_insert. Qed.

Lemma refcount_set_ref p b c b' :
  refcount (set_ref p b c) !! b' =
  if decide (b' = b /\ b < total p) then Some c else refcount p !! b'.
Proof.
  simpl. unfold total. rewrite list_lookup_insert. repeat case_decide; naive_solver.
Qed.

(** ** One page changes hands *)

Lemma pool_new_inv n bs wm : pool_inv (pool_new n bs wm) [].
Proof.
  assert (total (pool_new n bs wm) = n) as Ht by apply length_replicate.
  split; rewrite ?Ht; simpl.
  - intros b Hb. by apply lookup_replicate_2.
  - intros b Hb%elem_of_nil. done.
  - rewrite app_nil_r. apply NoDup_seq.
  - intros b. rewrite app_nil_r, elem_of_seq, elem_of_nil. lia.
Qed.

(** The bookkeeping shared by all operations on one block [b]: its count is
    set to the references that remain, and it is listed as idle exactly when
    none does. *)
Lemma inv_change_one p refs p' refs' b :
  pool_inv p refs -> b < total p ->
  refcount p' = <[b := Z.of_nat (refs_of refs' b)]> (refcount p) ->
  (forall b', b' <> b -> refs_of refs' b' = refs_of refs b') ->
  NoDup (free p' ++ cached p') ->
  (b ∈ free p' ++ cached p' <-> b ∉ refs') ->
  (forall b', b' <> b -> (b' ∈ free p' ++ cached p' <-> b' ∈ free p ++ cached p)) ->
  pool_inv p' refs'.
Proof.
  intros [H1 H2 H3 H4] Hb Hrc Hrefs Hnd Hbi Hoi.
  assert (total p' = total p) as Ht by (unfold total; rewrite Hrc; apply length_insert).
  assert (forall b', b' <> b -> b' ∈ refs' <-> b' ∈ refs) as Hmem.
  { intros b' Hne. assert (b' ∉ refs' <-> b' ∉ refs) as Hiff.
    { by rewrite <- !refs_of_zero, Hrefs. }
    destruct (decide (b' ∈ refs)), (decide (b' ∈ refs')); tauto. }
  split; [| |done|].
  - intros b'. rewrite Ht, Hrc. intros Hb'. destruct (decide (b' = b)) as [->|Hne].
    + by apply list_lookup_insert_eq.
    + rewrite list_lookup_insert_ne by done. rewrite Hrefs by done. by apply H1.
  - intros b' Hin. rewrite Ht. destruct (decide (b' = b)) as [->|Hne]; [done|].
    apply H2. by apply Hmem.
  - intros b'. rewrite Ht. destruct (decide (b' = b)) as [->|Hne]; [naive_solver|].
    rewrite Hoi, Hmem by done. apply H4.
Qed.

Lemma take_block_inv p refs b p1 :
  pool_inv p refs -> take_block p = Some (b, p1) ->
  b < total p /\ total p1 = total p /\ (b ∉ refs) /\
  pool_inv (set_ref p1 b 1) (b :: refs) /\ S (available p1) = available p.
Proof.
  intros Hinv Htake. pose proof Hinv as [H1 H2 H3 H4]. unfold take_block in Htake.
  assert (refcount p1 = refcount p /\ free p ++ cached p = b :: free p1 ++ cached p1)
    as [Hrc Hidle].
  { destruct (free p) as [|x fs] eqn:Ef; [destruct (cached p) as [|x cs] eqn:Ec; [done|]|];
      injection Htake as <- <-; simpl; rewrite ?Ef; done. }
  rewrite Hidle in H3, H4. apply NoDup_cons in H3 as [Hnb Hnd].
  destruct (proj1 (H4 b) (list_elem_of_here _ _)) as [Hlt Hfresh].
  split; [done|]. split; [by unfold total; rewrite Hrc|]. split; [done|]. split.
  - apply (inv_change_one p refs _ _ b); try done.
    + simpl. rewrite Hrc, refs_of_cons. destruct (decide (b = b)); [|done].
      apply refs_of_zero in Hfresh. by rewrite Hfresh.
    + intros b' Hne. rewrite refs_of_cons. by destruct (decide (b' = b)).
    + split; [done|]. intros Hn. exfalso. apply Hn. left.
    + intros b' Hne. rewrite Hidle, elem_of_cons. simpl. naive_solver.
  - unfold available. apply (f_equal length) in Hidle. rewrite length_app in Hidle.
    simpl in Hidle. rewrite length_app in Hidle. lia.
Qed.

Lemma take_block_Some p : 0 < available p -> exists b p1, take_block p = Some (b, p1).
Proof.
  unfold available, take_block. destruct (free p), (cached p); simpl; eauto. lia.
Qed.

Lemma alloc_loop_spec n p refs out :
  pool_inv p refs -> n <= available p ->
  exists bs p', alloc_loop n p out = Some (out ++ bs, p') /\ length bs = n /\
    total p' = total p /\ available p' = available p - n /\ NoDup bs /\
    (forall b, b ∈ bs -> b ∉ refs) /\ pool_inv p' (bs ++ refs).
Proof.
  revert p refs out. induction n as [|n IH]; intros p refs out Hinv Hav; simpl.
  { exists [], p. rewrite app_nil_r. split; [done|]. split; [done|]. split; [done|].
    split; [lia|]. split; [apply NoDup_nil_2|]. split; [|done]. by intros b Hb%elem_of_nil. }
  destruct (take_block_Some p) as (b & p1 & Ht); [lia|]. rewrite Ht. simpl.
  destruct (take_block_inv _ _ _ _ Hinv Ht) as (Hb & Htot & Hfresh & Hinv1 & Hav1).
  change (length (refcount p1)) with (total p1).
  destruct (decide (b < total p1)); [|lia].
  destruct (IH (set_ref p1 b 1) (b :: refs) (out ++ [b]) Hinv1) as
    (bs & p' & Hal & Hlen & Htot' & Hav' & Hnd & Hnew & Hinv').
  { unfold available in *; simpl. lia. }
  exists (b :: bs), p'. rewrite Hal, <- app_assoc. split; [done|]. simpl.
  split; [lia|]. rewrite total_set_ref in Htot'. split; [lia|].
  split; [unfold available in *; simpl in *; lia|].
  split; [|split].
  - apply NoDup_cons; split; [|done]. intros Hin. apply (Hnew b Hin). left.
  - intros b'. rewrite elem_of_cons. intros [->|Hin]; [done|].
    specialize (Hnew b' Hin). rewrite not_elem_of_cons in Hnew. tauto.
  - by rewrite Permutation_middle.
Qed.

(** ** The operations on lists of blocks *)

Lemma inv_lookup p refs b :
  pool_inv p refs -> b ∈ refs -> refcount p !! b = Some (Z.of_nat (refs_of refs b)) /\ b < total p.
Proof. intros [H1 H2 _ _] Hb. split; [apply H1|]; by apply H2. Qed.

(** A count with room is the next one when it is increased. *)
Lemma next_count refs b : fits_u32 (b :: refs) b ->
  u32_wrap (Z.of_nat (refs_of refs b) + 1) = Z.of_nat (refs_of (b :: refs) b).
Proof.
  unfold fits_u32, u32_wrap, u32_max. rewrite refs_of_cons. destruct (decide (b = b)); [|done]. intros H.
  rewrite Z.mod_small; lia.
Qed.

Lemma fits_u32_sub refs1 refs2 b : (refs_of refs1 b <= refs_of refs2 b)%nat -> fits_u32 refs2 b -> fits_u32 refs1 b.
Proof. unfold fits_u32. lia. Qed.

Lemma incref_spec bs p refs :
  pool_inv p refs -> Forall (fun b => b ∈ refs) bs -> Forall (fits_u32 (bs ++ refs)) bs ->
  exists p', incref p bs = Some p' /\ pool_inv p' (bs ++ refs).
Proof.
  revert p refs. induction bs as [|b bs IH]; intros p refs Hinv Hall Hfit; simpl; [by exists p|].
  apply Forall_cons in Hall as [Hb Hall]. apply Forall_cons in Hfit as [Hfb Hfit].
  destruct (inv_lookup _ _ _ Hinv Hb) as [Hl Hlt]. rewrite Hl. cbn [mbind option_bind].
  assert (forall x, refs_of ((b :: bs) ++ refs) x = refs_of (bs ++ b :: refs) x) as Hmid
    by (intros x; by rewrite (Permutation_middle bs refs b)).
  rewrite next_count.
  2: { eapply fits_u32_sub, Hfb. rewrite Hmid, refs_of_app. lia. }
  destruct (IH (set_ref p b (Z.of_nat (refs_of (b :: refs) b))) (b :: refs)) as (p' & Hp' & Hinv').
  - pose proof Hinv as [_ _ H3 H4].
    apply (inv_change_one p refs _ _ b); try done.
    + intros b' Hne. rewrite refs_of_cons. by destruct (decide (b' = b)).
    + simpl. rewrite H4, not_elem_of_cons. naive_solver.
  - eapply Forall_impl; [exact Hall|]. intros x ?. by right.
  - eapply Forall_impl; [exact Hfit|]. intros x. unfold fits_u32. by rewrite Hmid.
  - exists p'. split; [done|]. by rewrite Permutation_middle.
Qed.

Lemma drop_ref_cons refs b : drop_ref (Z.of_nat (refs_of (b :: refs) b)) = Z.of_nat (refs_of refs b).
Proof.
  rewrite refs_of_cons. destruct (decide (b = b)); [|done]. unfold drop_ref.
  destruct (decide _); lia.
Qed.

(** Dropping one reference, whichever list the idle block goes to. *)
Lemma drop_one_inv p refs b p' :
  pool_inv p (b :: refs) ->
  refcount p' = <[b := Z.of_nat (refs_of refs b)]> (refcount p) ->
  free p' ++ cached p' ≡ₚ
    (if decide (Z.of_nat (refs_of refs b) = 0%Z) then b :: free p ++ cached p else free p ++ cached p) ->
  pool_inv p' refs.
Proof.
  intros Hinv Hrc Hidle. pose proof Hinv as [_ H2 H3 H4].
  assert (b < total p) as Hb by (apply H2; left).
  assert (b ∉ free p ++ cached p) as Hnb by (rewrite H4; intros [_ Hn]; apply Hn; left).
  apply (inv_change_one p (b :: refs) _ _ b); try done.
  - intros b' Hne. rewrite refs_of_cons. by destruct (decide (b' = b)).
  - rewrite Hidle. destruct (decide _); [by apply NoDup_cons|done].
  - rewrite Hidle. destruct (decide _) as [Hz|Hz].
    + assert (b ∉ refs) by (apply refs_of_zero; lia). split; [done|]. intros _. left.
    + assert (~ (b ∉ refs)) by (rewrite <- refs_of_zero; lia). tauto.
  - intros b' Hne. rewrite Hidle. destruct (decide _); [|done].
    rewrite elem_of_cons. naive_solver.
Qed.

Lemma release_spec bs p refs :
  pool_inv p (bs ++ refs) -> exists p', release p bs = Some p' /\ pool_inv p' refs.
Proof.
  revert p. induction bs as [|b bs IH]; intros p Hinv; simpl; [by exists p|].
  change ((b :: bs) ++ refs) with (b :: (bs ++ refs)) in Hinv.
  destruct (inv_lookup p (b :: (bs ++ refs)) b Hinv) as [Hl _]; [left|].
  rewrite Hl. cbn [mbind option_bind]. rewrite drop_ref_cons. apply IH.
  apply (drop_one_inv p _ b); [done| |].
  - by destruct (decide _).
  - by destruct (decide _).
Qed.

Lemma release_to_cache_spec bs p refs :
  pool_inv p (bs ++ refs) -> exists p', release_to_cache p bs = Some p' /\ pool_inv p' refs.
Proof.
  revert p. induction bs as [|b bs IH]; intros p Hinv; simpl; [by exists p|].
  change ((b :: bs) ++ refs) with (b :: (bs ++ refs)) in Hinv.
  destruct (inv_lookup p (b :: (bs ++ refs)) b Hinv) as [Hl _]; [left|].
  rewrite Hl. cbn [mbind option_bind]. rewrite drop_ref_cons. apply IH.
  apply (drop_one_inv p _ b); [done| |].
  - by destruct (decide _).
  - destruct (decide _); simpl; [|done]. rewrite app_assoc.
    by rewrite (Permutation_app_comm (free p ++ cached p) [b]).
Qed.

Lemma remove_first_perm b l : b ∈ l -> l ≡ₚ b :: remove_first b l.
Proof.
  induction l as [|x l IH]; [by intros ?%elem_of_nil|]. simpl. intros Hb.
  destruct (decide (x = b)) as [->|Hne]; [done|].
  apply elem_of_cons in Hb as [->|Hb]; [done|].
  rewrite (IH Hb) at 1. apply Permutation_swap.
Qed.

Lemma reacquire_spec p refs b ok p' :
  pool_inv p refs -> fits_u32 (b :: refs) b -> reacquire p b = Some (ok, p') ->
  if ok then pool_inv p' (b :: refs) /\ (b ∈ cached p \/ b ∈ refs)
  else p' = p /\ b ∈ free p.
Proof.
  intros Hinv Hfit. pose proof Hinv as [H1 H2 H3 H4]. unfold reacquire.
  destruct (refcount p !! b) as [c|] eqn:Hl; simpl; [|done].
  assert (b < total p) as Hlt by (by eapply lookup_lt_Some).
  assert (c = Z.of_nat (refs_of refs b)) as -> by (rewrite H1 in Hl by done; congruence).
  rewrite next_count by done.
  assert (forall b', b' <> b -> refs_of (b :: refs) b' = refs_of refs b') as Ho.
  { intros b' Hne. rewrite refs_of_cons. by destruct (decide (b' = b)). }
  destruct (decide (b ∈ cached p)) as [Hc|Hc].
  - intros [= <- <-]. split; [|by left].
    pose proof (remove_first_perm b (cached p) Hc) as Hperm.
    assert (free p ++ cached p ≡ₚ b :: free p ++ remove_first b (cached p)) as Hp.
    { rewrite Hperm at 1. by rewrite Permutation_middle. }
    rewrite Hp in H3. apply NoDup_cons in H3 as [Hnb Hnd].
    apply (inv_change_one p refs _ _ b); try done; simpl.
    + split; [done|]. intros Hn. exfalso. apply Hn. left.
    + intros b' Hne. rewrite Hp, elem_of_cons. naive_solver.
  - destruct (decide (0 < Z.of_nat (refs_of refs b))%Z) as [Hz|Hz]; intros [= <- <-].
    + assert (b ∈ refs) as Hin.
      { destruct (decide (b ∈ refs)) as [|Hn]; [done|]. apply refs_of_zero in Hn. lia. }
      split; [|by right]. apply (inv_change_one p refs _ _ b); try done; simpl.
      rewrite H4, not_elem_of_cons. naive_solver.
    + split; [done|]. assert (b ∉ refs) as Hn by (apply refs_of_zero; lia).
      assert (b ∈ free p ++ cached p) as Hi by (by apply H4).
      apply elem_of_app in Hi as [?|?]; tauto.
Qed.

Lemma pool_inv_same_idle p p' refs :
  refcount p' = refcount p -> free p' ++ cached p' ≡ₚ free p ++ cached p ->
  pool_inv p refs -> pool_inv p' refs.
Proof.
  intros Hrc Hidle [H1 H2 H3 H4]. assert (total p' = total p) as Ht by (unfold total; by rewrite Hrc).
  split; rewrite ?Ht, ?Hrc; [done|done|by rewrite Hidle|]. intros b. rewrite Hidle. apply H4.
Qed.

Lemma evict_loop_inv n p refs out out' p' :
  pool_inv p refs -> evict_loop n p out = (out', p') ->
  pool_inv p' refs /\ exists ev, out' = out ++ ev /\ cached p = ev ++ cached p' /\
    free p' = rev ev ++ free p /\ length ev = Nat.min n (length (cached p)).
Proof.
  revert p out. induction n as [|n IH]; intros p out Hinv; simpl.
  { intros [= <- <-]. split; [done|]. exists []. by rewrite app_nil_r. }
  destruct (cached p) as [|b cs] eqn:Ec.
  { intros [= <- <-]. split; [done|]. exists []. rewrite app_nil_r, Ec. done. }
  intros Hev. apply IH in Hev as (Hinv' & ev & -> & Hc & Hf & Hlen).
  - split; [done|]. exists (b :: ev). simpl in *. rewrite Hc, <- app_assoc. split; [done|].
    split; [done|]. rewrite Hf, <- app_assoc. split; [done|]. rewrite <- Hc. lia.
  - eapply pool_inv_same_idle; [| |exact Hinv]; simpl; [done|].
    rewrite Ec. apply Permutation_middle.
Qed.

(** ** Properties *)

Lemma pool_step_inv s s' :
  pool_inv s.1 s.2 -> pool_step s s' -> pool_inv s'.1 s'.2 /\ total s'.1 = total s.1.
Proof.
  intros Hinv Hs.
  assert (forall p refs p' refs', pool_inv p refs -> pool_inv p' refs' ->
    length (refcount p') = length (refcount p) -> pool_inv p' refs' /\ total p' = total p) as Hok
    by done.
  assert (forall p bs p', incref p bs = Some p' -> total p' = total p) as Ti.
  { intros p bs. revert p. induction bs as [|b bs IH]; intros p p'; simpl; [congruence|].
    destruct (refcount p !! b); simpl; [|done]. intros ->%IH. apply total_set_ref. }
  assert (forall p bs p', release p bs = Some p' -> total p' = total p) as Tr.
  { intros p bs. revert p. induction bs as [|b bs IH]; intros p p'; simpl; [congruence|].
    destruct (refcount p !! b) as [c|]; simpl; [|done]. intros ->%IH.
    destruct (decide _); [unfold total; simpl|]; apply total_set_ref. }
  assert (forall p bs p', release_to_cache p bs = Some p' -> total p' = total p) as Tc.
  { intros p bs. revert p. induction bs as [|b bs IH]; intros p p'; simpl; [congruence|].
    destruct (refcount p !! b) as [c|]; simpl; [|done]. intros ->%IH.
    destruct (decide _); [unfold total; simpl|]; apply total_set_ref. }
  destruct Hs as [p refs n bs p' Ha|p refs n e p' Ha|p refs bs p' Hall Hfit Hi|p refs refs' bs p' Hp Hr
    |p refs refs' bs p' Hp Hr|p refs b p' Hfit Hr|p refs b p' Hr|p refs n out p' He]; simpl in *.
  - unfold alloc in Ha. destruct (decide _) as [|Hav]; [done|].
    destruct (alloc_loop_spec n p refs [] Hinv) as (bs0 & p0 & Hal & _ & Ht & _ & _ & _ & Hinv').
    { lia. }
    rewrite Hal in Ha. simpl in Ha. by simplify_eq.
  - unfold alloc in Ha. destruct (decide _) as [|Hav]; [by simplify_eq|].
    by destruct (alloc_loop n p []) as [[? ?]|].
  - destruct (incref_spec bs p refs Hinv Hall Hfit) as (p0 & Hp0 & Hinv'). simplify_eq. eauto.
  - rewrite Hp in Hinv. destruct (release_spec bs p refs' Hinv) as (p0 & Hp0 & Hinv').
    simplify_eq. eauto.
  - rewrite Hp in Hinv. destruct (release_to_cache_spec bs p refs' Hinv) as (p0 & Hp0 & Hinv').
    simplify_eq. eauto.
  - split; [by apply (reacquire_spec p refs b true p' Hinv Hfit)|].
    unfold reacquire in Hr. destruct (refcount p !! b); simpl in Hr; [|done].
    repeat case_decide; simplify_eq; by rewrite total_set_ref.
  - unfold reacquire in Hr. destruct (refcount p !! b); cbn [mbind option_bind] in Hr; [|done].
    repeat case_decide; by simplify_eq.
  - destruct (evict_loop_inv n p refs [] out p' Hinv He) as [Hinv' _]. split; [done|].
    unfold evict_cached in He. clear -He. revert p p' He. generalize (@nil nat).
    induction n as [|n IH]; intros l p p'; simpl; [congruence|].
    destruct (cached p); [congruence|]. by intros ->%IH.
Qed.

(** C5. Every state a well-behaved client can bring the pool to, one that
    returns and shares only references it holds and holds at most 2^32 - 1 to a
    page (the counts are 32 bits wide), satisfies the invariant: each count is the number of outstanding references to its block,
    and the free and cached lists hold each unreferenced block exactly once.
    In particular no page is ever on two lists or handed out while in use. *)
Theorem pool_reachable_inv n bs wm p refs :
  pool_reachable n bs wm (p, refs) -> pool_inv p refs /\ total p = n.
Proof.
  unfold pool_reachable. intros Hr.
  cut (pool_inv (p, refs).1 (p, refs).2 /\ total (p, refs).1 = n); [done|].
  revert Hr. generalize (p, refs). apply rtc_ind_r.
  - split; [apply pool_new_inv|]. apply length_replicate.
  - intros s s' _ Hs [Hinv Ht]. destruct (pool_step_inv s s' Hinv Hs) as [? Ht']. by rewrite Ht', Ht.
Qed.

Lemma pool_reachable_inv_witness :
  exists p, pool_reachable 4 128 f0 (p, [0; 1]) /\ pool_inv p [0; 1].
Proof.
  eexists. assert (pool_reachable 4 128 f0 (mkPool 128 [1%Z; 1%Z; 0%Z; 0%Z] [2; 3] [] f0, [0; 1])) as Hr.
  - eapply rtc_once. by apply (step_alloc _ [] 2 [0; 1]).
  - split; [exact Hr|]. by apply (pool_reachable_inv 4 128 f0 _ [0; 1]).
Defined.

(** [alloc] is exact: it fails, reporting the request and the available
    pages and changing nothing, precisely when fewer than [n] pages can be
    handed out; otherwise it returns [n] distinct pages none of which any client
    holds, and takes exactly them out of the available ones. *)
Theorem alloc_exact p refs n :
  pool_inv p refs ->
  if decide (available p < n)
  then alloc p n = Some (Err (KvExhausted (Z.of_nat n) (Z.of_nat (available p))), p)
  else exists bs p', alloc p n = Some (Ok bs, p') /\ length bs = n /\ NoDup bs /\
    (forall b, b ∈ bs -> b < total p /\ ~ (b ∈ refs)) /\
    pool_inv p' (bs ++ refs) /\ available p' = available p - n.
Proof.
  intros Hinv. unfold alloc. destruct (decide (available p < n)) as [Hlt|Hge]; [done|].
  destruct (alloc_loop_spec n p refs [] Hinv ltac:(lia))
    as (bs & p' & Hal & Hlen & Ht & Hav & Hnd & Hfresh & Hinv').
  exists bs, p'. rewrite Hal. simpl. split; [done|]. split; [done|]. split; [done|].
  split; [|done]. intros b Hb. split; [|by apply Hfresh].
  rewrite <- Ht. apply (inv_range _ _ Hinv'). apply elem_of_app. by left.
Qed.

Lemma alloc_exact_witness :
  pool_inv (pool_new 3 128 f0) [] /\
  alloc (pool_new 3 128 f0) 5 = Some (Err (KvExhausted 5 3), pool_new 3 128 f0).
Proof.
  split; [apply pool_new_inv|]. exact (alloc_exact (pool_new 3 128 f0) [] 5 (pool_new_inv 3 128 f0)).
Defined.

Lemma refcount_map p refs :
  pool_inv p refs -> refcount p = map (fun b => Z.of_nat (refs_of refs b)) (seq 0 (total p)).
Proof.
  intros [H1 _ _ _]. apply list_eq. intros b.
  destruct (decide (b < total p)) as [Hb|Hb].
  - rewrite H1 by done. symmetry. rewrite list_lookup_fmap, lookup_seq_lt by done. done.
  - rewrite lookup_ge_None_2 by (unfold total in *; lia). symmetry. apply lookup_ge_None_2.
    rewrite length_map, length_seq. lia.
Qed.

(** What no operation changes: the number of pages and the share in reserve. *)
Definition same_size (p p' : BlockPool) : Prop := total p' = total p /\ watermark p' = watermark p.

Lemma same_size_reserve p p' : same_size p p' -> reserve p' = reserve p.
Proof. intros [H1 H2]. unfold reserve. by rewrite H1, H2. Qed.

Lemma same_size_trans p1 p2 p3 : same_size p1 p2 -> same_size p2 p3 -> same_size p1 p3.
Proof. intros [H1 H2] [H3 H4]. split; congruence. Qed.

Lemma set_ref_size p b c : same_size p (set_ref p b c).
Proof. split; [apply total_set_ref|done]. Qed.

Lemma alloc_loop_size n : forall p out bs p', alloc_loop n p out = Some (bs, p') -> same_size p p'.
Proof.
  induction n as [|n IH]; intros p out bs p'; cbn [alloc_loop]; [by intros [= _ <-]|].
  destruct (take_block p) as [[b p1]|] eqn:Et; cbn [mbind option_bind]; [|done].
  assert (same_size p p1) as H1.
  { unfold take_block in Et. destruct (free p); [destruct (cached p); [done|]|]; injection Et as _ <-; done. }
  destruct (decide _); [|done]. intros H%IH. eapply same_size_trans; [exact H1|].
  eapply same_size_trans; [apply set_ref_size|exact H].
Qed.

Lemma alloc_size p n r p' : alloc p n = Some (r, p') -> same_size p p'.
Proof.
  unfold alloc. destruct (decide _); [by intros [= _ <-]|].
  destruct (alloc_loop n p []) as [[bs p1]|] eqn:E; cbn [mbind option_bind]; [|done]. intros [= _ <-].
  by eapply alloc_loop_size.
Qed.

Lemma release_size bs : forall p p', release p bs = Some p' -> same_size p p'.
Proof.
  induction bs as [|b bs IH]; intros p p'; cbn [release]; [by intros [= <-]|].
  destruct (refcount p !! b) as [c|]; cbn [mbind option_bind]; [|done]. intros H%IH.
  eapply same_size_trans; [apply (set_ref_size p b (drop_ref c))|]. by destruct (decide _).
Qed.

Lemma reserve_nonneg p : (0 <= reserve p)%Z.
Proof.
  unfold reserve, to_usize. destruct (fceil _) as [| [] | |[] m e]; try (unfold u64_max; lia).
  apply Z.min_glb; [unfold u64_max; lia|]. destruct (Z.leb_spec 0 e); [|by apply Z.div_pos; [|apply Z.pow_pos_nonneg; lia]].
  pose proof (Z.pow_nonneg 2 e). nia.
Qed.

(** No more pages than there are can be handed out. *)
Lemma available_total p refs : pool_inv p refs -> (available p <= total p)%nat.
Proof.
  intros Hinv. unfold available. rewrite <- length_app. transitivity (length (seq 0 (total p))); [|by rewrite length_seq].
  apply submseteq_length, NoDup_submseteq; [apply Hinv|].
  intros b Hb. apply (inv_idle _ _ Hinv) in Hb as [Hb _]. apply elem_of_seq. lia.
Qed.

(** What is not referenced can be handed out. *)
Lemma available_rest p refs : pool_inv p refs -> total p <= available p + length refs.
Proof.
  intros Hinv. unfold available. rewrite <- !length_app. rewrite <- (length_seq (total p) 0) at 1.
  apply submseteq_length, NoDup_submseteq; [apply NoDup_seq|]. intros b Hb%elem_of_seq. rewrite elem_of_app.
  destruct (decide (b ∈ refs)) as [|Hn]; [by right|left]. apply (inv_idle _ _ Hinv). split; [lia|done].
Qed.

(** The counters a pool reports account for every page: the free, the
    cached and the referenced pages add up to the total, and the pages that can
    be handed out are those nobody references. *)
Theorem stats_account p refs :
  pool_inv p refs ->
  st_free (stats p) + st_cached (stats p) + st_in_use (stats p) = st_total (stats p) /\
  available p + st_in_use (stats p) = total p.
Proof.
  intros Hinv.
  assert (free p ++ cached p ≡ₚ filter (fun b => refs_of refs b = 0) (seq 0 (total p))) as Hp.
  { apply NoDup_Permutation; [apply Hinv|apply NoDup_filter, NoDup_seq|].
    intros b. rewrite (inv_idle _ _ Hinv), list_elem_of_filter, elem_of_seq, refs_of_zero.
    naive_solver lia. }
  apply Permutation_length in Hp. rewrite length_app in Hp.
  assert (length (filter (fun c => 0 < c)%Z (refcount p)) =
          length (filter (fun b => ~ refs_of refs b = 0) (seq 0 (total p)))) as Hu.
  { rewrite (refcount_map p refs Hinv). clear Hp. induction (seq 0 (total p)) as [|b l IH]; [done|].
    cbn [map]. rewrite !filter_cons. cbv beta.
    repeat case_decide; cbn [length]; lia. }
  pose proof (filter_app_complement (fun b => refs_of refs b = 0) (seq 0 (total p))) as Hc.
  apply Permutation_length in Hc. rewrite length_app, length_seq in Hc.
  unfold stats, available; simpl. lia.
Qed.

Lemma stats_account_witness :
  pool_inv (pool_new 3 128 f0) [] /\
  available (pool_new 3 128 f0) + st_in_use (stats (pool_new 3 128 f0)) = 3.
Proof.
  split; [apply pool_new_inv|]. apply (stats_account _ [] (pool_new_inv 3 128 f0)).
Defined.

(** The protocol of the previous theorems is needed: [release] does not
    check that a reference is held, and a second [release] of the same page puts
    it on the free list twice, after which one [alloc] hands the same page out
    as two different pages. *)
Theorem double_release_aliases :
  exists p1 p2 p3 p4,
    alloc (pool_new 1 128 f0) 1 = Some (Ok [0], p1) /\
    release p1 [0] = Some p2 /\ release p2 [0] = Some p3 /\
    alloc p3 2 = Some (Ok [0; 0], p4).
Proof. do 4 eexists. repeat split; reflexivity. Qed.

(** The bound on references is needed too: the next one makes the count wrap
    around to zero, and the page, which its holders still use, can no longer be
    taken out of the cache. *)
Theorem refcount_wraps :
  exists p, incref (mkPool 128 [u32_max] [] [] f0) [0] = Some p /\
    refcount p = [0%Z] /\ reacquire p 0 = Some (false, p).
Proof. eexists. repeat split; reflexivity. Qed.
