(* ===== verification/Prefix.v ===== *)
(** * The exact prefix cache ([crates/kvcache/src/prefix.rs])

    Blocks of tokens are named by a chained FNV-1a hash, and the cache maps
    these names to pages of the worker's pool. *)

From stdpp Require Import base option list numbers gmap.
From Stdlib Require Import ZArith Lia.
From S2P Require Import Prelude F64 Pool.

Module Cache.

(** ** The hash chain *)

Definition FNV_OFFSET : Z := 0xcbf29ce484222325.
Definition FNV_PRIME : Z := 0x00000100000001b3.

(** [u64::to_le_bytes] *)
Definition le_bytes (v : Z) : list Z :=
  map (fun i => Z.land (Z.shiftr v (8 * i)) 255) [0; 1; 2; 3; 4; 5; 6; 7]%Z.

Definition fnv_byte (h b : Z) : Z := u64_wrap (Z.lxor h b * FNV_PRIME).
Definition fnv1a_u64 (h v : Z) : Z := foldl fnv_byte h (le_bytes v).

(** [slice::chunks_exact] *)
Definition chunks_exact {A} (n : nat) (l : list A) : list (list A) :=
  map (fun i => take n (drop (i * n) l)) (seq 0 (length l / n)).

Fixpoint hash_chain (h : Z) (chunks : list (list Z)) : list Z :=
  match chunks with
  | [] => []
  | c :: cs => let h' := foldl fnv1a_u64 h c in h' :: hash_chain h' cs
  end.

(** The chunk size [block_size.max(1) as usize]. *)
Definition chunk_size (bs : Z) : nat := Z.to_nat (Z.max bs 1).

Definition block_hashes (tokens : list Z) (bs : Z) : list Z :=
  hash_chain FNV_OFFSET (chunks_exact (chunk_size bs) tokens).

(** ** The cache *)

Record PrefixMatch := mkMatch {
  num_tokens : Z;
  blocks : list nat
}.

Definition match_empty : PrefixMatch := mkMatch 0 [].
Definition match_is_empty (m : PrefixMatch) : bool := bool_decide (length (blocks m) = 0%nat).

Record PrefixCache := mkCache {
  c_block_size : Z;
  by_hash : gmap Z nat;
  by_block : gmap nat Z;
  hits : Z;
  misses : Z;
  enabled : bool
}.

Definition cache_new (bs : Z) (en : bool) : PrefixCache := mkCache bs ∅ ∅ 0 0 en.

Definition cache_len (c : PrefixCache) : nat := size (by_hash c).

Definition hit_rate (c : PrefixCache) : f64 :=
  let total := (hits c + misses c)%Z in
  if (total =? 0)%Z then f0 else fdiv (of_Z (hits c)) (of_Z total).

Definition add_hit (c : PrefixCache) : PrefixCache :=
  mkCache (c_block_size c) (by_hash c) (by_block c) (hits c + 1) (misses c) (enabled c).
Definition add_misses (c : PrefixCache) (n : Z) : PrefixCache :=
  mkCache (c_block_size c) (by_hash c) (by_block c) (hits c) (misses c + n) (enabled c).
Definition set_index (c : PrefixCache) (bh : gmap Z nat) (bb : gmap nat Z) : PrefixCache :=
  mkCache (c_block_size c) bh bb (hits c) (misses c) (enabled c).

(** The body of [lookup]'s loop over the chain; [None] is a panic of the pool. *)
Fixpoint lookup_loop (hs : list Z) (c : PrefixCache) (p : BlockPool) (m : PrefixMatch)
    : option (PrefixMatch * PrefixCache * BlockPool) :=
  match hs with
  | [] => Some (m, c, p)
  | h :: hs' =>
      match by_hash c !! h with
      | Some b =>
          '(ok, p') ← reacquire p b;
          if (ok : bool)
          then lookup_loop hs' (add_hit c) p'
                 (mkMatch (num_tokens m + c_block_size c) (blocks m ++ [b]))
          else Some (m, add_misses (set_index c (delete h (by_hash c)) (delete b (by_block c))) 1, p')
      | None => Some (m, add_misses c 1, p)
      end
  end.

Definition lookup (c : PrefixCache) (tokens : list Z) (p : BlockPool)
    : option (PrefixMatch * PrefixCache * BlockPool) :=
  if enabled c then lookup_loop (block_hashes tokens (c_block_size c)) c p match_empty
  else Some (match_empty,
             add_misses c (Z.of_nat (length tokens) / Z.max (c_block_size c) 1), p).

Definition insert_one (c : PrefixCache) (hb : Z * nat) : PrefixCache :=
  let '(h, b) := hb in
  let bb := match by_hash c !! h with
            | Some prev => if decide (prev = b) then by_block c else delete prev (by_block c)
            | None => by_block c
            end in
  set_index c (<[h := b]> (by_hash c)) (<[b := h]> bb).

Definition insert (c : PrefixCache) (tokens : list Z) (bs : list nat) : PrefixCache :=
  if enabled c
  then foldl insert_one c (zip (block_hashes tokens (c_block_size c)) bs)
  else c.

Definition forget_one (c : PrefixCache) (b : nat) : PrefixCache :=
  match by_block c !! b with
  | Some h => set_index c (delete h (by_hash c)) (delete b (by_block c))
  | None => c
  end.

Definition forget (c : PrefixCache) (bs : list nat) : PrefixCache := foldl forget_one c bs.

(** The two maps of the index are inverse to each other. *)
Definition index_inv (c : PrefixCache) : Prop :=
  forall h b, by_hash c !! h = Some b <-> by_block c !! b = Some h.

(** ** Chunks and the chain *)

Lemma chunks_exact_cons {A} n (l : list A) :
  0 < n -> n <= length l -> chunks_exact n l = take n l :: chunks_exact n (drop n l).
Proof.
  intros Hn Hl. unfold chunks_exact.
  assert (length l / n = S (length (drop n l) / n)) as ->.
  { rewrite length_drop.
    replace (length l) with (length l - n + 1 * n) at 1 by lia.
    rewrite Nat.div_add by lia. lia. }
  cbn [seq map]. f_equal. rewrite <- seq_shift, map_map.
  apply map_ext. intros i. by rewrite drop_drop.
Qed.

Lemma chunks_exact_short {A} n (l : list A) : length l < n -> chunks_exact n l = [].
Proof. intros Hl. unfold chunks_exact. by rewrite Nat.div_small. Qed.

Lemma length_chunks_exact {A} n (l : list A) : length (chunks_exact n l) = length l / n.
Proof. unfold chunks_exact. by rewrite length_map, length_seq. Qed.

Lemma chunks_exact_app {A} n (l1 l2 : list A) k :
  0 < n -> length l1 = k * n -> chunks_exact n (l1 ++ l2) = chunks_exact n l1 ++ chunks_exact n l2.
Proof.
  intros Hn. revert l1. induction k as [|k IH]; intros l1 Hl.
  { destruct l1; [|simpl in Hl; lia]. by rewrite (chunks_exact_short n []). }
  rewrite (chunks_exact_cons n (l1 ++ l2)), (chunks_exact_cons n l1)
    by (rewrite ?length_app; lia).
  rewrite take_app_le, drop_app_le by lia. cbn [app]. f_equal.
  apply IH. rewrite length_drop. lia.
Qed.

Lemma hash_chain_app h cs1 cs2 :
  exists h', hash_chain h (cs1 ++ cs2) = hash_chain h cs1 ++ hash_chain h' cs2.
Proof.
  revert h. induction cs1 as [|c cs1 IH]; intros h; simpl; [by exists h|].
  destruct (IH (foldl fnv1a_u64 h c)) as [h' ->]. by exists h'.
Qed.

Lemma length_hash_chain h cs : length (hash_chain h cs) = length cs.
Proof. revert h. induction cs; intros h; simpl; congruence. Qed.

Lemma chunk_size_pos bs : 0 < chunk_size bs.
Proof. unfold chunk_size. lia. Qed.

Lemma length_block_hashes tokens bs :
  length (block_hashes tokens bs) = length tokens / chunk_size bs.
Proof. unfold block_hashes. by rewrite length_hash_chain, length_chunks_exact. Qed.

(** The hash of a block depends on the whole prefix up to its end and on
    nothing after it: extending a prompt leaves the names of its complete
    blocks unchanged. *)
Theorem block_hashes_prefix tokens more bs k :
  length tokens = k * chunk_size bs ->
  take k (block_hashes (tokens ++ more) bs) = block_hashes tokens bs.
Proof.
  intros Hl. unfold block_hashes.
  rewrite (chunks_exact_app _ _ _ k (chunk_size_pos bs) Hl).
  destruct (hash_chain_app FNV_OFFSET (chunks_exact (chunk_size bs) tokens)
              (chunks_exact (chunk_size bs) more)) as [h' ->].
  rewrite take_app_le, take_ge; [done|..]; rewrite length_hash_chain, length_chunks_exact, Hl,
    Nat.div_mul; pose proof (chunk_size_pos bs); lia.
Qed.

Lemma block_hashes_prefix_witness :
  length [1; 2; 3; 4]%Z = 2 * chunk_size 2 /\
  take 2 (block_hashes ([1; 2; 3; 4] ++ [5; 6; 7])%Z 2) = block_hashes [1; 2; 3; 4]%Z 2.
Proof. split; [reflexivity|]. by apply block_hashes_prefix. Defined.

(** ** The chain is a bijection of its incoming hash *)

Section fnv.
Local Open Scope Z_scope.

Definition FNV_INVERSE : Z := 14886173955864302971.

Lemma fnv_mul_inj x y :
  0 <= x < 2 ^ 64 -> 0 <= y < 2 ^ 64 ->
  u64_wrap (x * FNV_PRIME) = u64_wrap (y * FNV_PRIME) -> x = y.
Proof.
  unfold u64_wrap. intros Hx Hy Heq.
  assert (forall z, 0 <= z < 2 ^ 64 ->
    ((z * FNV_PRIME) mod 2 ^ 64 * FNV_INVERSE) mod 2 ^ 64 = z) as Hinv.
  { intros z Hz. rewrite Z.mul_mod_idemp_l, <- Z.mul_assoc by lia.
    rewrite <- Z.mul_mod_idemp_r by lia.
    change ((FNV_PRIME * FNV_INVERSE) mod 2 ^ 64) with 1.
    by rewrite Z.mul_1_r, Z.mod_small. }
  by rewrite <- (Hinv x Hx), Heq, Hinv.
Qed.

Lemma lxor_range x b : 0 <= x < 2 ^ 64 -> 0 <= b < 2 ^ 64 -> 0 <= Z.lxor x b < 2 ^ 64.
Proof.
  intros Hx Hb. assert (0 <= Z.lxor x b) by (apply Z.lxor_nonneg; lia).
  split; [done|]. destruct (decide (Z.lxor x b = 0)) as [->|]; [done|].
  apply Z.log2_lt_pow2; [lia|].
  eapply Z.le_lt_trans; [apply Z.log2_lxor; lia|].
  apply Z.max_lub_lt.
  - destruct (decide (x = 0)) as [->|]; [done|]. apply Z.log2_lt_pow2; lia.
  - destruct (decide (b = 0)) as [->|]; [done|]. apply Z.log2_lt_pow2; lia.
Qed.

Lemma le_byte_range v i : 0 <= Z.land (Z.shiftr v i) 255 < 2 ^ 64.
Proof.
  change 255 with (Z.ones 8). rewrite Z.land_ones by lia.
  pose proof (Z.mod_pos_bound (Z.shiftr v i) (2 ^ 8) ltac:(lia)). lia.
Qed.

Lemma foldl_range {A} (f : Z -> A -> Z) l h :
  (forall h a, 0 <= h < 2 ^ 64 -> a ∈ l -> 0 <= f h a < 2 ^ 64) ->
  0 <= h < 2 ^ 64 -> 0 <= foldl f h l < 2 ^ 64.
Proof.
  revert h. induction l as [|a l IH]; intros h Hf Hh; simpl; [done|].
  apply IH; [|apply Hf; [done|left]]. intros h' a' ? ?. apply Hf; [done|by right].
Qed.

Lemma foldl_inj {A} (f : Z -> A -> Z) l h1 h2 :
  (forall h a, 0 <= h < 2 ^ 64 -> a ∈ l -> 0 <= f h a < 2 ^ 64) ->
  (forall h1 h2 a, 0 <= h1 < 2 ^ 64 -> 0 <= h2 < 2 ^ 64 -> a ∈ l ->
     f h1 a = f h2 a -> h1 = h2) ->
  0 <= h1 < 2 ^ 64 -> 0 <= h2 < 2 ^ 64 -> foldl f h1 l = foldl f h2 l -> h1 = h2.
Proof.
  revert h1 h2. induction l as [|a l IH]; intros h1 h2 Hf Hi H1 H2; simpl; [done|].
  intros Heq. apply (Hi _ _ a); [done|done|left|].
  apply IH; [|intros; eapply Hi; try done; by right|apply Hf; [done|left]
            |apply Hf; [done|left]|done].
  intros h' a' ? ?. apply Hf; [done|by right].
Qed.

Lemma fnv_byte_range h b : 0 <= fnv_byte h b < 2 ^ 64.
Proof. apply u64_wrap_range. Qed.

Lemma fnv_byte_inj h1 h2 b :
  0 <= h1 < 2 ^ 64 -> 0 <= h2 < 2 ^ 64 -> 0 <= b < 2 ^ 64 ->
  fnv_byte h1 b = fnv_byte h2 b -> h1 = h2.
Proof.
  intros H1 H2 Hb Heq. apply fnv_mul_inj in Heq; [|by apply lxor_range|by apply lxor_range].
  apply (f_equal (fun x => Z.lxor x b)) in Heq.
  by rewrite !Z.lxor_assoc, Z.lxor_nilpotent, !Z.lxor_0_r in Heq.
Qed.

Lemma le_bytes_range v b : b ∈ le_bytes v -> 0 <= b < 2 ^ 64.
Proof.
  unfold le_bytes. rewrite list_elem_of_fmap. intros (i & -> & _). apply le_byte_range.
Qed.

Lemma fnv1a_range h v : 0 <= h < 2 ^ 64 -> 0 <= fnv1a_u64 h v < 2 ^ 64.
Proof.
  unfold fnv1a_u64. apply (foldl_range fnv_byte). intros h' a _ _. apply fnv_byte_range.
Qed.

Lemma fnv1a_inj h1 h2 v :
  0 <= h1 < 2 ^ 64 -> 0 <= h2 < 2 ^ 64 -> fnv1a_u64 h1 v = fnv1a_u64 h2 v -> h1 = h2.
Proof.
  unfold fnv1a_u64. apply (foldl_inj fnv_byte).
  - intros h' a _ _. apply fnv_byte_range.
  - intros h h' b Hh Hh' Hb. apply fnv_byte_inj; [done|done|]. by eapply le_bytes_range.
Qed.
End fnv.

(** The chain is collision free where the doc comment relies on it: two
    prompts that reach the same tokens of a block with different hashes leave
    the block with different hashes, so equal names of equal blocks mean that
    the names of the preceding blocks were equal too. *)
Theorem chain_step_injective h1 h2 chunk :
  (0 <= h1 < 2 ^ 64)%Z -> (0 <= h2 < 2 ^ 64)%Z -> h1 <> h2 ->
  foldl fnv1a_u64 h1 chunk <> foldl fnv1a_u64 h2 chunk.
Proof.
  intros H1 H2 Hne Heq. apply Hne. revert Heq. apply (foldl_inj fnv1a_u64); [| |done|done].
  - intros h v Hh _. by apply fnv1a_range.
  - intros h h' v Hh Hh' _. by apply fnv1a_inj.
Qed.

Lemma chain_step_injective_witness :
  foldl fnv1a_u64 FNV_OFFSET [7; 8]%Z <> foldl fnv1a_u64 FNV_PRIME [7; 8]%Z.
Proof. apply (chain_step_injective FNV_OFFSET FNV_PRIME [7; 8]%Z); done. Defined.

(** ** Lookup *)

(** Every page the index names is a page of the pool. *)
Definition index_in_pool (c : PrefixCache) (p : BlockPool) : Prop :=
  forall h b, by_hash c !! h = Some b -> b < total p.

Lemma reacquire_total p b ok p' : reacquire p b = Some (ok, p') -> total p' = total p.
Proof.
  unfold reacquire. destruct (refcount p !! b); simpl; [|done].
  repeat case_decide; intros [= <- <-]; by rewrite ?total_set_ref.
Qed.

Lemma reacquire_Some p b : b < total p -> exists ok p', reacquire p b = Some (ok, p').
Proof.
  unfold reacquire. intros Hb. destruct (lookup_lt_is_Some_2 (refcount p) b Hb) as [c ->].
  simpl. repeat case_decide; eauto.
Qed.

(** What the loop establishes, from any point of the chain. *)
Definition lookup_post (hs : list Z) (c : PrefixCache) (m : PrefixMatch) (refs : list nat)
    (m' : PrefixMatch) (c' : PrefixCache) (p' : BlockPool) : Prop :=
  exists bs,
    blocks m' = blocks m ++ bs /\
    num_tokens m' = (num_tokens m + Z.of_nat (length bs) * c_block_size c)%Z /\
    length bs <= length hs /\
    Forall2 (fun h b => by_hash c !! h = Some b) (take (length bs) hs) bs /\
    pool_inv p' (bs ++ refs) /\
    hits c' = (hits c + Z.of_nat (length bs))%Z /\
    misses c' = (misses c + if decide (length bs < length hs)%nat then 1 else 0)%Z.

(** No count overflows when each of [n] more references goes to any one page. *)
Definition room_for (n : nat) (refs : list nat) : Prop := forall b, (Z.of_nat (refs_of refs b + n) <= u32_max)%Z.

Lemma room_for_next n refs b : room_for (S n) refs -> fits_u32 (b :: refs) b /\ room_for n (b :: refs).
Proof.
  unfold room_for, fits_u32. intros H.
  split; [|intros b']; rewrite refs_of_cons; [specialize (H b)|specialize (H b')]; destruct (decide _); lia.
Qed.

Lemma lookup_loop_spec hs c p m refs :
  pool_inv p refs -> room_for (length hs) refs -> index_in_pool c p ->
  exists m' c' p', lookup_loop hs c p m = Some (m', c', p') /\
    lookup_post hs c m refs m' c' p'.
Proof.
  assert (forall hs0 c0 m0 refs0 cx p0, pool_inv p0 refs0 -> 0 < length hs0 ->
    hits cx = hits c0 -> misses cx = (misses c0 + 1)%Z ->
    lookup_post hs0 c0 m0 refs0 m0 cx p0) as Hstop.
  { intros hs0 c0 m0 refs0 cx p0 Hi Hl Hh Hm. exists []. rewrite app_nil_r. simpl.
    destruct (decide (0 < length hs0)); [|lia].
    split; [done|]. split; [lia|]. split; [lia|]. split; [constructor|].
    split; [exact Hi|]. lia. }
  revert c p m refs. induction hs as [|h hs IH]; intros c p m refs Hinv Hroom Hin; simpl.
  { exists m, c, p. split; [done|]. exists []. rewrite app_nil_r. simpl.
    split; [done|]. split; [lia|]. split; [lia|]. split; [constructor|].
    split; [exact Hinv|]. lia. }
  destruct (by_hash c !! h) as [b|] eqn:Eh.
  - destruct (reacquire_Some p b (Hin _ _ Eh)) as (ok & p1 & Hr). rewrite Hr. simpl.
    destruct (room_for_next (length hs) refs b Hroom) as [Hfit Hroom1].
    pose proof (reacquire_spec p refs b ok p1 Hinv Hfit Hr) as Hspec. destruct ok.
    + destruct Hspec as [Hinv1 _].
      destruct (IH (add_hit c) p1 (mkMatch (num_tokens m + c_block_size c) (blocks m ++ [b]))
                  (b :: refs) Hinv1 Hroom1) as (m' & c' & p' & Hl & bs & Hb & Ht & Hlen & Hf & Hi & Hh & Hm).
      { intros h' b' Hb'. rewrite (reacquire_total _ _ _ _ Hr). by eapply Hin. }
      exists m', c', p'. split; [done|]. exists (b :: bs). simpl in *.
      rewrite Hb, <- app_assoc. split; [done|]. split; [lia|]. split; [lia|].
      split; [by constructor|]. split; [by rewrite Permutation_middle|]. split; [lia|].
      rewrite Hm. repeat case_decide; lia.
    + destruct Hspec as [-> _]. do 3 eexists. split; [done|]. apply Hstop; simpl; try done. lia.
  - do 3 eexists. split; [done|]. apply Hstop; simpl; try done. lia.
Qed.

(** A lookup in an enabled cache never panics, and what it returns is a
    prefix of the prompt's chain: the i-th page is the one indexed under the
    i-th hash, each returned page carries one more reference, the token count is
    a whole number of blocks, every hit is counted and exactly one miss is
    counted unless the whole chain was found.  The counts must have room for the
    references taken. *)
Theorem lookup_sound c tokens p refs :
  enabled c = true -> pool_inv p refs -> room_for (length (block_hashes tokens (c_block_size c))) refs ->
  index_in_pool c p ->
  exists m c' p', lookup c tokens p = Some (m, c', p') /\
    lookup_post (block_hashes tokens (c_block_size c)) c match_empty refs m c' p'.
Proof. intros He Hinv Hroom Hin. unfold lookup. rewrite He. by apply lookup_loop_spec. Qed.

Lemma lookup_sound_witness :
  exists m c' p', lookup (cache_new 2 true) [1; 2; 3]%Z (pool_new 4 2 f0) = Some (m, c', p') /\
    lookup_post (block_hashes [1; 2; 3]%Z 2) (cache_new 2 true) match_empty [] m c' p'.
Proof.
  apply (lookup_sound (cache_new 2 true) [1; 2; 3]%Z (pool_new 4 2 f0) []).
  - reflexivity.
  - apply pool_new_inv.
  - intros b. vm_compute. discriminate.
  - intros h b. simpl. rewrite lookup_empty. done.
Defined.

(** ** Insert then lookup *)

Lemma insert_one_by_hash c h b : by_hash (insert_one c (h, b)) = <[h := b]> (by_hash c).
Proof. done. Qed.

Lemma insert_loop_fields c l :
  c_block_size (foldl insert_one c l) = c_block_size c /\
  enabled (foldl insert_one c l) = enabled c.
Proof.
  revert c. induction l as [|[h b] l IH]; intros c; [done|]. cbn [foldl].
  destruct (IH (insert_one c (h, b))) as [-> ->]. done.
Qed.

Lemma insert_loop_by_hash_ne c l h :
  h ∉ map fst l -> by_hash (foldl insert_one c l) !! h = by_hash c !! h.
Proof.
  revert c. induction l as [|[h' b] l IH]; intros c Hn; [done|].
  cbn [map fst] in Hn. cbn [foldl]. apply not_elem_of_cons in Hn as [Hne Hn].
  rewrite (IH _ Hn), insert_one_by_hash. by apply lookup_insert_ne.
Qed.

Lemma insert_loop_by_hash c l :
  NoDup (map fst l) -> Forall (fun hb => by_hash (foldl insert_one c l) !! hb.1 = Some hb.2) l.
Proof.
  revert c. induction l as [|[h b] l IH]; intros c Hnd; [constructor|].
  simpl in Hnd. apply NoDup_cons in Hnd as [Hn Hnd]. constructor.
  - cbn [foldl fst snd]. rewrite insert_loop_by_hash_ne by done. rewrite insert_one_by_hash.
    apply lookup_insert_eq.
  - by apply IH.
Qed.

(** The loop of [lookup] when every page of the chain can be taken. *)
Lemma lookup_loop_hits hs bs c p m refs :
  pool_inv p refs ->
  Forall2 (fun h b => by_hash c !! h = Some b /\ (b ∈ cached p \/ b ∈ refs)) hs bs ->
  Forall (fits_u32 (bs ++ refs)) bs ->
  exists c' p', lookup_loop hs c p m =
    Some (mkMatch (num_tokens m + Z.of_nat (length bs) * c_block_size c) (blocks m ++ bs), c', p') /\
    pool_inv p' (bs ++ refs).
Proof.
  revert bs c p m refs. induction hs as [|h hs IH]; intros bs c p m refs Hinv Hall Hfits.
  { inversion Hall; subst. exists c, p. rewrite app_nil_r. simpl.
    rewrite Z.add_0_r. by destruct m. }
  inversion Hall as [|? b ? bs' [Hh Hb] Hall']; subst. simpl. rewrite Hh.
  assert (b < total p) as Hlt.
  { destruct Hb as [Hb|Hb]; [|by apply (inv_range _ _ Hinv)].
    apply (inv_idle _ _ Hinv). apply elem_of_app. by right. }
  destruct (reacquire_Some p b Hlt) as (ok & p1 & Hr). rewrite Hr. simpl.
  assert (forall x, refs_of ((b :: bs') ++ refs) x = refs_of (bs' ++ b :: refs) x) as Hmid
    by (intros x; by rewrite (Permutation_middle bs' refs b)).
  apply Forall_cons in Hfits as [Hfit Hfits].
  assert (fits_u32 (b :: refs) b) as Hfit1 by (eapply fits_u32_sub, Hfit; rewrite Hmid, refs_of_app; lia).
  pose proof (reacquire_spec p refs b ok p1 Hinv Hfit1 Hr) as Hspec.
  destruct ok.
  - destruct Hspec as [Hinv1 _].
    destruct (IH bs' (add_hit c) p1 (mkMatch (num_tokens m + c_block_size c) (blocks m ++ [b]))
                (b :: refs) Hinv1) as (c' & p' & Hl & Hinv').
    { eapply Forall2_impl; [exact Hall'|]. intros h' b' [Hh' Hb']. split; [done|].
      destruct (decide (b' = b)) as [->|Hne]; [right; left|].
      destruct Hb' as [Hb'|Hb']; [|by right; right]. left.
      unfold reacquire in Hr. destruct (refcount p !! b); simpl in Hr; [|done].
      repeat case_decide; simplify_eq; simpl; try done.
      pose proof (remove_first_perm b (cached p) ltac:(done)) as Hp. rewrite Hp in Hb'.
      by apply elem_of_cons in Hb' as [->|Hb']. }
    { eapply Forall_impl; [exact Hfits|]. intros x. unfold fits_u32. by rewrite Hmid. }
    exists c', p'. simpl in Hl. rewrite Hl. split.
    + do 3 f_equal. f_equal; [lia|]. by rewrite <- app_assoc.
    + by rewrite Permutation_middle.
  - exfalso. destruct Hspec as [-> Hf]. destruct Hb as [Hb|Hb].
    + pose proof (inv_nodup _ _ Hinv) as Hnd. apply NoDup_app in Hnd as (_ & Hd & _).
      by apply (Hd b).
    + assert (b ∈ free p ++ cached p) as Hi by (apply elem_of_app; by left).
      by apply (inv_idle _ _ Hinv) in Hi as [_ Hi].
Qed.

(** C20. Round trip: publishing the pages of a prompt and looking the prompt up
    again, while the pool still holds these pages (referenced or reclaimable),
    returns exactly these pages and takes a reference on each.  The hashes of
    the prompt's blocks have to be distinct, as the hash function's users
    assume, and the 32-bit count of each page must have room for the references
    taken. *)
Theorem insert_lookup c tokens bs p refs :
  enabled c = true -> pool_inv p refs ->
  NoDup (block_hashes tokens (c_block_size c)) ->
  length bs = length tokens / chunk_size (c_block_size c) ->
  Forall (fun b => b ∈ cached p \/ b ∈ refs) bs ->
  Forall (fits_u32 (bs ++ refs)) bs ->
  exists c' p', lookup (insert c tokens bs) tokens p =
    Some (mkMatch (Z.of_nat (length bs) * c_block_size c) bs, c', p') /\
    pool_inv p' (bs ++ refs).
Proof.
  intros He Hinv Hnd Hlen Hall Hfits. unfold insert. rewrite He.
  set (hs := block_hashes tokens (c_block_size c)) in *.
  set (c1 := foldl insert_one c (zip hs bs)).
  destruct (insert_loop_fields c (zip hs bs)) as [Hbs Hen]. fold c1 in Hbs, Hen.
  assert (length hs = length bs) as Hl by (unfold hs; rewrite length_block_hashes; lia).
  assert (map fst (zip hs bs) = hs) as Hfst by (apply fst_zip; lia).
  pose proof (insert_loop_by_hash c (zip hs bs)) as Hb. rewrite Hfst in Hb.
  specialize (Hb Hnd). fold c1 in Hb.
  unfold lookup. rewrite Hen, He, Hbs. fold hs.
  destruct (lookup_loop_hits hs bs c1 p match_empty refs Hinv) as (c' & p' & -> & Hinv').
  - apply Forall2_same_length_lookup. split; [done|]. intros i h b Hh Hb'.
    rewrite Forall_forall in Hb. rewrite Forall_forall in Hall. split.
    + apply (Hb (h, b)). apply list_elem_of_lookup. exists i.
      by rewrite lookup_zip_with, Hh, Hb'.
    + apply Hall. by eapply list_elem_of_lookup_2.
  - exact Hfits.
  - exists c', p'. by rewrite Hbs.
Qed.

Lemma insert_lookup_witness :
  exists p, pool_inv p [0; 1] /\
  exists c' p', lookup (insert (cache_new 2 true) [1; 2; 3; 4; 5]%Z [0; 1]) [1; 2; 3; 4; 5]%Z p =
    Some (mkMatch 4 [0; 1], c', p') /\ pool_inv p' ([0; 1] ++ [0; 1]).
Proof.
  assert (pool_inv (mkPool 2 [1%Z; 1%Z; 0%Z] [2] [] f0) [0; 1]) as Hinv.
  { apply (pool_step_inv (pool_new 3 2 f0, []) (mkPool 2 [1%Z; 1%Z; 0%Z] [2] [] f0, [0; 1])).
    - apply pool_new_inv.
    - by apply (step_alloc _ [] 2 [0; 1]). }
  exists (mkPool 2 [1%Z; 1%Z; 0%Z] [2] [] f0). split; [exact Hinv|].
  apply (insert_lookup (cache_new 2 true) [1; 2; 3; 4; 5]%Z [0; 1] _ [0; 1]).
  - reflexivity.
  - exact Hinv.
  - apply (bool_decide_unpack _). vm_compute. exact I.
  - reflexivity.
  - apply Forall_forall. intros b Hb. by right.
  - repeat constructor; vm_compute; discriminate.
Defined.

(** ** The index *)

(** Publishing a page keeps the two maps inverse to each other when the page is
    not already indexed under another hash. *)
Lemma insert_one_inv c h b :
  index_inv c -> (forall h', by_block c !! b = Some h' -> h' = h) -> index_inv (insert_one c (h, b)).
Proof.
  intros Hinv Hb h' b'. simpl.
  set (bb := match by_hash c !! h with
             | Some prev => if decide (prev = b) then by_block c else delete prev (by_block c)
             | None => by_block c
             end).
  assert (forall x k, x <> b -> bb !! x = Some k <-> by_block c !! x = Some k /\ k <> h) as Hbb.
  { intros x k Hx. unfold bb. rewrite <- !(Hinv k x).
    destruct (by_hash c !! h) as [prev|] eqn:Eh; [destruct (decide (prev = b)) as [->|Hne]|].
    - rewrite <- (Hinv k x). split; [|tauto]. intros Hk. split; [done|]. intros ->. congruence.
    - rewrite lookup_delete. case_decide; subst.
      + split; [done|]. intros [Hk Hkh]. apply Hinv in Hk, Eh. congruence.
      + rewrite <- (Hinv k x). split; [|tauto]. intros Hk. split; [done|]. intros ->. congruence.
    - rewrite <- (Hinv k x). split; [|tauto]. intros Hk. split; [done|]. intros ->. congruence. }
  rewrite !lookup_insert.
  destruct (decide (h = h')) as [->|Hh], (decide (b = b')) as [->|Hb'].
  - done.
  - split; [congruence|]. intros Hk%Hbb; [|done]. tauto.
  - split; [|congruence]. intros Hk. apply Hinv, Hb in Hk. congruence.
  - rewrite Hbb by done. rewrite <- (Hinv h' b'). split; [|tauto]. intros Hk. split; [done|].
    congruence.
Qed.

Lemma forget_one_inv c b : index_inv c -> index_inv (forget_one c b).
Proof.
  intros Hinv. unfold forget_one. destruct (by_block c !! b) as [h|] eqn:Eb; [|done].
  pose proof (proj2 (Hinv h b) Eb) as Eh. intros h' b'. simpl.
  rewrite !lookup_delete. repeat case_decide; subst; try done.
  - split; [done|]. intros Heq. apply Hinv in Heq. congruence.
  - split; [|done]. intros Heq. apply Hinv in Heq. congruence.
Qed.

(** [forget] makes the pages it is given unreachable: in a consistent index
    no hash names a forgotten page afterwards, every other entry is untouched,
    and the index stays consistent. *)
Theorem forget_removes c bs :
  index_inv c ->
  index_inv (forget c bs) /\
  forall h b, by_hash (forget c bs) !! h = Some b <-> by_hash c !! h = Some b /\ ~ (b ∈ bs).
Proof.
  unfold forget. revert c. induction bs as [|b0 bs IH]; intros c Hinv; simpl.
  { split; [done|]. intros h b. rewrite elem_of_nil. tauto. }
  destruct (IH (forget_one c b0) (forget_one_inv c b0 Hinv)) as [Hinv' Hiff].
  split; [done|]. intros h b. rewrite Hiff, not_elem_of_cons.
  enough (by_hash (forget_one c b0) !! h = Some b <-> by_hash c !! h = Some b /\ b <> b0) by tauto.
  unfold forget_one. destruct (by_block c !! b0) as [h0|] eqn:E0; simpl.
  - pose proof (proj2 (Hinv h0 b0) E0) as Eh0. rewrite lookup_delete. case_decide; subst.
    + split; [done|]. intros [Heq Hne]. congruence.
    + split; [|tauto]. intros Heq. split; [done|]. intros ->. apply Hinv in Heq. congruence.
  - split; [|tauto]. intros Heq. split; [done|]. intros ->. apply Hinv in Heq. congruence.
Qed.

Lemma forget_removes_witness :
  index_inv (insert (cache_new 1 true) [5; 6]%Z [3; 4]) /\
  (by_hash (forget (insert (cache_new 1 true) [5; 6]%Z [3; 4]) [3])
     !! hd 0%Z (block_hashes [5]%Z 1) <> Some 3).
Proof.
  assert (index_inv (insert (cache_new 1 true) [5; 6]%Z [3; 4])) as Hi.
  - apply (insert_one_inv (insert_one (cache_new 1 true) _)).
    + apply (insert_one_inv (cache_new 1 true)).
      * intros h b. cbn. rewrite !lookup_empty. done.
      * intros h'. cbn. rewrite lookup_empty. done.
    + intros h'. vm_compute. done.
  - split; [exact Hi|]. intros H.
    apply (proj2 (forget_removes _ [3] Hi)) in H as [_ H]. apply H. left.
Defined.

(** The side condition of the index is not enforced by [insert]: a page
    published under a second prompt keeps its first entry, and [forget] then
    removes only the second one, so a lookup of the first prompt still returns
    the page although its content has been given away. *)
Theorem stale_entry_survives_forget :
  exists m c' p',
    lookup (forget (insert (insert (cache_new 1 true) [5]%Z [0]) [6]%Z [0]) [0]) [5]%Z
      (mkPool 1 [1%Z] [] [] f0) = Some (m, c', p') /\ blocks m = [0].
Proof. do 3 eexists. split; vm_compute; reflexivity. Qed.

End Cache.
