(* ===== verification/Radix.v ===== *)
(** * The router's approximate prefix index ([crates/kvcache/src/radix.rs])

    A compressed trie kept in an arena: nodes refer to each other by their
    position in a vector.  Indexing out of range panics in Rust, so the walks
    return [None] for a panic; a walk also returns [None] when its fuel runs out,
    and the theorems show that neither happens. *)

From stdpp Require Import base option list numbers gmap.
From Stdlib Require Import ZArith Lia.
From S2P Require Import Prelude F64.

Module Trie.

(** ** State *)

Record Node := mkNode {
  edge : list Z;
  children : gmap Z nat;
  workers : list Z;
  last_access_ms : f64
}.

Record RadixIndex := mkIndex {
  nodes : list Node;
  min_prefix_tokens : nat;
  max_nodes : nat
}.

Definition ROOT : nat := 0.

Definition node_new (e : list Z) (now : f64) : Node := mkNode e ∅ [] now.

Definition touch (w : Z) (now : f64) (n : Node) : Node :=
  mkNode (edge n) (children n)
    (if decide (w ∈ workers n) then workers n else workers n ++ [w]) now.

Definition radix_new (min_prefix max_n : nat) : RadixIndex :=
  mkIndex [node_new [] f0] min_prefix (Nat.max max_n 1).

Definition node_count (r : RadixIndex) : nat := length (nodes r).
Definition radix_is_empty (r : RadixIndex) : bool := node_count r <=? 1.
Definition set_nodes (r : RadixIndex) (ns : list Node) : RadixIndex :=
  mkIndex ns (min_prefix_tokens r) (max_nodes r).
Definition radix_clear (r : RadixIndex) : RadixIndex := set_nodes r [node_new [] f0].

(** ** Insertion *)

Fixpoint common_prefix_len (a b : list Z) : nat :=
  match a, b with
  | x :: a', y :: b' => if decide (x = y) then S (common_prefix_len a' b') else 0
  | _, _ => 0
  end.

Definition set_children (n : Node) (cs : gmap Z nat) : Node :=
  mkNode (edge n) cs (workers n) (last_access_ms n).

(** [split]: the tail of the edge moves into a new node that inherits the
    children and the worker set. *)
Definition split (ns : list Node) (child at_ : nat) (now : f64) : option (list Node) :=
  c ← ns !! child;
  let tail_edge := drop at_ (edge c) in
  tail_first ← head tail_edge;
  let tail := mkNode tail_edge (children c) (workers c) now in
  let tail_id := length ns in
  let c' := mkNode (take at_ (edge c)) {[tail_first := tail_id]} (workers c) (last_access_ms c) in
  Some (<[child := c']> ns ++ [tail]).

(** The walk of [insert] from node [cur], [rest] being [tokens[i..]]. *)
Fixpoint insert_loop (fuel : nat) (w : Z) (now : f64) (rest : list Z) (cur : nat)
    (ns : list Node) : option (list Node) :=
  match rest, fuel with
  | [], _ => Some ns
  | _ :: _, O => None
  | first :: _, S fuel' =>
      n ← ns !! cur;
      match children n !! first with
      | None =>
          let id := length ns in
          let leaf := touch w now (node_new rest now) in
          Some (<[cur := set_children n (<[first := id]> (children n))]> ns ++ [leaf])
      | Some child =>
          c ← ns !! child;
          let common := common_prefix_len (edge c) rest in
          ns1 ← (if decide (common < length (edge c)) then split ns child common now else Some ns);
          c1 ← ns1 !! child;
          insert_loop fuel' w now (drop common rest) child (<[child := touch w now c1]> ns1)
      end
  end.

Definition insert (r : RadixIndex) (w : Z) (tokens : list Z) (now : f64) : option RadixIndex :=
  if decide (length tokens < min_prefix_tokens r \/ max_nodes r <= length (nodes r)) then Some r
  else
    root ← nodes r !! ROOT;
    ns ← insert_loop (length tokens) w now tokens ROOT (<[ROOT := touch w now root]> (nodes r));
    Some (set_nodes r ns).

(** ** Matching *)

Definition record (out : gmap Z nat) (ws : list Z) (matched : nat) : gmap Z nat :=
  foldl (fun o w => <[w := Nat.max (default 0 (o !! w)) matched]> o) out ws.

Fixpoint match_loop (fuel : nat) (ns : list Node) (rest : list Z) (cur matched : nat)
    (out : gmap Z nat) : option (gmap Z nat) :=
  n ← ns !! cur;
  let out1 := record out (workers n) matched in
  match rest, fuel with
  | [], _ => Some out1
  | _ :: _, O => None
  | first :: _, S fuel' =>
      match children n !! first with
      | None => Some out1
      | Some child =>
          c ← ns !! child;
          let common := common_prefix_len (edge c) rest in
          if decide (common < length (edge c))
          then Some (record out1 (workers c) (matched + common))
          else match_loop fuel' ns (drop common rest) child (matched + common) out1
      end
  end.

Definition match_workers (r : RadixIndex) (tokens : list Z) : option (gmap Z nat) :=
  match_loop (length tokens) (nodes r) tokens ROOT 0 ∅.

Definition match_worker (r : RadixIndex) (w : Z) (tokens : list Z) : option nat :=
  out ← match_workers r tokens; Some (default 0 (out !! w)).

(** ** Forgetting and pruning *)

Definition forget_in (w : Z) (n : Node) : Node :=
  mkNode (edge n) (children n) (filter (fun x => x <> w) (workers n)) (last_access_ms n).

Definition forget_worker (r : RadixIndex) (w : Z) : RadixIndex :=
  set_nodes r (map (forget_in w) (nodes r)).

(** The key under which [node] hangs in a map of children. *)
Definition child_key (cs : gmap Z nat) (node : nat) : option Z :=
  match list_find (fun kc => kc.2 = node) (map_to_list cs) with
  | Some (_, (k, _)) => Some k
  | None => None
  end.

Fixpoint find_parent_from (i : nat) (ns : list Node) (node : nat) : option (nat * Z) :=
  match ns with
  | [] => None
  | n :: ns' =>
      match child_key (children n) node with
      | Some k => Some (i, k)
      | None => find_parent_from (S i) ns' node
      end
  end.

Definition find_parent (ns : list Node) (node : nat) : option (nat * Z) :=
  find_parent_from 0 ns node.

Definition alter_children (ns : list Node) (i : nat) (f : gmap Z nat -> gmap Z nat) : list Node :=
  alter (fun n => set_children n (f (children n))) i ns.

Definition detach (ns : list Node) (victim : nat) : option (list Node) :=
  let ns1 := match find_parent ns victim with
             | Some (parent, key) => alter_children ns parent (delete key)
             | None => ns
             end in
  let last := length ns1 - 1 in
  if decide (victim = last) then Some (take last ns1)
  else
    let ns2 := match find_parent ns1 last with
               | Some (parent, key) => alter_children ns1 parent (<[key := victim]>)
               | None => ns1
               end in
    l ← ns2 !! last;
    Some (take last (<[victim := l]> ns2)).

Definition prunable (now ttl_ms : f64) (i : nat) (n : Node) : bool :=
  bool_decide (i <> ROOT) && bool_decide (children n = ∅) &&
  fgt (fsub now (last_access_ms n)) ttl_ms.

Fixpoint find_victim (i : nat) (now ttl_ms : f64) (ns : list Node) : option nat :=
  match ns with
  | [] => None
  | n :: ns' => if prunable now ttl_ms i n then Some i else find_victim (S i) now ttl_ms ns'
  end.

Fixpoint prune_loop (fuel : nat) (now ttl_ms : f64) (ns : list Node) (removed : nat)
    : option (list Node * nat) :=
  match find_victim 0 now ttl_ms ns, fuel with
  | None, _ => Some (ns, removed)
  | Some _, O => None
  | Some v, S fuel' =>
      ns' ← detach ns v;
      prune_loop fuel' now ttl_ms ns' (S removed)
  end.

Definition prune (r : RadixIndex) (now ttl_ms : f64) : option (RadixIndex * nat) :=
  '(ns, removed) ← prune_loop (length (nodes r)) now ttl_ms (nodes r) 0;
  Some (set_nodes r ns, removed).

(** ** Paths, the invariant and what the index claims *)

(** [path ns i p]: node [i] is reached from the root by reading [p]. *)
Inductive path (ns : list Node) : nat -> list Z -> Prop :=
  | path_root : path ns ROOT []
  | path_child i p n t j c :
      path ns i p -> ns !! i = Some n -> children n !! t = Some j -> ns !! j = Some c ->
      path ns j (p ++ edge c).

Record wf (ns : list Node) : Prop := {
  wf_root : exists r, ns !! ROOT = Some r;
  wf_edge : forall i n t j, ns !! i = Some n -> children n !! t = Some j ->
    exists c, ns !! j = Some c /\ head (edge c) = Some t;
  wf_parent : forall i n t i' n' t' j, ns !! i = Some n -> children n !! t = Some j ->
    ns !! i' = Some n' -> children n' !! t' = Some j -> i = i' /\ t = t';
  wf_root_no_parent : forall i n t, ns !! i = Some n -> children n !! t <> Some ROOT;
  wf_workers : forall i n t j c w, ns !! i = Some n -> children n !! t = Some j ->
    ns !! j = Some c -> w ∈ workers c -> w ∈ workers n
}.

(** Worker [w] is believed to hold the prefix [s]. *)
Definition held (ns : list Node) (w : Z) (s : list Z) : Prop :=
  exists i p n, path ns i p /\ ns !! i = Some n /\ w ∈ workers n /\ s `prefix_of` p.

(** ** Common prefixes *)

Lemma cpl_take a b : take (common_prefix_len a b) a = take (common_prefix_len a b) b.
Proof.
  revert b. induction a as [|x a IH]; intros [|y b]; simpl; try done.
  destruct (decide (x = y)) as [->|]; simpl; [|done]. by rewrite IH.
Qed.

Lemma cpl_le_l a b : common_prefix_len a b <= length a.
Proof.
  revert b. induction a as [|x a IH]; intros [|y b]; simpl; try lia.
  destruct (decide (x = y)); [|lia]. specialize (IH b). lia.
Qed.

Lemma cpl_le_r a b : common_prefix_len a b <= length b.
Proof.
  revert b. induction a as [|x a IH]; intros [|y b]; simpl; try lia.
  destruct (decide (x = y)); [|lia]. specialize (IH b). lia.
Qed.

Lemma cpl_diff a b x y :
  head (drop (common_prefix_len a b) a) = Some x ->
  head (drop (common_prefix_len a b) b) = Some y -> x <> y.
Proof.
  revert b. induction a as [|a0 a IH]; intros [|b0 b]; simpl; try done.
  destruct (decide (a0 = b0)); simpl; [apply IH|congruence].
Qed.

Lemma cpl_head a b t : head a = Some t -> head b = Some t -> 0 < common_prefix_len a b.
Proof.
  destruct a, b; simpl; try done. intros [= ->] [= ->]. destruct (decide (t = t)); [lia|done].
Qed.

(** The common length is the length of the longest common prefix. *)
Lemma cpl_greatest a b s :
  s `prefix_of` a -> s `prefix_of` b -> length s <= common_prefix_len a b.
Proof.
  intros [ka ->] [kb ->]. induction s as [|x s IH]; simpl; [lia|].
  destruct (decide (x = x)); [|done]. lia.
Qed.

(** ** Paths *)

Lemma path_lookup ns i p : wf ns -> path ns i p -> exists n, ns !! i = Some n.
Proof. intros Hwf Hp. destruct Hp; [apply Hwf|eauto]. Qed.

Lemma path_functional ns i p q : wf ns -> path ns i p -> path ns i q -> p = q.
Proof.
  intros Hwf Hp. revert q. induction Hp as [|i p n t j c Hp IH Hn Ht Hj]; intros q Hq.
  - inversion Hq as [|i' p' n' t' j' c' ? Hn' Ht']; subst; [done|].
    by destruct (wf_root_no_parent _ Hwf _ _ _ Hn' Ht').
  - inversion Hq as [|i' p' n' t' j' c' Hp' Hn' Ht' Hj']; subst.
    + by destruct (wf_root_no_parent _ Hwf _ _ _ Hn Ht).
    + destruct (wf_parent _ Hwf _ _ _ _ _ _ _ Hn Ht Hn' Ht') as [-> ->].
      rewrite (IH _ Hp'). congruence.
Qed.

(** Nodes with the same edges and children have the same paths. *)
Definition same_shape (n n' : Node) : Prop := edge n = edge n' /\ children n = children n'.

Lemma path_shape ns ns' i p :
  Forall2 same_shape ns ns' -> path ns i p -> path ns' i p.
Proof.
  intros Hf. induction 1 as [|i p n t j c Hp IH Hn Ht Hj]; [constructor|].
  destruct (Forall2_lookup_l _ _ _ _ _ Hf Hn) as (n' & Hn' & _ & Hcs).
  destruct (Forall2_lookup_l _ _ _ _ _ Hf Hj) as (c' & Hc' & He & _).
  rewrite He. eapply path_child; [done|done| |done]. by rewrite <- Hcs.
Qed.

Lemma same_shape_sym ns ns' : Forall2 same_shape ns ns' -> Forall2 same_shape ns' ns.
Proof. intros H. apply Forall2_flip. eapply Forall2_impl; [exact H|]. by intros ? ? [-> ->]. Qed.

(** The structural part of the invariant only depends on the shape. *)
Lemma wf_shape ns ns' :
  Forall2 same_shape ns ns' ->
  (forall i n t j c w, ns' !! i = Some n -> children n !! t = Some j ->
     ns' !! j = Some c -> w ∈ workers c -> w ∈ workers n) ->
  wf ns -> wf ns'.
Proof.
  intros Hf Hw Hwf. apply same_shape_sym in Hf.
  assert (forall i n', ns' !! i = Some n' -> exists n, ns !! i = Some n /\ same_shape n' n) as Hl.
  { intros i n' Hn'. by apply (Forall2_lookup_l _ _ _ _ _ Hf). }
  split; [| | | |done].
  - destruct (wf_root _ Hwf) as [r Hr].
    destruct (Forall2_lookup_r _ _ _ _ _ Hf Hr) as (r' & Hr' & _). eauto.
  - intros i n' t j Hn' Ht. destruct (Hl _ _ Hn') as (n & Hn & _ & Hcs). rewrite Hcs in Ht.
    destruct (wf_edge _ Hwf _ _ _ _ Hn Ht) as (c & Hc & Hh).
    destruct (Forall2_lookup_r _ _ _ _ _ Hf Hc) as (c' & Hc' & He & _).
    exists c'. by rewrite He.
  - intros i n t i' n' t' j Hn Ht Hn' Ht'.
    destruct (Hl _ _ Hn) as (m & Hm & _ & Hcs). destruct (Hl _ _ Hn') as (m' & Hm' & _ & Hcs').
    rewrite Hcs in Ht. rewrite Hcs' in Ht'. by eapply (wf_parent _ Hwf).
  - intros i n t Hn. destruct (Hl _ _ Hn) as (m & Hm & _ & ->). by eapply (wf_root_no_parent _ Hwf).
Qed.

(** ** The three elementary updates *)

Lemma upd_snoc_lookup {A} (l : list A) i x y j z :
  i < length l ->
  ((<[i := x]> l ++ [y]) !! j = Some z <->
   (j = length l /\ z = y) \/ (j = i /\ z = x) \/ (j <> i /\ l !! j = Some z)).
Proof.
  intros Hi. rewrite lookup_app_Some, length_insert, list_lookup_insert_Some. split.
  - intros [[(-> & -> & _)|[? ?]]|[Hle Hz]]; [by eauto|by eauto|].
    left. destruct (j - length l) as [|k] eqn:E; simpl in Hz; [|done]. split; [lia|congruence].
  - intros [[-> ->]|[[-> ->]|[? ?]]].
    + right. by rewrite Nat.sub_diag.
    + by left; left.
    + left; right. split; [congruence|done].
Qed.

Lemma path_app_eq (p q : list Z) : p = p ++ q -> q = [].
Proof. intros H. destruct q; [done|]. apply (f_equal length) in H. rewrite length_app in H. simpl in H. lia. Qed.

Lemma no_self_child ns i p n t :
  wf ns -> path ns i p -> ns !! i = Some n -> children n !! t <> Some i.
Proof.
  intros Hwf Hp Hn Ht.
  destruct (wf_edge _ Hwf _ _ _ _ Hn Ht) as (c & Hc & Hh).
  pose proof (path_functional _ _ _ _ Hwf Hp (path_child _ _ _ _ _ _ _ Hp Hn Ht Hc)) as He.
  apply path_app_eq in He. by rewrite He in Hh.
Qed.

Lemma touch_workers w now n w' : w' ∈ workers (touch w now n) <-> w' ∈ workers n \/ w' = w.
Proof.
  unfold touch; simpl. destruct (decide (w ∈ workers n)) as [Hin|_].
  - split; [by left|]. intros [?| ->]; done.
  - by rewrite elem_of_app, list_elem_of_singleton.
Qed.

Lemma touch_shape ns i w now n :
  ns !! i = Some n -> Forall2 same_shape ns (<[i := touch w now n]> ns).
Proof.
  intros Hn. apply Forall2_same_length_lookup_2; [by rewrite length_insert|].
  intros j x y Hx Hy. rewrite list_lookup_insert_Some in Hy.
  destruct Hy as [(-> & <- & _)|[_ Hy]]; split; simpl; congruence.
Qed.

(** [touch] on a node whose parent already has the worker. *)
Lemma touch_spec ns i w now n p :
  wf ns -> path ns i p -> ns !! i = Some n ->
  (forall k m t, ns !! k = Some m -> children m !! t = Some i -> w ∈ workers m) ->
  let ns' := <[i := touch w now n]> ns in
  wf ns' /\ (forall j q, path ns j q <-> path ns' j q) /\
  (forall w' s, held ns' w' s <-> held ns w' s \/ (w' = w /\ s `prefix_of` p)).
Proof.
  intros Hwf Hp Hn Hpar ns'. pose proof (touch_shape ns i w now n Hn) as Hsh.
  assert (forall j q, path ns j q <-> path ns' j q) as Hpath.
  { intros j q. split; apply path_shape; [done|by apply same_shape_sym]. }
  assert (i < length ns) as Hlt by by eapply lookup_lt_Some.
  split; [|split; [done|]].
  - eapply wf_shape; [exact Hsh| |done].
    intros k m t j c w' Hm Ht Hc Hw'. unfold ns' in Hm, Hc.
    rewrite list_lookup_insert_Some in Hm, Hc.
    assert (exists m0, ns !! k = Some m0 /\ children m0 !! t = Some j /\
             (forall v, v ∈ workers m0 -> v ∈ workers m)) as (m0 & Hm0 & Ht0 & Hsub).
    { destruct Hm as [(<- & <- & _)|[_ Hm]]; [|by eauto].
      exists n. split; [done|]. split; [done|]. intros v Hv. apply touch_workers. by left. }
    destruct Hc as [(<- & <- & _)|[_ Hc]].
    + apply touch_workers in Hw' as [Hw'| ->].
      * apply Hsub. by eapply (wf_workers _ Hwf).
      * apply Hsub. by eapply Hpar.
    + apply Hsub. by eapply (wf_workers _ Hwf).
  - intros w' s. split.
    + intros (j & q & m & Hq & Hm & Hw & Hs). apply Hpath in Hq. unfold ns' in Hm.
      rewrite list_lookup_insert_Some in Hm. destruct Hm as [(<- & <- & _)|[_ Hm]].
      * apply touch_workers in Hw as [Hw| ->]; [left; by exists i, q, n|].
        right. split; [done|]. by rewrite <- (path_functional _ _ _ _ Hwf Hq Hp).
      * left. by exists j, q, m.
    + intros [(j & q & m & Hq & Hm & Hw & Hs)|[-> Hs]].
      * destruct (decide (j = i)) as [->|Hne].
        -- exists i, q, (touch w now n). split; [by apply Hpath|]. simplify_eq.
           split; [by apply list_lookup_insert_eq|]. split; [apply touch_workers; by left|done].
        -- exists j, q, m. split; [by apply Hpath|]. unfold ns'. by rewrite list_lookup_insert_ne by done.
      * exists i, p, (touch w now n). split; [by apply Hpath|].
        split; [by apply list_lookup_insert_eq|]. split; [apply touch_workers; by right|done].
Qed.

Section leaf.
Context (ns : list Node) (cur : nat) (n : Node) (p rest : list Z) (first w : Z) (now : f64).
Context (Hwf : wf ns) (Hp : path ns cur p) (Hn : ns !! cur = Some n)
  (Hrest : head rest = Some first) (Hno : children n !! first = None) (Hw : w ∈ workers n).

Let leaf := touch w now (node_new rest now).
Let n' := set_children n (<[first := length ns]> (children n)).
Let ns' := <[cur := n']> ns ++ [leaf].

Lemma leaf_lookup j z :
  ns' !! j = Some z <->
  (j = length ns /\ z = leaf) \/ (j = cur /\ z = n') \/ (j <> cur /\ ns !! j = Some z).
Proof. apply upd_snoc_lookup. by eapply lookup_lt_Some. Qed.

Lemma leaf_old i z : ns !! i = Some z ->
  exists z', ns' !! i = Some z' /\ edge z' = edge z /\ workers z' = workers z /\
    (forall t j, children z !! t = Some j -> children z' !! t = Some j).
Proof.
  intros Hz. destruct (decide (i = cur)) as [->|Hne].
  - assert (z = n) as -> by congruence. exists n'. split; [apply leaf_lookup; by right; left|].
    split; [done|]. split; [done|]. intros t j Ht. unfold n'; simpl.
    rewrite lookup_insert_ne; [done|]. intros <-. congruence.
  - exists z. split; [apply leaf_lookup; by right; right|]. done.
Qed.

Lemma leaf_path_fwd i q : path ns i q -> path ns' i q.
Proof.
  induction 1 as [|i q m t j c Hq IH Hm Ht Hc]; [constructor|].
  destruct (leaf_old _ _ Hm) as (m' & Hm' & _ & _ & Hcs).
  destruct (leaf_old _ _ Hc) as (c' & Hc' & He & _ & _).
  rewrite <- He. eapply path_child; eauto.
Qed.

(** Where an edge of the new arena comes from. *)
Lemma leaf_edge i m t j : ns' !! i = Some m -> children m !! t = Some j ->
  (i = cur /\ t = first /\ j = length ns) \/
  (exists m0, ns !! i = Some m0 /\ children m0 !! t = Some j /\ workers m0 = workers m /\
     j < length ns /\ j <> ROOT).
Proof.
  rewrite leaf_lookup. intros [[-> ->]|[[-> ->]|[Hne Hm]]] Ht.
  - done.
  - unfold n' in Ht; simpl in Ht. destruct (decide (t = first)) as [->|Hne].
    + rewrite lookup_insert_eq in Ht. left. split; [done|]. split; [done|congruence].
    + rewrite lookup_insert_ne in Ht by done. right. exists n. split; [done|]. split; [done|].
      split; [done|]. destruct (wf_edge _ Hwf _ _ _ _ Hn Ht) as (c & Hc & _).
      split; [by eapply lookup_lt_Some|]. intros ->. by apply (wf_root_no_parent _ Hwf _ _ _ Hn Ht).
  - right. exists m. split; [done|]. split; [done|]. split; [done|].
    destruct (wf_edge _ Hwf _ _ _ _ Hm Ht) as (c & Hc & _).
    split; [by eapply lookup_lt_Some|]. intros ->. by apply (wf_root_no_parent _ Hwf _ _ _ Hm Ht).
Qed.

Lemma leaf_new_lookup i z : ns' !! i = Some z -> i < length ns ->
  exists z0, ns !! i = Some z0 /\ edge z0 = edge z /\ workers z0 = workers z.
Proof.
  rewrite leaf_lookup. intros [[-> ->]|[[-> ->]|[_ Hz]]] Hlt; [lia| |by eauto].
  by exists n.
Qed.

Lemma leaf_path_bwd i q : path ns' i q ->
  (i = length ns /\ q = p ++ rest) \/ (i < length ns /\ path ns i q).
Proof.
  induction 1 as [|i q m t j c Hq IH Hm Ht Hc].
  { right. split; [|constructor]. destruct (wf_root _ Hwf) as [r Hr]. by eapply lookup_lt_Some. }
  destruct (leaf_edge _ _ _ _ Hm Ht) as [(-> & -> & ->)|(m0 & Hm0 & Ht0 & _ & Hj & _)].
  - left. split; [done|]. destruct IH as [[Hi _]|[_ Hq']].
    { apply lookup_lt_Some in Hn. lia. }
    rewrite (path_functional _ _ _ _ Hwf Hq' Hp). f_equal.
    apply leaf_lookup in Hc as [[_ ->]|[[Hc _]|[_ Hc]]]; [done| |].
    + apply lookup_lt_Some in Hn. lia.
    + apply lookup_lt_Some in Hc. lia.
  - right. split; [done|]. destruct (leaf_new_lookup _ _ Hc Hj) as (c0 & Hc0 & <- & _).
    destruct IH as [[-> _]|[_ Hq']]; [apply lookup_lt_Some in Hm0; lia|].
    by eapply path_child.
Qed.

Lemma leaf_wf : wf ns'.
Proof.
  split.
  - destruct (wf_root _ Hwf) as [r Hr]. destruct (leaf_old _ _ Hr) as (r' & ? & _). eauto.
  - intros i m t j Hm Ht.
    destruct (leaf_edge _ _ _ _ Hm Ht) as [(-> & -> & ->)|(m0 & Hm0 & Ht0 & _ & Hj & _)].
    + exists leaf. split; [apply leaf_lookup; by left|done].
    + destruct (wf_edge _ Hwf _ _ _ _ Hm0 Ht0) as (c & Hc & Hh).
      destruct (leaf_old _ _ Hc) as (c' & Hc' & He & _). exists c'. by rewrite He.
  - intros i m t i' m' t' j Hm Ht Hm' Ht'.
    destruct (leaf_edge _ _ _ _ Hm Ht) as [(-> & -> & ->)|(m0 & Hm0 & Ht0 & _ & Hj & _)],
      (leaf_edge _ _ _ _ Hm' Ht') as [(-> & -> & ?)|(m0' & Hm0' & Ht0' & _ & Hj' & _)];
      [done|lia|lia|]. by eapply (wf_parent _ Hwf).
  - intros i m t Hm Ht.
    destruct (leaf_edge _ _ _ _ Hm Ht) as [(-> & -> & Hr)|(_ & _ & _ & _ & _ & Hr)]; [|done].
    destruct (wf_root _ Hwf) as [r Hr']. apply lookup_lt_Some in Hr'. unfold ROOT in *. lia.
  - intros i m t j c v Hm Ht Hc Hv.
    destruct (leaf_edge _ _ _ _ Hm Ht) as [(-> & -> & ->)|(m0 & Hm0 & Ht0 & <- & Hj & _)].
    + apply leaf_lookup in Hc as [[_ ->]|[[Hc _]|[_ Hc]]].
      * apply touch_workers in Hv as [Hv| ->]; [by apply not_elem_of_nil in Hv|].
        apply leaf_lookup in Hm as [[Hm _]|[[_ ->]|[? _]]]; [|done|done].
        apply lookup_lt_Some in Hn. lia.
      * apply lookup_lt_Some in Hn. lia.
      * apply lookup_lt_Some in Hc. lia.
    + destruct (leaf_new_lookup _ _ Hc Hj) as (c0 & Hc0 & _ & Hws). rewrite <- Hws in Hv.
      by eapply (wf_workers _ Hwf).
Qed.

Lemma leaf_held w' s :
  held ns' w' s <-> held ns w' s \/ (w' = w /\ s `prefix_of` p ++ rest).
Proof.
  split.
  - intros (i & q & m & Hq & Hm & Hv & Hs).
    destruct (leaf_path_bwd _ _ Hq) as [[-> ->]|[Hi Hq']].
    + right. apply leaf_lookup in Hm as [[_ ->]|[[Hm _]|[_ Hm]]].
      * apply touch_workers in Hv as [Hv| ->]; [by apply not_elem_of_nil in Hv|done].
      * apply lookup_lt_Some in Hn. lia.
      * apply lookup_lt_Some in Hm. lia.
    + left. destruct (leaf_new_lookup _ _ Hm Hi) as (m0 & Hm0 & _ & Hws).
      exists i, q, m0. by rewrite Hws.
  - intros [(i & q & m & Hq & Hm & Hv & Hs)|[-> Hs]].
    + destruct (leaf_old _ _ Hm) as (m' & Hm' & _ & Hws & _).
      exists i, q, m'. rewrite Hws. split; [by apply leaf_path_fwd|done].
    + exists (length ns), (p ++ rest), leaf. split.
      * change rest with (edge leaf).
        eapply (path_child _ cur p n' first); [by apply leaf_path_fwd| | |].
        -- apply leaf_lookup. by right; left.
        -- apply lookup_insert_eq.
        -- apply leaf_lookup. by left.
      * split; [apply leaf_lookup; by left|]. split; [|done].
        apply touch_workers. by right.
Qed.
End leaf.

Section splitting.
Context (ns : list Node) (cur child at_ : nat) (n c : Node) (p : list Z) (first tf : Z) (now : f64).
Context (Hwf : wf ns) (Hp : path ns cur p) (Hn : ns !! cur = Some n)
  (Hchild : children n !! first = Some child) (Hc : ns !! child = Some c)
  (Hat : 0 < at_) (Htf : head (drop at_ (edge c)) = Some tf).

Let tail := mkNode (drop at_ (edge c)) (children c) (workers c) now.
Let c' := mkNode (take at_ (edge c)) {[tf := length ns]} (workers c) (last_access_ms c).
Let ns' := <[child := c']> ns ++ [tail].

Lemma split_eq : split ns child at_ now = Some ns'.
Proof. unfold split. rewrite Hc. simpl. by rewrite Htf. Qed.

Lemma split_child_lt : child < length ns.
Proof. by eapply lookup_lt_Some. Qed.

Lemma split_child_path : path ns child (p ++ edge c).
Proof. by eapply path_child. Qed.

Lemma split_child_root : child <> ROOT.
Proof. intros ->. by apply (wf_root_no_parent _ Hwf _ _ _ Hn Hchild). Qed.

Lemma split_lookup j z :
  ns' !! j = Some z <->
  (j = length ns /\ z = tail) \/ (j = child /\ z = c') \/ (j <> child /\ ns !! j = Some z).
Proof. apply upd_snoc_lookup, split_child_lt. Qed.

(** The edges of the new arena. *)
Lemma split_edge i m t j : ns' !! i = Some m -> children m !! t = Some j ->
  (i = child /\ m = c' /\ t = tf /\ j = length ns) \/
  (exists i0 m0, ns !! i0 = Some m0 /\ children m0 !! t = Some j /\ workers m0 = workers m /\
     i = (if decide (i0 = child) then length ns else i0) /\ j < length ns /\ j <> ROOT).
Proof.
  assert (forall i m t j, ns !! i = Some m -> children m !! t = Some j -> j < length ns /\ j <> ROOT)
    as Hold.
  { intros i0 m0 t0 j0 Hm0 Ht0. destruct (wf_edge _ Hwf _ _ _ _ Hm0 Ht0) as (d & Hd & _).
    split; [by eapply lookup_lt_Some|]. intros ->. by apply (wf_root_no_parent _ Hwf _ _ _ Hm0 Ht0). }
  rewrite split_lookup. intros [[-> ->]|[[-> ->]|[Hne Hm]]] Ht.
  - right. exists child, c. destruct (decide (child = child)) as [_|]; [|done].
    pose proof (Hold _ _ _ _ Hc Ht). done.
  - left. unfold c' in Ht; simpl in Ht. apply lookup_singleton_Some in Ht as [<- <-]. done.
  - right. exists i, m. rewrite decide_False by done. pose proof (Hold _ _ _ _ Hm Ht). done.
Qed.

Lemma split_old j z : ns' !! j = Some z -> j < length ns ->
  exists z0, ns !! j = Some z0 /\ workers z0 = workers z /\ head (edge z0) = head (edge z) /\
    (j <> child -> z0 = z).
Proof.
  rewrite split_lookup. intros [[-> ->]|[[-> ->]|[Hne Hz]]] Hlt; [lia| |by eauto].
  exists c. split; [done|]. split; [done|]. split; [|done]. unfold c'; simpl.
  destruct at_; [lia|]. by destruct (edge c).
Qed.

Lemma split_wf : wf ns'.
Proof.
  split.
  - destruct (wf_root _ Hwf) as [r Hr]. exists r. apply split_lookup. right; right.
    split; [pose proof split_child_root; congruence|done].
  - intros i m t j Hm Ht.
    destruct (split_edge _ _ _ _ Hm Ht) as [(-> & -> & -> & ->)|(i0 & m0 & Hm0 & Ht0 & _ & _ & Hj & _)].
    + exists tail. split; [apply split_lookup; by left|done].
    + destruct (wf_edge _ Hwf _ _ _ _ Hm0 Ht0) as (d & Hd & Hh).
      destruct (decide (j = child)) as [->|Hne].
      * exists c'. split; [apply split_lookup; by right; left|].
        assert (d = c) as -> by congruence. unfold c'; simpl.
        destruct at_; [lia|]. by destruct (edge c).
      * exists d. split; [apply split_lookup; by right; right|done].
  - intros i m t i' m' t' j Hm Ht Hm' Ht'.
    destruct (split_edge _ _ _ _ Hm Ht) as [(-> & -> & -> & ->)|(i0 & m0 & Hm0 & Ht0 & _ & -> & Hj & _)],
      (split_edge _ _ _ _ Hm' Ht') as [(-> & -> & -> & ?)|(i1 & m1 & Hm1 & Ht1 & _ & -> & Hj' & _)];
      [done|lia|lia|].
    by destruct (wf_parent _ Hwf _ _ _ _ _ _ _ Hm0 Ht0 Hm1 Ht1) as [-> ->].
  - intros i m t Hm Ht.
    destruct (split_edge _ _ _ _ Hm Ht) as [(_ & _ & _ & Hr)|(_ & _ & _ & _ & _ & _ & _ & Hr)]; [|done].
    pose proof split_child_lt. unfold ROOT in *. lia.
  - intros i m t j d v Hm Ht Hd Hv.
    destruct (split_edge _ _ _ _ Hm Ht) as [(-> & -> & -> & ->)|(i0 & m0 & Hm0 & Ht0 & <- & _ & Hj & _)].
    + apply split_lookup in Hd as [[_ ->]|[[Hd _]|[_ Hd]]]; [done| |].
      * pose proof split_child_lt. lia.
      * apply lookup_lt_Some in Hd. lia.
    + destruct (split_old _ _ Hd Hj) as (d0 & Hd0 & Hws & _). rewrite <- Hws in Hv.
      by apply (wf_workers _ Hwf i0 m0 t j d0).
Qed.

Lemma split_path_fwd i q : path ns i q ->
  path ns' (if decide (i = child) then length ns else i) q /\
  (i = child -> path ns' child (p ++ take at_ (edge c))).
Proof.
  induction 1 as [|i q m t j d Hq [IH _] Hm Ht Hd].
  { pose proof split_child_root. rewrite decide_False by congruence.
    split; [constructor|congruence]. }
  set (r := if decide (i = child) then length ns else i) in *.
  assert (exists m', ns' !! r = Some m' /\ children m' = children m) as (m' & Hm' & Hcs).
  { unfold r. destruct (decide (i = child)) as [->|Hne].
    - exists tail. split; [apply split_lookup; by left|]. simpl. congruence.
    - exists m. split; [apply split_lookup; by right; right|done]. }
  rewrite <- Hcs in Ht.
  destruct (decide (j = child)) as [->|Hne].
  - assert (path ns' child (q ++ take at_ (edge c))) as Hpc.
    { change (take at_ (edge c)) with (edge c'). eapply path_child; [done|done|done|].
      apply split_lookup. by right; left. }
    assert (d = c) as -> by congruence. rewrite Hcs in Ht.
    destruct (wf_parent _ Hwf _ _ _ _ _ _ _ Hm Ht Hn Hchild) as [-> ->].
    assert (q = p) as ->.
    { by apply (path_functional ns cur). }
    split; [|done]. rewrite <- (take_drop at_ (edge c)) at 1. rewrite app_assoc.
    change (drop at_ (edge c)) with (edge tail).
    eapply (path_child _ child _ c' tf); [done| | |].
    + apply split_lookup. by right; left.
    + apply lookup_singleton_eq.
    + apply split_lookup. by left.
  - split; [|done]. eapply path_child; [exact IH|done|done|].
    apply split_lookup. by right; right.
Qed.

Lemma split_path_bwd i q : path ns' i q ->
  (i = length ns -> path ns child q) /\
  (i = child -> q = p ++ take at_ (edge c)) /\
  (i <> length ns -> i <> child -> path ns i q).
Proof.
  induction 1 as [|i q m t j d Hq (IH1 & IH2 & IH3) Hm Ht Hd].
  { pose proof split_child_root. pose proof split_child_lt. unfold ROOT in *.
    split; [lia|]. split; [congruence|]. intros. constructor. }
  destruct (split_edge _ _ _ _ Hm Ht)
    as [(-> & -> & -> & ->)|(i0 & m0 & Hm0 & Ht0 & Hws & Hi & Hj & Hr)].
  - split; [|split; [pose proof split_child_lt; lia|done]]. intros _.
    rewrite IH2 by done.
    apply split_lookup in Hd as [[_ ->]|[[Hd _]|[_ Hd]]].
    + simpl. rewrite <- app_assoc, take_drop. apply split_child_path.
    + pose proof split_child_lt. lia.
    + apply lookup_lt_Some in Hd. lia.
  - split; [lia|]. assert (path ns i0 q) as Hq0.
    { destruct (decide (i0 = child)) as [->|]; [by apply IH1|].
      rewrite <- Hi. apply IH3; [apply lookup_lt_Some in Hm0; lia|congruence]. }
    split.
    + intros ->. destruct (wf_parent _ Hwf _ _ _ _ _ _ _ Hm0 Ht0 Hn Hchild) as [-> ->].
      rewrite (path_functional _ _ _ _ Hwf Hq0 Hp). f_equal.
      apply split_lookup in Hd as [[Hd _]|[[_ ->]|[Hd _]]]; [|done|done].
      pose proof split_child_lt. lia.
    + intros _ Hne. destruct (split_old _ _ Hd Hj) as (d0 & Hd0 & _ & _ & Heq).
      rewrite <- Heq by done. by eapply path_child.
Qed.

Lemma split_held w s : held ns' w s <-> held ns w s.
Proof.
  split.
  - intros (i & q & m & Hq & Hm & Hw & Hs).
    destruct (split_path_bwd _ _ Hq) as (H1 & H2 & H3).
    apply split_lookup in Hm as [[-> ->]|[[-> ->]|[Hne Hm]]].
    + exists child, q, c. by split; [apply H1|].
    + exists child, (p ++ edge c), c. split; [apply split_child_path|]. split; [done|].
      split; [done|]. rewrite (H2 eq_refl) in Hs.
      etransitivity; [exact Hs|]. apply prefix_app. exists (drop at_ (edge c)).
      by rewrite take_drop.
    + exists i, q, m. split; [|done]. apply H3; [apply lookup_lt_Some in Hm; lia|done].
  - intros (i & q & m & Hq & Hm & Hw & Hs).
    destruct (split_path_fwd _ _ Hq) as [Hq' _]. destruct (decide (i = child)) as [->|Hne].
    + exists (length ns), q, tail. split; [done|]. split; [apply split_lookup; by left|].
      split; [|done]. simpl. congruence.
    + exists i, q, m. split; [done|]. split; [apply split_lookup; by right; right|done].
Qed.
End splitting.

(** ** Insertion *)

(** Descending into the only parent's child keeps the worker. *)
Lemma sole_parent ns cur n first child w :
  wf ns -> ns !! cur = Some n -> children n !! first = Some child -> w ∈ workers n ->
  forall k m t, ns !! k = Some m -> children m !! t = Some child -> w ∈ workers m.
Proof.
  intros Hwf Hn Hch Hw k m t Hm Ht.
  destruct (wf_parent _ Hwf _ _ _ _ _ _ _ Hm Ht Hn Hch) as [-> _]. congruence.
Qed.

(** The first half of a round of the walk: reach [child], split if needed. *)
Lemma descend_spec ns cur n p first child c rest now w :
  wf ns -> path ns cur p -> ns !! cur = Some n -> w ∈ workers n ->
  head rest = Some first -> children n !! first = Some child -> ns !! child = Some c ->
  let common := common_prefix_len (edge c) rest in
  exists ns1 c1, (if decide (common < length (edge c)) then split ns child common now else Some ns) = Some ns1 /\
    wf ns1 /\ path ns1 child (p ++ take common rest) /\ ns1 !! child = Some c1 /\
    (forall k m t, ns1 !! k = Some m -> children m !! t = Some child -> w ∈ workers m) /\
    (forall w' s, held ns1 w' s <-> held ns w' s) /\
    length ns <= length ns1 <= S (length ns) /\
    (length ns1 = S (length ns) ->
      forall t, head (drop common rest) = Some t -> children c1 !! t = None).
Proof.
  intros Hwf Hp Hn Hw Hrest Hch Hc common.
  destruct (wf_edge _ Hwf _ _ _ _ Hn Hch) as (c0 & Hc0 & Hh).
  assert (c0 = c) as -> by congruence.
  pose proof (cpl_head _ _ _ Hh Hrest) as Hpos. fold common in Hpos.
  pose proof (cpl_take (edge c) rest) as Htake. fold common in Htake.
  destruct (decide (common < length (edge c))) as [Hlt|Hge].
  - destruct (head (drop common (edge c))) as [tf|] eqn:Htf.
    2: { apply (f_equal length) in Htake. exfalso. revert Htf.
         destruct (drop common (edge c)) eqn:E; [|done].
         apply (f_equal length) in E. rewrite length_drop in E. simpl in E. lia. }
    pose proof (split_wf ns cur child common n c first tf now Hwf Hn Hch Hc Hpos Htf) as Hwf1.
    assert (cur <> child) as Hne.
    { intros ->. by apply (no_self_child ns child p n first Hwf Hp Hn). }
    assert (child < length ns) as Hcl by by eapply lookup_lt_Some.
    do 2 eexists. split; [by apply split_eq|]. split; [exact Hwf1|]. split; [|split; [|split; [|split]]].
    + rewrite <- Htake. eapply split_path_fwd; [done..| |done].
      exact (split_child_path ns cur child n c p first Hp Hn Hch Hc).
    + apply upd_snoc_lookup; [done|]. right; left. done.
    + eapply sole_parent; [exact Hwf1| |exact Hch|done].
      apply upd_snoc_lookup; [done|]. by right; right.
    + intros w' s. by apply (split_held ns cur child common n c p first tf now).
    + rewrite length_app, length_insert. simpl. split; [lia|].
      intros _ t Ht. apply lookup_singleton_ne. by eapply cpl_diff.
  - exists ns, c. split; [done|]. split; [done|]. split.
    { rewrite <- Htake. rewrite take_ge by lia. by eapply path_child. }
    split; [done|]. split; [exact (sole_parent _ _ _ _ _ _ Hwf Hn Hch Hw)|].
    split; [done|]. split; lia.
Qed.

Lemma insert_loop_spec fuel w now : forall rest cur ns p n,
  wf ns -> path ns cur p -> ns !! cur = Some n -> w ∈ workers n -> length rest <= fuel ->
  exists ns', insert_loop fuel w now rest cur ns = Some ns' /\ wf ns' /\
    (forall w' s, held ns' w' s <-> held ns w' s \/ (w' = w /\ s `prefix_of` p ++ rest)) /\
    length ns <= length ns' <= length ns + 2 /\
    ((forall t, head rest = Some t -> children n !! t = None) -> length ns' <= S (length ns)).
Proof.
  induction fuel as [|fuel IH]; intros rest cur ns p n Hwf Hp Hn Hw Hfuel.
  all: destruct rest as [|first rest]; simpl in Hfuel; try lia; simpl.
  1,2: exists ns; split; [done|]; split; [done|]; split; [|lia];
    rewrite app_nil_r; intros w' s; split; [by left|];
    intros [?|[-> Hs]]; [done|]; by exists cur, p, n.
  rewrite Hn. simpl. destruct (children n !! first) as [child|] eqn:Hch.
  2: { eexists. split; [done|]. split; [by eapply leaf_wf|].
       split; [intros w' s; by eapply leaf_held|]. rewrite length_app, length_insert; simpl. lia. }
  destruct (wf_edge _ Hwf _ _ _ _ Hn Hch) as (c & Hc & Hh). rewrite Hc. simpl.
  destruct (descend_spec ns cur n p first child c (first :: rest) now w Hwf Hp Hn Hw eq_refl Hch Hc)
    as (ns1 & c1 & -> & Hwf1 & Hp1 & Hc1 & Hpar1 & Hheld1 & Hlen1 & Hsplit). simpl.
  rewrite Hc1. simpl.
  pose proof (cpl_head _ (first :: rest) _ Hh eq_refl) as Hpos.
  set (common := common_prefix_len (edge c) (first :: rest)) in *.
  destruct (touch_spec ns1 child w now c1 _ Hwf1 Hp1 Hc1 Hpar1) as (Hwf2 & Hp2 & Hheld2).
  destruct (IH (drop common (first :: rest)) child (<[child:=touch w now c1]> ns1)
    (p ++ take common (first :: rest)) (touch w now c1)) as (ns' & -> & Hwf' & Hheld' & Hlen' & Hleaf).
  - done.
  - by apply Hp2.
  - apply list_lookup_insert_eq. by eapply lookup_lt_Some.
  - apply touch_workers. by right.
  - rewrite length_drop. simpl. lia.
  - rewrite length_insert in Hlen', Hleaf. simpl in Hleaf.
    exists ns'. split; [done|]. split; [done|]. split; [|split].
    + intros w' s. rewrite Hheld', Hheld2, Hheld1, <- app_assoc, take_drop.
      split; [|tauto]. intros [[?|[-> Hs]]|?]; [by left| |by right]. right. split; [done|].
      etransitivity; [exact Hs|]. apply prefix_app. exists (drop common (first :: rest)).
      by rewrite take_drop.
    + destruct (decide (length ns1 = S (length ns))) as [E|]; [|lia].
      specialize (Hleaf (Hsplit E)). lia.
    + intros Hno. rewrite (Hno first eq_refl) in Hch. done.
Qed.

(** ** Matching *)

Lemma record_lookup ws m out w :
  record out ws m !! w =
    (if decide (w ∈ ws) then Some (Nat.max (default 0 (out !! w)) m) else out !! w).
Proof.
  unfold record. revert out. induction ws as [|v ws IH]; intros out; cbn [foldl].
  { by rewrite decide_False by apply not_elem_of_nil. }
  rewrite IH. destruct (decide (w = v)) as [->|Hne].
  - rewrite lookup_insert_eq, (decide_True (P := v ∈ v :: ws)) by left. cbn [default from_option].
    destruct (decide (v ∈ ws)); simpl; [f_equal; lia|done].
  - rewrite lookup_insert_ne by done.
    destruct (decide (w ∈ ws)), (decide (w ∈ v :: ws)) as [|Hn]; try done.
    + exfalso. apply Hn. by right.
    + by rewrite elem_of_cons in e; destruct e.
Qed.

(** Reading [q] downwards from node [i]. *)
Inductive desc (ns : list Node) : nat -> list Z -> nat -> Prop :=
  | desc_refl i : desc ns i [] i
  | desc_step i n t j c q k :
      ns !! i = Some n -> children n !! t = Some j -> ns !! j = Some c ->
      desc ns j q k -> desc ns i (edge c ++ q) k.

Lemma desc_snoc ns i q j n t k c :
  desc ns i q j -> ns !! j = Some n -> children n !! t = Some k -> ns !! k = Some c ->
  desc ns i (q ++ edge c) k.
Proof.
  induction 1 as [i|i m u i' c' q j Hm Hu Hi' Hd IH]; intros Hn Ht Hc.
  - rewrite app_nil_l, <- (app_nil_r (edge c)). econstructor; [done|done|done|constructor].
  - rewrite <- app_assoc. econstructor; [done|done|done|by apply IH].
Qed.

Lemma path_desc ns i p : path ns i p <-> desc ns ROOT p i.
Proof.
  split.
  - induction 1; [constructor|]. by eapply desc_snoc.
  - intros Hd. assert (forall r, path ns ROOT r -> path ns i (r ++ p)) as H.
    { induction Hd as [i|i m u i' c' q j Hm Hu Hi' Hd IH]; intros r Hr.
      - by rewrite app_nil_r.
      - rewrite app_assoc. apply IH. by eapply path_child. }
    apply (H []). constructor.
Qed.

Definition held_from (ns : list Node) (i : nat) (w : Z) (s : list Z) : Prop :=
  exists j q m, desc ns i q j /\ ns !! j = Some m /\ w ∈ workers m /\ s `prefix_of` q.

(** [k] tokens of [tokens] is how far [w]'s claims reach from node [i]. *)
Definition claims_from (ns : list Node) (i : nat) (w : Z) (tokens : list Z) (k : nat) : Prop :=
  k <= length tokens /\ held_from ns i w (take k tokens) /\
  forall k', k' <= length tokens -> held_from ns i w (take k' tokens) -> k' <= k.

Lemma desc_workers ns i q j n m w :
  wf ns -> desc ns i q j -> ns !! i = Some n -> ns !! j = Some m ->
  w ∈ workers m -> w ∈ workers n.
Proof.
  intros Hwf Hd. revert n. induction Hd as [i|i n0 t j c q k Hn Ht Hc Hd IH]; intros n Hi Hk Hw.
  - congruence.
  - assert (n0 = n) as -> by congruence. eapply (wf_workers _ Hwf); [done|done|done|].
    by eapply IH.
Qed.

Lemma prefix_app_inv_cases (a b s : list Z) :
  s `prefix_of` a ++ b -> s `prefix_of` a \/ exists s', s = a ++ s' /\ s' `prefix_of` b.
Proof.
  revert s. induction a as [|x a IH]; intros s Hs; simpl in *; [by right; exists s|].
  destruct s as [|y s]; [left; apply prefix_nil|].
  pose proof (prefix_cons_inv_1 _ _ _ _ Hs) as ->.
  apply prefix_cons_inv_2 in Hs. destruct (IH _ Hs) as [H|(s' & -> & H)].
  - left. by apply prefix_cons.
  - right. by exists s'.
Qed.

Lemma held_from_inv ns i n w t s :
  wf ns -> ns !! i = Some n -> held_from ns i w (t :: s) ->
  exists j c, children n !! t = Some j /\ ns !! j = Some c /\ w ∈ workers c /\
    ((t :: s) `prefix_of` edge c \/ exists s', t :: s = edge c ++ s' /\ held_from ns j w s').
Proof.
  intros Hwf Hn (k & q & m & Hd & Hm & Hw & Hs).
  destruct Hd as [i|i n0 u j c q k Hn0 Hu Hc Hd]; [by destruct Hs|].
  assert (n0 = n) as -> by congruence.
  destruct (wf_edge _ Hwf _ _ _ _ Hn Hu) as (c0 & Hc0 & Hh).
  assert (c0 = c) as -> by congruence.
  assert (u = t) as ->.
  { destruct Hs as [z Hz]. destruct (edge c); simpl in *; congruence. }
  exists j, c. split; [done|]. split; [done|]. split; [by eapply desc_workers|].
  apply prefix_app_inv_cases in Hs as [Hs|(s' & Hs' & Hq)]; [by left|].
  right. exists s'. split; [done|]. by exists k, q, m.
Qed.

Section matching.
Context (ns : list Node) (Hwf : wf ns).

Lemma claims_zero i n w rest :
  ns !! i = Some n -> w ∈ workers n ->
  (forall k', 0 < k' -> k' <= length rest -> ~ held_from ns i w (take k' rest)) ->
  claims_from ns i w rest 0.
Proof.
  intros Hn Hw Hno. split; [lia|]. split.
  - exists i, [], n. split; [constructor|]. split; [done|]. split; [done|]. by rewrite take_0.
  - intros k' Hk' Hh. destruct k'; [done|]. destruct (Hno (S k')); [lia|done|done].
Qed.

(** Nothing further is held below a node without the child, or by a worker
    absent from it. *)
Lemma claims_no_child i n w first rest :
  ns !! i = Some n -> w ∈ workers n ->
  (forall j c, children n !! first = Some j -> ns !! j = Some c -> ~ w ∈ workers c) ->
  claims_from ns i w (first :: rest) 0.
Proof.
  intros Hn Hw Hno. eapply claims_zero; [done|done|]. intros k' Hpos _ Hh.
  destruct k'; [lia|]. simpl in Hh.
  destruct (held_from_inv _ _ _ _ _ _ Hwf Hn Hh) as (j & c & Hj & Hc & Hwc & _).
  by eapply Hno.
Qed.

Context (i j : nat) (n c : Node) (first : Z) (rest : list Z).
Context (Hn : ns !! i = Some n) (Hj : children n !! first = Some j) (Hc : ns !! j = Some c).
Let tokens := first :: rest.
Let common := common_prefix_len (edge c) tokens.

Lemma claims_partial w :
  w ∈ workers c -> common < length (edge c) -> claims_from ns i w tokens common.
Proof.
  intros Hw Hlt. split; [apply cpl_le_r|]. split.
  - exists j, (edge c), c. split; [|split; [done|split; [done|]]].
    + rewrite <- (app_nil_r (edge c)). by econstructor; [..|constructor].
    + unfold common. rewrite <- cpl_take. apply prefix_take.
  - intros [|k'] Hk' Hh; [lia|]. unfold tokens in Hh. simpl in Hh.
    destruct (held_from_inv _ _ _ _ _ _ Hwf Hn Hh) as (j' & c' & Hj' & Hc' & _ & Hor).
    assert (j' = j) as -> by congruence. assert (c' = c) as -> by congruence.
    assert (take (S k') tokens = first :: take k' rest) as Htk by done.
    rewrite <- Htk in Hor. destruct Hor as [Hs|(s' & Hs' & _)].
    + replace (S k') with (length (take (S k') tokens)) by (rewrite length_take; lia).
      apply cpl_greatest; [done|apply prefix_take].
    + exfalso. assert (length (edge c) <= common); [|lia].
      apply cpl_greatest; [done|]. etransitivity; [|apply prefix_take]. rewrite Hs'.
      by apply prefix_app_r.
Qed.

Lemma claims_full w k :
  common = length (edge c) -> claims_from ns j w (drop common tokens) k ->
  claims_from ns i w tokens (common + k).
Proof.
  intros Hfull (Hk & (x & q & m & Hd & Hm & Hw & Hs) & Hmax).
  rewrite length_drop in Hk, Hmax.
  pose proof (cpl_le_r (edge c) tokens) as Hle. fold common in Hle.
  assert (take common tokens = edge c) as Htake.
  { unfold common. rewrite <- cpl_take. fold common. by rewrite take_ge by lia. }
  assert (forall z, take (common + z) tokens = edge c ++ take z (drop common tokens)) as Hsplit.
  { intros z. rewrite <- Htake, take_take_drop. done. }
  split; [lia|]. split.
  - exists x, (edge c ++ q), m. split; [by econstructor|]. split; [done|]. split; [done|].
    rewrite Hsplit. by apply prefix_app.
  - intros k' Hk' Hh. destruct (decide (k' <= common)) as [|Hgt]; [lia|].
    replace k' with (common + (k' - common)) by lia.
    enough (k' - common <= k) by lia. apply Hmax; [lia|].
    replace k' with (common + (k' - common)) in Hh by lia. rewrite Hsplit in Hh.
    destruct (wf_edge _ Hwf _ _ _ _ Hn Hj) as (c' & Hc' & Hhead).
    assert (c' = c) as -> by congruence.
    destruct (edge c) as [|e0 e] eqn:He; [done|]. simpl in Hhead. injection Hhead as ->.
    destruct (held_from_inv _ _ _ _ _ _ Hwf Hn Hh) as (j' & c' & Hj' & Hc'' & _ & Hor).
    assert (j' = j) as -> by congruence. assert (c' = c) as -> by congruence.
    destruct Hor as [Hs'|(s' & Hs' & Hh')].
    + apply prefix_length in Hs'. simpl in Hs'. rewrite length_app, length_take, length_drop in Hs'.
      rewrite He in Hs'. unfold tokens in Hk'. simpl in Hs', Hk'. lia.
    + rewrite He in Hs'. simpl in Hs'. injection Hs' as Hs'. apply app_inv_head in Hs'. by rewrite Hs'.
Qed.
End matching.

Lemma match_loop_spec ns : wf ns -> forall fuel rest cur m out n,
  ns !! cur = Some n -> length rest <= fuel ->
  exists out', match_loop fuel ns rest cur m out = Some out' /\
    (forall w, w ∈ workers n -> exists k, claims_from ns cur w rest k /\
       out' !! w = Some (Nat.max (default 0 (out !! w)) (m + k))) /\
    (forall w, ~ w ∈ workers n -> out' !! w = out !! w).
Proof.
  intros Hwf. induction fuel as [|fuel IH]; intros rest cur m out n Hn Hfuel.
  all: destruct rest as [|first rest]; cbn [length] in Hfuel; try lia.
  1,2: cbn [match_loop]; rewrite Hn; cbn; eexists; split; [done|];
    split; intros w Hw; rewrite record_lookup;
    [exists 0; rewrite decide_True, Nat.add_0_r by done; split; [|done];
     by eapply claims_zero; [..|cbn; lia]|by rewrite decide_False].
  cbn [match_loop]. rewrite Hn. cbn [mbind option_bind].
  destruct (children n !! first) as [j|] eqn:Hj.
  2: { eexists; split; [done|]. split; intros w Hw; rewrite record_lookup;
         [|by rewrite decide_False].
       exists 0. rewrite decide_True, Nat.add_0_r by done. split; [|done].
       eapply claims_no_child; [done|done|done|congruence]. }
  destruct (wf_edge _ Hwf _ _ _ _ Hn Hj) as (c & Hc & Hh). rewrite Hc. cbn [mbind option_bind].
  pose proof (cpl_head _ (first :: rest) _ Hh eq_refl) as Hpos.
  set (common := common_prefix_len (edge c) (first :: rest)) in *.
  assert (forall w, w ∈ workers n -> ~ w ∈ workers c -> claims_from ns cur w (first :: rest) 0) as Habs.
  { intros w Hw Hnc. eapply claims_no_child; [done|done|done|]. intros j' c' Hj' Hc'.
    by assert (c' = c) as -> by congruence. }
  assert (forall w, w ∈ workers c -> w ∈ workers n) as Hup by (intros w; by apply (wf_workers _ Hwf cur n first j)).
  destruct (decide (common < length (edge c))) as [Hlt|Hge].
  - eexists. split; [done|]. split; intros w Hw; rewrite !record_lookup.
    + rewrite (decide_True (P := w ∈ workers n)) by done. destruct (decide (w ∈ workers c)) as [Hwc|Hwc].
      * exists common. split; [by eapply claims_partial|]. simpl. f_equal. lia.
      * exists 0. rewrite Nat.add_0_r. split; [by apply Habs|done].
    + rewrite !decide_False by auto. done.
  - assert (common = length (edge c)) as Hfull.
    { pose proof (cpl_le_l (edge c) (first :: rest)). fold common in H. lia. }
    destruct (IH (drop common (first :: rest)) j (m + common) (record out (workers n) m) c)
      as (out' & -> & Hin & Hout); [done|rewrite length_drop; simpl; lia|].
    exists out'. split; [done|]. split; intros w Hw.
    + destruct (decide (w ∈ workers c)) as [Hwc|Hwc].
      * destruct (Hin w Hwc) as (k & Hk & ->). exists (common + k).
        split; [by eapply claims_full|]. rewrite record_lookup, decide_True by done.
        simpl. f_equal. lia.
      * exists 0. rewrite (Hout w Hwc), record_lookup, decide_True, Nat.add_0_r by done. by split; [apply Habs|].
    + rewrite Hout, record_lookup, decide_False by auto. done.
Qed.

(** ** Removing a leaf *)

(** The arena's edges, without the nodes that carry them. *)
Definition child_of (ns : list Node) (i : nat) (t : Z) (j : nat) : Prop :=
  exists n, ns !! i = Some n /\ children n !! t = Some j.

(** Two arenas with the same nodes up to their children. *)
Definition same_nodes (ns ns' : list Node) : Prop :=
  Forall2 (fun n n' => edge n = edge n' /\ workers n = workers n' /\
                       last_access_ms n = last_access_ms n') ns ns'.

Lemma same_nodes_refl ns : same_nodes ns ns.
Proof. apply Forall_Forall2_diag. by apply Forall_true. Qed.

Lemma alter_children_lookup ns i f j m :
  alter_children ns i f !! j = Some m <->
  exists m0, ns !! j = Some m0 /\ m = (if decide (j = i) then set_children m0 (f (children m0)) else m0).
Proof.
  unfold alter_children. destruct (decide (j = i)) as [->|Hne].
  - rewrite list_lookup_alter_eq. destruct (ns !! i); simpl; split.
    + intros [= <-]. eauto.
    + intros (? & [= <-] & ->). done.
    + done.
    + by intros (? & ? & _).
  - rewrite list_lookup_alter_ne by done. split; [eauto|]. by intros (? & ? & ->).
Qed.

Lemma alter_children_same ns i f : same_nodes ns (alter_children ns i f).
Proof.
  apply Forall2_same_length_lookup_2; [by unfold alter_children; rewrite length_alter|].
  intros j x y Hx Hy. apply alter_children_lookup in Hy as (m0 & Hm0 & ->).
  destruct (decide (j = i)); simpl; simplify_eq; done.
Qed.

Lemma child_key_Some cs node k : child_key cs node = Some k -> cs !! k = Some node.
Proof.
  unfold child_key. destruct (list_find _ _) as [[i [k' j]]|] eqn:E; [|done]. intros [= ->].
  apply list_find_Some in E as (Hl & Hj & _). simpl in Hj. subst j.
  apply elem_of_map_to_list. by eapply list_elem_of_lookup_2.
Qed.

Lemma child_key_None cs node k : child_key cs node = None -> cs !! k <> Some node.
Proof.
  unfold child_key. destruct (list_find _ _) as [[i [k' j]]|] eqn:E; [done|]. intros _ Hk.
  apply list_find_None in E. rewrite Forall_forall in E.
  by apply (E (k, node)); [apply elem_of_map_to_list|].
Qed.

Lemma find_parent_from_Some ns k node i t :
  find_parent_from k ns node = Some (i, t) -> exists d, i = k + d /\ child_of ns d t node.
Proof.
  revert k. induction ns as [|n ns IH]; intros k; simpl; [done|].
  destruct (child_key (children n) node) as [t'|] eqn:E.
  - intros [= <- <-]. exists 0. split; [lia|]. exists n. split; [done|by apply child_key_Some].
  - intros H. destruct (IH _ H) as (d & -> & m & Hm & Ht). exists (S d). split; [lia|]. by exists m.
Qed.

Lemma find_parent_from_None ns k node : find_parent_from k ns node = None ->
  forall i t, ~ child_of ns i t node.
Proof.
  revert k. induction ns as [|n ns IH]; intros k; simpl.
  { intros _ i t (m & Hm & _). done. }
  destruct (child_key (children n) node) as [t'|] eqn:E; [done|].
  intros H [|i] t (m & Hm & Ht); simpl in Hm.
  - injection Hm as ->. by eapply child_key_None.
  - eapply (IH _ H i t). by exists m.
Qed.

(** Rewriting the edge into [node], if there is one. *)
Definition relink (ns : list Node) (node : nat) (f : Z -> gmap Z nat -> gmap Z nat) : list Node :=
  match find_parent ns node with
  | Some (parent, key) => alter_children ns parent (f key)
  | None => ns
  end.

Definition sole (ns : list Node) (node : nat) : Prop :=
  forall i t i' t', child_of ns i t node -> child_of ns i' t' node -> i = i' /\ t = t'.

Lemma relink_same ns node f : same_nodes ns (relink ns node f).
Proof.
  unfold relink. destruct (find_parent ns node) as [[i k]|];
    [apply alter_children_same|apply same_nodes_refl].
Qed.

Lemma relink_child ns node (g : option nat) :
  sole ns node ->
  forall i t j,
  child_of (relink ns node (fun k => partial_alter (fun _ => g) k)) i t j <->
  (child_of ns i t j /\ j <> node) \/ (child_of ns i t node /\ g = Some j).
Proof.
  intros Hsole i t j. unfold relink. destruct (find_parent ns node) as [[p k]|] eqn:E.
  - apply find_parent_from_Some in E as (d & -> & Hd). simpl. split.
    + intros (m & Hm & Ht). apply alter_children_lookup in Hm as (m0 & Hm0 & ->).
      destruct (decide (i = d)) as [->|Hne]; simpl in Ht.
      * destruct (decide (t = k)) as [->|Hnk].
        -- rewrite lookup_partial_alter_eq in Ht. right. done.
        -- rewrite lookup_partial_alter_ne in Ht by done. left. split; [by exists m0|].
           intros ->. destruct (Hsole d t d k); [by exists m0|done|done].
      * left. split; [by exists m0|]. intros ->.
        destruct (Hsole i t d k); [by exists m0|done|done].
    + intros [[(m0 & Hm0 & Ht) Hne]|[Hc ->]].
      * eexists. split; [apply alter_children_lookup; by exists m0|].
        destruct (decide (i = d)) as [->|]; [|done]. simpl.
        rewrite lookup_partial_alter_ne; [done|]. intros ->.
        destruct Hd as (m1 & Hm1 & Ht1). congruence.
      * destruct (Hsole _ _ _ _ Hc Hd) as [-> ->]. destruct Hd as (m1 & Hm1 & Ht1).
        eexists. split; [apply alter_children_lookup; by exists m1|].
        rewrite decide_True by done. simpl. by rewrite lookup_partial_alter_eq.
  - pose proof (find_parent_from_None _ _ _ E) as Hno. split.
    + intros H. left. split; [done|]. intros ->. by eapply Hno.
    + intros [[? _]|[H _]]; [done|]. by destruct (Hno _ _ H).
Qed.

Lemma wf_sole ns node : wf ns -> sole ns node.
Proof. intros Hwf i t i' t' (n & Hn & Ht) (n' & Hn' & Ht'). by eapply (wf_parent _ Hwf). Qed.

Section detaching.
Context (ns : list Node) (victim : nat) (v : Node).
Context (Hwf : wf ns) (Hv : ns !! victim = Some v) (Hleaf : children v = ∅) (Hroot : victim <> ROOT).
Let last := length ns - 1.

(** The slot of the old arena that slot [i] of the new one came from. *)
Definition old_slot (i : nat) : nat := if decide (i = victim) then last else i.

Lemma detach_spec : exists ns', detach ns victim = Some ns' /\ length ns' = last /\
  (forall i m, ns' !! i = Some m -> exists m0, ns !! old_slot i = Some m0 /\
     edge m = edge m0 /\ workers m = workers m0) /\
  (forall i m0, i < last -> ns !! old_slot i = Some m0 -> exists m, ns' !! i = Some m) /\
  (forall i t j, child_of ns' i t j <->
     i < last /\ j < last /\ old_slot j <> victim /\ child_of ns (old_slot i) t (old_slot j)).
Proof.
  assert (victim < length ns) as Hvl by by eapply lookup_lt_Some.
  assert (forall i t j, child_of ns i t j -> i < length ns /\ j < length ns) as Hrng.
  { intros i t j (n & Hn & Ht). split; [by eapply lookup_lt_Some|].
    destruct (wf_edge _ Hwf _ _ _ _ Hn Ht) as (c & Hc & _). by eapply lookup_lt_Some. }
  assert (forall t j, ~ child_of ns victim t j) as Hnov.
  { intros t j (n & Hn & Ht). assert (n = v) as -> by congruence. by rewrite Hleaf, lookup_empty in Ht. }
  pose proof (relink_child ns victim None (wf_sole _ _ Hwf)) as H1.
  pose proof (relink_same ns victim (fun k => partial_alter (fun _ => None) k)) as S1.
  unfold detach.
  change (match find_parent ns victim with
          | Some (parent, key) => alter_children ns parent (delete key) | None => ns end)
    with (relink ns victim (fun k => partial_alter (fun _ => None) k)).
  set (ns1 := relink ns victim _) in *.
  assert (length ns1 = length ns) as L1 by (symmetry; by eapply Forall2_length).
  rewrite L1. fold last. unfold old_slot. destruct (decide (victim = last)) as [Hvl'|Hne].
  - eexists. split; [done|]. split; [rewrite length_take; lia|]. split; [|split].
    + intros i m Hm. apply lookup_take_Some in Hm as [Hm Hi].
      destruct (Forall2_lookup_r _ _ _ _ _ S1 Hm) as (m0 & Hm0 & He & Hw & _).
      exists m0. rewrite decide_False by lia. done.
    + intros i m0 Hi. rewrite decide_False by lia. intros Hm0.
      destruct (Forall2_lookup_l _ _ _ _ _ S1 Hm0) as (m & Hm & _).
      exists m. by rewrite lookup_take_lt.
    + intros i t j. split.
      * intros (m & Hm & Ht). apply lookup_take_Some in Hm as [Hm Hi].
        assert (child_of ns1 i t j) as Hc by by exists m.
        apply H1 in Hc as [[Hc Hj]|[_ ?]]; [|done]. pose proof (Hrng _ _ _ Hc).
        rewrite !decide_False by lia. split; [done|]. split; [lia|]. done.
      * intros (Hi & Hj & Hjv & Hc). rewrite !decide_False in Hc by lia.
        assert (child_of ns1 i t j) as (m & Hm & Ht) by (apply H1; left; split; [done|lia]).
        exists m. by rewrite lookup_take_lt.
  - assert (sole ns1 last) as Hsole1.
    { intros i t i' t' Hc Hc'. apply H1 in Hc as [[Hc _]|[_ ?]]; [|done].
      apply H1 in Hc' as [[Hc' _]|[_ ?]]; [|done]. by eapply wf_sole. }
    pose proof (relink_child ns1 last (Some victim) Hsole1) as H2.
    pose proof (relink_same ns1 last (fun k => partial_alter (fun _ => Some victim) k)) as S2.
    change (match find_parent ns1 last with
            | Some (parent, key) => alter_children ns1 parent <[key:=victim]> | None => ns1 end)
      with (relink ns1 last (fun k => partial_alter (fun _ => Some victim) k)).
    set (ns2 := relink ns1 last _) in *.
    assert (length ns2 = length ns) as L2 by (rewrite <- L1; symmetry; by eapply Forall2_length).
    assert (forall i m, ns2 !! i = Some m -> exists m0, ns !! i = Some m0 /\
      edge m = edge m0 /\ workers m = workers m0) as Hold.
    { intros i m Hm. destruct (Forall2_lookup_r _ _ _ _ _ S2 Hm) as (m1 & Hm1 & ? & ? & _).
      destruct (Forall2_lookup_r _ _ _ _ _ S1 Hm1) as (m0 & Hm0 & ? & ? & _).
      exists m0. split; [done|]. split; congruence. }
    assert (forall i t j, child_of ns2 i t j <->
      (child_of ns i t j /\ j <> victim /\ j <> last) \/ (child_of ns i t last /\ j = victim)) as Hch.
    { intros i t j. rewrite H2, !H1. split.
      - intros [[[[? ?]|[_ ?]] ?]|[[[? ?]|[_ ?]] [= <-]]]; [by left|done|by right|done].
      - intros [(? & ? & ?)|[? ->]]; [left|right]; (split; [left|done]); done. }
    destruct (lookup_lt_is_Some_2 ns2 last) as [l Hl]; [unfold last; lia|].
    rewrite Hl. cbn [mbind option_bind]. eexists. split; [done|].
    assert (forall i m, take last (<[victim := l]> ns2) !! i = Some m <->
      i < last /\ ns2 !! (if decide (i = victim) then last else i) = Some m) as Hlk.
    { intros i m. rewrite lookup_take_Some, list_lookup_insert_Some.
      destruct (decide (i = victim)) as [->|Hiv].
      - rewrite Hl. split; [intros [[(_ & -> & _)|[? _]] ?]; done|].
        intros [? [= ->]]. split; [|done]. left. split; [done|]. split; [done|lia].
      - split; [intros [[(? & _)|[_ ?]] ?]; [congruence|done]|].
        intros [? ?]. split; [|done]. right. done. }
    split; [rewrite length_take, length_insert; lia|]. split; [|split].
    + intros i m Hm. apply Hlk in Hm as [_ Hm]. by apply Hold.
    + intros i m0 Hi Hm0. apply lookup_lt_Some in Hm0. rewrite <- L2 in Hm0.
      destruct (lookup_lt_is_Some_2 _ _ Hm0) as [m Hm]. exists m. by apply Hlk.
    + intros i t j. split.
      * intros (m & Hm & Ht). apply Hlk in Hm as [Hi Hm]. split; [done|].
        assert (child_of ns2 (if decide (i = victim) then last else i) t j) as Hc by by exists m.
        apply Hch in Hc as [(Hc & Hj1 & Hj2)|[Hc ->]].
        -- rewrite (decide_False (P := j = victim)) by done. pose proof (Hrng _ _ _ Hc) as [_ Hr]. unfold last in *. split; [lia|done].
        -- rewrite (decide_True (P := victim = victim)) by done. split; [unfold last in *; lia|done].
      * intros (Hi & Hj & Hjv & Hc).
        assert (child_of ns2 (if decide (i = victim) then last else i) t j) as (m & Hm & Ht).
        { apply Hch. destruct (decide (j = victim)); [by right|]. left. split; [done|lia]. }
        exists m. split; [by apply Hlk|done].
Qed.
End detaching.

Lemma detach_wf ns victim v :
  wf ns -> ns !! victim = Some v -> children v = ∅ -> victim <> ROOT ->
  exists ns', detach ns victim = Some ns' /\ length ns' = length ns - 1 /\ wf ns' /\
    (forall w s, held ns' w s -> held ns w s).
Proof.
  intros Hwf Hv Hleaf Hroot.
  destruct (detach_spec ns victim v Hwf Hv Hleaf Hroot) as (ns' & -> & Hlen & Hold & Hnew & Hch).
  exists ns'. split; [done|]. split; [done|].
  assert (victim < length ns) as Hvl by by eapply lookup_lt_Some.
  assert (old_slot ns victim ROOT = ROOT) as Hor by (unfold old_slot; by rewrite decide_False).
  assert (forall i n t j, ns' !! i = Some n -> children n !! t = Some j -> child_of ns' i t j) as Hco.
  { intros i n t j Hn Ht. by exists n. }
  split; [split|].
  - destruct (wf_root _ Hwf) as [r Hr]. apply (Hnew ROOT r); [unfold ROOT in *; lia|by rewrite Hor].
  - intros i n t j Hn Ht. destruct (proj1 (Hch _ _ _) (Hco _ _ _ _ Hn Ht)) as (_ & Hj & _ & m & Hm & Htm).
    destruct (wf_edge _ Hwf _ _ _ _ Hm Htm) as (c & Hc & Hh).
    destruct (Hnew j c Hj Hc) as [c' Hc']. exists c'. split; [done|].
    destruct (Hold _ _ Hc') as (c0 & Hc0 & -> & _). congruence.
  - intros i n t i' n' t' j Hn Ht Hn' Ht'.
    destruct (proj1 (Hch _ _ _) (Hco _ _ _ _ Hn Ht)) as (Hi & _ & _ & Hc).
    destruct (proj1 (Hch _ _ _) (Hco _ _ _ _ Hn' Ht')) as (Hi' & _ & _ & Hc').
    destruct (wf_sole ns _ Hwf _ _ _ _ Hc Hc') as [Hos ->]. split; [|done].
    unfold old_slot in Hos. destruct (decide (i = victim)), (decide (i' = victim)); lia.
  - intros i n t Hn Ht. destruct (proj1 (Hch _ _ _) (Hco _ _ _ _ Hn Ht)) as (_ & _ & _ & m & Hm & Htm).
    rewrite Hor in Htm. by apply (wf_root_no_parent _ Hwf _ _ _ Hm Htm).
  - intros i n t j c w Hn Ht Hc Hw.
    destruct (proj1 (Hch _ _ _) (Hco _ _ _ _ Hn Ht)) as (_ & _ & _ & m & Hm & Htm).
    destruct (Hold _ _ Hn) as (n0 & Hn0 & _ & ->). destruct (Hold _ _ Hc) as (c0 & Hc0 & _ & Hwc).
    rewrite Hwc in Hw. assert (n0 = m) as -> by congruence. by eapply (wf_workers _ Hwf).
  - assert (forall i p, path ns' i p -> path ns (old_slot ns victim i) p) as Hpath.
    { induction 1 as [|i p n t j c Hp IH Hn Ht Hc]; [rewrite Hor; constructor|].
      destruct (proj1 (Hch _ _ _) (Hco _ _ _ _ Hn Ht)) as (_ & _ & _ & m & Hm & Htm).
      destruct (Hold _ _ Hc) as (c0 & Hc0 & -> & _). by eapply path_child. }
    intros w s (i & p & n & Hp & Hn & Hw & Hs). destruct (Hold _ _ Hn) as (n0 & Hn0 & _ & Hws).
    exists (old_slot ns victim i), p, n0. rewrite <- Hws. by split; [apply Hpath|].
Qed.

(** ** Pruning *)

Lemma find_victim_Some ns k now ttl i :
  find_victim k now ttl ns = Some i ->
  exists d n, i = k + d /\ ns !! d = Some n /\ prunable now ttl i n = true.
Proof.
  revert k. induction ns as [|n ns IH]; intros k; cbn [find_victim]; [done|].
  destruct (prunable now ttl k n) eqn:E.
  - intros [= <-]. exists 0, n. rewrite Nat.add_0_r. done.
  - intros H. destruct (IH _ H) as (d & m & -> & Hd & Hp). exists (S d), m. split; [lia|done].
Qed.

Lemma find_victim_None ns k now ttl :
  find_victim k now ttl ns = None -> forall d n, ns !! d = Some n -> prunable now ttl (k + d) n = false.
Proof.
  revert k. induction ns as [|n ns IH]; intros k; cbn [find_victim]; [done|].
  destruct (prunable now ttl k n) eqn:E; [done|].
  intros H [|d] m; simpl; intros Hm.
  - injection Hm as <-. by rewrite Nat.add_0_r.
  - replace (k + S d) with (S k + d) by lia. by apply IH.
Qed.

Lemma prune_loop_spec now ttl : forall fuel ns removed,
  wf ns -> length ns <= fuel ->
  exists ns' removed', prune_loop fuel now ttl ns removed = Some (ns', removed') /\ wf ns' /\
    length ns' + removed' = length ns + removed /\
    find_victim 0 now ttl ns' = None /\ (forall w s, held ns' w s -> held ns w s).
Proof.
  induction fuel as [|fuel IH]; intros ns removed Hwf Hfuel.
  { destruct (wf_root _ Hwf) as [r Hr]. apply lookup_lt_Some in Hr. lia. }
  cbn [prune_loop]. destruct (find_victim 0 now ttl ns) as [i|] eqn:E.
  2: { by exists ns, removed. }
  destruct (find_victim_Some _ _ _ _ _ E) as (d & n & -> & Hn & Hp). simpl in *.
  unfold prunable in Hp. rewrite !andb_true_iff, !bool_decide_eq_true in Hp.
  destruct Hp as [[Hroot Hleaf] _].
  destruct (detach_wf ns d n Hwf Hn Hleaf Hroot) as (ns1 & -> & Hlen & Hwf1 & Hheld).
  assert (d < length ns) by by eapply lookup_lt_Some.
  cbn [mbind option_bind].
  destruct (IH ns1 (S removed) Hwf1) as (ns' & removed' & -> & Hwf' & Hlen' & Hno & Hh); [lia|].
  exists ns', removed'. split; [done|]. split; [done|]. split; [lia|]. split; [done|]. auto.
Qed.

(** ** Forgetting *)

Lemma forget_held ns w w' s :
  held (map (forget_in w) ns) w' s <-> w' <> w /\ held ns w' s.
Proof.
  assert (Forall2 same_shape ns (map (forget_in w) ns)) as Hsh.
  { apply Forall2_same_length_lookup_2; [by rewrite length_map|].
    intros i x y Hx Hy. rewrite list_lookup_fmap, Hx in Hy. injection Hy as <-. done. }
  split.
  - intros (i & p & n & Hp & Hn & Hw & Hs). rewrite list_lookup_fmap in Hn.
    destruct (ns !! i) as [n0|] eqn:Hn0; [|done]. injection Hn as <-. simpl in Hw.
    apply list_elem_of_filter in Hw as [Hne Hw]. split; [done|]. exists i, p, n0.
    split; [|done]. eapply path_shape; [by apply same_shape_sym|done].
  - intros (Hne & i & p & n & Hp & Hn & Hw & Hs). exists i, p, (forget_in w n).
    split; [by eapply path_shape|]. rewrite list_lookup_fmap, Hn. split; [done|].
    split; [|done]. simpl. by apply list_elem_of_filter.
Qed.

Lemma forget_wf ns w : wf ns -> wf (map (forget_in w) ns).
Proof.
  intros Hwf. eapply (wf_shape ns); [| |done].
  { apply Forall2_same_length_lookup_2; [by rewrite length_map|].
    intros i x y Hx Hy. rewrite list_lookup_fmap, Hx in Hy. injection Hy as <-. done. }
  intros i n t j c v Hn Ht Hc Hv. rewrite list_lookup_fmap in Hn, Hc.
  destruct (ns !! i) as [n0|] eqn:Hn0; [|done]. injection Hn as <-.
  destruct (ns !! j) as [c0|] eqn:Hc0; [|done]. injection Hc as <-. simpl in *.
  apply list_elem_of_filter in Hv as [Hne Hv]. apply list_elem_of_filter. split; [done|].
  by eapply (wf_workers _ Hwf).
Qed.

(** ** The index as a whole *)

Record index_inv (r : RadixIndex) : Prop := {
  inv_wf : wf (nodes r);
  inv_max : 1 <= max_nodes r;
  inv_len : length (nodes r) <= S (max_nodes r)
}.

Definition holds_prefix (r : RadixIndex) (w : Z) (s : list Z) : Prop := held (nodes r) w s.

Inductive index_step : RadixIndex -> RadixIndex -> Prop :=
  | istep_insert r w tokens now r' : insert r w tokens now = Some r' -> index_step r r'
  | istep_forget r w : index_step r (forget_worker r w)
  | istep_prune r now ttl r' k : prune r now ttl = Some (r', k) -> index_step r r'
  | istep_clear r : index_step r (radix_clear r).

Definition index_reachable (r : RadixIndex) : Prop :=
  exists mp mn, rtc index_step (radix_new mp mn) r.

Lemma fresh_wf now : wf [node_new [] now].
Proof.
  assert (forall i n t j, [node_new [] now] !! i = Some n -> children n !! t = Some j -> False) as Hno.
  { intros [|i] n t j Hn; simpl in Hn; [|done]. injection Hn as <-. simpl. by rewrite lookup_empty. }
  split.
  - by eexists.
  - intros i n t j Hn Ht. by destruct (Hno _ _ _ _ Hn Ht).
  - intros i n t i' n' t' j Hn Ht. by destruct (Hno _ _ _ _ Hn Ht).
  - intros i n t Hn Ht. by destruct (Hno _ _ _ _ Hn Ht).
  - intros i n t j c w Hn Ht. by destruct (Hno _ _ _ _ Hn Ht).
Qed.

Lemma fresh_held now w s : ~ held [node_new [] now] w s.
Proof.
  intros (i & p & n & _ & Hn & Hw & _). destruct i as [|i]; [|done]. injection Hn as <-.
  simpl in Hw. by apply not_elem_of_nil in Hw.
Qed.

Lemma radix_new_inv mp mn : index_inv (radix_new mp mn).
Proof. split; simpl; [apply fresh_wf|lia|lia]. Qed.

Lemma insert_spec r w tokens now :
  index_inv r ->
  exists r', insert r w tokens now = Some r' /\ index_inv r' /\
    (if decide (length tokens < min_prefix_tokens r \/ max_nodes r <= length (nodes r))
     then r' = r
     else forall w' s, holds_prefix r' w' s <->
                       holds_prefix r w' s \/ (w' = w /\ s `prefix_of` tokens)).
Proof.
  intros [Hwf Hmax Hlen]. unfold insert.
  destruct (decide _) as [|Hg]; [by exists r|].
  destruct (wf_root _ Hwf) as [root Hroot]. rewrite Hroot. cbn [mbind option_bind].
  destruct (touch_spec (nodes r) ROOT w now root [] Hwf ltac:(constructor) Hroot) as (Hwf1 & _ & Hh1).
  { intros k m t Hm Ht. by destruct (wf_root_no_parent _ Hwf _ _ _ Hm Ht). }
  destruct (insert_loop_spec (length tokens) w now tokens ROOT _ [] (touch w now root)
    Hwf1 ltac:(constructor)) as (ns' & -> & Hwf' & Hheld & Hlen' & _).
  - apply list_lookup_insert_eq. by eapply lookup_lt_Some.
  - apply touch_workers. by right.
  - done.
  - rewrite length_insert in Hlen'. eexists. split; [done|]. split.
    + split; simpl; [done|done|lia].
    + intros w' s. unfold holds_prefix; simpl. rewrite Hheld, Hh1. simpl.
      split; [|tauto]. intros [[?|[-> Hs]]|?]; [by left| |by right].
      right. split; [done|]. etransitivity; [exact Hs|apply prefix_nil].
Qed.

Lemma index_step_inv r r' : index_inv r -> index_step r r' -> index_inv r'.
Proof.
  intros Hinv. pose proof Hinv as [Hwf Hmax Hlen].
  destruct 1 as [r w tokens now r' H|r w|r now ttl r' k H|r].
  - destruct (insert_spec r w tokens now Hinv) as (r1 & H1 & Hi & _). congruence.
  - split; simpl; [by apply forget_wf|done|by rewrite length_map].
  - unfold prune in H.
    destruct (prune_loop_spec now ttl (length (nodes r)) (nodes r) 0 Hwf ltac:(lia))
      as (ns' & k' & Heq & Hwf' & Hl & _).
    rewrite Heq in H. cbn in H. injection H as <- <-. split; simpl; [done|done|lia].
  - split; simpl; [apply fresh_wf|done|lia].
Qed.

(** C6. Whatever sequence of insertions, worker removals, prunings and clears
    has been applied to a fresh index, the arena stays a tree: the root exists,
    every child pointer is in range and keyed by the first token of the child's
    edge, no node has two parents, the root has none, a worker known at a node
    is known at its parent, and the arena holds at most one node more than
    [max_nodes]. *)
Theorem index_reachable_inv r : index_reachable r -> index_inv r.
Proof.
  intros (mp & mn & Hr).
  assert (index_inv (radix_new mp mn)) as H0 by (split; simpl; [apply fresh_wf|lia|lia]).
  induction Hr; [done|]. apply IHHr. by eapply index_step_inv.
Qed.

(** C14. On a well-formed index, [insert] terminates without panicking, keeps
    the invariant, and, unless it is skipped because the prompt is too short or
    the arena is full, adds exactly the worker's prefixes of the inserted
    tokens: no other claim appears and none is lost, however edges are split. *)
Theorem insert_exact r w tokens now :
  index_inv r ->
  exists r', insert r w tokens now = Some r' /\ index_inv r' /\
    (if decide (length tokens < min_prefix_tokens r \/ max_nodes r <= length (nodes r))
     then r' = r
     else forall w' s, holds_prefix r' w' s <->
                       holds_prefix r w' s \/ (w' = w /\ s `prefix_of` tokens)).
Proof. apply insert_spec. Qed.

Lemma match_workers_spec r tokens :
  index_inv r ->
  exists out, match_workers r tokens = Some out /\
    forall w k, out !! w = Some k <->
      holds_prefix r w [] /\ k <= length tokens /\ holds_prefix r w (take k tokens) /\
      forall k', k' <= length tokens -> holds_prefix r w (take k' tokens) -> k' <= k.
Proof.
  intros [Hwf _ _]. destruct (wf_root _ Hwf) as [root Hroot]. unfold match_workers, holds_prefix.
  destruct (match_loop_spec _ Hwf (length tokens) tokens ROOT 0 ∅ root Hroot ltac:(lia))
    as (out & -> & Hin & Hout).
  exists out. split; [done|].
  assert (forall w s, held (nodes r) w s <-> held_from (nodes r) ROOT w s) as Hhf.
  { intros w s. unfold held, held_from. by setoid_rewrite path_desc. }
  assert (forall w s, held_from (nodes r) ROOT w s -> w ∈ workers root) as Hroot_w.
  { intros w s (j & q & m & Hd & Hm & Hw & _). by eapply desc_workers. }
  intros w k. setoid_rewrite Hhf. destruct (decide (w ∈ workers root)) as [Hw|Hw].
  - destruct (Hin w Hw) as (k0 & (Hk0 & Hh0 & Hmax0) & ->). rewrite lookup_empty. simpl. split.
    + intros [= <-]. split; [|done]. exists ROOT, [], root. split; [constructor|done].
    + intros (_ & Hk & Hh & Hmax). f_equal. pose proof (Hmax0 _ Hk Hh). pose proof (Hmax _ Hk0 Hh0). lia.
  - rewrite (Hout w Hw), lookup_empty. split; [done|]. intros (H & _). by apply Hroot_w in H.
Qed.

Lemma match_workers_total r tokens : index_inv r -> exists out, match_workers r tokens = Some out.
Proof. intros H. destruct (match_workers_spec r tokens H) as (out & Ho & _). by exists out. Qed.

(** C13. [match_workers] terminates without panicking and is exact: a worker is
    in the answer iff it has a claim at all, and then with the length of the
    longest prefix of the tokens that it holds. *)
Theorem match_workers_exact r tokens :
  index_inv r ->
  exists out, match_workers r tokens = Some out /\
    forall w k, out !! w = Some k <->
      holds_prefix r w [] /\ k <= length tokens /\ holds_prefix r w (take k tokens) /\
      forall k', k' <= length tokens -> holds_prefix r w (take k' tokens) -> k' <= k.
Proof. apply match_workers_spec. Qed.

(** [forget_worker] removes exactly that worker's claims. *)
Theorem forget_worker_exact r w w' s :
  holds_prefix (forget_worker r w) w' s <-> w' <> w /\ holds_prefix r w' s.
Proof. apply forget_held. Qed.

(** [prune] terminates: the sweep ends, without panicking, in a well-formed
    index that makes no new claim, has shrunk by exactly the number it reports,
    and holds no leaf (other than the root) older than the time to live. *)
Theorem prune_terminates r now ttl :
  index_inv r ->
  exists r' k, prune r now ttl = Some (r', k) /\ index_inv r' /\
    node_count r' + k = node_count r /\
    (forall i n, nodes r' !! i = Some n -> prunable now ttl i n = false) /\
    (forall w s, holds_prefix r' w s -> holds_prefix r w s).
Proof.
  intros [Hwf Hmax Hlen]. unfold prune.
  destruct (prune_loop_spec now ttl (length (nodes r)) (nodes r) 0 Hwf ltac:(lia))
    as (ns' & k & -> & Hwf' & Hl & Hno & Hh).
  eexists _, k. split; [done|]. split; [|split; [|split]].
  - split; simpl; [done|done|lia].
  - unfold node_count; simpl. lia.
  - intros i n Hn. by apply (find_victim_None _ _ _ _ Hno i n).
  - exact Hh.
Qed.

(** ** At work on a small index *)

Definition sample : RadixIndex :=
  default (radix_new 1 3)
    (r ← insert (radix_new 1 3) 7 [1; 2; 3]%Z f0; insert r 8 [1; 2; 4]%Z f0).

Lemma sample_reachable : index_reachable sample.
Proof.
  exists 1, 3.
  eapply rtc_l; [by apply (istep_insert _ 7 [1; 2; 3]%Z f0); vm_compute|].
  eapply rtc_l; [by apply (istep_insert _ 8 [1; 2; 4]%Z f0); vm_compute|].
  apply rtc_refl.
Qed.

Lemma sample_inv : index_inv sample.
Proof.
  assert (index_inv (radix_new 1 3)) as H0 by (split; simpl; [apply fresh_wf|lia|lia]).
  destruct sample_reachable as (mp & mn & Hr).
  assert (index_inv (radix_new mp mn)) as H1 by (split; simpl; [apply fresh_wf|lia|lia]).
  induction Hr; [done|]. apply IHHr. by eapply index_step_inv.
Qed.

Lemma index_reachable_inv_witness : index_reachable sample /\ index_inv sample.
Proof. split; [exact sample_reachable|apply index_reachable_inv, sample_reachable]. Defined.

Lemma insert_exact_witness :
  index_inv (radix_new 1 3) /\
  exists r', insert (radix_new 1 3) 7 [1; 2; 3]%Z f0 = Some r' /\ holds_prefix r' 7 [1; 2]%Z.
Proof.
  assert (index_inv (radix_new 1 3)) as H0 by (split; simpl; [apply fresh_wf|lia|lia]).
  split; [exact H0|].
  destruct (insert_exact (radix_new 1 3) 7 [1; 2; 3]%Z f0 H0) as (r' & H & _ & Hh).
  exists r'. split; [exact H|]. simpl in Hh. apply Hh. right. split; [done|]. by exists [3%Z].
Defined.

Lemma match_workers_exact_witness :
  index_inv sample /\
  exists out, match_workers sample [1; 2; 4; 5]%Z = Some out /\ out !! 7%Z = Some 2 /\
    holds_prefix sample 7 [1; 2]%Z.
Proof.
  split; [exact sample_inv|].
  destruct (match_workers_exact sample [1; 2; 4; 5]%Z sample_inv) as (out & H & Hk).
  exists out. split; [exact H|].
  assert (out !! 7%Z = Some 2) as H7.
  { assert (match_workers sample [1; 2; 4; 5]%Z = Some {[7%Z := 2; 8%Z := 3]}) as Hc by (by vm_compute).
    rewrite H in Hc. by injection Hc as ->. }
  split; [exact H7|]. by apply Hk in H7 as (_ & _ & Hh & _).
Defined.

Lemma prune_terminates_witness :
  index_inv sample /\
  exists r' k, prune sample (of_Z 100) (of_Z 50) = Some (r', k) /\ node_count r' = 1.
Proof.
  split; [exact sample_inv|].
  destruct (prune_terminates sample (of_Z 100) (of_Z 50) sample_inv) as (r' & k & H & _ & Hn & _).
  exists r', k. split; [exact H|].
  assert (node_count sample = 4) as Hs by (by vm_compute).
  assert (k = 3) as ->; [|lia].
  assert (option_map snd (prune sample (of_Z 100) (of_Z 50)) = Some 3) as Hc by (by vm_compute).
  rewrite H in Hc. by injection Hc.
Defined.

(** [max_nodes] is not a hard bound: an insertion that begins below the
    limit can split an edge and add a leaf, so a reachable arena can exceed it
    (by one node, never more: [index_reachable_inv]). *)
Theorem max_nodes_exceeded : exists r, index_reachable r /\ node_count r = S (max_nodes r).
Proof. exists sample. split; [exact sample_reachable|by vm_compute]. Qed.

(** A worker that shares no token with the prompt is still in the answer
    of [match_workers], with length 0, once it has inserted anything: the walk
    credits the root's worker set. *)
Theorem unrelated_worker_listed :
  exists r w tokens out, index_reachable r /\ match_workers r tokens = Some out /\ out !! w = Some 0.
Proof.
  exists sample, 7%Z, [9]%Z, {[7%Z := 0; 8%Z := 0]}.
  split; [exact sample_reachable|]. split; by vm_compute.
Qed.
End Trie.
