(* ===== verification/Policy.v ===== *)
(** * Queue ordering ([crates/sched/src/policy.rs])

    First-come-first-served, earliest deadline first and Moore-Hodgson, as the
    code runs them on doubles.  The optimality of Moore-Hodgson is proved for
    queues whose times are whole milliseconds, where the clock is exact. *)

From Stdlib Require Import ZArith Lia.
From stdpp Require Import base option list numbers gmap.
From S2P Require Import Prelude F64 F64Int Core.

Inductive PrefillPolicy := Fcfs | Edf | MooreHodgson.

Record Job := mkJob {
  job_id : RequestId;
  job_arrival_ms : f64;
  job_deadline_ms : f64;
  service_ms : f64
}.

Record JobOrdering := mkOrdering {
  on_time : list RequestId;
  demoted : list RequestId
}.

Definition ordering_all (o : JobOrdering) : list RequestId := on_time o ++ demoted o.

(** [a.x.total_cmp(&b.x).then(a.id.cmp(&b.id))] *)
Definition by_time (x : Job -> f64) : Job -> Job -> comparison :=
  cmp_then (cmp_on (fun j => total_key (x j))) (cmp_on job_id).

Definition by_deadline : Job -> Job -> comparison := by_time job_deadline_ms.

(** The comparator of the eviction: longest, then latest deadline, then id. *)
Definition by_length : Job -> Job -> comparison :=
  cmp_then (cmp_then (cmp_on (fun j => total_key (service_ms j)))
                     (cmp_on (fun j => total_key (job_deadline_ms j)))) (cmp_on job_id).

(** [accepted.iter().enumerate().max_by(..)] *)
Definition longest (accepted : list Job) : option (nat * Job) :=
  max_by (fun a b => by_length a.2 b.2) (imap pair accepted).

(** One iteration of the loop: the accepted and demoted jobs and the clock. *)
Definition mh_step (st : list Job * list Job * f64) (job : Job) : list Job * list Job * f64 :=
  let '(accepted, demoted, clock) := st in
  let accepted := accepted ++ [job] in
  let clock := fadd clock (service_ms job) in
  if fgt clock (job_deadline_ms job) then
    match longest accepted with
    | Some (victim, removed) =>
        (delete victim accepted, demoted ++ [removed], fsub clock (service_ms removed))
    | None => (accepted, demoted, clock)
    end
  else (accepted, demoted, clock).

Definition mh_run (jobs : list Job) (now : f64) : list Job * list Job * f64 :=
  foldl mh_step ([], [], now) (sort_by by_deadline jobs).

Definition moore_hodgson (jobs : list Job) (now : f64) : JobOrdering :=
  let '(accepted, dem, _) := mh_run jobs now in
  mkOrdering (map job_id accepted) (map job_id (sort_by by_deadline dem)).

Definition order_jobs (jobs : list Job) (now : f64) (policy : PrefillPolicy) : JobOrdering :=
  match policy with
  | Fcfs => mkOrdering (map job_id (sort_by (by_time job_arrival_ms) jobs)) []
  | Edf => mkOrdering (map job_id (sort_by by_deadline jobs)) []
  | MooreHodgson => moore_hodgson jobs now
  end.

(** ** Nothing is lost *)

Lemma delete_app_lt {A} (l k : list A) i : i < length l -> delete i (l ++ k) = delete i l ++ k.
Proof.
  revert i. induction l as [|x l IH]; intros [|i] Hi; simpl in *; [lia|lia|done|].
  f_equal. apply IH. lia.
Qed.

#[export] Instance by_time_total x : TotalCmp (by_time x).
Proof. apply cmp_then_total; apply cmp_on_total. Qed.

#[export] Instance by_length_total : TotalCmp by_length.
Proof. apply cmp_then_total; [apply cmp_then_total; apply cmp_on_total|apply cmp_on_total]. Qed.

Lemma imap_pair_elem {A} (l : list A) i x : (i, x) ∈ imap pair l -> l !! i = Some x.
Proof.
  intros H. apply list_elem_of_lookup in H as [k Hk]. rewrite list_lookup_imap in Hk.
  destruct (l !! k) eqn:E; simpl in Hk; [|done]. by injection Hk as -> ->.
Qed.

Lemma imap_pair_lookup {A} (l : list A) i x : l !! i = Some x -> (i, x) ∈ imap pair l.
Proof. intros H. apply list_elem_of_lookup. exists i. by rewrite list_lookup_imap, H. Qed.

Lemma longest_spec acc i r :
  longest acc = Some (i, r) ->
  acc !! i = Some r /\ forall j, j ∈ acc -> by_length j r <> Gt.
Proof.
  intros H.
  assert (TotalCmp (fun a b : nat * Job => by_length a.2 b.2)) as Ht.
  { split.
    - intros x y. apply (cmp_opp by_length).
    - intros x y z. apply (cmp_le_trans by_length). }
  destruct (@max_by_spec _ _ Ht _ _ H) as [Hin Hall]. split; [by apply imap_pair_elem|].
  intros j Hj. apply list_elem_of_lookup in Hj as [k Hk].
  rewrite Forall_forall in Hall. apply (Hall (k, j)). by apply imap_pair_lookup.
Qed.

Lemma longest_is_Some acc job : exists i r, longest (acc ++ [job]) = Some (i, r).
Proof.
  destruct (max_by_is_Some (fun a b : nat * Job => by_length a.2 b.2) (imap pair (acc ++ [job]))) as [[i r] H].
  - by destruct acc.
  - by exists i, r.
Qed.

(** The two outcomes of a step. *)
Lemma mh_step_cases acc dem clock job :
  (fgt (fadd clock (service_ms job)) (job_deadline_ms job) = false /\
   mh_step (acc, dem, clock) job = (acc ++ [job], dem, fadd clock (service_ms job))) \/
  (fgt (fadd clock (service_ms job)) (job_deadline_ms job) = true /\
   exists i r, (acc ++ [job]) !! i = Some r /\ (forall j, j ∈ acc ++ [job] -> by_length j r <> Gt) /\
     mh_step (acc, dem, clock) job =
       (delete i (acc ++ [job]), dem ++ [r], fsub (fadd clock (service_ms job)) (service_ms r))).
Proof.
  unfold mh_step. destruct (fgt _ _); [right|by left]. split; [done|].
  destruct (longest_is_Some acc job) as (i & r & H). rewrite H.
  destruct (longest_spec _ _ _ H) as [Hi Hall]. by exists i, r.
Qed.

Lemma mh_fold_perm jobs st :
  (foldl mh_step st jobs).1.1 ++ (foldl mh_step st jobs).1.2 ≡ₚ st.1.1 ++ st.1.2 ++ jobs.
Proof.
  revert st. induction jobs as [|job jobs IH]; intros [[acc dem] clock]; cbn [foldl].
  { by rewrite app_nil_r. }
  rewrite IH.
  destruct (mh_step_cases acc dem clock job) as [[_ ->]|(_ & i & r & Hi & _ & ->)]; cbn [fst snd].
  - rewrite <- app_assoc. apply Permutation_app_head. simpl. by rewrite <- Permutation_middle.
  - rewrite <- app_assoc. simpl.
    transitivity ((r :: delete i (acc ++ [job])) ++ dem ++ jobs).
    { rewrite <- (Permutation_middle dem jobs r). by rewrite <- Permutation_middle. }
    rewrite <- (delete_Permutation _ _ _ Hi), <- app_assoc. simpl.
    apply Permutation_app_head, Permutation_middle.
Qed.

Lemma order_jobs_all jobs now policy :
  ordering_all (order_jobs jobs now policy) ≡ₚ map job_id jobs.
Proof.
  assert (forall cmp l, map job_id (sort_by cmp l) ≡ₚ map job_id l) as Hs.
  { intros cmp l. by apply Permutation_map, sort_by_perm. }
  destruct policy; unfold ordering_all; cbn [order_jobs on_time demoted]; [by rewrite app_nil_r..|].
  unfold moore_hodgson. destruct (mh_run jobs now) as [[acc dem] c] eqn:E. cbn [on_time demoted].
  rewrite Hs, <- map_app. apply Permutation_map.
  pose proof (mh_fold_perm (sort_by by_deadline jobs) ([], [], now)) as Hp.
  unfold mh_run in E. rewrite E in Hp. cbn [fst snd app] in Hp. by rewrite Hp, sort_by_perm.
Qed.

(** ** Schedules over whole milliseconds *)

Local Open Scope Z_scope.

(** The integer a double holds. *)
Definition zval (x : f64) : Z := ival x / 2 ^ 1074.

Lemma zval_of_Z n : small n -> zval (of_Z n) = n.
Proof. intros H. unfold zval. rewrite of_Z_ival by done. apply Z.div_mul. done. Qed.

Definition sv (j : Job) : Z := zval (service_ms j).
Definition dl (j : Job) : Z := zval (job_deadline_ms j).

Fixpoint work (l : list Job) : Z :=
  match l with [] => 0 | j :: l' => sv j + work l' end.

(** Run from time [t] in this order, every job of [l] ends by its deadline. *)
Fixpoint feasible (t : Z) (l : list Job) : Prop :=
  match l with
  | [] => True
  | j :: l' => t + sv j <= dl j /\ feasible (t + sv j) l'
  end.

(** The queue's times are whole milliseconds. *)
Definition whole (j : Job) : Prop :=
  0 <= sv j /\ small (sv j) /\ small (dl j) /\
  service_ms j = of_Z (sv j) /\ job_deadline_ms j = of_Z (dl j).

Lemma work_app a b : work (a ++ b) = work a + work b.
Proof. induction a as [|x a IH]; [done|]. cbn [work app]. rewrite IH. lia. Qed.

#[export] Instance work_perm : Proper ((≡ₚ) ==> (=)) work.
Proof. induction 1; cbn [work]; lia. Qed.

Lemma work_nonneg l : Forall whole l -> 0 <= work l.
Proof. induction 1 as [|j l [Hj _] _ IH]; cbn [work]; lia. Qed.

Lemma feasible_app t a b : feasible t (a ++ b) <-> feasible t a /\ feasible (t + work a) b.
Proof.
  revert t. induction a as [|x a IH]; intros t; cbn [feasible work app].
  - rewrite Z.add_0_r. tauto.
  - rewrite IH, Z.add_assoc. tauto.
Qed.

Lemma Forall_submseteq {A} (P : A -> Prop) l k : l ⊆+ k -> Forall P k -> Forall P l.
Proof. intros Hs. rewrite !Forall_forall. intros H x Hx. apply H. by eapply elem_of_submseteq. Qed.

Lemma work_submseteq a b : Forall whole b -> a ⊆+ b -> work a <= work b.
Proof.
  intros Hb Hs. apply submseteq_Permutation in Hs as [k Hk]. rewrite Hk, work_app.
  rewrite Hk in Hb. apply Forall_app in Hb as [_ Hk']. pose proof (work_nonneg _ Hk'). lia.
Qed.

Lemma feasible_mono t t' l : t' <= t -> feasible t l -> feasible t' l.
Proof.
  revert t t'. induction l as [|j l IH]; intros t t' Hle; cbn [feasible]; [done|].
  intros [H1 H2]. split; [lia|]. apply (IH (t + sv j)); [lia|done].
Qed.

(** Dropping jobs keeps the others on time. *)
Lemma feasible_sublist t l l' :
  Forall whole l -> l' `sublist_of` l -> feasible t l -> feasible t l'.
Proof.
  intros Hw Hs. revert t. induction Hs as [|x l1 l2 Hs IH|x l1 l2 Hs IH]; intros t; [done| |].
  - apply Forall_cons in Hw as [_ Hw]. intros [H1 H2]. split; [done|]. by apply IH.
  - apply Forall_cons in Hw as [[Hx _] Hw]. intros [H1 H2].
    apply IH; [done|]. apply (feasible_mono (t + sv x)); [lia|done].
Qed.

Lemma feasible_total t l D :
  l <> [] -> feasible t l -> Forall (fun j => dl j <= D) l -> t + work l <= D.
Proof.
  intros Hl Hf Hd. destruct (exists_last Hl) as (k & j & ->).
  apply feasible_app in Hf as [_ [Hf _]]. rewrite work_app. cbn [work].
  apply Forall_app in Hd as [_ Hd]. apply Forall_cons in Hd as [Hd _]. lia.
Qed.

(** In a feasible schedule the jobs due by [D] are all done by [D]. *)
Lemma feasible_threshold t l D :
  Forall whole l -> feasible t l -> (exists j, j ∈ l /\ dl j <= D) ->
  t + work (filter (fun j => dl j <= D) l) <= D.
Proof.
  intros Hw. revert t. induction Hw as [|j l [Hj _] Hw IH]; intros t Hf (x & Hx & Hd).
  { by apply (not_elem_of_nil x) in Hx. }
  destruct Hf as [H1 H2].
  assert (work (filter (fun j => dl j <= D) (j :: l)) <= sv j + work (filter (fun j => dl j <= D) l)) as Hle.
  { rewrite filter_cons. destruct (decide _); cbn [work]; lia. }
  destruct (decide (Exists (fun j => dl j <= D) l)) as [Hex|Hno].
  - apply Exists_exists in Hex as (y & Hy & Hyd). specialize (IH _ H2 ltac:(eauto)). lia.
  - assert (filter (fun j => dl j <= D) l = []) as Hnil.
    { destruct (filter _ l) as [|y k] eqn:E; [done|]. exfalso. apply Hno, Exists_exists.
      assert (y ∈ filter (fun j => dl j <= D) l) as Hy by (rewrite E; by left).
      apply list_elem_of_filter in Hy as [Hyd Hy]. by exists y. }
    rewrite Hnil in Hle. cbn [work] in Hle.
    apply elem_of_cons in Hx as [->|Hx]; [lia|]. exfalso. apply Hno, Exists_exists. eauto.
Qed.

(** Earliest deadline first is as good as any order (the exchange argument). *)
Lemma feasible_edf t l l' :
  Forall whole l -> l ≡ₚ l' -> sorted_by (fun a b => dl a ?= dl b) l' ->
  feasible t l -> feasible t l'.
Proof.
  intros Hw Hp Hs Hf.
  assert (forall a j b, l' = a ++ j :: b -> t + work a + sv j <= dl j) as Hpre.
  { intros a j b ->.
    assert (Forall (fun x => dl x <= dl j) (a ++ [j])) as Hle.
    { apply Forall_forall. intros x Hx. apply list_elem_of_lookup in Hx as [i Hi].
      pose proof (lookup_lt_Some _ _ _ Hi) as Hlt. rewrite length_app in Hlt. cbn [length] in Hlt.
      apply Z.compare_le_iff. apply (@sorted_by_lookup _ (fun a b => dl a ?= dl b) (cmp_on_total dl) (a ++ j :: b) i (length a)); [done| | |lia].
      - rewrite (app_assoc a [j] b : a ++ j :: b = (a ++ [j]) ++ b). by apply lookup_app_l_Some.
      - by apply list_lookup_middle. }
    assert (t + work (filter (fun x => dl x <= dl j) l) <= dl j) as Ht.
    { apply feasible_threshold; [done|done|]. exists j. rewrite Hp. split; [|lia].
      apply elem_of_app. right. by left. }
    assert (work (a ++ [j]) <= work (filter (fun x => dl x <= dl j) l)) as Hsub.
    { apply work_submseteq.
      - apply Forall_forall. intros x [_ Hx]%list_elem_of_filter. rewrite Forall_forall in Hw. auto.
      - rewrite Hp, (app_assoc a [j] b : a ++ j :: b = (a ++ [j]) ++ b), filter_app.
        apply submseteq_inserts_r.
        replace (filter (fun x => dl x <= dl j) (a ++ [j])) with (a ++ [j]); [done|].
        clear -Hle. induction Hle as [|x k Hx _ IH]; [done|]. rewrite filter_cons, decide_True by done.
        by rewrite <- IH. }
    rewrite work_app in Hsub. cbn [work] in Hsub. lia. }
  clear -Hpre. revert t Hpre. induction l' as [|j l' IH]; intros t Hpre; [done|]. split.
  - specialize (Hpre [] j l' eq_refl). cbn [work] in Hpre. lia.
  - apply IH. intros a x b ->. specialize (Hpre (j :: a) x b eq_refl). cbn [work] in Hpre. lia.
Qed.

(** ** Moore-Hodgson is optimal *)

Section optimality.
Context (now : Z) (jobs : list Job).
Context (Hwhole : Forall whole jobs) (Hnow : 0 <= now) (Hsmall : now + work jobs <= 2 ^ 53).
Context (Hsorted : sorted_by (fun a b => dl a ?= dl b) jobs).

(** After the jobs [done]: the accepted jobs are a feasible schedule, and
    whatever a feasible schedule of these jobs achieves, some accepted jobs
    achieve with no more machine time. *)
Record mh_inv (dn : list Job) (st : list Job * list Job * f64) : Prop := {
  mi_sub : st.1.1 `sublist_of` dn;
  mi_clock : st.2 = of_Z (now + work st.1.1);
  mi_feasible : feasible now st.1.1;
  mi_dominates : forall S, S `sublist_of` dn -> feasible now S ->
    exists T, T ⊆+ st.1.1 /\ length T = length S /\ work T <= work S
}.

Lemma whole_sub l : l ⊆+ jobs -> Forall whole l.
Proof. intros H. by eapply Forall_submseteq. Qed.

Lemma sum_small l : l ⊆+ jobs -> small (now + work l) /\ 0 <= work l.
Proof.
  intros H. pose proof (work_submseteq _ _ Hwhole H). pose proof (work_nonneg _ (whole_sub _ H)).
  unfold small. lia.
Qed.

(** What the exact comparison says about the evicted job. *)
Lemma by_length_le a b : whole a -> whole b -> by_length a b <> Gt -> sv a <= sv b.
Proof.
  intros (_ & Sa & _ & Ea & _) (_ & Sb & _ & Eb & _) H.
  assert (total_cmp (service_ms a) (service_ms b) <> Gt) as Hc.
  { intros E. apply H. unfold by_length, cmp_then, then_cmp.
    change (cmp_on (fun j => total_key (service_ms j)) a b) with (total_cmp (service_ms a) (service_ms b)).
    by rewrite E. }
  rewrite Ea, Eb, total_cmp_of_Z in Hc by done. exact Hc.
Qed.

(** Dominating sets survive the eviction of the longest job. *)
Lemma dominate_evict B r B' T :
  Forall whole B -> B ≡ₚ r :: B' -> (forall x, x ∈ B -> sv x <= sv r) ->
  T ⊆+ B -> (length T < length B)%nat ->
  exists T', T' ⊆+ B' /\ length T' = length T /\ work T' <= work T.
Proof.
  intros HB Hp Hmax HT Hlen. rewrite Hp in HT. apply submseteq_cons_r in HT as [HT|(T1 & HT1 & HT1')].
  { by exists T. }
  apply submseteq_Permutation in HT1' as [k Hk].
  assert (length T = S (length T1)) as HlT. { by rewrite HT1. }
  assert (length B = S (length T1 + length k)) as HlB by (by rewrite Hp, Hk; cbn [length]; rewrite length_app).
  destruct k as [|x k]; [cbn [length] in HlB; lia|].
  assert (B' ≡ₚ x :: T1 ++ k) as Hk' by by rewrite Hk, Permutation_middle.
  exists (x :: T1). split; [|split].
  - rewrite Hk'. apply submseteq_skip, submseteq_inserts_r. done.
  - by rewrite HlT.
  - rewrite HT1. cbn [work]. assert (sv x <= sv r); [|lia]. apply Hmax. rewrite Hp, Hk'. right. by left.
Qed.

Lemma sublist_snoc_inv {A} (l k : list A) x :
  l `sublist_of` k ++ [x] -> l `sublist_of` k \/ exists l', l = l' ++ [x] /\ l' `sublist_of` k.
Proof.
  intros H. apply sublist_app_r in H as (l1 & l2 & -> & H1 & H2).
  apply sublist_cons_r in H2 as [H2|(l3 & -> & H2)]; apply sublist_nil_r in H2 as ->.
  - left. by rewrite app_nil_r.
  - right. eauto.
Qed.

Lemma mh_inv_step dn job rest st :
  jobs = dn ++ job :: rest -> mh_inv dn st -> mh_inv (dn ++ [job]) (mh_step st job).
Proof.
  intros Hj Hinv. destruct st as [[A dem] clock]. destruct Hinv as [Hsub Hclock Hfeas Hdom].
  cbn [fst snd] in *.
  assert (dn ++ [job] ⊆+ jobs) as Hdn.
  { rewrite Hj, (app_assoc dn [job] rest : dn ++ job :: rest = (dn ++ [job]) ++ rest).
    by apply submseteq_inserts_r. }
  assert (A ++ [job] `sublist_of` dn ++ [job]) as HsB by by apply sublist_app.
  assert (A ++ [job] ⊆+ jobs) as HB by (etransitivity; [by apply sublist_submseteq|done]).
  assert (A ⊆+ jobs) as HA by (etransitivity; [|exact HB]; by apply submseteq_inserts_r).
  pose proof (whole_sub _ HB) as HwB. pose proof (sum_small _ HB) as [SB _].
  pose proof (sum_small _ HA) as [SA _].
  assert (whole job) as Hwj by (apply Forall_app in HwB as [_ Hx]; by apply Forall_cons in Hx as [Hx _]).
  pose proof Hwj as (Hjp & Sj & Sd & Ej & Ed).
  rewrite work_app in SB. cbn [work] in SB. rewrite Z.add_0_r, Z.add_assoc in SB.
  assert (fadd clock (service_ms job) = of_Z (now + work A + sv job)) as Hc.
  { rewrite Hclock, Ej at 1. by apply fadd_of_Z. }
  (* domination over A ++ [job] *)
  assert (forall S, S `sublist_of` dn ++ [job] -> feasible now S ->
    exists T, T ⊆+ A ++ [job] /\ length T = length S /\ work T <= work S) as HdB.
  { intros S HS Hf. apply sublist_snoc_inv in HS as [HS|(S' & -> & HS)].
    - destruct (Hdom S HS Hf) as (T & HT & Hl & Hw). exists T. split; [by apply submseteq_inserts_r|done].
    - apply feasible_app in Hf as [Hf _]. destruct (Hdom S' HS Hf) as (T & HT & Hl & Hw).
      exists (T ++ [job]). split; [by apply submseteq_app|]. rewrite !length_app, !work_app. cbn [length work]. lia. }
  destruct (mh_step_cases A dem clock job) as [[Hle ->]|(Hgt & i & r & Hi & Hmax & ->)].
  - rewrite Hc, Ed, fgt_of_Z in Hle by done. apply Z.ltb_ge in Hle.
    split; cbn [fst snd]; [done| | |done].
    + rewrite Hc, work_app. cbn [work]. f_equal. lia.
    + apply feasible_app. split; [done|]. cbn [feasible]. split; [lia|done].
  - rewrite Hc, Ed, fgt_of_Z in Hgt by done. apply Z.ltb_lt in Hgt.
    assert (forall x, x ∈ A ++ [job] -> sv x <= sv r) as Hsv.
    { intros x Hx. rewrite Forall_forall in HwB.
      apply by_length_le; [by apply HwB|apply HwB; by eapply list_elem_of_lookup_2|by apply Hmax]. }
    pose proof (delete_Permutation _ _ _ Hi) as Hperm.
    assert (work (A ++ [job]) = sv r + work (delete i (A ++ [job]))) as Hwd by by rewrite Hperm at 1.
    assert (delete i (A ++ [job]) ⊆+ jobs) as HD by (etransitivity; [apply submseteq_delete|done]).
    pose proof (sum_small _ HD) as [SD _].
    assert (whole r) as (Hrp & Sr & _ & Er & _).
    { rewrite Forall_forall in HwB. apply HwB. by eapply list_elem_of_lookup_2. }
    split; cbn [fst snd].
    + etransitivity; [apply sublist_delete|done].
    + rewrite Hc, Er. rewrite work_app in Hwd. cbn [work] in Hwd.
      rewrite fsub_of_Z; [f_equal; lia|done|done|]. by replace (now + work A + sv job - sv r) with (now + work (delete i (A ++ [job]))) by lia.
    + destruct (decide (i < length A)%nat) as [Hlt|Hge].
      * assert (delete i (A ++ [job]) = delete i A ++ [job]) as Hda by by apply delete_app_lt.
        rewrite Hda in *. apply feasible_app. split.
        { apply (feasible_sublist now A); [by apply whole_sub|apply sublist_delete|done]. }
        cbn [feasible]. split; [|done].
        assert (now + work A <= dl job) as Hlast.
        { apply feasible_total; [|done|].
          - intros E. rewrite E in Hlt. cbn in Hlt. lia.
          - apply Forall_forall. intros x Hx.
            assert (x ∈ dn) as Hxd by (eapply elem_of_submseteq; [exact Hx|by apply sublist_submseteq]).
            apply list_elem_of_lookup in Hxd as [k Hk]. pose proof (lookup_lt_Some _ _ _ Hk).
            apply Z.compare_le_iff.
            apply (@sorted_by_lookup _ (fun a b => dl a ?= dl b) (cmp_on_total dl) jobs k (length dn)); [done| | |lia].
            + rewrite Hj. by apply lookup_app_l_Some.
            + rewrite Hj. by apply list_lookup_middle. }
        rewrite !work_app in Hwd. cbn [work] in Hwd.
        assert (sv job <= sv r) by (apply Hsv, elem_of_app; right; by left). lia.
      * assert (i = length A) as ->.
        { pose proof (lookup_lt_Some _ _ _ Hi) as Hlt. rewrite length_app in Hlt. cbn in Hlt. lia. }
        by rewrite delete_middle, app_nil_r.
    + intros S HS Hf. destruct (HdB S HS Hf) as (T & HT & Hl & Hw).
      destruct (decide (length T < length (A ++ [job]))%nat) as [Hlt|Hge].
      * destruct (dominate_evict _ r _ T HwB Hperm Hsv HT Hlt) as (T' & HT' & Hl' & Hw').
        exists T'. split; [done|]. split; [lia|lia].
      * exfalso. rewrite length_app in Hge. cbn [length] in Hge.
        apply sublist_snoc_inv in HS as [HS|(S' & -> & HS)].
        -- destruct (Hdom S HS Hf) as (T' & HT' & Hl' & _). apply submseteq_length in HT'. lia.
        -- apply feasible_app in Hf as [_ [Hf _]].
           assert (T ≡ₚ A ++ [job]) as HTp.
           { apply submseteq_length_Permutation; [done|]. rewrite length_app. cbn [length]. lia. }
           rewrite HTp, !work_app in Hw. cbn [work] in Hw. lia.
Qed.

Lemma mh_inv_all dn rest st :
  jobs = dn ++ rest -> mh_inv dn st -> mh_inv jobs (foldl mh_step st rest).
Proof.
  revert dn st. induction rest as [|job rest IH]; intros dn st Hj Hinv; cbn [foldl].
  - rewrite app_nil_r in Hj. by rewrite Hj.
  - apply (IH (dn ++ [job])); [by rewrite <- app_assoc|]. by eapply mh_inv_step.
Qed.
End optimality.

(** ** Theorems *)

(** Whatever the policy and the numbers, ordering a queue loses no request
    and invents none: the requests to run on time and the demoted ones are
    together the queue. *)
Theorem order_jobs_partition jobs now policy :
  ordering_all (order_jobs jobs now policy) ≡ₚ map job_id jobs.
Proof. apply order_jobs_all. Qed.

(** The ordering is a function of the set of queued requests: two listings
    of the same queue, whose identifiers are distinct, are ordered the same
    way. *)
Theorem order_jobs_deterministic jobs jobs' now policy :
  NoDup (map job_id jobs) -> jobs ≡ₚ jobs' ->
  order_jobs jobs now policy = order_jobs jobs' now policy.
Proof.
  intros Hnd Hp.
  assert (forall x, sort_by (by_time x) jobs = sort_by (by_time x) jobs') as Hs.
  { intros x. apply (sort_by_order_independent (by_time x)); [|done].
    intros a b Ha Hb He. unfold by_time, cmp_then, then_cmp, cmp_on in He.
    destruct (total_key (x a) ?= total_key (x b)); try done. apply Z.compare_eq in He.
    apply list_elem_of_lookup in Ha as [i Hi], Hb as [j Hj].
    assert (i = j) as ->; [|congruence].
    eapply (NoDup_lookup (map job_id jobs)); [done|..].
    - rewrite list_lookup_fmap, Hi. reflexivity.
    - rewrite list_lookup_fmap, Hj. simpl. by rewrite He. }
  destruct policy; cbn [order_jobs]; unfold by_deadline; [by rewrite Hs..|].
  unfold moore_hodgson, mh_run, by_deadline. by rewrite Hs.
Qed.

(** C1. Moore-Hodgson is optimal.  For a queue of whole-millisecond times that
    fit 53 bits, the requests it plans to run on time do all meet their
    deadlines when run in the planned order from [now], and no schedule, in any
    order, of any part of the queue meets more deadlines. *)
Theorem moore_hodgson_optimal jobs now :
  Forall whole jobs -> 0 <= now -> now + work jobs <= 2 ^ 53 ->
  exists A, A ⊆+ jobs /\ on_time (order_jobs jobs (of_Z now) MooreHodgson) = map job_id A /\
    feasible now A /\
    forall S, S ⊆+ jobs -> feasible now S -> (length S <= length A)%nat.
Proof.
  intros Hw Hnow Hs. cbn [order_jobs]. unfold moore_hodgson, mh_run.
  set (L := sort_by by_deadline jobs).
  assert (L ≡ₚ jobs) as HL by apply sort_by_perm.
  assert (Forall whole L) as HwL by by rewrite HL.
  assert (sorted_by (fun a b => dl a ?= dl b) L) as Hsort.
  { pose proof (sort_by_sorted by_deadline jobs) as Hs0. fold L in Hs0. clear -Hs0 HwL.
    unfold sorted_by in *. induction Hs0 as [|j l Hs0 IH Hall]; [constructor|].
    apply Forall_cons in HwL as [Hj Hl]. constructor; [by apply IH|].
    rewrite Forall_forall in Hall, Hl |- *. intros k Hk Hgt. apply (Hall k Hk).
    destruct Hj as (_ & _ & Sj & _ & Ej). destruct (Hl k Hk) as (_ & _ & Sk & _ & Ek).
    unfold by_deadline, by_time, cmp_then, then_cmp.
    change (cmp_on (fun j => total_key (job_deadline_ms j)) j k)
      with (total_cmp (job_deadline_ms j) (job_deadline_ms k)).
    by rewrite Ej, Ek, total_cmp_of_Z, Hgt by done. }
  assert (mh_inv now [] ([], [], of_Z now)) as H0.
  { split; cbn [fst snd]; [done| |done|].
    - cbn [work]. by rewrite Z.add_0_r.
    - intros S HS _. apply sublist_nil_r in HS as ->. by exists []. }
  assert (now + work L <= 2 ^ 53) as HsL by by rewrite HL.
  pose proof (mh_inv_all now L HwL Hnow HsL Hsort [] L _ eq_refl H0) as [Hsub _ Hf Hdom].
  destruct (foldl mh_step ([], [], of_Z now) L) as [[A dem] c]. cbn [fst snd on_time] in *.
  exists A. split; [rewrite <- HL; by apply sublist_submseteq|]. split; [done|]. split; [done|].
  intros S HS HfS. rewrite <- HL in HS. apply submseteq_sublist_r in HS as (S' & Hp & HS').
  assert (feasible now S') as HfS'.
  { eapply feasible_edf; [|exact Hp| |done].
    - rewrite Hp. eapply Forall_submseteq; [by apply sublist_submseteq|done].
    - clear -HS' Hsort. unfold sorted_by in *. induction HS' as [|x l k Hlk IH|x l k Hlk IH]; [done| |].
      + inversion Hsort as [|? ? Hk Hall]; subst. constructor; [by apply IH|].
        rewrite Forall_forall in Hall |- *. intros y Hy. apply Hall.
        eapply elem_of_submseteq; [done|by apply sublist_submseteq].
      + inversion Hsort; subst. by apply IH. }
  destruct (Hdom S' HS' HfS') as (T & HT & HlT & _). apply submseteq_length in HT.
  rewrite Hp. lia.
Qed.

(** ** The theorems on a queue *)

Definition queue_sample : list Job :=
  [mkJob 1 f0 (of_Z 60) (of_Z 50); mkJob 2 f0 (of_Z 61) (of_Z 10); mkJob 3 f0 (of_Z 63) (of_Z 20)].

Lemma queue_sample_whole : Forall whole queue_sample.
Proof.
  assert (forall i d s, 0 <= s -> small s -> small d -> whole (mkJob i f0 (of_Z d) (of_Z s))) as H.
  { intros i d s H0 Hs Hd. unfold whole, sv, dl. cbn [service_ms job_deadline_ms].
    by rewrite !zval_of_Z by done. }
  repeat (apply Forall_cons; split; [by apply H|]). done.
Qed.

Lemma order_jobs_deterministic_witness :
  NoDup (map job_id queue_sample) /\
  order_jobs queue_sample f0 Edf = order_jobs (rev queue_sample) f0 Edf.
Proof.
  assert (NoDup (map job_id queue_sample)) as H by (by apply (bool_decide_unpack _); vm_compute).
  split; [exact H|]. apply order_jobs_deterministic; [exact H|apply Permutation_rev].
Defined.

Lemma moore_hodgson_optimal_witness :
  on_time (order_jobs queue_sample f0 MooreHodgson) = [2; 3] /\
  forall S, S ⊆+ queue_sample -> feasible 0 S -> (length S <= 2)%nat.
Proof.
  assert (0 + work queue_sample <= 2 ^ 53) as H by by vm_compute.
  destruct (moore_hodgson_optimal queue_sample 0 queue_sample_whole ltac:(lia) H) as (A & _ & HA & _ & Hopt).
  assert (on_time (order_jobs queue_sample (of_Z 0) MooreHodgson) = [2; 3]) as Hc by by vm_compute.
  split; [exact Hc|]. rewrite HA in Hc. apply (f_equal length) in Hc. rewrite length_map in Hc.
  intros S HS HfS. cbn [length] in Hc. rewrite <- Hc. by apply Hopt.
Defined.
