(* ===== verification/Prefill.v ===== *)
(** * Prefill queueing and batch assembly ([crates/sched/src/prefill.rs]) *)

From Stdlib Require Import ZArith Lia.
From stdpp Require Import base option list numbers gmap.
From S2P Require Import Prelude F64 Core Policy.

Module Sched.
Local Open Scope Z_scope.

(** ** State *)

Record PendingPrefill := mkPending {
  pid : RequestId;
  parrival_ms : f64;
  pdeadline_ms : f64;
  compute_tokens : Z;
  done_tokens : Z
}.

Definition remaining (p : PendingPrefill) : Z := sat_sub (compute_tokens p) (done_tokens p).
Definition is_complete (p : PendingPrefill) : bool := remaining p =? 0.

Record PrefillChunk := mkChunk {
  cid : RequestId;
  start : Z;
  tokens : Z;
  completes : bool
}.

Record PrefillBatch := mkBatch {
  chunks : list PrefillChunk;
  total_tokens : Z;
  est_service_ms : f64;
  deadline_limited : bool
}.

Definition batch_default : PrefillBatch := mkBatch [] 0 f0 false.

Record PrefillTuning := mkTuning {
  chunk_tokens : Z;
  max_seqs : nat;
  policy : PrefillPolicy;
  demote_hopeless : bool;
  tokens_per_ms : f64;
  rate_alpha : f64
}.

Definition tuning_default : PrefillTuning :=
  mkTuning 16384 8 MooreHodgson true (of_Z 68) (dec 2 1).

Record PrefillScheduler := mkSched {
  tuning : PrefillTuning;
  queue : gmap Z PendingPrefill;
  order : list Z;
  demoted_set : gset Z
}.

Definition sched_new (t : PrefillTuning) : PrefillScheduler := mkSched t ∅ [] ∅.

Definition queue_depth (s : PrefillScheduler) : nat := size (queue s).

Definition queued_tokens (s : PrefillScheduler) : Z :=
  map_fold (fun _ p n => remaining p + n) 0 (queue s).

Definition rate (s : PrefillScheduler) : f64 := tokens_per_ms (tuning s).
Definition demoted_count (s : PrefillScheduler) : nat := size (demoted_set s).
Definition is_demoted (s : PrefillScheduler) (id : Z) : bool := bool_decide (id ∈ demoted_set s).

(** ** Operations *)

Definition enqueue (s : PrefillScheduler) (p : PendingPrefill) : PrefillScheduler :=
  mkSched (tuning s) (<[pid p := p]> (queue s))
    (match queue s !! pid p with None => order s ++ [pid p] | Some _ => order s end)
    (demoted_set s).

Definition remove (s : PrefillScheduler) (id : Z) : PrefillScheduler * option PendingPrefill :=
  (mkSched (tuning s) (delete id (queue s)) (filter (fun x => x <> id) (order s))
     (demoted_set s ∖ {[id]}), queue s !! id).

Definition set_rate (t : PrefillTuning) (r : f64) : PrefillTuning :=
  mkTuning (chunk_tokens t) (max_seqs t) (policy t) (demote_hopeless t) r (rate_alpha t).

(** The rate observed over a batch, folded into the moving average. *)
Definition observe (t : PrefillTuning) (batch : PrefillBatch) (elapsed_ms : f64) : PrefillTuning :=
  if fgt elapsed_ms f0 && (0 <? total_tokens batch) then
    let observed := fdiv (of_Z (total_tokens batch)) elapsed_ms in
    let a := fclamp (rate_alpha t) f0 f1 in
    set_rate t (fadd (fmul (fsub f1 a) (tokens_per_ms t)) (fmul a observed))
  else t.

Definition advance (p : PendingPrefill) (n : Z) : PendingPrefill :=
  mkPending (pid p) (parrival_ms p) (pdeadline_ms p) (compute_tokens p)
    (Z.min (done_tokens p + n) (compute_tokens p)).

(** The body of the loop over the chunks of a completed batch. *)
Definition complete_one (st : gmap Z PendingPrefill * list Z) (c : PrefillChunk)
    : gmap Z PendingPrefill * list Z :=
  match st.1 !! cid c with
  | Some p =>
      let p' := advance p (tokens c) in
      (<[cid c := p']> st.1, if is_complete p' then st.2 ++ [cid c] else st.2)
  | None => st
  end.

Definition complete (s : PrefillScheduler) (batch : PrefillBatch) (elapsed_ms : f64)
    : PrefillScheduler * list Z :=
  let '(q, finished) := foldl complete_one (queue s, []) (chunks batch) in
  (foldl (fun s id => (remove s id).1)
     (mkSched (observe (tuning s) batch elapsed_ms) q (order s) (demoted_set s)) finished,
   finished).

(** One pass of the assembly loop; [pass] is true for the demoted requests. *)
Fixpoint assemble (t : PrefillTuning) (q : gmap Z PendingPrefill) (now r : f64) (pass : bool)
    (ids : list Z) (batch : PrefillBatch) (binding : f64) : PrefillBatch * f64 :=
  match ids with
  | [] => (batch, binding)
  | id :: ids' =>
      if (max_seqs t <=? length (chunks batch))%nat then (batch, binding)
      else
        let budget_left := sat_sub (chunk_tokens t) (total_tokens batch) in
        if budget_left =? 0 then (batch, binding)
        else
          match q !! id with
          | None => assemble t q now r pass ids' batch binding
          | Some p =>
              let want := Z.min (remaining p) budget_left in
              if want =? 0 then assemble t q now r pass ids' batch binding
              else
                let cand_deadline := if pass then binding else fmin binding (pdeadline_ms p) in
                let cand_tokens := total_tokens batch + want in
                let finish := fadd now (fdiv (of_Z cand_tokens) r) in
                if bool_decide (chunks batch <> []) && fgt finish cand_deadline then
                  let batch' := mkBatch (chunks batch) (total_tokens batch) (est_service_ms batch) true in
                  if pass then (batch', binding)
                  else assemble t q now r pass ids' batch' binding
                else
                  assemble t q now r pass ids'
                    (mkBatch (chunks batch ++ [mkChunk id (done_tokens p) want (want =? remaining p)])
                       cand_tokens (est_service_ms batch) (deadline_limited batch))
                    cand_deadline
          end
  end.

Definition job_of (r : f64) (p : PendingPrefill) : Job :=
  mkJob (pid p) (parrival_ms p) (pdeadline_ms p) (fdiv (of_Z (remaining p)) r).

Definition plan_ordering (s : PrefillScheduler) (now : f64) : JobOrdering :=
  let r := fmax (rate s) MIN_POSITIVE in
  order_jobs (map (job_of r) (omap (fun id => queue s !! id) (order s))) now (policy (tuning s)).

Definition plan (s : PrefillScheduler) (now : f64) : PrefillScheduler * PrefillBatch :=
  if decide (queue s = ∅) then (s, batch_default)
  else
    let r := fmax (rate s) MIN_POSITIVE in
    let ordering := plan_ordering s now in
    let hopeless := if demote_hopeless (tuning s) then demoted ordering else [] in
    let '(b1, d1) := assemble (tuning s) (queue s) now r false (on_time ordering) batch_default INFINITY in
    let '(b2, _) := assemble (tuning s) (queue s) now r true hopeless b1 d1 in
    (mkSched (tuning s) (queue s) (order s) (list_to_set hopeless),
     mkBatch (chunks b2) (total_tokens b2) (fdiv (of_Z (total_tokens b2)) r) (deadline_limited b2)).

(** ** The invariant of the queue *)

Record sched_inv (s : PrefillScheduler) : Prop := {
  si_order : NoDup (order s);
  si_dom : forall id, id ∈ order s <-> is_Some (queue s !! id);
  si_pending : forall id p, queue s !! id = Some p ->
    pid p = id /\ 0 <= done_tokens p <= compute_tokens p
}.

Lemma sched_new_inv t : sched_inv (sched_new t).
Proof.
  split; simpl; [constructor| |].
  - intros id. rewrite lookup_empty. split; [by intros ?%not_elem_of_nil|by intros [? ?]].
  - intros id p. by rewrite lookup_empty.
Qed.

Lemma enqueue_inv s p :
  sched_inv s -> 0 <= done_tokens p <= compute_tokens p -> sched_inv (enqueue s p).
Proof.
  intros [Ho Hd Hp] Hr. split; simpl.
  - destruct (queue s !! pid p) eqn:E; [done|]. apply NoDup_app. split; [done|].
    split; [|apply NoDup_singleton]. intros x Hx Hx'. apply list_elem_of_singleton in Hx' as ->.
    apply Hd in Hx as [? ?]. congruence.
  - intros id. destruct (decide (id = pid p)) as [->|Hne].
    + rewrite lookup_insert_eq. split; [by eauto|]. intros _.
      destruct (queue s !! pid p) eqn:E; [apply Hd; by eauto|]. apply elem_of_app. right. by left.
    + rewrite lookup_insert_ne, <- Hd by done. destruct (queue s !! pid p); [done|].
      rewrite elem_of_app, list_elem_of_singleton. naive_solver.
  - intros id q Hq. destruct (decide (id = pid p)) as [->|Hne].
    + rewrite lookup_insert_eq in Hq. by simplify_eq.
    + rewrite lookup_insert_ne in Hq by done. by apply Hp.
Qed.

Lemma remove_inv s id : sched_inv s -> sched_inv (remove s id).1.
Proof.
  intros [Ho Hd Hp]. split; simpl.
  - by apply NoDup_filter.
  - intros x. rewrite list_elem_of_filter, Hd. destruct (decide (x = id)) as [->|Hne].
    + rewrite lookup_delete_eq. split; [tauto|by intros [? ?]].
    + rewrite lookup_delete_ne by done. tauto.
  - intros x p Hx. apply lookup_delete_Some in Hx as [_ Hx]. by apply Hp.
Qed.

(** ** Assembling a batch *)

Definition chunk_sum (cs : list PrefillChunk) : Z := foldr (fun c n => tokens c + n) 0 cs.

Lemma chunk_sum_app a b : chunk_sum (a ++ b) = chunk_sum a + chunk_sum b.
Proof. unfold chunk_sum. induction a as [|c a IH]; cbn [app foldr]; lia. Qed.

(** A chunk is a slice of what its request still needs. *)
Definition chunk_ok (q : gmap Z PendingPrefill) (c : PrefillChunk) : Prop :=
  exists p, q !! cid c = Some p /\ start c = done_tokens p /\
    0 < tokens c <= remaining p /\ completes c = (tokens c =? remaining p).

Section assembly.
Context (t : PrefillTuning) (q : gmap Z PendingPrefill) (now r : f64).

Record batch_inv (b : PrefillBatch) : Prop := {
  bi_sum : total_tokens b = chunk_sum (chunks b);
  bi_budget : 0 <= total_tokens b <= chunk_tokens t;
  bi_seqs : (length (chunks b) <= max_seqs t)%nat;
  bi_chunks : Forall (chunk_ok q) (chunks b);
  bi_partial : forall c, c ∈ chunks b -> completes c = false -> total_tokens b = chunk_tokens t
}.

(** Once there are two members, all of them end by [binding]. *)
Definition deadline_inv (b : PrefillBatch) (binding : f64) : Prop :=
  (2 <= length (chunks b))%nat ->
  fgt (fadd now (fdiv (of_Z (total_tokens b)) r)) binding = false.

Lemma fgt_fmin x a b : fgt x (fmin a b) = false -> fgt x a = false /\ fgt x b = false.
Proof.
  unfold fmin, fgt. destruct (is_nan a) eqn:Na.
  { intros H. split; [|done]. destruct (flt a x) eqn:E; [|done]. apply flt_nan_l in E. congruence. }
  destruct (is_nan b) eqn:Nb.
  { intros H. split; [done|]. destruct (flt b x) eqn:E; [|done]. apply flt_nan_l in E. congruence. }
  destruct (flt b a) eqn:Hba; intros H; change (SpecFloat.SFltb ?u ?v) with (flt u v) in H.
  - split; [|done]. destruct (flt a x) eqn:E; [|done]. pose proof (flt_trans _ _ _ Hba E). congruence.
  - split; [done|]. destruct (flt b x) eqn:E; [|done].
    assert (fle a b = true) as Hab by (rewrite fle_negb_flt, Hba by done; done).
    pose proof (fle_lt_trans _ _ _ Hab E). congruence.
Qed.

Lemma batch_inv_limited b :
  batch_inv b -> batch_inv (mkBatch (chunks b) (total_tokens b) (est_service_ms b) true).
Proof. by intros []. Qed.

Lemma batch_inv_push b id p :
  batch_inv b -> (length (chunks b) < max_seqs t)%nat -> q !! id = Some p ->
  sat_sub (chunk_tokens t) (total_tokens b) <> 0 ->
  let want := Z.min (remaining p) (sat_sub (chunk_tokens t) (total_tokens b)) in
  want <> 0 ->
  batch_inv (mkBatch (chunks b ++ [mkChunk id (done_tokens p) want (want =? remaining p)])
               (total_tokens b + want) (est_service_ms b) (deadline_limited b)).
Proof.
  intros [Hsum Hb Hs Hc Hp] Hlen Hq Hleft want Hwant.
  assert (0 <= remaining p) as Hr by (unfold remaining, sat_sub; lia).
  unfold sat_sub in *.
  split; cbn [chunks total_tokens].
  - rewrite chunk_sum_app, Hsum. cbn. lia.
  - lia.
  - rewrite length_app. cbn. lia.
  - apply Forall_app. split; [done|]. apply Forall_singleton. exists p. cbn [cid start tokens completes].
    split; [done|]. split; [done|]. split; [lia|done].
  - intros c Hin Hinc. apply elem_of_app in Hin as [Hin|Hin].
    + specialize (Hp c Hin Hinc). lia.
    + apply list_elem_of_singleton in Hin as ->. cbn [completes] in Hinc.
      apply Z.eqb_neq in Hinc. lia.
Qed.

(** What a pass over [ids] adds to the batch. *)
Record pass_post (pass : bool) (ids : list Z) (b : PrefillBatch) (d : f64)
    (b' : PrefillBatch) (d' : f64) (cs : list PrefillChunk) : Prop := {
  pp_inv : batch_inv b';
  pp_deadline : deadline_inv b' d';
  pp_chunks : chunks b' = chunks b ++ cs;
  pp_ids : map cid cs `sublist_of` ids;
  pp_binding : forall x, fgt x d' = false -> fgt x d = false;
  pp_members : forall x, fgt x d' = false -> pass = false ->
    forall c p, c ∈ cs -> q !! cid c = Some p -> fgt x (pdeadline_ms p) = false
}.

Lemma pass_stop pass ids b d b' :
  batch_inv b' -> deadline_inv b' d -> chunks b' = chunks b -> pass_post pass ids b d b' d [].
Proof.
  intros Hb Hd He. split; try done.
  - by rewrite app_nil_r.
  - apply sublist_nil_l.
  - by intros ? ? ? ? ? ?%not_elem_of_nil.
Qed.

Lemma pass_skip pass id ids b b2 d b' d' cs :
  chunks b2 = chunks b -> pass_post pass ids b2 d b' d' cs -> pass_post pass (id :: ids) b d b' d' cs.
Proof. intros He [H1 H2 H3 H4 H5 H6]. split; try done; [by rewrite <- He|by apply sublist_cons]. Qed.

Lemma pass_push (pass : bool) id ids b b2 d c p b' d' cs :
  let cand := if pass then d else fmin d (pdeadline_ms p) in
  q !! id = Some p -> cid c = id -> chunks b2 = chunks b ++ [c] ->
  pass_post pass ids b2 cand b' d' cs -> pass_post pass (id :: ids) b d b' d' (c :: cs).
Proof.
  intros cand Hq Hc He [H1 H2 H3 H4 H5 H6]. split; try done.
  - by rewrite H3, He, <- app_assoc.
  - cbn [map]. rewrite Hc. by apply sublist_skip.
  - intros x Hx. apply H5 in Hx. unfold cand in Hx. destruct pass; [done|]. by apply fgt_fmin in Hx as [Hx _].
  - intros x Hx -> c' p' Hin Hq'. apply elem_of_cons in Hin as [->|Hin]; [|by eapply H6].
    assert (p' = p) as -> by congruence. apply H5 in Hx. unfold cand in Hx. by apply fgt_fmin in Hx as [_ Hx].
Qed.

Lemma assemble_spec pass ids : forall b d,
  batch_inv b -> deadline_inv b d ->
  exists b' d' cs, assemble t q now r pass ids b d = (b', d') /\ pass_post pass ids b d b' d' cs.
Proof.
  induction ids as [|id ids IH]; intros b d Hb Hd; cbn [assemble].
  { exists b, d, []. split; [done|by apply pass_stop]. }
  destruct (Nat.leb_spec (max_seqs t) (length (chunks b))) as [|Hlen];
    [exists b, d, []; split; [done|by apply pass_stop]|].
  destruct (Z.eqb_spec (sat_sub (chunk_tokens t) (total_tokens b)) 0) as [|Hleft];
    [exists b, d, []; split; [done|by apply pass_stop]|].
  assert (forall b2, chunks b2 = chunks b -> batch_inv b2 -> deadline_inv b2 d ->
    exists b' d' cs, assemble t q now r pass ids b2 d = (b', d') /\ pass_post pass (id :: ids) b d b' d' cs) as Hskip.
  { intros b2 He Hb2 Hd2. destruct (IH b2 d Hb2 Hd2) as (b' & d' & cs & -> & H).
    exists b', d', cs. split; [done|]. by eapply pass_skip. }
  destruct (q !! id) as [p|] eqn:Hq; [|by apply Hskip].
  destruct (Z.eqb_spec (Z.min (remaining p) (sat_sub (chunk_tokens t) (total_tokens b))) 0) as [|Hwant];
    [by apply Hskip|].
  set (want := Z.min (remaining p) (sat_sub (chunk_tokens t) (total_tokens b))) in *.
  set (cand := if pass then d else fmin d (pdeadline_ms p)).
  destruct (bool_decide (chunks b <> []) && fgt (fadd now (fdiv (of_Z (total_tokens b + want)) r)) cand) eqn:Hlate.
  - destruct pass; [|apply Hskip; [done|by apply batch_inv_limited|done]].
    eexists _, d, []. split; [done|]. apply pass_stop; [by apply batch_inv_limited|done|done].
  - pose proof (batch_inv_push b id p Hb Hlen Hq Hleft Hwant) as Hb2. fold want in Hb2. cbv zeta in Hb2.
    destruct (IH _ cand Hb2) as (b' & d' & cs & -> & H).
    { intros Htwo. cbn [chunks total_tokens] in *. rewrite length_app in Htwo. cbn in Htwo.
      apply andb_false_iff in Hlate as [Hl|Hl]; [|done].
      apply bool_decide_eq_false in Hl. destruct (chunks b); [cbn in Htwo; lia|by destruct Hl]. }
    exists b', d'. eexists. split; [done|].
    by refine (pass_push pass id ids b _ d (mkChunk id (done_tokens p) want (want =? remaining p)) p b' d' cs Hq _ _ H).
Qed.

(** What is in the batch stays there. *)
Lemma assemble_keeps pass ids b d :
  chunks b <> [] -> chunks (assemble t q now r pass ids b d).1 <> [].
Proof.
  revert b d. induction ids as [|i ids IH]; intros b d Hne; cbn [assemble]; [done|].
  destruct (_ <=? _)%nat; [done|]. destruct (_ =? 0); [done|]. destruct (q !! i); [|by apply IH].
  destruct (_ =? 0); [by apply IH|]. destruct (_ && _).
  - destruct pass; [done|by apply IH].
  - apply IH. cbn [chunks]. by destruct (chunks b).
Qed.

(** Something runs if something can. *)
Lemma assemble_progress pass ids id p b d :
  chunks b = [] -> total_tokens b = 0 -> (0 < max_seqs t)%nat -> 0 < chunk_tokens t ->
  id ∈ ids -> q !! id = Some p -> 0 < remaining p ->
  chunks (assemble t q now r pass ids b d).1 <> [].
Proof.
  intros Hb Ht Hm Hc Hin Hq Hr. induction ids as [|i ids IH]; [by apply not_elem_of_nil in Hin|].
  cbn [assemble]. rewrite Hb, Ht. cbn [length].
  destruct (Nat.leb_spec (max_seqs t) 0); [lia|]. unfold sat_sub.
  destruct (Z.eqb_spec (Z.max 0 (chunk_tokens t - 0)) 0); [lia|].
  assert (i = id \/ (i <> id /\ id ∈ ids)) as [->|[Hne Hin']].
  { apply elem_of_cons in Hin as [->|Hin]; [by left|]. destruct (decide (i = id)); [by left|by right]. }
  - rewrite Hq. destruct (Z.eqb_spec (Z.min (remaining p) (Z.max 0 (chunk_tokens t - 0))) 0); [lia|].
    rewrite bool_decide_false by (by intros H2). cbn [andb]. apply assemble_keeps. done.
  - destruct (q !! i); [|by apply IH]. destruct (_ =? 0); [by apply IH|].
    rewrite bool_decide_false by (by intros H2). cbn [andb]. apply assemble_keeps. done.
Qed.
End assembly.

Lemma assemble_empty t q now r pass ids b d :
  (forall id, id ∈ ids -> q !! id = None) -> (assemble t q now r pass ids b d).1 = b.
Proof.
  induction ids as [|i ids IH]; intros Hno; cbn [assemble]; [done|].
  destruct (_ <=? _)%nat; [done|]. destruct (_ =? 0); [done|].
  rewrite (Hno i) by left. apply IH. intros id Hin. apply Hno. by right.
Qed.

(** ** Planning *)

(** The jobs handed to the policy are the queued requests. *)
Lemma plan_ordering_all s now :
  sched_inv s -> ordering_all (plan_ordering s now) ≡ₚ order s.
Proof.
  intros [Ho Hd Hp]. unfold plan_ordering. rewrite order_jobs_all, map_map.
  assert (forall l, (forall id, id ∈ l -> is_Some (queue s !! id)) ->
    map (fun p => job_id (job_of (fmax (rate s) MIN_POSITIVE) p)) (omap (fun id => queue s !! id) l) = l) as H.
  { induction l as [|id l IH]; intros Hl; [done|]. destruct (Hl id) as [p Hq]; [by left|].
    cbn [omap list_omap]. rewrite Hq. cbn [map job_of job_id]. destruct (Hp _ _ Hq) as [-> _].
    f_equal. apply IH. intros x Hx. apply Hl. by right. }
  rewrite H; [done|]. intros id Hin. by apply Hd.
Qed.

(** The batch a plan assembles, pass by pass. *)
Lemma plan_spec s now :
  sched_inv s -> 0 <= chunk_tokens (tuning s) -> queue s <> ∅ ->
  let r := fmax (rate s) MIN_POSITIVE in
  let o := plan_ordering s now in
  let hopeless := if demote_hopeless (tuning s) then demoted o else [] in
  exists s' b cs1 cs2 d, plan s now = (s', b) /\ queue s' = queue s /\ sched_inv s' /\
    batch_inv (tuning s) (queue s) b /\ deadline_inv now r b d /\
    chunks b = cs1 ++ cs2 /\
    map cid cs1 `sublist_of` on_time o /\ map cid cs2 `sublist_of` hopeless /\
    est_service_ms b = fdiv (of_Z (total_tokens b)) r /\
    (forall x, fgt x d = false -> forall c p, c ∈ cs1 -> queue s !! cid c = Some p -> fgt x (pdeadline_ms p) = false).
Proof.
  intros Hinv Hbud Hne r o hopeless. unfold plan. rewrite decide_False by done. fold r. fold o. fold hopeless.
  assert (batch_inv (tuning s) (queue s) batch_default) as Hb0.
  { split; simpl; [done|lia|lia|constructor|]. by intros c ?%not_elem_of_nil. }
  assert (deadline_inv now r batch_default INFINITY) as Hd0 by (intros H; cbn in H; lia).
  destruct (assemble_spec (tuning s) (queue s) now r false (on_time o) _ _ Hb0 Hd0)
    as (b1 & d1 & cs1 & -> & [Hi1 Hl1 Hc1 Hs1 Hn1 Hm1]).
  destruct (assemble_spec (tuning s) (queue s) now r true hopeless _ _ Hi1 Hl1)
    as (b2 & d2 & cs2 & -> & [Hi2 Hl2 Hc2 Hs2 Hn2 Hm2]).
  exists (mkSched (tuning s) (queue s) (order s) (list_to_set hopeless)),
    (mkBatch (chunks b2) (total_tokens b2) (fdiv (of_Z (total_tokens b2)) r) (deadline_limited b2)), cs1, cs2, d2.
  split; [done|]. split; [done|]. split; [by destruct Hinv|]. split; [by destruct Hi2|]. split; [done|].
  split; [cbn [chunks]; by rewrite Hc2, Hc1|]. split; [done|]. split; [done|]. split; [done|].
  intros x Hx. apply (Hm1 x); [by apply Hn2|done].
Qed.

(** ** Completing a batch *)

Definition total_remaining (q : gmap Z PendingPrefill) : Z :=
  map_fold (fun _ p n => remaining p + n) 0 q.

Lemma total_delete q id p :
  q !! id = Some p -> total_remaining q = remaining p + total_remaining (delete id q).
Proof.
  intros H. unfold total_remaining.
  rewrite (map_fold_delete_L _ _ id p q); [done| |done]. intros. lia.
Qed.

Lemma total_insert q id p p' :
  q !! id = Some p -> total_remaining (<[id := p']> q) = total_remaining q - remaining p + remaining p'.
Proof.
  intros H. rewrite (total_delete q id p) by done.
  rewrite (total_delete (<[id := p']> q) id p') by apply lookup_insert_eq.
  rewrite delete_insert_eq. lia.
Qed.

Lemma advance_remaining p n :
  0 <= done_tokens p <= compute_tokens p -> 0 < n <= remaining p ->
  remaining (advance p n) = remaining p - n.
Proof. unfold remaining, advance, sat_sub. cbn. lia. Qed.

(** The queue after the loop over the chunks. *)
Record fold_post (q : gmap Z PendingPrefill) (cs : list PrefillChunk) (q' : gmap Z PendingPrefill) : Prop := {
  fp_total : total_remaining q' = total_remaining q - chunk_sum cs;
  fp_other : forall id, id ∉ map cid cs -> q' !! id = q !! id;
  fp_chunk : forall c, c ∈ cs -> exists p, q !! cid c = Some p /\
    q' !! cid c = Some (advance p (tokens c)) /\
    (completes c = true <-> remaining (advance p (tokens c)) = 0)
}.

Lemma complete_fold cs : forall q fin,
  (forall id p, q !! id = Some p -> 0 <= done_tokens p <= compute_tokens p) ->
  Forall (chunk_ok q) cs -> NoDup (map cid cs) ->
  exists q', foldl complete_one (q, fin) cs = (q', fin ++ map cid (filter (fun c => completes c = true) cs)) /\
    fold_post q cs q'.
Proof.
  induction cs as [|c cs IH]; intros q fin Hq Hok Hnd; cbn [foldl].
  { exists q. rewrite app_nil_r. split; [done|]. split; [cbn; lia|done|]. by intros c ?%not_elem_of_nil. }
  apply Forall_cons in Hok as [(p & Hp & Hst & Htok & Hc) Hok].
  cbn [map] in Hnd. apply NoDup_cons in Hnd as [Hnin Hnd].
  pose proof (Hq _ _ Hp) as Hdone.
  pose proof (advance_remaining p (tokens c) Hdone Htok) as Hadv.
  unfold complete_one at 2. cbn [fst snd]. rewrite Hp.
  assert (forall id, id ∈ map cid cs -> <[cid c := advance p (tokens c)]> q !! id = q !! id) as Hsame.
  { intros id Hid. apply lookup_insert_ne. by intros <-. }
  destruct (IH (<[cid c := advance p (tokens c)]> q)
    (if is_complete (advance p (tokens c)) then fin ++ [cid c] else fin)) as (q' & -> & [Htot Hoth Hch]).
  - intros id p' Hp'. destruct (decide (id = cid c)) as [->|Hne].
    + rewrite lookup_insert_eq in Hp'. simplify_eq. unfold advance. cbn. lia.
    + rewrite lookup_insert_ne in Hp' by done. by eapply Hq.
  - apply Forall_forall. intros c' Hc'. rewrite Forall_forall in Hok.
    destruct (Hok c' Hc') as (p' & Hp' & H). exists p'. rewrite Hsame; [done|]. by apply list_elem_of_fmap_2.
  - done.
  - exists q'. split.
    + f_equal. rewrite filter_cons, Hc. unfold is_complete. rewrite Hadv.
      destruct (Z.eqb_spec (remaining p - tokens c) 0), (Z.eqb_spec (tokens c) (remaining p)); try lia;
        simpl; by rewrite <- ?app_assoc.
    + split.
      * rewrite Htot, (total_insert q _ p) by done. cbn [chunk_sum foldr]. fold (chunk_sum cs). lia.
      * intros id Hid. cbn [map] in Hid. apply not_elem_of_cons in Hid as [Hne Hid].
        rewrite (Hoth id Hid). by apply lookup_insert_ne.
      * intros c' Hin. apply elem_of_cons in Hin as [->|Hin].
        -- exists p. split; [done|]. rewrite (Hoth (cid c) Hnin), lookup_insert_eq. split; [done|].
           rewrite Hadv, Hc, Z.eqb_eq. lia.
        -- destruct (Hch c' Hin) as (p' & Hp' & H). exists p'. rewrite <- Hsame; [done|]. by apply list_elem_of_fmap_2.
Qed.

Lemma remove_fold ids : forall s,
  sched_inv s -> NoDup ids ->
  (forall id, id ∈ ids -> exists p, queue s !! id = Some p /\ remaining p = 0) ->
  let s' := foldl (fun s id => (remove s id).1) s ids in
  sched_inv s' /\ total_remaining (queue s') = total_remaining (queue s) /\ tuning s' = tuning s /\
  forall id, queue s' !! id = if decide (id ∈ ids) then None else queue s !! id.
Proof.
  induction ids as [|i ids IH]; intros s Hinv Hnd Hids; cbn [foldl].
  { repeat (split; [done|]). intros id. destruct (decide _) as [Hin|]; [by apply not_elem_of_nil in Hin|done]. }
  apply NoDup_cons in Hnd as [Hnin Hnd].
  destruct (Hids i) as (p & Hp & Hr); [by left|].
  destruct (IH (remove s i).1 (remove_inv s i Hinv) Hnd) as (Hi & Ht & Htu & Hq).
  { intros id Hin. cbn [remove fst queue]. rewrite lookup_delete_ne by (intros ->; done). apply Hids. by right. }
  split; [done|]. split.
  { rewrite Ht. cbn [remove fst queue]. rewrite (total_delete (queue s) i p) by done. lia. }
  split; [done|]. intros id. rewrite Hq. cbn [remove fst queue].
  destruct (decide (id = i)) as [->|Hne].
  - rewrite lookup_delete_eq. rewrite (decide_True (P := i ∈ i :: ids)) by left. by destruct (decide _).
  - rewrite lookup_delete_ne by done.
    destruct (decide (id ∈ ids)), (decide (id ∈ i :: ids)) as [Hin|Hn]; try done.
    + destruct Hn. by right.
    + apply elem_of_cons in Hin. tauto.
Qed.

(** A completed batch, whatever its parts, as one statement. *)
Lemma complete_spec s b elapsed :
  sched_inv s -> Forall (chunk_ok (queue s)) (chunks b) -> NoDup (map cid (chunks b)) ->
  exists s', complete s b elapsed = (s', map cid (filter (fun c => completes c = true) (chunks b))) /\
    sched_inv s' /\ queued_tokens s' = queued_tokens s - chunk_sum (chunks b) /\
    (forall id, id ∉ map cid (chunks b) -> queue s' !! id = queue s !! id) /\
    (forall c, c ∈ chunks b -> exists p, queue s !! cid c = Some p /\
       queue s' !! cid c = if completes c then None else Some (advance p (tokens c))).
Proof.
  intros Hinv Hok Hnd. destruct Hinv as [Ho Hd Hp]. unfold complete.
  destruct (complete_fold (chunks b) (queue s) []) as (q' & -> & [Htot Hoth Hch]); [by apply Hp|done|done|].
  cbn [app]. set (fin := map cid (filter (fun c => completes c = true) (chunks b))).
  set (s1 := mkSched (observe (tuning s) b elapsed) q' (order s) (demoted_set s)).
  assert (forall id, is_Some (q' !! id) <-> is_Some (queue s !! id)) as Hdom.
  { intros id. destruct (decide (id ∈ map cid (chunks b))) as [Hin|Hnin].
    - apply list_elem_of_fmap in Hin as (c & -> & Hin). destruct (Hch c Hin) as (p & -> & -> & _). split; eauto.
    - by rewrite Hoth. }
  assert (sched_inv s1) as Hs1.
  { split; cbn [s1 order queue]; [done| |].
    - intros id. rewrite Hdom. apply Hd.
    - intros id p Hq. destruct (decide (id ∈ map cid (chunks b))) as [Hin|Hnin].
      + apply list_elem_of_fmap in Hin as (c & -> & Hin). destruct (Hch c Hin) as (p0 & Hp0 & Hq' & _).
        assert (p = advance p0 (tokens c)) as -> by congruence. destruct (Hp _ _ Hp0) as [<- Hr].
        rewrite Forall_forall in Hok. destruct (Hok c Hin) as (p1 & _ & _ & Ht & _).
        split; [done|]. unfold advance. cbn. lia.
      + rewrite Hoth in Hq by done. by apply Hp. }
  assert (forall c, c ∈ chunks b -> cid c ∈ fin <-> completes c = true) as Hfin.
  { intros c Hc. unfold fin. rewrite list_elem_of_fmap. split.
    - intros (c' & He & Hc'). apply list_elem_of_filter in Hc' as [Ht Hc'].
      apply list_elem_of_lookup in Hc as [i Hi], Hc' as [j Hj].
      assert (i = j) as ->; [|congruence].
      eapply (NoDup_lookup (map cid (chunks b))); [done|by rewrite list_lookup_fmap, Hi|].
      rewrite list_lookup_fmap, Hj. simpl. by rewrite He.
    - intros Ht. exists c. split; [done|]. by apply list_elem_of_filter. }
  destruct (remove_fold fin s1 Hs1) as (Hi & Ht & _ & Hq).
  - eapply sublist_NoDup; [exact Hnd|]. unfold fin. apply fmap_sublist, sublist_filter.
  - intros id Hin. unfold fin in Hin. apply list_elem_of_fmap in Hin as (c & -> & Hc).
    apply list_elem_of_filter in Hc as [Hc Hin]. destruct (Hch c Hin) as (p & _ & Hq' & Hr).
    exists (advance p (tokens c)). split; [done|]. by apply Hr.
  - eexists. split; [done|]. split; [done|]. split; [|split].
    + change (queued_tokens s) with (total_remaining (queue s)). unfold queued_tokens.
      fold (total_remaining (queue (foldl (fun s id => (remove s id).1) s1 fin))). by rewrite Ht.
    + intros id Hnin. rewrite Hq, decide_False; [by apply Hoth|]. intros Hin. apply Hnin.
      unfold fin in Hin. apply list_elem_of_fmap in Hin as (c & -> & Hc). apply list_elem_of_filter in Hc as [_ Hc].
      by apply list_elem_of_fmap_2.
    + intros c Hc. destruct (Hch c Hc) as (p & Hp0 & Hq' & _). exists p. split; [done|]. rewrite Hq.
      destruct (decide (cid c ∈ fin)) as [Hin|Hnin]; rewrite (Hfin c Hc) in *.
      * by rewrite Hin.
      * by destruct (completes c).
Qed.

(** ** Theorems *)

Lemma planned_NoDup s now cs1 cs2 :
  sched_inv s -> map cid cs1 `sublist_of` on_time (plan_ordering s now) ->
  map cid cs2 `sublist_of` (if demote_hopeless (tuning s) then demoted (plan_ordering s now) else []) ->
  NoDup (map cid (cs1 ++ cs2)).
Proof.
  intros Hinv H1 H2. rewrite map_app. eapply sublist_NoDup; [|apply sublist_app; [exact H1|exact H2]].
  pose proof (plan_ordering_all s now Hinv) as Hp. unfold ordering_all in Hp.
  destruct (demote_hopeless (tuning s)).
  - rewrite Hp. apply Hinv.
  - rewrite app_nil_r. apply (sublist_NoDup _ (on_time (plan_ordering s now) ++ demoted (plan_ordering s now))).
    + rewrite Hp. apply Hinv.
    + by apply sublist_inserts_r.
Qed.

Lemma plan_tuning s now : tuning (plan s now).1 = tuning s.
Proof.
  unfold plan. destruct (decide _); [done|].
  destruct (assemble _ _ _ _ false _ _ _) as [b1 d1].
  by destruct (assemble _ _ _ _ true _ _ _) as [b2 d2].
Qed.

Lemma complete_tuned s b ms : let t := tuning (complete s b ms).1 in
  chunk_tokens t = chunk_tokens (tuning s) /\ max_seqs t = max_seqs (tuning s) /\
  demote_hopeless t = demote_hopeless (tuning s).
Proof.
  cbn zeta. unfold complete. destruct (foldl complete_one _ _) as [q fin]. cbn [fst].
  assert (forall ids s0, tuning (foldl (fun s id => (remove s id).1) s0 ids) = tuning s0) as ->.
  { induction ids as [|i ids IH]; intros s0; [done|]. cbn [foldl]. by rewrite IH. }
  cbn [tuning]. unfold observe. by destruct (_ && _).
Qed.

Lemma complete_budget s b ms :
  chunk_tokens (tuning (complete s b ms).1) = chunk_tokens (tuning s).
Proof. apply complete_tuned. Qed.

(** Completing a batch removes its finished requests and no others. *)
Lemma complete_size s b elapsed :
  sched_inv s -> Forall (chunk_ok (queue s)) (chunks b) -> NoDup (map cid (chunks b)) ->
  let '(s', finished) := complete s b elapsed in
  NoDup finished /\ (forall id, id ∈ finished -> is_Some (queue s !! id)) /\
  (forall id, is_Some (queue s' !! id) <-> is_Some (queue s !! id) /\ id ∉ finished) /\
  Z.of_nat (size (queue s)) = Z.of_nat (size (queue s')) + Z.of_nat (length finished).
Proof.
  intros Hi Hok Hnd. destruct (complete_spec s b elapsed Hi Hok Hnd) as (s' & -> & _ & _ & Hoth & Hin).
  set (fin := map cid (filter (fun c => completes c = true) (chunks b))).
  assert (NoDup fin) as Hf.
  { unfold fin. eapply (sublist_NoDup _ (map cid (chunks b))); [done|].
    clear. induction (chunks b) as [|c l IH]; [constructor|]. rewrite filter_cons.
    destruct (decide _); cbn [map]; by constructor. }
  assert (forall id, id ∈ fin -> exists c, c ∈ chunks b /\ cid c = id /\ completes c = true) as Hfin.
  { intros id H. apply list_elem_of_fmap in H as (c & -> & H). apply list_elem_of_filter in H as [? ?]. eauto. }
  assert (forall id, id ∈ fin -> is_Some (queue s !! id)) as Hs.
  { intros id H. destruct (Hfin id H) as (c & Hc & <- & _). destruct (Hin c Hc) as (p & -> & _). eauto. }
  assert (forall id, is_Some (queue s' !! id) <-> is_Some (queue s !! id) /\ id ∉ fin) as Hd.
  { intros id. destruct (decide (id ∈ map cid (chunks b))) as [Hc|Hn].
    - apply list_elem_of_fmap in Hc as (c & -> & Hc). destruct (Hin c Hc) as (p & Hp & Hp'). rewrite Hp'.
      destruct (completes c) eqn:Ec.
      + split; [by intros [? ?]|]. intros [_ H]. exfalso. apply H. apply list_elem_of_fmap_2.
        by apply list_elem_of_filter.
      + split; [|by eauto]. intros _. split; [by eauto|]. intros H. destruct (Hfin _ H) as (c' & Hc' & E & Ec').
        destruct (Hin c' Hc') as (p1 & _ & H1). rewrite E, Hp', Ec' in H1. done.
    - rewrite (Hoth id Hn). split; [|tauto]. intros H. split; [done|]. intros Hc. apply Hn.
      destruct (Hfin _ Hc) as (c & Hc' & <- & _). by apply list_elem_of_fmap_2. }
  split; [done|]. split; [done|]. split; [done|].
  assert (dom (queue s) = dom (queue s') ∪ list_to_set fin) as E.
  { apply set_eq. intros id. rewrite elem_of_union, !elem_of_dom, elem_of_list_to_set, Hd.
    destruct (decide (id ∈ fin)) as [H|H]; [|tauto]. pose proof (Hs id H). tauto. }
  rewrite <- !size_dom, E, size_union, size_list_to_set by (done || (apply elem_of_disjoint; intros id;
    rewrite elem_of_dom, elem_of_list_to_set, Hd; tauto)). lia.
Qed.

(** What a planned batch is, for the theorems here and for the callers of
    [plan]. *)
Lemma plan_bounds s now :
  sched_inv s -> 0 <= chunk_tokens (tuning s) ->
  exists s' b, plan s now = (s', b) /\ queue s' = queue s /\ sched_inv s' /\
    (length (chunks b) <= max_seqs (tuning s))%nat /\
    total_tokens b = chunk_sum (chunks b) /\ 0 <= total_tokens b <= chunk_tokens (tuning s) /\
    Forall (chunk_ok (queue s)) (chunks b) /\ NoDup (map cid (chunks b)) /\
    (forall c, c ∈ chunks b -> completes c = false -> total_tokens b = chunk_tokens (tuning s)).
Proof.
  intros Hinv Hb. destruct (decide (queue s = ∅)) as [He|Hne].
  - unfold plan. rewrite decide_True by done. exists s, batch_default. cbn [chunks total_tokens batch_default length map].
    do 8 (split; [first [done|lia|constructor]|]). by intros c ?%not_elem_of_nil.
  - destruct (plan_spec s now Hinv Hb Hne) as (s' & b & cs1 & cs2 & d & -> & Hq & Hi & [] & _ & Hc & H1 & H2 & _).
    exists s', b. repeat (split; [done|]). split; [|done]. rewrite Hc. exact (planned_NoDup s now cs1 cs2 Hinv H1 H2).
Qed.

(** A planned batch respects every budget: no more sequences than
    [max_seqs], no more tokens than [chunk_tokens] and exactly the sum of its
    chunks; each chunk continues a queued request where it stopped, takes at
    least one and at most its remaining tokens and knows whether it finishes
    it; no request is in it twice; and only the budget can cut a request short.
    Planning does not touch the queue. *)
Theorem plan_within_budget s now :
  sched_inv s -> 0 <= chunk_tokens (tuning s) ->
  exists s' b, plan s now = (s', b) /\ queue s' = queue s /\ sched_inv s' /\
    (length (chunks b) <= max_seqs (tuning s))%nat /\
    total_tokens b = chunk_sum (chunks b) /\ 0 <= total_tokens b <= chunk_tokens (tuning s) /\
    Forall (chunk_ok (queue s)) (chunks b) /\ NoDup (map cid (chunks b)) /\
    (forall c, c ∈ chunks b -> completes c = false -> total_tokens b = chunk_tokens (tuning s)).
Proof. apply plan_bounds. Qed.

(** C17. A batch never grows past a deadline it could still meet: in a batch of
    two or more, the estimated end of the batch is no later than the first-token
    deadline of any member the policy has not given up on. *)
Theorem plan_meets_deadlines s now s' b c p :
  sched_inv s -> 0 <= chunk_tokens (tuning s) -> plan s now = (s', b) ->
  (2 <= length (chunks b))%nat -> c ∈ chunks b -> queue s !! cid c = Some p ->
  cid c ∉ demoted (plan_ordering s now) ->
  fgt (fadd now (est_service_ms b)) (pdeadline_ms p) = false.
Proof.
  intros Hinv Hb Hplan Htwo Hc Hq Hnd. destruct (decide (queue s = ∅)) as [He|Hne].
  { unfold plan in Hplan. rewrite decide_True in Hplan by done. simplify_eq. cbn in Htwo. lia. }
  destruct (plan_spec s now Hinv Hb Hne) as (s1 & b1 & cs1 & cs2 & d & Heq & _ & _ & _ & Hl & Hcs & _ & H2 & Hest & Hm).
  rewrite Heq in Hplan. simplify_eq. rewrite Hest.
  apply (Hm _ (Hl Htwo) c p); [|done]. rewrite Hcs in Hc. apply elem_of_app in Hc as [Hc|Hc]; [done|].
  exfalso. assert (cid c ∈ map cid cs2) as Hin by by apply list_elem_of_fmap_2.
  apply Hnd. destruct (demote_hopeless (tuning s)); [|apply sublist_nil_r in H2; rewrite H2 in Hin; by apply not_elem_of_nil in Hin].
  eapply elem_of_submseteq; [exact Hin|by apply sublist_submseteq].
Qed.

(** Something runs if something can. *)
Lemma plan_progress s now id p :
  sched_inv s -> demote_hopeless (tuning s) = true ->
  (0 < max_seqs (tuning s))%nat -> 0 < chunk_tokens (tuning s) ->
  queue s !! id = Some p -> 0 < remaining p ->
  chunks (plan s now).2 <> [].
Proof.
  intros Hinv Hdem Hms Hct Hq Hr. unfold plan.
  assert (queue s <> ∅) as Hne by (intros E; rewrite E, lookup_empty in Hq; done).
  rewrite decide_False by done. rewrite Hdem.
  set (r := fmax (rate s) MIN_POSITIVE). set (o := plan_ordering s now).
  assert (id ∈ ordering_all o) as Hin.
  { unfold o. rewrite plan_ordering_all by done. apply Hinv. eauto. }
  apply elem_of_app in Hin as [Hin|Hin].
  - pose proof (assemble_progress (tuning s) (queue s) now r false (on_time o) id p batch_default INFINITY
      eq_refl eq_refl Hms Hct Hin Hq Hr) as H1.
    destruct (assemble _ _ _ _ false _ _ _) as [b1 d1]. cbn [fst] in H1.
    pose proof (assemble_keeps (tuning s) (queue s) now r true (demoted o) b1 d1 H1) as H2.
    by destruct (assemble _ _ _ _ true _ _ _) as [b2 d2].
  - assert (batch_inv (tuning s) (queue s) batch_default) as Hb0.
    { split; simpl; [done|lia|lia|constructor|]. by intros c ?%not_elem_of_nil. }
    destruct (assemble_spec (tuning s) (queue s) now r false (on_time o) batch_default INFINITY Hb0)
      as (b1 & d1 & cs & -> & [[Hs _ _ _ _] _ Hc _ _ _]); [intros H; cbn in H; lia|].
    destruct (decide (chunks b1 = [])) as [He|Hne1].
    + rewrite He in Hs.
      pose proof (assemble_progress (tuning s) (queue s) now r true (demoted o) id p b1 d1 He Hs Hms Hct Hin Hq Hr) as H2.
      by destruct (assemble _ _ _ _ true _ _ _) as [b2 d2].
    + pose proof (assemble_keeps (tuning s) (queue s) now r true (demoted o) b1 d1 Hne1) as H2.
      by destruct (assemble _ _ _ _ true _ _ _) as [b2 d2].
Qed.

Lemma assemble_nothing t q now r pass ids binding : ~ ((0 < max_seqs t)%nat /\ 0 < chunk_tokens t) ->
  assemble t q now r pass ids batch_default binding = (batch_default, binding).
Proof.
  intros H. destruct ids as [|id ids]; [done|]. cbn [assemble chunks batch_default length].
  destruct (Nat.leb_spec (max_seqs t) 0) as [Hs|Hs]; [done|].
  assert (sat_sub (chunk_tokens t) (total_tokens batch_default) = 0) as -> by (unfold sat_sub; cbn; lia). done.
Qed.

(** C12. With demotion enabled the scheduler, in any state its operations
    reach, is work-conserving within the limits it is configured with: whenever some queued request still needs
    tokens, the batch is not empty, exactly if the limits on the requests and
    on the tokens of a batch are both positive.  (Either may be configured as
    0, and then nothing is ever planned.) *)
Theorem plan_work_conserving s now id p :
  sched_inv s -> demote_hopeless (tuning s) = true ->
  queue s !! id = Some p -> 0 < remaining p ->
  chunks (plan s now).2 <> [] <-> (0 < max_seqs (tuning s))%nat /\ 0 < chunk_tokens (tuning s).
Proof.
  intros Hs Hd Hq Hr. split; [|intros [Hms Hct]; by eapply plan_progress].
  intros Hne. destruct (decide ((0 < max_seqs (tuning s))%nat /\ 0 < chunk_tokens (tuning s))) as [|H]; [done|].
  exfalso. apply Hne. unfold plan. destruct (decide (queue s = ∅)); [done|]. cbv zeta.
  rewrite (assemble_nothing _ _ _ _ _ _ _ H). by rewrite (assemble_nothing _ _ _ _ _ _ _ H).
Qed.

(** C18. Running a planned batch to completion does exactly the work it lists:
    the finished requests are the chunks marked as completing, in batch order,
    and leave the queue; the others advance by their chunk; nobody else moves;
    and the queued tokens drop by the batch's total. *)
Theorem plan_then_complete s now elapsed :
  sched_inv s -> 0 <= chunk_tokens (tuning s) ->
  let '(s1, b) := plan s now in
  let '(s2, finished) := complete s1 b elapsed in
  sched_inv s2 /\
  finished = map cid (filter (fun c => completes c = true) (chunks b)) /\
  queued_tokens s2 = queued_tokens s - total_tokens b /\
  (forall id, id ∉ map cid (chunks b) -> queue s2 !! id = queue s !! id) /\
  (forall c, c ∈ chunks b -> exists p, queue s !! cid c = Some p /\
     queue s2 !! cid c = if completes c then None else Some (advance p (tokens c))).
Proof.
  intros Hinv Hb. destruct (decide (queue s = ∅)) as [He|Hne].
  - unfold plan. rewrite decide_True by done.
    destruct (complete_spec s batch_default elapsed Hinv) as (s2 & -> & H1 & H2 & H3 & H4); [constructor|constructor|].
    split; [done|]. split; [done|]. split; [rewrite H2; cbn; lia|exact (conj H3 H4)].
  - destruct (plan_spec s now Hinv Hb Hne) as (s1 & b & cs1 & cs2 & d & -> & Hq & Hi & [] & _ & Hc & H1 & H2 & _).
    rewrite <- Hq in bi_chunks0.
    destruct (complete_spec s1 b elapsed Hi) as (s2 & -> & G1 & G2 & G3 & G4); [done|rewrite Hc; exact (planned_NoDup s now cs1 cs2 Hinv H1 H2)|].
    rewrite Hq in G3, G4. split; [done|]. split; [done|]. split; [|done].
    rewrite G2, bi_sum0. unfold queued_tokens. by rewrite Hq.
Qed.

(** ** The theorems on a small queue *)

(** One request that cannot make its deadline and two that can. *)
Definition sched_sample : PrefillScheduler :=
  foldl enqueue (sched_new tuning_default)
    [mkPending 1 f0 (of_Z 100) 20400 0; mkPending 2 f0 (of_Z 3000) 6800 0;
     mkPending 3 f0 (of_Z 3000) 13600 6800].

Lemma sched_sample_inv : sched_inv sched_sample.
Proof. repeat (apply enqueue_inv; [|cbn; lia]). apply sched_new_inv. Qed.

Lemma plan_within_budget_witness :
  sched_inv sched_sample /\ total_tokens (plan sched_sample f0).2 = 16384.
Proof.
  split; [exact sched_sample_inv|].
  destruct (plan_within_budget sched_sample f0 sched_sample_inv ltac:(cbn; lia))
    as (s' & b & H & _ & _ & _ & _ & _ & _ & _ & Hpart).
  rewrite H. cbn [snd]. apply (Hpart (mkChunk 1 0 2784 false)); [|done].
  assert (chunks (plan sched_sample f0).2 =
    [mkChunk 2 0 6800 true; mkChunk 3 6800 6800 true; mkChunk 1 0 2784 false]) as Hc by by vm_compute.
  rewrite H in Hc. cbn [snd] in Hc. rewrite Hc. right. right. by left.
Defined.

Lemma plan_meets_deadlines_witness :
  fgt (fadd f0 (est_service_ms (plan sched_sample f0).2)) (of_Z 3000) = false.
Proof.
  apply (plan_meets_deadlines sched_sample f0 (plan sched_sample f0).1 (plan sched_sample f0).2
    (mkChunk 2 0 6800 true) (mkPending 2 f0 (of_Z 3000) 6800 0)).
  - exact sched_sample_inv.
  - cbn. lia.
  - by destruct (plan sched_sample f0).
  - apply (bool_decide_unpack _). by vm_compute.
  - assert (head (chunks (plan sched_sample f0).2) = Some (mkChunk 2 0 6800 true)) as H by by vm_compute.
    destruct (chunks (plan sched_sample f0).2) as [|c cs]; [discriminate H|]. injection H as ->. by left.
  - by vm_compute.
  - apply (bool_decide_unpack _). by vm_compute.
Defined.

Lemma plan_work_conserving_witness : chunks (plan sched_sample f0).2 <> [].
Proof.
  apply (plan_work_conserving sched_sample f0 1 (mkPending 1 f0 (of_Z 100) 20400 0));
    [exact sched_sample_inv|done|by vm_compute|by vm_compute|cbn; lia].
Defined.

Lemma plan_then_complete_witness :
  let '(s1, b) := plan sched_sample f0 in
  let '(s2, finished) := complete s1 b (of_Z 200) in
  finished = [2; 3] /\ queued_tokens s2 = 17616.
Proof.
  pose proof (plan_then_complete sched_sample f0 (of_Z 200) sched_sample_inv ltac:(cbn; lia)) as H.
  destruct (plan sched_sample f0) as [s1 b] eqn:E.
  destruct (complete s1 b (of_Z 200)) as [s2 fin] eqn:E2.
  destruct H as (_ & Hf & Ht & _ & _).
  assert ((plan sched_sample f0).2 = b) as Hb by by rewrite E.
  rewrite Hf, Ht, <- Hb. split; by vm_compute.
Defined.

(** With demotion disabled the scheduler is not work-conserving: the
    requests Moore-Hodgson gives up on are in neither pass, so a queue that
    holds only a hopeless request yields an empty batch, and again at any of the
    later ticks tried. *)
Theorem hopeless_never_planned :
  exists s, sched_inv s /\ demote_hopeless (tuning s) = false /\ policy (tuning s) = MooreHodgson /\
    (0 < max_seqs (tuning s))%nat /\ 0 < chunk_tokens (tuning s) /\ 0 < queued_tokens s /\
    Forall (fun now => chunks (plan s now).2 = [] /\ demoted_count (plan s now).1 = 0%nat)
      (map of_Z [0; 10; 100; 1000; 1000000]).
Proof.
  exists (enqueue (sched_new (mkTuning 16384 8 MooreHodgson false (of_Z 68) (dec 2 1)))
    (mkPending 1 f0 (of_Z 10) 20400 0)).
  split; [apply enqueue_inv; [apply sched_new_inv|cbn; lia]|].
  do 3 (split; [done || (cbn; lia)|]). split; [done|]. split; [by vm_compute|].
  repeat (apply Forall_cons; split; [by vm_compute|]). apply Forall_nil_2.
Qed.
End Sched.
