(* ===== verification/Controller.v ===== *)
(** * The concurrency controller ([ItlController] of [crates/sched/src/decode.rs])

    Additive increase, multiplicative decrease on the decode concurrency cap,
    steered by the observed inter-token latency.  The latencies fed to it are
    arbitrary doubles: the theorems hold for NaN and infinities too. *)

From Stdlib Require Import ZArith Lia.
From stdpp Require Import base option list numbers gmap relations.
From S2P Require Import Prelude F64 F64Int.

Record ItlController := mkCtl {
  target_ms : f64;
  ewma_ms : f64;
  alpha : f64;
  cap : f64;
  min_cap : f64;
  max_cap : f64;
  increase_step : f64;
  decrease_factor : f64;
  low_water : f64;
  high_water : f64;
  utilisation_gate : f64;
  samples : Z;
  concurrency_not_binding : bool;
  ewma_at_decrease : f64;
  observations_since_decrease : Z;
  probe_window : Z;
  improvement_threshold : f64
}.

(** The controller [new] makes. *)
Definition ctl_new (target initial_cap mn mx : f64) : ItlController :=
  mkCtl target f0 (dec 1 1) (fclamp initial_cap mn mx) mn mx f1 (dec 9 1) (dec 90 2) (dec 98 2)
    (dec 9 1) 0 false INFINITY 0 15 (dec 2 2).

(** [ItlController::new]: [f64::clamp] panics ([None]) on bounds out of order. *)
Definition ctl_make (target initial_cap mn mx : f64) : option ItlController :=
  if fle mn mx then Some (ctl_new target initial_cap mn mx) else None.

(** The fields that change. *)
Definition set_ewma (c : ItlController) (n : Z) (e : f64) : ItlController :=
  mkCtl (target_ms c) e (alpha c) (cap c) (min_cap c) (max_cap c) (increase_step c) (decrease_factor c)
    (low_water c) (high_water c) (utilisation_gate c) n (concurrency_not_binding c)
    (ewma_at_decrease c) (observations_since_decrease c) (probe_window c) (improvement_threshold c).
Definition set_cap (c : ItlController) (x : f64) : ItlController :=
  mkCtl (target_ms c) (ewma_ms c) (alpha c) x (min_cap c) (max_cap c) (increase_step c) (decrease_factor c)
    (low_water c) (high_water c) (utilisation_gate c) (samples c) (concurrency_not_binding c)
    (ewma_at_decrease c) (observations_since_decrease c) (probe_window c) (improvement_threshold c).
Definition set_probe (c : ItlController) (nb : bool) (at_ : f64) (n : Z) : ItlController :=
  mkCtl (target_ms c) (ewma_ms c) (alpha c) (cap c) (min_cap c) (max_cap c) (increase_step c)
    (decrease_factor c) (low_water c) (high_water c) (utilisation_gate c) (samples c) nb at_ n
    (probe_window c) (improvement_threshold c).

Definition ctl_give_up (c : ItlController) : ItlController :=
  set_probe (set_cap c (max_cap c)) true INFINITY 0.

Definition back_off (c : ItlController) : ItlController :=
  set_cap c (fmax (fmul (cap c) (decrease_factor c)) (min_cap c)).

(** The moving average after one more observation. *)
Definition next_ewma (c : ItlController) (itl_ms : f64) : f64 :=
  if (samples c + 1 =? 1)%Z then itl_ms
  else fadd (fmul (fsub f1 (alpha c)) (ewma_ms c)) (fmul (alpha c) itl_ms).

Definition over (c : ItlController) : bool := fgt (ewma_ms c) (fmul (target_ms c) (high_water c)).
Definition under (c : ItlController) : bool := flt (ewma_ms c) (fmul (target_ms c) (low_water c)).

(** The cap a decrease goes to: from what runs, not from the ceiling. *)
Definition decreased_cap (c : ItlController) (concurrency : Z) : f64 :=
  let binding := if (0 <? concurrency)%Z then fmin (cap c) (of_Z concurrency) else cap c in
  fmax (fmul binding (decrease_factor c)) (min_cap c).

(** Lower the cap, and give up at the floor. *)
Definition decrease (c : ItlController) (concurrency : Z) : ItlController :=
  let c1 := set_cap c (decreased_cap c concurrency) in
  if fle (cap c1) (fmul (min_cap c1) (dec 101 2)) then ctl_give_up c1 else c1.

(** The branch over the high-water mark, when still steering. *)
Definition overloaded (c : ItlController) (concurrency : Z) : ItlController :=
  let c1 := if is_infinite (ewma_at_decrease c)
            then set_probe c (concurrency_not_binding c) (ewma_ms c) 0 else c in
  let c2 := set_probe c1 (concurrency_not_binding c1) (ewma_at_decrease c1)
              (observations_since_decrease c1 + 1) in
  if (probe_window c2 <=? observations_since_decrease c2)%Z then
    let improved := fle (ewma_ms c2) (fmul (ewma_at_decrease c2) (fsub f1 (improvement_threshold c2))) in
    if negb improved then ctl_give_up c2
    else decrease (set_probe c2 (concurrency_not_binding c2) (ewma_ms c2) 0) concurrency
  else decrease c2 concurrency.

Definition observe (c0 : ItlController) (itl_ms : f64) (concurrency : Z) : ItlController :=
  let c := set_ewma c0 (samples c0 + 1) (next_ewma c0 itl_ms) in
  if (samples c <? 8)%Z then c
  else
    let c := if concurrency_not_binding c && under c then set_probe c false INFINITY 0 else c in
    if over c then
      if concurrency_not_binding c then c else overloaded c concurrency
    else if under c && fge (of_Z concurrency) (fmul (cap c) (utilisation_gate c)) then
      set_probe (set_cap c (fmin (fadd (cap c) (increase_step c)) (max_cap c)))
        (concurrency_not_binding c) INFINITY 0
    else c.

(** ** The bounds on the cap *)

Definition regular (x : f64) : Prop := valid x /\ is_finite x = true /\ fle f0 x = true.

(** The gains the controller is built with, and ordered bounds. *)
Record ctl_inv (c : ItlController) : Prop := {
  ci_decrease : decrease_factor c = dec 9 1;
  ci_increase : increase_step c = f1;
  ci_min : regular (min_cap c);
  ci_max : regular (max_cap c);
  ci_cap : regular (cap c);
  ci_lo : fle (min_cap c) (cap c) = true;
  ci_hi : fle (cap c) (max_cap c) = true
}.

Lemma regular_not_nan x : regular x -> is_nan x = false.
Proof. intros (_ & H & _). by destruct x. Qed.

(** A number between two regular ones is regular. *)
Lemma regular_between x lo hi :
  regular lo -> regular hi -> valid x -> fle lo x = true -> fle x hi = true -> regular x.
Proof.
  intros Hl Hh Hv H1 H2. split; [done|]. split; [|eapply fle_trans; [apply Hl|exact H1]].
  destruct Hl as (Vl & Fl & Zl), Hh as (Vh & Fh & Zh).
  destruct x as [s|[]| |s m e]; try done.
  - assert (fle f0 (SpecFloat.S754_infinity true) = true) as H by (by eapply fle_trans; [exact Zl|]). done.
  - destruct hi as [s|[]| |s m e]; try done.
Qed.

Lemma set_cap_inv c x :
  ctl_inv c -> valid x -> fle (min_cap c) x = true -> fle x (max_cap c) = true -> ctl_inv (set_cap c x).
Proof.
  intros [H1 H2 H3 H4 H5 H6 H7] Hv Hlo Hhi. split; try done. simpl. by apply (regular_between _ (min_cap c) (max_cap c)).
Qed.

Lemma set_probe_inv c nb a n : ctl_inv c -> ctl_inv (set_probe c nb a n).
Proof. by intros []. Qed.

Lemma set_ewma_inv c n e : ctl_inv c -> ctl_inv (set_ewma c n e).
Proof. by intros []. Qed.

Lemma give_up_inv c : ctl_inv c -> ctl_inv (ctl_give_up c).
Proof.
  intros H. pose proof H as [H1 H2 H3 H4 H5 H6 H7].
  apply set_probe_inv, set_cap_inv; [done|apply H4|exact (fle_trans _ _ _ H6 H7)|by apply fle_refl, regular_not_nan].
Qed.

Lemma dec9_range : valid (dec 9 1) /\ is_finite (dec 9 1) = true /\ (0 <= ival (dec 9 1) <= 2 ^ 1074)%Z.
Proof. split; [by vm_compute|]. split; [by vm_compute|]. apply (bool_decide_unpack _). by vm_compute. Qed.

(** Nine tenths of something at most the cap, floored, stays within bounds. *)
Lemma decreased_inv c x :
  ctl_inv c -> regular x -> fle x (cap c) = true ->
  valid (fmax (fmul x (decrease_factor c)) (min_cap c)) /\
  fle (min_cap c) (fmax (fmul x (decrease_factor c)) (min_cap c)) = true /\
  fle (fmax (fmul x (decrease_factor c)) (min_cap c)) (cap c) = true.
Proof.
  intros [H1 H2 H3 H4 H5 H6 H7] (Vx & Fx & Zx) Hle. rewrite H1.
  destruct dec9_range as (Vd & Fd & Rd).
  destruct (fmul_shrink x (dec 9 1) Vx Fx Zx Vd Fd Rd) as (Vp & Np & Zp & Lp).
  destruct (fmax_spec (fmul x (dec 9 1)) (min_cap c) Np (regular_not_nan _ H3)) as ([-> | ->] & Hl & Hr).
  - split; [done|]. split; [done|]. exact (fle_trans _ _ _ Lp Hle).
  - split; [apply H3|]. split; [apply fle_refl, regular_not_nan, H3|done].
Qed.

Lemma back_off_inv c : ctl_inv c -> ctl_inv (back_off c).
Proof.
  intros H. pose proof H as [H1 H2 H3 H4 H5 H6 H7].
  destruct (decreased_inv c (cap c) H H5) as (Hv & Hlo & Hhi); [apply fle_refl, regular_not_nan, H5|].
  apply set_cap_inv; [done|done|done|]. exact (fle_trans _ _ _ Hhi H7).
Qed.

Lemma regular_of_Z n : (0 <= n <= 2 ^ 53)%Z -> regular (of_Z n).
Proof.
  intros H. split; [apply of_Z_valid|]. split; [apply of_Z_finite; unfold small; lia|apply of_Z_nonneg; lia].
Qed.

(** What binds before a decrease. *)
Lemma binding_spec c n :
  ctl_inv c -> (0 <= n <= 2 ^ 53)%Z ->
  let b := if (0 <? n)%Z then fmin (cap c) (of_Z n) else cap c in
  regular b /\ fle b (cap c) = true.
Proof.
  intros [H1 H2 H3 H4 H5 H6 H7] Hn b. unfold b. destruct (0 <? n)%Z.
  - pose proof (regular_of_Z n Hn) as Hr.
    destruct (fmin_spec (cap c) (of_Z n) (regular_not_nan _ H5) (regular_not_nan _ Hr)) as ([-> | ->] & Hl & _);
      split; auto.
  - split; [done|]. apply fle_refl, regular_not_nan, H5.
Qed.

Lemma decreased_cap_spec c n :
  ctl_inv c -> (0 <= n <= 2 ^ 53)%Z ->
  valid (decreased_cap c n) /\ fle (min_cap c) (decreased_cap c n) = true /\
  fle (decreased_cap c n) (cap c) = true.
Proof.
  intros H Hn. destruct (binding_spec c n H Hn) as [Hr Hl]. by apply decreased_inv.
Qed.

Lemma decrease_inv c n : ctl_inv c -> (0 <= n <= 2 ^ 53)%Z -> ctl_inv (decrease c n).
Proof.
  intros H Hn. unfold decrease.
  destruct (decreased_cap_spec c n H Hn) as (Hv & Hlo & Hhi).
  assert (ctl_inv (set_cap c (decreased_cap c n))) as H'.
  { apply set_cap_inv; [done|done|done|]. destruct H as [_ _ _ _ _ _ H7]. exact (fle_trans _ _ _ Hhi H7). }
  clear Hv Hlo Hhi. destruct (fle _ _); [by apply give_up_inv|done].
Qed.

Lemma overloaded_inv c n : ctl_inv c -> (0 <= n <= 2 ^ 53)%Z -> ctl_inv (overloaded c n).
Proof.
  intros H Hn. unfold overloaded.
  set (c1 := if is_infinite _ then _ else c).
  assert (ctl_inv c1) as H1 by (unfold c1; destruct (is_infinite _); [by apply set_probe_inv|done]).
  destruct (_ <=? _)%Z; [|by apply decrease_inv; [apply set_probe_inv|]].
  destruct (negb _); [by apply give_up_inv, set_probe_inv|].
  apply decrease_inv; [by do 2 apply set_probe_inv|done].
Qed.

Lemma f1_regular : regular f1.
Proof. by apply (regular_of_Z 1). Qed.

Lemma increased_cap_spec c :
  ctl_inv c ->
  let x := fmin (fadd (cap c) (increase_step c)) (max_cap c) in
  valid x /\ fle (min_cap c) x = true /\ fle x (max_cap c) = true.
Proof.
  intros [H1 H2 H3 H4 H5 H6 H7] x. unfold x. rewrite H2.
  destruct H5 as (Vc & Fc & Zc). destruct f1_regular as (V1 & F1 & Z1).
  destruct (fadd_grow (cap c) f1 Vc Fc V1 F1 Z1) as (Vs & Ns & Ls).
  destruct (fmin_spec (fadd (cap c) f1) (max_cap c) Ns (regular_not_nan _ H4)) as ([-> | ->] & Ha & Hb).
  - split; [done|]. split; [exact (fle_trans _ _ _ H6 Ls)|done].
  - split; [apply H4|]. split; [exact (fle_trans _ _ _ H6 H7)|done].
Qed.

Lemma observe_inv c itl n : ctl_inv c -> (0 <= n <= 2 ^ 53)%Z -> ctl_inv (observe c itl n).
Proof.
  intros H Hn. unfold observe. set (c0 := set_ewma c _ _).
  assert (ctl_inv c0) as H0 by by apply set_ewma_inv.
  destruct (_ <? _)%Z; [done|].
  set (c1 := if _ && _ then _ else c0).
  assert (ctl_inv c1) as H1 by (unfold c1; destruct (_ && _); [by apply set_probe_inv|done]).
  destruct (over c1).
  - destruct (concurrency_not_binding c1); [done|by apply overloaded_inv].
  - destruct (under c1 && _); [|done]. apply set_probe_inv.
    destruct (increased_cap_spec c1 H1) as (Hv & Hlo & Hhi). by apply set_cap_inv.
Qed.

(** Everything its owner does to a controller. *)
Inductive ctl_step : ItlController -> ItlController -> Prop :=
  | cstep_observe c itl n : (0 <= n <= 2 ^ 53)%Z -> ctl_step c (observe c itl n)
  | cstep_back_off c : ctl_step c (back_off c).

Lemma ctl_new_inv target ini mn mx :
  regular mn -> regular mx -> valid ini -> is_nan ini = false -> fle mn mx = true ->
  ctl_inv (ctl_new target ini mn mx).
Proof.
  intros Hmn Hmx Hv Hn Hle.
  assert (valid (fclamp ini mn mx) /\ fle mn (fclamp ini mn mx) = true /\ fle (fclamp ini mn mx) mx = true) as (V & L & H).
  { pose proof (regular_not_nan _ Hmn). pose proof (regular_not_nan _ Hmx).
    unfold fclamp. destruct (flt ini mn) eqn:E1.
    - split; [apply Hmn|]. split; [by apply fle_refl|done].
    - destruct (flt mx ini) eqn:E2.
      + split; [apply Hmx|]. split; [done|by apply fle_refl].
      + split; [done|]. by rewrite !fle_negb_flt, E1, E2. }
  split; try done. simpl. by apply (regular_between _ mn mx).
Qed.

(** ** Theorems *)

(** C24. Whatever latencies are observed, in whatever order, and however often
    the scheduler backs off, the cap stays between its configured bounds. *)
Theorem cap_within_bounds target ini mn mx c :
  regular mn -> regular mx -> valid ini -> is_nan ini = false -> fle mn mx = true ->
  rtc ctl_step (ctl_new target ini mn mx) c ->
  fle (min_cap c) (cap c) = true /\ fle (cap c) (max_cap c) = true /\ min_cap c = mn /\ max_cap c = mx.
Proof.
  intros Hmn Hmx Hv Hn Hle Hr.
  assert (ctl_inv (ctl_new target ini mn mx)) as H0 by by apply ctl_new_inv.
  assert (forall c, (min_cap (ctl_give_up c) = min_cap c /\ max_cap (ctl_give_up c) = max_cap c)) as Hg by done.
  assert (forall a b, ctl_inv a -> ctl_step a b -> ctl_inv b /\ min_cap b = min_cap a /\ max_cap b = max_cap a) as Hstep.
  { intros a b Ha Hs. destruct Hs as [a itl n Hn'|a]; [|split; [by apply back_off_inv|done]].
    split; [by apply observe_inv|]. unfold observe, overloaded, decrease.
    repeat match goal with |- context [if ?b then _ else _] => destruct b end; done. }
  assert (forall a, rtc ctl_step a c -> ctl_inv a -> min_cap a = mn -> max_cap a = mx ->
            ctl_inv c /\ min_cap c = mn /\ max_cap c = mx) as H.
  { clear -Hstep. intros a Hac. induction Hac as [a|a b c Hab Hbc IH]; [done|]. intros Ha H1 H2.
    destruct (Hstep _ _ Ha Hab) as (Hb & E1 & E2). apply IH; [done|congruence|congruence]. }
  destruct (H _ Hr H0 eq_refl eq_refl) as ([] & H1 & H2). done.
Qed.

(** The cap is application-limited: an observation raises it only when the
    latency is under the low-water mark and the batch fills at least the gated
    share of the cap, or when the controller gives up steering in that very
    observation. *)
Theorem cap_growth_is_gated c itl n :
  ctl_inv c -> (0 <= n <= 2 ^ 53)%Z ->
  let c' := observe c itl n in
  fgt (cap c') (cap c) = true ->
  (under c' = true /\ fge (of_Z n) (fmul (cap c) (utilisation_gate c)) = true) \/
  (concurrency_not_binding c' = true /\ over c' = true /\ cap c' = max_cap c).
Proof.
  intros H Hn. unfold observe. set (c0 := set_ewma c _ _).
  assert (ctl_inv c0) as H0 by by apply set_ewma_inv.
  assert (flt (cap c) (cap c) = true -> False) as Hirr by (rewrite flt_irrefl; done).
  destruct (_ <? _)%Z; [by intros ?%Hirr|].
  set (c1 := if _ && _ then _ else c0).
  assert (ctl_inv c1 /\ cap c1 = cap c /\ max_cap c1 = max_cap c /\ utilisation_gate c1 = utilisation_gate c) as (H1 & Hc & Hm & Hu).
  { unfold c1; destruct (_ && _); [split; [by apply set_probe_inv|done]|done]. }
  destruct (over c1) eqn:Hover.
  - destruct (concurrency_not_binding c1); [rewrite Hc; by intros ?%Hirr|]. unfold overloaded.
    set (c2 := if is_infinite _ then _ else c1).
    assert (ctl_inv c2 /\ cap c2 = cap c /\ max_cap c2 = max_cap c /\ over c2 = over c1) as (H2 & Hc2 & Hm2 & Ho2).
    { unfold c2; destruct (is_infinite _); [split; [by apply set_probe_inv|done]|done]. }
    assert (forall d, ctl_inv d -> cap d = cap c -> max_cap d = max_cap c -> over d = true ->
      fgt (cap (decrease d n)) (cap c) = true ->
      concurrency_not_binding (decrease d n) = true /\ over (decrease d n) = true /\ cap (decrease d n) = max_cap c) as Hdec.
    { intros d Hd Hcd Hmd Hod. unfold decrease. destruct (fle _ _).
      - intros _. split; [done|]. split; [exact Hod|exact Hmd].
      - intros Hgt. destruct (decreased_cap_spec d n Hd Hn) as (_ & _ & Hle). cbn [set_cap cap] in Hgt.
        rewrite Hcd in Hle. exfalso. apply Hirr. unfold fgt in Hgt. by eapply flt_le_trans. }
    intros Hgt. right. destruct (_ <=? _)%Z; [destruct (negb _)|].
    + split; [done|]. split; [etransitivity; [exact Ho2|exact Hover]|exact Hm2].
    + apply Hdec; [by do 2 apply set_probe_inv|done|done| |exact Hgt]. etransitivity; [exact Ho2|exact Hover].
    + apply Hdec; [by apply set_probe_inv|done|done| |exact Hgt]. etransitivity; [exact Ho2|exact Hover].
  - destruct (under c1) eqn:Hund; cbn [andb]; [|rewrite Hc; by intros ?%Hirr].
    destruct (fge _ _) eqn:Hg; [|rewrite Hc; by intros ?%Hirr].
    intros _. left. split; [exact Hund|]. by rewrite <- Hc, <- Hu.
Qed.

(** Giving up is a latch: once the controller has established that
    concurrency does not bind the latency, an observation that stays over the
    high-water mark changes nothing but the average, and only an average under
    the low-water mark lets it steer again. *)
Theorem give_up_latches c itl n :
  concurrency_not_binding c = true ->
  let c' := observe c itl n in
  (over c' = true -> under c' = false ->
     concurrency_not_binding c' = true /\ cap c' = cap c) /\
  (concurrency_not_binding c' = false -> under c' = true).
Proof.
  intros Hnb. unfold observe. set (c0 := set_ewma c _ _).
  destruct (_ <? _)%Z; [split; [done|intros Hf; cbn in Hf; congruence]|]. change (concurrency_not_binding c0) with (concurrency_not_binding c).
  rewrite Hnb. cbn [andb]. destruct (under c0) eqn:Hu.
  - set (c1 := set_probe c0 false INFINITY 0).
    destruct (over c1) eqn:Ho.
    + assert (under (overloaded c1 n) = true) as Hun.
      { change (under c1 = true) in Hu. unfold overloaded, decrease.
        repeat match goal with |- context [if ?b then _ else _] => destruct b end; exact Hu. }
      split; [|done]. intros _ Hf. change (under (overloaded c1 n) = false) in Hf. congruence.
    + change (under c1) with (under c0). rewrite Hu. cbn [andb].
      destruct (fge _ _); [split; [|done]|split; [|done]].
      * intros _ Hu'. change (under c0 = false) in Hu'. congruence.
      * intros _ Hu'. change (under c0 = false) in Hu'. congruence.
  - destruct (over c0) eqn:Ho.
    + change (concurrency_not_binding c0) with (concurrency_not_binding c). rewrite Hnb. split; [done|]. intros H. change (concurrency_not_binding c = false) in H. congruence.
    + rewrite Hu. cbn [andb]. split; [intros Ho'; congruence|].
      intros H. change (concurrency_not_binding c = false) in H. congruence.
Qed.

(** A cold controller does not steer: the first seven observations leave the
    cap where it was. *)
Theorem cold_start_holds c itl n :
  (samples c < 7)%Z -> cap (observe c itl n) = cap c.
Proof.
  intros H. unfold observe. cbn [set_ewma samples].
  destruct (Z.ltb_spec (samples c + 1) 8); [done|lia].
Qed.

(** ** The controller at work *)

(** A controller for a 20 ms budget, fed [n] observations of [itl]. *)
Definition fed (n : nat) (itl : Z) (c : ItlController) : ItlController :=
  Nat.iter n (fun c => observe c (of_Z itl) 40) c.

Definition ctl_sample : ItlController := ctl_new (of_Z 20) (of_Z 64) (of_Z 1) (of_Z 128).

Lemma regular_small n : (0 <=? n)%Z && (n <=? 2 ^ 53)%Z = true -> regular (of_Z n).
Proof. rewrite andb_true_iff, !Z.leb_le. apply regular_of_Z. Qed.

Lemma ctl_sample_inv : ctl_inv ctl_sample.
Proof. apply ctl_new_inv; [by apply regular_small..|apply of_Z_valid|done|by vm_compute]. Qed.

Lemma cap_within_bounds_witness :
  let c := back_off (observe ctl_sample (of_Z 50) 40) in
  fle (of_Z 1) (cap c) = true /\ fle (cap c) (of_Z 128) = true.
Proof.
  destruct (cap_within_bounds (of_Z 20) (of_Z 64) (of_Z 1) (of_Z 128)
    (back_off (observe ctl_sample (of_Z 50) 40))) as (H1 & H2 & E1 & E2).
  - by apply regular_small.
  - by apply regular_small.
  - apply of_Z_valid.
  - done.
  - by vm_compute.
  - eapply rtc_l; [apply (cstep_observe _ (of_Z 50) 40); lia|].
    eapply rtc_l; [apply cstep_back_off|apply rtc_refl].
  - rewrite E1 in H1. rewrite E2 in H2. by split.
Defined.

Lemma cap_growth_is_gated_witness :
  let c := fed 7 5 ctl_sample in
  cap (observe c (of_Z 5) 60) = of_Z 65 /\ under (observe c (of_Z 5) 60) = true.
Proof.
  set (c := fed 7 5 ctl_sample).
  assert (ctl_inv c) as H by (unfold c, fed; cbn [Nat.iter]; do 7 (apply observe_inv; [|lia]); apply ctl_sample_inv).
  destruct (cap_growth_is_gated c (of_Z 5) 60 H ltac:(lia)) as [[H1 _]|[H1 _]].
  - by vm_compute.
  - split; [by vm_compute|exact H1].
  - exfalso. revert H1. by vm_compute.
Defined.

(** Overload that shedding does not cure: the controller gives up within one
    probe window and then holds its cap. *)
Lemma give_up_latches_witness :
  let c := fed 60 90 ctl_sample in
  concurrency_not_binding c = true /\ cap (observe c (of_Z 90) 40) = cap c /\ cap c = of_Z 128.
Proof.
  set (c := fed 60 90 ctl_sample).
  assert (concurrency_not_binding c = true) as H by by vm_compute.
  split; [exact H|]. split; [|by vm_compute].
  apply (give_up_latches c (of_Z 90) 40 H); by vm_compute.
Defined.

Lemma cold_start_holds_witness : cap (observe (fed 6 90 ctl_sample) (of_Z 90) 40) = of_Z 64.
Proof. rewrite (cold_start_holds (fed 6 90 ctl_sample) (of_Z 90) 40); by vm_compute. Defined.
