(* ===== verification/Decode.v ===== *)
(** * Decode admission ([DecodeScheduler] of [crates/sched/src/decode.rs])

    The sequences being decoded, the admission gate and the bookkeeping of the
    engine's step reports.  Rust iterates the hash map of running sequences in
    an unspecified order; the model iterates it in the order of [map_to_list],
    and the theorems show that the order does not matter. *)

From Stdlib Require Import ZArith Lia.
From stdpp Require Import base option list numbers gmap relations.
From S2P Require Import Prelude F64 F64Int Core Controller.

Module Decoder.
Local Open Scope Z_scope.

(** ** A running sequence *)

Record RunningSeq := mkSeq {
  seq_id : RequestId;
  admitted_ms : f64;
  seq_first_ms : f64;
  seq_last_ms : f64;
  tokens_emitted : Z;
  seq_requested : Z
}.

Definition seq_new (id : RequestId) (first_token : f64) (requested : Z) : RunningSeq :=
  mkSeq id first_token first_token first_token 1 requested.

Definition remaining_tokens (s : RunningSeq) : Z := sat_sub (seq_requested s) (tokens_emitted s).
Definition is_done (s : RunningSeq) : bool := seq_requested s <=? tokens_emitted s.
Definition elapsed_ms (s : RunningSeq) : f64 := fsub (seq_last_ms s) (seq_first_ms s).

Definition mean_itl_so_far_ms (s : RunningSeq) : f64 :=
  if tokens_emitted s <=? 1 then f0 else fdiv (elapsed_ms s) (of_Z (tokens_emitted s - 1)).

Definition tolerable_itl_ms (s : RunningSeq) (budget : f64) : f64 :=
  let rem := remaining_tokens s in
  if rem =? 0 then INFINITY
  else
    let gaps_total := of_Z (sat_sub (seq_requested s) 1) in
    fdiv (fsub (fmul budget gaps_total) (elapsed_ms s)) (of_Z rem).

(** ** The scheduler *)

Inductive AdmitDecision := Admit | AtCap | WouldSpoilRunning | NoKvHeadroom.

#[global] Instance AdmitDecision_eq_dec : EqDecision AdmitDecision.
Proof. solve_decision. Defined.

Record DecodeScheduler := mkDec {
  running : gmap Z RunningSeq;
  controller : ItlController;
  itl_budget_ms : f64;
  risk_margin : f64;
  tokens_per_step : Z;
  admitted : Z;
  refused : Z;
  finish_disagreements : Z;
  flagged : gset Z;
  unknown_finish_reports : Z
}.

Definition dec_new (budget : f64) (c : ItlController) : DecodeScheduler :=
  mkDec ∅ c budget (dec 105 2) 1 0 0 0 ∅ 0.

Definition set_running (s : DecodeScheduler) (r : gmap Z RunningSeq) : DecodeScheduler :=
  mkDec r (controller s) (itl_budget_ms s) (risk_margin s) (tokens_per_step s) (admitted s) (refused s)
    (finish_disagreements s) (flagged s) (unknown_finish_reports s).
Definition set_controller (s : DecodeScheduler) (c : ItlController) : DecodeScheduler :=
  mkDec (running s) c (itl_budget_ms s) (risk_margin s) (tokens_per_step s) (admitted s) (refused s)
    (finish_disagreements s) (flagged s) (unknown_finish_reports s).

Definition concurrency (s : DecodeScheduler) : Z := Z.of_nat (size (running s)).
Definition values (s : DecodeScheduler) : list RunningSeq := (map_to_list (running s)).*2.

(** The tolerance fold over a listing of the running sequences. *)
Definition tightest (budget : f64) (l : list RunningSeq) : f64 :=
  foldl (fun m q => fmin m (tolerable_itl_ms q budget)) INFINITY l.

Definition tightest_tolerance_ms (s : DecodeScheduler) : f64 := tightest (itl_budget_ms s) (values s).

(** [can_admit], over a listing [l] of the running sequences. *)
Definition can_admit_over (s : DecodeScheduler) (l : list RunningSeq) (kv_headroom : bool) : AdmitDecision :=
  if negb kv_headroom then NoKvHeadroom
  else if fge (of_Z (concurrency s)) (cap (controller s)) then AtCap
  else if 8 <=? samples (controller s) then
    let t := tightest (itl_budget_ms s) l in
    if is_finite t && flt t (fmul (ewma_ms (controller s)) (risk_margin s)) then WouldSpoilRunning
    else Admit
  else Admit.

Definition can_admit (s : DecodeScheduler) (kv_headroom : bool) : AdmitDecision :=
  can_admit_over s (values s) kv_headroom.

Definition note (s : DecodeScheduler) (d : AdmitDecision) : DecodeScheduler :=
  match d with
  | Admit =>
      mkDec (running s) (controller s) (itl_budget_ms s) (risk_margin s) (tokens_per_step s)
        (admitted s + 1) (refused s) (finish_disagreements s) (flagged s) (unknown_finish_reports s)
  | _ =>
      mkDec (running s)
        (if decide (d = WouldSpoilRunning) then back_off (controller s) else controller s)
        (itl_budget_ms s) (risk_margin s) (tokens_per_step s)
        (admitted s) (refused s + 1) (finish_disagreements s) (flagged s) (unknown_finish_reports s)
  end.

Definition dec_admit (s : DecodeScheduler) (q : RunningSeq) : DecodeScheduler :=
  set_running s (<[seq_id q := q]> (running s)).

Definition admit_at (s : DecodeScheduler) (q : RunningSeq) (now : f64) : DecodeScheduler :=
  dec_admit s (mkSeq (seq_id q) now (seq_first_ms q) (fmax (seq_last_ms q) now) (tokens_emitted q) (seq_requested q)).

Definition set_tokens_per_step (s : DecodeScheduler) (n : Z) : DecodeScheduler :=
  mkDec (running s) (controller s) (itl_budget_ms s) (risk_margin s) (Z.max n 1) (admitted s) (refused s)
    (finish_disagreements s) (flagged s) (unknown_finish_reports s).

(** How long a sequence has been waiting for its next token. *)
Definition age (now : f64) (q : RunningSeq) : f64 := fsub now (fmax (seq_last_ms q) (admitted_ms q)).

(** [steering_itl_ms] over a listing of the running sequences.  The sort
    compares with [partial_cmp(..).expect(..)], which panics ([None]) on a NaN
    as soon as there is something to compare it with; then the 90th percentile
    is read at an index, which panics out of range. *)
Definition steering_over (now : f64) (l : list RunningSeq) : option (option f64) :=
  let ages := map (age now) l in
  if decide (ages = []) then Some None
  else if bool_decide (1 < length ages)%nat && existsb is_nan ages then None
  else
    let v := sort_by fcmp ages in
    let idx := to_usize (fround (fmul (of_nat (length v - 1)) (dec 90 2))) in
    x ← v !! Z.to_nat idx; Some (Some x).

Definition steering_itl_ms (s : DecodeScheduler) (now : f64) : option (option f64) :=
  steering_over now (values s).

(** The loops of [on_step]. *)
Definition book_token (now : f64) (per_step : Z) (r : gmap Z RunningSeq) (id : Z) : gmap Z RunningSeq :=
  match r !! id with
  | Some q =>
      <[id := mkSeq (seq_id q) (admitted_ms q) (seq_first_ms q) now
                (Z.min (Z.min u32_max (tokens_emitted q + per_step)) (seq_requested q)) (seq_requested q)]> r
  | None => r
  end.

Definition finish_one (st : gmap Z RunningSeq * gset Z * list RunningSeq * Z) (id : Z)
    : gmap Z RunningSeq * gset Z * list RunningSeq * Z :=
  let '(r, fl, dn, unknown) := st in
  match r !! id with
  | Some q => (delete id r, fl ∖ {[id]}, dn ++ [q], unknown)
  | None => (r, fl, dn, unknown + 1)
  end.

Definition flag_one (st : gset Z * Z) (q : RunningSeq) : gset Z * Z :=
  if is_done q && bool_decide (seq_id q ∉ st.1) then ({[seq_id q]} ∪ st.1, st.2 + 1) else st.

Definition on_step (s : DecodeScheduler) (now step_ms : f64) (advanced finished : list Z)
    : option (DecodeScheduler * list RunningSeq) :=
  steer ← steering_itl_ms s now;
  let c := observe (controller s) (default step_ms steer) (concurrency s) in
  let per_step := Z.max (tokens_per_step s) 1 in
  let r1 := foldl (book_token now per_step) (running s) advanced in
  let '(r2, fl2, dn, unknown) := foldl finish_one (r1, flagged s, [], unknown_finish_reports s) finished in
  let '(fl3, dis) := foldl flag_one (fl2, finish_disagreements s) (map_to_list r2).*2 in
  Some (mkDec r2 c (itl_budget_ms s) (risk_margin s) (tokens_per_step s) (admitted s) (refused s)
          dis fl3 unknown, dn).

(** The simulator's step: everyone advances, and finishes on its own count. *)
Definition on_step_synthetic (s : DecodeScheduler) (now step_ms : f64)
    : option (DecodeScheduler * list RunningSeq) :=
  let advanced := (map_to_list (running s)).*1 in
  let finished := map seq_id (filter (fun q => seq_requested q <= tokens_emitted q + 1) (values s)) in
  on_step s now step_ms advanced finished.

Definition remove (s : DecodeScheduler) (id : Z) : DecodeScheduler * option RunningSeq :=
  (mkDec (delete id (running s)) (controller s) (itl_budget_ms s) (risk_margin s) (tokens_per_step s)
     (admitted s) (refused s) (finish_disagreements s) (flagged s ∖ {[id]}) (unknown_finish_reports s),
   running s !! id).

(** ** The tolerance fold *)

Lemma fmin_flt a b x : flt (fmin a b) x = flt a x || flt b x.
Proof.
  unfold fmin. destruct (is_nan a) eqn:Na.
  { destruct (flt a x) eqn:E; [apply flt_nan_l in E; congruence|done]. }
  destruct (is_nan b) eqn:Nb.
  { destruct (flt b x) eqn:E; [apply flt_nan_l in E; congruence|]. by rewrite orb_false_r. }
  destruct (flt b a) eqn:Hba.
  - destruct (flt a x) eqn:E; [|done]. by rewrite (flt_trans _ _ _ Hba E).
  - destruct (flt b x) eqn:E; [|by rewrite orb_false_r]. rewrite orb_true_r.
    apply (fle_lt_trans a b x); [by rewrite fle_negb_flt, Hba|done].
Qed.

Definition tol (b : f64) (q : RunningSeq) : f64 := tolerable_itl_ms q b.

Lemma tightest_flt b l : forall m x,
  flt (foldl (fun m q => fmin m (tolerable_itl_ms q b)) m l) x = flt m x || existsb (fun q => flt (tol b q) x) l.
Proof.
  induction l as [|q l IH]; intros m x; cbn [foldl existsb]; [by rewrite orb_false_r|].
  by rewrite IH, fmin_flt, orb_assoc.
Qed.

Lemma existsb_perm {A} (f : A -> bool) l l' : l ≡ₚ l' -> existsb f l = existsb f l'.
Proof.
  induction 1; cbn [existsb]; [done|by f_equal| |congruence].
  rewrite !orb_assoc. f_equal. apply orb_comm.
Qed.

Lemma flt_infinity x : flt INFINITY x = false.
Proof. by destruct x as [|[]| |[]]. Qed.

Lemma tightest_not_nan b l : forall m, is_nan m = false ->
  is_nan (foldl (fun m q => fmin m (tolerable_itl_ms q b)) m l) = false.
Proof.
  induction l as [|q l IH]; intros m Hm; cbn [foldl]; [done|]. apply IH. unfold fmin. rewrite Hm.
  destruct (is_nan (tolerable_itl_ms q b)) eqn:E; [done|]. by destruct (flt _ _).
Qed.

(** The fold is the same number for any listing of the same sequences. *)
Lemma tightest_perm b l l' x :
  l ≡ₚ l' -> flt (tightest b l) x = flt (tightest b l') x /\ is_finite (tightest b l) = is_finite (tightest b l').
Proof.
  intros Hp. unfold tightest.
  set (t := foldl _ INFINITY l). set (t' := foldl _ INFINITY l').
  assert (forall y, flt t y = flt t' y) as Ht.
  { intros y. unfold t, t'. rewrite !tightest_flt. f_equal. by apply existsb_perm. }
  split; [done|].
  assert (is_nan t = false) as Hn by by apply tightest_not_nan.
  assert (is_nan t' = false) as Hn' by by apply tightest_not_nan.
  pose proof (flt_irrefl t) as I1. pose proof (flt_irrefl t') as I2.
  pose proof (Ht t) as E1. pose proof (Ht t') as E2. rewrite I1 in E1. rewrite I2 in E2.
  destruct t as [s1|[]| |[] m1 e1]; try done; destruct t' as [s2|[]| |[] m2 e2]; try done.
Qed.

(** ** Steering *)

Lemma p90_index n : (0 < n)%nat -> (Z.of_nat n <= 2 ^ 53) ->
  (Z.to_nat (to_usize (fround (fmul (of_nat (n - 1)) (dec 90 2)))) < n)%nat.
Proof.
  intros Hn Hs. set (k := Z.of_nat (n - 1)).
  assert (0 <= k < Z.of_nat n) as Hk by lia.
  assert (valid (dec 90 2) /\ is_finite (dec 90 2) = true /\ 0 <= ival (dec 90 2) <= 2 ^ 1074) as (Vd & Fd & Rd).
  { split; [by vm_compute|]. split; [by vm_compute|]. apply (bool_decide_unpack _). by vm_compute. }
  assert (small k) as Sk by (unfold small; lia).
  assert (fle f0 (of_Z k) = true) as Z0 by (apply of_Z_nonneg; lia).
  destruct (fmul_shrink (of_Z k) (dec 90 2) (of_Z_valid k) (of_Z_finite k Sk) Z0 Vd Fd Rd) as (Vp & Np & Zp & Lp).
  assert (is_finite (fmul (of_Z k) (dec 90 2)) = true) as Fp.
  { apply (regular_between _ f0 (of_Z k)); [done|apply regular_of_Z; lia|done|done|done]. }
  apply fle_ival in Zp; [|done..]. apply fle_ival in Lp; [|done|apply of_Z_valid|done|apply of_Z_not_nan].
  rewrite of_Z_ival in Lp by done. change (ival f0) with 0 in Zp.
  destruct (to_usize_fround_le (fmul (of_Z k) (dec 90 2)) k Vp Fp) as [H0 H1]; [lia|lia|].
  change (of_nat (n - 1)) with (of_Z k). lia.
Qed.

Lemma steering_spec now l :
  (Z.of_nat (length l) <= 2 ^ 53) -> (forall q, q ∈ l -> is_nan (age now q) = false) ->
  l <> [] -> exists x, steering_over now l = Some (Some x) /\ x ∈ map (age now) l.
Proof.
  intros Hlen Hn Hne. unfold steering_over.
  rewrite decide_False by (by destruct l).
  assert (existsb is_nan (map (age now) l) = false) as ->.
  { apply not_true_is_false. intros H. apply existsb_exists in H as (x & Hx & Hnan).
    apply in_map_iff in Hx as (q & <- & Hq). rewrite Hn in Hnan; [done|]. by apply list_elem_of_In. }
  rewrite andb_false_r.
  assert (length (sort_by fcmp (map (age now) l)) = length l) as Hl by by rewrite sort_by_length, length_map.
  rewrite Hl.
  pose proof (p90_index (length l) ltac:(destruct l; [done|cbn; lia]) Hlen) as Hidx.
  destruct (lookup_lt_is_Some_2 (sort_by fcmp (map (age now) l))
    (Z.to_nat (to_usize (fround (fmul (of_nat (length l - 1)) (dec 90 2)))))) as [x Hx]; [lia|].
  rewrite Hx. exists x. split; [done|]. apply list_elem_of_lookup_2 in Hx. by apply elem_of_sort_by in Hx.
Qed.

(** ** Bookkeeping *)

Record dec_inv (s : DecodeScheduler) : Prop := {
  di_keys : forall id q, running s !! id = Some q -> seq_id q = id;
  di_flagged : flagged s ⊆ dom (running s)
}.

Lemma dec_admit_inv s q : dec_inv s -> dec_inv (dec_admit s q).
Proof.
  intros [H1 H2]. split; cbn [dec_admit set_running running flagged].
  - intros id q' [[<- <-]|[_ H]]%lookup_insert_Some; [done|by apply H1].
  - rewrite dom_insert_L. set_solver.
Qed.

(** A sequence that received [per_step] more tokens at [now]. *)
Definition booked (now : f64) (per_step : Z) (q : RunningSeq) : RunningSeq :=
  mkSeq (seq_id q) (admitted_ms q) (seq_first_ms q) now
    (Z.min (Z.min u32_max (tokens_emitted q + per_step)) (seq_requested q)) (seq_requested q).

(** The running sequences after the engine's list of those that advanced. *)
Definition after_tokens (s : DecodeScheduler) (now : f64) (advanced : list Z) (id : Z) : option RunningSeq :=
  if decide (id ∈ advanced) then booked now (Z.max (tokens_per_step s) 1) <$> running s !! id
  else running s !! id.

Lemma book_fold now n ids : forall r,
  NoDup ids -> forall id, foldl (book_token now n) r ids !! id =
    if decide (id ∈ ids) then booked now n <$> r !! id else r !! id.
Proof.
  induction ids as [|i ids IH]; intros r Hnd id; cbn [foldl].
  { destruct (decide _) as [H|]; [by apply not_elem_of_nil in H|done]. }
  apply NoDup_cons in Hnd as [Hnin Hnd]. rewrite IH by done.
  assert (forall id, book_token now n r i !! id = if decide (id = i) then booked now n <$> r !! id else r !! id) as Hb.
  { intros x. unfold book_token. destruct (decide (x = i)) as [->|Hne].
    - destruct (r !! i) eqn:E; [by rewrite lookup_insert_eq|done].
    - destruct (r !! i); [by rewrite lookup_insert_ne|done]. }
  rewrite Hb. destruct (decide (id = i)) as [->|Hne].
  - rewrite (decide_False (P := i ∈ ids)), (decide_True (P := i ∈ i :: ids)) by (done || left). done.
  - destruct (decide (id ∈ ids)), (decide (id ∈ i :: ids)) as [Hin|Hn]; try done.
    + destruct Hn. by right.
    + apply elem_of_cons in Hin. tauto.
Qed.

Record finish_post (ids : list Z) (r : gmap Z RunningSeq) (fl : gset Z) (u : Z)
    (r' : gmap Z RunningSeq) (fl' : gset Z) (new : list RunningSeq) (u' : Z) : Prop := {
  fi_running : forall id, r' !! id = if decide (id ∈ ids) then None else r !! id;
  fi_flagged : fl' = fl ∖ list_to_set ids;
  fi_new : forall q, q ∈ new <-> exists id, id ∈ ids /\ r !! id = Some q;
  fi_count : Z.of_nat (length new) + (u' - u) = Z.of_nat (length ids);
  fi_mono : u <= u'
}.

Lemma finish_fold ids : forall r fl dn u,
  fl ⊆ dom r ->
  exists r' fl' new u', foldl finish_one (r, fl, dn, u) ids = (r', fl', dn ++ new, u') /\
    finish_post ids r fl u r' fl' new u'.
Proof.
  induction ids as [|i ids IH]; intros r fl dn u Hfl; cbn [foldl].
  { exists r, fl, [], u. rewrite app_nil_r. split; [done|]. split.
    - intros id. destruct (decide _) as [H|]; [by apply not_elem_of_nil in H|done].
    - cbn [list_to_set]. set_solver.
    - intros q. split; [by intros ?%not_elem_of_nil|by intros (? & ?%not_elem_of_nil & _)].
    - cbn [length]. lia.
    - lia. }
  unfold finish_one at 2. destruct (r !! i) as [q0|] eqn:E.
  - destruct (IH (delete i r) (fl ∖ {[i]}) (dn ++ [q0]) u) as (r' & fl' & new & u' & -> & [H1 H2 H3 H4 H5]).
    { rewrite dom_delete. set_solver. }
    exists r', fl', (q0 :: new), u'. split; [by rewrite <- app_assoc|]. split.
    + intros id. rewrite H1. destruct (decide (id = i)) as [->|Hne].
      * rewrite lookup_delete_eq, (decide_True (P := i ∈ i :: ids)) by left. by destruct (decide _).
      * rewrite lookup_delete_ne by done.
        destruct (decide (id ∈ ids)), (decide (id ∈ i :: ids)) as [Hin|Hn]; try done.
        -- destruct Hn. by right.
        -- apply elem_of_cons in Hin. tauto.
    + rewrite H2. cbn [list_to_set]. set_solver.
    + intros q. rewrite elem_of_cons, H3. split.
      * intros [->|(id & Hid & Hq)]; [exists i; split; [left|done]|].
        apply lookup_delete_Some in Hq as [_ Hq]. exists id. split; [by right|done].
      * intros (id & Hid & Hq). destruct (decide (id = i)) as [->|Hne]; [left; congruence|].
        right. exists id. rewrite lookup_delete_ne by done. apply elem_of_cons in Hid as [?|?]; done.
    + cbn [length]. lia.
    + lia.
  - destruct (IH r fl dn (u + 1)) as (r' & fl' & new & u' & -> & [H1 H2 H3 H4 H5]); [done|].
    exists r', fl', new, u'. split; [done|]. split.
    + intros id. rewrite H1. destruct (decide (id = i)) as [->|Hne].
      * rewrite E, (decide_True (P := i ∈ i :: ids)) by left. by destruct (decide _).
      * destruct (decide (id ∈ ids)), (decide (id ∈ i :: ids)) as [Hin|Hn]; try done.
        -- destruct Hn. by right.
        -- apply elem_of_cons in Hin. tauto.
    + assert (i ∉ fl) as Hi.
      { intros Hi. apply Hfl in Hi. apply elem_of_dom in Hi as [? ?]. congruence. }
      rewrite H2. cbn [list_to_set]. set_solver.
    + intros q. rewrite H3. split.
      * intros (id & Hid & Hq). exists id. split; [by right|done].
      * intros (id & Hid & Hq). exists id. split; [|done]. apply elem_of_cons in Hid as [->|?]; [congruence|done].
    + cbn [length]. lia.
    + lia.
Qed.

Lemma flag_fold l : forall fl d,
  exists d', foldl flag_one (fl, d) l = (fl ∪ list_to_set (map seq_id (filter (fun q => is_done q = true) l)), d') /\
    d' - d = Z.of_nat (size (fl ∪ list_to_set (map seq_id (filter (fun q => is_done q = true) l)) : gset Z)) - Z.of_nat (size fl).
Proof.
  induction l as [|q l IH]; intros fl d; cbn [foldl].
  { exists d. cbn [filter list_filter map list_to_set]. rewrite union_empty_r_L. split; [done|lia]. }
  rewrite filter_cons. unfold flag_one at 2. cbn [fst snd].
  destruct (is_done q) eqn:Hd; cbn [andb].
  2: { rewrite decide_False by congruence. apply IH. }
  rewrite decide_True by done. cbn [map list_to_set].
  destruct (decide (seq_id q ∈ fl)) as [Hin|Hnin].
  - rewrite bool_decide_false by (intros H; by apply H).
    destruct (IH fl d) as (d' & -> & Hd'). exists d'.
    assert (fl ∪ ({[seq_id q]} ∪ list_to_set (map seq_id (filter (fun q => is_done q = true) l))) =
            fl ∪ list_to_set (map seq_id (filter (fun q => is_done q = true) l))) as -> by set_solver.
    done.
  - rewrite bool_decide_true by done.
    destruct (IH ({[seq_id q]} ∪ fl) (d + 1)) as (d' & -> & Hd'). exists d'.
    assert (fl ∪ ({[seq_id q]} ∪ list_to_set (map seq_id (filter (fun q => is_done q = true) l))) =
            {[seq_id q]} ∪ fl ∪ list_to_set (map seq_id (filter (fun q => is_done q = true) l))) as -> by set_solver.
    split; [done|]. rewrite (size_union {[seq_id q]} fl) in Hd' by set_solver.
    rewrite size_singleton in Hd'. lia.
Qed.

(** The sequences left running although they have their whole budget. *)
Definition overdue (r : gmap Z RunningSeq) : gset Z :=
  list_to_set (map seq_id (filter (fun q => is_done q = true) (map_to_list r).*2)).

Lemma overdue_spec r id : (forall i q, r !! i = Some q -> seq_id q = i) ->
  id ∈ overdue r <-> exists q, r !! id = Some q /\ is_done q = true.
Proof.
  intros Hk. unfold overdue. rewrite elem_of_list_to_set, list_elem_of_fmap. split.
  - intros (q & -> & Hq). apply list_elem_of_filter in Hq as [Hd Hq].
    apply list_elem_of_fmap in Hq as ([i q'] & -> & Hin). apply elem_of_map_to_list in Hin.
    cbn [snd] in *. exists q'. by rewrite (Hk _ _ Hin).
  - intros (q & Hq & Hd). exists q. split; [by rewrite (Hk _ _ Hq)|]. apply list_elem_of_filter.
    split; [done|]. apply list_elem_of_fmap. exists (id, q). split; [done|by apply elem_of_map_to_list].
Qed.

Lemma on_step_spec s now step advanced finished :
  dec_inv s -> NoDup advanced -> concurrency s <= 2 ^ 53 ->
  (forall q, q ∈ values s -> is_nan (age now q) = false) ->
  exists s' dn, on_step s now step advanced finished = Some (s', dn) /\ dec_inv s' /\
    (forall id, running s' !! id = if decide (id ∈ finished) then None else after_tokens s now advanced id) /\
    (forall q, q ∈ dn <-> exists id, id ∈ finished /\ after_tokens s now advanced id = Some q) /\
    Z.of_nat (length dn) + (unknown_finish_reports s' - unknown_finish_reports s) = Z.of_nat (length finished) /\
    unknown_finish_reports s <= unknown_finish_reports s' /\
    flagged s' = flagged s ∖ list_to_set finished ∪ overdue (running s') /\
    finish_disagreements s' - finish_disagreements s =
      Z.of_nat (size (flagged s')) - Z.of_nat (size (flagged s ∖ list_to_set finished)).
Proof.
  intros [Hk Hf] Hnd Hsize Hage. unfold on_step, steering_itl_ms.
  assert (exists st, steering_over now (values s) = Some st) as [st ->].
  { destruct (decide (values s = [])) as [E|Hne]; [rewrite E; by exists None|].
    destruct (steering_spec now (values s)) as (x & H & _); [|done|done|eauto].
    unfold values. rewrite length_fmap, length_map_to_list. exact Hsize. }
  cbn [mbind option_bind].
  set (n := Z.max (tokens_per_step s) 1).
  set (r1 := foldl (book_token now n) (running s) advanced).
  assert (forall id, r1 !! id = after_tokens s now advanced id) as Hr1 by (intros id; by apply book_fold).
  assert (forall id q, r1 !! id = Some q -> seq_id q = id) as Hk1.
  { intros id q. rewrite Hr1. unfold after_tokens. destruct (decide _); [|apply Hk].
    intros H. apply fmap_Some in H as (q' & Hq' & ->). exact (Hk _ _ Hq'). }
  assert (flagged s ⊆ dom r1) as Hf1.
  { intros id Hid. apply Hf, elem_of_dom in Hid as [q Hq]. apply elem_of_dom. rewrite Hr1.
    unfold after_tokens. rewrite Hq. destruct (decide _); by eexists. }
  destruct (finish_fold finished r1 (flagged s) [] (unknown_finish_reports s) Hf1)
    as (r2 & fl2 & new & u2 & -> & [F1 F2 F3 F4 F5]).
  destruct (flag_fold (map_to_list r2).*2 fl2 (finish_disagreements s)) as (d3 & -> & Hd3).
  fold (overdue r2) in *.
  assert (forall id q, r2 !! id = Some q -> seq_id q = id) as Hk2.
  { intros id q. rewrite F1. destruct (decide _); [done|apply Hk1]. }
  eexists _, new. split; [reflexivity|]. cbn [running flagged unknown_finish_reports finish_disagreements].
  split; [split; cbn [running flagged]; [exact Hk2|]|].
  - intros id Hid. apply elem_of_union in Hid as [Hid|Hid].
    + rewrite F2 in Hid. apply elem_of_difference in Hid as [Hid Hnin].
      apply Hf1, elem_of_dom in Hid as [q Hq]. apply elem_of_dom. rewrite F1, decide_False; [by exists q|].
      intros H. apply Hnin. by apply elem_of_list_to_set.
    + apply overdue_spec in Hid as (q & Hq & _); [|exact Hk2]. apply elem_of_dom. by exists q.
  - split; [intros id; by rewrite F1, Hr1|]. split; [intros q; rewrite F3; by setoid_rewrite Hr1|].
    split; [exact F4|]. split; [exact F5|]. split; [by rewrite F2|]. rewrite Hd3. by rewrite F2.
Qed.

(** The synthetic list of finished sequences has no duplicates. *)
Lemma finished_NoDup s (P : RunningSeq -> Prop) `{forall q, Decision (P q)} :
  (forall id q, running s !! id = Some q -> seq_id q = id) -> NoDup (map seq_id (filter P (values s))).
Proof.
  intros Hk. apply (sublist_NoDup _ (map seq_id (values s))); [|apply fmap_sublist, sublist_filter].
  assert (forall l, (forall i q, (i, q) ∈ l -> seq_id q = i) -> map seq_id l.*2 = l.*1) as Hl.
  { induction l as [|[i q] l IH]; intros Hl; [done|]. cbn. rewrite (Hl i q) by left. f_equal.
    apply IH. intros i' q' Hin. apply Hl. by right. }
  unfold values. rewrite Hl; [apply NoDup_fst_map_to_list|].
  intros i q Hin. apply Hk. by apply elem_of_map_to_list.
Qed.

(** ** Theorems *)

(** The admission decision does not depend on the order in which the hash
    map of running sequences is iterated, and means what it says: a sequence is
    admitted only below the cap and with memory to spare, and
    [WouldSpoilRunning] is the answer exactly when, with memory and room under
    the cap, a warmed-up controller sees a running sequence whose tolerance is
    below the observed latency with its margin (and the tightest tolerance is
    finite). *)
Theorem can_admit_exact s l headroom :
  l ≡ₚ values s ->
  let limit := fmul (ewma_ms (controller s)) (risk_margin s) in
  can_admit s headroom = can_admit_over s l headroom /\
  (can_admit s headroom = NoKvHeadroom <-> headroom = false) /\
  (can_admit s headroom = Admit ->
     headroom = true /\ fge (of_Z (concurrency s)) (cap (controller s)) = false) /\
  (can_admit s headroom = WouldSpoilRunning <->
     headroom = true /\ fge (of_Z (concurrency s)) (cap (controller s)) = false /\
     8 <= samples (controller s) /\ is_finite (tightest_tolerance_ms s) = true /\
     exists q, q ∈ l /\ flt (tolerable_itl_ms q (itl_budget_ms s)) limit = true).
Proof.
  intros Hp limit. destruct (tightest_perm (itl_budget_ms s) (values s) l limit) as [H1 H2]; [done|].
  assert (flt (tightest (itl_budget_ms s) l) limit = true <->
          exists q, q ∈ l /\ flt (tolerable_itl_ms q (itl_budget_ms s)) limit = true) as Hex.
  { unfold tightest. rewrite tightest_flt, flt_infinity. cbn [orb]. rewrite existsb_exists.
    setoid_rewrite list_elem_of_In. done. }
  split; [|split; [|split]].
  - unfold can_admit, can_admit_over. fold limit. by rewrite H1, H2.
  - unfold can_admit, can_admit_over. destruct headroom; cbn [negb]; [|done].
    destruct (fge _ _); [done|]. destruct (_ <=? _); [|done]. by destruct (_ && _).
  - unfold can_admit, can_admit_over. destruct headroom; cbn [negb]; [|done].
    by destruct (fge _ _) eqn:E.
  - rewrite <- Hex. unfold can_admit, can_admit_over, tightest_tolerance_ms. fold limit.
    destruct headroom; cbn [negb]; [|split; [done|by intros [? _]]].
    destruct (fge _ _); [split; [done|by intros (_ & ? & _)]|].
    destruct (Z.leb_spec 8 (samples (controller s))); [|split; [done|intros (_ & _ & ? & _); lia]].
    rewrite H1. destruct (is_finite _); cbn [andb]; [|split; [done|by intros (_ & _ & _ & ? & _)]].
    clear H1 Hex. destruct (flt _ _); [done|]. split; [done|]. by intros (_ & _ & _ & _ & ?).
Qed.

(** C26. The tolerance is the break-even rate.  In whole milliseconds: if the
    budget left to a sequence divides exactly into [t] per remaining token, its
    tolerance is [t], and receiving every remaining token [t] ms after the
    previous one ends with a mean inter-token latency of exactly the budget. *)
Theorem tolerable_is_break_even id adm first last emitted requested budget t out_arrival prompt :
  0 <= first -> first <= last <= 2 ^ 53 -> 1 <= emitted < requested -> requested < 2 ^ 32 ->
  0 < budget -> budget * (requested - 1) + last <= 2 ^ 53 -> 0 < t ->
  budget * (requested - 1) - (last - first) = t * (requested - emitted) ->
  let s := mkSeq id adm (of_Z first) (of_Z last) emitted requested in
  let o := mkOutcome id out_arrival (of_Z first) (of_Z (last + (requested - emitted) * t)) prompt requested requested in
  tolerable_itl_ms s (of_Z budget) = of_Z t /\ mean_itl_ms o = of_Z budget.
Proof.
  intros Hf0 Hfl He Hr Hb Hfit Ht Heq s o.
  assert (small budget /\ small (requested - 1) /\ small (budget * (requested - 1))) as (S1 & S2 & S3) by (unfold small; nia).
  split.
  - unfold tolerable_itl_ms, s, remaining_tokens, elapsed_ms, sat_sub.
    cbn [seq_requested tokens_emitted seq_last_ms seq_first_ms].
    destruct (Z.eqb_spec (Z.max 0 (requested - emitted)) 0); [lia|].
    rewrite !Z.max_r by lia.
    rewrite fmul_of_Z by (done || nia). rewrite (fsub_of_Z last) by (unfold small; lia).
    rewrite fsub_of_Z by (unfold small in *; nia). rewrite Heq. apply fdiv_of_Z; unfold small; nia.
  - unfold mean_itl_ms, o. cbn [output_tokens last_token_ms first_token_ms].
    destruct (Z.leb_spec requested 1); [lia|].
    rewrite fsub_of_Z by (unfold small; nia).
    replace (last + (requested - emitted) * t - first) with (budget * (requested - 1)) by lia.
    apply fdiv_of_Z; unfold small; nia.
Qed.

(** C25. A step keeps the books the engine dictates.  With usable time stamps it
    does not panic; exactly the reported sequences advance, by the configured
    tokens and never past their request; exactly the reported sequences leave,
    in the returned list, and every report for a sequence not running is
    counted; a sequence that has its tokens but was not reported is left running
    and flagged, and is counted once for as long as it lives. *)
Theorem on_step_books s now step advanced finished :
  dec_inv s -> NoDup advanced -> concurrency s <= 2 ^ 53 ->
  (forall q, q ∈ values s -> is_nan (age now q) = false) ->
  exists s' dn, on_step s now step advanced finished = Some (s', dn) /\ dec_inv s' /\
    (forall id, running s' !! id = if decide (id ∈ finished) then None else after_tokens s now advanced id) /\
    (forall q, q ∈ dn <-> exists id, id ∈ finished /\ after_tokens s now advanced id = Some q) /\
    Z.of_nat (length dn) + (unknown_finish_reports s' - unknown_finish_reports s) = Z.of_nat (length finished) /\
    unknown_finish_reports s <= unknown_finish_reports s' /\
    flagged s' = flagged s ∖ list_to_set finished ∪ overdue (running s') /\
    finish_disagreements s' - finish_disagreements s =
      Z.of_nat (size (flagged s')) - Z.of_nat (size (flagged s ∖ list_to_set finished)).
Proof. apply on_step_spec. Qed.

(** The simulator's synthetic step never disagrees with itself: with one
    token per step it reports every sequence that reaches its budget as
    finished, so nothing is left overdue, no unknown report is counted and the
    disagreement counter does not move. *)
Theorem synthetic_step_agrees s now step :
  dec_inv s -> tokens_per_step s = 1 -> flagged s = ∅ -> concurrency s <= 2 ^ 53 ->
  (forall q, q ∈ values s -> is_nan (age now q) = false) ->
  exists s' dn, on_step_synthetic s now step = Some (s', dn) /\
    finish_disagreements s' = finish_disagreements s /\
    unknown_finish_reports s' = unknown_finish_reports s /\ flagged s' = ∅ /\
    (forall id q, running s !! id = Some q ->
       (tokens_emitted q + 1 < seq_requested q -> exists q', running s' !! id = Some q') /\
       (seq_requested q <= tokens_emitted q + 1 -> running s' !! id = None)).
Proof.
  intros Hinv Hper Hfl Hsize Hage. pose proof Hinv as [Hk Hf]. unfold on_step_synthetic.
  set (adv := (map_to_list (running s)).*1).
  set (fin := map seq_id (filter (fun q => seq_requested q <= tokens_emitted q + 1) (values s))).
  assert (NoDup adv) as Hnd by apply NoDup_fst_map_to_list.
  assert (forall id, id ∈ adv <-> is_Some (running s !! id)) as Hadv.
  { intros id. unfold adv. rewrite list_elem_of_fmap. split.
    - intros ([i q] & -> & Hin). apply elem_of_map_to_list in Hin. by exists q.
    - intros [q Hq]. exists (id, q). split; [done|by apply elem_of_map_to_list]. }
  assert (forall id, id ∈ fin <-> exists q, running s !! id = Some q /\ seq_requested q <= tokens_emitted q + 1) as Hfin.
  { intros id. unfold fin. rewrite list_elem_of_fmap. split.
    - intros (q & -> & Hq). apply list_elem_of_filter in Hq as [Hr Hq].
      apply list_elem_of_fmap in Hq as ([i q'] & -> & Hin). apply elem_of_map_to_list in Hin. cbn [snd] in *.
      exists q'. by rewrite (Hk _ _ Hin).
    - intros (q & Hq & Hr). exists q. split; [by rewrite (Hk _ _ Hq)|]. apply list_elem_of_filter.
      split; [done|]. apply list_elem_of_fmap. exists (id, q). split; [done|by apply elem_of_map_to_list]. }
  destruct (on_step_spec s now step adv fin Hinv Hnd Hsize Hage)
    as (s' & dn & -> & [Hk' _] & Hrun & Hdn & Hcount & Hmono & Hflag & Hdis).
  exists s', dn. split; [done|].
  assert (forall id q, running s !! id = Some q -> seq_requested q <= tokens_emitted q + 1 -> running s' !! id = None) as Hgone.
  { intros id q Hq Hr. rewrite Hrun, decide_True; [done|]. apply Hfin. eauto. }
  assert (overdue (running s') = ∅) as Hover.
  { apply set_eq. intros id. split; [|set_solver]. intros Hid.
    apply overdue_spec in Hid as (q' & Hq' & Hd); [|exact Hk'].
    rewrite Hrun in Hq'. destruct (decide (id ∈ fin)) as [|Hnin]; [done|].
    unfold after_tokens in Hq'. destruct (decide (id ∈ adv)) as [Hin|Hn].
    - apply fmap_Some in Hq' as (q & Hq & ->). unfold is_done, booked in Hd.
      cbn [seq_requested tokens_emitted] in Hd. rewrite Hper in Hd. apply Z.leb_le in Hd.
      exfalso. apply Hnin, Hfin. exists q. split; [done|]. lia.
    - exfalso. apply Hn, Hadv. eauto. }
  rewrite Hfl, Hover in Hflag. rewrite Hflag, Hfl in Hdis.
  assert (flagged s' = ∅) as Hfl' by (rewrite Hflag; set_solver).
  assert (unknown_finish_reports s' = unknown_finish_reports s) as Hunk.
  { enough (length fin <= length dn)%nat by lia.
    rewrite <- (length_map seq_id dn). apply submseteq_length, NoDup_submseteq; [by apply finished_NoDup|].
    intros id Hid. pose proof Hid as Hid'. apply Hfin in Hid as (q & Hq & _).
    apply list_elem_of_fmap. exists (booked now 1 q). split; [by cbn; rewrite (Hk _ _ Hq)|].
    apply Hdn. exists id. split; [done|]. unfold after_tokens. rewrite Hper, decide_True by (apply Hadv; eauto).
    by rewrite Hq. }
  split; [rewrite union_empty_r_L in Hdis; lia|].
  split; [done|]. split; [done|]. intros id q Hq. split; [|by apply Hgone].
  intros Hlt. rewrite Hrun, decide_False.
  - unfold after_tokens. rewrite Hq. destruct (decide _); by eexists.
  - intros Hin. apply Hfin in Hin as (q' & Hq' & Hr). assert (q' = q) as -> by congruence. lia.
Qed.

(** ** The theorems on a small batch *)

Definition dec_sample : DecodeScheduler :=
  foldl (fun s q => admit_at s q (of_Z 100)) (dec_new (of_Z 20) ctl_sample)
    [seq_new 1 (of_Z 90) 3; seq_new 2 (of_Z 95) 2; seq_new 3 (of_Z 96) 9].

Lemma dec_sample_inv : dec_inv dec_sample.
Proof.
  assert (forall s q now, dec_inv s -> dec_inv (admit_at s q now)) as H.
  { intros s q now [Hk Hf]. split; cbn.
    - intros id q'. destruct (decide (id = seq_id q)) as [->|Hne].
      + rewrite lookup_insert_eq. by intros [= <-].
      + rewrite lookup_insert_ne by done. apply Hk.
    - rewrite dom_insert. set_solver. }
  repeat apply H. split; cbn; [by intros ? ?|set_solver].
Qed.

Lemma dec_sample_ages q : q ∈ values dec_sample -> is_nan (age (of_Z 120) q) = false.
Proof.
  assert (Forall (fun q => is_nan (age (of_Z 120) q) = false) (values dec_sample)) as H.
  { apply (bool_decide_unpack _). by vm_compute. }
  rewrite Forall_forall in H. apply H.
Qed.

Lemma can_admit_exact_witness :
  can_admit dec_sample true = can_admit_over dec_sample (rev (values dec_sample)) true /\
  can_admit dec_sample false = NoKvHeadroom.
Proof.
  assert (rev (values dec_sample) ≡ₚ values dec_sample) as H by (symmetry; apply Permutation_rev).
  split; [apply (can_admit_exact dec_sample _ true H)|].
  by apply (can_admit_exact dec_sample _ false H).
Defined.

Lemma tolerable_is_break_even_witness :
  let s := mkSeq 1 f0 (of_Z 100) (of_Z 1090) 100 200 in
  tolerable_itl_ms s (of_Z 20) = of_Z 29 \/ tolerable_itl_ms s (of_Z 10) = of_Z 10.
Proof.
  right. apply (tolerable_is_break_even 1 f0 100 1090 100 200 10 10 f0 0); lia.
Defined.

Lemma on_step_books_witness :
  exists s' dn, on_step dec_sample (of_Z 120) (of_Z 20) [1; 2; 3] [2; 7] = Some (s', dn) /\
    running s' !! 2 = None /\ unknown_finish_reports s' = 1 /\ flagged s' = ∅.
Proof.
  destruct (on_step_books dec_sample (of_Z 120) (of_Z 20) [1; 2; 3] [2; 7] dec_sample_inv)
    as (s' & dn & H & _ & Hrun & _ & _ & _ & _ & _).
  - by apply (bool_decide_unpack _); vm_compute.
  - by vm_compute.
  - apply dec_sample_ages.
  - exists s', dn. split; [exact H|]. split; [by rewrite Hrun|].
    assert (option_map (fun x => (unknown_finish_reports x.1, flagged x.1))
              (on_step dec_sample (of_Z 120) (of_Z 20) [1; 2; 3] [2; 7]) = Some (1, ∅)) as Hc by by vm_compute.
    rewrite H in Hc. cbn in Hc. injection Hc as -> ->. done.
Defined.

Lemma synthetic_step_agrees_witness :
  exists s' dn, on_step_synthetic dec_sample (of_Z 120) (of_Z 20) = Some (s', dn) /\
    finish_disagreements s' = 0 /\ running s' !! 2 = None.
Proof.
  destruct (synthetic_step_agrees dec_sample (of_Z 120) (of_Z 20) dec_sample_inv)
    as (s' & dn & H & Hd & _ & _ & Hrun).
  - by vm_compute.
  - by vm_compute.
  - by vm_compute.
  - apply dec_sample_ages.
  - exists s', dn. split; [exact H|]. split; [by rewrite Hd|].
    apply (Hrun 2 (mkSeq 2 (of_Z 100) (of_Z 95) (of_Z 100) 1 2)); [by vm_compute|]. cbn. lia.
Defined.
End Decoder.
