(* ===== verification/Router.v ===== *)
(** * Worker registry and routing ([crates/router/src/registry.rs], [policy.rs]) *)

From Stdlib Require Import ZArith Lia.
From stdpp Require Import base option list numbers gmap strings.
From S2P Require Import Prelude F64 F64Int Core Radix.

Module Routing.
Local Open Scope Z_scope.

(** ** The registry *)

Inductive WorkerRole := Prefill | Decode.

#[export] Instance WorkerRole_eq_dec : EqDecision WorkerRole.
Proof. solve_decision. Defined.

Record WorkerLoad := mkLoad {
  queued_tokens : Z;
  queue_depth : Z;
  decode_concurrency : Z;
  decode_cap : f64;
  kv_utilisation : f64;
  tokens_per_ms : f64;
  step_ms : f64;
  updated_ms : f64
}.

Record WorkerState := mkWorker {
  wid : WorkerId;
  role : WorkerRole;
  endpoint : string;
  tensor_parallel : Z;
  healthy : bool;
  load : WorkerLoad
}.

Definition decode_headroom (w : WorkerState) : f64 :=
  fmax (fsub (decode_cap (load w)) (of_Z (decode_concurrency (load w)))) f0.

Record WorkerRegistry := mkRegistry {
  reg_workers : gmap Z WorkerState;
  stale_after_ms : f64
}.

Definition registry_new (stale : f64) : WorkerRegistry := mkRegistry ∅ stale.

Definition register (r : WorkerRegistry) (w : WorkerState) : WorkerRegistry :=
  mkRegistry (<[wid w := w]> (reg_workers r)) (stale_after_ms r).

Definition deregister (r : WorkerRegistry) (id : WorkerId) : WorkerRegistry * option WorkerState :=
  (mkRegistry (delete id (reg_workers r)) (stale_after_ms r), reg_workers r !! id).

Definition update_load (r : WorkerRegistry) (id : WorkerId) (l : WorkerLoad) : WorkerRegistry :=
  match reg_workers r !! id with
  | Some w =>
      mkRegistry (<[id := mkWorker (wid w) (role w) (endpoint w) (tensor_parallel w) true l]> (reg_workers r))
        (stale_after_ms r)
  | None => r
  end.

Definition is_live (r : WorkerRegistry) (ro : WorkerRole) (now : f64) (w : WorkerState) : bool :=
  bool_decide (role w = ro) && healthy w && fle (fsub now (updated_ms (load w))) (stale_after_ms r).

Definition live (r : WorkerRegistry) (ro : WorkerRole) (now : f64) : list WorkerState :=
  sort_by (cmp_on wid) (filter (fun w => is_live r ro now w = true) (map_to_list (reg_workers r)).*2).

Definition prefill_rate (r : WorkerRegistry) (now : f64) : f64 :=
  fsum (map (fun w => tokens_per_ms (load w)) (live r Prefill now)).

(** ** The router *)

Inductive RoutingError := NoPrefillWorker | NoDecodeWorker.

Record RoutingDecision := mkDecision {
  rd_prefill : WorkerId;
  rd_decode : WorkerId;
  prefix_hit_tokens : nat;
  predicted_ttft_ms : f64;
  predicted_late : bool
}.

Record RouterTuning := mkTuning {
  kv_transfer_ms : f64;
  default_tokens_per_ms : f64;
  min_prefix_tokens : nat
}.

Record Router := mkRouter {
  registry : WorkerRegistry;
  prefix_index : Trie.RadixIndex;
  tuning : RouterTuning
}.

Definition router_new (r : WorkerRegistry) (t : RouterTuning) : Router :=
  mkRouter r (Trie.radix_new (min_prefix_tokens t) (Z.to_nat 65536)) t.

(** The prefix hit and the predicted cost of prefilling on [w]. *)
Definition hit_of (overlaps : gmap Z nat) (prompt_len : nat) (w : WorkerState) : nat :=
  Nat.min (default 0%nat (overlaps !! wid w)) prompt_len.

Definition cost_of (t : RouterTuning) (overlaps : gmap Z nat) (prompt_len : nat) (w : WorkerState) : f64 :=
  let r := if fgt (tokens_per_ms (load w)) f0 then tokens_per_ms (load w) else default_tokens_per_ms t in
  let compute := of_nat (prompt_len - hit_of overlaps prompt_len w) in
  let wait := fdiv (of_Z (queued_tokens (load w))) r in
  fadd (fadd wait (fdiv compute r)) (kv_transfer_ms t).

Definition better (cost : f64) (id : WorkerId) (best : option (f64 * WorkerId * nat)) : bool :=
  match best with
  | None => true
  | Some (c, bid, _) =>
      flt cost (fsub c (dec 1 9)) || (fle (fabs (fsub cost c)) (dec 1 9) && (id <? bid))
  end.

Definition consider (t : RouterTuning) (overlaps : gmap Z nat) (n : nat)
    (best : option (f64 * WorkerId * nat)) (w : WorkerState) : option (f64 * WorkerId * nat) :=
  let cost := cost_of t overlaps n w in
  if better cost (wid w) best then Some (cost, wid w, hit_of overlaps n w) else best.

(** Most headroom, then least KV in use, then the lower id. *)
Definition decode_order : WorkerState -> WorkerState -> comparison :=
  cmp_then (cmp_then (cmp_on (fun w => total_key (decode_headroom w)))
                     (cmp_rev (cmp_on (fun w => total_key (kv_utilisation (load w))))))
           (cmp_rev (cmp_on wid)).

(** [None] is a panic of the prefix index or of an [expect]. *)
Definition route (rt : Router) (prompt : list Z) (now ttft_budget_ms : f64)
    : option (result RoutingError RoutingDecision) :=
  let prefill_pool := live (registry rt) Prefill now in
  let decode_pool := live (registry rt) Decode now in
  if decide (prefill_pool = []) then Some (Err NoPrefillWorker)
  else if decide (decode_pool = []) then Some (Err NoDecodeWorker)
  else
    overlaps ← Trie.match_workers (prefix_index rt) prompt;
    '(cost, p, hit) ← foldl (consider (tuning rt) overlaps (length prompt)) None prefill_pool;
    d ← max_by decode_order decode_pool;
    Some (Ok (mkDecision p (wid d) hit cost (fgt cost ttft_budget_ms))).

Definition note_prefill (rt : Router) (w : WorkerId) (prompt : list Z) (now : f64) : option Router :=
  ix ← Trie.insert (prefix_index rt) w prompt now;
  Some (mkRouter (registry rt) ix (tuning rt)).

(** ** The registry's invariant *)

Definition reg_inv (r : WorkerRegistry) : Prop := forall id w, reg_workers r !! id = Some w -> wid w = id.

Lemma register_inv r w : reg_inv r -> reg_inv (register r w).
Proof.
  intros H id w' Hw. cbn in Hw. destruct (decide (id = wid w)) as [->|Hne].
  - rewrite lookup_insert_eq in Hw. by simplify_eq.
  - rewrite lookup_insert_ne in Hw by done. by apply H.
Qed.

Lemma deregister_inv r id : reg_inv r -> reg_inv (deregister r id).1.
Proof. intros H i w Hw. cbn in Hw. apply lookup_delete_Some in Hw as [_ Hw]. by apply H. Qed.

Lemma update_load_inv r id l : reg_inv r -> reg_inv (update_load r id l).
Proof.
  intros H i w Hw. unfold update_load in Hw. destruct (reg_workers r !! id) as [w0|] eqn:E; [|by apply H].
  cbn in Hw. destruct (decide (i = id)) as [->|Hne].
  - rewrite lookup_insert_eq in Hw. simplify_eq. cbn. by apply H.
  - rewrite lookup_insert_ne in Hw by done. by apply H.
Qed.

Lemma values_elem r w : reg_inv r ->
  w ∈ (map_to_list (reg_workers r)).*2 <-> reg_workers r !! wid w = Some w.
Proof.
  intros H. rewrite list_elem_of_fmap. split.
  - intros ([i w'] & -> & Hin). apply elem_of_map_to_list in Hin. cbn. by rewrite (H _ _ Hin).
  - intros Hw. exists (wid w, w). split; [done|by apply elem_of_map_to_list].
Qed.

Lemma live_elem r ro now w : reg_inv r ->
  w ∈ live r ro now <-> reg_workers r !! wid w = Some w /\ is_live r ro now w = true.
Proof.
  intros H. unfold live. rewrite elem_of_sort_by, list_elem_of_filter, values_elem by done. tauto.
Qed.

Lemma live_ids_inj r ro now x y : reg_inv r ->
  x ∈ live r ro now -> y ∈ live r ro now -> wid x = wid y -> x = y.
Proof. intros H Hx Hy He. apply live_elem in Hx as [Hx _], Hy as [Hy _]; [|done..]. congruence. Qed.

#[export] Instance decode_order_total : TotalCmp decode_order.
Proof.
  apply cmp_then_total; [apply cmp_then_total; [apply cmp_on_total|apply cmp_rev_total, cmp_on_total]|].
  apply cmp_rev_total, cmp_on_total.
Qed.

(** ** The cheapest prefill worker *)

Section cheapest.
Context (t : RouterTuning) (overlaps : gmap Z nat) (n : nat).
Let cost := cost_of t overlaps n.

(** [w] does not undercut the chosen cost [c] by more than the tolerance. *)
Definition not_undercut (c : f64) (w : WorkerState) : Prop :=
  exists c0, fle c c0 = true /\ flt (cost w) (fsub c0 (dec 1 9)) = false.

Definition best_inv (seen : list WorkerState) (best : option (f64 * WorkerId * nat)) : Prop :=
  match best with
  | None => seen = []
  | Some (c, id, h) =>
      (exists w, w ∈ seen /\ wid w = id /\ cost w = c /\ hit_of overlaps n w = h) /\
      forall w, w ∈ seen -> not_undercut c w
  end.

Definition usable (w : WorkerState) : Prop := valid (cost w) /\ is_finite (cost w) = true.

Lemma minus_tolerance b : valid b -> is_finite b = true -> fle (fsub b (dec 1 9)) b = true.
Proof.
  intros Vb Fb.
  assert (valid (dec 1 9) /\ is_finite (dec 1 9) = true /\ 0 <= ival (dec 1 9)) as (Vd & Fd & Pd).
  { split; [by vm_compute|]. split; [by vm_compute|]. apply (bool_decide_unpack _). by vm_compute. }
  eapply faithful_fle; [exact (fsub_faithful b (dec 1 9) Vb Vd Fb Fd)|done|by destruct b|lia].
Qed.

Lemma consider_inv seen best w :
  best_inv seen best -> usable w -> (forall x, x ∈ seen -> usable x /\ wid x <= wid w) ->
  best_inv (seen ++ [w]) (consider t overlaps n best w).
Proof.
  intros Hb [Vw Fw] Hseen. unfold consider. fold cost.
  assert (is_nan (cost w) = false) as Nw by by destruct (cost w).
  assert (not_undercut (cost w) w) as Hself.
  { exists (cost w). split; [by apply fle_refl|]. pose proof (minus_tolerance _ Vw Fw) as Hle.
    destruct (flt (cost w) _) eqn:E; [|done]. pose proof (flt_le_trans _ _ _ E Hle) as H. by rewrite flt_irrefl in H. }
  destruct best as [[[c id] h]|]; cbn [better].
  - destruct Hb as ((w0 & Hin & <- & Hc & <-) & Hall). destruct (Hseen w0 Hin) as [[V0 F0] Hid].
    destruct (Z.ltb_spec (wid w) (wid w0)); [lia|]. rewrite andb_false_r, orb_false_r.
    destruct (flt (cost w) (fsub c (dec 1 9))) eqn:E; split.
    + exists w. split; [apply elem_of_app; right; by left|done].
    + rewrite <- Hc in *.
      assert (fle (cost w) (cost w0) = true) as Hle.
      { eapply fle_trans; [apply flt_fle; exact E|by apply minus_tolerance]. }
      intros x Hx. apply elem_of_app in Hx as [Hx|Hx].
      * destruct (Hall x Hx) as (c0 & H0 & H1). exists c0. split; [by eapply fle_trans|done].
      * by apply list_elem_of_singleton in Hx as ->.
    + exists w0. split; [apply elem_of_app; by left|done].
    + intros x Hx. apply elem_of_app in Hx as [Hx|Hx]; [by apply Hall|].
      apply list_elem_of_singleton in Hx as ->. exists c. split; [|done].
      apply fle_refl. rewrite <- Hc. by destruct (cost w0).
  - cbn in Hb. subst seen. split.
    + exists w. split; [by left|done].
    + intros x Hx. by apply list_elem_of_singleton in Hx as ->.
Qed.

Lemma consider_fold rest : forall seen best,
  best_inv seen best -> sorted_by (cmp_on wid) (seen ++ rest) -> (forall x, x ∈ seen ++ rest -> usable x) ->
  best_inv (seen ++ rest) (foldl (consider t overlaps n) best rest).
Proof.
  induction rest as [|w rest IH]; intros seen best Hb Hs Hu; cbn [foldl]; [by rewrite app_nil_r|].
  rewrite (app_assoc seen [w] rest : seen ++ w :: rest = (seen ++ [w]) ++ rest) in *.
  apply IH; [|done|done]. apply consider_inv; [done| |].
  - apply Hu, elem_of_app. left. apply elem_of_app. right. by left.
  - intros x Hx. split; [apply Hu, elem_of_app; left; apply elem_of_app; by left|].
    apply list_elem_of_lookup in Hx as [i Hi]. pose proof (lookup_lt_Some _ _ _ Hi).
    rewrite <- app_assoc in Hs.
    apply Z.compare_le_iff. apply (sorted_by_lookup (cmp_on wid) _ i (length seen) x w Hs); [| |lia].
    + by apply lookup_app_l_Some.
    + by apply list_lookup_middle.
Qed.
(** Some worker is chosen, whatever the costs are. *)
Lemma consider_some rest : forall seen best,
  (forall c id h, best = Some (c, id, h) -> exists w, w ∈ seen /\ wid w = id) ->
  (best = None -> rest <> []) ->
  exists c id h, foldl (consider t overlaps n) best rest = Some (c, id, h) /\
    exists w, w ∈ seen ++ rest /\ wid w = id.
Proof.
  induction rest as [|w rest IH]; intros seen best Hb Hne; cbn [foldl].
  { destruct best as [[[c id] h]|]; [|by destruct (Hne eq_refl)]. exists c, id, h. split; [done|].
    rewrite app_nil_r. by eapply Hb. }
  rewrite (app_assoc seen [w] rest : seen ++ w :: rest = (seen ++ [w]) ++ rest).
  apply IH; unfold consider; destruct best as [[[c0 id0] h0]|]; cbn [better].
  - intros c id h. destruct (_ || _).
    + intros [= <- <- <-]. exists w. split; [apply elem_of_app; right; by left|done].
    + intros E. destruct (Hb _ _ _ E) as (w' & Hw & Hid). exists w'. split; [apply elem_of_app; by left|done].
  - intros c id h [= <- <- <-]. exists w. split; [apply elem_of_app; right; by left|done].
  - by destruct (_ || _).
  - done.
Qed.
End cheapest.

(** ** Theorems *)

(** The list of live workers is exact and canonical: it holds every
    registered worker of the role that is healthy and recent enough, and no
    other, in strictly increasing id order, so it does not depend on the hash
    map's iteration order. *)
Theorem live_exact r ro now :
  reg_inv r ->
  (forall w, w ∈ live r ro now <->
     reg_workers r !! wid w = Some w /\ role w = ro /\ healthy w = true /\
     fle (fsub now (updated_ms (load w))) (stale_after_ms r) = true) /\
  (forall i j x y, (i < j)%nat -> live r ro now !! i = Some x -> live r ro now !! j = Some y -> wid x < wid y) /\
  (forall l, l ≡ₚ filter (fun w => is_live r ro now w = true) (map_to_list (reg_workers r)).*2 ->
     sort_by (cmp_on wid) l = live r ro now).
Proof.
  intros H. split; [|split].
  - intros w. rewrite live_elem by done. unfold is_live. rewrite !andb_true_iff, bool_decide_eq_true. tauto.
  - intros i j x y Hij Hx Hy.
    assert (cmp_le (cmp_on wid) x y) as Hle.
    { apply (sorted_by_lookup (cmp_on wid) _ i j x y (sort_by_sorted _ _) Hx Hy). lia. }
    change (wid x <= wid y) in Hle.
    assert (wid x <> wid y); [|lia]. intros He.
    assert (x = y) as -> by (apply (live_ids_inj r ro now); [done|by eapply list_elem_of_lookup_2..|done]).
    assert (i = j); [|lia].
    eapply (NoDup_lookup (live r ro now)); [|done|done].
    unfold live. rewrite sort_by_perm. apply NoDup_filter.
    assert (NoDup (map wid (map_to_list (reg_workers r)).*2)) as Hnd; [|by apply NoDup_fmap_1 in Hnd].
    assert (forall l, (forall k w, (k, w) ∈ l -> wid w = k) -> map wid l.*2 = l.*1) as Hl.
    { induction l as [|[k w] l IH]; intros Hk; [done|]. cbn. rewrite (Hk k w) by left. f_equal.
      apply IH. intros k' w' Hin. apply Hk. by right. }
    rewrite Hl; [apply NoDup_fst_map_to_list|].
    intros k w Hin. apply H. by apply elem_of_map_to_list.
  - intros l Hl. apply (sort_by_order_independent (cmp_on wid)); [|done].
    intros x y Hx Hy He. apply Z.compare_eq in He.
    assert (forall z, z ∈ l -> z ∈ live r ro now) as Hin.
    { intros z Hz. unfold live. rewrite elem_of_sort_by. by rewrite <- Hl. }
    by apply (live_ids_inj r ro now); auto.
Qed.

(** With a live worker of each role, a reachable index routes. *)
Lemma route_total rt prompt now budget :
  Trie.index_inv (prefix_index rt) ->
  live (registry rt) Prefill now <> [] -> live (registry rt) Decode now <> [] ->
  exists d p dw, route rt prompt now budget = Some (Ok d) /\
    p ∈ live (registry rt) Prefill now /\ wid p = rd_prefill d /\
    dw ∈ live (registry rt) Decode now /\ wid dw = rd_decode d.
Proof.
  intros Hix N1 N2. unfold route. rewrite !decide_False by done.
  destruct (Trie.match_workers_total (prefix_index rt) prompt Hix) as [overlaps ->]. cbn [mbind option_bind].
  destruct (consider_some (tuning rt) overlaps (length prompt) (live (registry rt) Prefill now) [] None)
    as (c & id & h & -> & p & Hp & <-); [done|done|]. cbn [mbind option_bind].
  destruct (max_by_is_Some decode_order _ N2) as [dw Hdw]. rewrite Hdw. cbn [mbind option_bind].
  destruct (max_by_spec decode_order _ _ Hdw) as [Hin _]. by exists (mkDecision (wid p) (wid dw) h c (fgt c budget)), p, dw.
Qed.

(** A reachable index always answers: with live workers of both roles, or with
    the role that has none. *)
Lemma route_answers rt prompt now budget :
  Trie.index_inv (prefix_index rt) ->
  (exists e, route rt prompt now budget = Some (Err e)) \/
  exists d p dw, route rt prompt now budget = Some (Ok d) /\
    p ∈ live (registry rt) Prefill now /\ wid p = rd_prefill d /\
    dw ∈ live (registry rt) Decode now /\ wid dw = rd_decode d.
Proof.
  intros Hix. destruct (decide (live (registry rt) Prefill now = [])) as [H1|H1].
  { left. exists NoPrefillWorker. unfold route. by rewrite decide_True. }
  destruct (decide (live (registry rt) Decode now = [])) as [H2|H2].
  { left. exists NoDecodeWorker. unfold route. by rewrite decide_False, decide_True. }
  right. by apply route_total.
Qed.

Lemma route_decode rt prompt now budget d :
  route rt prompt now budget = Some (Ok d) ->
  exists dw, max_by decode_order (live (registry rt) Decode now) = Some dw /\ wid dw = rd_decode d.
Proof.
  unfold route. destruct (decide _); [done|]. destruct (decide _); [done|].
  destruct (Trie.match_workers _ _) as [ov|]; cbn [mbind option_bind]; [|done].
  destruct (foldl _ _ _) as [[[c p] h]|]; cbn [mbind option_bind]; [|done].
  destruct (max_by decode_order _) as [dw|]; cbn [mbind option_bind]; [|done]. intros [= <-]. by exists dw.
Qed.

(** C33. Routing fails exactly when a pool is empty, prefill first, and never
    panics on a reachable index.  Otherwise it names a live prefill worker, with
    the prefix length and the cost computed for it, that no live prefill worker
    undercuts by more than the tolerance; a live decode worker of maximal
    headroom, then least KV use, then lowest id; and says whether the predicted
    first token is late. *)
Theorem route_chooses rt prompt now budget :
  reg_inv (registry rt) -> Trie.index_inv (prefix_index rt) ->
  (forall overlaps w, w ∈ live (registry rt) Prefill now -> usable (tuning rt) overlaps (length prompt) w) ->
  let prefill_pool := live (registry rt) Prefill now in
  let decode_pool := live (registry rt) Decode now in
  (route rt prompt now budget = Some (Err NoPrefillWorker) <-> prefill_pool = []) /\
  (route rt prompt now budget = Some (Err NoDecodeWorker) <-> prefill_pool <> [] /\ decode_pool = []) /\
  (prefill_pool <> [] -> decode_pool <> [] ->
   exists d overlaps p dw, route rt prompt now budget = Some (Ok d) /\
     Trie.match_workers (prefix_index rt) prompt = Some overlaps /\
     p ∈ prefill_pool /\ wid p = rd_prefill d /\
     predicted_ttft_ms d = cost_of (tuning rt) overlaps (length prompt) p /\
     prefix_hit_tokens d = hit_of overlaps (length prompt) p /\
     (forall w, w ∈ prefill_pool -> not_undercut (tuning rt) overlaps (length prompt) (predicted_ttft_ms d) w) /\
     dw ∈ decode_pool /\ wid dw = rd_decode d /\
     (forall w, w ∈ decode_pool -> decode_order w dw <> Gt) /\
     predicted_late d = fgt (predicted_ttft_ms d) budget).
Proof.
  intros Hr Hix Hu prefill_pool decode_pool. unfold route. fold prefill_pool decode_pool.
  destruct (decide (prefill_pool = [])) as [E1|N1].
  { split; [done|]. split; [|done]. split; [done|]. by intros [? _]. }
  destruct (decide (decode_pool = [])) as [E2|N2]; [split; [done|]; split; [done|done]|].
  destruct (Trie.match_workers_total (prefix_index rt) prompt Hix) as [overlaps Hov]. rewrite Hov.
  cbn [mbind option_bind].
  pose proof (consider_fold (tuning rt) overlaps (length prompt) prefill_pool [] None eq_refl
    (sort_by_sorted _ _) (Hu overlaps)) as Hb. cbn [app] in Hb.
  destruct (foldl _ None prefill_pool) as [[[c id] h]|]; [|done].
  destruct Hb as ((p & Hp & Hid & Hc & Hh) & Hall). cbn [mbind option_bind].
  destruct (max_by_is_Some decode_order decode_pool N2) as [dw Hdw]. rewrite Hdw. cbn [mbind option_bind].
  destruct (max_by_spec decode_order _ _ Hdw) as [Hin Hmax]. rewrite Forall_forall in Hmax.
  split; [done|]. split; [by split; [|intros [_ ?]]|]. intros _ _.
  eexists _, overlaps, p, dw. split; [done|]. cbn. split_and!; done.
Qed.
(** ** A small fleet *)

Definition fleet : WorkerRegistry :=
  foldl register (registry_new (of_Z 5000))
    [mkWorker 3 Prefill "p3" 2 true (mkLoad 900 1 0 f0 f0 (of_Z 9) f0 (of_Z 100));
     mkWorker 1 Prefill "p1" 2 true (mkLoad 90 1 0 f0 f0 (of_Z 9) f0 (of_Z 100));
     mkWorker 8 Decode "d8" 8 true (mkLoad 0 0 10 (of_Z 64) f0 f0 (of_Z 15) (of_Z 100));
     mkWorker 9 Decode "d9" 8 true (mkLoad 0 0 10 (of_Z 64) f0 f0 (of_Z 15) (of_Z 100))].

Definition router_sample : Router := router_new fleet (mkTuning (of_Z 10) (of_Z 17) 1).

Lemma fleet_inv : reg_inv fleet.
Proof. repeat apply register_inv. intros id w Hw. cbn in Hw; by rewrite lookup_empty in Hw. Qed.

Lemma router_sample_index : Trie.index_inv (prefix_index router_sample).
Proof. apply Trie.radix_new_inv. Qed.

Lemma live_exact_witness : map wid (live fleet Prefill (of_Z 200)) = [1; 3] /\
  live fleet Decode (of_Z 6000) = [].
Proof.
  destruct (live_exact fleet Prefill (of_Z 200) fleet_inv) as (_ & _ & H).
  split; [|by vm_compute]. rewrite <- (H _ (reflexivity _)). by vm_compute.
Defined.

Lemma route_chooses_witness :
  exists d, route router_sample [1; 2; 3] (of_Z 200) (of_Z 3000) = Some (Ok d) /\
    rd_prefill d = 1 /\ rd_decode d = 8.
Proof.
  destruct (route_chooses router_sample [1; 2; 3] (of_Z 200) (of_Z 3000) fleet_inv router_sample_index)
    as (_ & _ & H).
  - intros o w Hw.
    assert (Forall (fun w => tokens_per_ms (load w) = of_Z 9 /\ 0 <= queued_tokens (load w) <= 1000)
              (live fleet Prefill (of_Z 200))) as Hf.
    { assert (live fleet Prefill (of_Z 200) =
        [mkWorker 1 Prefill "p1" 2 true (mkLoad 90 1 0 f0 f0 (of_Z 9) f0 (of_Z 100));
         mkWorker 3 Prefill "p3" 2 true (mkLoad 900 1 0 f0 f0 (of_Z 9) f0 (of_Z 100))]) as -> by by vm_compute.
      repeat (apply Forall_cons; split; [cbn; split; [done|lia]|]). done. }
    rewrite Forall_forall in Hf. destruct (Hf w Hw) as [Ht Hq].
    assert (Forall (fun q => Forall (fun h =>
        valid (fadd (fadd (fdiv (of_Z q) (of_Z 9)) (fdiv (of_nat (3 - h)) (of_Z 9))) (of_Z 10)) /\
        is_finite (fadd (fadd (fdiv (of_Z q) (of_Z 9)) (fdiv (of_nat (3 - h)) (of_Z 9))) (of_Z 10)) = true)
        (seq 0 4)) [90; 900]) as Hc.
    { apply (bool_decide_unpack _). by vm_compute. }
    assert (queued_tokens (load w) ∈ [90; 900]) as Hq2.
    { assert (Forall (fun w => queued_tokens (load w) ∈ [90; 900]) (live fleet Prefill (of_Z 200))) as Hl.
      { apply (bool_decide_unpack _). by vm_compute. }
      rewrite Forall_forall in Hl. by apply Hl. }
    rewrite Forall_forall in Hc. specialize (Hc _ Hq2). rewrite Forall_forall in Hc.
    unfold usable, cost_of. rewrite Ht.
    assert (hit_of o (length [1; 2; 3]) w ∈ seq 0 4) as Hh.
    { apply elem_of_seq. unfold hit_of. cbn. lia. }
    exact (Hc _ Hh).
  - destruct H as (d & o & p & dw & Hd & _); [by vm_compute|by vm_compute|].
    exists d. split; [exact Hd|].
    assert (match route router_sample [1; 2; 3] (of_Z 200) (of_Z 3000) with
            | Some (Ok d) => (rd_prefill d, rd_decode d) | _ => (0, 0) end = (1, 8)) as Hc by by vm_compute.
    rewrite Hd in Hc. split; [exact (f_equal fst Hc)|exact (f_equal snd Hc)].
Defined.
End Routing.
