(* ===== verification/Decide.v ===== *)
(** * The live capacity decision ([crates/pyext/src/decide.rs], [lib.rs])

    One call receives parallel arrays and answers with indices into them.  The
    arrays have the same length ([validate_lengths] rejects the call otherwise),
    so an index below it is in range for all of them. *)

From Stdlib Require Import ZArith Lia.
From stdpp Require Import base option list numbers gmap strings.
From S2P Require Import Prelude F64 F64Int Controller.

Module Capacity.
Local Open Scope Z_scope.

(** ** Input *)

Inductive DecodeOrder := Arrival | Slack.

Definition tolerable_itl_ms (now_ms arrival_ms : f64) (tokens_generated max_new_tokens : Z) (budget_ms : f64) : f64 :=
  let gaps_total := of_Z (sat_sub max_new_tokens 1) in
  let gaps_done := of_Z (sat_sub tokens_generated 1) in
  let remaining := fsub gaps_total gaps_done in
  if fle remaining f0 then INFINITY
  else
    let elapsed := fmax (fsub now_ms arrival_ms) f0 in
    fdiv (fsub (fmul budget_ms gaps_total) elapsed) remaining.

Record DecideInput := mkInput {
  ids : list Z;
  is_context : list bool;
  prompt_lens : list Z;
  context_done_tokens : list Z;
  arrival_ms : list f64;
  inflight : list Z;
  max_batch_size : Z;
  max_num_tokens : Z;
  tokens_generated : list Z;
  max_new_tokens : list Z;
  now_ms : f64;
  itl_budget_ms : f64;
  decode_order : DecodeOrder;
  kv_free_blocks : Z;
  kv_watermark_blocks : Z;
  generation_cap : Z
}.

(** One request's row of the arrays. *)
Record Row := mkRow {
  r_id : Z; r_context : bool; r_prompt : Z; r_done : Z; r_arrival : f64; r_generated : Z; r_max_new : Z
}.

Definition row (inp : DecideInput) (i : nat) : Row :=
  mkRow (nth i (ids inp) 0) (nth i (is_context inp) false) (nth i (prompt_lens inp) 0)
    (nth i (context_done_tokens inp) 0) (nth i (arrival_ms inp) NAN) (nth i (tokens_generated inp) 0)
    (nth i (max_new_tokens inp) 0).

(** The array named by [name] with its length; [Err] names the first mismatch. *)
Definition validate_lengths (ids_len : nat) (lens : list (string * nat)) : result string nat :=
  match list_find (fun nl => nl.2 <> ids_len) lens with
  | Some (_, (name, _)) => Err name
  | None => Ok ids_len
  end.

(** ** Ordering *)

Definition by_arrival_then_id (a b : Row) : comparison :=
  cmp_then (cmp_on (fun r => total_key (r_arrival r))) (cmp_on r_id) a b.

Definition slack_of (now budget : f64) (r : Row) : f64 :=
  tolerable_itl_ms now (r_arrival r) (r_generated r) (r_max_new r) budget.

Definition by_slack (now budget : f64) (a b : Row) : comparison :=
  cmp_then (cmp_on (fun r => total_key (slack_of now budget r))) (cmp_on r_id) a b.

Definition generation_order (o : DecodeOrder) (now budget : f64) : Row -> Row -> comparison :=
  match o with Arrival => by_arrival_then_id | Slack => by_slack now budget end.

(** ** The loops, over any kind of candidate *)

Record Limits := mkLimits {
  l_batch : Z; l_tokens : Z; l_cap : Z; l_free : Z; l_watermark : Z
}.

Definition limits_of (inp : DecideInput) : Limits :=
  mkLimits (max_batch_size inp) (max_num_tokens inp) (generation_cap inp) (kv_free_blocks inp)
    (kv_watermark_blocks inp).

Definition sat_add (a b : Z) : Z := Z.min u64_max (a + b).

(** The prefill work a context request still owes. *)
Definition owed (r : Row) : Z := sat_sub (r_prompt r) (r_done r).

Section loops.
Context {A : Type} (get : A -> Row) (lim : Limits).

Record Progress := mkProgress {
  fitting : list A; paused : list A; batch_used : Z; token_used : Z; gen_admitted : Z
}.

Definition progress_new : Progress := mkProgress [] [] 0 0 0.

Definition gen_step (p : Progress) (x : A) : Progress :=
  if (gen_admitted p <? l_cap lim) && (batch_used p <? l_batch lim) &&
     (sat_add (token_used p) 1 <=? l_tokens lim)
  then mkProgress (fitting p ++ [x]) (paused p) (batch_used p + 1) (token_used p + 1) (gen_admitted p + 1)
  else mkProgress (fitting p) (paused p ++ [x]) (batch_used p) (token_used p) (gen_admitted p).

Definition pause (p : Progress) (x : A) : Progress :=
  mkProgress (fitting p) (paused p ++ [x]) (batch_used p) (token_used p) (gen_admitted p).

Definition ctx_step (stalled : bool) (p : Progress) (x : A) : Progress :=
  if stalled then pause p x
  else if (r_done (get x) =? 0) && (l_free lim <? l_watermark lim) then pause p x
  else
    let remaining := owed (get x) in
    if (batch_used p <? l_batch lim) && (sat_add (token_used p) remaining <=? l_tokens lim)
    then mkProgress (fitting p ++ [x]) (paused p) (batch_used p + 1) (token_used p + remaining) (gen_admitted p)
    else pause p x.

(** Generation first, then context in what is left. *)
Definition run_loops (generation context : list A) : Progress :=
  let p := foldl gen_step progress_new generation in
  foldl (ctx_step (bool_decide (paused p <> []))) p context.
End loops.
Arguments mkProgress {A}.
Arguments fitting {A}.
Arguments paused {A}.
Arguments batch_used {A}.
Arguments token_used {A}.
Arguments gen_admitted {A}.
Arguments progress_new {A}.

Definition candidates (inp : DecideInput) : list nat :=
  filter (fun i => ~ (nth i (ids inp) 0 ∈ inflight inp)) (seq 0 (length (ids inp))).

Definition context_candidates (inp : DecideInput) : list nat :=
  filter (fun i => r_context (row inp i) = true) (candidates inp).
Definition generation_candidates (inp : DecideInput) : list nat :=
  filter (fun i => r_context (row inp i) = false) (candidates inp).

Definition decide_indices (inp : DecideInput) : list nat * list nat :=
  let ctx := sort_by (fun a b => by_arrival_then_id (row inp a) (row inp b)) (context_candidates inp) in
  let gen := sort_by (fun a b => generation_order (decode_order inp) (now_ms inp) (itl_budget_ms inp)
                                   (row inp a) (row inp b)) (generation_candidates inp) in
  let p := run_loops (row inp) (limits_of inp) gen ctx in
  (fitting p, paused p).

(** ** The scheduler object *)

Record LedgerEntry := mkEntry { last_seen_ms : f64; steps_absent : Z }.

Definition LEDGER_FORGET_STEPS : Z := 10000.

Record RustScheduler := mkRust {
  rs_max_batch_size : Z;
  rs_max_num_tokens : Z;
  rs_kv_total_blocks : Z;
  rs_itl_budget_ms : f64;
  rs_decode_order : DecodeOrder;
  ledger : gmap Z LedgerEntry;
  rs_kv_watermark_blocks : Z;
  rs_controller : ItlController;
  admitted_total : Z;
  paused_total : Z;
  steps_observed : Z;
  last_kv_free_blocks : Z;
  last_now_ms : f64
}.

(** [env_order] is the value of [TRTLLM_RS_DECODE_ORDER], if set. *)
Definition rust_new (batch num_tokens : Z) (budget : f64) (kv_total : Z) (env_order : option string) : RustScheduler :=
  let max_cap := of_Z (Z.max batch 1) in
  let order := if decide (env_order = Some "arrival"%string) then Arrival else Slack in
  mkRust batch num_tokens kv_total budget order ∅ (kv_total / 20) (ctl_new budget max_cap f1 max_cap)
    0 0 0 kv_total f0.

(** One pass over the ledger for the ids present this step. *)
Definition update_ledger (l : gmap Z LedgerEntry) (present : list Z) (now : f64) : gmap Z LedgerEntry :=
  let l1 := foldl (fun l id => <[id := mkEntry now 0]> l) l present in
  map_imap (fun id e =>
    if decide (id ∈ present) then Some e
    else
      let e' := mkEntry (last_seen_ms e) (steps_absent e + 1) in
      if steps_absent e' <=? LEDGER_FORGET_STEPS then Some e' else None) l1.

Definition absent_one (now : f64) (acc : nat * f64) (e : LedgerEntry) : nat * f64 :=
  if 0 <? steps_absent e then (S acc.1, fmax acc.2 (fsub now (last_seen_ms e))) else acc.

Definition absent (s : RustScheduler) (now : f64) : nat * f64 :=
  foldl (absent_one now) (0%nat, f0) (map_to_list (ledger s)).*2.

Definition rust_observe (s : RustScheduler) (step_ms : f64) (concurrency : Z) : RustScheduler :=
  mkRust (rs_max_batch_size s) (rs_max_num_tokens s) (rs_kv_total_blocks s) (rs_itl_budget_ms s)
    (rs_decode_order s) (ledger s) (rs_kv_watermark_blocks s) (observe (rs_controller s) step_ms concurrency)
    (admitted_total s) (paused_total s) (steps_observed s + 1) (last_kv_free_blocks s) (last_now_ms s).

Definition decide_call (s : RustScheduler) (ids_ : list Z) (is_context_ : list bool)
    (prompt_lens_ context_done tokens_gen max_new : list Z) (arrival : list f64) (inflight_ : list Z)
    (kv_free : Z) (now : f64) : result string (RustScheduler * (list nat * list nat)) :=
  (_ <-? validate_lengths (length ids_)
      [("is_context"%string, length is_context_); ("prompt_lens"%string, length prompt_lens_);
       ("context_done_tokens"%string, length context_done); ("tokens_generated"%string, length tokens_gen);
       ("max_new_tokens"%string, length max_new); ("arrival_ms"%string, length arrival)] ;;
   let inp := mkInput ids_ is_context_ prompt_lens_ context_done arrival inflight_ (rs_max_batch_size s)
     (rs_max_num_tokens s) tokens_gen max_new now (rs_itl_budget_ms s) (rs_decode_order s) kv_free
     (rs_kv_watermark_blocks s) (to_usize (fmax (cap (rs_controller s)) f0)) in
   let '(fit, psd) := decide_indices inp in
   Ok (mkRust (rs_max_batch_size s) (rs_max_num_tokens s) (rs_kv_total_blocks s) (rs_itl_budget_ms s)
         (rs_decode_order s) (update_ledger (ledger s) ids_ now) (rs_kv_watermark_blocks s) (rs_controller s)
         (admitted_total s + Z.of_nat (length fit)) (paused_total s + Z.of_nat (length psd))
         (steps_observed s) kv_free now, (fit, psd)))%s.

(** ** The loops keep the budgets *)

Definition charge (r : Row) : Z := if r_context r then owed r else 1.

Section loop_facts.
Context {A : Type} (get : A -> Row) (lim : Limits).

Definition total_charge (l : list A) : Z := foldr (fun x n => charge (get x) + n) 0 l.

Lemma total_charge_app (a b : list A) : total_charge (a ++ b) = total_charge a + total_charge b.
Proof. unfold total_charge. induction a as [|x a IH]; cbn [app foldr]; lia. Qed.

Definition gen_count (l : list A) : Z := Z.of_nat (length (filter (fun x => r_context (get x) = false) l)).

Lemma gen_count_app (a b : list A) : gen_count (a ++ b) = gen_count a + gen_count b.
Proof. unfold gen_count. rewrite filter_app, length_app. lia. Qed.

(** The limits are machine words and the token budget is not the largest. *)
Context (Hlim : 0 <= l_tokens lim < u64_max /\ 0 <= l_batch lim /\ 0 <= l_cap lim).

Record loop_inv (seen : list A) (p : Progress (A := A)) : Prop := {
  li_perm : fitting p ++ paused p ≡ₚ seen;
  li_batch : batch_used p = Z.of_nat (length (fitting p)) /\ 0 <= batch_used p <= l_batch lim;
  li_tokens : token_used p = total_charge (fitting p) /\ 0 <= token_used p <= l_tokens lim;
  li_gen : gen_admitted p = gen_count (fitting p) /\ 0 <= gen_admitted p <= l_cap lim
}.

Lemma progress_new_inv : loop_inv [] progress_new.
Proof using Hlim. split; unfold gen_count; cbn; [done|split; lia..]. Qed.

Lemma pause_inv seen p x : loop_inv seen p -> loop_inv (seen ++ [x]) (pause p x).
Proof using.
  intros [H1 H2 H3 H4]. split; try done. cbn [pause fitting paused].
  by rewrite app_assoc, H1.
Qed.

Lemma fit_perm (seen : list A) (p : Progress (A := A)) (x : A) :
  fitting p ++ paused p ≡ₚ seen -> (fitting p ++ [x]) ++ paused p ≡ₚ seen ++ [x].
Proof using. intros <-. rewrite <- !app_assoc. apply Permutation_app_head, Permutation_app_comm. Qed.

Lemma sat_add_fits a b : sat_add a b <= l_tokens lim -> a + b <= l_tokens lim.
Proof using Hlim. unfold sat_add. lia. Qed.

Lemma gen_step_inv seen p x :
  loop_inv seen p -> r_context (get x) = false -> loop_inv (seen ++ [x]) (gen_step lim p x).
Proof using Hlim.
  intros H Hc. pose proof H as [H1 H2 H3 H4]. unfold gen_step.
  destruct (Z.ltb_spec (gen_admitted p) (l_cap lim)); [|by apply pause_inv].
  destruct (Z.ltb_spec (batch_used p) (l_batch lim)); [|by apply pause_inv].
  destruct (Z.leb_spec (sat_add (token_used p) 1) (l_tokens lim)) as [Ht|]; [|by apply pause_inv].
  apply sat_add_fits in Ht.
  cbn [andb]. split; cbn [fitting paused batch_used token_used gen_admitted].
  - by apply fit_perm.
  - rewrite length_app. cbn. lia.
  - rewrite total_charge_app. cbn. unfold charge. rewrite Hc. lia.
  - rewrite gen_count_app. unfold gen_count at 2. rewrite filter_cons_True by done. cbn. lia.
Qed.

Lemma ctx_step_inv stalled seen p x :
  loop_inv seen p -> r_context (get x) = true -> loop_inv (seen ++ [x]) (ctx_step get lim stalled p x).
Proof using Hlim.
  intros H Hc. pose proof H as [H1 H2 H3 H4]. unfold ctx_step.
  destruct stalled; [by apply pause_inv|]. destruct (_ && _); [by apply pause_inv|].
  destruct (Z.ltb_spec (batch_used p) (l_batch lim)); [|by apply pause_inv].
  destruct (Z.leb_spec (sat_add (token_used p) (owed (get x))) (l_tokens lim)) as [Ht|]; [|by apply pause_inv].
  apply sat_add_fits in Ht. assert (0 <= owed (get x)) by (unfold owed, sat_sub; lia).
  cbn [andb]. split; cbn [fitting paused batch_used token_used gen_admitted].
  - by apply fit_perm.
  - rewrite length_app. cbn. lia.
  - rewrite total_charge_app. cbn. unfold charge. rewrite Hc. lia.
  - rewrite gen_count_app. unfold gen_count at 2. rewrite filter_cons_False by congruence. cbn. lia.
Qed.

Lemma gen_fold_inv l : forall seen p,
  loop_inv seen p -> Forall (fun x => r_context (get x) = false) l ->
  loop_inv (seen ++ l) (foldl (gen_step lim) p l).
Proof using Hlim.
  induction l as [|x l IH]; intros seen p H Hl; cbn [foldl]; [by rewrite app_nil_r|].
  apply Forall_cons in Hl as [Hx Hl].
  rewrite (app_assoc seen [x] l : seen ++ x :: l = (seen ++ [x]) ++ l). apply IH; [|done]. by apply gen_step_inv.
Qed.

Lemma ctx_fold_inv stalled l : forall seen p,
  loop_inv seen p -> Forall (fun x => r_context (get x) = true) l ->
  loop_inv (seen ++ l) (foldl (ctx_step get lim stalled) p l).
Proof using Hlim.
  induction l as [|x l IH]; intros seen p H Hl; cbn [foldl]; [by rewrite app_nil_r|].
  apply Forall_cons in Hl as [Hx Hl].
  rewrite (app_assoc seen [x] l : seen ++ x :: l = (seen ++ [x]) ++ l). apply IH; [|done]. by apply ctx_step_inv.
Qed.

(** The generation loop takes a prefix, as long as the budgets allow. *)
Definition has_room (p : Progress (A := A)) : bool :=
  (gen_admitted p <? l_cap lim) && (batch_used p <? l_batch lim) &&
  (sat_add (token_used p) 1 <=? l_tokens lim).

Lemma gen_fold_full l : forall p, has_room p = false ->
  foldl (gen_step lim) p l = mkProgress (fitting p) (paused p ++ l) (batch_used p) (token_used p) (gen_admitted p).
Proof using.
  induction l as [|x l IH]; intros p Hp; cbn [foldl]; [by destruct p; rewrite app_nil_r|].
  unfold gen_step at 2. fold (has_room p). rewrite Hp, IH by done. cbn. by rewrite <- app_assoc.
Qed.

Lemma gen_fold_prefix l : forall p, exists k, (k <= length l)%nat /\
  let p' := foldl (gen_step lim) p l in
  p' = mkProgress (fitting p ++ take k l) (paused p ++ drop k l)
         (batch_used p + Z.of_nat k) (token_used p + Z.of_nat k) (gen_admitted p + Z.of_nat k) /\
  ((k < length l)%nat -> has_room p' = false).
Proof using.
  induction l as [|x l IH]; intros p; cbn [foldl].
  { exists 0%nat. split; [done|]. split; [|cbn; lia]. destruct p; cbn. rewrite !app_nil_r. f_equal; lia. }
  destruct (has_room p) eqn:Hr.
  - replace (gen_step lim p x)
      with (mkProgress (fitting p ++ [x]) (paused p) (batch_used p + 1) (token_used p + 1) (gen_admitted p + 1))
      by (unfold gen_step; fold (has_room p); by rewrite Hr).
    destruct (IH (mkProgress (fitting p ++ [x]) (paused p) (batch_used p + 1) (token_used p + 1) (gen_admitted p + 1)))
      as (k & Hk & Heq & Hfull).
    exists (S k). split; [cbn; lia|]. split.
    + rewrite Heq. cbn. rewrite <- app_assoc. cbn. f_equal; lia.
    + intros H. apply Hfull. cbn in H. lia.
  - exists 0%nat. split; [lia|]. change (gen_step lim p x) with (foldl (gen_step lim) p [x]).
    rewrite <- foldl_app. cbn [app]. rewrite gen_fold_full by done. split.
    + cbn. rewrite app_nil_r. f_equal; lia.
    + intros _. exact Hr.
Qed.

(** What the context loop adds. *)
Lemma ctx_fold_spec stalled l : forall p, exists fs ps,
  let p' := foldl (ctx_step get lim stalled) p l in
  fitting p' = fitting p ++ fs /\ paused p' = paused p ++ ps /\ gen_admitted p' = gen_admitted p /\
  (stalled = true -> fs = []) /\ (forall x, x ∈ ps -> x ∈ l) /\
  (forall x, x ∈ fs -> x ∈ l /\ (r_done (get x) = 0 -> l_watermark lim <= l_free lim)).
Proof using.
  induction l as [|x l IH]; intros p; cbn [foldl].
  { exists [], []. cbn. rewrite !app_nil_r. split_and!; try done; by intros ? ?%not_elem_of_nil. }
  assert (exists fs ps,
    let p' := foldl (ctx_step get lim stalled) (pause p x) l in
    fitting p' = fitting p ++ fs /\ paused p' = paused p ++ ps /\ gen_admitted p' = gen_admitted p /\
    (stalled = true -> fs = []) /\ (forall y, y ∈ ps -> y ∈ x :: l) /\
    (forall y, y ∈ fs -> y ∈ x :: l /\ (r_done (get y) = 0 -> l_watermark lim <= l_free lim))) as Hpause.
  { destruct (IH (pause p x)) as (fs & ps & H1 & H2 & H3 & H4 & H5 & H6). exists fs, (x :: ps).
    cbn zeta. split_and!; [done| |done|done| |].
    - rewrite H2. cbn. by rewrite <- app_assoc.
    - intros y [->|Hy]%elem_of_cons; [left|right; by apply H5].
    - intros y Hy. destruct (H6 y Hy). split; [by right|done]. }
  destruct stalled; [exact Hpause|].
  destruct ((r_done (get x) =? 0) && (l_free lim <? l_watermark lim)) eqn:Hw.
  { replace (ctx_step get lim false p x) with (pause p x) by (unfold ctx_step; by rewrite Hw). exact Hpause. }
  destruct ((batch_used p <? l_batch lim) && (sat_add (token_used p) (owed (get x)) <=? l_tokens lim)) eqn:Hf.
  2: { replace (ctx_step get lim false p x) with (pause p x) by (unfold ctx_step; by rewrite Hw, Hf). exact Hpause. }
  clear Hpause.
  replace (ctx_step get lim false p x)
    with (mkProgress (fitting p ++ [x]) (paused p) (batch_used p + 1) (token_used p + owed (get x)) (gen_admitted p))
    by (unfold ctx_step; by rewrite Hw, Hf).
  destruct (IH (mkProgress (fitting p ++ [x]) (paused p) (batch_used p + 1) (token_used p + owed (get x)) (gen_admitted p)))
    as (fs & ps & H1 & H2 & H3 & H4 & H5 & H6).
  exists (x :: fs), ps. cbn zeta. split_and!; [|done|done|done| |].
  - rewrite H1. cbn. by rewrite <- app_assoc.
  - intros y Hy. right. by apply H5.
  - intros y [->|Hy]%elem_of_cons.
    + split; [left|]. intros Hd. rewrite Hd in Hw. cbn in Hw. apply Z.ltb_ge in Hw. done.
    + destruct (H6 y Hy). split; [by right|done].
Qed.
End loop_facts.

(** The loops do not look at the candidates except through [get]. *)
Section relabel.
Context {A B : Type} (get : B -> Row) (f : A -> B) (lim : Limits).

Definition map_progress (p : Progress (A := A)) : Progress (A := B) :=
  mkProgress (map f (fitting p)) (map f (paused p)) (batch_used p) (token_used p) (gen_admitted p).

Lemma gen_step_map p x : map_progress (gen_step lim p x) = gen_step lim (map_progress p) (f x).
Proof. unfold gen_step, map_progress. cbn. destruct (_ && _); cbn; by rewrite map_app. Qed.

Lemma ctx_step_map st p x :
  map_progress (ctx_step (fun a => get (f a)) lim st p x) = ctx_step get lim st (map_progress p) (f x).
Proof.
  unfold ctx_step, pause, map_progress. cbn. destruct st; cbn; [by rewrite map_app|].
  destruct (_ && _); cbn; [by rewrite map_app|]. destruct (_ && _); cbn; by rewrite map_app.
Qed.

Lemma fold_map_progress (g : Progress (A := A) -> A -> Progress (A := A))
    (h : Progress (A := B) -> B -> Progress (A := B)) (l : list A) p :
  (forall p x, map_progress (g p x) = h (map_progress p) (f x)) ->
  map_progress (foldl g p l) = foldl h (map_progress p) (map f l).
Proof. intros H. revert p. induction l as [|x l IH]; intros p; cbn; [done|]. by rewrite IH, H. Qed.

Lemma run_loops_map gen ctx :
  map_progress (run_loops (fun a => get (f a)) lim gen ctx) = run_loops get lim (map f gen) (map f ctx).
Proof.
  assert (foldl (gen_step lim) progress_new (map f gen) = map_progress (foldl (gen_step lim) progress_new gen)) as Hg.
  { symmetry. apply (fold_map_progress (gen_step lim) (gen_step lim)). intros; apply gen_step_map. }
  unfold run_loops. cbv zeta. rewrite Hg.
  assert (bool_decide (paused (map_progress (foldl (gen_step lim) progress_new gen)) <> []) =
          bool_decide (paused (foldl (gen_step lim) progress_new gen) <> [])) as ->.
  { apply bool_decide_ext. unfold map_progress. cbn [paused]. by destruct (paused _). }
  apply fold_map_progress. intros; apply ctx_step_map.
Qed.
End relabel.

(** ** Orders *)

#[export] Instance by_arrival_total : TotalCmp by_arrival_then_id.
Proof. apply cmp_then_total; apply cmp_on_total. Qed.

#[export] Instance generation_order_total o now b : TotalCmp (generation_order o now b).
Proof. destruct o; [apply by_arrival_total|apply cmp_then_total; apply cmp_on_total]. Qed.

Lemma order_separates o now b x y : generation_order o now b x y = Eq -> r_id x = r_id y.
Proof.
  assert (forall (c : Row -> Row -> comparison), cmp_then c (cmp_on r_id) x y = Eq -> r_id x = r_id y) as H.
  { intros c. unfold cmp_then, then_cmp, cmp_on. destruct (c x y); try done. apply Z.compare_eq. }
  destruct o; apply H.
Qed.

(** A comparator on rows, used on indices. *)
Lemma index_order_total inp (c : Row -> Row -> comparison) :
  TotalCmp c -> TotalCmp (fun a b => c (row inp a) (row inp b)).
Proof.
  intros H. split.
  - intros x y. apply (cmp_opp c).
  - intros x y z. apply (cmp_le_trans c).
Qed.

Lemma filter_split (P : nat -> bool) (l : list nat) :
  filter (fun i => P i = false) l ++ filter (fun i => P i = true) l ≡ₚ l.
Proof.
  induction l as [|x l IH]; [done|]. rewrite !filter_cons. destruct (P x) eqn:E.
  - rewrite decide_False, decide_True by congruence. by rewrite <- Permutation_middle, IH.
  - rewrite decide_True, decide_False by congruence. cbn. by rewrite IH.
Qed.

Definition sane (inp : DecideInput) : Prop :=
  0 <= max_num_tokens inp < u64_max /\ 0 <= max_batch_size inp /\ 0 <= generation_cap inp.

Definition sorted_generation (inp : DecideInput) : list nat :=
  sort_by (fun a b => generation_order (decode_order inp) (now_ms inp) (itl_budget_ms inp)
                        (row inp a) (row inp b)) (generation_candidates inp).
Definition sorted_context (inp : DecideInput) : list nat :=
  sort_by (fun a b => by_arrival_then_id (row inp a) (row inp b)) (context_candidates inp).

Lemma sorted_generation_phase inp : Forall (fun i => r_context (row inp i) = false) (sorted_generation inp).
Proof.
  apply Forall_forall. intros i Hi. unfold sorted_generation in Hi. rewrite elem_of_sort_by in Hi.
  by apply list_elem_of_filter in Hi as [Hi _].
Qed.

Lemma sorted_context_phase inp : Forall (fun i => r_context (row inp i) = true) (sorted_context inp).
Proof.
  apply Forall_forall. intros i Hi. unfold sorted_context in Hi. rewrite elem_of_sort_by in Hi.
  by apply list_elem_of_filter in Hi as [Hi _].
Qed.

Lemma decide_loops inp :
  decide_indices inp = (fitting (run_loops (row inp) (limits_of inp) (sorted_generation inp) (sorted_context inp)),
                        paused (run_loops (row inp) (limits_of inp) (sorted_generation inp) (sorted_context inp))).
Proof. done. Qed.

(** ** Theorems *)

(** C22. A decision is a partition within budget: every request not already in
    flight is in exactly one of the two lists, no other index is; at most
    [max_batch_size] requests run, at most [generation_cap] of them generating;
    and their charges, one token per generating request and the outstanding
    prompt of each context request, fit [max_num_tokens]. *)
Theorem decide_partitions inp :
  sane inp ->
  let '(fit, psd) := decide_indices inp in
  fit ++ psd ≡ₚ candidates inp /\ NoDup (fit ++ psd) /\
  Z.of_nat (length fit) <= max_batch_size inp /\
  gen_count (row inp) fit <= generation_cap inp /\
  total_charge (row inp) fit <= max_num_tokens inp.
Proof.
  intros (Ht & Hb & Hc). rewrite decide_loops.
  assert (0 <= l_tokens (limits_of inp) < u64_max /\ 0 <= l_batch (limits_of inp) /\ 0 <= l_cap (limits_of inp)) as Hlim by done.
  unfold run_loops. cbv zeta.
  pose proof (gen_fold_inv (row inp) (limits_of inp) Hlim (sorted_generation inp) [] progress_new
    (progress_new_inv _ _ Hlim) (sorted_generation_phase inp)) as Hg. cbn [app] in Hg.
  set (p := foldl (gen_step (limits_of inp)) progress_new (sorted_generation inp)) in *.
  pose proof (ctx_fold_inv (row inp) (limits_of inp) Hlim (bool_decide (paused p <> [])) (sorted_context inp) _ _
    Hg (sorted_context_phase inp)) as [H1 H2 H3 H4].
  assert (sorted_generation inp ++ sorted_context inp ≡ₚ candidates inp) as Hall.
  { unfold sorted_generation, sorted_context. rewrite !sort_by_perm.
    apply (filter_split (fun i => r_context (row inp i))). }
  rewrite Hall in H1. split; [done|]. split.
  { rewrite H1. apply NoDup_filter, NoDup_seq. }
  cbn [limits_of l_batch l_cap l_tokens] in *. lia.
Qed.

(** C23. Who stalls is decided by the order and by nothing else: no running
    request is paused while one that ranks after it runs (under the default
    order, one that could better afford the stall); a running request is paused
    only when the cap, the batch or the token budget is used up; and a step that
    stalls a running request starts no prompt.  A prompt not yet begun runs only
    above the memory watermark. *)
Theorem stall_rule inp :
  let '(fit, psd) := decide_indices inp in
  (forall i j, i ∈ fit -> j ∈ psd -> r_context (row inp i) = false -> r_context (row inp j) = false ->
     generation_order (decode_order inp) (now_ms inp) (itl_budget_ms inp) (row inp i) (row inp j) <> Gt) /\
  (forall j, j ∈ psd -> r_context (row inp j) = false ->
     Forall (fun i => r_context (row inp i) = false) fit /\
     (generation_cap inp <= Z.of_nat (length fit) \/ max_batch_size inp <= Z.of_nat (length fit) \/
      max_num_tokens inp < sat_add (Z.of_nat (length fit)) 1)) /\
  (forall i, i ∈ fit -> r_context (row inp i) = true -> r_done (row inp i) = 0 ->
     kv_watermark_blocks inp <= kv_free_blocks inp).
Proof.
  rewrite decide_loops. unfold run_loops. cbv zeta.
  destruct (gen_fold_prefix (limits_of inp) (sorted_generation inp) progress_new) as (k & Hk & Heq & Hfull).
  rewrite Heq in *. cbn [progress_new fitting paused batch_used token_used gen_admitted app] in *.
  set (G := sorted_generation inp) in *.
  set (p := mkProgress (take k G) (drop k G) (0 + Z.of_nat k) (0 + Z.of_nat k) (0 + Z.of_nat k)) in *.
  destruct (ctx_fold_spec (row inp) (limits_of inp) (bool_decide (drop k G <> [])) (sorted_context inp) p)
    as (fs & ps & -> & -> & _ & Hst & Hps & Hfs).
  cbn [p fitting paused].
  pose proof (sorted_context_phase inp) as Hctx. pose proof (sorted_generation_phase inp) as Hgen.
  rewrite Forall_forall in Hctx, Hgen. fold G in Hgen.
  assert (forall i, i ∈ fs -> r_context (row inp i) = true) as Hfc by (intros i Hi; apply Hctx, Hfs, Hi).
  assert (forall i, i ∈ ps -> r_context (row inp i) = true) as Hpc by (intros i Hi; apply Hctx, Hps, Hi).
  split; [|split].
  - intros i j Hi Hj Ci Cj. apply elem_of_app in Hi as [Hi|Hi]; [|by rewrite Hfc in Ci].
    apply elem_of_app in Hj as [Hj|Hj]; [|by rewrite Hpc in Cj].
    apply list_elem_of_lookup in Hi as [a Ha], Hj as [b Hb].
    apply lookup_take_Some in Ha as [Ha Hak]. rewrite lookup_drop in Hb.
    pose proof (index_order_total inp _ (generation_order_total (decode_order inp) (now_ms inp) (itl_budget_ms inp))) as Htot.
    apply (@sorted_by_lookup _ _ Htot G a (k + b) i j); [apply (@sort_by_sorted _ _ Htot)|done|done|lia].
  - intros j Hj Cj. apply elem_of_app in Hj as [Hj|Hj]; [|by rewrite Hpc in Cj].
    assert (drop k G <> []) as Hne by (intros E; rewrite E in Hj; by apply not_elem_of_nil in Hj).
    rewrite (Hst (bool_decide_true _ Hne)), app_nil_r.
    assert (k < length G)%nat as Hlt.
    { destruct (decide (k < length G)%nat); [done|]. exfalso. apply Hne. apply drop_ge. lia. }
    split.
    + apply Forall_forall. intros i Hi. apply Hgen. eapply elem_of_submseteq; [exact Hi|apply submseteq_take].
    + rewrite length_take, Nat.min_l by lia. specialize (Hfull Hlt). unfold has_room in Hfull.
      cbn [gen_admitted batch_used token_used limits_of l_cap l_batch l_tokens] in Hfull.
      rewrite !andb_false_iff, Z.leb_gt, !Z.ltb_ge in Hfull. rewrite ?Z.add_0_l in Hfull. tauto.
  - intros i Hi Ci Hd. apply elem_of_app in Hi as [Hi|Hi].
    + exfalso. rewrite Hgen in Ci; [done|]. eapply elem_of_submseteq; [exact Hi|apply submseteq_take].
    + by apply (Hfs i Hi).
Qed.

(** The rows of an input. *)
Definition rows (inp : DecideInput) : list Row := map (row inp) (seq 0 (length (ids inp))).

(** The candidates' rows are the rows not in flight. *)
Lemma candidate_rows inp :
  map (row inp) (candidates inp) = filter (fun r => ~ r_id r ∈ inflight inp) (rows inp).
Proof.
  unfold candidates, rows. induction (seq 0 (length (ids inp))) as [|i l IH]; [done|].
  rewrite filter_cons. cbn [map]. rewrite filter_cons.
  change (r_id (row inp i)) with (nth i (ids inp) 0). destruct (decide _); cbn [map]; by rewrite IH.
Qed.

Lemma phase_rows inp b :
  map (row inp) (filter (fun i => r_context (row inp i) = b) (candidates inp)) =
  filter (fun r => r_context r = b) (map (row inp) (candidates inp)).
Proof.
  induction (candidates inp) as [|i l IH]; [done|].
  rewrite filter_cons. cbn [map]. rewrite filter_cons. destruct (decide _); cbn [map]; by rewrite IH.
Qed.

(** The decision, in terms of rows. *)
Lemma decide_rows inp :
  let c := filter (fun r => ~ r_id r ∈ inflight inp) (rows inp) in
  let p := run_loops (fun r => r) (limits_of inp)
    (sort_by (generation_order (decode_order inp) (now_ms inp) (itl_budget_ms inp)) (filter (fun r => r_context r = false) c))
    (sort_by by_arrival_then_id (filter (fun r => r_context r = true) c)) in
  map (row inp) (decide_indices inp).1 = fitting p /\ map (row inp) (decide_indices inp).2 = paused p.
Proof.
  rewrite decide_loops. cbn [fst snd]. cbv zeta.
  pose proof (run_loops_map (fun r => r) (row inp) (limits_of inp) (sorted_generation inp) (sorted_context inp)) as H.
  unfold sorted_generation, sorted_context in H.
  rewrite !sort_by_map in H. unfold generation_candidates, context_candidates in H.
  rewrite !phase_rows, candidate_rows in H. rewrite <- H. done.
Qed.

(** C38. The decision does not depend on how the arrays are listed. Take two
    inputs that hold the same requests (row for row: id, phase, token counts and
    a bit-identical arrival time) in any order, with distinct ids, the same
    limits (batch, tokens, cap, free blocks, watermark), the same decode order,
    the same clock reading, the same interval budget and the same set of ids in
    flight. Then both answers name the same requests in the same order. The clock
    reading and the arrival times are the caller's: ranks that take them from
    clocks of their own need not agree. *)
Theorem ranks_agree inp inp' :
  NoDup (ids inp) -> rows inp ≡ₚ rows inp' ->
  limits_of inp = limits_of inp' -> decode_order inp = decode_order inp' -> now_ms inp = now_ms inp' ->
  itl_budget_ms inp = itl_budget_ms inp' -> (forall x, x ∈ inflight inp <-> x ∈ inflight inp') ->
  map (row inp) (decide_indices inp).1 = map (row inp') (decide_indices inp').1 /\
  map (row inp) (decide_indices inp).2 = map (row inp') (decide_indices inp').2.
Proof.
  intros Hnd Hp Hl Ho Hn Hb Hin.
  destruct (decide_rows inp) as [-> ->]. destruct (decide_rows inp') as [-> ->].
  rewrite <- Hl, <- Ho, <- Hn, <- Hb.
  assert (filter (fun r => ~ r_id r ∈ inflight inp') (rows inp') = filter (fun r => ~ r_id r ∈ inflight inp) (rows inp')) as ->.
  { apply list_filter_iff. intros r. by rewrite Hin. }
  assert (forall x y, x ∈ rows inp -> y ∈ rows inp -> r_id x = r_id y -> x = y) as Hinj.
  { intros x y Hx Hy He. apply list_elem_of_fmap in Hx as (i & -> & Hi), Hy as (j & -> & Hj).
    apply elem_of_seq in Hi, Hj. f_equal. cbn [r_id row] in He.
    apply (NoDup_nth (ids inp) 0); [by apply NoDup_ListNoDup|lia|lia|done]. }
  assert (forall c b, TotalCmp c -> (forall x y, c x y = Eq -> r_id x = r_id y) ->
    sort_by c (filter (fun r => r_context r = b) (filter (fun r => ~ r_id r ∈ inflight inp) (rows inp))) =
    sort_by c (filter (fun r => r_context r = b) (filter (fun r => ~ r_id r ∈ inflight inp) (rows inp')))) as Hs.
  { intros c b Hc Hsep. apply (sort_by_order_independent c); [|by rewrite Hp].
    intros x y Hx Hy He. apply list_elem_of_filter in Hx as [_ Hx], Hy as [_ Hy].
    apply list_elem_of_filter in Hx as [_ Hx], Hy as [_ Hy]. apply Hinj; auto. }
  rewrite (Hs _ false (generation_order_total _ _ _)) by (intros x y; apply order_separates).
  rewrite (Hs _ true by_arrival_total) by (intros x y; apply (order_separates Arrival f0 f0)).
  done.
Qed.

(** ** Ranks with clocks of their own *)

(** Two requests of which the cap lets one go on, at a rank whose clock says
    [now]. *)
Definition clock_sample (now : f64) : DecideInput :=
  mkInput [10; 12] [false; false] [100; 100] [100; 100] [of_Z 0; of_Z 0] [] 8 4096 [190; 150] [200; 200]
    now (of_Z 20) Slack 50 10 1.

(** The same clock reading is needed: with everything else equal, arrival times
    included, readings two milliseconds apart let different requests go on. One
    reads a budget not quite spent, where the request with more tokens to go is
    the tighter; the other a budget just overspent, where it is the looser. *)
Theorem clocks_split_ranks :
  rows (clock_sample (of_Z 3979)) = rows (clock_sample (of_Z 3981)) /\
  decide_indices (clock_sample (of_Z 3979)) = ([1%nat], [0%nat]) /\
  decide_indices (clock_sample (of_Z 3981)) = ([0%nat], [1%nat]).
Proof. split_and!; [done|by vm_compute..]. Qed.

(** ** The ledger *)

Lemma present_fold ps now : forall l id,
  foldl (fun (l : gmap Z LedgerEntry) id => <[id := mkEntry now 0]> l) l ps !! id =
  if decide (id ∈ ps) then Some (mkEntry now 0) else l !! id.
Proof.
  induction ps as [|p ps IH]; intros l id; cbn [foldl].
  { destruct (decide _) as [H|]; [by apply not_elem_of_nil in H|done]. }
  rewrite IH. destruct (decide (id ∈ ps)) as [Hin|Hn].
  - by rewrite decide_True by (by right).
  - destruct (decide (id = p)) as [->|Hne].
    + by rewrite lookup_insert_eq, decide_True by left.
    + rewrite lookup_insert_ne by done. rewrite decide_False; [done|]. intros [?|?]%elem_of_cons; done.
Qed.

Lemma update_ledger_lookup l ps now id :
  update_ledger l ps now !! id =
  if decide (id ∈ ps) then Some (mkEntry now 0)
  else e ← l !! id; if steps_absent e + 1 <=? LEDGER_FORGET_STEPS
                    then Some (mkEntry (last_seen_ms e) (steps_absent e + 1)) else None.
Proof.
  unfold update_ledger. rewrite map_lookup_imap, present_fold.
  destruct (decide (id ∈ ps)); [by cbn [mbind option_bind]; rewrite ?decide_True|].
  destruct (l !! id); done.
Qed.

(** [m] consecutive steps whose candidates do not include [id]. *)
Inductive absent_steps (id : Z) : nat -> gmap Z LedgerEntry -> gmap Z LedgerEntry -> Prop :=
  | absent_0 l : absent_steps id 0 l l
  | absent_S m l l' ps now : absent_steps id m l l' -> id ∉ ps ->
      absent_steps id (S m) l (update_ledger l' ps now).

(** The ledger remembers an absent request for exactly
    [LEDGER_FORGET_STEPS] steps: after a step that offered it and [m] that did
    not, its entry holds the time it was last seen and the count [m], until the
    count passes the limit, when it is forgotten; so a step of absences is never
    attributed to a request that was offered. *)
Theorem ledger_remembers l ps now id m l' :
  id ∈ ps -> absent_steps id m (update_ledger l ps now) l' ->
  l' !! id = if Z.of_nat m <=? LEDGER_FORGET_STEPS then Some (mkEntry now (Z.of_nat m)) else None.
Proof.
  intros Hin H. remember (update_ledger l ps now) as l0 eqn:El.
  induction H as [l0|m l0 l' ps' now' Hab IH Hnin].
  - by rewrite El, update_ledger_lookup, decide_True.
  - rewrite update_ledger_lookup, decide_False, (IH El) by done.
    destruct (Z.leb_spec (Z.of_nat m) LEDGER_FORGET_STEPS); cbn [mbind option_bind steps_absent last_seen_ms].
    + rewrite Nat2Z.inj_succ. by replace (Z.succ (Z.of_nat m)) with (Z.of_nat m + 1) by lia.
    + destruct (Z.leb_spec (Z.of_nat (S m)) LEDGER_FORGET_STEPS); [lia|done].
Qed.

(** A call with arrays of different lengths is rejected and changes nothing;
    any other call succeeds, answers with the decision over the scheduler's
    limits and its controller's cap, counts every answered request once and
    leaves the controller alone. *)
Theorem decide_call_total s idl ic pl cd tg mn ar inf kv now :
  match decide_call s idl ic pl cd tg mn ar inf kv now with
  | Err name => ~ (length ic = length idl /\ length pl = length idl /\ length cd = length idl /\
                   length tg = length idl /\ length mn = length idl /\ length ar = length idl)
  | Ok (s', (fit, psd)) =>
      length ic = length idl /\ length pl = length idl /\ length cd = length idl /\
      length tg = length idl /\ length mn = length idl /\ length ar = length idl /\
      rs_controller s' = rs_controller s /\ last_kv_free_blocks s' = kv /\ last_now_ms s' = now /\
      admitted_total s' + paused_total s' =
        admitted_total s + paused_total s + Z.of_nat (length fit + length psd) /\
      (forall id, id ∈ idl -> ledger s' !! id = Some (mkEntry now 0))
  end.
Proof.
  unfold decide_call, validate_lengths. set (lens := [_; _; _; _; _; _]).
  destruct (list_find (fun nl => nl.2 <> length idl) lens) as [[i [name k]]|] eqn:E; cbn [result_bind].
  - apply list_find_Some in E as (Hl & Hne & _). cbn in Hne. intros (E1 & E2 & E3 & E4 & E5 & E6).
    apply list_elem_of_lookup_2 in Hl. unfold lens in Hl.
    repeat (apply elem_of_cons in Hl as [Hl|Hl]; [injection Hl as -> ->; congruence|]).
    by apply not_elem_of_nil in Hl.
  - apply list_find_None in E. unfold lens in E.
    repeat match goal with H : Forall _ (_ :: _) |- _ => apply Forall_cons in H as [? H] end. cbn [snd] in *.
    destruct (decide_indices _) as [fit psd]. cbn.
    split_and!; try done; try (by apply dec_stable); [lia|].
    intros id Hid. by rewrite update_ledger_lookup, decide_True.
Qed.

(** ** One step *)

(** Three generating requests and a prompt, with room for two of them. *)
Definition step_sample : DecideInput :=
  mkInput [10; 11; 12; 13] [false; false; false; true] [100; 100; 100; 64] [100; 100; 100; 0]
    [of_Z 0; of_Z 5; of_Z 0; of_Z 9] [] 8 4096 [190; 5; 150; 0] [200; 200; 200; 200]
    (of_Z 2900) (of_Z 20) Slack 50 10 2.

(** The same requests, listed in another order. *)
Definition step_sample' : DecideInput :=
  mkInput [13; 12; 11; 10] [true; false; false; false] [64; 100; 100; 100] [0; 100; 100; 100]
    [of_Z 9; of_Z 0; of_Z 5; of_Z 0] [] 8 4096 [0; 150; 5; 190] [200; 200; 200; 200]
    (of_Z 2900) (of_Z 20) Slack 50 10 2.

Lemma decide_partitions_witness :
  sane step_sample /\ decide_indices step_sample = ([1%nat; 2%nat], [0%nat; 3%nat]) /\
  [1%nat; 2%nat] ++ [0%nat; 3%nat] ≡ₚ candidates step_sample.
Proof.
  assert (sane step_sample) as H by (unfold sane, u64_max; cbn; lia).
  split; [exact H|]. pose proof (decide_partitions step_sample H) as P.
  assert (decide_indices step_sample = ([1%nat; 2%nat], [0%nat; 3%nat])) as E by by vm_compute.
  rewrite E in P. split; [exact E|exact (proj1 P)].
Defined.

(** The request that stalls is the one with 190 of 200 tokens at 15 ms. *)
Lemma stall_rule_witness :
  decide_indices step_sample = ([1%nat; 2%nat], [0%nat; 3%nat]) /\
  generation_order Slack (of_Z 2900) (of_Z 20) (row step_sample 2) (row step_sample 0) <> Gt.
Proof.
  pose proof (stall_rule step_sample) as P.
  assert (decide_indices step_sample = ([1%nat; 2%nat], [0%nat; 3%nat])) as E by by vm_compute.
  rewrite E in P. split; [exact E|]. destruct P as [P _].
  apply P; [right; by left|by left|done|done].
Defined.

Lemma ranks_agree_witness :
  map (row step_sample) (decide_indices step_sample).1 =
  map (row step_sample') (decide_indices step_sample').1.
Proof.
  apply (ranks_agree step_sample step_sample'); try done.
  - by apply (bool_decide_unpack _); vm_compute.
  - change (rows step_sample') with (rev (rows step_sample)). apply Permutation_rev.
Defined.

Lemma ledger_remembers_witness :
  let l := update_ledger (update_ledger (update_ledger ∅ [5] (of_Z 10)) [6] (of_Z 20)) [] (of_Z 30) in
  l !! 5 = Some (mkEntry (of_Z 10) 2).
Proof.
  apply (ledger_remembers ∅ [5] (of_Z 10) 5 2).
  - by left.
  - apply (absent_S 5 1); [apply (absent_S 5 0); [apply absent_0|]|]; by apply (bool_decide_unpack _); vm_compute.
Defined.

Lemma decide_call_total_witness :
  match decide_call (rust_new 8 4096 (of_Z 20) 1000 None) [1; 2] [false; true] [9; 9] [9; 0] [1; 0] [5; 5]
          [f0] [] 500 (of_Z 10) with Err name => name = "arrival_ms"%string | Ok _ => False end /\
  match decide_call (rust_new 8 4096 (of_Z 20) 1000 None) [1; 2] [false; true] [9; 9] [9; 0] [1; 0] [5; 5]
          [f0; f0] [] 500 (of_Z 10) with Err _ => False | Ok (s', _) => ledger s' !! 1 = Some (mkEntry (of_Z 10) 0) end.
Proof.
  split; [by vm_compute|].
  pose proof (decide_call_total (rust_new 8 4096 (of_Z 20) 1000 None) [1; 2] [false; true] [9; 9] [9; 0] [1; 0] [5; 5]
          [f0; f0] [] 500 (of_Z 10)) as H.
  destruct (decide_call _ _ _ _ _ _ _ _ _ _ _) as [[s' [fit psd]]|name].
  - destruct H as (_ & _ & _ & _ & _ & _ & _ & _ & _ & _ & Hl). apply Hl. by left.
  - by apply H.
Defined.
End Capacity.
