(* ===== verification/Wire.v ===== *)
(** * Streaming from a worker ([crates/wire/src/transport.rs], [telemetry.rs])

    The framing of server-sent events, the decoding of their payloads and the
    life cycle of a request stream.  The HTTP client, the transport and the JSON
    parser are parameters. *)

From Stdlib Require Import ZArith Lia Ascii String.
From stdpp Require Import base option list numbers strings.
From S2P Require Import Prelude F64 Core.

Module Stream.
Local Open Scope Z_scope.

(** Text is a list of bytes. *)
Definition CR : Z := 13.
Definition LF : Z := 10.
Definition COLON : Z := 58.
Definition SPACE : Z := 32.

(** ** Framing *)

Definition line_ending_len (buffer : list Z) (at_ : nat) : option nat :=
  match buffer !! at_ with
  | Some b =>
      if decide (b = CR) then if decide (buffer !! S at_ = Some LF) then Some 2%nat else Some 1%nat
      else if decide (b = LF) then Some 1%nat else None
  | None => None
  end.

Definition frame_end_at (buffer : list Z) (start : nat) : option (nat * nat) :=
  first_len ← line_ending_len buffer start;
  second_len ← line_ending_len buffer (start + first_len);
  Some (start, first_len + second_len)%nat.

Fixpoint first_some {A} (l : list (option A)) : option A :=
  match l with
  | [] => None
  | Some x :: _ => Some x
  | None :: l' => first_some l'
  end.

Definition sse_frame_end (buffer : list Z) : option (nat * nat) :=
  first_some (map (frame_end_at buffer) (seq 0 (length buffer))).

(** ** Parsing a frame *)

(** Well-formed UTF-8, as [std::str::from_utf8] accepts it. *)
Definition cont (b : Z) : bool := (128 <=? b) && (b <=? 191).

Fixpoint utf8_valid (fuel : nat) (l : list Z) : bool :=
  match l, fuel with
  | [], _ => true
  | _ :: _, O => false
  | b :: l1, S fuel' =>
      if (0 <=? b) && (b <=? 127) then utf8_valid fuel' l1
      else if (194 <=? b) && (b <=? 223) then
        match l1 with c1 :: l2 => cont c1 && utf8_valid fuel' l2 | _ => false end
      else if (224 <=? b) && (b <=? 239) then
        match l1 with
        | c1 :: c2 :: l3 =>
            cont c1 && cont c2 && negb ((b =? 224) && (c1 <? 160)) && negb ((b =? 237) && (159 <? c1)) &&
            utf8_valid fuel' l3
        | _ => false
        end
      else if (240 <=? b) && (b <=? 244) then
        match l1 with
        | c1 :: c2 :: c3 :: l4 =>
            cont c1 && cont c2 && cont c3 && negb ((b =? 240) && (c1 <? 144)) &&
            negb ((b =? 244) && (143 <? c1)) && utf8_valid fuel' l4
        | _ => false
        end
      else false
  end.

(** [str::split] on either line-ending character. *)
Fixpoint split_lines (l : list Z) : list (list Z) :=
  match l with
  | [] => [[]]
  | b :: l' =>
      let rest := split_lines l' in
      if (b =? CR) || (b =? LF) then [] :: rest
      else match rest with h :: t => (b :: h) :: t | [] => [[b]] end
  end.

(** [split_once(':').unwrap_or((line, ""))] *)
Fixpoint split_once (l : list Z) : list Z * list Z :=
  match l with
  | [] => ([], [])
  | b :: l' => if b =? COLON then ([], l') else let '(f, v) := split_once l' in (b :: f, v)
  end.

Definition strip_space (v : list Z) : list Z :=
  match v with b :: v' => if b =? SPACE then v' else v | [] => [] end.

Record SseEvent := mkEvent { ev_event : option (list Z); ev_data : list Z }.

Definition EVENT : list Z := [101; 118; 101; 110; 116].
Definition DATA : list Z := [100; 97; 116; 97].

Definition parse_line (st : option (list Z) * list (list Z)) (line : list Z)
    : option (list Z) * list (list Z) :=
  match line with
  | [] => st
  | b :: _ =>
      if b =? COLON then st
      else
        let '(field, v) := split_once line in
        let value := strip_space v in
        if decide (field = EVENT) then (Some value, st.2)
        else if decide (field = DATA) then (st.1, st.2 ++ [value])
        else st
  end.

Fixpoint join_lf (l : list (list Z)) : list Z :=
  match l with
  | [] => []
  | [x] => x
  | x :: l' => x ++ LF :: join_lf l'
  end.

(** The message of a transport error is left out. *)
Inductive TransportError := Transport_error.

Definition parse_sse_frame (frame : list Z) : result TransportError (option SseEvent) :=
  if utf8_valid (length frame) frame then
    let '(event, data) := foldl parse_line (None, []) (split_lines frame) in
    Ok (match data with [] => None | _ => Some (mkEvent event (join_lf data)) end)
  else Err Transport_error.

(** ** The HTTP transport *)

(** An awaited answer: not there yet, or there. *)
Inductive Awaited (A : Type) := Pending | Ready (a : A).
Arguments Pending {A}.
Arguments Ready {A}.

(** What the body stream yields: a chunk, an error, or the end. *)
Inductive Poll := Chunk (bytes : list Z) | Broken | Ended.

Record HttpTransport := mkHttp {
  (** What the stream yields from here on, in the time a run looks at; [None]
      when no response stream is held.  After the last of it the stream is
      silent: the next wait is not answered. *)
  body : option (list Poll);
  buffered : list Z
}.

(** [next_event], in [fuel] rounds of its loop; [Pending] if it waits on a
    silent stream. *)
Fixpoint next_event (fuel : nat) (t : HttpTransport)
    : option (HttpTransport * Awaited (result TransportError (option SseEvent))) :=
  match fuel with
  | O => None
  | S fuel' =>
      match sse_frame_end (buffered t) with
      | Some (frame_end, delimiter_len) =>
          let frame := take frame_end (buffered t) in
          let t' := mkHttp (body t) (drop delimiter_len (drop frame_end (buffered t))) in
          match parse_sse_frame frame with
          | Err e => Some (t', Ready (Err e))
          | Ok (Some ev) => Some (t', Ready (Ok (Some ev)))
          | Ok None => next_event fuel' t'
          end
      | None =>
          match body t with
          | None => Some (t, Ready (Err Transport_error))
          | Some [] => Some (t, Pending)
          | Some (Chunk bs :: ps) => next_event fuel' (mkHttp (Some ps) (buffered t ++ bs))
          | Some (Broken :: ps) => Some (mkHttp (Some ps) (buffered t), Ready (Err Transport_error))
          | Some (Ended :: _) =>
              let t' := mkHttp None (buffered t) in
              match buffered t with
              | [] => Some (t', Ready (Ok None))
              | _ => Some (t', Ready (Err Transport_error))
              end
          end
      end
  end.

Definition http_cancel (t : HttpTransport) : HttpTransport * result TransportError unit :=
  (mkHttp None [], Ok tt).

(** Enough fuel: every round consumes a poll or some bytes. *)
Definition poll_size (p : Poll) : nat := match p with Chunk bs => S (length bs) | _ => 1 end.
Definition transport_size (t : HttpTransport) : nat :=
  (length (buffered t) + match body t with Some ps => list_sum (map poll_size ps) | None => 0 end)%nat.

(** ** Telemetry *)

Record RequestTelemetry := mkTelemetry {
  tl_id : RequestId;
  tl_arrival_ms : f64;
  tl_prompt_len : Z;
  tl_max_tokens : Z;
  tl_first : option f64;
  tl_last : option f64;
  tl_output : Z
}.

(** The telemetry clones the request; these are the fields it reads. *)
Definition telemetry_new {J} (r : Request J) : RequestTelemetry :=
  mkTelemetry (req_id r) (req_arrival_ms r) (u32_wrap (Z.of_nat (prompt_len r))) (max_tokens (params r)) None None 0.

Definition observe_token (t : RequestTelemetry) (at_ms : f64) : RequestTelemetry :=
  mkTelemetry (tl_id t) (tl_arrival_ms t) (tl_prompt_len t) (tl_max_tokens t)
    (Some (default at_ms (tl_first t))) (Some at_ms) (u32_wrap (tl_output t + 1)).

Definition finish (t : RequestTelemetry) (at_ms : f64) : RequestOutcome :=
  mkOutcome (tl_id t) (tl_arrival_ms t) (default at_ms (tl_first t)) (default at_ms (tl_last t))
    (tl_prompt_len t) (tl_output t) (tl_max_tokens t).

(** ** Decoding a payload *)

Inductive DecodedEvent :=
  | DToken (token : Z) (text : list Z)
  | DTerminal (finish_reason : list Z).

Definition STOP : list Z := [115; 116; 111; 112].
Definition DONE : list Z := [91; 68; 79; 78; 69; 93].
Definition CANCELLED : list Z := [99; 97; 110; 99; 101; 108; 108; 101; 100].
Definition K_ERROR : list Z := [101; 114; 114; 111; 114].
Definition K_FINISH : list Z := [102; 105; 110; 105; 115; 104; 95; 114; 101; 97; 115; 111; 110].
Definition K_TOKEN : list Z := [116; 111; 107; 101; 110; 95; 105; 100].
Definition K_TEXT : list Z := [116; 101; 120; 116].

(** What the decoder uses of the JSON library. *)
Class Json (V : Type) := {
  from_str : list Z -> option V;
  get : V -> list Z -> option V;
  as_str : V -> option (list Z);
  as_u64 : V -> option Z
}.

Section decode.
Context {V : Type} `{!Json V} (trim : list Z -> list Z).

Definition ok_or {A} (o : option A) : result TransportError A :=
  match o with Some a => Ok a | None => Err Transport_error end.

Definition decode_event (e : SseEvent) : result TransportError DecodedEvent :=
  if decide (trim (ev_data e) = DONE) then Ok (DTerminal STOP)
  else
    (payload <-? ok_or (from_str (ev_data e)) ;;
     if decide (is_Some (get payload K_ERROR)) then Err Transport_error
     else
       match get payload K_FINISH ≫= as_str with
       | Some reason => Ok (DTerminal reason)
       | None =>
           (token <-? ok_or (v ← get payload K_TOKEN ≫= as_u64; if v <=? u32_max then Some v else None) ;;
            text <-? ok_or (get payload K_TEXT ≫= as_str) ;;
            Ok (DToken token text))%s
       end)%s.
End decode.

(** ** Starting a request *)

Record TransportRequest (J : Type) := mkTransportRequest {
  request_id : string;
  prompt_token_ids : list Z;
  sampling : SamplingParams J
}.
Arguments mkTransportRequest {J}.
Arguments request_id {J}.
Arguments prompt_token_ids {J}.
Arguments sampling {J}.

Definition from_request {J} (r : Request J) : TransportRequest J :=
  mkTransportRequest (display_request (req_id r)) (prompt r) (params r).

(** [trim_end_matches('/')] *)
Fixpoint trim_slashes (s : string) : string :=
  match s with
  | EmptyString => EmptyString
  | String c s' =>
      match trim_slashes s' with
      | EmptyString => if Ascii.eqb c "/"%char then EmptyString else String c EmptyString
      | s'' => String c s''
      end
  end.

Definition generate_url (base_url : string) : string := (trim_slashes base_url +:+ "/generate")%string.

(** What the HTTP client, which has no time limit, makes of a POST: nothing
    ever, no response, a response whose status is not a success, or a body to
    stream.  The polls are those of the time a run looks at: a body that never
    ends has neither [Ended] nor [Broken] among them, however many they are. *)
Inductive Posted := Silent | Unreachable | Refused (status : Z) | Streaming (polls : list Poll).

(** An opened HTTP transport: the URL it posts to, and the response. *)
Definition HttpConnection : Type := string * HttpTransport.

Definition http_open (base_url : string) : result TransportError HttpConnection :=
  Ok (generate_url base_url, mkHttp None []).

Definition http_send {J} (client : string -> TransportRequest J -> Posted) (t : HttpConnection)
    (request : TransportRequest J) : HttpConnection * Awaited (result TransportError unit) :=
  match body t.2 with
  | Some _ => (t, Ready (Err Transport_error))
  | None =>
      match client t.1 request with
      | Silent => (t, Pending)
      | Unreachable | Refused _ => (t, Ready (Err Transport_error))
      | Streaming ps => ((t.1, mkHttp (Some ps) (buffered t.2)), Ready (Ok tt))
      end
  end.

(** The factory of transports, and what the adapter calls to start one. *)
Class TransportFactory (F T J : Type) := {
  f_open : F -> result TransportError T;
  t_send : F -> T -> TransportRequest J -> T * Awaited (result TransportError unit)
}.

(** A factory of HTTP transports: a worker's base URL and the HTTP client. *)
Record HttpTransportFactory (J : Type) := mkFactory {
  base_url : string;
  client : string -> TransportRequest J -> Posted
}.
Arguments mkFactory {J}.
Arguments base_url {J}.
Arguments client {J}.

#[export] Instance http_factory {J} : TransportFactory (HttpTransportFactory J) HttpConnection J := {
  f_open f := http_open (base_url f);
  t_send f t r := http_send (client f) t r
}.

(** ** The request stream *)

Inductive StreamOutput := Token (token : Z) (text : list Z) | Terminal (finish_reason : list Z).

(** What the stream uses of a transport. *)
Class Transport (T : Type) := {
  t_next : T -> T * Awaited (result TransportError (option SseEvent));
  t_cancel : T -> T * result TransportError unit
}.

Section stream.
Context {V : Type} `{!Json V} (trim : list Z -> list Z) {T : Type} `{!Transport T}.

Record RequestStream := mkStream {
  transport : T;
  telemetry : RequestTelemetry;
  terminal : bool;
  cleaned_up : bool;
  outcome : option RequestOutcome
}.

Definition stream_start {J} (t : T) (r : Request J) : RequestStream :=
  mkStream t (telemetry_new r) false false None.

(** [DynamoAdapter::start] *)
Definition adapter_start {F J} `{!TransportFactory F T J} (f : F) (r : Request J)
    : Awaited (result TransportError RequestStream) :=
  match f_open f with
  | Err e => Ready (Err e)
  | Ok t =>
      match t_send f t (from_request r) with
      | (_, Pending) => Pending
      | (_, Ready (Err e)) => Ready (Err e)
      | (t', Ready (Ok _)) => Ready (Ok (stream_start t' r))
      end
  end.

Definition cleanup (s : RequestStream) : RequestStream * result TransportError unit :=
  if cleaned_up s then (s, Ok tt)
  else
    let '(t, r) := t_cancel (transport s) in
    (mkStream t (telemetry s) (terminal s) true (outcome s), r).

Definition fail (s : RequestStream) : RequestStream :=
  let s1 := (cleanup s).1 in
  mkStream (transport s1) (telemetry s1) true (cleaned_up s1) (outcome s1).

Definition next_at (s : RequestStream) (at_ms : f64)
    : RequestStream * Awaited (result TransportError (option StreamOutput)) :=
  if terminal s then (s, Ready (Ok None))
  else
    let '(t, r) := t_next (transport s) in
    let s := mkStream t (telemetry s) (terminal s) (cleaned_up s) (outcome s) in
    match r with
    | Pending => (s, Pending)
    | Ready (Ok None) | Ready (Err _) => (fail s, Ready (Err Transport_error))
    | Ready (Ok (Some event)) =>
        match decode_event trim event with
        | Err e => (fail s, Ready (Err e))
        | Ok (DToken token text) =>
            (mkStream (transport s) (observe_token (telemetry s) at_ms) (terminal s) (cleaned_up s) (outcome s),
             Ready (Ok (Some (Token token text))))
        | Ok (DTerminal reason) =>
            (mkStream (transport s) (telemetry s) true true (Some (finish (telemetry s) at_ms)),
             Ready (Ok (Some (Terminal reason))))
        end
    end.

Definition cancel_at (s : RequestStream) (at_ms : f64) : RequestStream * result TransportError (option StreamOutput) :=
  if terminal s then (s, Ok None)
  else
    let '(s1, r) := cleanup s in
    let s2 := mkStream (transport s1) (telemetry s1) true (cleaned_up s1)
                (Some (finish (telemetry s1) at_ms)) in
    match r with
    | Ok _ => (s2, Ok (Some (Terminal CANCELLED)))
    | Err e => (s2, Err e)
    end.

(** [Drop] *)
Definition drop_stream (s : RequestStream) : RequestStream := (cleanup s).1.

(** What a client does with a stream before dropping it. *)
Inductive Call := CallNext (at_ms : f64) | CallCancel (at_ms : f64).

Definition call (s : RequestStream) (c : Call)
    : RequestStream * Awaited (result TransportError (option StreamOutput)) :=
  match c with CallNext t => next_at s t | CallCancel t => let '(s', r) := cancel_at s t in (s', Ready r) end.

Definition answered {A} (r : Awaited A) : list A := match r with Pending => [] | Ready a => [a] end.

(** The calls one after the other, and the answers they get: a call that is
    not answered is given up, and the next one made. *)
Fixpoint calls (s : RequestStream) (cs : list Call)
    : RequestStream * list (result TransportError (option StreamOutput)) :=
  match cs with
  | [] => (s, [])
  | c :: cs' =>
      let '(s1, r) := call s c in
      let '(s2, rs) := calls s1 cs' in (s2, answered r ++ rs)
  end.
End stream.
Arguments RequestStream : clear implicits.

(** ** Facts about framing *)

Lemma first_some_spec {A} (f : nat -> option A) n : forall m,
  match first_some (map f (seq m n)) with
  | Some x => exists i, (m <= i < m + n)%nat /\ f i = Some x /\ forall j, (m <= j < i)%nat -> f j = None
  | None => forall j, (m <= j < m + n)%nat -> f j = None
  end.
Proof.
  induction n as [|n IH]; intros m; cbn [seq map first_some]; [intros j Hj; lia|].
  destruct (f m) as [x|] eqn:E.
  - exists m. split; [lia|]. split; [done|]. intros j Hj. lia.
  - specialize (IH (S m)). destruct (first_some (map f (seq (S m) n))) as [x|].
    + destruct IH as (i & Hi & Hx & Hno). exists i. split; [lia|]. split; [done|].
      intros j Hj. destruct (decide (j = m)) as [->|]; [done|]. apply Hno. lia.
    + intros j Hj. destruct (decide (j = m)) as [->|]; [done|]. apply IH. lia.
Qed.

Lemma line_ending_bounds b i n : line_ending_len b i = Some n -> (1 <= n <= 2 /\ i + n <= length b)%nat.
Proof.
  unfold line_ending_len. destruct (b !! i) as [x|] eqn:E; [|done].
  apply lookup_lt_Some in E. destruct (decide (x = CR)).
  - destruct (decide (b !! S i = Some LF)) as [H|]; intros [= <-]; [apply lookup_lt_Some in H|]; lia.
  - destruct (decide (x = LF)); [|done]. intros [= <-]. lia.
Qed.

Lemma frame_end_at_bounds b i e d :
  frame_end_at b i = Some (e, d) -> e = i /\ (2 <= d)%nat /\ (i + d <= length b)%nat.
Proof.
  unfold frame_end_at. destruct (line_ending_len b i) as [n|] eqn:E1; cbn [mbind option_bind]; [|done].
  destruct (line_ending_len b (i + n)) as [m|] eqn:E2; cbn [mbind option_bind]; [|done].
  intros [= <- <-]. apply line_ending_bounds in E1, E2. lia.
Qed.

Lemma sse_frame_end_spec b :
  match sse_frame_end b with
  | Some (e, d) => (2 <= d)%nat /\ (e + d <= length b)%nat /\ frame_end_at b e = Some (e, d) /\
                   forall j, (j < e)%nat -> frame_end_at b j = None
  | None => forall j, (j < length b)%nat -> frame_end_at b j = None
  end.
Proof.
  unfold sse_frame_end. pose proof (first_some_spec (frame_end_at b) (length b) 0) as H.
  destruct (first_some _) as [[e d]|].
  - destruct H as (i & Hi & He & Hno). destruct (frame_end_at_bounds _ _ _ _ He) as (-> & Hd & Hlen).
    split; [done|]. split; [lia|]. split; [done|]. intros j Hj. apply Hno. lia.
  - intros j Hj. apply H. lia.
Qed.

(** Streams that only use line feeds. *)
Definition no_cr (b : list Z) : Prop := ~ CR ∈ b.

Lemma line_ending_lf b i : no_cr b ->
  line_ending_len b i = if decide (b !! i = Some LF) then Some 1%nat else None.
Proof.
  intros H. unfold line_ending_len. destruct (b !! i) as [x|] eqn:E; [|by rewrite decide_False].
  rewrite decide_False.
  - destruct (decide (x = LF)) as [->|Hne]; [by rewrite decide_True|by rewrite decide_False by congruence].
  - intros ->. apply H. by eapply list_elem_of_lookup_2.
Qed.

Lemma frame_end_lf b i : no_cr b ->
  frame_end_at b i = if decide (b !! i = Some LF /\ b !! S i = Some LF) then Some (i, 2%nat) else None.
Proof.
  intros H. unfold frame_end_at. rewrite line_ending_lf by done.
  destruct (decide (b !! i = Some LF)) as [H1|H1]; cbn [mbind option_bind]; [|by rewrite decide_False by tauto].
  rewrite line_ending_lf, Nat.add_1_r by done.
  destruct (decide (b !! S i = Some LF)) as [H2|H2]; cbn [mbind option_bind];
    [by rewrite decide_True|by rewrite decide_False by tauto].
Qed.

(** More bytes do not move the end of a complete frame. *)
Lemma sse_frame_end_app a b e d :
  no_cr (a ++ b) -> sse_frame_end a = Some (e, d) -> sse_frame_end (a ++ b) = Some (e, d).
Proof.
  intros Hcr Ha. assert (no_cr a) as Hcra by (intros H; apply Hcr, elem_of_app; by left).
  pose proof (sse_frame_end_spec a) as Sa. rewrite Ha in Sa. destruct Sa as (Hd & Hlen & He & Hno).
  pose proof (sse_frame_end_spec (a ++ b)) as Sab.
  rewrite frame_end_lf in He by done.
  destruct (decide (a !! e = Some LF /\ a !! S e = Some LF)) as [[E1 E2]|]; [|done]. injection He as <-.
  assert (frame_end_at (a ++ b) e = Some (e, 2%nat)) as Hab.
  { rewrite frame_end_lf, decide_True; [done| |done]. split; by apply lookup_app_l_Some. }
  assert (forall j, (j < e)%nat -> frame_end_at (a ++ b) j = None) as Hbefore.
  { intros j Hj. specialize (Hno j Hj). rewrite frame_end_lf in Hno |- * by done.
    rewrite !lookup_app_l by lia. destruct (decide _); done. }
  destruct (sse_frame_end (a ++ b)) as [[e' d']|].
  - destruct Sab as (_ & _ & He' & Hno').
    destruct (Nat.lt_trichotomy e e') as [Hlt|[<-|Hlt]].
    + by rewrite Hno' in Hab.
    + congruence.
    + by rewrite Hbefore in He'.
  - rewrite Sab in Hab; [done|]. rewrite length_app. lia.
Qed.

(** ** The transport reads the whole stream *)

Definition total_bytes (t : HttpTransport) (cs : list (list Z)) : list Z := buffered t ++ concat cs.

(** The abstract stream: the events of a complete body. *)
Fixpoint events_of (fuel : nat) (b : list Z) : list (result TransportError (option SseEvent)) :=
  match fuel with
  | O => []
  | S fuel' =>
      match sse_frame_end b with
      | Some (e, d) =>
          match parse_sse_frame (take e b) with
          | Err x => [Err x]
          | Ok (Some ev) => Ok (Some ev) :: events_of fuel' (drop d (drop e b))
          | Ok None => events_of fuel' (drop d (drop e b))
          end
      | None => match b with [] => [Ok None] | _ => [Err Transport_error] end
      end
  end.

(** Reading events until the end of the stream or an error. *)
Fixpoint drain (fuel : nat) (t : HttpTransport) : option (list (result TransportError (option SseEvent))) :=
  match fuel with
  | O => None
  | S fuel' =>
      match next_event (S (transport_size t)) t with
      | Some (t', Ready (Ok (Some ev))) => rest ← drain fuel' t'; Some (Ok (Some ev) :: rest)
      | Some (_, Ready r) => Some [r]
      | Some (_, Pending) | None => None
      end
  end.

(** A response that delivers [cs] and then ends. *)
Definition response (cs : list (list Z)) (buf : list Z) : HttpTransport :=
  mkHttp (Some (map Chunk cs ++ [Ended])) buf.

Lemma transport_size_response cs buf :
  transport_size (response cs buf) = (length buf + list_sum (map (fun c => S (length c)) cs) + 1)%nat.
Proof.
  unfold transport_size, response; cbn [body buffered]. rewrite map_app, list_sum_app, map_map. cbn. lia.
Qed.

(** The events of a byte stream, with enough fuel. *)
Definition events (b : list Z) : list (result TransportError (option SseEvent)) := events_of (S (length b)) b.

Lemma frame_rest_length b e d : sse_frame_end b = Some (e, d) ->
  (length (drop d (drop e b)) + 2 <= length b)%nat.
Proof.
  intros H. pose proof (sse_frame_end_spec b) as S. rewrite H in S. rewrite !length_drop. lia.
Qed.

Lemma events_of_fuel n : forall m b, (length b < n)%nat -> (length b < m)%nat -> events_of n b = events_of m b.
Proof.
  induction n as [|n IH]; intros m b Hn Hm; [lia|]. destruct m as [|m]; [lia|]. cbn [events_of].
  destruct (sse_frame_end b) as [[e d]|] eqn:E; [|done].
  pose proof (frame_rest_length _ _ _ E). rewrite (IH m) by lia. done.
Qed.

Lemma events_unfold b :
  events b =
  match sse_frame_end b with
  | Some (e, d) =>
      match parse_sse_frame (take e b) with
      | Err x => [Err x]
      | Ok (Some ev) => Ok (Some ev) :: events (drop d (drop e b))
      | Ok None => events (drop d (drop e b))
      end
  | None => match b with [] => [Ok None] | _ => [Err Transport_error] end
  end.
Proof.
  unfold events at 1. cbn [events_of]. destruct (sse_frame_end b) as [[e d]|] eqn:E; [|done].
  pose proof (frame_rest_length _ _ _ E). unfold events.
  by rewrite (events_of_fuel (length b) (S (length (drop d (drop e b))))) by lia.
Qed.

Lemma no_cr_drop n b : no_cr b -> no_cr (drop n b).
Proof.
  intros H Hin. apply H. rewrite <- (take_drop n b). apply elem_of_app. by right.
Qed.

(** One call of [next_event], against the bytes of the whole stream. *)
Lemma next_event_spec fuel : forall cs buf,
  no_cr (buf ++ concat cs) -> (transport_size (response cs buf) < fuel)%nat ->
  exists t' r, next_event fuel (response cs buf) = Some (t', Ready r) /\
    match r with
    | Ok (Some ev) => exists cs' buf', t' = response cs' buf' /\ no_cr (buf' ++ concat cs') /\
        (transport_size (response cs' buf') < transport_size (response cs buf))%nat /\
        events (buf ++ concat cs) = Ok (Some ev) :: events (buf' ++ concat cs')
    | _ => events (buf ++ concat cs) = [r]
    end.
Proof.
  induction fuel as [|fuel IH]; intros cs buf Hcr Hf; [lia|]. cbn [next_event response body buffered].
  destruct (sse_frame_end buf) as [[e d]|] eqn:E.
  - pose proof (frame_rest_length _ _ _ E) as Hrest. pose proof (sse_frame_end_spec buf) as Hs.
    rewrite E in Hs. destruct Hs as (_ & Hlen & _).
    assert (sse_frame_end (buf ++ concat cs) = Some (e, d)) as E' by by apply sse_frame_end_app.
    assert (drop d (drop e (buf ++ concat cs)) = drop d (drop e buf) ++ concat cs) as Hd.
    { rewrite (drop_app_le buf) by lia. rewrite drop_app_le; [done|]. rewrite length_drop. lia. }
    assert (take e (buf ++ concat cs) = take e buf) as Ht by (apply take_app_le; lia).
    pose proof (events_unfold (buf ++ concat cs)) as Hev. rewrite E', Hd, Ht in Hev.
    assert (no_cr (drop d (drop e buf) ++ concat cs)) as Hcr' by (rewrite <- Hd; by do 2 apply no_cr_drop).
    change (mkHttp (Some (map Chunk cs ++ [Ended])) (drop d (drop e buf))) with (response cs (drop d (drop e buf))).
    destruct (parse_sse_frame (take e buf)) as [[ev|]|x].
    + eexists _, _. split; [done|]. cbv beta iota. exists cs, (drop d (drop e buf)). split; [done|]. split; [done|].
      split; [rewrite !transport_size_response; lia|done].
    + destruct (IH cs (drop d (drop e buf)) Hcr') as (t' & r & Hn & Hr).
      { rewrite transport_size_response in *. lia. }
      exists t', r. split; [done|]. rewrite Hev. destruct r as [[ev|]|x]; [|done|done].
      destruct Hr as (cs' & buf' & H1 & H2 & H3 & H4). exists cs', buf'. split_and!; try done.
      rewrite !transport_size_response in *. lia.
    + eexists _, _. split; [done|]. done.
  - destruct cs as [|c cs]; cbn [map app].
    + cbn [concat] in *. rewrite app_nil_r in *. rewrite events_unfold, E.
      destruct buf; (eexists _, _; split; [done|done]).
    + change (mkHttp (Some (map Chunk cs ++ [Ended])) (buf ++ c)) with (response cs (buf ++ c)).
      cbn [concat] in *. rewrite app_assoc in *.
      assert (transport_size (response cs (buf ++ c)) < transport_size (response (c :: cs) buf))%nat as Hlt.
      { rewrite !transport_size_response, length_app. unfold list_sum. cbn. lia. }
      destruct (IH cs (buf ++ c) Hcr ltac:(lia)) as (t' & r & Hn & Hr).
      exists t', r. split; [done|]. destruct r as [[ev|]|x]; [|done|done].
      destruct Hr as (cs' & buf' & H1 & H2 & H3 & H4). exists cs', buf'. split_and!; try done. lia.
Qed.

Lemma drain_spec fuel : forall cs buf,
  no_cr (buf ++ concat cs) -> (transport_size (response cs buf) < fuel)%nat ->
  drain fuel (response cs buf) = Some (events (buf ++ concat cs)).
Proof.
  induction fuel as [|fuel IH]; intros cs buf Hcr Hf; [lia|]. cbn [drain].
  destruct (next_event_spec (S (transport_size (response cs buf))) cs buf Hcr ltac:(lia)) as (t' & r & -> & Hr).
  destruct r as [[ev|]|x]; [|by rewrite Hr|by rewrite Hr].
  destruct Hr as (cs' & buf' & -> & Hcr' & Hlt & ->). rewrite IH by (done || lia). done.
Qed.

(** ** The life of a stream *)

(** ** When the HTTP transport answers *)

(** A response that comes to its end, or breaks. *)
Definition polls_end (ps : list Poll) : Prop := Ended ∈ ps \/ Broken ∈ ps.
Definition body_ends (t : HttpTransport) : Prop :=
  match body t with Some ps => polls_end ps | None => True end.

Lemma polls_end_chunk bs ps : polls_end (Chunk bs :: ps) -> polls_end ps.
Proof. unfold polls_end. rewrite !elem_of_cons. intros [[|]|[|]]; by auto. Qed.

Definition is_event (r : Awaited (result TransportError (option SseEvent))) : bool :=
  match r with Ready (Ok (Some _)) => true | _ => false end.
Definition is_ready {A} (r : Awaited A) : bool := match r with Ready _ => true | Pending => false end.

Lemma next_event_answers fuel : forall t, (transport_size t < fuel)%nat ->
  exists t' r, next_event fuel t = Some (t', r) /\ (transport_size t' <= transport_size t)%nat /\
    (is_event r = true -> (transport_size t' < transport_size t)%nat) /\
    (body_ends t -> is_ready r = true /\ (is_event r = true -> body_ends t')).
Proof.
  induction fuel as [|fuel IH]; intros t Hf; [lia|]. cbn [next_event].
  destruct (sse_frame_end (buffered t)) as [[e d]|] eqn:E.
  - pose proof (frame_rest_length _ _ _ E) as Hlen.
    assert (transport_size (mkHttp (body t) (drop d (drop e (buffered t)))) + 2 <= transport_size t)%nat as Hs
      by (unfold transport_size; cbn [body buffered]; lia).
    destruct (parse_sse_frame (take e (buffered t))) as [[ev|]|x].
    + eexists _, _. split; [done|]. split; [lia|]. split; [intros _; lia|done].
    + destruct (IH (mkHttp (body t) (drop d (drop e (buffered t)))) ltac:(lia)) as (t' & r & -> & H1 & H2 & H3).
      exists t', r. split; [done|]. split; [lia|]. split; [intros Hr; specialize (H2 Hr); lia|exact H3].
    + eexists _, _. split; [done|]. split; [lia|]. by split.
  - assert (forall b, (transport_size (mkHttp None b) <= transport_size (mkHttp (body t) b))%nat) as Hnone
      by (intros b; unfold transport_size; cbn; lia).
    destruct t as [[[|p ps]|] buf]; cbn [body buffered] in *.
    + eexists _, _. split; [done|]. split; [done|]. split; [done|]. intros [H|H]; by apply not_elem_of_nil in H.
    + assert (forall b, transport_size (mkHttp (Some (p :: ps)) b) = (poll_size p + transport_size (mkHttp (Some ps) b))%nat)
        as Hp.
      { intros b. unfold transport_size. cbn [body buffered map].
        change (list_sum (poll_size p :: map poll_size ps)) with (poll_size p + list_sum (map poll_size ps))%nat. lia. }
      pose proof (Hnone buf). rewrite Hp in *. destruct p as [bs| |]; cbn [poll_size] in *.
      * assert (transport_size (mkHttp (Some ps) (buf ++ bs)) = length bs + transport_size (mkHttp (Some ps) buf))%nat as Hb
          by (unfold transport_size; cbn; rewrite length_app; lia).
        destruct (IH (mkHttp (Some ps) (buf ++ bs)) ltac:(lia)) as (t' & r & -> & H1 & H2 & H3).
        exists t', r. split; [done|]. split; [lia|]. split; [intros Hr; specialize (H2 Hr); lia|].
        intros He. apply H3. exact (polls_end_chunk bs ps He).
      * eexists _, _. split; [done|]. split; [lia|]. by split.
      * destruct buf; (eexists _, _; split; [done|]; split; [lia|by split]).
    + eexists _, _. by split.
Qed.

(** [next_event] over enough fuel; the default is never used. *)
Definition http_next (t : HttpConnection) : HttpConnection * Awaited (result TransportError (option SseEvent)) :=
  let '(t', r) := default (t.2, Pending) (next_event (S (transport_size t.2)) t.2) in ((t.1, t'), r).

Lemma http_next_spec t : exists t' r, http_next t = (t', r) /\
  (is_event r = true -> (transport_size t'.2 < transport_size t.2)%nat) /\
  (body_ends t.2 -> is_ready r = true /\ (is_event r = true -> body_ends t'.2)).
Proof.
  unfold http_next. destruct (next_event_answers (S (transport_size t.2)) t.2 ltac:(lia)) as (t' & r & -> & _ & H1 & H2).
  by exists (t.1, t'), r.
Qed.

#[export] Instance http_transport : Transport HttpConnection := {
  t_next := http_next;
  t_cancel t := let '(t', r) := http_cancel t.2 in ((t.1, t'), r)
}.

(** A transport that records how often it is cancelled and polled. *)
Definition Logged (T : Type) : Type := T * nat * nat.

#[export] Instance logged_transport {T} `{!Transport T} : Transport (Logged T) := {
  t_next t := let '(u, r) := t_next t.1.1 in ((u, S t.1.2, t.2), r);
  t_cancel t := let '(u, r) := t_cancel t.1.1 in ((u, t.1.2, S t.2), r)
}.
Definition polls {T} (t : Logged T) : nat := t.1.2.
Definition cancels {T} (t : Logged T) : nat := t.2.

Section lifecycle.
Context {V : Type} `{!Json V} (trim : list Z -> list Z) {T : Type} `{!Transport T}.

Definition is_token (r : result TransportError (option StreamOutput)) : Prop :=
  exists tok text, r = Ok (Some (Token tok text)).
Definition is_final (r : result TransportError (option StreamOutput)) : Prop :=
  match r with Err _ | Ok (Some (Terminal _)) => True | _ => False end.

(** The results a client has seen: tokens, then one final result, then
    nothing. *)
Definition trace_shape (term : bool) (n : Z) (rs : list (result TransportError (option StreamOutput))) : Prop :=
  exists toks, Forall is_token toks /\ u32_wrap (Z.of_nat (length toks)) = n /\
    if term then exists f k, is_final f /\ rs = toks ++ f :: replicate k (Ok None) else rs = toks.

Record life (s : RequestStream (Logged T)) (rs : list (result TransportError (option StreamOutput))) : Prop := {
  lf_clean : cleaned_up s = terminal s;
  lf_cancels : (cancels (transport s) <= if terminal s then 1 else 0)%nat;
  lf_remote : terminal s = true -> cancels (transport s) = 0%nat ->
    exists reason, Ok (Some (Terminal reason)) ∈ rs;
  lf_shape : trace_shape (terminal s) (tl_output (telemetry s)) rs;
  lf_outcome : match outcome s with
               | Some o => terminal s = true /\ output_tokens o = tl_output (telemetry s) /\
                           out_id o = tl_id (telemetry s)
               | None => True end
}.

(** One more token, counted in 32 bits. *)
Lemma count_token n (toks : list (result TransportError (option StreamOutput))) x :
  u32_wrap (Z.of_nat (length toks)) = n -> u32_wrap (Z.of_nat (length (toks ++ [x]))) = u32_wrap (n + 1).
Proof.
  intros <-. rewrite length_app, Nat2Z.inj_add. unfold u32_wrap. by rewrite Zplus_mod_idemp_l.
Qed.

Lemma shape_final n rs f : trace_shape false n rs -> is_final f -> trace_shape true n (rs ++ [f]).
Proof. intros (toks & Ht & Hn & ->) Hf. exists toks. split; [done|]. split; [done|]. by exists f, 0%nat. Qed.

Lemma call_life s rs c : life s rs -> life (call trim s c).1 (rs ++ answered (call trim s c).2).
Proof.
  intros [Hc Hn Hr Hs Ho].
  assert (terminal s = true -> call trim s c = (s, Ready (Ok None))) as Hdone.
  { intros Ht. destruct c; cbn [call]; [unfold next_at|unfold cancel_at]; by rewrite Ht. }
  destruct (terminal s) eqn:Ht.
  { rewrite Hdone by done. cbn [fst snd answered]. split; rewrite ?Ht; try done.
    - intros _ H0. destruct (Hr eq_refl H0) as [reason Hin]. exists reason. apply elem_of_app. by left.
    - destruct Hs as (toks & H1 & H2 & f & k & Hf & ->). exists toks. split; [done|]. split; [done|].
      exists f, (S k). split; [done|]. rewrite <- app_assoc. cbn. by rewrite <- replicate_cons_app. }
  clear Hdone. destruct s as [[[t np] nc] tl tm cu oc]. cbn in *. subst tm cu.
  assert (nc = 0%nat) as -> by lia.
  destruct oc as [o|]; [by destruct Ho|].
  destruct c as [at_ms|at_ms]; cbn [call].
  - unfold next_at. cbn. destruct (t_next t) as [u [|[[ev|]|e]]]; cbn.
    + rewrite app_nil_r. by split.
    + destruct (decode_event trim ev) as [[tok text|reason]|e]; cbn.
      * split; cbn; try done. destruct Hs as (toks & H1 & H2 & ->).
        exists (toks ++ [Ok (Some (Token tok text))]). split; [|split; [by apply count_token|done]].
        apply Forall_app. split; [done|]. apply Forall_singleton. by exists tok, text.
      * split; cbn; [done|lia| |by apply shape_final|done].
        intros _ _. exists reason. apply elem_of_app. right. by left.
      * unfold fail, cleanup. cbn. destruct (t_cancel u) as [u' r]. cbn. split; cbn; [done|lia|done|by apply shape_final|done].
    + unfold fail, cleanup. cbn. destruct (t_cancel u) as [u' r]. cbn. split; cbn; [done|lia|done|by apply shape_final|done].
    + unfold fail, cleanup. cbn. destruct (t_cancel u) as [u' r]. cbn. split; cbn; [done|lia|done|by apply shape_final|done].
  - unfold cancel_at, cleanup. cbn. destruct (t_cancel t) as [u [x|e]]; cbn; split; cbn; try done; by apply shape_final.
Qed.

Lemma calls_life cs : forall s rs, life s rs -> life (calls trim s cs).1 (rs ++ (calls trim s cs).2).
Proof.
  induction cs as [|c cs IH]; intros s rs H; cbn [calls]; [by rewrite app_nil_r|].
  pose proof (call_life s rs c H) as H1. destruct (call trim s c) as [s1 r]. cbn [fst snd] in H1.
  specialize (IH _ _ H1). destruct (calls trim s1 cs) as [s2 rs2]. cbn [fst snd] in *. by rewrite app_assoc.
Qed.
End lifecycle.

(** ** Theorems *)

(** C27. How the network splits a response does not matter: for a body that uses
    line feeds, reading event after event from any sequence of chunks yields the
    events of the concatenated bytes and the same end, and always finishes. *)
Theorem chunking_is_invisible cs :
  no_cr (concat cs) ->
  drain (S (transport_size (response cs []))) (response cs []) = Some (events (concat cs)).
Proof. intros H. by rewrite drain_spec by (done || lia). Qed.

(** It does matter for a body with carriage returns: a final blank line
    whose last two bytes arrive in different chunks makes a complete response
    end in an error. *)
Theorem split_crlf_ends_in_error :
  let body := DATA ++ [COLON; 97; CR; LF; CR; LF] in
  let split := [DATA ++ [COLON; 97; CR; LF; CR]; [LF]] in
  concat split = body /\
  drain 100 (response [body] []) = Some [Ok (Some (mkEvent None [97])); Ok None] /\
  drain 100 (response split []) = Some [Ok (Some (mkEvent None [97])); Err Transport_error].
Proof. split_and!; by vm_compute. Qed.


Lemma chunking_is_invisible_witness :
  drain 100 (response [DATA; [COLON; SPACE; 104]; [105; LF]; [LF]] []) =
    Some [Ok (Some (mkEvent None [104; 105])); Ok None] /\
  events (concat [DATA; [COLON; SPACE; 104]; [105; LF]; [LF]]) =
    [Ok (Some (mkEvent None [104; 105])); Ok None].
Proof.
  assert (no_cr (concat [DATA; [COLON; SPACE; 104]; [105; LF]; [LF]])) as H
    by (by apply (bool_decide_unpack _); vm_compute).
  pose proof (chunking_is_invisible _ H) as E.
  split; [by vm_compute|].
  assert (drain (S (transport_size (response [DATA; [COLON; SPACE; 104]; [105; LF]; [LF]] [])))
            (response [DATA; [COLON; SPACE; 104]; [105; LF]; [LF]] []) =
          Some [Ok (Some (mkEvent None [104; 105])); Ok None]) as C by by vm_compute.
  rewrite E in C. exact (f_equal (default []) C).
Defined.
End Stream.
