(* ===== verification/Tokenizer.v ===== *)
(** * Tokenizers ([crates/worker/src/tokenizer.rs])

    The seam between text and tokens, with the byte-level stand-in and the
    model's own tokenizer, which is a library's. *)

From Stdlib Require Import ZArith Lia.
From stdpp Require Import base option list numbers strings.
From S2P Require Import Prelude Core Wire.

Module Tokens.
Import Stream.
Local Open Scope Z_scope.

(** The trait [Tokenizer]; text is a list of UTF-8 bytes. *)
Class Tokenizer (K : Type) := {
  encode : K -> list Z -> list Z;
  decode : K -> list Z -> list Z;
  name : K -> string
}.

(** ** [String::from_utf8_lossy] *)

(** The number of bytes of the character at the head, or of the longest prefix
    of one when there is none: such a prefix becomes one replacement character. *)
Definition char_len (l : list Z) : bool * nat :=
  let no (n : nat) := (false, n) in
  match l with
  | [] => no 1%nat
  | b :: l1 =>
      if (0 <=? b) && (b <=? 127) then (true, 1%nat)
      else if (194 <=? b) && (b <=? 223) then
        match l1 with c1 :: _ => if cont c1 then (true, 2%nat) else no 1%nat | _ => no 1%nat end
      else if (224 <=? b) && (b <=? 239) then
        match l1 with
        | c1 :: l2 =>
            if cont c1 && negb ((b =? 224) && (c1 <? 160)) && negb ((b =? 237) && (159 <? c1)) then
              match l2 with c2 :: _ => if cont c2 then (true, 3%nat) else no 2%nat | _ => no 2%nat end
            else no 1%nat
        | _ => no 1%nat
        end
      else if (240 <=? b) && (b <=? 244) then
        match l1 with
        | c1 :: l2 =>
            if cont c1 && negb ((b =? 240) && (c1 <? 144)) && negb ((b =? 244) && (143 <? c1)) then
              match l2 with
              | c2 :: l3 =>
                  if cont c2 then
                    match l3 with c3 :: _ => if cont c3 then (true, 4%nat) else no 3%nat | _ => no 3%nat end
                  else no 2%nat
              | _ => no 2%nat
              end
            else no 1%nat
        | _ => no 1%nat
        end
      else no 1%nat
  end.

Definition REPLACEMENT : list Z := [239; 191; 189].

Fixpoint lossy_loop (fuel : nat) (l : list Z) : list Z :=
  match fuel, l with
  | S fuel', _ :: _ =>
      let '(ok, n) := char_len l in
      (if ok then take n l else REPLACEMENT) ++ lossy_loop fuel' (drop n l)
  | _, _ => []
  end.

(** A character has at least one byte, so the length is enough. *)
Definition from_utf8_lossy (l : list Z) : list Z := lossy_loop (length l) l.

(** ** The byte-level stand-in *)

Inductive SyntheticTokenizer := Synthetic.

Definition SPECIAL_OFFSET : Z := 256.

Definition synthetic_encode (text : list Z) : list Z := map (fun b => b + SPECIAL_OFFSET) text.

(** [u8::try_from(t.saturating_sub(SPECIAL_OFFSET)).ok()] *)
Definition token_byte (t : Z) : option Z :=
  let b := sat_sub t SPECIAL_OFFSET in if b <=? 255 then Some b else None.

Definition synthetic_decode (tokens : list Z) : list Z := from_utf8_lossy (omap token_byte tokens).

#[export] Instance synthetic : Tokenizer SyntheticTokenizer := {
  encode _ := synthetic_encode;
  decode _ := synthetic_decode;
  name _ := "synthetic-byte"%string
}.

(** ** The model's tokenizer *)

(** The library's [encode] and [decode]; [None] is an error. *)
Record HfTokenizer := mkHf {
  inner_encode : list Z -> option (list Z);
  inner_decode : list Z -> option (list Z);
  hf_name : string
}.

(** [load] is the library reading a file. *)
Definition from_file (load : string -> option ((list Z -> option (list Z)) * (list Z -> option (list Z)))) (path : string)
    : result Error HfTokenizer :=
  match load path with
  | Some (enc, dec) => Ok (mkHf enc dec path)
  | None => Err EngineError
  end.

#[export] Instance hf : Tokenizer HfTokenizer := {
  encode t text := default [] (inner_encode t text);
  decode t tokens := default [] (inner_decode t tokens);
  name := hf_name
}.

(** ** Facts *)

Lemma char_len_valid fuel l : l <> [] -> utf8_valid (S fuel) l = true ->
  exists n, char_len l = (true, n) /\ (1 <= n <= length l)%nat /\ utf8_valid fuel (drop n l) = true.
Proof.
  intros Hne H. destruct l as [|b l1]; [done|]. cbn [utf8_valid] in H. unfold char_len.
  destruct ((0 <=? b) && (b <=? 127)); [exists 1%nat; split; [done|]; cbn; split; [lia|done]|].
  destruct ((194 <=? b) && (b <=? 223)).
  { destruct l1 as [|c1 l2]; [done|]. apply andb_prop in H as [-> H]. exists 2%nat. split; [done|]. cbn. split; [lia|done]. }
  destruct ((224 <=? b) && (b <=? 239)).
  { destruct l1 as [|c1 [|c2 l3]]; [done..|]. rewrite !andb_true_iff in H. destruct H as [[[[-> ->] ->] ->] H].
    exists 3%nat. split; [done|]. cbn. split; [lia|done]. }
  destruct ((240 <=? b) && (b <=? 244)); [|done].
  destruct l1 as [|c1 [|c2 [|c3 l4]]]; [done..|]. rewrite !andb_true_iff in H. destruct H as [[[[[-> ->] ->] ->] ->] H].
  exists 4%nat. split; [done|]. cbn. split; [lia|done].
Qed.

Lemma lossy_valid n : forall m l, (length l <= n)%nat -> (length l <= m)%nat -> utf8_valid m l = true -> lossy_loop n l = l.
Proof.
  induction n as [|n IH]; intros m l Hn Hm H; [by destruct l; [|cbn in Hn; lia]|].
  destruct l as [|b l1]; [done|]. destruct m as [|m]; [cbn in Hm; lia|].
  destruct (char_len_valid m (b :: l1) ltac:(done) H) as (k & E & Hk & Hv).
  cbn [lossy_loop]. rewrite E, (IH m).
  - apply take_drop.
  - rewrite length_drop. cbn in *. lia.
  - rewrite length_drop. cbn in *. lia.
  - done.
Qed.

Lemma token_bytes text : Forall (fun b => 0 <= b <= 255) text ->
  omap token_byte (map (fun b => b + SPECIAL_OFFSET) text) = text.
Proof.
  induction 1 as [|b l Hb _ IH]; [done|].
  assert (token_byte (b + SPECIAL_OFFSET) = Some b) as E.
  { unfold token_byte, sat_sub. by rewrite Z.add_simpl_r, Z.max_r, (proj2 (Z.leb_le b 255)) by lia. }
  simpl. rewrite E. by f_equal.
Qed.

(** ** Theorems *)

(** The stand-in gives back the text it was given, when it is UTF-8 and decoded
    whole; there is a token per byte, above the special ones. *)
Theorem synthetic_round_trip (text : list Z) :
  utf8_valid (length text) text = true -> Forall (fun b => 0 <= b <= 255) text ->
  synthetic_decode (synthetic_encode text) = text /\ length (synthetic_encode text) = length text /\
  Forall (fun t => SPECIAL_OFFSET <= t < 512) (synthetic_encode text).
Proof.
  intros Hv Hb. split; [|split].
  - unfold synthetic_decode, synthetic_encode. rewrite token_bytes by done. by apply (lossy_valid _ (length text)).
  - apply length_map.
  - unfold synthetic_encode, SPECIAL_OFFSET. clear Hv. induction Hb as [|b l Hb _ IH]; cbn [map]; constructor; [lia|exact IH].
Qed.

(** Token by token it does not: a character of several bytes becomes as many
    replacement characters. *)
Theorem synthetic_streams_lossily :
  synthetic_encode [195; 169] = [451; 425] /\ synthetic_decode [451; 425] = [195; 169] /\
  concat (map (fun t => synthetic_decode [t]) [451; 425]) = REPLACEMENT ++ REPLACEMENT.
Proof. vm_compute. done. Qed.

(** Nor are the special tokens skipped: each is a NUL byte. *)
Theorem special_tokens_are_nul (t : Z) : 0 <= t <= SPECIAL_OFFSET -> synthetic_decode [t] = [0].
Proof.
  intros H. unfold SPECIAL_OFFSET in H. unfold synthetic_decode, token_byte, sat_sub, SPECIAL_OFFSET. cbn [omap list_omap].
  by rewrite Z.max_l by lia.
Qed.

Lemma synthetic_round_trip_witness : synthetic_decode (synthetic_encode [104; 195; 169]) = [104; 195; 169].
Proof. apply synthetic_round_trip; [vm_compute; reflexivity|repeat constructor; lia]. Defined.

Lemma special_tokens_are_nul_witness : synthetic_decode [2] = [0].
Proof. apply special_tokens_are_nul. unfold SPECIAL_OFFSET. lia. Defined.
End Tokens.
