(* ===== verification/Frontend.v ===== *)
(** * The HTTP front end ([crates/frontend/src/api.rs], [server.rs])

    Requests in the OpenAI dialect, the request made of them for a backend, and
    the response made of the chunks the backend streams.  The HTTP server and
    the JSON library are outside: a request arrives deserialised, and a response
    is the value that gets serialised. *)

From Stdlib Require Import ZArith Lia Ascii String.
From stdpp Require Import base option list numbers strings.
From S2P Require Import Prelude F64 Core.

Module Frontend.
Local Open Scope string_scope.
Local Open Scope list_scope.
Local Open Scope Z_scope.

(** Dynamic text is a list of UTF-8 bytes. *)
Abbreviation text := (list Z) (only parsing).
Definition bytes (s : string) : list Z := map (fun c => Z.of_N (N_of_ascii c)) (list_ascii_of_string s).

(** ** The interface to a backend *)

Record GenerateRequest (J : Type) := mkGenerate {
  gen_id : RequestId;
  gen_prompt : list Z;
  gen_prompt_text : text;
  gen_params : SamplingParams J;
  gen_arrival_ms : f64;
  gen_stream : bool
}.
Arguments mkGenerate {J}.
Arguments gen_id {J}.
Arguments gen_prompt {J}.
Arguments gen_prompt_text {J}.
Arguments gen_params {J}.
Arguments gen_arrival_ms {J}.
Arguments gen_stream {J}.

(** The message of an error chunk is left out. *)
Inductive StreamChunk :=
  | CToken (token : Z) (txt : text)
  | CDone (finish_reason : string)
  | CError.

(** The trait [Completions]; the receiver is what it delivers until it closes,
    and [None] is a panic, or a wait that is never answered. *)
Class Completions (B J : Type) := {
  generate : B -> GenerateRequest J -> option (B * result Error (list StreamChunk));
  model_name : B -> text;
  encode : B -> text -> list Z
}.

Definition is_token (c : StreamChunk) : bool := match c with CToken _ _ => true | _ => false end.

(** Tokens, then at most one closing chunk. *)
Definition stream_shape (cs : list StreamChunk) : Prop :=
  exists toks close, cs = toks ++ close /\ Forall (fun c => is_token c = true) toks /\
    (close = [] \/ exists c, close = [c] /\ is_token c = false).

(** What a backend promises: streams of that shape, whatever it is asked. *)
Class CompletionsOk (B J : Type) `{!Completions B J} : Prop := {
  generate_shape : forall b r b' cs, generate b r = Some (b', Ok cs) -> stream_shape cs
}.

(** ** Requests *)

Record ChatMessage := mkMessage { msg_role : text; msg_content : text }.

Record ChatCompletionRequest := mkChat {
  ch_model : option text;
  messages : list ChatMessage;
  ch_max_tokens : option Z;
  max_completion_tokens : option Z;
  ch_temperature : option f32;
  ch_top_p : option f32;
  ch_stream : option bool;
  ch_seed : option Z;
  ch_ignore_eos : option bool
}.

Definition LF : Z := 10.

Fixpoint join_lines (l : list text) : text :=
  match l with
  | [] => []
  | [x] => x
  | x :: l' => x ++ LF :: join_lines l'
  end.

Definition flatten_prompt (r : ChatCompletionRequest) : text :=
  join_lines (map (fun m => msg_role m ++ bytes ": " ++ msg_content m) (messages r)).

Definition or_else {A} (o p : option A) : option A := match o with Some _ => o | None => p end.

Definition sampling_of {J} (r : ChatCompletionRequest) : SamplingParams J :=
  mkParams (default 200 (or_else (max_completion_tokens r) (ch_max_tokens r)))
    (default (f32_of_Z 0) (ch_temperature r)) (default (f32_of_Z 1) (ch_top_p r)) (-1)
    (default true (ch_ignore_eos r)) (ch_seed r) [].

Record CompletionRequest := mkCompletion {
  co_model : option text;
  co_prompt : text;
  co_max_tokens : option Z;
  co_temperature : option f32;
  co_stream : option bool;
  co_ignore_eos : option bool
}.

Definition completion_sampling {J} (r : CompletionRequest) : SamplingParams J :=
  mkParams (default 200 (co_max_tokens r)) (default (f32_of_Z 0) (co_temperature r)) (f32_of_Z 1) (-1)
    (default true (co_ignore_eos r)) None [].

(** ** Responses *)

Record Delta := mkDelta { delta_role : option string; content : option text }.
Record StreamChoice := mkChoice { choice_index : Z; delta : Delta; choice_finish : option string }.

Record ChatCompletionChunk := mkChunk {
  chunk_id : string;
  chunk_object : string;
  chunk_created : Z;
  chunk_model : text;
  choices : list StreamChoice
}.

Record Usage := mkUsage { usage_prompt : Z; usage_completion : Z; usage_total : Z }.

Record ChatCompletionResponse := mkResponse {
  resp_id : string;
  resp_object : string;
  resp_created : Z;
  resp_model : text;
  resp_role : string;
  resp_content : text;
  resp_finish : string;
  usage : Usage
}.

(** One server-sent event of a streamed response. *)
Inductive Payload := PChunk (c : ChatCompletionChunk) | PError.

Inductive Response :=
  | BadRequest
  | ServiceUnavailable (e : Error)
  | InternalServerError
  | Sse (events : list Payload)
  | Complete (r : ChatCompletionResponse).

Definition chunk_of (id : RequestId) (created : Z) (model : text) (d : Delta) (finish : option string) : Payload :=
  PChunk (mkChunk (display_request id) "chat.completion.chunk" created model [mkChoice 0 d finish]).

Definition payload_of (id : RequestId) (created : Z) (model : text) (c : StreamChunk) : Payload :=
  match c with
  | CToken _ t => chunk_of id created model (mkDelta None (Some t)) None
  | CDone reason => chunk_of id created model (mkDelta None None) (Some reason)
  | CError => PError
  end.

Definition sse_response (id : RequestId) (model : text) (created : Z) (rx : list StreamChunk) : Response :=
  Sse (map (payload_of id created model) rx).

(** The loop of [collect_response]: text, tokens and reason; [None] when an
    error chunk turns the response into a failure. *)
Fixpoint collect_loop (rx : list StreamChunk) (t : text) (n : Z) (reason : string) : option (text * Z * string) :=
  match rx with
  | [] => Some (t, n, reason)
  | CToken _ x :: rx' => collect_loop rx' (t ++ x) (u32_wrap (n + 1)) reason
  | CDone r :: _ => Some (t, n, r)
  | CError :: _ => None
  end.

Definition collect_response (id : RequestId) (model : text) (prompt_tokens created : Z) (rx : list StreamChunk) : Response :=
  match collect_loop rx [] 0 "length" with
  | None => InternalServerError
  | Some (t, n, reason) =>
      Complete (mkResponse (display_request id) "chat.completion" created model "assistant" t reason
                  (mkUsage prompt_tokens n (u32_wrap (prompt_tokens + n))))
  end.

(** ** Handlers *)

Record AppState (B : Type) := mkApp { backend : B; app_next_id : Z }.
Arguments mkApp {B}.
Arguments backend {B}.
Arguments app_next_id {B}.

Section handlers.
Context {B J : Type} `{!Completions B J}.

Definition app_new (b : B) : AppState B := mkApp b 0.

(** [unix] is the clock of the [created] field. *)
Definition dispatch (s : AppState B) (gen : GenerateRequest J) (model : option text) (stream : bool) (unix : Z)
    : option (AppState B * Response) :=
  let id := gen_id gen in
  let prompt_tokens := u32_wrap (Z.of_nat (length (gen_prompt gen))) in
  let model := default (model_name (backend s)) model in
  '(b, r) ← generate (backend s) gen;
  let s' := mkApp b (app_next_id s) in
  Some match r with
       | Err e => (s', ServiceUnavailable e)
       | Ok rx =>
           if stream then (s', sse_response id model unix rx)
           else (s', collect_response id model prompt_tokens unix rx)
       end.

Definition chat_completions (s : AppState B) (now : f64) (unix : Z) (req : ChatCompletionRequest)
    : option (AppState B * Response) :=
  match messages req with
  | [] => Some (s, BadRequest)
  | _ :: _ =>
      let t := flatten_prompt req in
      let stream := default false (ch_stream req) in
      let '(id, src) := next_id (app_next_id s) in
      let gen := mkGenerate id (encode (backend s) t) t (sampling_of req) now stream in
      dispatch (mkApp (backend s) src) gen (ch_model req) stream unix
  end.

Definition completions (s : AppState B) (now : f64) (unix : Z) (req : CompletionRequest)
    : option (AppState B * Response) :=
  let stream := default false (co_stream req) in
  let '(id, src) := next_id (app_next_id s) in
  let gen := mkGenerate id (encode (backend s) (co_prompt req)) (co_prompt req) (completion_sampling req) now stream in
  dispatch (mkApp (backend s) src) gen (co_model req) stream unix.
End handlers.

(** ** Streaming and collecting *)

Definition texts (cs : list StreamChunk) : text :=
  concat (map (fun c => match c with CToken _ t => t | _ => [] end) cs).

(** What a client reads off the events of a streamed response. *)
Definition event_text (p : Payload) : text :=
  match p with
  | PChunk c => concat (map (fun x => default [] (content (delta x))) (choices c))
  | PError => []
  end.
Definition event_finish (p : Payload) : list string :=
  match p with PChunk c => omap choice_finish (choices c) | PError => [] end.

Lemma event_text_payload id created model cs :
  concat (map event_text (map (payload_of id created model) cs)) = texts cs.
Proof.
  induction cs as [|[t x|r|] cs IH]; [done|..]; cbn [map concat]; rewrite IH; unfold texts; cbn; [|done..].
  by rewrite app_nil_r.
Qed.

Lemma event_finish_payload id created model cs :
  concat (map event_finish (map (payload_of id created model) cs)) =
  omap (fun c => match c with CDone r => Some r | _ => None end) cs.
Proof. induction cs as [|[t x|r|] cs IH]; [done|..]; cbn [map concat]; rewrite IH; done. Qed.

Lemma collect_tokens toks : Forall (fun c => is_token c = true) toks -> forall rx t n reason,
  0 <= n < 2 ^ 32 ->
  collect_loop (toks ++ rx) t n reason =
    collect_loop rx (t ++ texts toks) (u32_wrap (n + Z.of_nat (length toks))) reason.
Proof.
  induction 1 as [|c toks Hc _ IH]; intros rx t n reason Hn.
  - cbn. rewrite app_nil_r, Z.add_0_r. unfold u32_wrap. by rewrite Z.mod_small.
  - destruct c as [tk x|r|]; [|done..]. cbn [app collect_loop]. rewrite IH by (apply Z.mod_pos_bound; lia).
    rewrite <- app_assoc. unfold texts. cbn [map concat length]. f_equal.
    unfold u32_wrap. rewrite Zplus_mod_idemp_l. f_equal. lia.
Qed.

Lemma texts_app a b : texts (a ++ b) = texts a ++ texts b.
Proof. unfold texts. by rewrite map_app, concat_app. Qed.

(** The token chunks of a stream. *)
Definition tokens_of (cs : list StreamChunk) : list StreamChunk := filter (fun c => is_token c = true) cs.

Lemma tokens_of_tokens toks : Forall (fun c => is_token c = true) toks -> tokens_of toks = toks.
Proof. induction 1 as [|c l H _ IH]; [done|]. unfold tokens_of. rewrite filter_cons, decide_True by done. by f_equal. Qed.

Lemma no_finish toks : Forall (fun c => is_token c = true) toks ->
  omap (fun c => match c with CDone r => Some r | _ => None end) toks = @nil string.
Proof. induction 1 as [|[t x|r|] l H _ IH]; [done|exact IH|done..]. Qed.

(** ** Theorems *)

(** C39. Streaming and collecting tell the client the same.  For what a backend
    streams, the collected answer is the concatenation of the streamed deltas,
    it counts the token events, and its reason is the one event with a finish
    reason; an error event is what turns the collected answer into a failure.
    A stream that closes without either is reported as finished by length. *)
Theorem streamed_is_collected (id : RequestId) (model : text) (prompt_tokens created : Z) (cs : list StreamChunk) :
  stream_shape cs ->
  let events := map (payload_of id created model) cs in
  match collect_response id model prompt_tokens created cs with
  | Complete r =>
      resp_content r = concat (map event_text events) /\
      usage_completion (usage r) = u32_wrap (Z.of_nat (length (tokens_of cs))) /\
      (concat (map event_finish events) = [resp_finish r] /\ PError ∉ events \/
       events = map (payload_of id created model) (tokens_of cs) /\ resp_finish r = "length")
  | InternalServerError => PError ∈ events
  | _ => False
  end.
Proof.
  intros (toks & close & -> & Ht & Hc). cbn zeta. unfold collect_response.
  rewrite collect_tokens by (done || lia). cbn [app Z.add].
  rewrite event_text_payload, event_finish_payload, texts_app, omap_app, (no_finish toks) by done.
  unfold tokens_of. rewrite filter_app. fold (tokens_of toks). rewrite (tokens_of_tokens toks) by done.
  destruct Hc as [->|(c & -> & Hc)].
  - cbn [collect_loop]. rewrite !app_nil_r. split; [done|]. split; [done|]. by right.
  - destruct c as [t x|r|]; [done|..]; cbn [collect_loop].
    + rewrite !app_nil_r. split; [done|]. split; [done|]. left. split; [done|].
      rewrite map_app, elem_of_app, list_elem_of_fmap. intros [(c & E & Hin)|Hin].
      * eapply Forall_forall in Ht; [|exact Hin]. by destruct c.
      * by apply list_elem_of_singleton in Hin.
    + rewrite map_app, elem_of_app. right. by apply list_elem_of_singleton.
Qed.

(** Over a backend that keeps its promise, no answer is made of a stream that
    failed: a complete answer means that no error chunk was sent. *)
Theorem complete_answers_are_whole {B J : Type} `{!Completions B J, !CompletionsOk B J} (s : AppState B) (now : f64) (unix : Z)
    (req : ChatCompletionRequest) (s' : AppState B) (r : ChatCompletionResponse) :
  chat_completions s now unix req = Some (s', Complete r) ->
  exists b cs, generate (backend s) (mkGenerate (app_next_id s) (encode (backend s) (flatten_prompt req))
      (flatten_prompt req) (sampling_of req) now false) = Some (b, Ok cs) /\
    (CError ∉ cs) /\ resp_content r = texts cs /\ usage_completion (usage r) = u32_wrap (Z.of_nat (length (tokens_of cs))).
Proof.
  unfold chat_completions. destruct (messages req) as [|m ms] eqn:Em; [done|]. cbn [next_id]. unfold dispatch.
  cbn [backend app_next_id gen_id gen_prompt].
  destruct (generate _ _) as [[b [rx|e]]|] eqn:Hg; cbn [mbind option_bind]; [|done..].
  destruct (default false (ch_stream req)) eqn:Hs; [done|]. unfold collect_response.
  destruct (generate_shape _ _ _ _ Hg) as (toks & close & -> & Ht & Hc).
  rewrite collect_tokens by (done || lia). cbn [app Z.add]. intros H. eexists b, _. split; [exact Hg|].
  assert (CError ∉ toks) as Hno.
  { intros Hin. eapply Forall_forall in Ht; [|exact Hin]. done. }
  unfold tokens_of. rewrite filter_app, texts_app. fold (tokens_of toks). rewrite (tokens_of_tokens toks) by done.
  destruct Hc as [->|(c & -> & Hc)]; [|destruct c as [t x|rs|]; [done| |done]]; cbn [collect_loop] in H;
    injection H as _ <-; cbn [resp_content usage usage_completion]; rewrite !app_nil_r.
  - done.
  - split; [|done]. rewrite elem_of_app, list_elem_of_singleton. intros [|]; done.
Qed.

(** ** Samples *)

Definition chunks_sample : list StreamChunk := [CToken 7 (bytes "he"); CToken 8 (bytes "llo"); CDone "stop"].

Lemma shape_sample : stream_shape chunks_sample.
Proof.
  exists [CToken 7 (bytes "he"); CToken 8 (bytes "llo")], [CDone "stop"]. split; [done|].
  split; [by repeat constructor|]. right. by exists (CDone "stop").
Qed.

Lemma streamed_is_collected_witness :
  match collect_response 3 (bytes "m") 5 0 chunks_sample with
  | Complete r => resp_content r = bytes "hello" /\ usage_completion (usage r) = 2 /\ resp_finish r = "stop"
  | _ => False
  end.
Proof.
  pose proof (streamed_is_collected 3 (bytes "m") 5 0 chunks_sample shape_sample) as H.
  assert (exists r, collect_response 3 (bytes "m") 5 0 chunks_sample = Complete r /\ resp_finish r = "stop") as (r & E & Hr)
    by (eexists; split; vm_compute; reflexivity).
  rewrite E in H |- *. destruct H as (H1 & H2 & _). split; [exact H1|]. split; [exact H2|exact Hr].
Defined.
End Frontend.
