(* ===== verification/Serving.v ===== *)
(** * The serving deployment ([crates/worker/src/serving.rs])

    A front end and a router before engine processes reached over the wire.
    Each worker process has two registry entries, one per role; the load the
    router sees is counted here.  A request is routed, its stream is opened, and
    a task forwards what the worker sends until the stream ends or the client
    hangs up.  A worker may also answer nothing, or stop in the middle: what
    waits for it stays where it is.  The JSON library, the HTTP client (inside
    the transport factory) and the tokenizer are parameters; clock readings are
    arguments. *)

From Stdlib Require Import ZArith Lia Ascii String.
From stdpp Require Import base option list numbers gmap strings.
From S2P Require Import Prelude F64 F64Int Core Radix Router Wire Tokenizer Frontend.

Module Serving.
Import Stream Frontend.
Local Open Scope string_scope.
Local Open Scope list_scope.
Local Open Scope Z_scope.

(** ** State *)

(** What this side of the wire sees of a process. *)
Record Observed := mkObserved {
  inflight : Z;
  itl_ms : f64;
  seen : Z
}.

Definition observed_default : Observed := mkObserved 0 f0 0.

Record ServingWorker (F : Type) := mkServingWorker {
  slot : nat;
  sw_endpoint : string;
  adapter : F
}.
Arguments mkServingWorker {F}.
Arguments slot {F}.
Arguments sw_endpoint {F}.
Arguments adapter {F}.

(** The adapter is made of the endpoint by [connect_to]. *)
Definition serving_worker_new {F} (connect_to : string -> F) (k : nat) (endpoint : string) : ServingWorker F :=
  mkServingWorker k endpoint (connect_to endpoint).

Record ServingDeployment (F K : Type) := mkServing {
  router : Routing.Router;
  workers : gmap Z (ServingWorker F);
  observed : gmap nat Observed;
  tokenizer : K;
  served_model : list Z;
  ttft_budget_ms : f64;
  decode_cap_hint : f64;
  serving_next_id : Z
}.
Arguments mkServing {F K}.
Arguments router {F K}.
Arguments workers {F K}.
Arguments observed {F K}.
Arguments tokenizer {F K}.
Arguments served_model {F K}.
Arguments ttft_budget_ms {F K}.
Arguments decode_cap_hint {F K}.
Arguments serving_next_id {F K}.

Section deployment.
Context {F K : Type}.

Definition set_router (d : ServingDeployment F K) (r : Routing.Router) : ServingDeployment F K :=
  mkServing r (workers d) (observed d) (tokenizer d) (served_model d) (ttft_budget_ms d) (decode_cap_hint d)
    (serving_next_id d).
Definition set_observed (d : ServingDeployment F K) (o : gmap nat Observed) : ServingDeployment F K :=
  mkServing (router d) (workers d) o (tokenizer d) (served_model d) (ttft_budget_ms d) (decode_cap_hint d)
    (serving_next_id d).
Definition set_next_id (d : ServingDeployment F K) (n : Z) : ServingDeployment F K :=
  mkServing (router d) (workers d) (observed d) (tokenizer d) (served_model d) (ttft_budget_ms d) (decode_cap_hint d) n.

(** ** Construction *)

Definition worker_state (id : WorkerId) (ro : Routing.WorkerRole) (endpoint : string) (cap : f64) : Routing.WorkerState :=
  Routing.mkWorker id ro endpoint 1 true (Routing.mkLoad 0 0 0 cap f0 f0 f0 f0).

Definition registry_id (k : nat) (offset : Z) : WorkerId := u32_wrap (u32_wrap (Z.of_nat k) * 2 + offset).

(** One worker process under both roles. *)
Definition add_worker (connect_to : string -> F) (cap : f64)
    (acc : Routing.WorkerRegistry * gmap Z (ServingWorker F) * gmap nat Observed) (ke : nat * string)
    : Routing.WorkerRegistry * gmap Z (ServingWorker F) * gmap nat Observed :=
  let '(reg, ws, obs) := acc in
  let '(k, endpoint) := ke in
  let w := serving_worker_new connect_to k endpoint in
  let p := registry_id k 0 in
  let d := registry_id k 1 in
  (Routing.register (Routing.register reg (worker_state p Routing.Prefill endpoint cap))
     (worker_state d Routing.Decode endpoint cap),
   <[d := w]> (<[p := w]> ws), <[k := observed_default]> obs).

Definition aggregated (connect_to : string -> F) (endpoints : list string) (model : list Z) (tok : K)
    (tuning : Routing.RouterTuning) (budget cap stale : f64) : result Error (ServingDeployment F K) :=
  match endpoints with
  | [] => Err EngineError
  | _ :: _ =>
      let '(reg, ws, obs) := foldl (add_worker connect_to cap) (Routing.registry_new stale, ∅, ∅) (imap pair endpoints) in
      Ok (mkServing (Routing.router_new reg tuning) ws obs tok model budget cap 0)
  end.

(** ** Load *)

Definition observe_of (o : gmap nat Observed) (k : nat) : Observed := default observed_default (o !! k).

Definition load_of (d : ServingDeployment F K) (now : f64) (w : ServingWorker F) : Routing.WorkerLoad :=
  let obs := observe_of (observed d) (slot w) in
  Routing.mkLoad 0 (inflight obs) (inflight obs) (decode_cap_hint d) f0 f0 (itl_ms obs) now.

(** The order in which the map is walked does not matter: the identifiers are
    distinct. *)
Definition refresh_load (d : ServingDeployment F K) (now : f64) : ServingDeployment F K :=
  let r := router d in
  set_router d (Routing.mkRouter
    (foldl (fun reg p => Routing.update_load reg p.1 (load_of d now p.2)) (Routing.registry r) (map_to_list (workers d)))
    (Routing.prefix_index r) (Routing.tuning r)).

(** ** Starting a request *)

Section requests.
Context {V : Type} `{!Json V} (trim : list Z -> list Z) {T J : Type}.
Context `{!Transport T} `{!TransportFactory F T J}.

(** The first half of [generate]: routing; [None] is a panic. *)
Definition route_request (d : ServingDeployment F K) (req : GenerateRequest J) (now : f64)
    : option (ServingDeployment F K * result Error (ServingWorker F * Request J)) :=
  let d := refresh_load d now in
  r ← Routing.route (router d) (gen_prompt req) now (ttft_budget_ms d);
  Some match r with
       | Err _ => (d, Err (Rejected (gen_id req)))
       | Ok decision =>
           match workers d !! Routing.rd_decode decision with
           | None => (d, Err EngineError)
           | Some w =>
               let '(id, src) := next_id (serving_next_id d) in
               (set_next_id d src,
                Ok (w, mkRequest id (gen_prompt req) (gen_params req) (gen_arrival_ms req)
                         (fadd (gen_arrival_ms req) (ttft_budget_ms d)) None None))
           end
       end.

(** The task that forwards a stream.  [tk_open] while its loop runs; [tk_sent]
    is what has gone to the channel. *)
Record Task := mkTask {
  tk_slot : nat;
  tk_stream : RequestStream T;
  tk_last : option f64;
  tk_sent : list StreamChunk;
  tk_open : bool
}.

Definition count_up (o : gmap nat Observed) (k : nat) : gmap nat Observed :=
  let e := observe_of o k in <[k := mkObserved (u32_wrap (inflight e + 1)) (itl_ms e) (seen e)]> o.
Definition count_down (o : gmap nat Observed) (k : nat) : gmap nat Observed :=
  let e := observe_of o k in <[k := mkObserved (sat_sub (inflight e) 1) (itl_ms e) (seen e)]> o.

(** The second half: once the worker answers, the stream is counted. *)
Definition open_request (d : ServingDeployment F K) (w : ServingWorker F) (r : Request J)
    : Awaited (ServingDeployment F K * result Error Task) :=
  match adapter_start (adapter w) r with
  | Pending => Pending
  | Ready (Err _) => Ready (d, Err EngineError)
  | Ready (Ok stream) =>
      Ready (set_observed d (count_up (observed d) (slot w)), Ok (mkTask (slot w) stream None [] true))
  end.

(** ** The forwarding task *)

Definition reasons : list string := ["eos"; "stop"; "length"; "cancelled"; "timeout"; "content_filter"].

Definition leak_reason (reason : list Z) : string :=
  default "error" (head (filter (fun s => bytes s = reason) reasons)).

(** The interval between tokens, as an average with a short memory. *)
Definition note_gap (o : gmap nat Observed) (k : nat) (gap : f64) : gmap nat Observed :=
  let e := observe_of o k in
  let itl := if seen e =? 0 then gap else fadd (fmul (dec 8 1) (itl_ms e)) (fmul (dec 2 1) gap) in
  <[k := mkObserved (inflight e) itl (u64_wrap (seen e + 1))]> o.

Definition close (t : Task) (stream : RequestStream T) (sent : list StreamChunk) : Task :=
  mkTask (tk_slot t) stream (tk_last t) (tk_sent t ++ sent) false.

(** One turn of the loop, once the wait is answered: [at_] is the clock before
    the wait, [o] what is shared after it, and [listening] says whether the
    client still holds the receiver when the chunk is sent. *)
Definition turn (o : gmap nat Observed) (t : Task) (at_ : f64) (listening : bool)
    : Awaited (gmap nat Observed * Task) :=
  let '(stream, r) := next_at trim (tk_stream t) at_ in
  match r with
  | Pending => Pending
  | Ready (Ok (Some (Token token txt))) =>
      let o' := match tk_last t with Some prev => note_gap o (tk_slot t) (fsub at_ prev) | None => o end in
      Ready (if listening
             then (o', mkTask (tk_slot t) stream (Some at_) (tk_sent t ++ [CToken token txt]) true)
             else (o', mkTask (tk_slot t) stream (Some at_) (tk_sent t) false))
  | Ready (Ok (Some (Terminal reason))) =>
      Ready (o, close t stream (if listening then [CDone (leak_reason reason)] else []))
  | Ready (Ok None) => Ready (o, close t stream [])
  | Ready (Err _) => Ready (o, close t stream (if listening then [CError] else []))
  end.

(** After the loop: the count goes down and the stream is dropped. *)
Definition leave (o : gmap nat Observed) (t : Task) : gmap nat Observed * Task :=
  (count_down o (tk_slot t), mkTask (tk_slot t) (drop_stream (tk_stream t)) (tk_last t) (tk_sent t) false).

(** ** The running system *)

Record System := mkSystem {
  dep : ServingDeployment F K;
  starting : list (ServingWorker F * Request J);
  tasks : list Task;
  left : list Task
}.

Definition system_new (d : ServingDeployment F K) : System := mkSystem d [] [] [].

Definition set_dep (s : System) (d : ServingDeployment F K) : System :=
  mkSystem d (starting s) (tasks s) (left s).

(** Requests and tasks interleave at the points where they wait; one whose
    worker does not answer takes no step, and stays. *)
Inductive step : System -> System -> Prop :=
  | step_routed s req now d w rq : route_request (dep s) req now = Some (d, Ok (w, rq)) ->
      step s (mkSystem d (starting s ++ [(w, rq)]) (tasks s) (left s))
  | step_rejected s req now d e : route_request (dep s) req now = Some (d, Err e) ->
      step s (mkSystem d (starting s) (tasks s) (left s))
  | step_opened s i w rq d t : starting s !! i = Some (w, rq) -> open_request (dep s) w rq = Ready (d, Ok t) ->
      step s (mkSystem d (remove_at i (starting s)) (tasks s ++ [t]) (left s))
  | step_refused s i w rq d e : starting s !! i = Some (w, rq) -> open_request (dep s) w rq = Ready (d, Err e) ->
      step s (mkSystem d (remove_at i (starting s)) (tasks s) (left s))
  | step_turn s i t at_ listening o t' : tasks s !! i = Some t -> tk_open t = true ->
      turn (observed (dep s)) t at_ listening = Ready (o, t') ->
      step s (mkSystem (set_observed (dep s) o) (starting s) (<[i := t']> (tasks s)) (left s))
  | step_left s i t o t' : tasks s !! i = Some t -> tk_open t = false ->
      leave (observed (dep s)) t = (o, t') ->
      step s (mkSystem (set_observed (dep s) o) (starting s) (remove_at i (tasks s)) (left s ++ [t'])).

(** Reached from [s0] with fewer than 2^32 streams at any time. *)
Inductive reach (s0 : System) : System -> Prop :=
  | reach_start : reach s0 s0
  | reach_step s s' : reach s0 s -> step s s' -> Z.of_nat (length (tasks s')) <= u32_max -> reach s0 s'.
End requests.
End deployment.
Arguments Task : clear implicits.
Arguments System : clear implicits.

(** ** The registry after a refresh *)

Section registry.
Context {F K : Type}.
Implicit Types d : ServingDeployment F K.

Lemma refresh_fold (f : ServingWorker F -> Routing.WorkerLoad) (l : list (Z * ServingWorker F)) :
  NoDup l.*1 -> forall reg,
  let reg' := foldl (fun reg p => Routing.update_load reg p.1 (f p.2)) reg l in
  Routing.stale_after_ms reg' = Routing.stale_after_ms reg /\
  forall id, Routing.reg_workers reg' !! id =
    match Routing.reg_workers reg !! id, (list_to_map l : gmap Z _) !! id with
    | Some s, Some w => Some (Routing.mkWorker (Routing.wid s) (Routing.role s) (Routing.endpoint s)
                                (Routing.tensor_parallel s) true (f w))
    | o, _ => o
    end.
Proof.
  induction l as [|[i w] l IH]; intros Hnd reg; cbn [foldl].
  { split; [done|]. intros id. cbn. rewrite lookup_empty. by destruct (_ !! id). }
  cbn [fmap list_fmap fst] in Hnd. apply NoDup_cons in Hnd as [Hi Hnd].
  specialize (IH Hnd (Routing.update_load reg i (f w))). cbn zeta in IH. destruct IH as [IHs IH]. cbn [fst snd].
  unfold Routing.update_load in *. destruct (Routing.reg_workers reg !! i) as [s|] eqn:E.
  - split; [done|]. intros id. rewrite IH. cbn [Routing.reg_workers list_to_map foldr fst snd]. destruct (decide (id = i)) as [->|Hne].
    + rewrite lookup_insert_eq, E. rewrite (not_elem_of_list_to_map_1 l i) by done. by rewrite lookup_insert_eq.
    + by rewrite !lookup_insert_ne by done.
  - split; [done|]. intros id. rewrite IH. cbn [list_to_map foldr fst snd]. destruct (decide (id = i)) as [->|Hne].
    + by rewrite E.
    + by rewrite lookup_insert_ne by done.
Qed.

Lemma refresh_lookup d now id :
  Routing.reg_workers (Routing.registry (router (refresh_load d now))) !! id =
    match Routing.reg_workers (Routing.registry (router d)) !! id, workers d !! id with
    | Some s, Some w => Some (Routing.mkWorker (Routing.wid s) (Routing.role s) (Routing.endpoint s)
                                (Routing.tensor_parallel s) true (load_of d now w))
    | o, _ => o
    end.
Proof.
  unfold refresh_load. cbn [router set_router Routing.registry].
  destruct (refresh_fold (load_of d now) _ (NoDup_fst_map_to_list (workers d)) (Routing.registry (router d))) as [_ ->].
  by rewrite list_to_map_to_list.
Qed.

Lemma refresh_stale d now : Routing.stale_after_ms (Routing.registry (router (refresh_load d now))) =
  Routing.stale_after_ms (Routing.registry (router d)).
Proof.
  unfold refresh_load. cbn [router set_router Routing.registry].
  by destruct (refresh_fold (load_of d now) _ (NoDup_fst_map_to_list (workers d)) (Routing.registry (router d))) as [-> _].
Qed.

(** A deployment over [n] processes. *)
Record dep_ok (n : nat) d : Prop := {
  d_reg : Routing.reg_inv (Routing.registry (router d));
  d_index : Trie.index_inv (Routing.prefix_index (router d));
  d_slot : forall id w, workers d !! id = Some w -> (slot w < n)%nat /\
    (id = 2 * Z.of_nat (slot w) \/ id = 2 * Z.of_nat (slot w) + 1);
  d_all : forall k, (k < n)%nat -> exists w, slot w = k /\
    workers d !! (2 * Z.of_nat k) = Some w /\ workers d !! (2 * Z.of_nat k + 1) = Some w;
  d_same : forall id, is_Some (Routing.reg_workers (Routing.registry (router d)) !! id) <-> is_Some (workers d !! id);
  d_role : forall id s, Routing.reg_workers (Routing.registry (router d)) !! id = Some s ->
    Routing.role s = if Z.even id then Routing.Prefill else Routing.Decode
}.

Lemma refresh_ok n d now : dep_ok n d -> dep_ok n (refresh_load d now).
Proof.
  intros [H1 H2 H3 H4 H5 H6]. split; try done.
  - intros id s Hs. rewrite refresh_lookup in Hs.
    destruct (Routing.reg_workers _ !! id) as [s0|] eqn:E; [|done].
    destruct (workers d !! id) as [w|]; injection Hs as <-; cbn; by apply H1.
  - intros id. cbn [workers refresh_load set_router]. rewrite <- H5, refresh_lookup.
    destruct (Routing.reg_workers _ !! id) as [s0|]; [|done]. by destruct (workers d !! id).
  - intros id s Hs. rewrite refresh_lookup in Hs.
    destruct (Routing.reg_workers _ !! id) as [s0|] eqn:E; [|done].
    destruct (workers d !! id) as [w|]; injection Hs as <-; cbn; by apply (H6 id).
Qed.

Lemma set_observed_ok n d o : dep_ok n d -> dep_ok n (set_observed d o).
Proof. by intros []. Qed.
Lemma set_next_id_ok n d i : dep_ok n d -> dep_ok n (set_next_id d i).
Proof. by intros []. Qed.

(** ** The process a request goes to *)

Definition headroom d (k : nat) : f64 := fmax (fsub (decode_cap_hint d) (of_Z (inflight (observe_of (observed d) k)))) f0.

(** The first of the processes with the most room. *)
Definition picked (n : nat) d (k : nat) : Prop :=
  (k < n)%nat /\ forall j, (j < n)%nat -> total_key (headroom d j) < total_key (headroom d k) \/
    total_key (headroom d j) = total_key (headroom d k) /\ (k <= j)%nat.

Lemma picked_unique n d k k' : picked n d k -> picked n d k' -> k = k'.
Proof. intros [Hk H] [Hk' H']. specialize (H k' Hk'). specialize (H' k Hk). lia. Qed.

(** A clock reading, and a staleness bound, as the deployment has them. *)
Definition reading (t : f64) : Prop := is_finite t = true /\ t <> fneg0.
Definition patient d : Prop := fle f0 (Routing.stale_after_ms (Routing.registry (router d))) = true.

Lemma refresh_live n d now ro s : dep_ok n d -> reading now -> patient d ->
  s ∈ Routing.live (Routing.registry (router (refresh_load d now))) ro now <->
  exists w, workers d !! Routing.wid s = Some w /\ Routing.load s = load_of d now w /\
    Routing.reg_workers (Routing.registry (router (refresh_load d now))) !! Routing.wid s = Some s /\
    ro = if Z.even (Routing.wid s) then Routing.Prefill else Routing.Decode.
Proof.
  intros Hd [Hf Hz] Hp. pose proof (refresh_ok n d now Hd) as Hr. rewrite Routing.live_elem by apply Hr. split.
  - intros [Hs Hl]. unfold Routing.is_live in Hl. apply andb_prop in Hl as [[Hro _]%andb_prop _].
    apply bool_decide_eq_true in Hro. rewrite (d_role _ _ Hr _ _ Hs) in Hro.
    pose proof Hs as Hs'. rewrite refresh_lookup in Hs'.
    destruct (Routing.reg_workers (Routing.registry (router d)) !! Routing.wid s) as [s0|] eqn:E; [|done].
    destruct (workers d !! Routing.wid s) as [w|] eqn:Ew.
    + exists w. split; [done|]. split; [by injection Hs' as <-|]. by split.
    + exfalso. destruct (proj1 (d_same _ _ Hd (Routing.wid s)) ltac:(by eexists)). congruence.
  - intros (w & Hw & Hload & Hs & ->). split; [done|]. unfold Routing.is_live.
    rewrite bool_decide_true by by apply (d_role _ _ Hr).
    assert (Routing.healthy s = true) as ->.
    { rewrite refresh_lookup, Hw in Hs. destruct (Routing.reg_workers (Routing.registry (router d)) !! _) as [s0|]; [|done].
      by injection Hs as <-. }
    rewrite Hload. cbn [load_of Routing.updated_ms andb]. rewrite fsub_diag by done.
    rewrite refresh_stale. exact Hp.
Qed.

Definition offset_of (ro : Routing.WorkerRole) : Z := match ro with Routing.Prefill => 0 | Routing.Decode => 1 end.

Lemma refresh_entry n d now (k : nat) (ro : Routing.WorkerRole) : dep_ok n d -> reading now -> patient d -> (k < n)%nat ->
  exists s, s ∈ Routing.live (Routing.registry (router (refresh_load d now))) ro now /\
    Routing.wid s = 2 * Z.of_nat k + offset_of ro /\ exists w, slot w = k /\ Routing.load s = load_of d now w.
Proof.
  intros Hd Hn Hp Hk. destruct (d_all _ _ Hd k Hk) as (w & Hs & H0 & H1).
  set (id := 2 * Z.of_nat k + offset_of ro).
  assert (workers d !! id = Some w) as Hw by (unfold id; destruct ro; cbn [offset_of]; [by rewrite Z.add_0_r|done]).
  destruct (proj2 (d_same _ _ Hd id) ltac:(by eexists)) as [s0 E].
  pose proof (refresh_lookup d now id) as Hl. rewrite E, Hw in Hl.
  match type of Hl with _ = Some ?x => set (s := x) in * end.
  assert (Routing.wid s = id) as Hid by exact (d_reg _ _ Hd _ _ E).
  exists s. split; [|split; [done|by exists w]].
  apply (refresh_live n); [done..|]. rewrite Hid. exists w. split; [done|]. split; [done|]. split; [done|].
  unfold id. by destruct ro; cbn [offset_of]; rewrite Z.even_add, Z.even_mul.
Qed.

#[local] Existing Instance Routing.decode_order_total.

Lemma decode_order_Gt x y : Routing.decode_order x y <> Gt ->
  Routing.kv_utilisation (Routing.load x) = Routing.kv_utilisation (Routing.load y) ->
  total_key (Routing.decode_headroom x) < total_key (Routing.decode_headroom y) \/
  total_key (Routing.decode_headroom x) = total_key (Routing.decode_headroom y) /\ Routing.wid y <= Routing.wid x.
Proof.
  unfold Routing.decode_order, cmp_then, cmp_rev, cmp_on. intros H E. rewrite E, Z.compare_refl in H.
  remember (total_key (Routing.decode_headroom x)) as a eqn:Ea. remember (total_key (Routing.decode_headroom y)) as b eqn:Eb.
  clear Ea Eb. destruct (Z.compare_spec a b) as [->|Hl|Hl]; cbn [then_cmp] in H; [right|by left|done].
  split; [done|]. by apply Z.compare_le_iff.
Qed.

Lemma routed {V : Type} `{!Json V} {T J : Type} `{!Transport T} `{!TransportFactory F T J} n d (req : GenerateRequest J) now :
  dep_ok n d -> (0 < n)%nat -> reading now -> patient d ->
  exists d' w rq, route_request d req now = Some (d', Ok (w, rq)) /\ picked n d (slot w) /\
    d' = set_next_id (refresh_load d now) (u64_wrap (serving_next_id d + 1)) /\
    rq = mkRequest (serving_next_id d) (gen_prompt req) (gen_params req) (gen_arrival_ms req)
           (fadd (gen_arrival_ms req) (ttft_budget_ms d)) None None.
Proof.
  intros Hd Hn Hr Hp. unfold route_request. pose proof (refresh_ok n d now Hd) as Hd'.
  assert (forall ro, Routing.live (Routing.registry (router (refresh_load d now))) ro now <> []) as Hne.
  { intros ro E. destruct (refresh_entry n d now 0 ro Hd Hr Hp Hn) as (s & Hin & _). rewrite E in Hin.
    by apply not_elem_of_nil in Hin. }
  destruct (Routing.route_total (router (refresh_load d now)) (gen_prompt req) now (ttft_budget_ms (refresh_load d now))
    (d_index _ _ Hd') (Hne _) (Hne _)) as (dec & p & dw0 & E & _). rewrite E. cbn [mbind option_bind].
  destruct (Routing.route_decode _ _ _ _ _ E) as (dw & Hmax & Hid). clear p dw0.
  destruct (max_by_spec Routing.decode_order _ _ Hmax) as [Hin Hall]. rewrite Forall_forall in Hall.
  apply (refresh_live n) in Hin as (w & Hw & Hload & _ & Hrole); [|done..].
  rewrite <- Hid. cbn [workers refresh_load set_router]. rewrite Hw. cbn [next_id].
  eexists _, w, _. split; [done|]. split; [|done].
  destruct (d_slot _ _ Hd _ _ Hw) as [Hlt Hwid]. split; [done|]. intros j Hj.
  destruct (refresh_entry n d now j Routing.Decode Hd Hr Hp Hj) as (s & Hs & Hsid & w' & Hw' & Hl').
  specialize (Hall s Hs). apply decode_order_Gt in Hall; [|by rewrite Hload, Hl'].
  unfold Routing.decode_headroom in Hall. rewrite Hload, Hl' in Hall. unfold load_of in Hall.
  cbn [Routing.decode_cap Routing.decode_concurrency] in Hall. rewrite Hw' in Hall.
  destruct Hall as [Hlt'|[Heq Hle]]; [by left|]. right. split; [exact Heq|].
  rewrite Hsid in Hle. cbn [offset_of] in Hle. destruct Hwid as [Hwid|Hwid]; lia.
Qed.

(** ** A fresh deployment *)

Lemma registry_id_exact k offset : Z.of_nat k < 2 ^ 31 -> 0 <= offset <= 1 -> registry_id k offset = 2 * Z.of_nat k + offset.
Proof. intros Hk Ho. unfold registry_id, u32_wrap. rewrite (Z.mod_small (Z.of_nat k)), Z.mod_small by lia. lia. Qed.

Lemma add_worker_ok (connect_to : string -> F) cap tuning tok model budget i (k : nat) endpoint reg ws obs reg' ws' obs' :
  dep_ok k (mkServing (Routing.router_new reg tuning) ws obs tok model budget cap i) -> Z.of_nat k < 2 ^ 31 ->
  (forall j, observe_of obs j = observed_default) ->
  add_worker connect_to cap (reg, ws, obs) (k, endpoint) = (reg', ws', obs') ->
  dep_ok (S k) (mkServing (Routing.router_new reg' tuning) ws' obs' tok model budget cap i) /\
  (forall j, observe_of obs' j = observed_default) /\ Routing.stale_after_ms reg' = Routing.stale_after_ms reg.
Proof.
  intros [H1 H2 H3 H4 H5 H6] Hk Ho Hadd. unfold add_worker in Hadd. rewrite !registry_id_exact in Hadd by lia.
  rewrite Z.add_0_r in Hadd. injection Hadd as <- <- <-. split; [|split; [|done]].
  2: { intros j. unfold observe_of. destruct (decide (j = k)) as [->|Hne]; [by rewrite lookup_insert_eq|].
       rewrite lookup_insert_ne by done. apply Ho. }
  set (p := 2 * Z.of_nat k) in *. cbn [router workers Routing.router_new Routing.registry] in *. split; cbn [router workers].
  - by repeat apply Routing.register_inv.
  - exact H2.
  - intros id w Hw. destruct (decide (id = p + 1)) as [->|N1]; [rewrite lookup_insert_eq in Hw; injection Hw as <-; cbn; unfold p; lia|].
    rewrite lookup_insert_ne in Hw by done.
    destruct (decide (id = p)) as [->|N2]; [rewrite lookup_insert_eq in Hw; injection Hw as <-; cbn; unfold p; lia|].
    rewrite lookup_insert_ne in Hw by done. destruct (H3 id w Hw). split; [lia|done].
  - intros j Hj. destruct (decide (j = k)) as [->|Hne].
    + exists (serving_worker_new connect_to k endpoint). split; [done|]. fold p. split; [|by rewrite lookup_insert_eq].
      by rewrite lookup_insert_ne, lookup_insert_eq by lia.
    + destruct (H4 j ltac:(lia)) as (w & Hs & Hw0 & Hw1). exists w. split; [done|].
      by rewrite !lookup_insert_ne by (unfold p; lia).
  - intros id. unfold Routing.register. cbn [Routing.router_new Routing.registry Routing.reg_workers Routing.wid worker_state].
    destruct (decide (id = p + 1)) as [->|N1]; [rewrite !lookup_insert_eq; split; by eexists|].
    rewrite !(lookup_insert_ne _ (p + 1)) by done.
    destruct (decide (id = p)) as [->|N2]; [rewrite !lookup_insert_eq; split; by eexists|].
    rewrite !lookup_insert_ne by done. apply H5.
  - intros id s. unfold Routing.register. cbn [Routing.router_new Routing.registry Routing.reg_workers Routing.wid worker_state].
    destruct (decide (id = p + 1)) as [->|N1].
    { rewrite lookup_insert_eq. intros [= <-]. unfold p. cbn [Routing.role]. by rewrite Z.even_add, Z.even_mul. }
    rewrite lookup_insert_ne by done.
    destruct (decide (id = p)) as [->|N2]; [|rewrite lookup_insert_ne by done; apply H6].
    rewrite lookup_insert_eq. intros [= <-]. unfold p. cbn [Routing.role]. by rewrite Z.even_mul.
Qed.

Lemma add_workers_ok (connect_to : string -> F) cap tuning tok model budget i endpoints : forall k reg ws obs,
  dep_ok k (mkServing (Routing.router_new reg tuning) ws obs tok model budget cap i) ->
  Z.of_nat (k + length endpoints) <= 2 ^ 31 -> (forall j, observe_of obs j = observed_default) ->
  let '(reg', ws', obs') := foldl (add_worker connect_to cap) (reg, ws, obs) (imap (fun j e => ((k + j)%nat, e)) endpoints) in
  dep_ok (k + length endpoints) (mkServing (Routing.router_new reg' tuning) ws' obs' tok model budget cap i) /\
  (forall j, observe_of obs' j = observed_default) /\ Routing.stale_after_ms reg' = Routing.stale_after_ms reg.
Proof.
  induction endpoints as [|e l IH]; intros k reg ws obs Hd Hk Ho; [by rewrite Nat.add_0_r|].
  cbn [imap foldl length] in *. rewrite Nat.add_0_r.
  destruct (add_worker connect_to cap (reg, ws, obs) (k, e)) as [[reg1 ws1] obs1] eqn:E.
  destruct (add_worker_ok _ _ _ _ _ _ _ _ _ _ _ _ _ _ _ Hd ltac:(lia) Ho E) as (Hd1 & Ho1 & Hs1).
  specialize (IH (S k) reg1 ws1 obs1 Hd1 ltac:(lia) Ho1).
  erewrite imap_ext; [|intros j x _; cbn; rewrite <- Nat.add_succ_comm; reflexivity].
  destruct (foldl _ _ _) as [[reg2 ws2] obs2]. destruct IH as (IH1 & IH2 & IH3).
  rewrite <- Nat.add_succ_comm. split; [done|]. split; [done|]. congruence.
Qed.

Lemma aggregated_ok (connect_to : string -> F) endpoints model tok tuning budget cap stale d :
  aggregated connect_to endpoints model tok tuning budget cap stale = Ok d ->
  Z.of_nat (length endpoints) <= 2 ^ 31 ->
  dep_ok (length endpoints) d /\ (0 < length endpoints)%nat /\ decode_cap_hint d = cap /\
  Routing.stale_after_ms (Routing.registry (router d)) = stale /\ forall j, observe_of (observed d) j = observed_default.
Proof.
  unfold aggregated. destruct endpoints as [|e l]; [done|]. intros H Hn.
  pose proof (add_workers_ok connect_to cap tuning tok model budget 0 (e :: l) 0 (Routing.registry_new stale) ∅ ∅) as Ha.
  assert (imap (fun j e => ((0 + j)%nat, e)) (e :: l) = imap pair (e :: l)) as Ei by done. rewrite Ei in Ha.
  destruct (foldl _ _ _) as [[reg ws] obs]. injection H as <-.
  destruct Ha as (H1 & H2 & H3); [|done|done|].
  - split; cbn [router workers Routing.router_new Routing.registry Routing.prefix_index Routing.registry_new Routing.reg_workers].
    + intros id w Hw. cbn in Hw. by rewrite lookup_empty in Hw.
    + apply Trie.radix_new_inv.
    + intros id w Hw. by rewrite lookup_empty in Hw.
    + intros k Hk. lia.
    + intros id. by rewrite !lookup_empty.
    + intros id s Hs. by rewrite lookup_empty in Hs.
  - split; [done|]. split; [cbn; lia|]. split; [done|]. split; [exact H3|done].
Qed.
End registry.

(** ** Tasks *)

Section tasks.
Context {F K V : Type} `{!Json V} (trim : list Z -> list Z) {T J : Type}.
Context `{!Transport T} `{!TransportFactory F T J}.

Definition on_slot (k : nat) (t : Task T) : Z := Z.b2z (bool_decide (tk_slot t = k)).
Definition streams_on (k : nat) (s : System F K T J) : Z := zsum (on_slot k) (tasks s).

Lemma on_slot_range k t : 0 <= on_slot k t <= 1.
Proof. unfold on_slot. destruct (bool_decide _); cbn; lia. Qed.

Lemma on_slot_eq k t : tk_slot t = k -> on_slot k t = 1.
Proof. intros H. unfold on_slot. by rewrite bool_decide_true. Qed.
Lemma on_slot_ne k t : tk_slot t <> k -> on_slot k t = 0.
Proof. intros H. unfold on_slot. by rewrite bool_decide_false. Qed.

Record task_ok (t : Task T) : Prop := {
  t_open : tk_open t = true -> Forall (fun c => is_token c = true) (tk_sent t) /\ terminal (tk_stream t) = false;
  t_shape : stream_shape (tk_sent t)
}.

Lemma tokens_shape cs : Forall (fun c => is_token c = true) cs -> stream_shape cs.
Proof. exists cs, []. rewrite app_nil_r. split; [done|]. split; [done|by left]. Qed.

Lemma closing_shape cs c : Forall (fun c => is_token c = true) cs -> is_token c = false -> stream_shape (cs ++ [c]).
Proof. exists cs, [c]. split; [done|]. split; [done|]. right. by exists c. Qed.

Lemma observe_insert (o : gmap nat Observed) k j e :
  observe_of (<[k := e]> o) j = if decide (j = k) then e else observe_of o j.
Proof.
  unfold observe_of. destruct (decide (j = k)) as [->|Hne]; [by rewrite lookup_insert_eq|by rewrite lookup_insert_ne].
Qed.

(** A live stream never answers that there is nothing: it fails instead. *)
Lemma next_live (st : RequestStream T) at_ : terminal st = false ->
  match next_at trim st at_ with
  | (st', Ready (Ok (Some (Token _ _)))) => terminal st' = false
  | (_, Ready (Ok None)) => False
  | _ => True
  end.
Proof.
  intros H. unfold next_at. rewrite H. destruct (t_next (transport st)) as [u [|[[ev|]|e]]]; [done| |done..].
  by destruct (decode_event trim ev) as [[tok txt|r]|e].
Qed.

Lemma turn_spec o t at_ listening o' t' : turn trim o t at_ listening = Ready (o', t') -> tk_open t = true -> task_ok t ->
  (forall k, inflight (observe_of o' k) = inflight (observe_of o k)) /\ tk_slot t' = tk_slot t /\ task_ok t' /\
  (listening = true -> tk_open t' = false -> exists c, tk_sent t' = tk_sent t ++ [c] /\ is_token c = false).
Proof.
  unfold turn. intros E Ho [H1 _]. destruct (H1 Ho) as [Htok Hterm]. pose proof (next_live (tk_stream t) at_ Hterm) as Hn.
  destruct (next_at trim (tk_stream t) at_) as [st [|[[[tok txt|reason]|]|e]]]; [done| | |done|].
  - assert (forall k, inflight (observe_of (match tk_last t with Some prev => note_gap o (tk_slot t) (fsub at_ prev) | None => o end) k)
      = inflight (observe_of o k)) as Hc.
    { intros k. destruct (tk_last t); [|done]. unfold note_gap. rewrite observe_insert.
      by destruct (decide (k = tk_slot t)) as [->|]. }
    destruct listening; injection E as <- <-; (split; [exact Hc|]); (split; [done|]); (split; [|done]); split; cbn; intros.
    + split; [|done]. apply Forall_app. split; [done|]. by constructor.
    + apply tokens_shape, Forall_app. split; [done|]. by constructor.
    + done.
    + by apply tokens_shape.
  - injection E as <- <-. split; [done|]. split; [done|].
    destruct listening; (split; [split; cbn; [done|]|]).
    + by apply closing_shape.
    + intros _ _. by eexists.
    + rewrite app_nil_r. by apply tokens_shape.
    + done.
  - injection E as <- <-. split; [done|]. split; [done|].
    destruct listening; (split; [split; cbn; [done|]|]).
    + by apply closing_shape.
    + intros _ _. by eexists.
    + rewrite app_nil_r. by apply tokens_shape.
    + done.
Qed.

Lemma leave_spec o t o' t' : leave o t = (o', t') ->
  (forall k, inflight (observe_of o' k) = if decide (k = tk_slot t) then sat_sub (inflight (observe_of o k)) 1
                                         else inflight (observe_of o k)) /\
  tk_sent t' = tk_sent t /\ cleaned_up (tk_stream t') = true.
Proof.
  intros [= <- <-]. split; [|split; [done|]].
  - intros k. unfold count_down. rewrite observe_insert. by destruct (decide (k = tk_slot t)) as [->|].
  - cbn. unfold drop_stream, cleanup. destruct (cleaned_up (tk_stream t)) eqn:E; [done|].
    by destruct (t_cancel (transport (tk_stream t))).
Qed.

Lemma open_spec (d : ServingDeployment F K) w (rq : Request J) d' t :
  open_request d w rq = Ready (d', Ok t) ->
  d' = set_observed d (count_up (observed d) (slot w)) /\ tk_slot t = slot w /\ task_ok t /\ tk_open t = true /\
  tk_sent t = [].
Proof.
  unfold open_request. destruct (adapter_start (adapter w) rq) as [|[st|e]] eqn:E; [done| |done]. intros [= <- <-].
  split; [done|]. split; [done|]. split; [|done]. unfold adapter_start in E.
  destruct (f_open (adapter w)) as [u|]; [|done].
  destruct (t_send (adapter w) u (from_request rq)) as [u' [|[[]|]]]; [done| |done].
  injection E as <-. split; cbn; [|by apply tokens_shape]. intros _. by split.
Qed.

Lemma open_refused (d : ServingDeployment F K) w (rq : Request J) d' e :
  open_request d w rq = Ready (d', Err e) -> d' = d /\ e = EngineError.
Proof. unfold open_request. destruct (adapter_start _ _) as [|[]]; [done..|]. by intros [= <- <-]. Qed.

(** ** The system's invariant *)

Record sys_ok (n : nat) (cap stale : f64) (s : System F K T J) : Prop := {
  so_dep : dep_ok n (dep s);
  so_cap : decode_cap_hint (dep s) = cap;
  so_stale : Routing.stale_after_ms (Routing.registry (router (dep s))) = stale;
  so_count : forall k, inflight (observe_of (observed (dep s)) k) = streams_on k s;
  so_tasks : Forall task_ok (tasks s);
  so_left : Forall (fun t => stream_shape (tk_sent t) /\ cleaned_up (tk_stream t) = true) (left s)
}.

Lemma streams_bound k s : 0 <= streams_on k s <= Z.of_nat (length (tasks s)).
Proof.
  unfold streams_on. induction (tasks s) as [|t l IH]; [cbn; lia|]. rewrite zsum_cons. pose proof (on_slot_range k t).
  cbn [length]. lia.
Qed.

Lemma routed_dep n cap stale s (d : ServingDeployment F K) (req : GenerateRequest J) now r : sys_ok n cap stale s ->
  route_request (dep s) req now = Some (d, r) ->
  dep_ok n d /\ decode_cap_hint d = cap /\ Routing.stale_after_ms (Routing.registry (router d)) = stale /\
  observed d = observed (dep s).
Proof.
  intros [H1 H2 H3 _ _ _] E. unfold route_request in E.
  destruct (Routing.route _ _ _ _) as [[dec|e]|]; cbn [mbind option_bind] in E; [| |done].
  - destruct (workers _ !! _) as [w|]; cbn [next_id] in E; injection E as <- <-.
    + split; [by apply set_next_id_ok, refresh_ok|]. split; [done|]. split; [|done]. cbn [router set_next_id]. by rewrite refresh_stale.
    + split; [by apply refresh_ok|]. split; [done|]. split; [|done]. by rewrite refresh_stale.
  - injection E as <- <-. split; [by apply refresh_ok|]. split; [done|]. split; [|done]. by rewrite refresh_stale.
Qed.

Lemma step_ok n cap stale s s' : sys_ok n cap stale s -> step trim s s' -> Z.of_nat (length (tasks s')) <= u32_max ->
  sys_ok n cap stale s'.
Proof.
  intros Hs Hstep Hlen. pose proof Hs as [H1 H2 H3 H4 H5 H6]. destruct Hstep as
    [s req now d w rq E|s req now d e E|s i w rq d t E Eo|s i w rq d e E Eo|s i t at_ l o t' E Ho Et|s i t o t' E Ho El].
  - destruct (routed_dep _ _ _ _ _ _ _ _ Hs E) as (E1 & E2 & E3 & E4). split; try done. intros k. cbn [dep]. rewrite E4. apply H4.
  - destruct (routed_dep _ _ _ _ _ _ _ _ Hs E) as (E1 & E2 & E3 & E4). split; try done. intros k. cbn [dep]. rewrite E4. apply H4.
  - destruct (open_spec _ _ _ _ _ Eo) as (-> & Hslot & Ht & _). split; try done; [by apply set_observed_ok| |].
    + intros k. cbn [dep observed set_observed tasks]. unfold count_up. rewrite observe_insert. unfold streams_on. cbn [tasks].
      rewrite zsum_app, zsum_cons. cbn [zsum foldr].
      pose proof (streams_bound (slot w) s) as Hb. cbn [tasks] in Hlen. rewrite length_app in Hlen. cbn [length] in Hlen.
      destruct (decide (k = slot w)) as [->|Hne]; cbn [inflight].
      * rewrite on_slot_eq, H4 by done. unfold u32_wrap, u32_max, streams_on in *.
        rewrite Z.mod_small by lia. lia.
      * rewrite on_slot_ne, H4 by congruence. unfold streams_on. lia.
    + apply Forall_app. split; [done|]. by constructor.
  - destruct (open_refused _ _ _ _ _ Eo) as [-> _]. by split.
  - assert (task_ok t) as Ht by (eapply Forall_lookup_1; [exact H5|exact E]).
    destruct (turn_spec _ _ _ _ _ _ Et Ho Ht) as (Hc & Hslot & Ht' & _). split; try done; [by apply set_observed_ok| |].
    + intros k. cbn [dep observed set_observed]. rewrite Hc, H4. unfold streams_on. cbn [tasks].
      rewrite (zsum_insert _ _ _ _ _ E). unfold on_slot. rewrite Hslot. lia.
    + by apply Forall_insert.
  - destruct (leave_spec _ _ _ _ El) as (Hc & Hsent & Hclean). split; try done; [by apply set_observed_ok| | |].
    + intros k. cbn [dep observed set_observed]. rewrite Hc, H4. unfold streams_on. cbn [tasks].
      rewrite (zsum_remove _ _ _ _ E).
      assert (on_slot k t <= zsum (on_slot k) (tasks s)) as Hle.
      { apply zsum_elem; [intros; apply on_slot_range|by eapply list_elem_of_lookup_2]. }
      destruct (decide (k = tk_slot t)) as [->|Hne].
      * rewrite on_slot_eq in * by done. unfold sat_sub. lia.
      * rewrite on_slot_ne by congruence. lia.
    + by apply Forall_remove.
    + apply Forall_app. split; [done|]. constructor; [|done]. rewrite Hsent. split; [|done].
      eapply Forall_lookup_1 in H5; [|exact E]. apply H5.
Qed.

Lemma reach_ok n cap stale s0 s : sys_ok n cap stale s0 -> reach trim s0 s -> sys_ok n cap stale s.
Proof. intros H. induction 1 as [|s s' _ IH Hstep Hlen]; [done|by eapply step_ok]. Qed.

Lemma system_new_ok connect_to endpoints model (tok : K) tuning budget cap stale (d : ServingDeployment F K) :
  aggregated connect_to endpoints model tok tuning budget cap stale = Ok d -> Z.of_nat (length endpoints) <= 2 ^ 31 ->
  sys_ok (length endpoints) cap stale (system_new d).
Proof.
  intros H Hn. destruct (aggregated_ok _ _ _ _ _ _ _ _ _ H Hn) as (H1 & _ & H2 & H3 & H4).
  split; try done. intros k. cbn [dep system_new]. by rewrite H4.
Qed.

(** ** What the steps of others keep *)

(** The deployment's shape, its workers and its staleness bound stay. *)
Record keeps (d d' : ServingDeployment F K) : Prop := {
  k_dep : forall n, dep_ok n d -> dep_ok n d';
  k_stale : Routing.stale_after_ms (Routing.registry (router d')) = Routing.stale_after_ms (Routing.registry (router d));
  k_workers : workers d' = workers d
}.

#[export] Instance keeps_preorder : PreOrder keeps.
Proof.
  split; [by split|]. intros d1 d2 d3 [H1 H2 H3] [H4 H5 H6]. split; [by auto|congruence..].
Qed.

Lemma keeps_observed d o : keeps d (set_observed d o).
Proof. split; [|done..]. intros n. apply set_observed_ok. Qed.

Lemma keeps_refresh d now : keeps d (refresh_load d now).
Proof. split; [intros n; apply refresh_ok|apply refresh_stale|done]. Qed.

Lemma keeps_next_id d i : keeps d (set_next_id d i).
Proof. split; [|done..]. intros n. apply set_next_id_ok. Qed.

Lemma route_keeps (d : ServingDeployment F K) (req : GenerateRequest J) now d' r :
  route_request d req now = Some (d', r) -> keeps d d'.
Proof.
  unfold route_request. destruct (Routing.route _ _ _ _) as [[dec|e]|]; cbn [mbind option_bind]; [| |done].
  - destruct (workers _ !! _) as [w|]; cbn [next_id]; intros [= <- _].
    + etrans; [apply (keeps_refresh _ now)|apply keeps_next_id].
    + apply keeps_refresh.
  - intros [= <- _]. apply keeps_refresh.
Qed.

Lemma open_keeps (d : ServingDeployment F K) w (rq : Request J) d' r :
  open_request d w rq = Ready (d', r) -> keeps d d'.
Proof.
  destruct r as [t|e]; intros E.
  - destruct (open_spec _ _ _ _ _ E) as (-> & _). apply keeps_observed.
  - by destruct (open_refused _ _ _ _ _ E) as [-> _].
Qed.

Lemma step_keeps (s s' : System F K T J) : step trim s s' -> keeps (dep s) (dep s').
Proof.
  destruct 1 as
    [s req now d w rq E|s req now d e E|s i w rq d t E Eo|s i w rq d e E Eo|s i t at_ l o t' E Ho Et|s i t o t' E Ho El];
    cbn [dep]; first [by eapply route_keeps|by eapply open_keeps|apply keeps_observed].
Qed.

Lemma steps_keep (s s' : System F K T J) : rtc (step trim) s s' -> keeps (dep s) (dep s').
Proof. induction 1 as [|s1 s2 s3 Hs _ IH]; [done|]. etrans; [by eapply step_keeps|done]. Qed.

(** ** Forwarding to the end *)

(** The task's loop, with a client that reads to the end; [clock] gives its
    readings, and [others] is what the rest of the system does while it waits.
    The result is [Pending] if a wait is not answered. *)
Fixpoint forward (fuel : nat) (s : System F K T J) (t : Task T) (clock : nat -> f64)
    (others : nat -> System F K T J -> System F K T J) (i : nat) : option (Awaited (System F K T J * Task T)) :=
  match fuel with
  | O => None
  | S fuel' =>
      let s := others i s in
      match turn trim (observed (dep s)) t (clock i) true with
      | Pending => Some Pending
      | Ready (o, t') =>
          let s := set_dep s (set_observed (dep s) o) in
          if tk_open t' then forward fuel' s t' clock others (S i)
          else
            let s := others (S i) s in
            let '(o, t'') := leave (observed (dep s)) t' in
            Some (Ready (mkSystem (set_observed (dep s) o) (starting s) (tasks s) (left s ++ [t'']), t''))
      end
  end.

(** While [P] holds a transport answers, and every event spends some of
    [size]. *)
Definition progresses (P : T -> Prop) (size : T -> nat) : Prop :=
  forall u, P u -> exists u' r, t_next u = (u', r) /\ is_ready r = true /\
    (is_event r = true -> P u' /\ (size u' < size u)%nat).

Lemma turn_progresses P size o t at_ : progresses P size -> P (transport (tk_stream t)) ->
  exists o' t', turn trim o t at_ true = Ready (o', t') /\
    (terminal (tk_stream t) = false -> tk_open t' = true ->
     P (transport (tk_stream t')) /\ (size (transport (tk_stream t')) < size (transport (tk_stream t)))%nat).
Proof.
  intros Hs HP. unfold turn, next_at. destruct (terminal (tk_stream t)); [by eexists _, _|].
  destruct (Hs _ HP) as (u & r & -> & Hr & Hev).
  destruct r as [|[[ev|]|e]]; [done| |by eexists _, _..]. destruct (Hev eq_refl) as [H1 H2].
  destruct (decode_event trim ev) as [[tok txt|rs]|e]; by eexists _, _.
Qed.

Lemma turn_token o t at_ o' t' : turn trim o t at_ true = Ready (o', t') -> tk_open t' = true ->
  exists c, is_token c = true /\ tk_sent t' = tk_sent t ++ [c].
Proof.
  unfold turn. destruct (next_at trim (tk_stream t) at_) as [st [|[[[tok txt|r]|]|e]]]; intros [= <- <-]; try done.
  by exists (CToken tok txt).
Qed.

Context (others : nat -> System F K T J -> System F K T J).

(** What comes of the loop, if anything does. *)
Lemma forward_shape fuel : forall s t clock i s' t',
  forward fuel s t clock others i = Some (Ready (s', t')) -> tk_open t = true -> task_ok t ->
  cleaned_up (tk_stream t') = true /\
  exists toks c, tk_sent t' = tk_sent t ++ toks ++ [c] /\ Forall (fun c => is_token c = true) toks /\ is_token c = false.
Proof.
  induction fuel as [|fuel IH]; intros s t clock i s' t' E Ho Ht; [done|]. cbn [forward] in E.
  destruct (turn trim (observed (dep (others i s))) t (clock i) true) as [|[o1 t1]] eqn:Et; [done|].
  destruct (turn_spec _ _ _ _ _ _ Et Ho Ht) as (_ & _ & Ht1 & Hend). destruct (tk_open t1) eqn:Ho1.
  - destruct (IH _ _ _ _ _ _ E Ho1 Ht1) as (Hclean & toks & c & Hsent & Htoks & Hc).
    destruct (turn_token _ _ _ _ _ Et Ho1) as (x & Hx & Hx1). split; [done|].
    exists (x :: toks), c. rewrite Hsent, Hx1, <- app_assoc. split; [done|]. split; [by constructor|done].
  - destruct (Hend eq_refl eq_refl) as (c & Hsent & Hc).
    destruct (leave _ t1) as [o t2] eqn:El. destruct (leave_spec _ _ _ _ El) as (_ & Hsent' & Hclean).
    injection E as <- <-. split; [done|]. exists [], c. by rewrite Hsent', Hsent.
Qed.

Lemma forward_keeps fuel : (forall i s, rtc (step trim) s (others i s)) -> forall s t clock i s' t',
  forward fuel s t clock others i = Some (Ready (s', t')) -> keeps (dep s) (dep s').
Proof.
  intros Hothers. induction fuel as [|fuel IH]; intros s t clock i s' t' E; [done|]. cbn [forward] in E.
  pose proof (steps_keep _ _ (Hothers i s)) as K1.
  destruct (turn trim (observed (dep (others i s))) t (clock i) true) as [|[o1 t1]]; [done|].
  pose proof (keeps_observed (dep (others i s)) o1) as K2.
  set (s1 := set_dep (others i s) (set_observed (dep (others i s)) o1)) in *.
  assert (keeps (dep s) (dep s1)) as K3 by (etrans; [exact K1|exact K2]). etrans; [exact K3|].
  destruct (tk_open t1); [by eapply IH|].
  etrans; [exact (steps_keep _ _ (Hothers (S i) s1))|]. injection E as <- _. apply keeps_observed.
Qed.

Lemma forward_ends P size fuel : progresses P size -> forall s t clock i,
  (size (transport (tk_stream t)) < fuel)%nat -> P (transport (tk_stream t)) -> tk_open t = true -> task_ok t ->
  exists s' t', forward fuel s t clock others i = Some (Ready (s', t')).
Proof.
  intros Hs. induction fuel as [|fuel IH]; intros s t clock i Hf HP Ho Ht; [lia|]. cbn [forward].
  destruct (turn_progresses P size (observed (dep (others i s))) t (clock i) Hs HP) as (o1 & t1 & E & Hnext). rewrite E.
  destruct (turn_spec _ _ _ _ _ _ E Ho Ht) as (_ & _ & Ht1 & _). destruct (tk_open t1) eqn:Ho1.
  - destruct (Hnext ltac:(by apply (t_open _ Ht)) eq_refl) as [HP1 Hlt]. apply IH; [lia|done..].
  - by eexists _, _.
Qed.
End tasks.

(** ** A request among others, over HTTP *)

Section host.
Context {K V J : Type} `{!Json V} (trim : list Z -> list Z) {tok_K : Tokens.Tokenizer K}.

Local Abbreviation system_of := (System (HttpTransportFactory J) K HttpConnection J).

(** The deployment with the requests and tasks it is busy with, as the request
    at hand finds them; [clock] gives its readings, and [others] says what the
    rest of the system does while it waits. *)
Record Host := mkHost {
  system : system_of;
  clock : nat -> f64;
  others : nat -> system_of -> system_of
}.

Definition serving (b : Host) : ServingDeployment (HttpTransportFactory J) K := dep (system b).
Definition set_system (b : Host) (s : system_of) : Host := mkHost s (clock b) (others b).

Definition connection_size (u : HttpConnection) : nat := transport_size u.2.

(** [generate], and the task it spawns, to the last chunk: [None] is a panic,
    [Pending] a wait that is not answered. *)
Definition generate_among (b : Host) (req : GenerateRequest J)
    : option (Awaited (Host * result Error (list StreamChunk))) :=
  '(d, r) ← route_request (serving b) req (clock b 0);
  match r with
  | Err e => Some (Ready (set_system b (set_dep (system b) d), Err e))
  | Ok (w, rq) =>
      let s := others b 0%nat (set_dep (system b) d) in
      match open_request (T := HttpConnection) (dep s) w rq with
      | Pending => Some Pending
      | Ready (d, Err e) => Some (Ready (set_system b (set_dep s d), Err e))
      | Ready (d, Ok t) =>
          sent ← forward trim (S (connection_size (transport (tk_stream t)))) (set_dep s d) t (clock b) (others b) 1;
          Some match sent with
               | Pending => Pending
               | Ready (s, t') => Ready (set_system b s, Ok (tk_sent t'))
               end
      end
  end.

#[export] Instance serving_completions : Completions Host J := {
  generate b req :=
    match generate_among b req with Some (Ready answer) => Some answer | Some Pending | None => None end;
  model_name b := served_model (serving b);
  encode b := Tokens.encode (tokenizer (serving b))
}.

(** Connections whose response comes to an end. *)
Lemma http_progresses : progresses (fun u : HttpConnection => body_ends u.2) connection_size.
Proof.
  intros u Hu. cbn [t_next http_transport]. destruct (http_next_spec u) as (u' & r & -> & H1 & H2).
  destruct (H2 Hu) as [Hr Hev]. exists u', r. split; [done|]. split; [done|]. intros He. split; [by apply Hev|by apply H1].
Qed.

(** The rest of the system takes its own steps, however many. *)
Definition others_ok (b : Host) : Prop := forall i s, rtc (step trim) s (others b i s).

Lemma generate_sent b req b' cs : generate_among b req = Some (Ready (b', Ok cs)) ->
  exists toks c, cs = toks ++ [c] /\ Forall (fun c => is_token c = true) toks /\ is_token c = false.
Proof.
  unfold generate_among. destruct (route_request _ _ _) as [[d [[w rq]|e]]|]; cbn [mbind option_bind]; [|done..].
  destruct (open_request _ w rq) as [|[d' [t|e]]] eqn:Eo; [done| |done].
  destruct (open_spec _ _ _ _ _ Eo) as (_ & _ & Ht & Hop & Hnil).
  destruct (forward _ _ _ _ _ _ _) as [[|[s' t']]|] eqn:Ef; cbn [mbind option_bind]; [done| |done]. intros [= <- <-].
  destruct (forward_shape trim (others b) _ _ _ _ _ _ _ Ef Hop Ht) as (_ & toks & c & Hsent & Htoks & Hc).
  exists toks, c. by rewrite Hsent, Hnil.
Qed.

Lemma generate_keeps b req b' r : others_ok b -> generate_among b req = Some (Ready (b', r)) ->
  keeps (serving b) (serving b') /\ clock b' = clock b /\ others b' = others b.
Proof.
  intros Hb. unfold generate_among. destruct (route_request _ _ _) as [[d [[w rq]|e]]|] eqn:Er; cbn [mbind option_bind]; [| |done].
  - pose proof (route_keeps _ _ _ _ _ Er) as K1.
    pose proof (steps_keep trim _ _ (Hb 0%nat (set_dep (system b) d))) as K2. cbn [dep set_dep] in K2.
    destruct (open_request _ w rq) as [|[d' [t|e]]] eqn:Eo; [done|..]; pose proof (open_keeps _ _ _ _ _ Eo) as K3.
    + destruct (forward _ _ _ _ _ _ _) as [[|[s' t']]|] eqn:Ef; cbn [mbind option_bind]; [done| |done]. intros [= <- _].
      split; [|done]. pose proof (forward_keeps trim (others b) _ Hb _ _ _ _ _ _ Ef) as K4.
      etrans; [exact K1|]. etrans; [exact K2|]. etrans; [exact K3|exact K4].
    + intros [= <- _]. split; [|done]. etrans; [exact K1|]. etrans; [exact K2|exact K3].
  - intros [= <- _]. split; [|done]. by eapply route_keeps.
Qed.

#[export] Instance serving_completions_ok : CompletionsOk Host J.
Proof.
  split. intros b r b' cs. cbn [generate serving_completions].
  destruct (generate_among b r) as [[|x]|] eqn:E; [done| |done]. intros [= ->].
  destruct (generate_sent _ _ _ _ E) as (toks & c & -> & Htoks & Hc). by apply closing_shape.
Qed.
End host.

(** ** Room in whole numbers *)

Lemma headroom_whole {F K} (d : ServingDeployment F K) m k : decode_cap_hint d = of_Z m -> 0 <= m <= 2 ^ 53 ->
  0 <= inflight (observe_of (observed d) k) <= 2 ^ 53 ->
  headroom d k = of_Z (Z.max 0 (m - inflight (observe_of (observed d) k))).
Proof.
  intros Hm Hr Hk. unfold headroom. rewrite Hm, fsub_of_Z by (unfold small; lia).
  set (x := m - inflight (observe_of (observed d) k)).
  assert (small x) as Hx by (unfold small, x; lia).
  change f0 with (of_Z 0). unfold fmax. rewrite !of_Z_not_nan.
  change (flt (of_Z x) (of_Z 0)) with (fgt (of_Z 0) (of_Z x)). rewrite fgt_of_Z by (done || unfold small; lia).
  destruct (Z.ltb_spec x 0); f_equal; lia.
Qed.

(** ** Theorems *)

Section theorems.
Context {F K V : Type} `{!Json V} (trim : list Z -> list Z) {T J : Type}.
Context `{!Transport T} `{!TransportFactory F T J}.
Context (connect_to : string -> F) (endpoints : list string) (model : list Z) (tok : K) (tuning : Routing.RouterTuning).
Context (budget cap stale : f64).

Local Abbreviation fresh d := (aggregated connect_to endpoints model tok tuning budget cap stale = Ok d).
Local Abbreviation few := (Z.of_nat (length endpoints) <= 2 ^ 31).

(** C16. The load the router is given is the truth.  However requests, tasks and
    hang-ups interleave, the count kept for a process is the number of streams
    open to it, and both registry entries of the process get that count. *)
Theorem load_counts_streams (d : ServingDeployment F K) (s : System F K T J) (now : f64) (k : nat) :
  fresh d -> few -> reach trim (system_new d) s ->
  inflight (observe_of (observed (dep s)) k) = streams_on k s /\
  ((k < length endpoints)%nat -> reading now -> fle f0 stale = true ->
   forall ro, exists w, w ∈ Routing.live (Routing.registry (router (refresh_load (dep s) now))) ro now /\
     Routing.wid w = 2 * Z.of_nat k + offset_of ro /\
     Routing.decode_concurrency (Routing.load w) = streams_on k s /\
     Routing.queue_depth (Routing.load w) = streams_on k s).
Proof.
  intros Hd Hn Hr. pose proof (reach_ok _ _ _ _ _ _ (system_new_ok _ _ _ _ _ _ _ _ _ Hd Hn) Hr) as [H1 _ H3 H4 _ _].
  split; [apply H4|]. intros Hk Hnow Hs ro.
  destruct (refresh_entry _ _ now k ro H1 Hnow ltac:(by unfold patient; rewrite H3) Hk) as (w & Hw & Hid & w' & Hslot & Hl).
  exists w. split; [done|]. split; [done|]. rewrite Hl. unfold load_of. cbn. by rewrite Hslot, H4.
Qed.

(** C15. Every request is routed, to the process with the most room under the cap,
    the first of them if there are several; room is the cap less the streams
    open, and never negative. *)
Theorem routes_to_most_room (d : ServingDeployment F K) (s : System F K T J) (now : f64) (req : GenerateRequest J) (m : Z) :
  fresh d -> few -> reach trim (system_new d) s -> reading now -> fle f0 stale = true -> cap = of_Z m -> 0 <= m <= 2 ^ 53 ->
  (forall k, streams_on k s <= 2 ^ 53) ->
  let room k := Z.max 0 (m - streams_on k s) in
  exists d' w rq, route_request (dep s) req now = Some (d', Ok (w, rq)) /\ (slot w < length endpoints)%nat /\
    forall k, (k < length endpoints)%nat -> room k < room (slot w) \/ room k = room (slot w) /\ (slot w <= k)%nat.
Proof.
  intros Hd Hn Hr Hnow Hs Hm Hb Hk room. destruct (aggregated_ok _ _ _ _ _ _ _ _ _ Hd Hn) as (_ & Hpos & _).
  pose proof (reach_ok _ _ _ _ _ _ (system_new_ok _ _ _ _ _ _ _ _ _ Hd Hn) Hr) as [H1 H2 H3 H4 _ _].
  destruct (routed (T := T) _ _ req now H1 Hpos Hnow ltac:(by unfold patient; rewrite H3)) as (d' & w & rq & E & [Hlt Hp] & _).
  exists d', w, rq. split; [done|]. split; [done|]. intros k Hkn. specialize (Hp k Hkn).
  assert (forall j, headroom (dep s) j = of_Z (room j) /\ small (room j)) as Hh.
  { intros j. pose proof (streams_bound j s). pose proof (Hk j). unfold room, small. split; [|lia].
    rewrite (headroom_whole _ m) by (rewrite ?H2, ?H4; (done || lia)). by rewrite H4. }
  destruct (Hh k) as [Ek Sk], (Hh (slot w)) as [Ew Sw]. rewrite Ek, Ew in Hp.
  pose proof (total_cmp_of_Z _ _ Sk Sw) as Hc. unfold total_cmp, cmp_on in Hc.
  destruct Hp as [Hp|[Hp Hle]]; [left; apply Z.compare_lt_iff in Hp; rewrite Hp in Hc|right; split; [|done]; rewrite Hp, Z.compare_refl in Hc].
  - by apply Z.compare_lt_iff.
  - symmetry in Hc. by apply Z.compare_eq in Hc.
Qed.

(** A process that refuses the connection keeps the room that drew the request:
    unless something else happens in between, the next request goes to it
    again. *)
Theorem refusing_process_is_chosen_again (d : ServingDeployment F K) (s : System F K T J) (now now' : f64)
    (req req' : GenerateRequest J) d1 d2 w rq e :
  fresh d -> few -> reach trim (system_new d) s -> reading now -> reading now' -> fle f0 stale = true ->
  route_request (dep s) req now = Some (d1, Ok (w, rq)) -> open_request d1 w rq = Ready (d2, Err e) ->
  exists d3 w' rq', route_request d2 req' now' = Some (d3, Ok (w', rq')) /\ slot w' = slot w.
Proof.
  intros Hd Hn Hr Hnow Hnow' Hs E Eo. destruct (aggregated_ok _ _ _ _ _ _ _ _ _ Hd Hn) as (_ & Hpos & _).
  pose proof (reach_ok _ _ _ _ _ _ (system_new_ok _ _ _ _ _ _ _ _ _ Hd Hn) Hr) as Hok.
  pose proof Hok as [H1 H2 H3 H4 _ _].
  destruct (routed (T := T) _ _ req now H1 Hpos Hnow ltac:(by unfold patient; rewrite H3)) as (d1' & w1 & rq1 & E1 & Hp & _).
  rewrite E in E1. injection E1 as <- <- <-.
  destruct (routed_dep _ _ _ _ _ _ _ _ Hok E) as (D1 & D2 & D3 & D4).
  destruct (open_refused _ _ _ _ _ Eo) as [-> _].
  destruct (routed (T := T) _ _ req' now' D1 Hpos Hnow' ltac:(by unfold patient; rewrite D3)) as (d3 & w' & rq' & E3 & Hp' & _).
  exists d3, w', rq'. split; [done|]. apply (picked_unique (length endpoints) (dep s)); [|done].
  unfold picked, headroom in *. by rewrite D2, D4, <- H2 in Hp'.
Qed.

(** Every stream is well formed: a task that has left sent tokens and at most
    one closing chunk, and its stream was cleaned up; one still running has
    sent tokens only.  While the client listens, the turn that ends a task
    sends a closing chunk. *)
Theorem streams_well_formed (d : ServingDeployment F K) (s : System F K T J) (t : Task T) :
  fresh d -> few -> reach trim (system_new d) s ->
  (t ∈ left s -> stream_shape (tk_sent t) /\ cleaned_up (tk_stream t) = true) /\
  (t ∈ tasks s -> stream_shape (tk_sent t) /\
    (tk_open t = true -> Forall (fun c => is_token c = true) (tk_sent t) /\
      forall o at_ o' t', turn trim o t at_ true = Ready (o', t') -> tk_open t' = false ->
        exists c, tk_sent t' = tk_sent t ++ [c] /\ is_token c = false)).
Proof.
  intros Hd Hn Hr. pose proof (reach_ok _ _ _ _ _ _ (system_new_ok _ _ _ _ _ _ _ _ _ Hd Hn) Hr) as [_ _ _ _ H5 H6].
  split; intros Hin.
  - by eapply Forall_forall in H6; [|exact Hin].
  - eapply Forall_forall in H5; [|exact Hin]. split; [apply H5|]. intros Ho. split; [by apply H5|].
    intros o at_ o' t' Et Ho'. destruct (turn_spec trim _ _ _ _ _ _ Et Ho H5) as (_ & _ & _ & H). by apply H.
Qed.

(** What is recorded as the first interval between tokens is the wait for the
    first token: the clock is read before each wait, so two readings of a task
    enclose the wait for its first token, not the interval after it. *)
Theorem first_gap_is_the_first_wait (o o1 o2 : gmap nat Observed) (t t1 t2 : Task T) (opened heard : f64) x y :
  tk_last t = None -> seen (observe_of o (tk_slot t)) = 0 ->
  turn trim o t opened true = Ready (o1, t1) -> tk_sent t1 = tk_sent t ++ [x] -> is_token x = true ->
  turn trim o1 t1 heard true = Ready (o2, t2) -> tk_sent t2 = tk_sent t1 ++ [y] -> is_token y = true ->
  itl_ms (observe_of o2 (tk_slot t)) = fsub heard opened /\ seen (observe_of o2 (tk_slot t)) = 1.
Proof.
  intros Hl Hs E1 Hx Tx E2 Hy Ty. unfold turn in E1, E2. rewrite Hl in E1.
  destruct (next_at trim (tk_stream t) opened) as [st [|[[[tk1 x1|r]|]|e]]]; [done|..]; injection E1 as <- <-;
    cbn [tk_sent close] in Hx; try (apply app_inv_head in Hx; injection Hx as <-; done).
  2: { apply (f_equal length) in Hx. rewrite !length_app in Hx. cbn in Hx. lia. }
  cbn [tk_stream tk_last tk_slot tk_sent] in *.
  destruct (next_at trim st heard) as [st2 [|[[[tk2 x2|r]|]|e]]]; [done|..]; injection E2 as <- <-;
    cbn [tk_sent close] in Hy; try (apply app_inv_head in Hy; injection Hy as <-; done).
  2: { apply (f_equal length) in Hy. rewrite !length_app in Hy. cbn in Hy. lia. }
  unfold note_gap. rewrite Hs. cbn [Z.eqb]. rewrite observe_insert, decide_True by done. by split.
Qed.
End theorems.

(** *** A chat over HTTP *)

Section chat.
Context {K V J : Type} `{!Json V} (trim : list Z -> list Z) {tok_K : Tokens.Tokenizer K}.

(** A deployment of [n] processes, busy with any other requests. *)
Record host_ok (n : nat) (b : Host (K := K) (J := J)) : Prop := {
  h_dep : dep_ok n (serving b);
  h_some : (0 < n)%nat;
  h_patient : patient (serving b);
  h_clock : reading (clock b 0);
  h_others : others_ok trim b
}.

Lemma host_ok_kept n b b' : host_ok n b -> keeps (serving b) (serving b') -> clock b' = clock b -> others b' = others b ->
  host_ok n b'.
Proof.
  intros [H1 H2 H3 H4 H5] [K1 K2 _] Hc Ho. split; [by apply K1|done| |by rewrite Hc|].
  - unfold patient in *. by rewrite K2.
  - unfold others_ok in *. by rewrite Ho.
Qed.

(** Workers that answer every POST with something that comes to an end. *)
Definition posted_ends (p : Posted) : Prop :=
  match p with Silent => False | Unreachable | Refused _ => True | Streaming ps => polls_end ps end.
Definition workers_answer (b : Host (K := K) (J := J)) : Prop :=
  forall id w, workers (serving b) !! id = Some w -> forall url r, posted_ends (client (adapter w) url r).

(** Workers that answer nothing, or send tokens without end: however many have
    come, the response is still open. *)
Definition token_frame (bs : list Z) : Prop :=
  exists e d ev tok txt, sse_frame_end bs = Some (e, d) /\ drop d (drop e bs) = [] /\
    parse_sse_frame (take e bs) = Ok (Some ev) /\ decode_event trim ev = Ok (DToken tok txt).
Definition posted_open (p : Posted) : Prop :=
  p = Silent \/ exists frames, p = Streaming (map Chunk frames) /\ Forall token_frame frames.
Definition workers_never_finish (b : Host (K := K) (J := J)) : Prop :=
  forall id w, workers (serving b) !! id = Some w -> forall url r, posted_open (client (adapter w) url r).

(** The request is routed, and then waits for the worker it was routed to. *)
Lemma generate_opens n b req : host_ok n b ->
  exists d w rq, workers d = workers (serving b) /\ (exists id, workers (serving b) !! id = Some w) /\
    route_request (serving b) req (clock b 0) = Some (d, Ok (w, rq)) /\
    generate_among trim b req =
      let s := others b 0%nat (set_dep (system b) d) in
      match client (adapter w) (generate_url (base_url (adapter w))) (from_request rq) with
      | Silent => Some Pending
      | Unreachable | Refused _ => Some (Ready (set_system b (set_dep s (dep s)), Err EngineError))
      | Streaming ps =>
          let u := (generate_url (base_url (adapter w)), mkHttp (Some ps) []) in
          let t := mkTask (slot w) (stream_start u rq) None [] true in
          sent ← forward trim (S (connection_size u)) (set_dep s (set_observed (dep s) (count_up (observed (dep s)) (slot w))))
                   t (clock b) (others b) 1;
          Some match sent with
               | Pending => Pending
               | Ready (s, t') => Ready (set_system b s, Ok (tk_sent t'))
               end
      end.
Proof.
  intros [H1 H2 H3 H4 _]. destruct (routed (T := HttpConnection) n _ req _ H1 H2 H4 H3) as (d & w & rq & E & [Hlt _] & Hd & _).
  pose proof (route_keeps _ _ _ _ _ E) as Hk. exists d, w, rq. split; [apply Hk|]. split; [|split; [done|]].
  - unfold route_request in E. destruct (Routing.route _ _ _ _) as [[dec|]|]; cbn [mbind option_bind] in E; [|done..].
    destruct (workers (refresh_load (serving b) (clock b 0)) !! Routing.rd_decode dec) as [w0|] eqn:Ew; [|done].
    cbn [next_id] in E. injection E as _ <- _. by exists (Routing.rd_decode dec).
  - unfold generate_among. rewrite E. cbn [mbind option_bind]. unfold open_request, adapter_start. cbn [f_open http_factory http_open].
    unfold t_send, http_factory, http_send. cbn [snd fst body buffered].
    by destruct (client (adapter w) _ _).
Qed.

Lemma generate_completes n b req : host_ok n b -> workers_answer b ->
  exists b' r, generate_among trim b req = Some (Ready (b', r)) /\ host_ok n b' /\ workers_answer b' /\
    match r with
    | Err e => e = EngineError
    | Ok cs => exists toks c, cs = toks ++ [c] /\ Forall (fun c => is_token c = true) toks /\ is_token c = false
    end.
Proof.
  intros Hb Hw. destruct (generate_opens n b req Hb) as (d & w & rq & _ & [id Hid] & _ & E).
  assert (exists b' r, generate_among trim b req = Some (Ready (b', r)) /\ match r with Err e => e = EngineError | Ok _ => True end)
    as (b' & r & E' & Hr).
  { pose proof (Hw id w Hid (generate_url (base_url (adapter w))) (from_request rq)) as He. rewrite E.
    destruct (client (adapter w) _ _) as [| |st|ps]; cbn [posted_ends] in He; [done|by eexists _, _..|]. cbv zeta.
    edestruct (forward_ends trim (others b) (fun u : HttpConnection => body_ends u.2) connection_size) as (s' & t' & ->); [apply http_progresses|apply Nat.lt_succ_diag_r|..].
    - exact He.
    - done.
    - split; cbn; [by split|by apply tokens_shape].
    - by eexists _, _. }
  destruct (generate_keeps trim b req b' r (h_others _ _ Hb) E') as (Hk & Hc & Ho). exists b', r. split; [done|].
  split; [by eapply host_ok_kept|]. split; [unfold workers_answer; by rewrite (k_workers _ _ Hk)|].
  destruct r as [cs|e]; [by eapply generate_sent|done].
Qed.

(** C29. A chat completion over HTTP completes when the worker's response does.
    Take any deployment of at least one process whose registry and index are in
    order (as [aggregated] makes them and every step leaves them) and whose
    entries are never stale (the bound on their age is not negative), at any
    moment that the clock gives as a finite number, with any other requests in
    flight, which may take any number of steps wherever this one waits, and a
    client that reads to the end; and suppose that what each worker answers to a
    POST comes to an end: a failure to connect, a refusal, or a body that is
    closed or breaks.  Then the chat is answered: no panic and no routing failure; the deployment is left in
    order; and the answer is the refusal of an empty request, an error, a
    complete answer, or a stream of events whose last one is an error or
    carries the finish reason. *)
Theorem chat_over_http_completes (n : nat) (s : AppState Host) (now : f64) (unix : Z) (req : ChatCompletionRequest) :
  host_ok n (backend s) -> workers_answer (backend s) ->
  exists s' resp,
    chat_completions (J := J) (Completions0 := serving_completions trim) s now unix req = Some (s', resp) /\
    host_ok n (backend s') /\ workers_answer (backend s') /\
    match resp with
    | BadRequest => messages req = []
    | ServiceUnavailable e => e = EngineError
    | InternalServerError | Complete _ => default false (ch_stream req) = false
    | Sse events => exists before last, events = before ++ [last] /\ (last = PError \/ exists r, event_finish last = [r])
    end.
Proof.
  intros Hok Hw. unfold chat_completions. destruct (messages req) as [|m ms] eqn:Em; [by eexists _, _|].
  cbn [next_id]. unfold dispatch. cbn [backend app_next_id gen_id gen_prompt generate serving_completions].
  match goal with |- context [generate_among trim _ ?g] => set (gen := g) end.
  destruct (generate_completes n (backend s) gen Hok Hw) as (b' & r & -> & Hok' & Hw' & Hr). cbn [mbind option_bind].
  destruct r as [cs|e]; [|by eexists _, _].
  destruct (default false (ch_stream req)).
  - eexists _, _. split; [done|]. split; [done|]. split; [done|]. destruct Hr as (toks & c & -> & _ & Hc). unfold sse_response.
    rewrite map_app. eexists _, _. split; [done|]. destruct c as [|r|]; [done|right; by exists r|by left].
  - unfold collect_response. eexists _, _. split; [done|]. split; [done|]. split; [done|].
    by destruct (collect_loop cs [] 0 "length") as [[[t n0] rs]|].
Qed.

Lemma next_token_frame fuel ps frame : token_frame frame -> exists tok txt ev,
  next_event (S (S fuel)) (mkHttp (Some (Chunk frame :: ps)) []) = Some (mkHttp (Some ps) [], Ready (Ok (Some ev))) /\
  decode_event trim ev = Ok (DToken tok txt).
Proof.
  intros (e & d & ev & tok & txt & E1 & E2 & E3 & E4). exists tok, txt, ev. split; [|done].
  cbn [next_event body buffered]. change (sse_frame_end []) with (@None (nat * nat)). cbn [app]. by rewrite E1, E3, E2.
Qed.

Lemma forward_open (oth : nat -> _ -> _) url frames : forall fuel s (t : Task HttpConnection) (clk : nat -> f64) i,
  Forall token_frame frames -> transport (tk_stream t) = (url, mkHttp (Some (map Chunk frames)) []) ->
  terminal (tk_stream t) = false -> (length frames < fuel)%nat ->
  forward (K := K) (F := HttpTransportFactory J) (J := J) trim fuel s t clk oth i = Some Pending.
Proof.
  induction frames as [|fr frames IH]; intros fuel s t clk i Hf Hu Ht Hlt.
  all: destruct fuel as [|fuel]; [cbn in Hlt; lia|]; cbn [forward]; unfold turn, next_at; rewrite Ht, Hu.
  - done.
  - apply Forall_cons in Hf as [Hfr Hf]. cbn [t_next http_transport]. unfold http_next. cbn [fst snd map].
    destruct (next_token_frame (transport_size (mkHttp (Some (Chunk fr :: map Chunk frames)) []) - 1) (map Chunk frames) fr Hfr)
      as (tok & txt & ev & E & Hd).
    replace (S (transport_size (mkHttp (Some (Chunk fr :: map Chunk frames)) []))) with
      (S (S (transport_size (mkHttp (Some (Chunk fr :: map Chunk frames)) []) - 1))) by (unfold transport_size; cbn; lia).
    rewrite E. unfold default. cbv beta iota delta [id]. rewrite Hd. cbn [tk_open]. apply IH; [done..|]. cbn in Hlt. lia.
Qed.

(** Nothing limits the wait.  If the workers never answer, or go on sending
    tokens, a chat that has begun is never answered: it is still waiting,
    however many tokens have come by then. *)
Theorem chat_waits_for_the_worker (n : nat) (s : AppState Host) (now : f64) (unix : Z) (req : ChatCompletionRequest) :
  host_ok n (backend s) -> workers_never_finish (backend s) -> messages req <> [] ->
  (forall gen, generate_among trim (backend s) gen = Some Pending) /\
  chat_completions (J := J) (Completions0 := serving_completions trim) s now unix req = None.
Proof.
  intros Hok Hw Hm. assert (forall gen, generate_among trim (backend s) gen = Some Pending) as H.
  { intros gen. destruct (generate_opens n (backend s) gen Hok) as (d & w & rq & _ & [id Hid] & _ & ->).
    destruct (Hw id w Hid (generate_url (base_url (adapter w))) (from_request rq)) as [->|(frames & -> & Hf)]; [done|]. cbv zeta.
    rewrite (forward_open (others (backend s)) (generate_url (base_url (adapter w))) frames); [done|done..|].
    unfold connection_size, transport_size. cbn [snd body buffered]. clear.
    induction frames as [|fr frames IH]; [cbn; lia|]. unfold list_sum in *. cbn in *. lia. }
  split; [done|]. unfold chat_completions. destruct (messages req) as [|m ms]; [done|]. cbn [next_id]. unfold dispatch.
  cbn [backend generate serving_completions]. by rewrite H.
Qed.
End chat.

(** ** Two workers, one of them down *)

(** A payload is a letter and a byte: [t] for a token, [f] for the end. *)
#[local] Instance json_sample : Json (list Z) := {
  from_str l := Some l;
  get v k :=
    match v with
    | c :: rest =>
        if decide (c = 116 /\ (k = K_TOKEN \/ k = K_TEXT)) then Some rest
        else if decide (c = 102 /\ k = K_FINISH) then Some rest else None
    | [] => None
    end;
  as_str v := Some v;
  as_u64 v := head v
}.

#[local] Existing Instance Tokens.synthetic.

Definition client_sample (url : string) (r : TransportRequest unit) : Posted :=
  if decide (url = "http://b/generate") then
    Streaming [Chunk (bytes "data: tA" ++ [10; 10] ++ bytes "data: tB" ++ [10]); Chunk ([10] ++ bytes "data: fstop" ++ [10; 10]); Ended]
  else Unreachable.

Definition connect_sample (e : string) : HttpTransportFactory unit := mkFactory e client_sample.
Definition tuning_sample : Routing.RouterTuning := Routing.mkTuning (of_Z 10) (of_Z 17) 256.

Definition serving_sample (endpoints : list string) : ServingDeployment (HttpTransportFactory unit) Tokens.SyntheticTokenizer :=
  match aggregated connect_sample endpoints (bytes "m") Tokens.Synthetic tuning_sample (of_Z 3000) (of_Z 64) (of_Z 5000) with
  | Ok d => d
  | Err _ => mkServing (Routing.router_new (Routing.registry_new f0) tuning_sample) ∅ ∅ Tokens.Synthetic [] f0 f0 0
  end.

Definition gen_sample : GenerateRequest unit := mkGenerate 0 [1; 2] [] params_default f0 false.
Definition chat_sample : ChatCompletionRequest :=
  mkChat None [mkMessage (bytes "user") (bytes "hi")] None None None None None None None.

Definition system_sample (endpoints : list string) :
    System (HttpTransportFactory unit) Tokens.SyntheticTokenizer HttpConnection unit := system_new (serving_sample endpoints).

Lemma sample_fresh e l : aggregated connect_sample (e :: l) (bytes "m") Tokens.Synthetic tuning_sample (of_Z 3000) (of_Z 64) (of_Z 5000) =
  Ok (serving_sample (e :: l)).
Proof. unfold serving_sample, aggregated. by destruct (foldl _ _ _) as [[reg ws] obs]. Qed.

Lemma reading_of_Z n : 0 < n <= 2 ^ 53 -> reading (of_Z n).
Proof. intros H. split; [apply of_Z_finite|apply of_Z_not_neg0]; unfold small; lia. Qed.

(** What the first request makes of the deployment. *)
Definition routed_sample (endpoints : list string) :=
  route_request (serving_sample endpoints) gen_sample (of_Z 5).

Definition opened_sample : option (System (HttpTransportFactory unit) Tokens.SyntheticTokenizer HttpConnection unit) :=
  match routed_sample ["http://b"] with
  | Some (d1, Ok (w, rq)) =>
      match open_request d1 w rq with Ready (d2, Ok t) => Some (mkSystem d2 [] [t] []) | _ => None end
  | _ => None
  end.

Lemma opened_reach s : opened_sample = Some s -> reach id (system_sample ["http://b"]) s.
Proof.
  unfold opened_sample. destruct (routed_sample ["http://b"]) as [[d1 [[w rq]|e]]|] eqn:E; [|done..].
  destruct (open_request d1 w rq) as [|[d2 [t|e]]] eqn:Eo; [done| |done]. intros [= <-].
  eapply reach_step; [eapply reach_step; [apply reach_start| |]| |].
  - by apply step_routed with (s := system_new _) (1 := E).
  - cbn. unfold u32_max. lia.
  - exact (step_opened id (mkSystem d1 [(w, rq)] [] []) 0 w rq d2 t eq_refl Eo).
  - cbn. unfold u32_max. lia.
Qed.

Lemma load_counts_streams_witness : exists s, reach id (system_sample ["http://b"]) s /\
  length (tasks s) = 1%nat /\ inflight (observe_of (observed (dep s)) 0) = 1.
Proof.
  assert (option_map (fun s => (length (tasks s), streams_on 0 s)) opened_sample = Some (1%nat, 1)) as Hc by (vm_compute; reflexivity).
  destruct opened_sample as [s|] eqn:E; [|discriminate Hc]. injection Hc as Hc1 Hc2.
  exists s. pose proof (opened_reach s E) as Hr. split; [exact Hr|]. split; [exact Hc1|].
  destruct (load_counts_streams id connect_sample ["http://b"] (bytes "m") Tokens.Synthetic tuning_sample (of_Z 3000) (of_Z 64)
    (of_Z 5000) _ s (of_Z 5) 0 (sample_fresh _ _) ltac:(cbn; lia) Hr) as [Hload _].
  rewrite Hload. exact Hc2.
Defined.

Lemma routes_to_most_room_witness : exists d' w rq,
  route_request (dep (system_sample ["http://a"; "http://b"])) gen_sample (of_Z 5) =
    Some (d', Ok (w, rq)) /\ (slot w < 2)%nat.
Proof.
  destruct (routes_to_most_room id connect_sample ["http://a"; "http://b"] (bytes "m") Tokens.Synthetic tuning_sample
    (of_Z 3000) (of_Z 64) (of_Z 5000) _ (system_sample ["http://a"; "http://b"]) (of_Z 5) gen_sample 64
    (sample_fresh _ _) ltac:(cbn; lia) (reach_start _ _) (reading_of_Z 5 ltac:(lia)) ltac:(vm_compute; reflexivity) eq_refl
    ltac:(lia) ltac:(intros k; cbn; lia)) as (d' & w & rq & E & Hlt & _).
  exists d', w, rq. split; [exact E|exact Hlt].
Defined.

(** The first process is down: it is given the request, and the next one too. *)
Lemma refusing_process_is_chosen_again_witness : exists d1 w rq d2 e d3 w' rq',
  route_request (serving_sample ["http://a"; "http://b"]) gen_sample (of_Z 5) = Some (d1, Ok (w, rq)) /\
  open_request d1 w rq = Ready (d2, Err e) /\
  route_request d2 gen_sample (of_Z 9) = Some (d3, Ok (w', rq')) /\
  slot w' = slot w /\ sw_endpoint w = "http://a".
Proof.
  assert (match routed_sample ["http://a"; "http://b"] with
    | Some (d1, Ok (w, rq)) => (match open_request d1 w rq with Ready (_, r) => is_ok r | Pending => true end, sw_endpoint w)
    | _ => (true, "") end = (false, "http://a")) as Hc by (vm_compute; reflexivity).
  destruct (routed_sample ["http://a"; "http://b"]) as [[d1 [[w rq]|e]]|] eqn:E; [|discriminate Hc..].
  injection Hc as Hc1 Hc2. destruct (open_request d1 w rq) as [|[d2 [t|e]]] eqn:Eo; [discriminate Hc1..|].
  destruct (refusing_process_is_chosen_again id connect_sample ["http://a"; "http://b"] (bytes "m") Tokens.Synthetic tuning_sample
    (of_Z 3000) (of_Z 64) (of_Z 5000) _ (system_sample ["http://a"; "http://b"])
    (of_Z 5) (of_Z 9) gen_sample gen_sample d1 d2 w rq e (sample_fresh _ _) ltac:(cbn; lia) (reach_start _ _)
    (reading_of_Z 5 ltac:(lia)) (reading_of_Z 9 ltac:(lia)) ltac:(vm_compute; reflexivity) E Eo) as (d3 & w' & rq' & E3 & Hs).
  exists d1, w, rq, d2, e, d3, w', rq'. split; [exact E|]. split; [exact Eo|]. split; [exact E3|]. split; [exact Hs|exact Hc2].
Defined.

Lemma streams_well_formed_witness : exists s t, opened_sample = Some s /\ t ∈ tasks s /\ stream_shape (tk_sent t).
Proof.
  assert (option_map (fun s => length (tasks s)) opened_sample = Some 1%nat) as Hc by (vm_compute; reflexivity).
  destruct opened_sample as [s|] eqn:E; [|discriminate Hc]. pose proof (opened_reach s E) as Hr.
  injection Hc as Hc. destruct (tasks s) as [|t l] eqn:Et; [discriminate Hc|].
  exists s, t. split; [reflexivity|]. rewrite Et. split; [left|].
  apply (streams_well_formed id connect_sample ["http://b"] (bytes "m") Tokens.Synthetic tuning_sample (of_Z 3000) (of_Z 64)
    (of_Z 5000) _ s t (sample_fresh _ _) ltac:(cbn; lia) Hr). rewrite Et. left.
Defined.

(** Deployments of one process: while this request waits, another is routed,
    again and again. *)
Definition another (i : nat) (s : System (HttpTransportFactory unit) Tokens.SyntheticTokenizer HttpConnection unit) :=
  match route_request (dep s) gen_sample (of_Z (5 + Z.of_nat i)) with
  | Some (d, Ok (w, rq)) => mkSystem d (starting s ++ [(w, rq)]) (tasks s) (left s)
  | Some (d, Err _) => mkSystem d (starting s) (tasks s) (left s)
  | None => s
  end.

Lemma another_step i s : rtc (step id) s (another i s).
Proof.
  unfold another. destruct (route_request _ _ _) as [[d [[w rq]|e]]|] eqn:E; [| |apply rtc_refl]; apply rtc_once.
  - by eapply step_routed.
  - by eapply step_rejected.
Qed.

Definition host_of (d : ServingDeployment (HttpTransportFactory unit) Tokens.SyntheticTokenizer) :
    Host (K := Tokens.SyntheticTokenizer) (J := unit) :=
  mkHost (system_new d) (fun i => of_Z (5 + Z.of_nat i)) another.
Definition host_sample := host_of (serving_sample ["http://b"]).

Lemma host_of_ok connect d :
  aggregated connect ["http://b"] (bytes "m") Tokens.Synthetic tuning_sample (of_Z 3000) (of_Z 64) (of_Z 5000) = Ok d ->
  host_ok id 1 (host_of d).
Proof.
  intros H. destruct (aggregated_ok _ _ _ _ _ _ _ _ _ H ltac:(cbn; lia)) as (H1 & H2 & _ & H4 & H5). split.
  - exact H1.
  - exact H2.
  - unfold patient. cbn. rewrite H4. vm_compute. reflexivity.
  - apply reading_of_Z. lia.
  - intros i s. apply another_step.
Qed.

Lemma host_sample_workers id w : workers (serving host_sample) !! id = Some w -> client (adapter w) = client_sample.
Proof.
  intros Hw. assert (map_Forall (fun _ w => adapter w = connect_sample "http://b") (workers (serving host_sample))) as H.
  { unfold host_sample, serving_sample, aggregated. cbn [imap foldl add_worker serving host_of system system_new dep workers].
    repeat apply map_Forall_insert_2; done. }
  by rewrite (H _ _ Hw).
Qed.

Lemma host_sample_answers : workers_answer host_sample.
Proof.
  intros i w Hw url r. rewrite (host_sample_workers _ _ Hw). unfold client_sample. destruct (decide _); [|exact I].
  left. right. right. left.
Qed.

Definition answer_text (r : Response) : list Z * string :=
  match r with Complete c => (resp_content c, resp_finish c) | _ => ([], "") end.

Lemma chat_over_http_completes_witness : exists s' resp,
  chat_completions (J := unit) (Completions0 := serving_completions id) (mkApp host_sample 0) (of_Z 1) 0 chat_sample =
    Some (s', resp) /\ host_ok id 1 (backend s') /\ answer_text resp = (bytes "AB", "stop").
Proof.
  destruct (chat_over_http_completes id 1 (mkApp host_sample 0) (of_Z 1) 0 chat_sample
    (host_of_ok _ _ (sample_fresh "http://b" [])) host_sample_answers) as (s' & resp & E & Hok & _ & _).
  exists s', resp. split; [exact E|]. split; [exact Hok|].
  assert (option_map (fun p => answer_text p.2) (chat_completions (J := unit) (Completions0 := serving_completions id)
    (mkApp host_sample 0) (of_Z 1) 0 chat_sample) = Some (bytes "AB", "stop")) as Hc by (vm_compute; reflexivity).
  rewrite E in Hc. injection Hc as Hc. exact Hc.
Defined.

(** A worker that sends tokens for ever, seen when [n] have come. *)
Definition endless (n : nat) : HttpTransportFactory unit :=
  mkFactory "http://b" (fun _ _ => Streaming (map Chunk (replicate n (bytes "data: tA" ++ [10; 10])))).

Lemma chat_waits_for_the_worker_witness : exists d,
  aggregated (fun _ => endless 3) ["http://b"] (bytes "m") Tokens.Synthetic tuning_sample (of_Z 3000) (of_Z 64) (of_Z 5000) = Ok d /\
  chat_completions (J := unit) (Completions0 := serving_completions id) (mkApp (host_of d) 0) (of_Z 1) 0 chat_sample = None.
Proof.
  eexists. split; [reflexivity|].
  refine (proj2 (chat_waits_for_the_worker id 1 (mkApp (host_of _) 0) (of_Z 1) 0 chat_sample
    (host_of_ok (fun _ => endless 3) _ eq_refl) _ _)); [|discriminate].
  assert (map_Forall (fun _ w => adapter w = endless 3) (workers (serving (host_of match aggregated (fun _ => endless 3)
    ["http://b"] (bytes "m") Tokens.Synthetic tuning_sample (of_Z 3000) (of_Z 64) (of_Z 5000) with Ok d => d
    | Err _ => serving_sample [] end)))) as H.
  { unfold aggregated. cbn [imap foldl add_worker serving host_of system system_new dep workers].
    repeat apply map_Forall_insert_2; done. }
  intros i w Hw url r. rewrite (H _ _ Hw). right.
  exists (replicate 3 (bytes "data: tA" ++ [10; 10])). split; [reflexivity|]. apply Forall_replicate.
  exists 8%nat, 2%nat, (mkEvent None (bytes "tA")), 65, [65]. split_and!; vm_compute; reflexivity.
Defined.

Definition task_sample : option (Task HttpConnection) :=
  s ← opened_sample; head (tasks s).

(** The stream opens at 100 ms and its first token comes at 2000. *)
Lemma first_gap_is_the_first_wait_witness :
  match task_sample with
  | Some t =>
      match turn id ∅ t (of_Z 100) true with
      | Ready (o1, t1) =>
          match turn id o1 t1 (of_Z 2000) true with
          | Ready (o2, t2) => itl_ms (observe_of o2 0) = of_Z 1900
          | Pending => False
          end
      | Pending => False
      end
  | None => False
  end.
Proof.
  assert (option_map (fun t =>
    match turn id ∅ t (of_Z 100) true with
    | Ready (o1, t1) =>
        match turn id o1 t1 (of_Z 2000) true with
        | Ready (o2, t2) => Some (tk_last t, tk_sent t, tk_slot t, tk_sent t1, tk_sent t2)
        | Pending => None
        end
    | Pending => None
    end) task_sample = Some (Some (None, [], 0%nat, [CToken 65 [65]], [CToken 65 [65]; CToken 66 [66]]))) as Hc by (vm_compute; reflexivity).
  destruct task_sample as [t|] eqn:E; [|discriminate Hc]. cbn [option_map] in Hc. destruct (turn id ∅ t (of_Z 100) true) as [|[o1 t1]] eqn:E1; [discriminate Hc|].
  destruct (turn id o1 t1 (of_Z 2000) true) as [|[o2 t2]] eqn:E2; [discriminate Hc|]. injection Hc as Hl Hs Hk H1 H2.
  destruct (first_gap_is_the_first_wait id ∅ o1 o2 t t1 t2 (of_Z 100) (of_Z 2000) (CToken 65 [65]) (CToken 66 [66]))
    as [Hi _]; try assumption; try reflexivity.
  - rewrite H1, Hs. reflexivity.
  - rewrite H2, H1. reflexivity.
  - rewrite Hk in Hi. rewrite Hi. vm_compute. reflexivity.
Defined.
End Serving.
