(* ===== verification/Dynamo.v ===== *)
(** * The Dynamo engine adapter ([crates/dynamo/src/config.rs], [engine.rs])

    Requests of the Dynamo runtime become requests of the wire, events of the
    wire become outputs of the runtime, and a counter tells the runtime whether
    streams are alive.  The runtime's types and the JSON library are outside:
    its requests are records of the fields the adapter reads, its outputs and
    the JSON values are built by parameters. *)

From Stdlib Require Import ZArith Lia Ascii String.
From stdpp Require Import base option list numbers strings.
From S2P Require Import Prelude F64 Core Wire Frontend.

Module Dynamo.
Import Stream.
Local Open Scope string_scope.
Local Open Scope list_scope.
Local Open Scope Z_scope.
Local Open Scope s_scope.

(** ** The runtime's request *)

(** Fields of which only the presence matters are booleans. *)
Record StopConditions := mkStop {
  st_max_tokens : option Z;
  stop : option (list (list Z));
  stop_token_ids : option (list Z);
  stop_token_ids_hidden : option (list Z);
  stop_token_ids_visible : option (list Z);
  min_tokens : option Z;
  max_thinking_tokens : option Z;
  st_ignore_eos : option bool
}.

Record SamplingOptions := mkSampling {
  so_n : option Z;
  best_of : option Z;
  use_beam_search : option bool;
  has_length_penalty : bool;
  has_guided_decoding : bool;
  so_temperature : option f32;
  so_top_p : option f32;
  so_top_k : option Z;
  so_seed : option Z;
  repetition_penalty : option f32;
  presence_penalty : option f32;
  frequency_penalty : option f32;
  min_p : option f32;
  include_stop_str_in_output : option bool
}.

Record OutputOptions := mkOutput {
  has_logprobs : bool;
  has_prompt_logprobs : bool;
  has_formatted_prompt : bool;
  has_return_tokens_as_token_ids : bool;
  skip_special_tokens : option bool
}.

Record PreprocessedRequest := mkPre {
  token_ids : list Z;
  (** Multimodal, disaggregated or backend extra fields are present. *)
  has_prompt_embeds : bool;
  has_multi_modal_data : bool;
  has_multi_modal_uuids : bool;
  has_mm_routing_info : bool;
  has_prefill_result : bool;
  has_encoder_result : bool;
  has_bootstrap_info : bool;
  has_extra_args : bool;
  has_mm_processor_kwargs : bool;
  stop_conditions : StopConditions;
  sampling_options : SamplingOptions;
  output_options : OutputOptions;
  request_timestamp_ms : option f64
}.

Inductive DynamoError :=
  | EngineShutdown (message : string)
  | InvalidArgument (message : string)
  | BackendUnknown.

(** ** Configuration *)

Record DynamoEngineConfig := mkConfig {
  cfg_model : string;
  served_model_name : option string;
  default_max_tokens : Z
}.

Definition config_default : DynamoEngineConfig := mkConfig "trtllm" None 200.

(** The engine's state: the factory and configuration, the identifier source,
    whether it is started, and the number of streams alive. *)
Record DynamoLlmEngine (F : Type) := mkEngine {
  adapter : F;
  config : DynamoEngineConfig;
  next_request_id : Z;
  started : bool;
  active : Z
}.
Arguments mkEngine {F}.
Arguments adapter {F}.
Arguments config {F}.
Arguments next_request_id {F}.
Arguments started {F}.
Arguments active {F}.

(** ** Conversion of a request *)

Definition some_other_than_1 (o : option Z) : bool := match o with Some n => negb (n =? 1) | None => false end.

Definition reject_unsupported_request (r : PreprocessedRequest) : result DynamoError unit :=
  if has_prompt_embeds r || has_multi_modal_data r || has_multi_modal_uuids r || has_mm_routing_info r ||
     has_prefill_result r || has_encoder_result r || has_bootstrap_info r || has_extra_args r || has_mm_processor_kwargs r
  then Err (InvalidArgument "multimodal, disaggregated, or backend extra request fields are not supported by the HTTP worker")
  else if match stop_token_ids_visible (stop_conditions r) with Some (_ :: _) => true | _ => false end
  then Err (InvalidArgument "stop_token_ids_visible is not supported by TensorRT-LLM worker")
  else if some_other_than_1 (so_n (sampling_options r)) || some_other_than_1 (best_of (sampling_options r))
  then Err (InvalidArgument "only one output sequence is supported by the streaming worker")
  else if bool_decide (use_beam_search (sampling_options r) = Some true)
  then Err (InvalidArgument "beam search is not supported by the streaming worker")
  else if has_length_penalty (sampling_options r) || has_guided_decoding (sampling_options r)
  then Err (InvalidArgument "length penalty and guided decoding are not supported by the streaming worker")
  else if has_logprobs (output_options r) || has_prompt_logprobs (output_options r) ||
          has_formatted_prompt (output_options r) || has_return_tokens_as_token_ids (output_options r)
  then Err (InvalidArgument "requested logprob or formatted-output controls are not supported by the streaming worker")
  else Ok tt.

(** [serde_json::json!] on the types of the controls. *)
Class JsonOf (J : Type) := {
  of_texts : list (list Z) -> J;
  of_ids : list Z -> J;
  of_u32 : Z -> J;
  of_f32 : f32 -> J;
  of_bool : bool -> J
}.

Section controls.
Context {J : Type} `{!JsonOf J}.

Definition entry {A} (key : string) (f : A -> J) (o : option A) : list (string * J) :=
  match o with Some a => [(key, f a)] | None => [] end.

(** The visible stop tokens are refused, the two other lists are joined. *)
Definition stop_tokens (c : StopConditions) : option (list Z) :=
  match default [] (stop_token_ids c) ++ default [] (stop_token_ids_hidden c) with
  | [] => None
  | l => Some l
  end.

Definition extra_of (r : PreprocessedRequest) : list (string * J) :=
  let c := stop_conditions r in
  let s := sampling_options r in
  entry "stop" of_texts (stop c) ++ entry "stop_token_ids" of_ids (stop_tokens c) ++
  entry "min_tokens" of_u32 (min_tokens c) ++ entry "thinking_token_budget" of_u32 (max_thinking_tokens c) ++
  entry "repetition_penalty" of_f32 (repetition_penalty s) ++ entry "presence_penalty" of_f32 (presence_penalty s) ++
  entry "frequency_penalty" of_f32 (frequency_penalty s) ++ entry "min_p" of_f32 (min_p s) ++
  entry "include_stop_str_in_output" of_bool (include_stop_str_in_output s) ++
  entry "skip_special_tokens" of_bool (skip_special_tokens (output_options r)).

Definition seed_of (s : SamplingOptions) : result DynamoError (option Z) :=
  match so_seed s with
  | Some n => if n <? 0 then Err (InvalidArgument "sampling_options.seed must be non-negative") else Ok (Some n)
  | None => Ok None
  end.

(** The identifier source is advanced by a successful conversion only; [now]
    is the clock, read when the request carries no time. *)
Definition convert_request (config : DynamoEngineConfig) (source : Z) (now : f64) (r : PreprocessedRequest)
    : result DynamoError (Request J * Z) :=
  (_ <-? reject_unsupported_request r ;;
   seed <-? seed_of (sampling_options r) ;;
   let '(id, source') := next_id source in
   let c := stop_conditions r in
   let s := sampling_options r in
   Ok (mkRequest id (token_ids r)
         (mkParams (default (default_max_tokens config) (st_max_tokens c)) (default (f32_of_Z 0) (so_temperature s))
            (default (f32_of_Z 1) (so_top_p s)) (default (-1) (so_top_k s)) (default false (st_ignore_eos c)) seed
            (extra_of r))
         (default now (request_timestamp_ms r)) INFINITY None None, source'))%s.

(** ** Outputs *)

(** How the runtime builds the outputs the adapter asks for. *)
Class EngineOutput (O : Type) := {
  out_token : Z -> list Z -> O;
  out_cancelled : O;
  out_length : O;
  out_eos : O;
  out_stop : O;
  out_content_filter : O;
  out_error : string + list Z -> O
}.

Definition finish_output {O} `{!EngineOutput O} (reason : list Z) : O :=
  if decide (reason = Frontend.bytes "cancelled") then out_cancelled
  else if decide (reason = Frontend.bytes "length") then out_length
  else if decide (reason = Frontend.bytes "eos") then out_eos
  else if decide (reason = Frontend.bytes "stop") then out_stop
  else if decide (reason = Frontend.bytes "content_filter") then out_content_filter
  else if decide (reason = Frontend.bytes "error") then out_error (inl "worker reported an error")
  else if decide (reason = Frontend.bytes "timeout") then out_error (inl "worker timed out")
  else out_error (inr (Frontend.bytes "unsupported finish reason: " ++ reason)).

Definition to_dynamo_output {O} `{!EngineOutput O} (o : StreamOutput) : O :=
  match o with Token token text => out_token token text | Terminal reason => finish_output reason end.

(** ** The engine *)

Section streams.
Context {V : Type} `{!Json V} (trim : list Z -> list Z) {F T O : Type}.
Context `{!Transport T} `{!TransportFactory F T J} `{!EngineOutput O}.

Definition engine_new (f : F) (c : DynamoEngineConfig) : DynamoLlmEngine F := mkEngine f c 0 false 0.

(** [swap(true)] *)
Definition start (e : DynamoLlmEngine F) : DynamoLlmEngine F * result DynamoError (string * option string) :=
  let e' := mkEngine (adapter e) (config e) (next_request_id e) true (active e) in
  if started e then (e', Err (EngineShutdown "engine already started"))
  else (e', Ok (cfg_model (config e), served_model_name (config e))).

Definition cleanup_engine (e : DynamoLlmEngine F) : DynamoLlmEngine F :=
  mkEngine (adapter e) (config e) (next_request_id e) false (active e).

Definition set_active (e : DynamoLlmEngine F) (n : Z) : DynamoLlmEngine F :=
  mkEngine (adapter e) (config e) (next_request_id e) (started e) n.

(** The first half of [generate]: the request is converted, or refused. *)
Definition accept (e : DynamoLlmEngine F) (now : f64) (r : PreprocessedRequest)
    : DynamoLlmEngine F * result DynamoError (Request J) :=
  if negb (started e) then (e, Err (EngineShutdown "generate called before start"))
  else
    match convert_request (config e) (next_request_id e) now r with
    | Err err => (e, Err err)
    | Ok (rq, source) => (mkEngine (adapter e) (config e) source (started e) (active e), Ok rq)
    end.

(** The second half: once the worker answers, the stream is counted. *)
Definition open_stream (e : DynamoLlmEngine F) (rq : Request J)
    : Awaited (DynamoLlmEngine F * result DynamoError (RequestStream T)) :=
  match adapter_start (adapter e) rq with
  | Pending => Pending
  | Ready (Err _) => Ready (e, Err BackendUnknown)
  | Ready (Ok s) => Ready (set_active e (u64_wrap (active e + 1)), Ok s)
  end.

(** [generate], when nothing happens between its halves. *)
Definition generate (e : DynamoLlmEngine F) (now : f64) (r : PreprocessedRequest)
    : Awaited (DynamoLlmEngine F * result DynamoError (RequestStream T)) :=
  match accept e now r with
  | (e', Err err) => Ready (e', Err err)
  | (e', Ok rq) => open_stream e' rq
  end.

(** One poll of the returned stream; [stopped] is the runtime's request to
    stop, read before the wait, [now] the clock.  [Ready] of nothing: the
    stream has ended and is dropped. *)
Definition poll (s : RequestStream T) (stopped : bool) (now : f64)
    : RequestStream T * Awaited (option (result DynamoError O)) :=
  let '(s', r) := if stopped then let '(s', r) := cancel_at s now in (s', Ready r) else next_at trim s now in
  match r with
  | Pending => (s', Pending)
  | Ready (Ok (Some output)) => (s', Ready (Some (Ok (to_dynamo_output output))))
  | Ready (Ok None) => (s', Ready None)
  | Ready (Err _) => (s', Ready (Some (Err BackendUnknown)))
  end.

(** Dropping the stream drops its guard. *)
Definition drop_guard (e : DynamoLlmEngine F) (s : RequestStream T) : DynamoLlmEngine F * RequestStream T :=
  (set_active e (u64_wrap (active e - 1)), drop_stream s).

Definition is_quiescent (e : DynamoLlmEngine F) : bool := active e =? 0.

Definition supported_controls : list string := ["health"].

(** The health control answers with the number of streams; any other is an
    error. *)
Definition engine_control (e : DynamoLlmEngine F) (control : string) : string + Z :=
  if decide (control = "health") then inr (active e) else inl ("unsupported engine control: " +:+ control).

(** ** The engine and the streams it handed out *)

Record Running := mkRunning {
  engine : DynamoLlmEngine F;
  waiting : list (Request J);
  streams : list (RequestStream T)
}.

(** Calls interleave where they wait; one whose worker does not answer stays. *)
Inductive step : Running -> Running -> Prop :=
  | step_start s : step s (mkRunning (start (engine s)).1 (waiting s) (streams s))
  | step_cleanup s : step s (mkRunning (cleanup_engine (engine s)) (waiting s) (streams s))
  | step_accepted s now r e rq : accept (engine s) now r = (e, Ok rq) ->
      step s (mkRunning e (waiting s ++ [rq]) (streams s))
  | step_refused s now r e err : accept (engine s) now r = (e, Err err) -> step s (mkRunning e (waiting s) (streams s))
  | step_opened s i rq e st : waiting s !! i = Some rq -> open_stream (engine s) rq = Ready (e, Ok st) ->
      step s (mkRunning e (remove_at i (waiting s)) (streams s ++ [st]))
  | step_failed s i rq e err : waiting s !! i = Some rq -> open_stream (engine s) rq = Ready (e, Err err) ->
      step s (mkRunning e (remove_at i (waiting s)) (streams s))
  | step_poll s i st stopped now st' o : streams s !! i = Some st -> poll st stopped now = (st', Ready o) ->
      step s (mkRunning (engine s) (waiting s) (<[i := st']> (streams s)))
  | step_drop s i st : streams s !! i = Some st ->
      step s (mkRunning (drop_guard (engine s) st).1 (waiting s) (remove_at i (streams s))).

(** Reached with fewer than 2^64 streams at any time. *)
Inductive reach (s0 : Running) : Running -> Prop :=
  | reach_start : reach s0 s0
  | reach_step s s' : reach s0 s -> step s s' -> Z.of_nat (length (streams s')) <= u64_max -> reach s0 s'.
End streams.
End controls.
Arguments Running : clear implicits.
Arguments Running J F T : rename.

(** ** Facts *)

(** The requests the adapter accepts. *)
Record supported (r : PreprocessedRequest) : Prop := {
  sup_text : has_prompt_embeds r = false /\ has_multi_modal_data r = false /\ has_multi_modal_uuids r = false /\
    has_mm_routing_info r = false /\ has_mm_processor_kwargs r = false;
  sup_local : has_prefill_result r = false /\ has_encoder_result r = false /\ has_bootstrap_info r = false /\
    has_extra_args r = false;
  sup_stop : default [] (stop_token_ids_visible (stop_conditions r)) = [];
  sup_one : default 1 (so_n (sampling_options r)) = 1 /\ default 1 (best_of (sampling_options r)) = 1;
  sup_search : use_beam_search (sampling_options r) <> Some true;
  sup_plain : has_length_penalty (sampling_options r) = false /\ has_guided_decoding (sampling_options r) = false;
  sup_output : has_logprobs (output_options r) = false /\ has_prompt_logprobs (output_options r) = false /\
    has_formatted_prompt (output_options r) = false /\ has_return_tokens_as_token_ids (output_options r) = false
}.

Lemma one_iff o : some_other_than_1 o = false <-> default 1 o = 1.
Proof. destruct o as [n|]; [|done]. cbn. rewrite negb_false_iff. apply Z.eqb_eq. Qed.

Lemma reject_exact r : reject_unsupported_request r = Ok tt <-> supported r.
Proof.
  unfold reject_unsupported_request. split.
  - destruct (has_prompt_embeds r || _ || _ || _ || _ || _ || _ || _ || _) eqn:E1; [done|].
    destruct (stop_token_ids_visible (stop_conditions r)) as [[|x l]|] eqn:E2; [|done|].
    all: destruct (some_other_than_1 _ || _) eqn:E3; [done|].
    all: case_bool_decide; [done|].
    all: destruct (has_length_penalty _ || _) eqn:E4; [done|].
    all: destruct (has_logprobs _ || _ || _ || _) eqn:E5; [done|]; intros _.
    all: rewrite ?orb_false_iff, ?one_iff in *; split; rewrite ?E2; first [done|tauto].
  - intros [[H1 [H2 [H3 [H4 H5]]]] [H6 [H7 [H8 H9]]] H10 [H11 H12] H13 [H14 H15] [H16 [H17 [H18 H19]]]].
    apply one_iff in H11, H12.
    rewrite H1, H2, H3, H4, H5, H6, H7, H8, H9, H11, H12, H14, H15, H16, H17, H18, H19. cbn [orb].
    destruct (stop_token_ids_visible (stop_conditions r)) as [[|x l]|]; [|done|]; by rewrite bool_decide_false.
Qed.

Fixpoint assoc {J} (k : string) (l : list (string * J)) : option J :=
  match l with
  | [] => None
  | (k', v) :: l' => if decide (k = k') then Some v else assoc k l'
  end.

Lemma assoc_app {J} k (a b : list (string * J)) :
  assoc k (a ++ b) = match assoc k a with Some v => Some v | None => assoc k b end.
Proof. induction a as [|[k' v] a IH]; cbn; [done|]. by destruct (decide (k = k')). Qed.

Lemma assoc_entry {A J} k key (f : A -> J) o :
  assoc k (entry key f o) = if decide (k = key) then f <$> o else None.
Proof. destruct o; cbn; by destruct (decide (k = key)). Qed.

Definition CONTROLS : list string :=
  ["stop"; "stop_token_ids"; "min_tokens"; "thinking_token_budget"; "repetition_penalty"; "presence_penalty";
   "frequency_penalty"; "min_p"; "include_stop_str_in_output"; "skip_special_tokens"].

Lemma entry_keys {A J} key (f : A -> J) o : (entry key f o).*1 `sublist_of` [key].
Proof. destruct o; cbn; repeat constructor. Qed.

Lemma extra_keys {J} `{!JsonOf J} r : (extra_of r).*1 `sublist_of` CONTROLS.
Proof.
  unfold extra_of. rewrite !fmap_app. unfold CONTROLS.
  repeat (apply (sublist_app _ [_]); [apply entry_keys|]). apply entry_keys.
Qed.

Lemma extra_nodup {J} `{!JsonOf J} r : NoDup (extra_of r).*1.
Proof.
  assert (NoDup CONTROLS) as Hnd by (apply (bool_decide_unpack _); vm_compute; exact I).
  exact (sublist_NoDup _ _ Hnd (extra_keys r)).
Qed.

Lemma extra_assoc {J} `{!JsonOf J} r k :
  assoc k (extra_of r) =
    if decide (k = "stop") then of_texts <$> stop (stop_conditions r)
    else if decide (k = "stop_token_ids") then of_ids <$> stop_tokens (stop_conditions r)
    else if decide (k = "min_tokens") then of_u32 <$> min_tokens (stop_conditions r)
    else if decide (k = "thinking_token_budget") then of_u32 <$> max_thinking_tokens (stop_conditions r)
    else if decide (k = "repetition_penalty") then of_f32 <$> repetition_penalty (sampling_options r)
    else if decide (k = "presence_penalty") then of_f32 <$> presence_penalty (sampling_options r)
    else if decide (k = "frequency_penalty") then of_f32 <$> frequency_penalty (sampling_options r)
    else if decide (k = "min_p") then of_f32 <$> min_p (sampling_options r)
    else if decide (k = "include_stop_str_in_output") then of_bool <$> include_stop_str_in_output (sampling_options r)
    else if decide (k = "skip_special_tokens") then of_bool <$> skip_special_tokens (output_options r)
    else None.
Proof.
  unfold extra_of. rewrite !assoc_app, !assoc_entry.
  repeat (match goal with |- context [decide (k = ?key)] => destruct (decide (k = key)) as [->|] end;
    [simpl; by repeat match goal with |- context [match ?o with Some _ => _ | None => _ end] => destruct o end|]).
  done.
Qed.

(** ** Theorems *)

(** C40. The adapter fails closed: it converts exactly the requests that ask for
    nothing it cannot do (and whose seed is not negative), takes an identifier
    only then, and carries over the prompt, the time and every other choice.
    What is left open gets the default: the configured number of tokens,
    temperature 0, top-p 1, top-k -1 (off), the end-of-sequence token heeded,
    no seed, the clock for the time of arrival.  Each of the ten other controls
    reaches the worker once, under its name and with its value, exactly if it
    is set, the two lists of stop tokens as one; and nothing else does. *)
Theorem convert_exact {J} `{!JsonOf J} (c : DynamoEngineConfig) (source : Z) (now : f64) (r : PreprocessedRequest) :
  let s := sampling_options r in
  let st := stop_conditions r in
  match convert_request c source now r with
  | Ok (rq, source') =>
      supported r /\ 0 <= default 0 (so_seed s) /\ req_id rq = source /\ source' = u64_wrap (source + 1) /\
      prompt rq = token_ids r /\ req_arrival_ms rq = default now (request_timestamp_ms r) /\
      ttft_deadline_ms rq = INFINITY /\ prefill_worker _ rq = None /\ decode_worker _ rq = None /\
      max_tokens (params rq) = default (default_max_tokens c) (st_max_tokens st) /\
      temperature _ (params rq) = default (f32_of_Z 0) (so_temperature s) /\
      top_p _ (params rq) = default (f32_of_Z 1) (so_top_p s) /\
      top_k _ (params rq) = default (-1) (so_top_k s) /\
      ignore_eos _ (params rq) = default false (st_ignore_eos st) /\
      seed _ (params rq) = so_seed s /\
      NoDup (extra _ (params rq)).*1 /\
      (forall k, assoc k (extra _ (params rq)) =
         if decide (k = "stop") then of_texts <$> stop st
         else if decide (k = "stop_token_ids") then of_ids <$> stop_tokens st
         else if decide (k = "min_tokens") then of_u32 <$> min_tokens st
         else if decide (k = "thinking_token_budget") then of_u32 <$> max_thinking_tokens st
         else if decide (k = "repetition_penalty") then of_f32 <$> repetition_penalty s
         else if decide (k = "presence_penalty") then of_f32 <$> presence_penalty s
         else if decide (k = "frequency_penalty") then of_f32 <$> frequency_penalty s
         else if decide (k = "min_p") then of_f32 <$> min_p s
         else if decide (k = "include_stop_str_in_output") then of_bool <$> include_stop_str_in_output s
         else if decide (k = "skip_special_tokens") then of_bool <$> skip_special_tokens (output_options r)
         else None)
  | Err (InvalidArgument _) => ~ supported r \/ exists n, so_seed s = Some n /\ n < 0
  | Err _ => False
  end.
Proof.
  cbn zeta. unfold convert_request. pose proof (reject_exact r) as Hr.
  destruct (reject_unsupported_request r) as [[]|e] eqn:E; cbn [result_bind].
  - unfold seed_of. destruct (so_seed (sampling_options r)) as [n|] eqn:Es; [destruct (Z.ltb_spec n 0)|]; cbn [result_bind next_id].
    + right. by exists n.
    + split; [by apply Hr|]. split_and!; try done; [apply extra_nodup|intros k; apply extra_assoc].
    + split; [by apply Hr|]. split_and!; try done; [apply extra_nodup|intros k; apply extra_assoc].
  - assert (exists m, e = InvalidArgument m) as [m ->].
    { unfold reject_unsupported_request in E. repeat (destruct (_ : bool); [injection E as <-; by eexists|]). done. }
    left. intros Hs. apply Hr in Hs. done.
Qed.

Section life.
Context {J V : Type} `{!JsonOf J} `{!Json V} (trim : list Z -> list Z) {F T O : Type}.
Context `{!Transport T} `{!TransportFactory F T J} `{!EngineOutput O}.

Lemma accept_active (e : DynamoLlmEngine F) now r e' x : accept (J := J) e now r = (e', x) -> active e' = active e.
Proof.
  unfold accept. destruct (started e); cbn [negb]; [|by intros [= <- _]].
  destruct (convert_request _ _ _ _) as [[rq source]|err]; by intros [= <- _].
Qed.

Lemma open_active (e : DynamoLlmEngine F) (rq : Request J) e' x : open_stream (T := T) e rq = Ready (e', x) ->
  active e' = if is_ok x then u64_wrap (active e + 1) else active e.
Proof. unfold open_stream. destruct (adapter_start _ _) as [|[]]; [done|..]; by intros [= <- <-]. Qed.

(** The engine is quiescent exactly when no stream it handed out is alive,
    whatever was started, refused, polled, cleaned up or dropped: a call that
    still waits for its worker is not counted. *)
Theorem quiescent_exact (f : F) (c : DynamoEngineConfig) (s : Running J F T) :
  reach trim (J := J) (O := O) (mkRunning (engine_new f c) [] []) s ->
  active (engine s) = Z.of_nat (length (streams s)) /\ (is_quiescent (engine s) = true <-> streams s = []).
Proof.
  intros H. assert (active (engine s) = Z.of_nat (length (streams s))) as E.
  2: { split; [done|]. unfold is_quiescent. rewrite Z.eqb_eq, E. destruct (streams s); cbn; split; intros; done || lia. }
  induction H as [|s s' _ IH Hstep Hlen]; [done|].
  destruct Hstep as [s|s|s now r e rq E|s now r e err E|s i rq e st Hi E|s i rq e err Hi E|s i st stopped now st' o Hi E|s i st Hi];
    cbn [engine streams] in *.
  - unfold start. by destruct (started (engine s)).
  - done.
  - by rewrite (accept_active _ _ _ _ _ E).
  - by rewrite (accept_active _ _ _ _ _ E).
  - rewrite (open_active _ _ _ _ E), length_app in *. cbn [length is_ok] in *. rewrite IH. unfold u64_wrap, u64_max in *.
    rewrite Z.mod_small; lia.
  - by rewrite (open_active _ _ _ _ E).
  - by rewrite length_insert.
  - unfold remove_at in *. apply lookup_lt_Some in Hi. rewrite length_app, length_take, length_drop in *. cbn. rewrite IH.
    unfold u64_wrap, u64_max in *. rewrite Z.mod_small; lia.
Qed.

(** A stream that is told to stop answers at once, with at most one more item,
    its cancellation or an error, and gives nothing after it, whether or not
    the runtime still says stop. *)
Theorem stopped_stream_ends (st : RequestStream T) (now : f64) :
  let '(st', o) := poll (O := O) trim st true now in
  (o = Ready None \/ o = Ready (Some (Ok out_cancelled)) \/ o = Ready (Some (Err BackendUnknown))) /\
  forall stopped later, poll (O := O) trim st' stopped later = (st', Ready None).
Proof.
  unfold poll. assert (forall s : RequestStream T, terminal s = true -> forall (stopped : bool) (later : f64),
    (if stopped then let '(s', r) := cancel_at s later in (s', Ready r) else next_at trim s later) = (s, Ready (Ok None))) as Hend.
  { intros s Hs [] later; [unfold cancel_at|unfold next_at]; by rewrite Hs. }
  unfold cancel_at at 1. destruct (terminal st) eqn:Ht.
  - split; [by left|]. intros stopped later. by rewrite Hend.
  - destruct (cleanup st) as [s1 [x|e]].
    + split; [by right; left|]. intros stopped later. by rewrite Hend.
    + split; [by right; right|]. intros stopped later. by rewrite Hend.
Qed.

(** The engine serves only between a start and a cleanup, and starts once. *)
Theorem serves_once_started (e : DynamoLlmEngine F) (now : f64) (r : PreprocessedRequest) :
  (started e = false -> generate (T := T) e now r = Ready (e, Err (EngineShutdown "generate called before start"))) /\
  generate (T := T) (cleanup_engine e) now r = Ready (cleanup_engine e, Err (EngineShutdown "generate called before start")) /\
  (start (start e).1).2 = Err (EngineShutdown "engine already started") /\
  is_ok (start (cleanup_engine e)).2 = true.
Proof.
  split; [|split; [|split]].
  - intros H. unfold generate, accept. by rewrite H.
  - done.
  - unfold start. by destruct (started e).
  - done.
Qed.
End life.

(** ** Samples *)

#[local] Instance json_of_unit : JsonOf unit := {
  of_texts _ := tt; of_ids _ := tt; of_u32 _ := tt; of_f32 _ := tt; of_bool _ := tt
}.

#[local] Instance transport_unit : Transport unit := {
  t_next u := (u, Ready (Ok None));
  t_cancel u := (u, Ok tt)
}.

#[local] Instance factory_unit : TransportFactory unit unit unit := {
  f_open _ := Ok tt;
  t_send _ u _ := (u, Ready (Ok tt))
}.

#[local] Instance output_sample : EngineOutput (list Z) := {
  out_token _ t := t; out_cancelled := [1]; out_length := [2]; out_eos := [3]; out_stop := [4];
  out_content_filter := [5]; out_error _ := [6]
}.

#[local] Instance json_unit : Json unit := {
  from_str _ := None; get _ _ := None; as_str _ := None; as_u64 _ := None
}.

Definition request_sample (n : option Z) : PreprocessedRequest :=
  mkPre [1; 2; 3] false false false false false false false false false
    (mkStop (Some 9) None (Some [9]) (Some [10]) None (Some 2) None (Some false))
    (mkSampling n None None false false None None (Some 8) (Some 4) None None None None (Some true))
    (mkOutput false false false false (Some false)) None.

Example convert_sample :
  match convert_request (J := unit) config_default 7 (of_Z 5) (request_sample None) with
  | Ok (rq, src) => (req_id rq, src, max_tokens (params rq), (extra _ (params rq)).*1) =
      (7, 8, 9, ["stop_token_ids"; "min_tokens"; "include_stop_str_in_output"; "skip_special_tokens"])
  | Err _ => False
  end /\ stop_tokens (stop_conditions (request_sample None)) = Some [9; 10] /\
  is_ok (convert_request (J := unit) config_default 7 (of_Z 5) (request_sample (Some 2))) = false.
Proof. vm_compute. done. Qed.

Definition started_sample : DynamoLlmEngine unit := (start (engine_new tt config_default)).1.

Lemma quiescent_exact_witness : exists e rq e' st,
  accept (J := unit) started_sample (of_Z 5) (request_sample None) = (e, Ok rq) /\
  open_stream e rq = Ready (e', Ok st) /\ active e' = 1 /\ is_quiescent e' = false.
Proof.
  destruct (accept (J := unit) started_sample (of_Z 5) (request_sample None)) as [e [rq|err]] eqn:E; [|discriminate E].
  destruct (open_stream (T := unit) e rq) as [|[e' [st|err]]] eqn:Eo; [discriminate Eo| |discriminate Eo].
  exists e, rq, e', st. split; [reflexivity|]. split; [exact Eo|].
  destruct (quiescent_exact (J := unit) (O := list Z) id tt config_default (mkRunning e' [] [st])) as [Ha Hq].
  - eapply reach_step; [eapply reach_step; [eapply reach_step; [apply reach_start| |]| |]| |].
    + exact (step_start id (mkRunning (engine_new tt config_default) [] [])).
    + unfold u64_max. cbn. lia.
    + exact (step_accepted id (mkRunning started_sample [] []) _ _ _ _ E).
    + unfold u64_max. cbn. lia.
    + exact (step_opened id (mkRunning e [rq] []) 0 rq e' st eq_refl Eo).
    + unfold u64_max. cbn. lia.
  - split; [exact Ha|]. destruct (is_quiescent e') eqn:Eq; [|reflexivity]. discriminate (proj1 Hq Eq).
Defined.
End Dynamo.
