(* ===== verification/Transfer.v ===== *)
(** * KV transfer and resharding ([crates/transfer/src])

    The rank-to-rank plan that moves KV heads from a prefill worker's tensor
    parallel layout to a decode worker's ([reshard.rs]), and the in-process
    transfer that accounts for it ([local.rs]). *)

From Stdlib Require Import ZArith Lia.
From stdpp Require Import base option list numbers gmap strings.
From S2P Require Import Prelude F64 F64Int Core.

Module Transfer.
Local Open Scope Z_scope.
Local Open Scope s_scope.

(** ** The plan *)

Record Reshard := mkReshard {
  num_kv_heads : Z;
  src_tp : Z;
  dst_tp : Z
}.

Record ReshardEdge := mkEdge {
  head : Z;
  src_rank : Z;
  dst_rank : Z
}.

#[export] Instance ReshardEdge_eq_dec : EqDecision ReshardEdge.
Proof. solve_decision. Defined.

Record ReshardPlan := mkPlan {
  reshard : Reshard;
  edges : list ReshardEdge
}.

Definition identity (heads tp : Z) : Reshard := mkReshard heads tp tp.

Definition is_identity (r : Reshard) : bool := src_tp r =? dst_tp r.

Definition heads_per_rank (r : Reshard) (tp : Z) : Z := checked_div_or 0 (num_kv_heads r) tp.

Definition dst_replication (r : Reshard) : Z :=
  Z.max (checked_div_or 1 (dst_tp r) (num_kv_heads r)) 1.

(** The edges the body of the loop pushes for one head. *)
Definition edges_of (r : Reshard) (h : Z) : list ReshardEdge :=
  let src :=
    if src_tp r <=? num_kv_heads r then h / (num_kv_heads r / src_tp r)
    else h * (src_tp r / num_kv_heads r) in
  if dst_tp r <=? num_kv_heads r then
    [mkEdge h src (h / (num_kv_heads r / dst_tp r))]
  else
    let rep := dst_tp r / num_kv_heads r in
    map (fun k => mkEdge h src (h * rep + k)) (seqZ 0 rep).

Definition plan (r : Reshard) : result Error ReshardPlan :=
  if (num_kv_heads r =? 0) || (src_tp r =? 0) || (dst_tp r =? 0) then
    Err TransferError
  else if (num_kv_heads r <? src_tp r) && negb (src_tp r mod num_kv_heads r =? 0) then
    Err TransferError
  else if (num_kv_heads r <? dst_tp r) && negb (dst_tp r mod num_kv_heads r =? 0) then
    Err TransferError
  else Ok (mkPlan r (flat_map (edges_of r) (seqZ 0 (num_kv_heads r)))).

Definition amplification (p : ReshardPlan) : f64 :=
  fdiv (of_nat (length (edges p))) (of_Z (Z.max (num_kv_heads (reshard p)) 1)).

(** ** The transfer *)

Record TransferRequest := mkTransferRequest {
  tr_id : RequestId;
  src_blocks : list Z;
  dst_blocks : list Z;
  num_tokens : Z;
  tr_reshard : Reshard
}.

Record TransferStats := mkTransferStats {
  bytes : Z;
  elapsed_ms : f64
}.

Definition moved_data (s : TransferStats) : bool := 0 <? bytes s.

Definition gib_per_s (s : TransferStats) : f64 :=
  if fle (elapsed_ms s) f0 then f0
  else fdiv (fdiv (fdiv (fdiv (of_Z (bytes s)) (of_Z 1024)) (of_Z 1024)) (of_Z 1024))
            (fdiv (elapsed_ms s) (of_Z 1000)).

Record LocalTransfer := mkLocal {
  bytes_per_token : Z;
  bandwidth_gib_s : f64;
  latency_ms : f64
}.

Definition kv_bytes_per_token (layers kv_heads head_dim dtype_bytes : Z) : Z :=
  u64_wrap (u64_wrap (u64_wrap (2 * layers * kv_heads) * head_dim) * dtype_bytes).

Definition local_default : LocalTransfer :=
  mkLocal (kv_bytes_per_token 94 4 128 1) (of_Z 40) (dec 5 1).

(** [KvTransfer::transfer] of [LocalTransfer]. *)
Definition transfer (t : LocalTransfer) (req : TransferRequest) : result Error TransferStats :=
  p <-? plan (tr_reshard req) ;;
  let b := u64_wrap (num_tokens req * bytes_per_token t) in
  let on_wire := fmul (of_Z b) (amplification p) in
  let secs := fdiv on_wire
    (fmul (fmul (fmul (bandwidth_gib_s t) (of_Z 1024)) (of_Z 1024)) (of_Z 1024)) in
  Ok (mkTransferStats b (fadd (latency_ms t) (fmul secs (of_Z 1000)))).

(** ** The layout the plan is about

    [owns H tp rank h]: under tensor parallelism of degree [tp] over [H] heads,
    [rank] holds head [h]: contiguous groups of [H / tp] heads per rank, or
    [tp / H] consecutive replicas of each head. *)
Definition owns (H tp rank h : Z) : Prop :=
  0 <= rank < tp /\ 0 <= h < H /\
  if tp <=? H then h / (H / tp) = rank else rank / (tp / H) = h.

#[export] Instance owns_dec H tp rank h : Decision (owns H tp rank h).
Proof. unfold owns. destruct (tp <=? H); apply _. Defined.

(** A degree is even over [H] heads when one divides the other. *)
Definition even_layout (H tp : Z) : Prop := (tp | H) \/ (H | tp).

Lemma rank_lt H tp h : 0 < tp -> (tp | H) -> 0 <= h < H -> 0 <= h / (H / tp) < tp.
Proof.
  intros Htp [k ->] Hh. rewrite Z.div_mul by lia.
  assert (0 < k) by nia. split; [apply Z.div_pos; lia|].
  apply Z.div_lt_upper_bound; nia.
Qed.

Lemma even_cases H tp : 0 < H -> 0 < tp -> even_layout H tp ->
  (tp <= H /\ (tp | H)) \/ (H < tp /\ (H | tp)).
Proof.
  intros HH Htp [Hd|Hd].
  - left. split; [by apply Z.divide_pos_le|done].
  - destruct (Z.le_gt_cases tp H); [|right; done].
    apply Z.divide_pos_le in Hd as Hle; [|done].
    assert (H = tp) as -> by lia. left. split; [lia|]. exists 1. lia.
Qed.

Lemma plan_ok_iff r : 0 <= num_kv_heads r -> 0 <= src_tp r -> 0 <= dst_tp r ->
  is_ok (plan r) = true <->
  0 < num_kv_heads r /\ 0 < src_tp r /\ 0 < dst_tp r /\
  (num_kv_heads r < src_tp r -> (num_kv_heads r | src_tp r)) /\
  (num_kv_heads r < dst_tp r -> (num_kv_heads r | dst_tp r)).
Proof.
  intros HH Hs Hd. unfold plan.
  destruct (Z.eqb_spec (num_kv_heads r) 0); simpl; [split; [done|lia]|].
  destruct (Z.eqb_spec (src_tp r) 0); simpl; [split; [done|lia]|].
  destruct (Z.eqb_spec (dst_tp r) 0); simpl; [split; [done|lia]|].
  destruct (Z.ltb_spec (num_kv_heads r) (src_tp r)) as [H1|H1]; simpl;
    [destruct (Z.eqb_spec (src_tp r mod num_kv_heads r) 0) as [E1|E1]; simpl|].
  2: { split; [done|]. intros (_ & _ & _ & Hdv & _). apply Hdv in H1.
       apply Z.mod_divide in H1; [done|lia]. }
  all: destruct (Z.ltb_spec (num_kv_heads r) (dst_tp r)) as [H2|H2]; simpl;
    [destruct (Z.eqb_spec (dst_tp r mod num_kv_heads r) 0) as [E2|E2]; simpl|].
  all: try (split; [done|]; intros (_ & _ & _ & _ & Hdv); apply Hdv in H2;
    apply Z.mod_divide in H2; [done|lia]).
  all: split; [intros _|done]; repeat split; try lia; intros _; apply Z.mod_divide; lia.
Qed.

Lemma plan_edges r p : plan r = Ok p ->
  p = mkPlan r (flat_map (edges_of r) (seqZ 0 (num_kv_heads r))).
Proof. unfold plan. repeat case_match; congruence. Qed.

Lemma head_of_edges_of r h e : e ∈ edges_of r h -> head e = h.
Proof.
  unfold edges_of. destruct (dst_tp r <=? num_kv_heads r).
  - intros He. by apply list_elem_of_singleton in He as ->.
  - intros (k & -> & _)%list_elem_of_fmap. done.
Qed.

Lemma edges_of_NoDup r h : NoDup (edges_of r h).
Proof.
  unfold edges_of. destruct (dst_tp r <=? num_kv_heads r); [apply NoDup_singleton|].
  apply NoDup_fmap_2; [|apply NoDup_seqZ]. intros a b [=]. lia.
Qed.

Lemma elem_of_plan r e : e ∈ flat_map (edges_of r) (seqZ 0 (num_kv_heads r)) <->
  0 <= head e < num_kv_heads r /\ e ∈ edges_of r (head e).
Proof.
  rewrite list_elem_of_In, in_flat_map. setoid_rewrite <- list_elem_of_In. split.
  - intros (h & Hh & He). apply elem_of_seqZ in Hh.
    apply head_of_edges_of in He as Hhe. rewrite Hhe. split; [lia|done].
  - intros [Hh He]. exists (head e). split; [apply elem_of_seqZ; lia|done].
Qed.

Lemma flat_map_NoDup r l : NoDup l -> NoDup (flat_map (edges_of r) l).
Proof.
  induction 1 as [|h l Hin Hnd IH]; simpl; [constructor|].
  apply NoDup_app. split; [apply edges_of_NoDup|]. split; [|done].
  intros e He He'. apply head_of_edges_of in He. apply Hin. rewrite <- He.
  rewrite list_elem_of_In, in_flat_map in He'. destruct He' as (h' & Hh' & He').
  rewrite <- list_elem_of_In in He'. apply head_of_edges_of in He' as ->.
  by apply list_elem_of_In.
Qed.

(** The source rank of an edge: the first rank that holds the head. *)
Lemma src_first H tp h s : 0 < tp -> 0 < H -> even_layout H tp -> 0 <= h < H ->
  s = (if tp <=? H then h / (H / tp) else h * (tp / H)) <->
  owns H tp s h /\ forall s', owns H tp s' h -> s <= s'.
Proof.
  intros Htp HH Hev Hh. unfold owns.
  destruct (even_cases H tp HH Htp Hev) as [[Hle Hd]|[Hlt Hd]].
  - rewrite (proj2 (Z.leb_le _ _) Hle). pose proof (rank_lt H tp h Htp Hd Hh). split.
    + intros ->. split; [done|]. lia.
    + intros [(_ & _ & <-) _]. done.
  - rewrite (proj2 (Z.leb_gt _ _) Hlt). destruct Hd as [k ->].
    assert (0 < k) by nia. rewrite !Z.div_mul by lia. split.
    + intros ->. rewrite Z.div_mul by lia. split; [nia|].
      intros s' (Hs & _ & <-). pose proof (Z.mul_div_le s' k ltac:(lia)). lia.
    + intros [(Hs & _ & Hsh) Hmin].
      assert (h * k <= s) by (rewrite <- Hsh; pose proof (Z.mul_div_le s k ltac:(lia)); lia).
      assert (s <= h * k); [|lia].
      apply Hmin. rewrite Z.div_mul by lia. nia.
Qed.

Lemma dst_all r e : 0 < dst_tp r -> 0 < num_kv_heads r ->
  even_layout (num_kv_heads r) (dst_tp r) -> 0 <= head e < num_kv_heads r ->
  e ∈ edges_of r (head e) <->
  owns (num_kv_heads r) (dst_tp r) (dst_rank e) (head e) /\
  src_rank e = (if src_tp r <=? num_kv_heads r then head e / (num_kv_heads r / src_tp r)
                else head e * (src_tp r / num_kv_heads r)).
Proof.
  intros Htp HH Hev Hh. unfold edges_of, owns.
  set (s := if src_tp r <=? num_kv_heads r then _ else _). destruct e as [h se d]; simpl in *.
  destruct (even_cases _ _ HH Htp Hev) as [[Hle Hd]|[Hlt Hd]].
  - rewrite (proj2 (Z.leb_le _ _) Hle). rewrite list_elem_of_singleton.
    pose proof (rank_lt _ _ h Htp Hd Hh). split.
    + intros [= -> ->]. done.
    + intros [(_ & _ & <-) ->]. done.
  - rewrite (proj2 (Z.leb_gt _ _) Hlt). destruct Hd as [k Hk]. rewrite Hk, Z.div_mul by lia.
    assert (0 < k) by nia. rewrite list_elem_of_fmap. split.
    + intros (q & [= -> ->] & Hq). apply elem_of_seqZ in Hq. split; [|done].
      rewrite Z.add_comm, Z.div_add, Z.div_small by lia. nia.
    + intros [(_ & _ & Hdh) ->]. exists (d mod k).
      pose proof (Z.div_mod d k ltac:(lia)). split; [f_equal; rewrite <- Hdh; lia|].
      apply elem_of_seqZ. pose proof (Z.mod_pos_bound d k ltac:(lia)). lia.
Qed.

(** C32. The plan is the layout. When each side's TP degree divides the KV heads
    or is a multiple of them, [plan] succeeds and its edges are, each once,
    exactly the pairs (head, destination rank that holds the head under the
    destination layout), read from the first source rank that holds the head. *)
Theorem plan_exact (r : Reshard) :
  0 < num_kv_heads r -> 0 < src_tp r -> 0 < dst_tp r ->
  even_layout (num_kv_heads r) (src_tp r) -> even_layout (num_kv_heads r) (dst_tp r) ->
  exists p, plan r = Ok p /\ reshard p = r /\ NoDup (edges p) /\
    forall e, e ∈ edges p <->
      owns (num_kv_heads r) (dst_tp r) (dst_rank e) (head e) /\
      owns (num_kv_heads r) (src_tp r) (src_rank e) (head e) /\
      forall s, owns (num_kv_heads r) (src_tp r) s (head e) -> src_rank e <= s.
Proof.
  intros HH Hs Hd Hes Hed.
  destruct (plan r) as [p|er] eqn:Hp.
  2: { assert (is_ok (plan r) = true) as Hok; [|by rewrite Hp in Hok].
       apply plan_ok_iff; [lia|lia|lia|]. repeat split; try done; intros ?.
       - destruct (even_cases _ _ HH Hs Hes) as [[? ?]|[? ?]]; [lia|done].
       - destruct (even_cases _ _ HH Hd Hed) as [[? ?]|[? ?]]; [lia|done]. }
  exists p. split; [done|]. apply plan_edges in Hp as ->; simpl.
  split; [done|]. split; [apply flat_map_NoDup, NoDup_seqZ|].
  intros e. rewrite elem_of_plan. split.
  - intros [Hh He]. apply dst_all in He as [Ho Hse]; [|done..].
    split; [done|]. by apply src_first in Hse.
  - intros (Ho & Hso). assert (0 <= head e < num_kv_heads r) as Hh by apply Ho.
    split; [done|]. apply dst_all; [done..|]. split; [done|]. by apply src_first.
Qed.

Lemma plan_exact_witness :
  let r := mkReshard 4 2 8 in
  exists p, plan r = Ok p /\ reshard p = r /\ NoDup (edges p) /\
    forall e, e ∈ edges p <->
      owns 4 8 (dst_rank e) (head e) /\ owns 4 2 (src_rank e) (head e) /\
      forall s, owns 4 2 s (head e) -> src_rank e <= s.
Proof.
  intros r. apply (plan_exact r).
  1-3: reflexivity.
  - left. exists 2. reflexivity.
  - right. exists 2. reflexivity.
Defined.

Lemma sum_const_length {A B} (f : A -> list B) (n : nat) l :
  (forall x, length (f x) = n) -> length (flat_map f l) = (length l * n)%nat.
Proof.
  intros Hn. induction l as [|x l IH]; simpl; [done|]. rewrite length_app, Hn, IH. done.
Qed.

(** What a transfer reports. [transfer] fails exactly when a TP degree or the
    head count is zero or a degree above the head count is not a multiple of it;
    otherwise it reports tokens times bytes per token, whatever the layouts
    (replication is charged to the time, not to the payload), and the plan has
    one edge per head, or one per destination rank when heads are replicated. *)
Theorem transfer_reports (t : LocalTransfer) (req : TransferRequest) :
  let r := tr_reshard req in
  0 <= num_kv_heads r -> 0 <= src_tp r -> 0 <= dst_tp r ->
  0 <= num_tokens req * bytes_per_token t <= u64_max ->
  match transfer t req with
  | Ok s =>
      bytes s = num_tokens req * bytes_per_token t /\
      (moved_data s = true <-> num_tokens req <> 0 /\ bytes_per_token t <> 0) /\
      exists p, plan r = Ok p /\
        Z.of_nat (length (edges p)) = Z.max (num_kv_heads r) (dst_tp r)
  | Err e =>
      e = TransferError /\
      (num_kv_heads r = 0 \/ src_tp r = 0 \/ dst_tp r = 0 \/
       (num_kv_heads r < src_tp r /\ ~ (num_kv_heads r | src_tp r)) \/
       (num_kv_heads r < dst_tp r /\ ~ (num_kv_heads r | dst_tp r)))
  end.
Proof.
  intros r HH Hs Hd Hb. unfold transfer.
  pose proof (plan_ok_iff r HH Hs Hd) as Hiff.
  change (tr_reshard req) with r.
  destruct (plan r) as [p|e] eqn:Hp; cbn [result_bind is_ok bytes] in *.
  - destruct (proj1 Hiff eq_refl) as (HH' & Hs' & Hd' & _ & Hdd).
    assert (u64_wrap (num_tokens req * bytes_per_token t) = num_tokens req * bytes_per_token t) as ->
      by (apply Z.mod_small; unfold u64_max in Hb; lia).
    split; [done|]. split; [unfold moved_data; cbn [bytes]; rewrite Z.ltb_lt; nia|].
    exists p. split; [done|]. apply plan_edges in Hp as ->; cbn [edges].
    destruct (Z.le_gt_cases (dst_tp r) (num_kv_heads r)) as [Hle|Hgt].
    + rewrite (sum_const_length _ 1), length_seqZ; [lia|].
      intros h. unfold edges_of. rewrite (proj2 (Z.leb_le _ _) Hle). done.
    + rewrite (sum_const_length _ (Z.to_nat (dst_tp r / num_kv_heads r))), length_seqZ.
      * destruct (Hdd Hgt) as [k Hk]. rewrite Hk, Z.div_mul by lia. nia.
      * intros h. unfold edges_of. rewrite (proj2 (Z.leb_gt _ _) Hgt).
        by rewrite length_map, length_seqZ.
  - split.
    { unfold plan in Hp. repeat case_match; congruence. }
    destruct (decide (num_kv_heads r = 0)); [by left|].
    destruct (decide (src_tp r = 0)); [by right; left|].
    destruct (decide (dst_tp r = 0)); [by right; right; left|].
    assert (~ (0 < num_kv_heads r /\ 0 < src_tp r /\ 0 < dst_tp r /\
      (num_kv_heads r < src_tp r -> (num_kv_heads r | src_tp r)) /\
      (num_kv_heads r < dst_tp r -> (num_kv_heads r | dst_tp r)))) as Hn
      by (intros Hc; apply Hiff in Hc; done).
    destruct (decide (num_kv_heads r < src_tp r));
      [destruct (Znumtheory.Zdivide_dec (num_kv_heads r) (src_tp r))|].
    2: by right; right; right; left.
    all: right; right; right; right.
    all: destruct (decide (num_kv_heads r < dst_tp r)); [|exfalso; apply Hn; repeat split; lia || done].
    all: split; [done|]; intros Hdv; apply Hn; repeat split; lia || done.
Qed.

Lemma transfer_reports_witness :
  let req := mkTransferRequest 1 [] [] 4000 (mkReshard 4 2 8) in
  match transfer local_default req with
  | Ok s => bytes s = 385024000
  | Err _ => False
  end.
Proof.
  intros req. pose proof (transfer_reports local_default req) as H.
  specialize (H ltac:(vm_compute; discriminate) ltac:(vm_compute; discriminate)
    ltac:(vm_compute; discriminate) ltac:(vm_compute; split; discriminate)).
  revert H. destruct (transfer local_default req) as [s|e] eqn:Ht.
  - intros [Hb _]. exact Hb.
  - intros _. vm_compute in Ht. discriminate.
Defined.

(** A degree below the head count is not checked for divisibility: with 4 heads
    and TP 3 the plan succeeds and sends head 3 to rank 3 of 0..2. *)
Theorem uneven_plan_leaves_the_group :
  exists p, plan (mkReshard 4 4 3) = Ok p /\
    exists e, e ∈ edges p /\ dst_tp (reshard p) <= dst_rank e.
Proof.
  eexists. split; [reflexivity|]. exists (mkEdge 3 3 3). split; [|vm_compute; discriminate].
  vm_compute. do 3 right. left.
Qed.
End Transfer.
