(* ===== verification/PyHost.v ===== *)
(** * The embedded Python host ([crates/pyhost/src/lib.rs])

    One thread owns the interpreter.  Callers send it commands through a channel
    and each waits on a channel of its own for the reply.  The interpreter is a
    parameter, the class [Python]; [act] runs one caller or the thread for one
    command. *)

From Stdlib Require Import ZArith Lia.
From stdpp Require Import base option list numbers gmap strings.
From S2P Require Import Prelude F64.

Module PyHost.
Local Open Scope Z_scope.

(** ** The interpreter *)

(** An operation of the interpreter: it may never return ([None]), and it
    returns a value or raises.  Whatever it does, it may change the state. *)
Definition Op (P A : Type) : Type := P -> option (P * option A).

Inductive Arg := AInt (n : Z) | AStr (s : string).

Class Python (P O : Type) := {
  py_import : string -> Op P O;
  py_getattr : O -> string -> Op P O;
  py_call : O -> list Arg -> Op P O;
  py_call_method : O -> string -> list Arg -> Op P O;
  py_eval : O -> string -> Op P O;
  py_run : O -> string -> Op P unit;
  py_dict : P -> P * O;
  py_int : O -> Op P Z;
  py_str : O -> Op P string;
  py_bool : O -> Op P bool
}.

(** What went wrong, with the context the code attaches. *)
Inductive HostError :=
  | NulByte
  | Raised (context : string)
  | WorkerExited
  | ReplyDropped.

(** A computation over the interpreter that ends early on an error. *)
Definition Py (P A : Type) : Type := P -> option (P * result HostError A).

Definition pret {P A} (a : A) : Py P A := fun p => Some (p, Ok a).
Definition pfail {P A} (e : HostError) : Py P A := fun p => Some (p, Err e).
Definition pbind {P A B} (m : Py P A) (k : A -> Py P B) : Py P B := fun p =>
  match m p with
  | None => None
  | Some (p, Err e) => Some (p, Err e)
  | Some (p, Ok a) => k a p
  end.

(** [.context(...)?] *)
Definition context {P A} (m : Op P A) (c : string) : Py P A := fun p =>
  match m p with
  | None => None
  | Some (p, None) => Some (p, Err (Raised c))
  | Some (p, Some a) => Some (p, Ok a)
  end.

Declare Scope py_scope.
Delimit Scope py_scope with py.
Notation "'let*' x := m 'in' k" := (pbind m (fun x => k)) (at level 10, x pattern, m at level 200, k at level 200) : py_scope.

(** ** Commands *)

(** The channel of the reply is named by the number of the call. *)
Inductive Cmd :=
  | Eval (code : string) (reply : nat)
  | EvalStr (code : string) (reply : nat)
  | Exec (code : string) (reply : nat)
  | Call (module func : string) (arg : Z) (reply : nat)
  | Ping (reply : nat)
  | Shutdown.

Inductive Value := VInt (n : Z) | VStr (s : string) | VUnit.

(** The public calls: [eval_int], [eval_str], [exec], [call_int], [ping]. *)
Inductive Request :=
  | EvalInt (code : string)
  | EvalString (code : string)
  | ExecStmt (code : string)
  | CallInt (module func : string) (arg : Z)
  | PingHost.

Definition make_cmd (r : Request) (reply : nat) : Cmd :=
  match r with
  | EvalInt code => Eval code reply
  | EvalString code => EvalStr code reply
  | ExecStmt code => Exec code reply
  | CallInt module func arg => Call module func arg reply
  | PingHost => Ping reply
  end.

(** [CString::new] refuses a text with a NUL byte in it. *)
Fixpoint has_nul (s : string) : bool :=
  match s with
  | EmptyString => false
  | String c s => bool_decide (c = Ascii.zero) || has_nul s
  end.

Section host.
Context {P O : Type} `{!Python P O}.
Local Open Scope py_scope.

Definition c_string (code : string) : Py P string := if has_nul code then pfail NulByte else pret code.

Definition eval_expr (globals : O) (code : string) : Py P Z :=
  let* c_code := c_string code in
  let* o := context (py_eval globals c_code) "Python::eval" in
  context (py_int o) "eval result did not extract as i64".

Definition eval_str_expr (globals : O) (code : string) : Py P string :=
  let* c_code := c_string code in
  let* o := context (py_eval globals c_code) "Python::eval" in
  context (py_str o) "eval result did not extract as String".

Definition exec_stmt (globals : O) (code : string) : Py P unit :=
  let* c_code := c_string code in
  let* _ := context (py_run globals c_code) "Python::run" in
  pret ().

Definition call_func (module func : string) (arg : Z) : Py P Z :=
  let* m := context (py_import module) "import" in
  let* f := context (py_getattr m func) "getattr" in
  let* r := context (py_call f [AInt arg]) "call" in
  context (py_int r) "did not return an int".

(** ** [initialize] *)
Definition initialize (rank : Z) (site_packages : option string) : Py P (option string) :=
  let* _ := match site_packages with
            | Some dir =>
                let* sys := context (py_import "sys") "import sys" in
                let* path := context (py_getattr sys "path") "sys.path" in
                let* _ := context (py_call_method path "insert" [AInt 0; AStr dir]) "sys.path.insert(0, site_packages)" in
                pret ()
            | None => pret ()
            end in
  let* torch := context (py_import "torch") "import torch" in
  let* cuda := context (py_getattr torch "cuda") "torch.cuda" in
  let* answer := context (py_call_method cuda "is_available" []) "torch.cuda.is_available()" in
  let* cuda_available := context (py_bool answer) "torch.cuda.is_available() did not return a bool" in
  let* _ := if cuda_available : bool
            then let* _ := context (py_call_method cuda "set_device" [AInt rank]) "torch.cuda.set_device" in pret ()
            else pret () in
  let* tensorrt_llm := context (py_import "tensorrt_llm") "import tensorrt_llm" in
  let* attr := context (py_getattr tensorrt_llm "__version__") "tensorrt_llm.__version__" in
  let* version := context (py_str attr) "tensorrt_llm.__version__ was not a string" in
  pret (Some version).

(** ** The thread and its callers *)

Inductive Handle := Held | Dropping | Joined.

(** [queue] is the command channel, [awaiting] the calls whose receiver is
    still held, [answers] what they got, [calls] how many were made. *)
Record Host := mkHost {
  interp : P;
  globals : O;
  running : bool;
  queue : list Cmd;
  calls : nat;
  awaiting : gset nat;
  answers : gmap nat (result HostError Value);
  handle : Handle;
  trtllm_version : option string
}.

(** A reply goes to a receiver that is still held; else it is thrown away. *)
Definition reply (s : Host) (n : nat) (v : result HostError Value) : Host :=
  if decide (n ∈ awaiting s)
  then mkHost (interp s) (globals s) (running s) (queue s) (calls s) (awaiting s ∖ {[n]}) (<[n := v]> (answers s))
         (handle s) (trtllm_version s)
  else s.

Definition set_interp (s : Host) (p : P) : Host :=
  mkHost p (globals s) (running s) (queue s) (calls s) (awaiting s) (answers s) (handle s) (trtllm_version s).
Definition set_queue (s : Host) (q : list Cmd) : Host :=
  mkHost (interp s) (globals s) (running s) q (calls s) (awaiting s) (answers s) (handle s) (trtllm_version s).
Definition set_handle (s : Host) (h : Handle) : Host :=
  mkHost (interp s) (globals s) (running s) (queue s) (calls s) (awaiting s) (answers s) h (trtllm_version s).

(** The call that a command answers. *)
Definition reply_of (c : Cmd) : option nat :=
  match c with
  | Eval _ n | EvalStr _ n | Exec _ n | Call _ _ _ n | Ping n => Some n
  | Shutdown => None
  end.

(** The thread ends: its receiver goes, and with the commands in it the senders
    of their replies. *)
Definition thread_exits (s : Host) : Host :=
  let s1 := foldl (fun s c => match reply_of c with Some n => reply s n (Err ReplyDropped) | None => s end) s (queue s) in
  mkHost (interp s1) (globals s1) false [] (calls s1) (awaiting s1) (answers s1) (handle s1) (trtllm_version s1).

(** [start]: the thread initialises; the caller waits for its report. *)
Definition start (rank : Z) (site_packages : option string) (p : P) : option (P * result HostError Host) :=
  match initialize rank site_packages p with
  | None => None
  | Some (p, Err e) => Some (p, Err e)
  | Some (p, Ok version) =>
      let (p, g) := py_dict p in
      Some (p, Ok (mkHost p g true [] 0 ∅ ∅ Held version))
  end.

(** One value for the three types of reply. *)
Definition as_value {A} (f : A -> Value) (m : Py P A) : Py P Value := let* a := m in pret (f a).

(** The body of a command, with the number of its call. *)
Definition execute (g : O) (c : Cmd) : option (nat * Py P Value) :=
  match c with
  | Shutdown => None
  | Ping n => Some (n, pret VUnit)
  | Eval code n => Some (n, as_value VInt (eval_expr g code))
  | EvalStr code n => Some (n, as_value VStr (eval_str_expr g code))
  | Exec code n => Some (n, as_value (fun _ => VUnit) (exec_stmt g code))
  | Call module func arg n => Some (n, as_value VInt (call_func module func arg))
  end.

(** One turn of [run_python_thread]; [None] when it waits, or when the call
    into Python does not return. *)
Definition turn (s : Host) : option Host :=
  if negb (running s) then None
  else match queue s with
       | [] => None
       | c :: rest =>
           let s := set_queue s rest in
           match execute (globals s) c with
           | None => Some (thread_exits s)
           | Some (n, m) =>
               match m (interp s) with
               | None => None
               | Some (p, r) => Some (reply (set_interp s p) n r)
               end
           end
       end.

(** [call], to the point where it waits for the reply. *)
Definition call (s : Host) (r : Request) : Host :=
  let n := calls s in
  if running s
  then mkHost (interp s) (globals s) true (queue s ++ [make_cmd r n]) (S n) (awaiting s ∪ {[n]}) (answers s) (handle s)
         (trtllm_version s)
  else mkHost (interp s) (globals s) false (queue s) (S n) (awaiting s) (<[n := Err WorkerExited]> (answers s)) (handle s)
         (trtllm_version s).

(** The future of a call is dropped. *)
Definition cancel (s : Host) (n : nat) : Host :=
  mkHost (interp s) (globals s) (running s) (queue s) (calls s) (awaiting s ∖ {[n]}) (answers s) (handle s)
    (trtllm_version s).

(** [Drop]: the shutdown is sent, and the thread joined when it is over. *)
Definition drop_host (s : Host) : Host :=
  set_handle (if running s then set_queue s (queue s ++ [Shutdown]) else s) Dropping.

Definition join (s : Host) : option Host := if running s then None else Some (set_handle s Joined).

Inductive Action :=
  | Request_ (r : Request)
  | Cancel (n : nat)
  | Turn
  | DropHost
  | Join.

(** Calls and the drop need the handle; the drop takes it, and a call that waits
    for its reply borrows it. *)
Definition act (s : Host) (a : Action) : option Host :=
  match a, handle s with
  | Request_ r, Held => Some (call s r)
  | DropHost, Held => if decide (awaiting s = ∅) then Some (drop_host s) else None
  | Join, Dropping => join s
  | Cancel n, _ => if decide (n ∈ awaiting s) then Some (cancel s n) else None
  | Turn, _ => turn s
  | _, _ => None
  end.

(** [crossing_overhead_ns]: the pings one after the other. *)
Definition ITERATIONS : Z := 10000.
Definition crossing_overhead_ns (pings : list (result HostError unit)) (elapsed_ns : Z) : result HostError f64 :=
  match list_find (fun r => is_ok r = false) pings with
  | Some (_, Err e) => Err e
  | _ => Ok (fdiv (of_Z elapsed_ns) (of_Z ITERATIONS))
  end.

(** ** Runs *)

Definition requests (a : Action) : list Request := match a with Request_ r => [r] | _ => [] end.
Definition dropped (a : Action) : gset nat := match a with Cancel n => {[n]} | _ => ∅ end.

(** Reached from [s0] with the requests [log] and the calls [gone] dropped. *)
Inductive reach (s0 : Host) : list Request -> gset nat -> Host -> Prop :=
  | reach_start : reach s0 [] ∅ s0
  | reach_act log gone s a s' : reach s0 log gone s -> act s a = Some s' ->
      reach s0 (log ++ requests a) (gone ∪ dropped a) s'.

Fixpoint turns (n : nat) (s : Host) : option Host :=
  match n with
  | 0%nat => Some s
  | S n => match turn s with Some s => turns n s | None => None end
  end.

Fixpoint run_actions (s : Host) (l : list Action) : option Host :=
  match l with
  | [] => Some s
  | a :: l => match act s a with Some s => run_actions s l | None => None end
  end.

Lemma session_reaches s0 l : forall log gone s s', reach s0 log gone s -> run_actions s l = Some s' ->
  reach s0 (log ++ concat (map requests l)) (gone ∪ foldr (fun a g => dropped a ∪ g) ∅ l) s'.
Proof.
  induction l as [|a l IH]; intros log gone s s' H; cbn [run_actions map concat foldr].
  - intros [= <-]. by rewrite app_nil_r, union_empty_r_L.
  - destruct (act s a) as [s1|] eqn:E; [|done]. rewrite app_assoc, union_assoc_L. apply IH.
    by eapply reach_act.
Qed.

(** ** The specification: the requests one after the other *)

Definition meaning (g : O) (r : Request) : Py P Value :=
  match r with
  | EvalInt code => as_value VInt (eval_expr g code)
  | EvalString code => as_value VStr (eval_str_expr g code)
  | ExecStmt code => as_value (fun _ => VUnit) (exec_stmt g code)
  | CallInt module func arg => as_value VInt (call_func module func arg)
  | PingHost => pret VUnit
  end.

Fixpoint sequential (g : O) (p : P) (l : list Request) : option (P * list (result HostError Value)) :=
  match l with
  | [] => Some (p, [])
  | r :: l =>
      match meaning g r p with
      | None => None
      | Some (p, v) => match sequential g p l with Some (p, vs) => Some (p, v :: vs) | None => None end
      end
  end.

(** The commands of the calls [n], [S n], ... *)
Fixpoint commands (n : nat) (l : list Request) : list Cmd :=
  match l with [] => [] | r :: l => make_cmd r n :: commands (S n) l end.

(** ** Lemmas *)

Lemma turns_app k1 k2 : forall s, turns (k1 + k2) s = match turns k1 s with Some s => turns k2 s | None => None end.
Proof. induction k1 as [|k1 IH]; intros s; cbn [turns Nat.add]; [done|]. by destruct (turn s). Qed.

Lemma execute_make g r n : execute g (make_cmd r n) = Some (n, meaning g r).
Proof. by destruct r. Qed.

Lemma commands_snoc l r : forall n, commands n (l ++ [r]) = commands n l ++ [make_cmd r (n + length l)].
Proof.
  induction l as [|x l IH]; intros n; cbn [commands app length]; [by rewrite Nat.add_0_r|].
  by rewrite IH, Nat.add_succ_comm.
Qed.

Lemma sequential_app g l1 l2 : forall p, sequential g p (l1 ++ l2) =
  match sequential g p l1 with
  | Some (p1, v1) => match sequential g p1 l2 with Some (p2, v2) => Some (p2, v1 ++ v2) | None => None end
  | None => None
  end.
Proof.
  induction l1 as [|r l1 IH]; intros p; cbn [sequential app].
  - by destruct (sequential g p l2) as [[]|].
  - destruct (meaning g r p) as [[p1 v]|]; [|done]. rewrite IH.
    destruct (sequential g p1 l1) as [[p2 v1]|]; [|done]. by destruct (sequential g p2 l2) as [[]|].
Qed.

Lemma sequential_length g l : forall p p' vs, sequential g p l = Some (p', vs) -> length vs = length l.
Proof.
  induction l as [|r l IH]; intros p p' vs; cbn [sequential]; [by intros [= _ <-]|].
  destruct (meaning g r p) as [[p1 v]|]; [|done]. destruct (sequential g p1 l) as [[p2 v1]|] eqn:E; [|done].
  intros [= _ <-]. cbn [length]. f_equal. by eapply IH.
Qed.

(** The host between the calls of [done], which were executed, and those of
    [todo], which wait; [tail] is the shutdown, once it was sent. *)
Record serves (s0 : Host) (done todo : list Request) (vs : list (result HostError Value)) (gone : gset nat) (s : Host)
    : Prop := {
  sv_globals : globals s = globals s0;
  sv_done : sequential (globals s0) (interp s0) done = Some (interp s, vs);
  sv_queue : queue s = commands (length done) todo ++ (if running s then match handle s with Held => [] | _ => [Shutdown] end else []);
  sv_calls : calls s = (length done + length todo)%nat;
  sv_awaiting n : n ∈ awaiting s <-> (length done <= n < length done + length todo)%nat /\ n ∉ gone;
  sv_answers n : n ∉ gone -> answers s !! n = vs !! n;
  sv_gone n : n ∈ gone -> (n < length done + length todo)%nat;
  sv_running : running s = false -> todo = [] /\ handle s <> Held
}.

Definition fresh (s : Host) : Prop :=
  queue s = [] /\ calls s = 0%nat /\ awaiting s = ∅ /\ answers s = ∅ /\ running s = true /\ handle s = Held.

Lemma pbind_ok {A B} (m : Py P A) (k : A -> Py P B) p p' b : pbind m k p = Some (p', Ok b) ->
  exists p1 a, m p = Some (p1, Ok a) /\ k a p1 = Some (p', Ok b).
Proof. unfold pbind. destruct (m p) as [[p1 [a|e]]|]; [|done..]. intros H. by exists p1, a. Qed.

Lemma initialize_version rank site p p' v : initialize rank site p = Some (p', Ok v) -> is_Some v.
Proof.
  unfold initialize. intros H. repeat (apply pbind_ok in H as (? & ? & _ & H)). injection H as _ <-. eauto.
Qed.

Lemma start_fresh rank site p p' s : start rank site p = Some (p', Ok s) ->
  fresh s /\ interp s = p' /\ exists v, trtllm_version s = Some v.
Proof.
  unfold start. destruct (initialize rank site p) as [[p1 [v|e]]|] eqn:E; [|done..].
  destruct (py_dict p1) as [p2 g]. intros [= <- <-]. split; [done|]. split; [done|].
  by apply initialize_version in E as [version ->]; eexists.
Qed.

Lemma fresh_serves s : fresh s -> serves s [] [] [] ∅ s.
Proof.
  intros (Hq & Hc & Ha & Hr & Hrun & Hh). split; try done.
  - by rewrite Hq, Hrun, Hh.
  - intros n. rewrite Ha. cbn [length]. split; [set_solver|lia].
  - intros n _. by rewrite Hr, lookup_empty.
  - by rewrite Hrun.
Qed.

(** What a reply changes. *)
Lemma reply_fields s n v :
  interp (reply s n v) = interp s /\ globals (reply s n v) = globals s /\ running (reply s n v) = running s /\
  queue (reply s n v) = queue s /\ calls (reply s n v) = calls s /\ handle (reply s n v) = handle s /\
  awaiting (reply s n v) = awaiting s ∖ {[n]} /\
  (forall m, answers (reply s n v) !! m = if decide (m = n /\ n ∈ awaiting s) then Some v else answers s !! m).
Proof.
  unfold reply. destruct (decide (n ∈ awaiting s)) as [H|H].
  - repeat (split; [done|]). intros m. cbn [answers]. destruct (decide (m = n)) as [->|Hne].
    + by rewrite lookup_insert_eq, decide_True.
    + rewrite lookup_insert_ne by done. by rewrite decide_False by tauto.
  - repeat (split; [done|]). split; [set_solver|]. intros m. by rewrite decide_False by tauto.
Qed.

Lemma lookup_last {A} (l : list A) x n : (l ++ [x]) !! n = if decide (n = length l) then Some x else l !! n.
Proof.
  destruct (decide (n = length l)) as [->|H].
  - rewrite lookup_app_r by lia. by rewrite Nat.sub_diag.
  - destruct (decide (n < length l)%nat); [by apply lookup_app_l|].
    rewrite !lookup_ge_None_2; [done|lia|]. rewrite length_app. cbn. lia.
Qed.

(** A turn executes the first of the waiting requests. *)
Lemma turn_serves s0 done r todo vs gone s : serves s0 done (r :: todo) vs gone s ->
  turn s = match meaning (globals s0) r (interp s) with
           | Some (p, v) => Some (reply (set_interp (set_queue s (commands (S (length done)) todo ++
               (if running s then match handle s with Held => [] | _ => [Shutdown] end else []))) p) (length done) v)
           | None => None
           end.
Proof.
  intros [Hg Hd Hq _ _ _ _ Hrun]. unfold turn. destruct (running s) eqn:Er; [|by destruct Hrun]. cbn [negb].
  rewrite Hq. cbn [commands app]. rewrite execute_make. cbn [globals set_queue interp]. by rewrite Hg.
Qed.

Lemma turn_keeps s0 done r todo vs gone s p v : serves s0 done (r :: todo) vs gone s ->
  meaning (globals s0) r (interp s) = Some (p, v) ->
  exists s', turn s = Some s' /\ interp s' = p /\ running s' = running s /\ handle s' = handle s /\
    serves s0 (done ++ [r]) todo (vs ++ [v]) gone s'.
Proof.
  intros H Hm. rewrite (turn_serves _ _ _ _ _ _ _ H), Hm. eexists. split; [reflexivity|].
  set (s1 := set_interp _ p). destruct (reply_fields s1 (length done) v) as (E1 & E2 & E3 & E4 & E5 & E6 & E7 & E8).
  rewrite E1, E3, E6. repeat (split; [done|]). destruct H as [Hg Hd Hq Hc Ha Hr Hgone Hrun].
  pose proof (sequential_length _ _ _ _ _ Hd) as Hl.
  split; rewrite ?E1, ?E2, ?E3, ?E4, ?E5, ?E6, ?length_app; cbn [length]; subst s1;
    cbn [interp globals running queue calls handle set_interp set_queue].
  - done.
  - by rewrite sequential_app, Hd; cbn [sequential]; rewrite Hm.
  - by rewrite Nat.add_1_r.
  - rewrite Hc. cbn [length]. lia.
  - intros n. rewrite E7. cbn [awaiting set_interp set_queue]. rewrite elem_of_difference, Ha, elem_of_singleton.
    cbn [length]. split; [intros ([H1 H2] & H3); split; [lia|done]|intros [H1 H2]; split; [split; [lia|done]|lia]].
  - intros n Hn. rewrite E8. cbn [awaiting answers set_interp set_queue]. rewrite lookup_last, Hl.
    destruct (decide (n = length done)) as [->|Hne].
    + rewrite decide_True by (split; [done|]; apply Ha; cbn [length]; split; [lia|done]). done.
    + rewrite decide_False by tauto. by apply Hr.
  - intros n Hn%Hgone. cbn [length] in Hn. lia.
  - intros [[=] _]%Hrun.
Qed.

(** With no request waiting, the thread waits, or it takes the shutdown. *)
Lemma turn_idle s0 done vs gone s : serves s0 done [] vs gone s ->
  turn s = if running s then match handle s with
             | Held => None
             | _ => Some (mkHost (interp s) (globals s) false [] (calls s) (awaiting s) (answers s) (handle s) (trtllm_version s))
             end else None.
Proof.
  intros H. destruct H as [_ _ Hq _ _ _ _ _]. unfold turn. destruct (running s) eqn:Er; [|done]. cbn [negb].
  rewrite Hq. cbn [commands app]. destruct (handle s) eqn:Hh; cbn; unfold thread_exits; cbn; by rewrite ?Hh.
Qed.

Lemma call_serves s0 done todo vs gone s r : serves s0 done todo vs gone s -> handle s = Held ->
  serves s0 done (todo ++ [r]) vs gone (call s r).
Proof.
  intros [Hg Hd Hq Hc Ha Hr Hgone Hrun] Hh. unfold call. destruct (running s) eqn:Er; [|by destruct (Hrun eq_refl)].
  rewrite Hh in Hq. pose proof (sequential_length _ _ _ _ _ Hd) as Hl.
  split; rewrite ?length_app; cbn [globals interp queue running handle calls awaiting answers length].
  - done.
  - done.
  - by rewrite Hh, Hq, !app_nil_r, commands_snoc, Hc.
  - rewrite Hc. lia.
  - intros n. rewrite elem_of_union, Ha, elem_of_singleton, Hc. split.
    + intros [[H1 H2]| ->]; [split; [lia|done]|]. split; [lia|].
      intros ?%Hgone. lia.
    + intros [H1 H2]. destruct (decide (n = length done + length todo)%nat); [by right|]. left. split; [lia|done].
  - done.
  - intros n Hn%Hgone. lia.
  - done.
Qed.

Lemma cancel_serves s0 done todo vs gone s n : serves s0 done todo vs gone s -> n ∈ awaiting s ->
  serves s0 done todo vs (gone ∪ {[n]}) (cancel s n).
Proof.
  intros [Hg Hd Hq Hc Ha Hr Hgone Hrun] Hn. split; try done.
  - intros m. cbn [cancel awaiting]. rewrite elem_of_difference, Ha. set_solver.
  - intros m Hm. apply Hr. set_solver.
  - intros m [Hm| ->%elem_of_singleton]%elem_of_union; [by apply Hgone|]. apply Ha in Hn. lia.
Qed.

Lemma drop_serves s0 done todo vs gone s : serves s0 done todo vs gone s -> handle s = Held ->
  serves s0 done todo vs gone (drop_host s) /\ running (drop_host s) = true /\ handle (drop_host s) = Dropping.
Proof.
  intros [Hg Hd Hq Hc Ha Hr Hgone Hrun] Hh. unfold drop_host. destruct (running s) eqn:Er; [|by destruct (Hrun eq_refl)].
  split; [|done]. rewrite Hh in Hq. split; try done; cbn [queue set_handle set_queue running handle].
  - by rewrite Er, Hq, app_nil_r.
  - by rewrite Er.
Qed.

Lemma act_serves s0 done todo vs gone s a s' : serves s0 done todo vs gone s -> act s a = Some s' ->
  exists done' todo' vs', (done ++ todo) ++ requests a = done' ++ todo' /\
    serves s0 done' todo' vs' (gone ∪ dropped a) s'.
Proof.
  intros H. destruct a as [r|n| | |]; cbn [act requests dropped].
  - destruct (handle s) eqn:Hh; [|done..]. intros [= <-]. exists done, (todo ++ [r]), vs. rewrite union_empty_r_L, app_assoc.
    split; [done|]. by apply call_serves.
  - destruct (decide (n ∈ awaiting s)) as [Hn|]; [|by destruct (handle s)]. exists done, todo, vs. rewrite app_nil_r.
    split; [done|]. destruct (handle s); simplify_eq/=; by apply cancel_serves.
  - assert (turn s = Some s' -> exists done' todo' vs', (done ++ todo) ++ [] = done' ++ todo' /\
      serves s0 done' todo' vs' (gone ∪ ∅) s') as Ht; [|by destruct (handle s)].
    rewrite union_empty_r_L, app_nil_r. intros Ht. destruct todo as [|r todo].
    + rewrite (turn_idle _ _ _ _ _ H) in Ht. exists done, [], vs. split; [done|].
      destruct H as [Hg Hd Hq Hc Ha Hr Hgone Hrun]. destruct (running s) eqn:Er; [|done].
      destruct (handle s) eqn:Hh; [done| |]; injection Ht as <-; by split.
    + destruct (meaning (globals s0) r (interp s)) as [[p v]|] eqn:Hm.
      * destruct (turn_keeps _ _ _ _ _ _ _ _ _ H Hm) as (s1 & Hs1 & _ & _ & _ & H1). simplify_eq.
        exists (done ++ [r]), todo, (vs ++ [v]). by rewrite <- app_assoc.
      * by rewrite (turn_serves _ _ _ _ _ _ _ H), Hm in Ht.
  - destruct (handle s) eqn:Hh; [|done..]. destruct (decide _); [|done]. intros [= <-]. exists done, todo, vs.
    rewrite union_empty_r_L, app_nil_r. split; [done|]. by apply drop_serves.
  - destruct (handle s) eqn:Hh; [done| |done]. unfold join. destruct (running s) eqn:Er; [done|]. intros [= <-].
    exists done, todo, vs. rewrite union_empty_r_L, app_nil_r. split; [done|].
    destruct H as [Hg Hd Hq Hc Ha Hr Hgone Hrun]. split; try done; cbn [queue set_handle running handle].
    + by rewrite Er in *.
    + intros Hf. split; [by apply Hrun|done].
Qed.

Lemma reach_serves s0 log gone s : fresh s0 -> reach s0 log gone s ->
  exists done todo vs, log = done ++ todo /\ serves s0 done todo vs gone s.
Proof.
  intros H0. induction 1 as [|log gone s a s' _ (done & todo & vs & -> & IH) Hact].
  { exists [], [], []. split; [done|]. by apply fresh_serves. }
  destruct (act_serves _ _ _ _ _ _ _ _ IH Hact) as (done' & todo' & vs' & -> & H'). by exists done', todo', vs'.
Qed.

(** Turns as many as there are requests answer all of them. *)
Lemma turns_answer s0 todo : forall done vs gone s p vs', serves s0 done todo vs gone s ->
  sequential (globals s0) (interp s) todo = Some (p, vs') ->
  exists s', turns (length todo) s = Some s' /\ interp s' = p /\ running s' = running s /\ handle s' = handle s /\
    serves s0 (done ++ todo) [] (vs ++ vs') gone s'.
Proof.
  induction todo as [|r todo IH]; intros done vs gone s p vs' H; cbn [sequential length turns].
  - intros [= <- <-]. exists s. by rewrite !app_nil_r.
  - destruct (meaning (globals s0) r (interp s)) as [[p1 v]|] eqn:Hm; [|done].
    destruct (sequential _ p1 todo) as [[p2 vs2]|] eqn:Hs; [|done]. intros [= <- <-].
    destruct (turn_keeps _ _ _ _ _ _ _ _ _ H Hm) as (s1 & Hs1 & Hi & Hrun & Hh & H1). rewrite Hs1.
    subst p1. destruct (IH _ _ _ _ _ _ H1 Hs) as (s' & E1 & E2 & E3 & E4 & E5). exists s'.
    rewrite <- !app_assoc in E5. rewrite E3, E4. done.
Qed.

(** A request that does not return keeps the thread. *)
Lemma turns_block s0 done todo vs gone s : serves s0 done todo vs gone s ->
  sequential (globals s0) (interp s) todo = None -> running s = true ->
  forall k s', turns k s = Some s' -> running s' = true.
Proof.
  intros H Hs Hrun k. revert done todo vs s H Hs Hrun. induction k as [|k IH]; intros done todo vs s H Hs Hrun s'; cbn [turns].
  - by intros [= <-].
  - destruct todo as [|r todo]; [done|]. cbn [sequential] in Hs. rewrite (turn_serves _ _ _ _ _ _ _ H).
    destruct (meaning (globals s0) r (interp s)) as [[p v]|] eqn:Hm; [|done].
    destruct (turn_keeps _ _ _ _ _ _ _ _ _ H Hm) as (s1 & Hs1 & Hi & Hrun1 & _ & H1).
    rewrite (turn_serves _ _ _ _ _ _ _ H), Hm in Hs1. injection Hs1 as ->. subst p.
    destruct (sequential (globals s0) (interp s1) todo) as [[]|] eqn:E; [done|].
    apply (IH _ _ _ _ H1 E). congruence.
Qed.

Lemma execute_total_error {A} (f : A -> Value) (m : Py P A) p p' e :
  as_value f m p = Some (p', Err e) -> m p = Some (p', Err e).
Proof. unfold as_value, pbind, pret. destruct (m p) as [[p1 [a|e1]]|]; congruence. Qed.

Lemma pbind_err {A B} (m : Py P A) (k : A -> Py P B) p p' e : pbind m k p = Some (p', Err e) ->
  m p = Some (p', Err e) \/ exists p1 a, m p = Some (p1, Ok a) /\ k a p1 = Some (p', Err e).
Proof. unfold pbind. destruct (m p) as [[p1 [a|e1]]|]; intros; simplify_eq; eauto. Qed.

Lemma context_err {A} (m : Op P A) c p p' e : context m c p = Some (p', Err e) -> e = Raised c.
Proof. unfold context. destruct (m p) as [[p1 [a|]]|]; congruence. Qed.

(** Errors a command itself reports. *)
Definition python_error (e : HostError) : Prop := e = NulByte \/ exists c, e = Raised c.

Lemma meaning_err g r p p' e : meaning g r p = Some (p', Err e) -> python_error e.
Proof.
  assert (forall code, forall q, c_string code p = Some (q, Err e) -> python_error e) as Hn.
  { intros code q. unfold c_string. destruct (has_nul code); [|done]. intros [= _ <-]. by left. }
  destruct r; cbn [meaning]; [intros H%execute_total_error..|done]; revert H;
    unfold eval_expr, eval_str_expr, exec_stmt, call_func; intros H;
    repeat (apply pbind_err in H as [H|(? & ? & _ & H)];
      [first [by eapply Hn | apply context_err in H; right; by eexists]|]);
    try (apply context_err in H; right; by eexists). done.
Qed.

Lemma sequential_err g l n e : forall p p' vs, sequential g p l = Some (p', vs) -> vs !! n = Some (Err e) -> python_error e.
Proof.
  revert n. induction l as [|r l IH]; intros n p p' vs; cbn [sequential]; [by intros [= _ <-]|].
  destruct (meaning g r p) as [[p1 v]|] eqn:Hm; [|done]. destruct (sequential g p1 l) as [[p2 v1]|] eqn:E; [|done].
  intros [= _ <-]. destruct n as [|n]; cbn; [|by eapply IH]. intros [= ->]. by eapply meaning_err.
Qed.

(** A text with a NUL byte is refused before the interpreter is called. *)
Lemma nul_never_reaches_python g code p : has_nul code = true ->
  eval_expr g code p = Some (p, Err NulByte) /\ eval_str_expr g code p = Some (p, Err NulByte) /\
  exec_stmt g code p = Some (p, Err NulByte).
Proof. intros H. unfold eval_expr, eval_str_expr, exec_stmt, pbind, c_string. by rewrite H. Qed.

(** ** Theorems *)

(** C19. Whatever the callers do and however they interleave, the interpreter is in
    the state after some number of the requests, executed one by one in the order
    they were made; a caller that still waits gets the answer of exactly its
    request in that execution, and no other error than its own. *)
Theorem calls_refine_sequential rank site p p' s0 log gone s :
  start rank site p = Some (p', Ok s0) -> reach s0 log gone s ->
  exists done todo vs, log = done ++ todo /\ sequential (globals s0) p' done = Some (interp s, vs) /\
    (forall n, n ∉ gone -> answers s !! n = vs !! n) /\
    (forall n e, n ∉ gone -> answers s !! n = Some (Err e) -> python_error e).
Proof.
  intros Hs Hr. destruct (start_fresh _ _ _ _ _ Hs) as (Hf & <- & _).
  destruct (reach_serves _ _ _ _ Hf Hr) as (done & todo & vs & -> & H). exists done, todo, vs.
  split; [done|]. split; [apply H|]. split; [apply H|]. intros n e Hn. rewrite (sv_answers _ _ _ _ _ _ H n Hn).
  eapply sequential_err, H.
Qed.

(** When the requests return, whether they raise or not, the thread answers every
    caller that still waits, in as many turns as commands wait. *)
Theorem every_call_is_answered rank site p p' s0 log gone s p1 vs :
  start rank site p = Some (p', Ok s0) -> reach s0 log gone s ->
  sequential (globals s0) p' log = Some (p1, vs) ->
  exists k s', turns k s = Some s' /\ (k <= length log)%nat /\ interp s' = p1 /\ awaiting s' = ∅ /\
    (forall n, (n < length log)%nat -> n ∉ gone -> answers s' !! n = vs !! n /\ is_Some (vs !! n)).
Proof.
  intros Hs Hr Hseq. destruct (start_fresh _ _ _ _ _ Hs) as (Hf & <- & _).
  destruct (reach_serves _ _ _ _ Hf Hr) as (done & todo & vs0 & -> & H).
  rewrite sequential_app, (sv_done _ _ _ _ _ _ H) in Hseq.
  destruct (sequential _ (interp s) todo) as [[p2 vs2]|] eqn:Ht; [|done]. injection Hseq as <- <-.
  destruct (turns_answer _ _ _ _ _ _ _ _ H Ht) as (s' & E1 & E2 & _ & _ & E5). exists (length todo), s'.
  split; [done|]. rewrite length_app. split; [lia|]. split; [done|]. split.
  - apply set_eq. intros n. rewrite (sv_awaiting _ _ _ _ _ _ E5), length_app. cbn [length]. split; [lia|set_solver].
  - intros n Hn Hg. split; [by apply E5|]. apply lookup_lt_is_Some_2.
    rewrite (sequential_length _ _ _ _ _ (sv_done _ _ _ _ _ _ E5)), length_app. done.
Qed.

(** C30. Dropping the host ends exactly if the calls sent before it return.
    Suppose that every call into Python made for a request does (the requests,
    one after the other, come to an end, whatever they raise): then the thread
    executes what was sent, takes the shutdown and is over after at most one
    turn per request and one more, and the join returns.  If one of them does
    not return, neither does the drop: however far the thread gets, the join
    waits. *)
Theorem drop_joins rank site p p' s0 log gone s :
  start rank site p = Some (p', Ok s0) -> reach s0 log gone s -> act s DropHost <> None ->
  match sequential (globals s0) p' log with
  | Some (p1, _) =>
      exists k s', turns k (drop_host s) = Some s' /\ (k <= S (length log))%nat /\ interp s' = p1 /\ is_Some (act s' Join)
  | None => forall k s', turns k (drop_host s) = Some s' -> act s' Join = None
  end.
Proof.
  intros Hs Hr Hdrop. destruct (start_fresh _ _ _ _ _ Hs) as (Hf & <- & _).
  destruct (reach_serves _ _ _ _ Hf Hr) as (done & todo & vs0 & -> & H). cbn [act] in Hdrop.
  destruct (handle s) eqn:Hh; [|done..].
  destruct (drop_serves _ _ _ _ _ _ H Hh) as (Hd & Hrun & Hh').
  rewrite sequential_app, (sv_done _ _ _ _ _ _ Hd).
  destruct (sequential _ (interp (drop_host s)) todo) as [[p2 vs2]|] eqn:Ht.
  - destruct (turns_answer _ _ _ _ _ _ _ _ Hd Ht) as (s' & E1 & E2 & E3 & E4 & E5).
    pose proof (turn_idle _ _ _ _ _ E5) as Hidle. rewrite E3, E4, Hrun, Hh' in Hidle.
    exists (length todo + 1)%nat. eexists. rewrite turns_app, E1. cbn [turns]. rewrite Hidle. split; [reflexivity|].
    rewrite length_app. split; [lia|]. split; [done|]. cbn [act handle]. by eexists.
  - intros k s' Hk. pose proof (turns_block _ _ _ _ _ _ Hd Ht Hrun k s' Hk) as Hrun'. cbn [act]. unfold join.
    rewrite Hrun'. by destruct (handle s').
Qed.
End host.

(** ** The order of the imports

    Any interpreter, with a record of what is imported and which methods are
    called on it. *)

Inductive Event :=
  | EvImport (module : string)
  | EvMethod (name : string) (args : list Arg).

Definition noting {P A} (ev : list Event) (m : Op P A) : Op (P * list Event) A := fun '(p, l) =>
  match m p with None => None | Some (p, r) => Some ((p, l ++ ev), r) end.

Definition recorded {P O} (I : Python P O) : Python (P * list Event) O := {|
  py_import m := noting [EvImport m] (py_import m);
  py_getattr o n := noting [] (py_getattr o n);
  py_call o args := noting [] (py_call o args);
  py_call_method o n args := noting [EvMethod n args] (py_call_method o n args);
  py_eval o code := noting [] (py_eval o code);
  py_run o code := noting [] (py_run o code);
  py_dict '(p, l) := let (p, o) := py_dict p in ((p, l), o);
  py_int o := noting [] (py_int o);
  py_str o := noting [] (py_str o);
  py_bool o := noting [] (py_bool o)
|}.

(** The order that loads: [torch] before [tensorrt_llm], the device between. *)
Definition from_torch (rank : Z) (cuda : bool) : list Event :=
  [EvImport "torch"; EvMethod "is_available" []] ++
  (if cuda then [EvMethod "set_device" [AInt rank]] else []) ++ [EvImport "tensorrt_llm"].

Definition load_order (rank : Z) (site_packages : option string) (cuda : bool) : list Event :=
  match site_packages with
  | Some dir => [EvImport "sys"; EvMethod "insert" [AInt 0; AStr dir]]
  | None => []
  end ++ from_torch rank cuda.

Section order.
Context {P O : Type} {I : Python P O}.
#[local] Existing Instance recorded.

(** [m] adds one of the traces of [S], or a beginning of one when it fails. *)
Definition emits {A} (m : Py (P * list Event) A) (S : list Event -> Prop) : Prop :=
  forall p l p' l' r, m (p, l) = Some ((p', l'), r) ->
  exists full ev rest, S full /\ full = ev ++ rest /\ l' = l ++ ev /\ (is_ok r = true -> rest = []).

Lemma emits_weaken {A} (m : Py _ A) (S T : list Event -> Prop) : emits m S -> (forall l, S l -> T l) -> emits m T.
Proof. intros H HST p l p' l' r (full & ev & rest & HS & Hm)%H. exists full, ev, rest. split; [by apply HST|done]. Qed.

Lemma emits_ret {A} (a : A) : emits (pret a) (fun l => l = []).
Proof. intros p l p' l' r [= <- <- <-]. exists [], [], [].  by rewrite !app_nil_r. Qed.

Lemma emits_op {A} (m : Op P A) ev c : emits (context (noting ev m) c) (fun l => l = ev).
Proof.
  intros p l p' l' r. unfold context, noting. destruct (m p) as [[p1 [a|]]|]; [| |done]; intros [= <- <- <-];
    exists ev, ev, []; by rewrite app_nil_r.
Qed.

(** In sequence; the trace of the second part may depend on an answer. *)
Lemma emits_bind {A B} (m : Py _ A) (k : A -> Py _ B) e1 (f : bool -> list Event) :
  emits m (fun l => l = e1) -> (forall a, emits (k a) (fun l => exists b, l = f b)) ->
  emits (pbind m k) (fun l => exists b, l = e1 ++ f b).
Proof.
  intros Hm Hk p l p' l' r. unfold pbind. destruct (m (p, l)) as [[[p1 l1] [a|e]]|] eqn:E; [| |done].
  - destruct (Hm _ _ _ _ _ E) as (? & ev & rest & -> & -> & -> & Hrest). rewrite (Hrest eq_refl), app_nil_r in *.
    intros (full & ev2 & rest2 & [b Hb] & -> & -> & Hr)%Hk. exists (ev ++ ev2 ++ rest2), (ev ++ ev2), rest2.
    split; [exists b; by rewrite Hb|]. by rewrite <- !app_assoc.
  - intros [= <- <- <-]. destruct (Hm _ _ _ _ _ E) as (? & ev & rest & -> & -> & -> & _).
    exists ((ev ++ rest) ++ f true), ev, (rest ++ f true). split; [by exists true|]. by rewrite <- app_assoc.
Qed.

Lemma emits_seq {A B} (m : Py _ A) (k : A -> Py _ B) e1 e2 :
  emits m (fun l => l = e1) -> (forall a, emits (k a) (fun l => l = e2)) -> emits (pbind m k) (fun l => l = e1 ++ e2).
Proof.
  intros Hm Hk. eapply emits_weaken.
  - apply (emits_bind m k e1 (fun _ => e2) Hm). intros a. eapply emits_weaken; [apply Hk|]. by exists true.
  - by intros l [_ ->].
Qed.

Lemma emits_choice {B} (m : Op P bool) c (k : bool -> Py _ B) (f : bool -> list Event) :
  (forall b, emits (k b) (fun l => l = f b)) -> emits (pbind (context (noting [] m) c) k) (fun l => exists b, l = f b).
Proof.
  intros Hk p l p' l' r. unfold pbind, context, noting. destruct (m p) as [[p1 [b|]]|]; [| |done].
  - rewrite app_nil_r. intros (full & ev & rest & -> & H)%Hk. exists (f b), ev, rest. split; [by exists b|exact H].
  - intros [= <- <- <-]. exists (f true), [], (f true). rewrite app_nil_r. split; [by exists true|done].
Qed.

Lemma emits_is {A} (m : Py (P * list Event) A) e e' : emits m (fun l => l = e) -> e = e' -> emits m (fun l => l = e').
Proof. by intros H <-. Qed.

Ltac note_ops := eapply emits_is;
  [repeat first [apply emits_ret | apply emits_op | eapply emits_seq; [|intros ?]]|reflexivity].

(** [torch] is imported before [tensorrt_llm] and the device set between, after
    the search path; a failure stops there; and a host that starts has done all
    of it. *)
Theorem imports_in_order (rank : Z) (site : option string) (p p' : P) (log : list Event) r :
  initialize rank site (p, []) = Some ((p', log), r) ->
  exists cuda rest, load_order rank site cuda = log ++ rest /\ (is_ok r = true -> rest = []).
Proof.
  assert (emits (initialize rank site) (fun l => exists cuda, l = load_order rank site cuda)) as H.
  { unfold initialize. eapply emits_weaken.
    - apply emits_bind with (e1 := match site with
        | Some dir => [EvImport "sys"; EvMethod "insert" [AInt 0; AStr dir]] | None => [] end); [destruct site; note_ops|].
      intros _. apply emits_bind; [apply emits_op|intros torch]. apply emits_bind; [apply emits_op|intros cuda].
      apply emits_bind; [apply emits_op|intros answer].
      apply (emits_choice (py_bool answer) _ _ (fun b => tail (tail (from_torch rank b)))). intros b. destruct b; note_ops.
    - intros l [cuda ->]. by exists cuda. }
  intros Hi. destruct (H _ _ _ _ _ Hi) as (full & ev & rest & [cuda ->] & E & -> & Hr). by exists cuda, rest.
Qed.
End order.

(** ** A small interpreter

    Variables hold numbers; a statement binds its text to the number of bound
    names; reading an unbound one raises; ["forever"] does not return. *)

Inductive Obj := OMod (name : string) | OInt (n : Z) | OStr (s : string) | OBool (b : bool).

Definition small : Python (gmap string Z) Obj := {|
  py_import m p := Some (p, if decide (m = "missing") then None else Some (OMod m));
  py_getattr o n p := Some (p, Some (if decide (n = "__version__") then OStr "1.3.0rc22" else OMod n));
  py_call o args p := Some (p, match args with [AInt n] => Some (OInt (n + 1)) | _ => None end);
  py_call_method o n args p := Some (p, Some (if decide (n = "is_available") then OBool false else OMod n));
  py_eval g code p := if decide (code = "forever") then None else Some (p, OInt <$> p !! code);
  py_run g code p := Some (<[code := Z.of_nat (size p)]> p, Some ());
  py_dict p := (p, OMod "globals");
  py_int o p := Some (p, match o with OInt n => Some n | _ => None end);
  py_str o p := Some (p, match o with OStr s => Some s | _ => None end);
  py_bool o p := Some (p, match o with OBool b => Some b | _ => None end)
|}%string.
#[local] Existing Instance small.

Definition small_host : Host :=
  match start 0 (Some "/opt/venv"%string) ∅ with
  | Some (_, Ok s) => s
  | _ => mkHost ∅ (OMod "") true [] 0 ∅ ∅ Held None
  end.

Lemma small_starts : start 0 (Some "/opt/venv"%string) ∅ = Some (∅, Ok small_host).
Proof. reflexivity. Qed.

(** Three callers, one of which raises and one of which leaves. *)
Definition session : list Action :=
  [Request_ (ExecStmt "x"); Request_ (EvalInt "y"); Request_ (EvalInt "x"); Turn; Cancel 2; Turn].

Lemma calls_refine_sequential_witness : exists s done todo vs,
  run_actions small_host session = Some s /\ [ExecStmt "x"; EvalInt "y"; EvalInt "x"]%string = done ++ todo /\
  sequential (globals small_host) ∅ done = Some (interp s, vs) /\
  answers s !! 1%nat = vs !! 1%nat /\ answers s !! 1%nat = Some (Err (Raised "Python::eval")).
Proof.
  assert (option_map (fun s => answers s !! 1%nat) (run_actions small_host session) =
    Some (Some (Err (Raised "Python::eval")))) as Hc by (vm_compute; reflexivity).
  destruct (run_actions small_host session) as [s|] eqn:E; [|discriminate Hc]. injection Hc as Hc.
  pose proof (session_reaches small_host session _ _ _ _ (reach_start _) E) as Hr. cbn [session map requests concat app] in Hr.
  destruct (calls_refine_sequential 0 (Some "/opt/venv"%string) ∅ ∅ small_host _ _ s small_starts Hr)
    as (done & todo & vs & H1 & H2 & H3 & _).
  exists s, done, todo, vs. split; [done|]. split; [exact H1|]. split; [exact H2|]. split; [|exact Hc].
  apply H3. refine (bool_decide_eq_true_1 _ _). vm_compute. reflexivity.
Defined.

Lemma every_call_is_answered_witness : exists k s s' vs,
  run_actions small_host session = Some s /\ turns k s = Some s' /\
  sequential (globals small_host) ∅ [ExecStmt "x"; EvalInt "y"; EvalInt "x"]%string = Some (interp s', vs) /\
  awaiting s' = ∅ /\ answers s' !! 0%nat = vs !! 0%nat.
Proof.
  destruct (run_actions small_host session) as [s|] eqn:E; [|discriminate (f_equal (option_map calls) E)].
  pose proof (session_reaches small_host session _ _ _ _ (reach_start _) E) as Hr. cbn [session map requests concat app] in Hr.
  destruct (sequential (globals small_host) ∅ [ExecStmt "x"; EvalInt "y"; EvalInt "x"]%string) as [[p1 vs]|] eqn:Es; [|discriminate Es].
  destruct (every_call_is_answered 0 (Some "/opt/venv"%string) ∅ ∅ small_host _ _ s p1 vs small_starts Hr Es)
    as (k & s' & H1 & _ & H2 & H3 & H4).
  exists k, s, s', vs. split; [done|]. split; [exact H1|]. split; [by rewrite H2|]. split; [exact H3|].
  apply H4; [cbn; lia|]. refine (bool_decide_eq_true_1 _ _). vm_compute. reflexivity.
Defined.

(** Dropped with a command still in the channel, and with one that does not
    return. *)
Definition hung : list Action := [Request_ (ExecStmt "x"); Request_ (EvalInt "forever"); Turn; Cancel 1].

Lemma drop_joins_witness : exists s1 s2,
  run_actions small_host session = Some s1 /\ length (queue s1) = 1%nat /\
  (exists k s', turns k (drop_host s1) = Some s' /\ is_Some (act s' Join)) /\
  run_actions small_host hung = Some s2 /\
  (forall k s', turns k (drop_host s2) = Some s' -> act s' Join = None).
Proof.
  assert (option_map (fun s => (length (queue s), awaiting s, handle s)) (run_actions small_host session) =
    Some (1%nat, ∅, Held)) as C1 by (vm_compute; reflexivity).
  assert (option_map (fun s => (awaiting s, handle s)) (run_actions small_host hung) = Some (∅, Held)) as C2
    by (vm_compute; reflexivity).
  destruct (run_actions small_host session) as [s1|] eqn:E1; [|discriminate C1].
  destruct (run_actions small_host hung) as [s2|] eqn:E2; [|discriminate C2].
  injection C1 as Hq A1 H1. injection C2 as A2 H2.
  pose proof (session_reaches small_host session _ _ _ _ (reach_start _) E1) as R1.
  pose proof (session_reaches small_host hung _ _ _ _ (reach_start _) E2) as R2.
  cbn [session hung map requests concat app] in R1, R2. exists s1, s2. split; [reflexivity|]. split; [exact Hq|].
  split; [|split; [reflexivity|]].
  - destruct (drop_joins 0 (Some "/opt/venv"%string) ∅ ∅ small_host _ _ s1 small_starts R1) as (k & s' & T & _ & _ & J).
    + cbn [act]. rewrite H1, A1. discriminate.
    + exists k, s'. split; [exact T|exact J].
  - apply (drop_joins 0 (Some "/opt/venv"%string) ∅ ∅ small_host _ _ s2 small_starts R2).
    cbn [act]. rewrite H2, A2. discriminate.
Defined.

Lemma imports_in_order_witness : exists p log r, @initialize _ _ (recorded small) 1 None (∅, []) = Some ((p, log), r) /\
  is_ok r = true /\ exists cuda, load_order 1 None cuda = log.
Proof.
  destruct (@initialize _ _ (recorded small) 1 None (∅, [])) as [[[p log] r]|] eqn:E; [|discriminate E].
  assert (is_ok r = true) as Hr by (vm_compute in E; injection E as _ _ <-; reflexivity).
  exists p, log, r. split; [done|]. split; [exact Hr|].
  destruct (imports_in_order (I := small) 1 None ∅ p log r E) as (cuda & rest & H1 & H2). exists cuda.
  rewrite H1, (H2 Hr). apply app_nil_r.
Defined.
End PyHost.
