(* ===== verification/Capacity.v ===== *)
(** * The capacity model ([crates/core/src/capacity.rs])

    The calibrated model that says which prefill/decode split of a set of GPUs
    sustains which request rate, what binds it, and which topologies load. *)

From Stdlib Require Import ZArith Lia Sorted.
From stdpp Require Import base option list numbers gmap strings.
From S2P Require Import Prelude F64 F64Int Core.

Module Planner.
Local Open Scope Z_scope.

(** ** Prefill calibration *)

Record PrefillCalibration := mkPrefillCal {
  tok_s_per_gpu : f64;
  tp_ref : Z;
  tp_allreduce_frac : f64;
  duty_cycle : f64;
  active_params_b : f64;
  peak_tflops_per_gpu : f64
}.

Definition prefill_cal_default : PrefillCalibration :=
  mkPrefillCal (of_Z 7796) 4 (dec 25 2) (dec 91 2) (of_Z 22) (of_Z 1979).

Record MfuBreakdown := mkMfu {
  overall : f64;
  compute_time_frac : f64;
  compute_mfu : f64;
  duty_cycle_worth : f64;
  allreduce_worth : f64
}.

Definition compute_mfu_worth (b : MfuBreakdown) (target : f64) : f64 :=
  if fle (compute_mfu b) f0 then INFINITY else fdiv target (compute_mfu b).

Definition largest_lever (b : MfuBreakdown) (target : f64) : string * f64 :=
  foldl (fun best c => if fgt c.2 best.2 then c else best) (""%string, f0)
    [("duty cycle"%string, duty_cycle_worth b); ("TP all-reduce"%string, allreduce_worth b);
     ("compute MFU"%string, compute_mfu_worth b target)].

Definition ring_factor (tp : Z) : f64 :=
  if tp <=? 1 then f0 else fdiv (of_Z (tp - 1)) (of_Z tp).

Definition achieved_tflops_per_gpu (c : PrefillCalibration) : f64 :=
  fdiv (fmul (fmul (fmul (tok_s_per_gpu c) (of_Z 2)) (active_params_b c)) (of_Z (10 ^ 9))) (of_Z (10 ^ 12)).

Definition mfu (c : PrefillCalibration) : f64 :=
  if fle (peak_tflops_per_gpu c) f0 then f0
  else fdiv (achieved_tflops_per_gpu c) (peak_tflops_per_gpu c).

Definition mfu_breakdown (c : PrefillCalibration) : MfuBreakdown :=
  let frac := fmul (duty_cycle c) (fsub f1 (tp_allreduce_frac c)) in
  let o := mfu c in
  mkMfu o frac
    (if fgt frac f0 then fdiv o frac else f0)
    (if fgt (duty_cycle c) f0 then fdiv f1 (duty_cycle c) else INFINITY)
    (fdiv f1 (fmax (fsub f1 (tp_allreduce_frac c)) (dec 1 9))).

Definition tok_s_per_gpu_at_tp (c : PrefillCalibration) (tp : Z) : f64 :=
  let ref_ratio := ring_factor (tp_ref c) in
  if fle ref_ratio f0 then tok_s_per_gpu c
  else
    let compute := fsub f1 (tp_allreduce_frac c) in
    let unit := fdiv (tp_allreduce_frac c) ref_ratio in
    let t := fadd compute (fmul unit (ring_factor tp)) in
    fdiv (tok_s_per_gpu c) t.

Definition prefill_req_per_s (c : PrefillCalibration) (gpus tp isl : Z) : f64 :=
  fdiv (fmul (of_Z gpus) (tok_s_per_gpu_at_tp c tp)) (of_Z isl).

(** ** Decode calibration *)

Inductive Role := RolePrefill | RoleDecode.

Record Speculation := mkSpeculation {
  draft_tokens : Z;
  itl_ratio : f64
}.

Definition eagle3_topk1 : Speculation := mkSpeculation 1 (fdiv (dec 1108 2) (dec 1918 2)).

Definition graph_batch_for (s : Speculation) (cap : Z) : Z :=
  u32_wrap (cap * u32_wrap (1 + draft_tokens s)).

Record DecodeCalibration := mkDecodeCal {
  concurrency_per_gpu : f64;
  itl_ms_at_ref : f64;
  itl_slope_ms : f64;
  max_extrapolation : f64;
  speculation : option Speculation
}.

Definition decode_cal_default : DecodeCalibration :=
  mkDecodeCal (fdiv (of_Z 53) (of_Z 8)) (dec 1723 2) (dec 106 2) f1 None.

Definition spec_ratio (d : DecodeCalibration) : f64 :=
  match speculation d with Some s => itl_ratio s | None => f1 end.

Definition itl_ms_baseline (d : DecodeCalibration) (concurrency : f64) (gpus : Z) : f64 :=
  let per_gpu := fdiv concurrency (of_Z (Z.max gpus 1)) in
  fadd (itl_ms_at_ref d) (fmul (itl_slope_ms d) (fsub per_gpu (concurrency_per_gpu d))).

Definition itl_ms (d : DecodeCalibration) (concurrency : f64) (gpus : Z) : f64 :=
  fmul (itl_ms_baseline d concurrency gpus) (spec_ratio d).

(** [None]: [f64::clamp] panics when its bounds are not ordered. *)
Definition checked_clamp (x lo hi : f64) : option f64 :=
  if fle lo hi then Some (fclamp x lo hi) else None.

Definition max_concurrency_for_slo (d : DecodeCalibration) (gpus : Z) (slo : Slo) (safety : f64) : option f64 :=
  let budget := fmul (slo_itl_ms slo) safety in
  if fle (itl_slope_ms d) f0 then Some (fmul (concurrency_per_gpu d) (of_Z gpus))
  else
    let ceiling := fmul (concurrency_per_gpu d) (fmax (max_extrapolation d) f1) in
    let budget := fdiv budget (spec_ratio d) in
    let per_gpu := fadd (concurrency_per_gpu d) (fdiv (fsub budget (itl_ms_at_ref d)) (itl_slope_ms d)) in
    per ← checked_clamp per_gpu f1 ceiling; Some (fmul per (of_Z gpus)).

Definition decode_req_per_s (d : DecodeCalibration) (gpus osl : Z) (slo : Slo) (safety : f64) : option f64 :=
  c ← max_concurrency_for_slo d gpus slo safety;
  let itl := fmin (itl_ms d c gpus) (slo_itl_ms slo) in
  Some (fdiv c (fdiv (fmul (of_Z osl) itl) (of_Z 1000))).

(** ** The model *)

Inductive Bottleneck := BnPrefill | BnDecode | BnKvTransfer.

#[export] Instance Bottleneck_eq_dec : EqDecision Bottleneck.
Proof. solve_decision. Defined.

Record PdSplit := mkSplit {
  prefill_gpus : Z;
  decode_gpus : Z;
  prefill_tp : Z;
  decode_tp : Z;
  prefill_workers : Z;
  prefill_req_s : f64;
  decode_req_s : f64;
  transfer_req_s : f64;
  sustainable_req_s : f64;
  goodput_req_s : f64;
  bottleneck : Bottleneck;
  headroom_ratio : f64
}.

Record CapacityModel := mkModel {
  isl : Z;
  osl : Z;
  m_slo : Slo;
  m_prefill : PrefillCalibration;
  m_decode : DecodeCalibration;
  good_frac : f64;
  itl_safety : f64;
  kv_bytes_per_token : f64;
  kv_xfer_gib_s : f64;
  xfer_concurrency : Z;
  weights_gib : f64;
  gpu_gib : f64;
  kv_dtype_bytes : f64;
  kv_heads : Z;
  max_num_tokens : Z;
  activation_gib : f64;
  decode_resident_tokens : Z
}.

Definition model_default : CapacityModel :=
  mkModel 4000 200 slo_default prefill_cal_default decode_cal_default (dec 93 2) f1
    (fmul (fmul (fmul (of_Z 2) (of_Z 94)) (of_Z 4)) (of_Z 128)) (dec 21 1) 16 (dec 2202 1) (of_Z 131)
    f1 4 16384 (of_Z 12) (128 * 4608).

(** [tp.clamp(1, heads.max(1))] on integers. *)
Definition kv_bytes_per_token_per_rank (m : CapacityModel) (tp : Z) : f64 :=
  let shards := of_Z (Z.min (Z.max tp 1) (Z.max (kv_heads m) 1)) in
  fdiv (fmul (kv_bytes_per_token m) (kv_dtype_bytes m)) shards.

Definition needed_gib_per_rank (m : CapacityModel) (tp : Z) (role : Role) : f64 :=
  let gib := fmul (fmul (of_Z 1024) (of_Z 1024)) (of_Z 1024) in
  let tokens := match role with
    | RolePrefill => of_Z (max_num_tokens m)
    | RoleDecode => of_Z (decode_resident_tokens m)
    end in
  fadd (activation_gib m) (fdiv (fmul (kv_bytes_per_token_per_rank m tp) tokens) gib).

Definition free_gib_per_rank (m : CapacityModel) (tp : Z) : f64 :=
  fsub (gpu_gib m) (fdiv (weights_gib m) (of_Z (Z.max tp 1))).

Definition fits (m : CapacityModel) (tp : Z) (role : Role) : bool :=
  fge (free_gib_per_rank m tp) (needed_gib_per_rank m tp role).

Definition fits_in_memory (m : CapacityModel) (tp : Z) : bool := fits m tp RolePrefill.

Definition transfer_ms (m : CapacityModel) : f64 :=
  let bytes := fmul (kv_bytes_per_token m) (of_Z (isl m)) in
  fmul (fdiv bytes (fmul (fmul (fmul (kv_xfer_gib_s m) (of_Z 1024)) (of_Z 1024)) (of_Z 1024))) (of_Z 1000).

Definition transfer_rate (m : CapacityModel) (decode_workers : Z) : f64 :=
  let ms := transfer_ms m in
  if fle ms f0 || (decode_workers =? 0) then INFINITY
  else fdiv (fmul (fmul (of_Z decode_workers) (of_Z (Z.max (xfer_concurrency m) 1))) (of_Z 1000)) ms.

(** The comparator of the rates.  [partial_cmp(..).expect(..)] panics on a NaN,
    and the sort compares every element at least once. *)
Definition cmp_rate (a b : Bottleneck * f64) : comparison :=
  match partial_cmp a.2 b.2 with Some c => c | None => Eq end.

Definition evaluate (m : CapacityModel) (pg dg ptp dtp : Z) : option PdSplit :=
  let workers := checked_div_or 0 pg ptp in
  let p := prefill_req_per_s (m_prefill m) (u32_wrap (workers * ptp)) ptp (isl m) in
  d ← decode_req_per_s (m_decode m) dg (osl m) (m_slo m) (itl_safety m);
  let decode_workers := checked_div_or 0 dg dtp in
  let t := transfer_rate m decode_workers in
  if is_nan p || is_nan d || is_nan t then None
  else
    match sort_by cmp_rate [(BnPrefill, p); (BnDecode, d); (BnKvTransfer, t)] with
    | (bn, sustainable) :: next :: _ =>
        let headroom := if fgt sustainable f0 then fdiv next.2 sustainable else INFINITY in
        Some (mkSplit pg dg ptp dtp workers p d t sustainable (fmul sustainable (good_frac m)) bn headroom)
    | _ => None
    end.

(** [while p + dtp <= total]; [None] is a panic in [evaluate] or, by
    [topology_loop_total], never lack of fuel. *)
Fixpoint topology_loop (fuel : nat) (m : CapacityModel) (total ptp dtp p : Z) : option (list PdSplit) :=
  match fuel with
  | O => None
  | S fuel =>
      if u32_wrap (p + dtp) <=? total then
        let d := total - p in
        rest ← topology_loop fuel m total ptp dtp (u32_wrap (p + ptp));
        if (d mod dtp =? 0) && (p mod ptp =? 0) then
          s ← evaluate m p d ptp dtp; Some (s :: rest)
        else Some rest
      else Some []
  end.

Definition search_pair (m : CapacityModel) (total ptp dtp : Z) : option (list PdSplit) :=
  if (ptp =? 0) || (dtp =? 0) then Some []
  else if negb (fits m ptp RolePrefill) || negb (fits m dtp RoleDecode) then Some []
  else topology_loop (S (Z.to_nat total)) m total ptp dtp ptp.

Definition cmp_split : PdSplit -> PdSplit -> comparison :=
  cmp_then (cmp_rev (cmp_on (fun s => total_key (goodput_req_s s))))
           (cmp_rev (cmp_on (fun s => total_key (fadd (prefill_req_s s) (decode_req_s s))))).

Definition same_topology (a b : PdSplit) : bool :=
  (prefill_gpus a =? prefill_gpus b) && (decode_gpus a =? decode_gpus b) &&
  (prefill_tp a =? prefill_tp b) && (decode_tp a =? decode_tp b).

(** [Vec::dedup_by]: drop an element equal to the last one kept. *)
Fixpoint dedup_after (last : PdSplit) (l : list PdSplit) : list PdSplit :=
  match l with
  | [] => []
  | x :: l => if same_topology x last then dedup_after last l else x :: dedup_after x l
  end.

Definition dedup (l : list PdSplit) : list PdSplit :=
  match l with [] => [] | x :: l => x :: dedup_after x l end.

Definition search (m : CapacityModel) (total : Z) (ptps dtps : list Z) : option (list PdSplit) :=
  out ← mapM (fun pd => search_pair m total pd.1 pd.2)
          (flat_map (fun ptp => map (fun dtp => (ptp, dtp)) dtps) ptps);
  Some (dedup (sort_by cmp_split (concat out))).

(** ** What a target would take *)

Record TargetGap := mkGap {
  target_goodput : f64;
  required_req_s : f64;
  gap_prefill_req_s : f64;
  gap_decode_req_s : f64;
  gap_xfer_req_s : f64;
  prefill_factor : f64;
  decode_factor : f64;
  xfer_factor : f64;
  mfu_now : f64;
  mfu_required : f64
}.

Definition within_the_envelope (g : TargetGap) (b : MfuBreakdown) : bool :=
  fle (prefill_factor g) (fmul (fmul (duty_cycle_worth b) (allreduce_worth b)) (compute_mfu_worth b (dec 50 2))).

(** The multiplier a side needs. *)
Definition gap_factor (required have : f64) : f64 := if fgt have f0 then fdiv required have else INFINITY.

Definition target_gap (m : CapacityModel) (split : PdSplit) (target : f64) : TargetGap :=
  let required := fdiv target (fmax (good_frac m) (dec 1 9)) in
  let b := mfu_breakdown (m_prefill m) in
  mkGap target required (prefill_req_s split) (decode_req_s split) (transfer_req_s split)
    (gap_factor required (prefill_req_s split)) (gap_factor required (decode_req_s split))
    (gap_factor required (transfer_req_s split)) (overall b)
    (fmul (overall b) (fmax (gap_factor required (prefill_req_s split)) f1)).

(** Prefill and decode sharing every GPU. *)
Definition in_card_pd_req_s (m : CapacityModel) (gpus : Z) (prefill_tok_s decode_tok_s : f64) : f64 :=
  if fle prefill_tok_s f0 || fle decode_tok_s f0 then f0
  else fdiv (of_Z gpus) (fadd (fdiv (of_Z (isl m)) prefill_tok_s) (fdiv (of_Z (osl m)) decode_tok_s)).

Definition prefill_share (m : CapacityModel) (prefill_tok_s decode_tok_s : f64) : f64 :=
  let p := fdiv (of_Z (isl m)) (fmax prefill_tok_s (dec 1 9)) in
  let d := fdiv (of_Z (osl m)) (fmax decode_tok_s (dec 1 9)) in
  fdiv p (fadd p d).


(** ** Lemmas *)

Lemma cmp_rate_fcmp a b : is_nan a.2 = false -> is_nan b.2 = false ->
  cmp_rate a b = fcmp a.2 b.2.
Proof. intros Ha Hb. unfold cmp_rate, partial_cmp. by rewrite SFcompare_fcmp. Qed.

Lemma cmp_rate_le a b : is_nan a.2 = false -> is_nan b.2 = false ->
  cmp_rate a b <> Gt -> fle a.2 b.2 = true.
Proof. intros Ha Hb. rewrite cmp_rate_fcmp by done. rewrite fle_fcmp. done. Qed.

Lemma cmp_rate_gt a b : is_nan a.2 = false -> is_nan b.2 = false ->
  cmp_rate a b = Gt -> fle b.2 a.2 = true.
Proof.
  intros Ha Hb. rewrite cmp_rate_fcmp by done. intros H. rewrite fle_fcmp. split; [done|].
  split; [done|]. by apply (cmp_Lt_not_Gt fcmp).
Qed.

(** The first element of a sorted list is below the rest. *)
Lemma sort_rates_head (l : list (Bottleneck * f64)) x rest :
  Forall (fun a => is_nan a.2 = false) l -> sort_by cmp_rate l = x :: rest ->
  Forall (fun a => fle x.2 a.2 = true) l.
Proof.
  revert x rest. induction l as [|y l IH]; intros x rest Hn Hs; [done|].
  apply Forall_cons in Hn as [Hy Hn]. cbn [sort_by foldr] in Hs.
  fold (sort_by cmp_rate l) in Hs. destruct (sort_by cmp_rate l) as [|z l'] eqn:Hl.
  - assert (l = []) as -> by (apply (f_equal length) in Hl; rewrite sort_by_length in Hl; by destruct l).
    injection Hs as <- <-. repeat constructor. by apply fle_refl.
  - specialize (IH z l' Hn eq_refl).
    assert (is_nan z.2 = false) as Hz.
    { rewrite Forall_forall in Hn. apply Hn. apply (elem_of_sort_by cmp_rate). rewrite Hl. left. }
    cbn [insert_by] in Hs. destruct (cmp_rate y z) eqn:Hc; injection Hs as <- <-.
    3: { constructor; [by apply cmp_rate_gt|done]. }
    all: constructor; [by apply fle_refl|]; eapply Forall_impl; [exact IH|].
    all: intros a Ha; eapply fle_trans; [|exact Ha]; apply cmp_rate_le; congruence.
Qed.

Definition rate_of (s : PdSplit) (b : Bottleneck) : f64 :=
  match b with
  | BnPrefill => prefill_req_s s
  | BnDecode => decode_req_s s
  | BnKvTransfer => transfer_req_s s
  end.

Lemma evaluate_fields m pg dg ptp dtp s : evaluate m pg dg ptp dtp = Some s ->
  prefill_gpus s = pg /\ decode_gpus s = dg /\ prefill_tp s = ptp /\ decode_tp s = dtp.
Proof.
  unfold evaluate. destruct (decode_req_per_s _ _ _ _ _); [|done]. cbn.
  destruct (is_nan _ || _ || _); [done|].
  destruct (insert_by _ _ _) as [|[b r] [|n l]]; [done|done|]. intros [= <-]. done.
Qed.

Instance cmp_split_total : TotalCmp cmp_split.
Proof. apply cmp_then_total; apply cmp_rev_total, cmp_on_total. Qed.

(** A topology the loop visits. *)
Definition visited (total ptp dtp p q : Z) : Prop :=
  p <= q /\ (ptp | q) /\ (dtp | total - q) /\ q + dtp <= total.

Lemma visited_next total ptp dtp p q : 0 < ptp -> (ptp | p) ->
  visited total ptp dtp p q <-> (q = p /\ (dtp | total - p) /\ p + dtp <= total) \/
                                visited total ptp dtp (p + ptp) q.
Proof.
  intros Hptp Hp. unfold visited. split.
  - intros (Hle & Hq & Hd & Ht). destruct (decide (q = p)) as [->|Hne]; [by left|].
    right. repeat split; try done. destruct Hp as [a ->], Hq as [b ->].
    assert (a < b) by nia. nia.
  - intros [(-> & ? & ?)|(? & ? & ? & ?)]; repeat split; done || lia.
Qed.

(** The loop evaluates the topologies it visits, and never lacks fuel. *)
Lemma topology_loop_spec m total ptp dtp : forall fuel p,
  0 < ptp -> 0 < dtp -> 0 < p -> Z.max 1 (total - p + 1) <= Z.of_nat fuel ->
  0 <= total -> total + ptp + dtp <= u32_max -> p <= total + ptp -> (ptp | p) ->
  match topology_loop fuel m total ptp dtp p with
  | Some l => (forall s, s ∈ l <-> exists q, visited total ptp dtp p q /\
                 evaluate m q (total - q) ptp dtp = Some s) /\
              forall q, visited total ptp dtp p q -> is_Some (evaluate m q (total - q) ptp dtp)
  | None => exists q, visited total ptp dtp p q /\ evaluate m q (total - q) ptp dtp = None
  end.
Proof.
  induction fuel as [|fuel IH]; intros p Hptp Hdtp Hp Hf Ht Hov Hpt Hdiv; [lia|].
  cbn [topology_loop]. unfold u32_max in Hov.
  replace (u32_wrap (p + dtp)) with (p + dtp) by (symmetry; apply Z.mod_small; lia).
  destruct (Z.leb_spec (p + dtp) total) as [Hle|Hgt].
  2: { split; [intros s; rewrite elem_of_nil; split; [done|]|]; unfold visited.
       - intros (q & (? & ? & ? & ?) & _). lia.
       - intros q (? & ? & ? & ?). lia. }
  replace (u32_wrap (p + ptp)) with (p + ptp) by (symmetry; apply Z.mod_small; lia).
  specialize (IH (p + ptp) Hptp Hdtp ltac:(lia) ltac:(lia) Ht ltac:(unfold u32_max; lia) ltac:(lia)
    ltac:(apply Z.divide_add_r; [done|exists 1; lia])).
  pose proof (fun q => visited_next total ptp dtp p q Hptp Hdiv) as Hv.
  assert (p mod ptp = 0) as -> by (apply Z.mod_divide; [lia|done]). rewrite andb_true_r.
  destruct (topology_loop fuel m total ptp dtp (p + ptp)) as [rest|]; cbn.
  2: { destruct IH as (q & Hq & He). exists q. split; [|done]. apply Hv. by right. }
  destruct IH as [IH IHs].
  destruct (Z.eqb_spec ((total - p) mod dtp) 0) as [Hd|Hd].
  - apply Z.mod_divide in Hd; [|lia].
    destruct (evaluate m p (total - p) ptp dtp) as [s0|] eqn:He; cbn.
    2: { exists p. split; [|done]. apply Hv. by left. }
    split.
    + intros s. rewrite elem_of_cons, IH. setoid_rewrite Hv. split.
      * intros [->|(q & Hq & Hs)]; [exists p; eauto|exists q; eauto].
      * intros (q & [(-> & _ & _)|Hq] & Hs); [left; congruence|right; eauto].
    + intros q [(-> & _ & _)|Hq]%Hv; [by eexists|by apply IHs].
  - split.
    + intros s. rewrite IH. setoid_rewrite Hv. split; intros (q & Hq & Hs); exists q; split; auto.
      destruct Hq as [(_ & Hq & _)|Hq]; [|done]. apply Z.mod_divide in Hq; [done|lia].
    + intros q [(_ & Hq & _)|Hq]%Hv; [|by apply IHs]. apply Z.mod_divide in Hq; [done|lia].
Qed.

(** A split of [total] GPUs that [search] considers. *)
Record feasible (m : CapacityModel) (total : Z) (ptps dtps : list Z) (pg dg ptp dtp : Z) : Prop := {
  fe_ptp : ptp ∈ ptps /\ ptp <> 0;
  fe_dtp : dtp ∈ dtps /\ dtp <> 0;
  fe_fits : fits m ptp RolePrefill = true /\ fits m dtp RoleDecode = true;
  fe_total : pg + dg = total;
  fe_prefill : ptp <= pg /\ (ptp | pg);
  fe_decode : dtp <= dg /\ (dtp | dg)
}.

Definition degrees_ok (total : Z) (ptps dtps : list Z) : Prop :=
  0 <= total /\ Forall (fun p => 0 <= p) ptps /\ Forall (fun d => 0 <= d) dtps /\
  Forall (fun p => Forall (fun d => total + p + d <= u32_max) dtps) ptps.

#[export] Instance degrees_ok_dec total ptps dtps : Decision (degrees_ok total ptps dtps).
Proof. unfold degrees_ok. apply _. Defined.

Lemma feasible_visited m total ptps dtps pg dg ptp dtp :
  feasible m total ptps dtps pg dg ptp dtp <->
  (ptp ∈ ptps /\ ptp <> 0) /\ (dtp ∈ dtps /\ dtp <> 0) /\
  (fits m ptp RolePrefill = true /\ fits m dtp RoleDecode = true) /\
  dg = total - pg /\ visited total ptp dtp ptp pg.
Proof.
  unfold visited. split.
  - intros [? ? ? <- [? ?] [? ?]]. repeat (split; [done || lia|]).
    replace (pg + dg - pg) with dg by lia. repeat split; done || lia.
  - intros (? & ? & ? & -> & ? & ? & ? & ?). split; try done; try lia; split; done || lia.
Qed.

Lemma search_pair_spec m total ptps dtps ptp dtp :
  degrees_ok total ptps dtps -> ptp ∈ ptps -> dtp ∈ dtps ->
  match search_pair m total ptp dtp with
  | Some l => (forall s, s ∈ l <-> exists pg dg, feasible m total ptps dtps pg dg ptp dtp /\
                 evaluate m pg dg ptp dtp = Some s) /\
              forall pg dg, feasible m total ptps dtps pg dg ptp dtp -> is_Some (evaluate m pg dg ptp dtp)
  | None => exists pg dg, feasible m total ptps dtps pg dg ptp dtp /\ evaluate m pg dg ptp dtp = None
  end.
Proof.
  intros (Ht & Hps & Hds & Hov) Hp Hd. unfold search_pair.
  pose proof (fun pg dg => feasible_visited m total ptps dtps pg dg ptp dtp) as Hfv.
  rewrite Forall_forall in Hps, Hds, Hov. specialize (Hps _ Hp). specialize (Hds _ Hd).
  specialize (Hov _ Hp). rewrite Forall_forall in Hov. specialize (Hov _ Hd).
  destruct (Z.eqb_spec ptp 0) as [E|Hp0]; [|destruct (Z.eqb_spec dtp 0) as [E|Hd0]]; cbn [orb].
  1,2: split; [intros s; rewrite elem_of_nil; split; [done|intros (? & ? & (? & ? & ?)%Hfv & ?); lia]|
    intros ? ? (? & ? & ?)%Hfv; lia].
  destruct (fits m ptp RolePrefill), (fits m dtp RoleDecode); cbn [negb orb].
  2-4: split; [intros s; rewrite elem_of_nil; split; [done|intros (? & ? & (? & ? & [? ?] & ?)%Hfv & ?); done]|
    intros ? ? (? & ? & [? ?] & ?)%Hfv; done].
  pose proof (topology_loop_spec m total ptp dtp (S (Z.to_nat total)) ptp) as Hl.
  specialize (Hl ltac:(lia) ltac:(lia) ltac:(lia) ltac:(lia) Ht Hov ltac:(lia) ltac:(exists 1; lia)).
  destruct (topology_loop _ _ _ _ _ _) as [l|].
  - destruct Hl as [Hl Hs]. split.
    + intros s. rewrite Hl. split.
      * intros (q & Hq & He). exists q, (total - q). split; [|done]. apply Hfv. auto 10.
      * intros (pg & dg & (_ & _ & _ & -> & Hv)%Hfv & He). eauto.
    + intros pg dg (_ & _ & _ & -> & Hv)%Hfv. by apply Hs.
  - destruct Hl as (q & Hq & He). exists q, (total - q). split; [|done]. apply Hfv. auto 10.
Qed.

Lemma same_topology_spec m total ptps dtps a b :
  (exists pg dg ptp dtp, feasible m total ptps dtps pg dg ptp dtp /\ evaluate m pg dg ptp dtp = Some a) ->
  (exists pg dg ptp dtp, feasible m total ptps dtps pg dg ptp dtp /\ evaluate m pg dg ptp dtp = Some b) ->
  same_topology a b = true -> a = b.
Proof.
  intros (? & ? & ? & ? & _ & Ha) (? & ? & ? & ? & _ & Hb) Hs.
  destruct (evaluate_fields _ _ _ _ _ _ Ha) as (E1 & E2 & E3 & E4).
  destruct (evaluate_fields _ _ _ _ _ _ Hb) as (F1 & F2 & F3 & F4).
  unfold same_topology in Hs. rewrite !andb_true_iff, !Z.eqb_eq in Hs. destruct Hs as [[[? ?] ?] ?].
  congruence.
Qed.

Lemma dedup_elem (l : list PdSplit) (P : PdSplit -> Prop) :
  (forall a b, P a -> P b -> same_topology a b = true -> a = b) -> Forall P l ->
  forall s, s ∈ dedup l <-> s ∈ l.
Proof.
  intros Hsame HP s. destruct l as [|x l]; [done|]. cbn [dedup].
  apply Forall_cons in HP as [Hx HP]. rewrite !elem_of_cons.
  enough (forall last, P last -> (s = last \/ s ∈ dedup_after last l) <-> (s = last \/ s ∈ l)) as H by by apply H.
  clear x Hx. induction l as [|y l IH]; intros last Hlast; cbn [dedup_after]; [done|].
  apply Forall_cons in HP as [Hy HP]. destruct (same_topology y last) eqn:E.
  - rewrite (Hsame y last) by done. rewrite IH by done. rewrite elem_of_cons. tauto.
  - rewrite !elem_of_cons. rewrite IH by done. done.
Qed.

Lemma dedup_sorted l : sorted_by cmp_split l -> sorted_by cmp_split (dedup l).
Proof.
  destruct l as [|x l]; [done|]. unfold sorted_by. cbn [dedup].
  assert (forall l last, StronglySorted (cmp_le cmp_split) l ->
    StronglySorted (cmp_le cmp_split) (dedup_after last l) /\
    forall P, Forall P l -> Forall P (dedup_after last l)) as Hd.
  { clear. induction l as [|y l IH]; intros last Hs; cbn [dedup_after]; [by repeat constructor|].
    inversion Hs as [|? ? Hs' Hy]; subst. destruct (same_topology y last).
    - destruct (IH last Hs') as [H1 H2]. split; [done|].
      intros P [_ HP]%Forall_cons. by apply H2.
    - destruct (IH y Hs') as [H1 H2]. split; [constructor; [done|by apply H2]|].
      intros P [HPy HP]%Forall_cons. constructor; [done|by apply H2]. }
  intros Hs. inversion Hs as [|? ? Hs' Hx]; subst. destruct (Hd l x Hs') as [H1 H2].
  constructor; [done|by apply H2].
Qed.

(** ** Theorems *)

(** What binds a topology. [evaluate] panics exactly when one of the rates
    is not a number (or a clamp's bounds are not ordered); otherwise the
    sustainable rate is that of the bottleneck it names and no other resource
    is slower. *)
Theorem evaluate_names_the_minimum (m : CapacityModel) (pg dg ptp dtp : Z) :
  match evaluate m pg dg ptp dtp with
  | Some s =>
      prefill_gpus s = pg /\ decode_gpus s = dg /\ prefill_tp s = ptp /\ decode_tp s = dtp /\
      prefill_workers s = checked_div_or 0 pg ptp /\
      sustainable_req_s s = rate_of s (bottleneck s) /\
      (forall b, fle (sustainable_req_s s) (rate_of s b) = true) /\
      goodput_req_s s = fmul (sustainable_req_s s) (good_frac m)
  | None =>
      decode_req_per_s (m_decode m) dg (osl m) (m_slo m) (itl_safety m) = None \/
      is_nan (prefill_req_per_s (m_prefill m) (u32_wrap (checked_div_or 0 pg ptp * ptp)) ptp (isl m)) = true \/
      decode_req_per_s (m_decode m) dg (osl m) (m_slo m) (itl_safety m) = Some NAN \/
      is_nan (transfer_rate m (checked_div_or 0 dg dtp)) = true
  end.
Proof.
  unfold evaluate.
  set (p := prefill_req_per_s _ _ _ _). set (t := transfer_rate _ _).
  destruct (decode_req_per_s _ _ _ _ _) as [d|]; cbn [mbind option_bind]; [|by left].
  destruct (is_nan p) eqn:Np; cbn [orb]; [by right; left|].
  destruct (is_nan d) eqn:Nd; cbn [orb]; [right; right; left; by destruct d|].
  destruct (is_nan t) eqn:Nt; [by right; right; right|].
  set (l := [_; _; _]).
  destruct (sort_by cmp_rate l) as [|[b r] [|n rest]] eqn:Hs.
  1,2: apply (f_equal length) in Hs; rewrite sort_by_length in Hs; discriminate.
  cbn. repeat (split; [done|]).
  assert (Forall (fun a => is_nan a.2 = false) l) as Hn by by repeat constructor.
  pose proof (sort_rates_head l _ _ Hn Hs) as Hall.
  assert ((b, r) ∈ l) as Hin by (apply (elem_of_sort_by cmp_rate); rewrite Hs; left).
  unfold l in Hin, Hall. rewrite !elem_of_cons in Hin.
  apply Forall_cons in Hall as [H1 Hall]. apply Forall_cons in Hall as [H2 Hall].
  apply Forall_cons in Hall as [H3 _]. split; [|split; [|done]].
  - destruct Hin as [H|[H|[H|H%not_elem_of_nil]]]; [| | |done]; by injection H as -> ->.
  - intros []; done.
Qed.

(** C31. The search is exhaustive. [search] panics exactly when some topology it
    considers makes [evaluate] panic; otherwise its result is, best goodput
    first and then most slack first, the evaluation of every split of the GPUs
    into whole prefill and decode workers of the given degrees that fit in
    memory, and of nothing else. *)
Theorem search_exact (m : CapacityModel) (total : Z) (ptps dtps : list Z) :
  degrees_ok total ptps dtps ->
  match search m total ptps dtps with
  | Some out =>
      sorted_by cmp_split out /\
      forall s, s ∈ out <-> exists pg dg ptp dtp,
        feasible m total ptps dtps pg dg ptp dtp /\ evaluate m pg dg ptp dtp = Some s
  | None => exists pg dg ptp dtp,
        feasible m total ptps dtps pg dg ptp dtp /\ evaluate m pg dg ptp dtp = None
  end.
Proof.
  intros Hok. unfold search.
  set (pairs := flat_map _ ptps).
  assert (forall pd, pd ∈ pairs <-> pd.1 ∈ ptps /\ pd.2 ∈ dtps) as Hpairs.
  { intros [a b]. unfold pairs. rewrite list_elem_of_In, in_flat_map. cbn. split.
    - intros (x & Hx & Hin). rewrite in_map_iff in Hin. destruct Hin as (y & [= <- <-] & Hy).
      rewrite !list_elem_of_In. done.
    - rewrite !list_elem_of_In. intros [Ha Hb]. exists a. split; [done|]. apply in_map_iff. eauto. }
  destruct (mapM _ pairs) as [out|] eqn:Hm; cbn [mbind option_bind].
  - apply mapM_Some in Hm.
    assert (forall s, s ∈ concat out <-> exists pg dg ptp dtp,
        feasible m total ptps dtps pg dg ptp dtp /\ evaluate m pg dg ptp dtp = Some s) as Hc.
    { intros s. rewrite list_elem_of_In, in_concat. split.
      - intros (l & Hl & Hs). apply list_elem_of_In in Hl, Hs.
        apply list_elem_of_lookup in Hl as [i Hi]. destruct (Forall2_lookup_r _ _ _ _ _ Hm Hi) as (pd & Hpd & Hsp).
        apply list_elem_of_lookup_2 in Hpd. apply Hpairs in Hpd as [Hp1 Hp2].
        pose proof (search_pair_spec m total ptps dtps _ _ Hok Hp1 Hp2) as Hspec. cbn in Hsp. rewrite Hsp in Hspec.
        destruct Hspec as [Hspec _]. destruct (proj1 (Hspec s) Hs) as (pg & dg & Hf & He). eauto 10.
      - intros (pg & dg & ptp & dtp & Hf & He).
        assert ((ptp, dtp) ∈ pairs) as Hpd by (apply Hpairs; split; [apply Hf|apply Hf]).
        apply list_elem_of_lookup in Hpd as [i Hi]. destruct (Forall2_lookup_l _ _ _ _ _ Hm Hi) as (l & Hl & Hsp).
        cbn in Hsp. pose proof (search_pair_spec m total ptps dtps ptp dtp Hok) as Hspec.
        specialize (Hspec ltac:(apply Hf) ltac:(apply Hf)). rewrite Hsp in Hspec.
        exists l. rewrite <- !list_elem_of_In. split; [by eapply list_elem_of_lookup_2|].
        apply Hspec. eauto. }
    split; [apply dedup_sorted, sort_by_sorted; apply _|].
    intros s. transitivity (s ∈ sort_by cmp_split (concat out)); [|rewrite elem_of_sort_by; apply Hc].
    apply (dedup_elem _ _ (fun a b => same_topology_spec m total ptps dtps a b)).
    apply Forall_forall. intros x Hx. by apply Hc, (elem_of_sort_by cmp_split).
  - apply mapM_None, Exists_exists in Hm as (pd & Hpd & Hnone).
    apply Hpairs in Hpd as [H1 H2]. pose proof (search_pair_spec m total ptps dtps _ _ Hok H1 H2) as Hspec.
    cbn in Hnone. rewrite Hnone in Hspec. destruct Hspec as (pg & dg & Hf & He). by exists pg, dg, pd.1, pd.2.
Qed.

Lemma search_exact_witness :
  exists out, search model_default 16 [2; 4] [4; 8] = Some out /\ sorted_by cmp_split out /\
    map (fun s => (prefill_gpus s, decode_gpus s, prefill_tp s, decode_tp s)) out <> [].
Proof.
  assert (degrees_ok 16 [2; 4] [4; 8]) as Hok by (apply (bool_decide_unpack _); vm_compute; exact I).
  pose proof (search_exact model_default 16 [2; 4] [4; 8] Hok) as H.
  destruct (search model_default 16 [2; 4] [4; 8]) as [out|] eqn:E.
  - exists out. split; [done|]. split; [exact (proj1 H)|].
    assert (match search model_default 16 [2; 4] [4; 8] with Some [] | None => false | Some _ => true end = true)
      as Hne by (vm_compute; reflexivity). rewrite E in Hne. by destruct out.
  - exfalso.
    assert (match search model_default 16 [2; 4] [4; 8] with Some [] | None => false | Some _ => true end = true)
      as Hne by (vm_compute; reflexivity). rewrite E in Hne. done.
Defined.

(** Planning does not extrapolate. Whatever the fitted curve says, the
    concurrency the planner sizes a decode pool for is the number of GPUs times
    a per-GPU concurrency that is at least one and at most the measured one times
    the configured extrapolation. *)
Theorem planner_never_extrapolates (d : DecodeCalibration) (gpus : Z) (slo : Slo) (safety c : f64) :
  fle (itl_slope_ms d) f0 = false ->
  max_concurrency_for_slo d gpus slo safety = Some c -> is_nan c = false ->
  exists per, c = fmul per (of_Z gpus) /\ fle f1 per = true /\
    fle per (fmul (concurrency_per_gpu d) (fmax (max_extrapolation d) f1)) = true.
Proof.
  intros Hs. unfold max_concurrency_for_slo. rewrite Hs. unfold checked_clamp.
  set (x := fadd _ _). set (hi := fmul _ (fmax _ _)).
  destruct (fle f1 hi) eqn:Hhi; cbn [mbind option_bind]; [|done].
  intros [= <-] Hc. exists (fclamp x f1 hi). split; [done|]. unfold fclamp.
  destruct (flt x f1) eqn:E1.
  { split; [by apply fle_refl|done]. }
  destruct (flt hi x) eqn:E2.
  { split; [done|]. apply fle_refl. by eapply fle_nan_r. }
  assert (is_nan x = false) as Nx.
  { destruct (is_nan x) eqn:Nx; [|done]. exfalso. revert Hc. unfold fclamp. rewrite E1, E2.
    destruct x; done. }
  rewrite !fle_negb_flt, E1, E2; try done. by eapply fle_nan_r.
Qed.

Lemma planner_never_extrapolates_witness :
  exists c per, max_concurrency_for_slo decode_cal_default 8 slo_default f1 = Some c /\
    c = fmul per (of_Z 8) /\ fle f1 per = true.
Proof.
  destruct (max_concurrency_for_slo decode_cal_default 8 slo_default f1) as [c|] eqn:E.
  2: { vm_compute in E. discriminate. }
  destruct (planner_never_extrapolates decode_cal_default 8 slo_default f1 c) as (per & H1 & H2 & H3).
  - reflexivity.
  - exact E.
  - assert (match max_concurrency_for_slo decode_cal_default 8 slo_default f1 with
            | Some c => is_nan c | None => true end = false) as Hn by (vm_compute; reflexivity).
    rewrite E in Hn. exact Hn.
  - exists c, per. split; [reflexivity|]. split; [exact H1|exact H2].
Defined.

(** Tensor parallelism past the KV heads replicates: a rank holds the same KV. *)
Theorem kv_split_stops_at_heads (m : CapacityModel) (tp : Z) :
  1 <= kv_heads m -> kv_heads m <= tp ->
  kv_bytes_per_token_per_rank m tp = kv_bytes_per_token_per_rank m (kv_heads m).
Proof. intros H1 H2. unfold kv_bytes_per_token_per_rank. rewrite !(Z.max_l _ 1), !Z.min_r by lia. done. Qed.

(** A side that has the rate needs nothing more: its factor is at most one. *)
Lemma enough_needs_nothing (required have : f64) :
  valid required -> valid have -> is_finite required = true -> is_finite have = true ->
  fgt have f0 = true -> fle required have = true -> fle (gap_factor required have) f1 = true.
Proof.
  intros Hr Hh Fr Fh Hpos Hle. unfold gap_factor. rewrite Hpos.
  assert (is_nan have = false) as Nh by by destruct have.
  assert (is_nan required = false) as Nr by by destruct required.
  assert (0 < ival have) as H0 by (by apply (flt_ival f0 have) in Hpos).
  apply fle_ival in Hle; [|done..].
  eapply faithful_fle; [by apply fdiv_faithful; [..|lia]|done|done|].
  rewrite Z.sgn_pos, Z.abs_eq by lia. change (ival f1) with (2 ^ 1074). nia.
Qed.

(** At the measured rates prefill takes two thirds of a shared machine, and
    sixteen GPUs serve more than 18.5 requests a second. *)
Lemma share_sample : fgt (prefill_share model_default (of_Z 6804) (of_Z 726)) (dec 68 2) = true /\
  flt (prefill_share model_default (of_Z 6804) (of_Z 726)) (dec 69 2) = true /\
  fgt (in_card_pd_req_s model_default 16 (of_Z 6804) (of_Z 726)) (dec 185 1) = true.
Proof. vm_compute. done. Qed.
End Planner.
