(* ===== verification/Engine.v ===== *)
(** * Execution backends ([crates/engine/src])

    [Engine] is the seam between the control plane and whatever runs the model
    ([lib.rs]): a class, which the workers are proved against.  [Mock] is the
    implementation that costs work instead of running it ([cost.rs],
    [mock.rs]). *)

From Stdlib Require Import ZArith Lia.
From stdpp Require Import base option list numbers gmap strings.
From S2P Require Import Prelude F64 F64Int Core Capacity.

Local Open Scope Z_scope.

(** ** The interface *)

Record EngineInfo := mkInfo {
  backend : string;
  model : string;
  phase : Phase;
  tensor_parallel : Z;
  gpus : list Z;
  kv_blocks : Z;
  kv_block_size : Z
}.

Record PrefillChunkSpec := mkChunkSpec {
  ch_id : RequestId;
  ch_tokens : list Z;
  ch_start : Z;
  ch_prompt_len : Z;
  ch_completes : bool;
  ch_kv_blocks : list nat
}.

Definition PrefillWork := list PrefillChunkSpec.

Definition work_tokens (w : PrefillWork) : Z :=
  foldr (fun c n => u64_wrap (Z.of_nat (length (ch_tokens c)) + n)) 0 w.

Record PrefillOutcome := mkPrefillOutcome {
  po_elapsed_ms : f64;
  first_tokens : list (RequestId * Z)
}.

Record DecodeSeqSpec := mkSeqSpec {
  sp_id : RequestId;
  sp_prompt_len : Z;
  sp_first_token : Z;
  sp_max_tokens : Z;
  sp_kv_blocks : list nat
}.

Record DecodeStepOutcome := mkStepOutcome {
  so_elapsed_ms : f64;
  so_tokens : list (RequestId * Z);
  so_finished : list RequestId
}.

Definition step_default : DecodeStepOutcome := mkStepOutcome f0 [] [].

(** A call that runs the model may panic ([None]), and then nothing comes of
    it. *)
Class Engine (E : Type) := {
  info : E -> EngineInfo;
  prefill : E -> PrefillWork -> f64 -> option (E * result Error PrefillOutcome);
  add_decode_seq : E -> DecodeSeqSpec -> E * result Error unit;
  decode_step : E -> f64 -> option (E * result Error DecodeStepOutcome);
  remove_seq : E -> RequestId -> E * result Error unit;
  decode_concurrency : E -> nat
}.

(** What the workers rely on, for the states [engine_ok] of the engine: that its
    calls do not panic; the documented contract of [first_tokens], one first
    token for each sequence whose prefill completed in the batch; and that a
    decode step emits for a sequence at most once. *)
Class EngineLaws (E : Type) `{!Engine E} := {
  engine_ok : E -> Prop;
  prefill_ok : forall e w now, engine_ok e -> exists e' r, prefill e w now = Some (e', r) /\ engine_ok e';
  add_ok : forall e s, engine_ok e -> engine_ok (add_decode_seq e s).1;
  step_ok : forall e now, engine_ok e -> exists e' r, decode_step e now = Some (e', r) /\ engine_ok e';
  remove_ok : forall e id, engine_ok e -> engine_ok (remove_seq e id).1;
  prefill_first_tokens : forall (e e' : E) (w : PrefillWork) (now : f64) (o : PrefillOutcome),
    engine_ok e -> prefill e w now = Some (e', Ok o) ->
    (first_tokens o).*1 = ch_id <$> filter (fun c => ch_completes c = true) w;
  step_distinct : forall (e e' : E) (now : f64) (o : DecodeStepOutcome),
    engine_ok e -> decode_step e now = Some (e', Ok o) -> NoDup (so_tokens o).*1
}.

(** That a decode step emits only for sequences the engine was given, however
    it answered then. *)
Class EngineTracks (E : Type) `{!Engine E} `{!EngineLaws E} := {
  tracked : E -> RequestId -> Prop;
  tracked_prefill : forall e w now e' r id, engine_ok e -> prefill e w now = Some (e', r) -> tracked e' id -> tracked e id;
  tracked_add : forall e s id, engine_ok e -> tracked (add_decode_seq e s).1 id -> id = sp_id s \/ tracked e id;
  tracked_step : forall e now e' r id, engine_ok e -> decode_step e now = Some (e', r) -> tracked e' id -> tracked e id;
  tracked_remove : forall e i id, engine_ok e -> tracked (remove_seq e i).1 id -> tracked e id;
  tokens_tracked : forall (e e' : E) (now : f64) (o : DecodeStepOutcome) (id : RequestId),
    engine_ok e -> decode_step e now = Some (e', Ok o) -> id ∈ (so_tokens o).*1 -> tracked e id
}.

(** What a step leaves of the tokens still to be emitted. *)
Definition owed_after (m : gmap Z Z) : gmap Z Z := omap (fun n => if n =? 1 then None else Some (n - 1)) m.

(** An engine that serves: it refuses nothing it may be asked, and a step emits
    one token for each of its sequences; [owes] has the tokens still to come for
    each of them, at least one, and a sequence is finished with its last. *)
Class EngineServes (E : Type) `{!Engine E} `{!EngineLaws E} := {
  serves : E -> Prop;
  owes : E -> gmap Z Z;
  serves_ok : forall e, serves e -> engine_ok e;
  owes_pos : forall e, serves e -> map_Forall (fun _ n => 1 <= n) (owes e);
  serves_prefill : forall e w now, serves e -> exists e' o, prefill e w now = Some (e', Ok o) /\ serves e';
  serves_add : forall e s, serves e -> owes e !! sp_id s = None -> sp_max_tokens s <= u32_max ->
    serves (add_decode_seq e s).1 /\ (add_decode_seq e s).2 = Ok () /\
    owes (add_decode_seq e s).1 = <[sp_id s := Z.max 1 (sp_max_tokens s - 1)]> (owes e);
  serves_step : forall e now, serves e -> exists e' o,
    decode_step e now = Some (e', Ok o) /\ serves e' /\ owes e' = owed_after (owes e) /\
    (so_tokens o).*1 ≡ₚ (map_to_list (owes e)).*1 /\
    NoDup (so_finished o) /\ (forall id, id ∈ so_finished o <-> owes e !! id = Some 1);
  serves_remove : forall e id, serves e ->
    serves (remove_seq e id).1 /\ owes (remove_seq e id).1 = delete id (owes e)
}.

Module Mock.

(** ** The cost model *)

Record PrefillCurve := mkPrefillCurve {
  tokens_per_ms : f64;
  overhead_ms : f64;
  multiseq_gain : f64;
  multiseq_saturation : f64
}.

Definition for_worker (cal : Planner.PrefillCalibration) (gpus tp : Z) : PrefillCurve :=
  let tok_s := fmul (Planner.tok_s_per_gpu_at_tp cal tp) (of_Z gpus) in
  let per_ms := fdiv tok_s (of_Z 1000) in
  let nominal_batch_ms := fdiv (of_Z 16384) per_ms in
  let overhead := fmul nominal_batch_ms (fsub (fdiv f1 (Planner.duty_cycle cal)) f1) in
  mkPrefillCurve per_ms overhead (dec 116 3) (of_Z 5).

Definition rate_at (c : PrefillCurve) (num_seqs : Z) : f64 :=
  let n := fmin (of_Z (Z.max num_seqs 1)) (multiseq_saturation c) in
  let frac := fdiv (fsub n f1) (fmax (fsub (multiseq_saturation c) f1) f1) in
  fmul (tokens_per_ms c) (fadd f1 (fmul (multiseq_gain c) frac)).

Definition batch_ms (c : PrefillCurve) (tokens num_seqs : Z) : f64 :=
  if tokens =? 0 then f0 else fadd (overhead_ms c) (fdiv (of_Z tokens) (rate_at c num_seqs)).

Record DecodeCurve := mkDecodeCurve {
  base_ms : f64;
  slope_ms : f64;
  knee : f64;
  knee_penalty : f64
}.

Definition from_point (concurrency itl_ms assumed_base_ms : f64) : DecodeCurve :=
  let slope := if fgt concurrency f0 then fdiv (fsub itl_ms assumed_base_ms) concurrency else f0 in
  mkDecodeCurve assumed_base_ms (fmax slope f0) INFINITY (of_Z 3).

Definition from_calibration (cal : Planner.DecodeCalibration) (gpus : Z) : DecodeCurve :=
  let c := fmul (Planner.concurrency_per_gpu cal) (of_Z (Z.max gpus 1)) in
  from_point c (Planner.itl_ms_at_ref cal) (of_Z 12).

Definition curve_step_ms (d : DecodeCurve) (concurrency : Z) : f64 :=
  let c := of_Z concurrency in
  let linear := fadd (base_ms d) (fmul (slope_ms d) c) in
  if fle c (knee d) then linear
  else fadd linear (fmul (fmul (fsub c (knee d)) (slope_ms d)) (knee_penalty d)).

Record CostModel := mkCost {
  cost_prefill : PrefillCurve;
  cost_decode : DecodeCurve;
  kv_transfer_ms : f64
}.

(** ** The mock engine *)

Inductive TimeMode := Virtual | Wall.

Record MockSeq := mkMockSeq {
  spec : DecodeSeqSpec;
  emitted : Z
}.

Record MockEngine := mkMock {
  m_info : EngineInfo;
  m_cost : CostModel;
  m_mode : TimeMode;
  m_decode : gmap Z MockSeq;
  m_steps : Z
}.

Definition mock_new (i : EngineInfo) (c : CostModel) (m : TimeMode) : MockEngine := mkMock i c m ∅ 0.

Definition set_decode (e : MockEngine) (d : gmap Z MockSeq) (steps : Z) : MockEngine :=
  mkMock (m_info e) (m_cost e) (m_mode e) d steps.

Definition fake_token (id position : Z) : Z :=
  let h := u64_wrap (u64_wrap (id * 0x9E3779B97F4A7C15) + position) in
  u32_wrap (Z.shiftr h 32) mod 150000.

(** [Duration::from_secs_f64] takes what is not negative and below 2^64, and
    panics on anything else. *)
Definition duration_from_secs (secs : f64) : option f64 :=
  if fle f0 secs && flt secs (of_Z (2 ^ 64)) then Some secs else None.

(** The wall clock is slept on; the virtual one is not. *)
Definition spend (mode : TimeMode) (ms : f64) : option unit :=
  match mode with
  | Virtual => Some ()
  | Wall => if fgt ms f0 then _ ← duration_from_secs (fdiv ms (of_Z 1000)); Some () else Some ()
  end.

Definition mock_prefill (e : MockEngine) (work : PrefillWork) (now : f64) : option (MockEngine * result Error PrefillOutcome) :=
  let ms := batch_ms (cost_prefill (m_cost e)) (work_tokens work) (Z.of_nat (length work)) in
  _ ← spend (m_mode e) ms;
  Some (e, Ok (mkPrefillOutcome ms
    (map (fun c => (ch_id c, fake_token (ch_id c) 0)) (filter (fun c => ch_completes c = true) work)))).

Definition mock_add (e : MockEngine) (s : DecodeSeqSpec) : MockEngine * result Error unit :=
  (set_decode e (<[sp_id s := mkMockSeq s 1]> (m_decode e)) (m_steps e), Ok ()).

(** The body of the loop over [values_mut]. *)
Definition bump (q : MockSeq) : MockSeq := mkMockSeq (spec q) (u32_wrap (emitted q + 1)).

(** What a step computes before it is waited for. *)
Definition mock_advance (e : MockEngine) : MockEngine * DecodeStepOutcome :=
  let concurrency := size (m_decode e) in
  if (concurrency =? 0)%nat then (e, step_default)
  else
    let ms := curve_step_ms (cost_decode (m_cost e)) (u64_wrap (Z.of_nat concurrency)) in
    let bumped := bump <$> m_decode e in
    let seqs := (map_to_list bumped).*2 in
    let toks := map (fun q => (sp_id (spec q), fake_token (sp_id (spec q)) (emitted q))) seqs in
    let fin := map (fun q => sp_id (spec q))
                 (filter (fun q => sp_max_tokens (spec q) <= emitted q) seqs) in
    let left := foldl (fun m id => delete id m) bumped fin in
    (set_decode e left (u64_wrap (m_steps e + 1)), mkStepOutcome ms toks fin).

(** An empty step takes no time. *)
Definition mock_step (e : MockEngine) (now : f64) : option (MockEngine * result Error DecodeStepOutcome) :=
  let '(e', out) := mock_advance e in
  _ ← spend (m_mode e) (so_elapsed_ms out);
  Some (e', Ok out).

Definition mock_remove (e : MockEngine) (id : Z) : MockEngine * result Error unit :=
  (set_decode e (delete id (m_decode e)) (m_steps e), Ok ()).

#[global] Instance mock_engine : Engine MockEngine := {
  info := m_info;
  prefill := mock_prefill;
  add_decode_seq := mock_add;
  decode_step := mock_step;
  remove_seq := mock_remove;
  decode_concurrency e := size (m_decode e)
}.

Definition mock_prefill_worker (mdl : string) (gs : list Z) (tp : Z) (c : CostModel) (m : TimeMode) :=
  mock_new (mkInfo "mock" mdl PhasePrefill tp gs 4096 128) c m.

Definition mock_decode_worker (mdl : string) (gs : list Z) (tp blocks : Z) (c : CostModel) (m : TimeMode) :=
  mock_new (mkInfo "mock" mdl PhaseDecode tp gs blocks 128) c m.

(** ** A client of the engine, as a sequence of calls *)

Inductive Call :=
  | CAdd (s : DecodeSeqSpec)
  | CStep (now : f64)
  | CRemove (id : Z).

Definition touches (id : Z) (c : Call) : bool :=
  match c with CAdd s => sp_id s =? id | CStep _ => false | CRemove i => i =? id end.

(** The engine after the calls and the outcomes of its steps, none of which
    panics. *)
Fixpoint run_calls (e : MockEngine) (l : list Call) : MockEngine * list DecodeStepOutcome :=
  match l with
  | [] => (e, [])
  | CAdd s :: l => run_calls (mock_add e s).1 l
  | CRemove i :: l => run_calls (mock_remove e i).1 l
  | CStep now :: l =>
      let '(e1, o) := mock_advance e in
      let '(e2, os) := run_calls e1 l in (e2, o :: os)
  end.

Definition steps_in (l : list Call) : Z :=
  foldr (fun c n => match c with CStep _ => 1 + n | _ => n end) 0 l.

Definition tokens_for (id : Z) (os : list DecodeStepOutcome) : Z :=
  foldr (fun o n => Z.of_nat (length (filter (fun x => x = id) (so_tokens o).*1)) + n) 0 os.

Definition finishes_of (id : Z) (os : list DecodeStepOutcome) : Z :=
  foldr (fun o n => Z.of_nat (length (filter (fun x => x = id) (so_finished o))) + n) 0 os.

(** Sequences are stored under their own ids. *)
Definition keyed (e : MockEngine) : Prop := map_Forall (fun id q => sp_id (spec q) = id) (m_decode e).

Lemma lookup_delete_all (ids : list Z) : forall (m : gmap Z MockSeq) id,
  foldl (fun m id => delete id m) m ids !! id = if decide (id ∈ ids) then None else m !! id.
Proof.
  induction ids as [|i ids IH]; intros m id; cbn [foldl].
  { rewrite decide_False; [done|]. apply not_elem_of_nil. }
  rewrite IH. destruct (decide (id ∈ ids)) as [Hin|Hin].
  { rewrite decide_True; [done|]. by right. }
  destruct (decide (id = i)) as [->|Hne].
  - rewrite lookup_delete_eq, decide_True; [done|left].
  - rewrite lookup_delete_ne by done. rewrite decide_False; [done|].
    intros [?|?]%elem_of_cons; done.
Qed.

(** The ids under which the values that satisfy [P] are stored. *)
Lemma count_key (P : MockSeq -> Prop) `{!forall q, Decision (P q)} (m : gmap Z MockSeq) id :
  map_Forall (fun id q => sp_id (spec q) = id) m ->
  length (filter (fun x => x = id) (map (fun q => sp_id (spec q)) (filter P (map_to_list m).*2))) =
  match m !! id with Some q => if decide (P q) then 1%nat else 0%nat | None => 0%nat end.
Proof.
  intros Hk.
  assert (Forall (fun kq => m !! kq.1 = Some kq.2 /\ sp_id (spec kq.2) = kq.1) (map_to_list m)) as Hl.
  { apply Forall_forall. intros [k q] Hin%elem_of_map_to_list. split; [done|]. by apply Hk. }
  assert ((exists q, m !! id = Some q) -> id ∈ (map_to_list m).*1) as Hid.
  { intros [q Hq]. apply list_elem_of_fmap. exists (id, q). split; [done|by apply elem_of_map_to_list]. }
  pose proof (NoDup_fst_map_to_list m) as Hnd. revert Hl Hid Hnd.
  generalize (map_to_list m). intros l.
  induction l as [|[k q] l IH]; intros Hl Hid Hnd.
  { destruct (m !! id) eqn:E; [|done]. exfalso. eapply (not_elem_of_nil id), Hid. eauto. }
  apply Forall_cons in Hl as [[Hkq Hsp] Hl]. cbn [fst snd fmap list_fmap] in *.
  apply NoDup_cons in Hnd as [Hnin Hnd].
  assert (forall l', Forall (fun kq => m !! kq.1 = Some kq.2 /\ sp_id (spec kq.2) = kq.1) l' ->
    id ∉ l'.*1 ->
    length (filter (fun x => x = id) (map (fun q => sp_id (spec q)) (filter P l'.*2))) = 0%nat) as Hzero.
  { induction l' as [|[k' q'] l' IH']; intros Hf Hni; [done|].
    apply Forall_cons in Hf as [[_ Hs] Hf]. cbn [fst snd fmap list_fmap] in *.
    rewrite not_elem_of_cons in Hni. destruct Hni as [Hne Hni].
    rewrite filter_cons. destruct (decide (P q')); cbn [map]; [|by apply IH'].
    rewrite filter_cons, decide_False by congruence. by apply IH'. }
  rewrite filter_cons. destruct (decide (id = k)) as [->|Hne].
  - rewrite Hkq. destruct (decide (P q)); cbn [map].
    + rewrite filter_cons, decide_True by done. cbn [length]. by rewrite Hzero.
    + by apply Hzero.
  - assert (length (filter (fun x => x = id) (map (fun q => sp_id (spec q)) (filter P l.*2))) =
      match m !! id with Some q => if decide (P q) then 1%nat else 0%nat | None => 0%nat end) as Heq.
    { apply IH; [done| |done]. intros Hq. apply Hid in Hq. by apply elem_of_cons in Hq as [?|?]. }
    destruct (decide (P q)); cbn [map]; [|done].
    rewrite filter_cons, decide_False by congruence. done.
Qed.

Lemma count_pos_elem (ids : list Z) id : id ∈ ids <-> length (filter (fun x => x = id) ids) <> 0%nat.
Proof.
  split.
  - intros Hin Hz. apply length_zero_iff_nil in Hz.
    assert (id ∈ filter (fun x => x = id) ids) as H by by apply list_elem_of_filter.
    rewrite Hz in H. by apply not_elem_of_nil in H.
  - intros Hn. destruct (filter (fun x => x = id) ids) as [|y l] eqn:E; [done|].
    assert (y ∈ filter (fun x => x = id) ids) as H by (rewrite E; left).
    apply list_elem_of_filter in H as [-> H]. done.
Qed.

Lemma filter_all (l : list MockSeq) : filter (fun _ => True) l = l.
Proof. induction l as [|x l IH]; [done|]. rewrite filter_cons, decide_True by done. by rewrite IH. Qed.

(** One step, for one sequence. *)
Lemma mock_step_seq e id : keyed e ->
  keyed (mock_advance e).1 /\ let o := (mock_advance e).2 in
  match m_decode e !! id with
  | None => m_decode (mock_advance e).1 !! id = None /\ tokens_for id [o] = 0 /\ finishes_of id [o] = 0
  | Some q =>
      tokens_for id [o] = 1 /\
      if decide (sp_max_tokens (spec q) <= u32_wrap (emitted q + 1)) then
        m_decode (mock_advance e).1 !! id = None /\ finishes_of id [o] = 1
      else m_decode (mock_advance e).1 !! id = Some (bump q) /\ finishes_of id [o] = 0
  end.
Proof.
  intros Hk. unfold mock_advance. destruct (Nat.eqb_spec (size (m_decode e)) 0) as [Hz|Hz].
  { split; [done|]. apply map_size_empty_inv in Hz. cbn [fst snd]. rewrite Hz, lookup_empty. done. }
  cbn [fst snd set_decode m_decode].
  set (b := bump <$> m_decode e). set (P := fun q => sp_max_tokens (spec q) <= emitted q).
  assert (map_Forall (fun id q => sp_id (spec q) = id) b) as Hkb.
  { intros i q. unfold b. rewrite lookup_fmap_Some. intros (q0 & <- & Hq0). by apply (Hk i q0). }
  assert (b !! id = bump <$> (m_decode e !! id)) as Hb by apply lookup_fmap.
  pose proof (count_key (fun _ => True) b id Hkb) as Hc1.
  pose proof (count_key P b id Hkb) as Hc2. fold P.
  split.
  { intros i q. cbn [set_decode m_decode]. rewrite lookup_delete_all. destruct (decide _); [done|]. apply Hkb. }
  unfold tokens_for, finishes_of. cbn [foldr so_tokens so_finished].
  assert (((fun q => (sp_id (spec q), fake_token (sp_id (spec q)) (emitted q))) <$> (map_to_list b).*2).*1 =
    map (fun q => sp_id (spec q)) (filter (fun _ => True) (map_to_list b).*2)) as Htoks.
  { rewrite <- list_fmap_compose, filter_all. done. }
  change (map (fun q => (sp_id (spec q), fake_token (sp_id (spec q)) (emitted q))) (map_to_list b).*2)
    with ((fun q => (sp_id (spec q), fake_token (sp_id (spec q)) (emitted q))) <$> (map_to_list b).*2).
  rewrite Htoks, Hc1, lookup_delete_all. change (fun q : MockSeq => sp_max_tokens (spec q) <= emitted q) with P.
  revert Hc2. generalize (map (fun q => sp_id (spec q)) (filter P (map_to_list b).*2)). intros fin Hc2.
  pose proof (count_pos_elem fin id) as Hin. rewrite Hc2 in Hin. rewrite Hc2, !Z.add_0_r, Hb in *.
  destruct (m_decode e !! id) as [q|] eqn:Hq; cbn [fmap option_fmap option_map] in *.
  - split; [destruct (decide True); done|]. unfold P in *. cbn [bump spec emitted] in *.
    destruct (decide (sp_max_tokens (spec q) <= u32_wrap (emitted q + 1))), (decide (id ∈ fin)); try done.
    + exfalso. by apply n, Hin.
    + exfalso. by apply Hin in e0.
  - destruct (decide (id ∈ fin)) as [H|H]; [|done]. by apply Hin in H.
Qed.

Lemma keyed_add e s : keyed e -> keyed (mock_add e s).1.
Proof. intros Hk i q. cbn. intros [[<- <-]|[_ H]]%lookup_insert_Some; [done|by apply Hk]. Qed.

Lemma keyed_remove e i : keyed e -> keyed (mock_remove e i).1.
Proof. intros Hk j q. cbn. intros [_ H]%lookup_delete_Some. by apply Hk. Qed.

Lemma keyed_step e : keyed e -> keyed (mock_advance e).1.
Proof. intros Hk. by destruct (mock_step_seq e 0 Hk). Qed.

Lemma mock_step_distinct e : keyed e -> NoDup (so_tokens (mock_advance e).2).*1.
Proof.
  intros Hk. apply NoDup_alt. intros i j x Hi Hj.
  destruct (mock_step_seq e x Hk) as (_ & Hcase). cbn zeta in Hcase. set (o := (mock_advance e).2) in *.
  assert (tokens_for x [o] <= 1) as Hle.
  { destruct (m_decode e !! x); [destruct Hcase as [-> _]|destruct Hcase as (_ & -> & _)]; lia. }
  unfold tokens_for in Hle. cbn [foldr] in Hle. revert Hi Hj Hle. generalize (so_tokens o).*1. intros l.
  revert i j. induction l as [|y l IH]; intros i j Hi Hj Hle; [done|].
  assert (forall k, l !! k = Some x -> (1 <= length (filter (fun z => z = x) l))%nat) as Hin.
  { intros k Hk'. apply list_elem_of_lookup_2 in Hk'. apply count_pos_elem in Hk'. lia. }
  rewrite filter_cons in Hle. destruct i as [|i], j as [|j]; cbn [lookup list_lookup] in Hi, Hj; [done| | |].
  - injection Hi as ->. rewrite decide_True in Hle by done. cbn [length] in Hle. specialize (Hin j Hj). lia.
  - injection Hj as ->. rewrite decide_True in Hle by done. cbn [length] in Hle. specialize (Hin i Hi). lia.
  - f_equal. apply IH; [done|done|]. destruct (decide (y = x)); [cbn [length] in Hle|]; lia.
Qed.

(** Costs that can be slept, as the wall clock needs them. *)
Definition sleeps (c : CostModel) : Prop :=
  (forall tokens n, 0 <= tokens <= u64_max -> is_Some (spend Wall (batch_ms (cost_prefill c) tokens n))) /\
  (forall n, 0 <= n <= u64_max -> is_Some (spend Wall (curve_step_ms (cost_decode c) n))).

Definition mock_calm (e : MockEngine) : Prop := m_mode e = Wall -> sleeps (m_cost e).

Definition mock_ok (e : MockEngine) : Prop := keyed e /\ mock_calm e.

Lemma mock_new_ok i c m : (m = Wall -> sleeps c) -> mock_ok (mock_new i c m).
Proof. intros H. split; [|exact H]. intros j q. cbn. by rewrite lookup_empty. Qed.

Lemma work_tokens_range w : 0 <= work_tokens w <= u64_max.
Proof.
  unfold work_tokens, u64_max. destruct w as [|c w]; cbn [foldr]; [lia|]. unfold u64_wrap.
  pose proof (Z.mod_pos_bound (Z.of_nat (length (ch_tokens c)) +
    foldr (fun c n => (Z.of_nat (length (ch_tokens c)) + n) mod 2 ^ 64) 0 w) (2 ^ 64) ltac:(lia)). lia.
Qed.

Lemma mock_prefill_some e w now : mock_calm e -> exists o, mock_prefill e w now = Some (e, Ok o) /\
  (first_tokens o).*1 = ch_id <$> filter (fun c => ch_completes c = true) w.
Proof.
  intros Hc. unfold mock_prefill. set (ms := batch_ms _ _ _).
  assert (is_Some (spend (m_mode e) ms)) as [u ->].
  { unfold mock_calm in Hc. destruct (m_mode e); [by eexists|]. apply (Hc eq_refl), work_tokens_range. }
  cbn [mbind option_bind]. eexists. split; [done|]. cbn [first_tokens].
  generalize (filter (fun c => ch_completes c = true) w). intros l. by rewrite <- list_fmap_compose.
Qed.

Lemma mock_step_some e now : mock_calm e -> mock_step e now = Some ((mock_advance e).1, Ok (mock_advance e).2).
Proof.
  intros Hc. unfold mock_step. destruct (mock_advance e) as [e' o] eqn:E.
  assert (is_Some (spend (m_mode e) (so_elapsed_ms o))) as [u ->]; [|done].
  unfold mock_calm in Hc. destruct (m_mode e); [by eexists|].
  unfold mock_advance in E. destruct (_ =? 0)%nat; injection E as _ <-; [by eexists|]. apply (Hc eq_refl).
  unfold u64_wrap, u64_max. pose proof (Z.mod_pos_bound (Z.of_nat (size (m_decode e))) (2 ^ 64) ltac:(lia)). lia.
Qed.

Lemma advance_calm e : mock_calm e -> mock_calm (mock_advance e).1.
Proof. unfold mock_calm, mock_advance. by destruct (_ =? 0)%nat. Qed.

#[global] Instance mock_laws : EngineLaws MockEngine.
Proof.
  refine {| engine_ok := mock_ok |}.
  - intros e w now [Hk Hc]. destruct (mock_prefill_some e w now Hc) as (o & E & _). by exists e, (Ok o).
  - intros e s [Hk Hc]. split; [by apply keyed_add|exact Hc].
  - intros e now [Hk Hc]. eexists _, _. split; [by apply mock_step_some|]. split; [by apply keyed_step|by apply advance_calm].
  - intros e id [Hk Hc]. split; [by apply keyed_remove|exact Hc].
  - intros e e' w now o [Hk Hc] E. destruct (mock_prefill_some e w now Hc) as (o' & E' & Ho). cbn in E. by simplify_eq.
  - intros e e' now o [Hk Hc] E. cbn in E. rewrite mock_step_some in E by done. injection E as _ <-. by apply mock_step_distinct.
Defined.

#[global] Instance mock_tracks : EngineTracks MockEngine.
Proof.
  refine {| tracked e id := is_Some (m_decode e !! id) |}.
  - intros e w now e' r id [_ Hc] E H. destruct (mock_prefill_some e w now Hc) as (o & E' & _). cbn in E. by simplify_eq.
  - intros e s id _ H. destruct (decide (id = sp_id s)) as [|Hne]; [by left|right].
    cbn in H. by rewrite lookup_insert_ne in H by done.
  - intros e now e' r id [He Hc] E H. cbn in E. rewrite mock_step_some in E by done. injection E as <- _.
    destruct (mock_step_seq e id He) as [_ Hs].
    destruct (m_decode e !! id) as [q|]; [by eexists|]. destruct Hs as [Hn _]. rewrite Hn in H. by destruct H.
  - intros e i id _ H. cbn in H. apply lookup_delete_is_Some in H as [_ H]. exact H.
  - intros e e' now o id [He Hc] E Hin. cbn in E. rewrite mock_step_some in E by done. injection E as _ <-.
    destruct (mock_step_seq e id He) as [_ Hs].
    destruct (m_decode e !! id) as [q|]; [by eexists|]. destruct Hs as (_ & Ht & _).
    unfold tokens_for in Ht. cbn [foldr] in Ht. apply count_pos_elem in Hin. lia.
Defined.

(** The sequences the mock holds are under way: it finishes with the budget, or
    with the first token it emits. *)
Definition under_way (q : MockSeq) : Prop :=
  1 <= emitted q /\ (emitted q = 1 \/ emitted q < sp_max_tokens (spec q)) /\ sp_max_tokens (spec q) <= u32_max.

Definition mock_serves (e : MockEngine) : Prop := mock_ok e /\ map_Forall (fun _ q => under_way q) (m_decode e).
Definition to_emit (q : MockSeq) : Z := Z.max 1 (sp_max_tokens (spec q) - emitted q).
Definition mock_owes (e : MockEngine) : gmap Z Z := to_emit <$> m_decode e.

Lemma keyed_ids (m : gmap Z MockSeq) : map_Forall (fun id q => sp_id (spec q) = id) m ->
  map (fun q => sp_id (spec q)) (map_to_list m).*2 = (map_to_list m).*1.
Proof.
  intros Hk. assert (Forall (fun kq => sp_id (spec kq.2) = kq.1) (map_to_list m)) as H.
  { apply Forall_forall. intros [k q] Hin%elem_of_map_to_list. by apply (Hk k q). }
  induction H as [|[k q] l Hq _ IH]; [done|]. cbn [fmap list_fmap map snd fst] in *. by rewrite Hq, IH.
Qed.

Lemma under_way_bump q : under_way q -> u32_wrap (emitted q + 1) = emitted q + 1.
Proof. intros (H1 & H2 & H3). unfold u32_max in H3. apply Z.mod_small. lia. Qed.

Lemma mock_step_owes e : mock_serves e -> mock_owes (mock_advance e).1 = owed_after (mock_owes e).
Proof.
  intros [[Hk _] Hu]. apply map_eq. intros id. unfold owed_after. rewrite lookup_omap. unfold mock_owes. rewrite !lookup_fmap.
  destruct (mock_step_seq e id Hk) as [_ Hc].
  destruct (m_decode e !! id) as [q|] eqn:Eq; cbn [fmap option_fmap option_map mbind option_bind].
  - specialize (Hu id q Eq). cbn beta in Hu. rewrite (under_way_bump q Hu) in Hc. destruct Hu as (H1 & H2 & H3), Hc as [_ Hc].
    unfold to_emit at 2. destruct (decide (sp_max_tokens (spec q) <= emitted q + 1)) as [Hd|Hd]; destruct Hc as [-> _]; cbn.
    + rewrite (proj2 (Z.eqb_eq _ _)) by lia. done.
    + rewrite (proj2 (Z.eqb_neq _ _)) by lia. f_equal. unfold to_emit. cbn [bump spec emitted].
      unfold u32_wrap, u32_max in *. rewrite Z.mod_small by lia. lia.
  - by destruct Hc as [-> _].
Qed.

Lemma mock_step_serves e : mock_serves e -> mock_serves (mock_advance e).1.
Proof.
  intros [[Hk Hcalm] Hu]. split; [split; [by apply keyed_step|by apply advance_calm]|]. intros id q Hq.
  destruct (mock_step_seq e id Hk) as [_ Hc].
  destruct (m_decode e !! id) as [q0|] eqn:Eq; [|destruct Hc as [Hn _]; congruence].
  specialize (Hu id q0 Eq). cbn beta in Hu. rewrite (under_way_bump q0 Hu) in Hc.
  destruct Hc as [_ Hc]. destruct (decide _) as [Hd|Hd]; destruct Hc as [Hn _]; [congruence|].
  rewrite Hq in Hn. injection Hn as ->. pose proof (under_way_bump q0 Hu) as Hw. destruct Hu as (H1 & H2 & H3).
  unfold under_way. cbn [bump spec emitted]. rewrite Hw. lia.
Qed.

Lemma mock_step_reports e : mock_serves e -> let o := (mock_advance e).2 in
  (so_tokens o).*1 ≡ₚ (map_to_list (mock_owes e)).*1 /\ NoDup (so_finished o) /\
  (forall id, id ∈ so_finished o <-> mock_owes e !! id = Some 1).
Proof.
  intros Hs. pose proof Hs as [[Hk _] Hu]. cbn zeta.
  assert ((map_to_list (mock_owes e)).*1 = (map_to_list (m_decode e)).*1) as Hkeys.
  { unfold mock_owes. rewrite map_to_list_fmap, <- list_fmap_compose. by apply list_fmap_ext. }
  assert (forall id, id ∈ so_finished (mock_advance e).2 <-> mock_owes e !! id = Some 1) as Hfin.
  { intros id. destruct (mock_step_seq e id Hk) as [_ Hc]. cbn zeta in Hc. set (o := (mock_advance e).2) in *.
    rewrite count_pos_elem. unfold finishes_of in Hc. cbn [foldr] in Hc. unfold mock_owes. rewrite lookup_fmap.
    destruct (m_decode e !! id) as [q|] eqn:Eq; cbn [fmap option_fmap option_map].
    - specialize (Hu id q Eq). cbn beta in Hu. rewrite (under_way_bump q Hu) in Hc. destruct Hu as (H1 & H2 & H3), Hc as [_ Hc].
      unfold to_emit. destruct (decide _) as [Hd|Hd]; destruct Hc as [_ Hf]; split; intros H; try lia.
      + f_equal. lia.
      + injection H as H. lia.
    - destruct Hc as (_ & _ & Hf). split; [lia|done]. }
  assert ((so_tokens (mock_advance e).2).*1 = (map_to_list (m_decode e)).*1 /\ NoDup (so_finished (mock_advance e).2))
    as [Ht Hnd].
  { clear Hfin. unfold mock_advance. destruct (Nat.eqb_spec (size (m_decode e)) 0) as [Hz|Hz].
    { apply map_size_empty_inv in Hz. rewrite Hz, map_to_list_empty. split; [done|constructor]. }
    cbn [snd so_tokens so_finished].
    set (b := bump <$> m_decode e).
    assert (map_Forall (fun id q => sp_id (spec q) = id) b) as Hkb.
    { intros i q. unfold b. rewrite lookup_fmap_Some. intros (q0 & <- & Hq0). by apply (Hk i q0). }
    assert ((map_to_list b).*1 = (map_to_list (m_decode e)).*1) as Hb.
    { unfold b. rewrite map_to_list_fmap, <- list_fmap_compose. by apply list_fmap_ext. }
    split.
    - rewrite <- Hb, <- (keyed_ids b Hkb). generalize (map_to_list b).*2. intros l.
      induction l as [|q l IH]; [done|]. cbn [map fmap list_fmap fst] in *. by rewrite IH.
    - eapply sublist_NoDup; [exact (NoDup_fst_map_to_list b)|]. rewrite <- (keyed_ids b Hkb).
      apply fmap_sublist, sublist_filter. }
  split; [by rewrite Ht, Hkeys|]. by split.
Qed.

#[global] Instance mock_serving : EngineServes MockEngine.
Proof.
  refine {| serves := mock_serves; owes := mock_owes |}.
  - by intros e [].
  - intros e [_ Hu] id n. unfold mock_owes. rewrite lookup_fmap_Some. intros (q & <- & _). unfold to_emit. lia.
  - intros e w now H. destruct (mock_prefill_some e w now (proj2 (proj1 H))) as (o & E & _). by exists e, o.
  - intros e s [[Hk Hc] Hu] _ Hm. split; [split; [split|]|split; [done|]].
    + by apply keyed_add.
    + exact Hc.
    + intros id q. cbn. intros [[_ <-]|[_ H]]%lookup_insert_Some; [|by apply (Hu id q)].
      split; [cbn; lia|]. split; [by left|done].
    + unfold mock_owes. cbn. rewrite fmap_insert. f_equal.
  - intros e now H. destruct (mock_step_reports e H) as (Ht & Hn & Hf). eexists _, _.
    split; [by apply mock_step_some, H|]. split; [by apply mock_step_serves|]. split; [by apply mock_step_owes|]. done.
  - intros e id [[Hk Hc] Hu]. split; [split; [split|]|].
    + by apply keyed_remove.
    + exact Hc.
    + intros j q. cbn. intros [_ H]%lookup_delete_Some. by apply (Hu j q).
    + unfold mock_owes. cbn. by rewrite fmap_delete.
Defined.

Lemma run_absent l : forall e id, keyed e -> forallb (fun c => negb (touches id c)) l = true ->
  m_decode e !! id = None ->
  m_decode (run_calls e l).1 !! id = None /\ tokens_for id (run_calls e l).2 = 0 /\
  finishes_of id (run_calls e l).2 = 0.
Proof.
  induction l as [|c l IH]; intros e id Hk Ht Hn; cbn [run_calls]; [done|].
  cbn [forallb] in Ht. apply andb_prop in Ht as [Hc Ht].
  destruct c as [s|now|i]; cbn [touches] in Hc.
  - apply IH; [by apply keyed_add|done|]. cbn. rewrite lookup_insert_ne; [done|].
    intros <-. by rewrite Z.eqb_refl in Hc.
  - destruct (mock_step_seq e id Hk) as (Hk' & Hcase). rewrite Hn in Hcase.
    destruct (mock_advance e) as [e1 o]; cbn [fst snd] in *.
    destruct Hcase as (Hn1 & Ht1 & Hf1). specialize (IH e1 id Hk' Ht Hn1).
    destruct (run_calls e1 l) as [e2 os]; cbn [fst snd] in *.
    unfold tokens_for, finishes_of in *. cbn [foldr] in *.
    destruct IH as (? & ? & ?). split; [done|]. split; lia.
  - apply IH; [by apply keyed_remove|done|]. cbn. rewrite lookup_delete_ne; [done|].
    intros ->. by rewrite Z.eqb_refl in Hc.
Qed.

Lemma steps_nonneg l : 0 <= steps_in l.
Proof. unfold steps_in. induction l as [|c l IH]; cbn [foldr]; [lia|]. destruct c; lia. Qed.

Lemma run_present l : forall e id q, keyed e -> forallb (fun c => negb (touches id c)) l = true ->
  m_decode e !! id = Some q -> 1 <= emitted q -> Z.max 2 (sp_max_tokens (spec q)) <= u32_max ->
  (1 < emitted q -> emitted q < sp_max_tokens (spec q)) ->
  let left := Z.max (emitted q + 1) (sp_max_tokens (spec q)) - emitted q in
  tokens_for id (run_calls e l).2 = Z.min (steps_in l) left /\
  finishes_of id (run_calls e l).2 = (if left <=? steps_in l then 1 else 0) /\
  m_decode (run_calls e l).1 !! id =
    if left <=? steps_in l then None else Some (mkMockSeq (spec q) (emitted q + steps_in l)).
Proof.
  induction l as [|c l IH]; intros e id q Hk Ht Hq He Hm Hlt left; cbn [run_calls].
  { assert (0 < left) by lia. cbn [steps_in foldr].
    rewrite (proj2 (Z.leb_gt left 0)) by lia. rewrite Z.add_0_r. cbn. split; [lia|]. split; [done|].
    rewrite Hq. by destruct q. }
  cbn [forallb] in Ht. apply andb_prop in Ht as [Hc Ht].
  destruct c as [s|now|i]; cbn [touches] in Hc.
  - change (steps_in (CAdd s :: l)) with (steps_in l). apply IH; [by apply keyed_add|done| |done..].
    cbn. rewrite lookup_insert_ne; [done|]. intros <-. by rewrite Z.eqb_refl in Hc.
  - change (steps_in (CStep now :: l)) with (1 + steps_in l). pose proof (steps_nonneg l) as Hs0.
    destruct (mock_step_seq e id Hk) as (Hk' & Hcase). rewrite Hq in Hcase.
    destruct (mock_advance e) as [e1 o]; cbn [fst snd] in *.
    assert (u32_wrap (emitted q + 1) = emitted q + 1) as Hw
      by (apply Z.mod_small; unfold u32_max in Hm; lia).
    rewrite Hw in Hcase. destruct Hcase as [Ht1 Hcase].
    destruct (decide (sp_max_tokens (spec q) <= emitted q + 1)) as [Hd|Hd].
    + destruct Hcase as [Hn1 Hf1]. destruct (run_absent l e1 id Hk' Ht Hn1) as (Hn2 & Ht2 & Hf2).
      destruct (run_calls e1 l) as [e2 os]; cbn [fst snd] in *.
      rewrite (proj2 (Z.leb_le left (1 + steps_in l))) by lia.
      unfold tokens_for, finishes_of in *. cbn [foldr] in *. split; [lia|]. split; [lia|done].
    + destruct Hcase as [Hn1 Hf1].
      assert (bump q = mkMockSeq (spec q) (emitted q + 1)) as Hbq by (unfold bump; by rewrite Hw).
      specialize (IH e1 id (bump q) Hk' Ht Hn1). rewrite Hbq in IH. cbn [emitted spec] in IH.
      specialize (IH ltac:(lia) Hm ltac:(lia)). destruct IH as (Ht2 & Hf2 & Hl2).
      destruct (run_calls e1 l) as [e2 os]; cbn [fst snd] in *.
      unfold tokens_for, finishes_of in *. cbn [foldr] in *.
      destruct (Z.leb_spec left (1 + steps_in l)) as [Hle|Hgt].
      * rewrite (proj2 (Z.leb_le _ _)) in Hf2, Hl2 by lia. split; [lia|]. split; [lia|done].
      * rewrite (proj2 (Z.leb_gt _ _)) in Hf2, Hl2 by lia. split; [lia|]. split; [lia|].
        rewrite Hl2. f_equal. f_equal. lia.
  - change (steps_in (CRemove i :: l)) with (steps_in l). apply IH; [by apply keyed_remove|done| |done..].
    cbn. rewrite lookup_delete_ne; [done|]. intros ->. by rewrite Z.eqb_refl in Hc.
Qed.

(** ** Theorems *)

(** A sequence gets its budget. After it is attached with a budget of
    [max_tokens], and whatever else is attached, removed and stepped, every step
    emits exactly one token for it until [max_tokens - 1] of them (at least one)
    have been emitted; that step, and no other, reports it finished and detaches
    it. With the first token the prefill sampled that is [max_tokens] in all,
    and two for a budget of one. *)
Theorem mock_emits_budget (e : MockEngine) (s : DecodeSeqSpec) (l : list Call) :
  keyed e -> Z.max 2 (sp_max_tokens s) <= u32_max ->
  forallb (fun c => negb (touches (sp_id s) c)) l = true ->
  let budget := Z.max 1 (sp_max_tokens s - 1) in
  let '(e', os) := run_calls (mock_add e s).1 l in
  tokens_for (sp_id s) os = Z.min (steps_in l) budget /\
  finishes_of (sp_id s) os = (if budget <=? steps_in l then 1 else 0) /\
  (m_decode e' !! sp_id s = None <-> budget <= steps_in l).
Proof.
  intros Hk Hm Ht budget.
  pose proof (run_present l (mock_add e s).1 (sp_id s) (mkMockSeq s 1) (keyed_add e s Hk) Ht) as Hrun.
  cbn [emitted spec] in Hrun.
  specialize (Hrun ltac:(cbn; by rewrite lookup_insert_eq) ltac:(lia) Hm ltac:(lia)).
  replace (Z.max (1 + 1) (sp_max_tokens s) - 1) with budget in Hrun by (unfold budget; lia).
  destruct (run_calls (mock_add e s).1 l) as [e' os]. cbn [fst snd] in Hrun.
  destruct Hrun as (H1 & H2 & H3). split; [done|]. split; [done|]. rewrite H3.
  destruct (Z.leb_spec budget (steps_in l)); split; [done|done|done|lia].
Qed.

Definition cost_sample : CostModel :=
  mkCost (for_worker Planner.prefill_cal_default 4 4) (from_calibration Planner.decode_cal_default 8) f1.

Lemma mock_emits_budget_witness :
  let e := mock_decode_worker "m" [] 8 4096 cost_sample Virtual in
  let s := mkSeqSpec 7 100 5 3 [] in
  let l := [CStep f0; CAdd (mkSeqSpec 8 10 5 9 []); CStep f1; CStep f1] in
  tokens_for 7 (run_calls (mock_add e s).1 l).2 = 2 /\
  finishes_of 7 (run_calls (mock_add e s).1 l).2 = 1.
Proof.
  intros e s l.
  pose proof (mock_emits_budget e s l) as H.
  specialize (H ltac:(intros i q; cbn; rewrite lookup_empty; discriminate)
    ltac:(vm_compute; discriminate) eq_refl).
  revert H. generalize (run_calls (mock_add e s).1 l). intros [e' os] H.
  split; [apply (proj1 H)|apply (proj1 (proj2 H))].
Defined.

(** The multi-sequence gain saturates. Beyond [multiseq_saturation]
    sequences (a positive integer) the prefill rate is the rate at saturation. *)
Theorem rate_saturates (c : PrefillCurve) (sat n : Z) :
  multiseq_saturation c = of_Z sat -> 1 <= sat -> sat <= n -> small n ->
  rate_at c n = rate_at c sat.
Proof.
  intros Hs H1 Hn Sn. unfold rate_at. rewrite Hs.
  assert (small sat) as Ss by (unfold small in *; lia).
  assert (forall k, sat <= k -> small k -> fmin (of_Z k) (of_Z sat) = of_Z sat) as Hmin.
  { intros k Hk Sk. unfold fmin. rewrite !of_Z_not_nan by done.
    change (flt (of_Z sat) (of_Z k)) with (fgt (of_Z k) (of_Z sat)). rewrite fgt_of_Z by done.
    destruct (Z.ltb_spec sat k); [done|]. f_equal. lia. }
  rewrite !Z.max_l by lia. by rewrite !Hmin by (lia || done).
Qed.

Lemma rate_saturates_witness :
  rate_at (cost_prefill cost_sample) 9 = rate_at (cost_prefill cost_sample) 5.
Proof.
  apply (rate_saturates _ 5 9); [reflexivity|vm_compute; discriminate|vm_compute; discriminate|].
  vm_compute. discriminate.
Defined.
End Mock.
