(* ===== verification/Config.v ===== *)
(** * Deployment configuration ([crates/core/src/config.rs], [engine_config.rs])

    The engine knobs and what validates them, the deployment's configuration,
    the capacity model it induces, and the launcher environment it becomes. *)

From Stdlib Require Import ZArith Lia.
From stdpp Require Import base option list numbers pretty gmap strings.
From S2P Require Import Prelude F64 F64Int Core Policy Capacity.

(** ** Engine configuration *)

Module EngineConf.
Local Open Scope string_scope.
Local Open Scope Z_scope.
Local Open Scope s_scope.

Record SpeculationConfig := mkSpecConfig {
  enabled : bool;
  spec_model : string;
  spec_draft_tokens : Z
}.

Definition spec_default : SpeculationConfig :=
  mkSpecConfig false "/work/u4063814/hf_cache/eagle3/qwen3-235b-instruct-2507-specforge" 1.

Record EngineConfig := mkEngine {
  attn_backend : string;
  moe_backend : string;
  allreduce_strategy : string;
  expert_parallel : Z;
  prefill_attention_dp : bool;
  chunked_prefill : bool;
  cuda_graph_max_batch : Z;
  torch_compile : string;
  host_dispatch_spin : bool;
  block_reuse : bool;
  speculation : SpeculationConfig;
  context_parallel : Z
}.

Definition engine_default : EngineConfig :=
  mkEngine "TRTLLM" "AUTO" "AUTO" 1 false false 96 "0" false false spec_default 1.

Definition ATTN_BACKENDS : list string := ["TRTLLM"; "FLASHINFER"; "TORCH"; "VANILLA"].
Definition MOE_BACKENDS : list string :=
  ["AUTO"; "CUTLASS"; "CUTEDSL"; "WIDEEP"; "TRTLLM"; "DEEPGEMM"; "DENSEGEMM"; "VANILLA";
   "TRITON"; "MARLIN"; "MEGAMOE_DEEPGEMM"].
Definition ALLREDUCE_STRATEGIES : list string :=
  ["AUTO"; "NCCL"; "ONESHOT"; "TWOSHOT"; "LOWPRECISION"; "MNNVL"; "UB"; "NCCL_SYMMETRIC";
   "AUTO_LOWPRECISION"].
Definition TORCH_COMPILE : list string := ["0"; "1"; "inductor"].

(** The messages of the [Err]s, one constructor each. *)
Inductive Refusal :=
  | NotOneOf (name value : string)
  | EmptyGraph
  | AttentionDp
  | CpWithSpeculation
  | NeedsSm100 (backend : string) (sm : Z)
  | NeedsNvfp4 (quant : string)
  | NeedsSm90 (backend : string) (sm : Z).

Definition one_of (name value : string) (allowed : list string) : result Refusal unit :=
  if bool_decide (value ∈ allowed) then Ok () else Err (NotOneOf name value).

Definition validate (c : EngineConfig) : result Refusal unit :=
  _ <-? one_of "attn_backend" (attn_backend c) ATTN_BACKENDS ;;
  _ <-? one_of "moe_backend" (moe_backend c) MOE_BACKENDS ;;
  _ <-? one_of "allreduce_strategy" (allreduce_strategy c) ALLREDUCE_STRATEGIES ;;
  _ <-? one_of "torch_compile" (torch_compile c) TORCH_COMPILE ;;
  if cuda_graph_max_batch c =? 0 then Err EmptyGraph
  else if prefill_attention_dp c then Err AttentionDp
  else if (1 <? context_parallel c) && enabled (speculation c) then Err CpWithSpeculation
  else Ok ().

Record Hardware := mkHardware {
  sm : Z;
  quant : string
}.

Definition h200_fp8 : Hardware := mkHardware 90 "fp8".

Definition sm100 (hw : Hardware) : bool := (sm hw =? 100) || (sm hw =? 103).

(** The arms of the [match] on the backend's name, in order. *)
Definition validate_for (c : EngineConfig) (hw : Hardware) : result Refusal unit :=
  _ <-? validate c ;;
  let m := moe_backend c in
  if ((m =? "DEEPGEMM")%string || (m =? "MEGAMOE_DEEPGEMM")%string) && negb (sm100 hw)
  then Err (NeedsSm100 "DEEPGEMM" (sm hw))
  else if (m =? "TRTLLM")%string && negb (sm100 hw) then Err (NeedsSm100 "TRTLLM" (sm hw))
  else if (m =? "MARLIN")%string then
    if negb ((quant hw =? "nvfp4")%string) then Err (NeedsNvfp4 (quant hw))
    else if negb (sm hw =? 90) then Err (NeedsSm90 "MARLIN" (sm hw))
    else Ok ()
  else if (m =? "TRITON")%string && negb (sm hw =? 90) then Err (NeedsSm90 "TRITON" (sm hw))
  else Ok ().

(** What the selected kernels need of the machine. *)
Definition runs_on (m : string) (hw : Hardware) : Prop :=
  (m ∈ ["DEEPGEMM"; "MEGAMOE_DEEPGEMM"; "TRTLLM"] -> sm hw ∈ [100; 103]) /\
  (m = "MARLIN" -> quant hw = "nvfp4" /\ sm hw = 90) /\
  (m = "TRITON" -> sm hw = 90).

Lemma one_of_ok name v l : one_of name v l = Ok () <-> v ∈ l.
Proof. unfold one_of. destruct (bool_decide_reflect (v ∈ l)); split; congruence. Qed.

Lemma validate_ok c : validate c = Ok () <->
  attn_backend c ∈ ATTN_BACKENDS /\ moe_backend c ∈ MOE_BACKENDS /\
  allreduce_strategy c ∈ ALLREDUCE_STRATEGIES /\ torch_compile c ∈ TORCH_COMPILE /\
  cuda_graph_max_batch c <> 0 /\ prefill_attention_dp c = false /\
  (context_parallel c <= 1 \/ enabled (speculation c) = false).
Proof.
  unfold validate. rewrite <- (one_of_ok "attn_backend"), <- (one_of_ok "moe_backend"),
    <- (one_of_ok "allreduce_strategy"), <- (one_of_ok "torch_compile").
  destruct (one_of "attn_backend" _ _) as [[]|]; cbn [result_bind]; [|split; [done|intros (? & _); done]].
  destruct (one_of "moe_backend" _ _) as [[]|]; cbn [result_bind]; [|split; [done|intros (_ & ? & _); done]].
  destruct (one_of "allreduce_strategy" _ _) as [[]|]; cbn [result_bind];
    [|split; [done|intros (_ & _ & ? & _); done]].
  destruct (one_of "torch_compile" _ _) as [[]|]; cbn [result_bind];
    [|split; [done|intros (_ & _ & _ & ? & _); done]].
  destruct (Z.eqb_spec (cuda_graph_max_batch c) 0); [split; [done|tauto]|].
  destruct (prefill_attention_dp c); [split; [done|intuition congruence]|].
  destruct (Z.ltb_spec 1 (context_parallel c)), (enabled (speculation c)); cbn;
    (split; [done || tauto|]); try done; intros (_ & _ & _ & _ & _ & _ & [?|?]); done || lia.
Qed.

Lemma sm100_spec hw : sm100 hw = true <-> sm hw ∈ [100; 103].
Proof.
  unfold sm100. rewrite orb_true_iff, !Z.eqb_eq, !elem_of_cons, elem_of_nil. tauto.
Qed.

(** What validation accepts. A configuration validates for a machine
    exactly when every named kernel is one the backend knows, a graph is
    captured, attention DP is off, context parallelism and speculation are not
    combined, and the MoE kernel runs on the machine and its checkpoint. *)
Theorem validate_for_exact (c : EngineConfig) (hw : Hardware) :
  validate_for c hw = Ok () <->
  attn_backend c ∈ ATTN_BACKENDS /\ moe_backend c ∈ MOE_BACKENDS /\
  allreduce_strategy c ∈ ALLREDUCE_STRATEGIES /\ torch_compile c ∈ TORCH_COMPILE /\
  cuda_graph_max_batch c <> 0 /\ prefill_attention_dp c = false /\
  (context_parallel c <= 1 \/ enabled (speculation c) = false) /\
  runs_on (moe_backend c) hw.
Proof.
  pose proof (validate_ok c) as Hv. unfold validate_for, runs_on.
  destruct (validate c) as [[]|e]; cbn [result_bind].
  2: { split; [done|]. intros (? & ? & ? & ? & ? & ? & ? & _). exfalso.
       assert (Err (A := unit) e = Ok ()); [|done]. apply Hv. auto 10. }
  destruct (proj1 Hv eq_refl) as (H1 & H2 & H3 & H4 & H5 & H6 & H7).
  assert (forall P : Prop, P <-> attn_backend c ∈ ATTN_BACKENDS /\ moe_backend c ∈ MOE_BACKENDS /\
    allreduce_strategy c ∈ ALLREDUCE_STRATEGIES /\ torch_compile c ∈ TORCH_COMPILE /\
    cuda_graph_max_batch c <> 0 /\ prefill_attention_dp c = false /\
    (context_parallel c <= 1 \/ enabled (speculation c) = false) /\ P) as Hc by tauto.
  rewrite <- Hc. clear Hc Hv. rewrite <- sm100_spec, !elem_of_cons, elem_of_nil.
  revert H2. unfold MOE_BACKENDS. rewrite !elem_of_cons, elem_of_nil.
  set (m := moe_backend c). intros H2.
  repeat destruct H2 as [-> |H2]; [..|done].
  all: cbn; destruct (sm100 hw); cbn.
  all: try (destruct (String.eqb_spec (quant hw) "nvfp4"); cbn).
  all: try (destruct (Z.eqb_spec (sm hw) 90); cbn).
  all: split; try done; intuition congruence.
Qed.

(** The field's comment says "Not an error"; validation refuses it. *)
Theorem attention_dp_is_an_error :
  exists c, prefill_attention_dp c = true /\ validate c = Err AttentionDp.
Proof.
  exists (mkEngine "TRTLLM" "AUTO" "AUTO" 1 true false 96 "0" false false spec_default 1). done.
Qed.
End EngineConf.

(** ** The deployment *)

Module Deployment.
Import EngineConf.
Local Open Scope string_scope.
Local Open Scope Z_scope.
Local Open Scope s_scope.

Record ModelConfig := mkModelConfig {
  name : string;
  tokenizer : string;
  dtype : string;
  kv_dtype : string;
  num_layers : Z;
  hidden_size : Z;
  num_kv_heads : Z;
  head_dim : Z;
  weights_gib : f64
}.

Definition model_config_default : ModelConfig :=
  mkModelConfig "Qwen/Qwen3-235B-A22B-Instruct-2507" "Qwen/Qwen3-235B-A22B-Instruct-2507"
    "fp8" "fp8" 94 4096 4 128 (dec 2202 1).

Record WorkloadConfig := mkWorkload {
  w_isl : Z;
  w_osl : Z;
  w_concurrency : Z;
  w_max_num_tokens : Z;
  w_max_seq_len : Z;
  warmup_s : f64;
  benchmark_s : f64;
  grace_s : f64;
  w_seed : Z;
  cache_bust : bool
}.

Definition workload_default : WorkloadConfig :=
  mkWorkload 4000 200 80 16384 4608 (of_Z 60) (of_Z 120) (of_Z 30) 2026 true.

Record TopologyConfig := mkTopology {
  total_gpus : Z;
  prefill_workers : Z;
  prefill_tp : Z;
  decode_workers : Z;
  decode_tp : Z;
  gpu_gib : f64;
  kv_dtype_bytes : f64;
  activation_gib : f64
}.

Definition topology_default : TopologyConfig :=
  mkTopology 16 4 2 2 4 (of_Z 131) f1 (of_Z 12).

Record SchedulerConfig := mkSchedulerConfig {
  chunked_prefill_tokens : Z;
  max_prefill_seqs : Z;
  max_decode_seqs : Z;
  itl_safety : f64;
  prefill_policy : PrefillPolicy;
  demote_hopeless : bool;
  tick_ms : f64
}.

Definition scheduler_default : SchedulerConfig :=
  mkSchedulerConfig 16384 8 4096 f1 MooreHodgson true f1.

Record KvConfig := mkKv {
  block_size : Z;
  num_blocks : Z;
  enable_prefix_cache : bool;
  admission_watermark : f64;
  xfer_concurrency : Z;
  max_tokens_in_buffer : Z;
  xfer_backend : string;
  receive_parallel : bool
}.

Definition kv_default : KvConfig := mkKv 128 8192 false (dec 5 2) 16 4096 "UCX" true.

Record CalibrationConfig := mkCalibration {
  cal_prefill : Planner.PrefillCalibration;
  cal_decode : Planner.DecodeCalibration;
  assumed_good_frac : f64;
  kv_xfer_gib_s : f64
}.

Definition calibration_default : CalibrationConfig :=
  mkCalibration Planner.prefill_cal_default Planner.decode_cal_default (dec 93 2) (dec 21 1).

Record Config := mkConfig {
  model : ModelConfig;
  workload : WorkloadConfig;
  topology : TopologyConfig;
  scheduler : SchedulerConfig;
  kv : KvConfig;
  engine : EngineConfig;
  calibration : CalibrationConfig;
  slo : Slo
}.

Definition config_default : Config :=
  mkConfig model_config_default workload_default topology_default scheduler_default kv_default
    engine_default calibration_default slo_default.

(** *** Reading *)

(** [from_toml] is the TOML library at this type, [read] reads a file. *)
Section reading.
Context (from_toml : string -> option Config) (read : string -> option string).

Definition from_toml_str (s : string) : result Error Config :=
  match from_toml s with Some c => Ok c | None => Err ConfigError end.

Definition load (path : string) : result Error Config :=
  match read path with None => Err ConfigError | Some text => from_toml_str text end.
End reading.

(** *** The launcher's environment *)

Definition flag (v : bool) : string := if v then "1" else "0".
Definition bool_text (v : bool) : string := if v then "true" else "false".

(** The variables in the order they are put. *)
Definition env_pairs (c : Config) : list (string * string) :=
  let w := workload c in let t := topology c in let e := engine c in
  [("ISL", pretty (w_isl w)); ("OSL", pretty (w_osl w)); ("N", pretty (w_concurrency w));
   ("MAX_SEQ_LEN", pretty (w_max_seq_len w)); ("PREFILL_MAX_NUM_TOKENS", pretty (w_max_num_tokens w));
   ("PREFILL_WORKERS", pretty (prefill_workers t)); ("PREFILL_TP", pretty (prefill_tp t));
   ("PREFILL_PP", "1"); ("DECODE_WORKERS", pretty (decode_workers t));
   ("DECODE_TP", pretty (decode_tp t)); ("CONTEXT_PARALLEL", pretty (context_parallel e));
   ("KV_XFER_CONCURRENCY", pretty (xfer_concurrency (kv c)));
   ("KVCACHE_RECEIVE_PARALLEL", flag (receive_parallel (kv c)));
   ("MAX_TOKENS_IN_BUFFER", pretty (max_tokens_in_buffer (kv c)));
   ("XFER_BACKEND", xfer_backend (kv c)); ("KV_CACHE_DTYPE", kv_dtype (model c));
   ("ATTN_BACKEND", attn_backend e); ("MOE_BACKEND", moe_backend e);
   ("ALLREDUCE_STRATEGY", allreduce_strategy e); ("EXPERT_PARALLEL", pretty (expert_parallel e));
   ("PREFILL_ATTENTION_DP", flag (prefill_attention_dp e));
   ("CHUNKED_PREFILL", flag (chunked_prefill e));
   ("CUDA_GRAPH_MAX_BATCH", pretty (cuda_graph_max_batch e));
   ("TORCH_COMPILE", torch_compile e); ("HOST_DISPATCH_SPIN", flag (host_dispatch_spin e));
   ("BLOCK_REUSE", bool_text (block_reuse e)); ("SPECULATION", flag (enabled (speculation e)));
   ("SPEC_MODEL", spec_model (speculation e));
   ("SPEC_DRAFT_TOKENS", pretty (spec_draft_tokens (speculation e)))].

Definition quote : string := String (Ascii.ascii_of_nat 34) "".
Definition newline : string := String (Ascii.ascii_of_nat 10) "".

Definition env_line (kv : string * string) : string :=
  kv.1 +:+ "=" +:+ quote +:+ "${" +:+ kv.1 +:+ ":-" +:+ kv.2 +:+ "}" +:+ quote +:+ newline.

Definition env_banner : string :=
  "# Generated by `trt-llm-rs config --emit-env`. Do not edit: edit" +:+ newline +:+
  "# the TOML and regenerate, or override a single variable on the" +:+ newline +:+
  "# sbatch command line, which still takes precedence." +:+ newline.

Definition to_env (c : Config) : string :=
  env_banner +:+ foldr (fun p s => env_line p +:+ s) "" (env_pairs c).

(** *** The capacity model *)

Definition capacity_model (c : Config) : Planner.CapacityModel :=
  let d := cal_decode (calibration c) in
  let spec := if enabled (speculation (engine c))
    then Some (Planner.mkSpeculation (spec_draft_tokens (speculation (engine c)))
                 (Planner.itl_ratio Planner.eagle3_topk1))
    else None in
  Planner.mkModel (w_isl (workload c)) (w_osl (workload c)) (slo c) (cal_prefill (calibration c))
    (Planner.mkDecodeCal (Planner.concurrency_per_gpu d) (Planner.itl_ms_at_ref d)
       (Planner.itl_slope_ms d) (Planner.max_extrapolation d) spec)
    (assumed_good_frac (calibration c)) (itl_safety (scheduler c))
    (fmul (fmul (fmul (of_Z 2) (of_Z (num_layers (model c)))) (of_Z (num_kv_heads (model c))))
       (of_Z (head_dim (model c))))
    (kv_xfer_gib_s (calibration c)) (xfer_concurrency (kv c)) (weights_gib (model c))
    (gpu_gib (topology c)) (kv_dtype_bytes (topology c)) (num_kv_heads (model c))
    (w_max_num_tokens (workload c)) (activation_gib (topology c))
    (u32_wrap (w_concurrency (workload c) / Z.max (decode_workers (topology c)) 1
               * w_max_seq_len (workload c))).

(** *** Validation *)

Definition used_gpus (t : TopologyConfig) : Z :=
  u32_wrap (u32_wrap (prefill_workers t * prefill_tp t) + u32_wrap (decode_workers t * decode_tp t)).

Definition validate_config (c : Config) : result Error unit :=
  match validate (engine c) with
  | Err _ => Err ConfigError
  | Ok _ =>
      let t := topology c in
      if (prefill_workers t =? 0) || (decode_workers t =? 0) then Err ConfigError
      else if total_gpus t <? used_gpus t then Err ConfigError
      else if fle (slo_itl_ms (slo c)) f0 || fle (slo_ttft_ms (slo c)) f0 then Err ConfigError
      else Ok ()
  end.

(** The GPUs the topology really needs. *)
Definition gpus_needed (t : TopologyConfig) : Z :=
  prefill_workers t * prefill_tp t + decode_workers t * decode_tp t.

(** What a validated deployment guarantees. When the GPU count of the
    topology fits in 32 bits, [validate] accepts exactly the configurations
    whose engine section validates, that have a worker of each role, whose
    workers fit in the GPUs there are, and whose SLO budgets are not zero or
    negative. *)
Theorem validate_config_exact (c : Config) :
  0 <= prefill_workers (topology c) * prefill_tp (topology c) ->
  0 <= decode_workers (topology c) * decode_tp (topology c) ->
  gpus_needed (topology c) <= u32_max ->
  validate_config c = Ok () <->
  validate (engine c) = Ok () /\
  prefill_workers (topology c) <> 0 /\ decode_workers (topology c) <> 0 /\
  gpus_needed (topology c) <= total_gpus (topology c) /\
  fle (slo_itl_ms (slo c)) f0 = false /\ fle (slo_ttft_ms (slo c)) f0 = false.
Proof.
  unfold gpus_needed, u32_max. intros Hp Hd Hn.
  assert (used_gpus (topology c) = prefill_workers (topology c) * prefill_tp (topology c) +
    decode_workers (topology c) * decode_tp (topology c)) as Hu.
  { unfold used_gpus, u32_wrap. rewrite (Z.mod_small (prefill_workers _ * _)), (Z.mod_small (decode_workers _ * _)),
      Z.mod_small by lia. done. }
  unfold validate_config. rewrite Hu. destruct (validate (engine c)) as [[]|e]; [|split; [done|intros [? _]; done]].
  destruct (Z.eqb_spec (prefill_workers (topology c)) 0), (Z.eqb_spec (decode_workers (topology c)) 0);
    cbn; try (split; [done|tauto]).
  match goal with |- context[?a <? ?b] => destruct (Z.ltb_spec a b) end; [split; [done|lia]|].
  destruct (fle (slo_itl_ms (slo c)) f0), (fle (slo_ttft_ms (slo c)) f0); cbn;
    split; try done; intuition congruence.
Qed.

Lemma validate_config_exact_witness :
  validate (engine config_default) = Ok () /\
  gpus_needed (topology config_default) <= total_gpus (topology config_default).
Proof.
  pose proof (validate_config_exact config_default) as H.
  specialize (H ltac:(vm_compute; discriminate) ltac:(vm_compute; discriminate)
    ltac:(vm_compute; discriminate)).
  destruct (proj1 H ltac:(vm_compute; reflexivity)) as (H1 & _ & _ & H4 & _).
  split; [exact H1|exact H4].
Defined.

(** The product is computed in 32 bits: a deployment of 2^32 prefill GPUs and
    one decode GPU validates on sixteen. *)
Theorem huge_topology_validates :
  exists c, validate_config c = Ok () /\ total_gpus (topology c) = 16 /\
    2 ^ 32 < gpus_needed (topology c).
Proof.
  exists (mkConfig model_config_default workload_default
    (mkTopology 16 65536 65536 1 1 (of_Z 131) f1 (of_Z 12)) scheduler_default kv_default
    engine_default calibration_default slo_default).
  vm_compute. done.
Qed.

(** The launcher and the capacity model describe one deployment: the
    variables the launcher reads, each emitted once, carry the values the
    capacity model plans with. *)
Theorem env_agrees_with_model (c : Config) :
  let m := capacity_model c in let env : gmap string string := list_to_map (env_pairs c) in
  NoDup (env_pairs c).*1 /\
  env !! "ISL" = Some (pretty (Planner.isl m)) /\
  env !! "OSL" = Some (pretty (Planner.osl m)) /\
  env !! "PREFILL_MAX_NUM_TOKENS" = Some (pretty (Planner.max_num_tokens m)) /\
  env !! "KV_XFER_CONCURRENCY" = Some (pretty (Planner.xfer_concurrency m)) /\
  (env !! "SPECULATION" = Some "1" <-> is_Some (Planner.speculation (Planner.m_decode m))) /\
  match Planner.speculation (Planner.m_decode m) with
  | Some s => env !! "SPEC_DRAFT_TOKENS" = Some (pretty (Planner.draft_tokens s))
  | None => True
  end.
Proof.
  cbn zeta.
  assert (NoDup (env_pairs c).*1) as Hnd.
  { cbn [env_pairs fmap list_fmap fst]. apply (bool_decide_unpack _). vm_compute. exact I. }
  split; [done|].
  assert (forall k v, (k, v) ∈ env_pairs c -> (list_to_map (env_pairs c) : gmap string string) !! k = Some v) as Hl.
  { intros k v Hin. by apply elem_of_list_to_map. }
  assert (forall i k v, env_pairs c !! i = Some (k, v) ->
    (list_to_map (env_pairs c) : gmap string string) !! k = Some v) as Hi.
  { intros i k v Hin. apply Hl. by eapply list_elem_of_lookup_2. }
  split; [by apply (Hi 0%nat)|]. split; [by apply (Hi 1%nat)|]. split; [by apply (Hi 4%nat)|].
  split; [by apply (Hi 11%nat)|].
  rewrite (Hi 26%nat "SPECULATION" (flag (enabled (speculation (engine c))))) by done.
  rewrite (Hi 28%nat "SPEC_DRAFT_TOKENS" (pretty (spec_draft_tokens (speculation (engine c))))) by done.
  unfold capacity_model. cbn [Planner.m_decode Planner.speculation].
  destruct (enabled (speculation (engine c))); cbn [flag]; split.
  - split; [by eexists|done].
  - done.
  - split; [done|by intros [? ?]].
  - done.
Qed.
End Deployment.
