(* ===== verification/Aic.v ===== *)
(** * AIConfigurator's candidates ([crates/tuner/src/aic.rs])

    The parallelism layouts it spells, the rows of its result tables, the
    deployment a row describes, and the commands that run it. *)

From Stdlib Require Import ZArith Lia Ascii.
From stdpp Require Import base option list numbers pretty gmap strings.
From S2P Require Import Prelude F64 F64Int Core Policy Capacity Config Text Csv.

Module Aic.
Import Text Deployment.
Local Open Scope string_scope.
Local Open Scope Z_scope.
Local Open Scope list_scope.

Inductive DeploymentMode := Agg | Disagg.

#[export] Instance DeploymentMode_eq_dec : EqDecision DeploymentMode.
Proof. solve_decision. Defined.

Definition as_str (m : DeploymentMode) : string := match m with Agg => "agg" | Disagg => "disagg" end.

(** ** Layouts *)

Record ParallelSpec := mkSpec {
  tp : Z;
  pp : Z;
  ep : Z;
  dp : Z
}.

(** The products are of [u32]s, which wrap. *)
Definition gpus (s : ParallelSpec) : Z := u32_wrap (u32_wrap (Z.max (tp s) 1 * Z.max (pp s) 1) * Z.max (dp s) 1).

Definition spell_group (kv : string * Z) : string := if 1 <? kv.2 then kv.1 +:+ pretty kv.2 else "".

Definition spell (s : ParallelSpec) : string :=
  let out := foldl (fun out kv => out +:+ spell_group kv) "" [("tp", tp s); ("pp", pp s); ("dp", dp s); ("ep", ep s)] in
  if bool_decide (out = "") then "tp1" else out.

Definition set_key (key : string) (v : Z) (s : ParallelSpec) : ParallelSpec :=
  if bool_decide (key = "tp") then mkSpec v (pp s) (ep s) (dp s)
  else if bool_decide (key = "pp") then mkSpec (tp s) v (ep s) (dp s)
  else if bool_decide (key = "ep") then mkSpec (tp s) (pp s) v (dp s)
  else if bool_decide (key = "dp") then mkSpec (tp s) (pp s) (ep s) v
  else s.

Definition seen (saw_any : bool) (out : ParallelSpec) : option ParallelSpec := if saw_any then Some out else None.

(** The loop of [parse] over the text that remains; [None] is the panic of a
    slice that cuts a character in two.  Every round consumes at least three
    bytes, so the length of the text is fuel enough. *)
Fixpoint parse_groups (fuel : nat) (s : string) (out : ParallelSpec) (saw_any : bool) : option (option ParallelSpec) :=
  match fuel with
  | O => None
  | S fuel =>
      match s with
      | String a (String b r) =>
          if is_continuation a || match r with String c _ => is_continuation c | "" => false end then None
          else
            let '(d, r') := take_digits r in
            if bool_decide (d = "") then Some (seen saw_any out)
            else
              match parse_u32 d with
              | None => Some None
              | Some v => parse_groups fuel r' (set_key (String a (of_char b)) v out) true
              end
      | _ => Some (seen saw_any out)
      end
  end.

Definition parse (s : string) : option (option ParallelSpec) :=
  let s := to_ascii_lowercase (trim s) in
  if bool_decide (s = "") then Some None
  else parse_groups (S (String.length s)) s (mkSpec 1 1 1 1) false.

(** ** Candidates *)

Record AicCandidate := mkCandidate {
  source : string;
  mode : DeploymentMode;
  prefill : option ParallelSpec;
  decode : option ParallelSpec;
  c_prefill_workers : Z;
  c_decode_workers : Z;
  prefill_gpus_per_worker : Z;
  decode_gpus_per_worker : Z;
  c_total_gpus : Z;
  predicted_seq_s : option f64;
  predicted_tokens_s_per_gpu : option f64;
  predicted_ttft_ms : option f64;
  predicted_tpot_ms : option f64;
  predicted_concurrency : option f64;
  raw : gmap string string
}.

Definition set_topology (c : Config) (t : TopologyConfig) : Config :=
  mkConfig (model c) (workload c) t (scheduler c) (kv c) (engine c) (calibration c) (slo c).

Definition apply_to (a : AicCandidate) (base : Config) : option Config :=
  if decide (mode a = Agg) then None
  else if (prefill_gpus_per_worker a =? 0) || (decode_gpus_per_worker a =? 0)
       || (c_prefill_workers a =? 0) || (c_decode_workers a =? 0) then None
  else
    let t := topology base in
    Some (set_topology base (mkTopology (if 0 <? c_total_gpus a then c_total_gpus a else total_gpus t)
      (c_prefill_workers a) (prefill_gpus_per_worker a) (c_decode_workers a) (decode_gpus_per_worker a)
      (gpu_gib t) (kv_dtype_bytes t) (activation_gib t))).

Definition spell_side (n g : Z) (s : option ParallelSpec) : string :=
  pretty n +:+ "x" +:+ pretty g +:+ "gpu" +:+ match s with Some s => ":" +:+ spell s | None => "" end.

Definition label (a : AicCandidate) : string :=
  as_str (mode a) +:+ " P[" +:+ spell_side (c_prefill_workers a) (prefill_gpus_per_worker a) (prefill a) +:+
  "] D[" +:+ spell_side (c_decode_workers a) (decode_gpus_per_worker a) (decode a) +:+ "]".

(** ** Rows of a result table *)

(** A cell parsed as a layout; the outer option is [parse]'s panic. *)
Definition layout_cell (t : Csv.Table) (row needles : list string) : option (option ParallelSpec) :=
  match Csv.cell t row needles with Some s => parse s | None => Some None end.

Definition degree (t : Csv.Table) (row : list string) (side k : string) : option Z :=
  v ← Csv.number t row [side; k]; Some (Z.max (to_u32 v) 1).

(** The layout of one side: the numeric columns, or the spelled one. *)
Definition spec_of (t : Csv.Table) (row : list string) (side : string) : option (option ParallelSpec) :=
  match degree t row side "tp", degree t row side "pp" with
  | Some tp, Some pp =>
      Some (Some (mkSpec tp pp (default 1 (degree t row side "moe_ep")) (default 1 (degree t row side "dp"))))
  | _, _ => layout_cell t row [side; "parallel"]
  end.

(** The replicas of an aggregated row. *)
Definition replicas (t : Csv.Table) (row : list string) (g : Z) : option f64 :=
  match Csv.number t row ["replicas"] with
  | Some n => Some n
  | None =>
      match Csv.number t row ["workers"] with
      | Some n => Some n
      | None =>
          match Csv.number t row ["num_total_gpus"] with
          | Some total => if 0 <? g then Some (ffloor (fdiv total (of_Z g))) else None
          | None => None
          end
      end
  end.

Definition gpus_or_0 (s : option ParallelSpec) : Z := match s with Some s => gpus s | None => 0 end.

Definition candidate_of (t : Csv.Table) (m : DeploymentMode) (src : string) (row : list string) : option AicCandidate :=
  '(p, d, pw, dw) ← match m with
    | Disagg =>
        p ← spec_of t row "(p)"; d ← spec_of t row "(d)";
        Some (p, d, Csv.number t row ["(p)"; "workers"], Csv.number t row ["(d)"; "workers"])
    | Agg =>
        one ← layout_cell t row ["parallel"];
        let n := replicas t row (gpus_or_0 one) in Some (one, one, n, n)
    end;
  Some (mkCandidate src m p d (to_u32 (default f0 pw)) (to_u32 (default f0 dw)) (gpus_or_0 p) (gpus_or_0 d)
    (to_u32 (default f0 (match Csv.number t row ["num_total_gpus"] with
                         | Some n => Some n | None => Csv.number t row ["total"; "gpus"] end)))
    (Csv.number t row ["seq/s"]) (Csv.number t row ["tokens/s/gpu"]) (Csv.number t row ["ttft"])
    (Csv.number t row ["tpot"]) (Csv.number t row ["concurrency"]) (Csv.row_map t row)).

Definition candidates_from_table (t : Csv.Table) (m : DeploymentMode) (src : string) : option (list AicCandidate) :=
  mapM (candidate_of t m src) (Csv.rows t).

(** ** The commands *)

Record AicRun := mkRun {
  model_path : string;
  system : string;
  backend : string;
  backend_version : option string;
  run_total_gpus : Z;
  run_isl : Z;
  run_osl : Z;
  ttft_ms : f64;
  tpot_ms : f64;
  save_dir : string;
  database_mode : option string;
  deployment_target : option string
}.

Definition from_config (c : Config) (system backend save_dir : string) : AicRun :=
  mkRun (name (model c)) system backend None (total_gpus (topology c)) (w_isl (workload c)) (w_osl (workload c))
    (slo_ttft_ms (slo c)) (slo_itl_ms (slo c)) save_dir (Some "SILICON") None.

Definition support_command (r : AicRun) : list string :=
  ["aiconfigurator"; "cli"; "support"; "--model-path"; model_path r; "--system"; system r; "--backend"; backend r].

Definition optional (flag : string) (v : option string) : list string :=
  match v with Some v => [flag; v] | None => [] end.

Definition search_command (r : AicRun) : list string :=
  ["aiconfigurator"; "cli"; "default"; "--model-path"; model_path r; "--system"; system r; "--backend"; backend r;
   "--total-gpus"; pretty (run_total_gpus r); "--isl"; pretty (run_isl r); "--osl"; pretty (run_osl r);
   "--ttft"; fixed 0 (ttft_ms r); "--tpot"; fixed 2 (tpot_ms r); "--save-dir"; save_dir r] ++
  optional "--backend-version" (backend_version r) ++ optional "--database-mode" (database_mode r) ++
  optional "--deployment-target" (deployment_target r).

Definition shell (argv : list string) : string := join " " argv.
(** ** Parsing a layout *)

(** Dimensions are [u32]s. *)
Definition spec_ok (s : ParallelSpec) : Prop :=
  0 <= tp s <= u32_max /\ 0 <= pp s <= u32_max /\ 0 <= ep s <= u32_max /\ 0 <= dp s <= u32_max.

Lemma set_key_ok k v s : 0 <= v <= u32_max -> spec_ok s -> spec_ok (set_key k v s).
Proof.
  intros Hv (H1 & H2 & H3 & H4). unfold set_key.
  repeat case_bool_decide; unfold spec_ok; cbn [tp pp ep dp]; tauto.
Qed.

Lemma is_ascii_boundary c : is_ascii c = true -> is_continuation c = false.
Proof. unfold is_ascii, is_continuation. rewrite Z.ltb_lt. intros H. by rewrite (proj2 (Z.leb_gt 128 (byte c))). Qed.

(** On ASCII text the loop ends within its fuel, cuts no character, and yields
    dimensions of 32 bits. *)
Lemma parse_groups_ascii fuel : forall s out saw, (String.length s < fuel)%nat -> all_chars is_ascii s = true ->
  spec_ok out -> exists r, parse_groups fuel s out saw = Some r /\ forall x, r = Some x -> spec_ok x.
Proof.
  induction fuel as [|fuel IH]; intros s out saw Hf Ha Ho; [lia|]. cbn [parse_groups].
  assert (exists r, Some (seen saw out) = Some r /\ forall x, r = Some x -> spec_ok x) as Hstop.
  { exists (seen saw out). split; [done|]. destruct saw; [by intros x [= <-]|done]. }
  destruct s as [|a [|b r]]; [done..|]. cbn [String.length all_chars] in Hf, Ha.
  apply andb_true_iff in Ha as [Ha Har]. apply andb_true_iff in Har as [_ Har].
  rewrite (is_ascii_boundary a Ha).
  assert (match r with String c _ => is_continuation c | "" => false end = false) as ->.
  { destruct r as [|c r]; [done|]. cbn [all_chars] in Har. apply andb_true_iff in Har as [Hc _].
    by apply is_ascii_boundary. }
  cbn [orb]. pose proof (take_digits_spec r) as Ht. destruct (take_digits r) as [d r']. destruct Ht as (-> & Hd & _).
  case_bool_decide as Hne; [done|]. destruct (parse_u32 d) as [v|] eqn:Hv; [|by exists None].
  apply IH.
  - rewrite slength_app in Hf. destruct d; [done|]. cbn [String.length] in Hf. lia.
  - rewrite all_chars_app in Har. by apply andb_true_iff in Har as [_ ?].
  - apply set_key_ok; [by apply parse_u32_range in Hv|done].
Qed.

(** A group is read whole. *)
Lemma parse_group fuel a b v rest out saw :
  is_continuation a = false -> 0 <= v <= u32_max -> 
  match rest with String c _ => is_digit c = false | "" => True end ->
  parse_groups (S fuel) (String a (String b (pretty v +:+ rest))) out saw =
  parse_groups fuel rest (set_key (String a (of_char b)) v out) true.
Proof.
  intros Ha Hv Hr. destruct (pretty_digits v) as (Hd & _ & Hne); [lia|]. cbn [parse_groups]. rewrite Ha. cbn [orb].
  assert (match pretty v +:+ rest with String c _ => is_continuation c | "" => false end = false) as ->.
  { destruct (pretty v) as [|c p]; [done|]. rewrite sapp_cons. cbn [all_chars] in Hd.
    apply andb_true_iff in Hd as [Hc _]. apply is_ascii_boundary. unfold is_digit in Hc.
    apply andb_true_iff in Hc as [_ Hc]. apply Z.leb_le in Hc. unfold is_ascii. apply Z.ltb_lt. lia. }
  rewrite take_digits_app by done. rewrite bool_decide_false by done. by rewrite parse_u32_pretty.
Qed.

Definition keys : list (ascii * ascii) := [("t", "p"); ("p", "p"); ("d", "p"); ("e", "p")]%char.
Definition key_text (k : ascii * ascii) : string := String k.1 (of_char k.2).

Fixpoint groups_text (l : list ((ascii * ascii) * Z)) : string :=
  match l with [] => "" | (k, v) :: l => spell_group (key_text k, v) +:+ groups_text l end.

Definition read_group (kv : (ascii * ascii) * Z) (s : ParallelSpec) : ParallelSpec :=
  if 1 <? kv.2 then set_key (key_text kv.1) kv.2 s else s.

Lemma groups_start l : Forall (fun kv => kv.1 ∈ keys) l ->
  match groups_text l with String c _ => is_digit c = false | "" => True end.
Proof.
  induction l as [|[k v] l IH]; intros H; [done|]. apply Forall_cons in H as [Hk H]. cbn [groups_text].
  unfold spell_group. cbn [fst snd]. destruct (1 <? v); [|by rewrite sapp_nil_l; apply IH].
  unfold key_text. rewrite !sapp_cons. cbn [fst] in Hk.
  repeat (apply elem_of_cons in Hk as [->|Hk]; [done|]). by apply not_elem_of_nil in Hk.
Qed.

Lemma parse_all_groups l : forall fuel out saw, (String.length (groups_text l) < fuel)%nat ->
  Forall (fun kv => kv.1 ∈ keys /\ 0 <= kv.2 <= u32_max) l ->
  parse_groups fuel (groups_text l) out saw =
  Some (seen (saw || existsb (fun kv => 1 <? kv.2) l) (foldl (fun s kv => read_group kv s) out l)).
Proof.
  induction l as [|[k v] l IH]; intros fuel out saw Hf H; (destruct fuel as [|fuel]; [lia|]).
  { cbn [groups_text parse_groups existsb foldl]. by rewrite orb_false_r. }
  apply Forall_cons in H as [[Hk Hv] H]. cbn [fst snd groups_text] in *.
  assert (Forall (fun kv => kv.1 ∈ keys) l) as Hks by (eapply Forall_impl; [exact H|by intros kv [? _]]).
  cbn [existsb foldl]. revert Hf. unfold spell_group, read_group. cbn [fst snd].
  destruct (1 <? v) eqn:E; intros Hf.
  - rewrite slength_app in Hf. unfold key_text in *. cbn [fst snd] in *. rewrite <- !sapp_assoc. unfold of_char in *.
    rewrite !sapp_cons in *. cbn [String.length] in Hf. rewrite sapp_nil_l.
    rewrite parse_group; [|by repeat (apply elem_of_cons in Hk as [->|Hk]; [done|]); apply not_elem_of_nil in Hk|done|
      by apply groups_start].
    rewrite IH by (done || lia). by rewrite orb_true_r.
  - rewrite sapp_nil_l in *. cbn [orb]. apply IH; [lia|done].
Qed.

Definition dims (s : ParallelSpec) : list ((ascii * ascii) * Z) :=
  [(("t", "p"), tp s); (("p", "p"), pp s); (("d", "p"), dp s); (("e", "p"), ep s)]%char.

Lemma spell_groups s : spell s = if bool_decide (groups_text (dims s) = "") then "tp1" else groups_text (dims s).
Proof.
  unfold spell. cbn [foldl dims groups_text key_text fst snd of_char]. by rewrite !sapp_nil_l, sapp_nil_r, !sapp_assoc.
Qed.

Lemma groups_chars l : Forall (fun kv => kv.1 ∈ keys /\ 0 <= kv.2 <= u32_max) l ->
  all_chars lower_alnum (groups_text l) = true.
Proof.
  induction l as [|[k v] l IH]; intros H; [done|]. apply Forall_cons in H as [[Hk Hv] H]. cbn [groups_text fst snd] in *.
  rewrite all_chars_app, IH by done. rewrite andb_true_r. unfold spell_group. cbn [fst snd]. destruct (1 <? v); [|done].
  rewrite all_chars_app. destruct (pretty_digits v) as (Hd & _); [lia|].
  rewrite (all_chars_impl is_digit lower_alnum (pretty v)); [|by intros c Hc; unfold lower_alnum; rewrite Hc|done].
  repeat (apply elem_of_cons in Hk as [->|Hk]; [done|]). by apply not_elem_of_nil in Hk.
Qed.

Lemma groups_empty l : groups_text l = "" <-> existsb (fun kv => 1 <? kv.2) l = false.
Proof.
  induction l as [|[k v] l IH]; [done|]. cbn [groups_text existsb]. unfold spell_group. cbn [fst snd].
  destruct (1 <? v); [done|]. by rewrite sapp_nil_l.
Qed.

(** A dimension that is not spelled is 1. *)
Definition at_least_one (s : ParallelSpec) : ParallelSpec :=
  mkSpec (Z.max (tp s) 1) (Z.max (pp s) 1) (Z.max (ep s) 1) (Z.max (dp s) 1).

Lemma set_keys v s :
  set_key (key_text ("t", "p")%char) v s = mkSpec v (pp s) (ep s) (dp s) /\
  set_key (key_text ("p", "p")%char) v s = mkSpec (tp s) v (ep s) (dp s) /\
  set_key (key_text ("d", "p")%char) v s = mkSpec (tp s) (pp s) (ep s) v /\
  set_key (key_text ("e", "p")%char) v s = mkSpec (tp s) (pp s) v (dp s).
Proof. done. Qed.

Lemma read_dims s : spec_ok s ->
  foldl (fun s kv => read_group kv s) (mkSpec 1 1 1 1) (dims s) = at_least_one s.
Proof.
  intros (H1 & H2 & H3 & H4). unfold at_least_one. cbn [dims foldl].
  unfold read_group. cbn [fst snd].
  destruct (Z.ltb_spec 1 (tp s)), (Z.ltb_spec 1 (pp s)), (Z.ltb_spec 1 (dp s)), (Z.ltb_spec 1 (ep s));
    repeat first [rewrite (proj1 (set_keys _ _))|rewrite (proj1 (proj2 (set_keys _ _)))
      |rewrite (proj1 (proj2 (proj2 (set_keys _ _))))|rewrite (proj2 (proj2 (proj2 (set_keys _ _))))];
    cbn [tp pp ep dp]; f_equal; lia.
Qed.

(** ** Theorems *)

(** What is spelled parses back: every layout of 32-bit dimensions, with a
    dimension of 0 read as 1. *)
Theorem parse_spell (s : ParallelSpec) : spec_ok s -> parse (spell s) = Some (Some (at_least_one s)).
Proof.
  intros Hok. pose proof Hok as (H1 & H2 & H3 & H4).
  assert (Forall (fun kv => kv.1 ∈ keys /\ 0 <= kv.2 <= u32_max) (dims s)) as Hd.
  { unfold dims. repeat (constructor; [split; [cbn [fst]; set_solver|done]|]). constructor. }
  rewrite spell_groups. case_bool_decide as E.
  - rewrite <- read_dims by done. apply groups_empty in E. cbn [dims existsb snd] in E.
    rewrite !orb_false_iff in E. destruct E as (E1 & E2 & E3 & E4 & _).
    cbn [dims foldl]. unfold read_group. cbn [fst snd]. rewrite E1, E2, E3, E4. reflexivity.
  - pose proof (groups_chars _ Hd) as Hc. destruct (lower_alnum_same _ Hc) as [Ht Hl]. unfold parse. rewrite Ht, Hl.
    rewrite bool_decide_false by done. rewrite parse_all_groups, read_dims by (done || lia). cbn [orb].
    rewrite groups_empty in E. by apply not_false_is_true in E as ->.
Qed.
(** On ASCII text parsing always ends with an answer, and what it reads are
    32-bit dimensions. *)
Lemma parse_ascii s : all_chars is_ascii s = true ->
  exists r, parse s = Some r /\ forall x, r = Some x -> spec_ok x.
Proof.
  intros H. unfold parse. case_bool_decide; [by exists None|].
  apply parse_groups_ascii; [lia| |unfold spec_ok, u32_max; cbn; lia].
  apply (lower_all is_ascii); [apply to_lower_ascii|]. by apply trim_all.
Qed.

Definition ascii_table (t : Csv.Table) : Prop := Forall (Forall (fun s => all_chars is_ascii s = true)) (Csv.rows t).

Lemma layout_cell_ascii t row needles : Forall (fun s => all_chars is_ascii s = true) row ->
  exists r, layout_cell t row needles = Some r /\ forall x, r = Some x -> spec_ok x.
Proof.
  intros H. unfold layout_cell, Csv.cell. destruct (Csv.column t needles) as [i|]; cbn [mbind option_bind]; [|by exists None].
  destruct (row !! i) as [s|] eqn:E; cbn [mbind option_bind]; [|by exists None].
  apply parse_ascii, trim_all. by apply (Forall_lookup_1 _ _ _ _ H E).
Qed.

Lemma to_u32_range x : 0 <= to_u32 x <= u32_max.
Proof.
  unfold u32_max. destruct x as [|[]| |[] m e]; cbn [to_u32]; unfold u32_max; try lia.
  destruct (Z.leb_spec 0 e).
  - assert (0 <= Zpos m * 2 ^ e); [|lia]. apply Z.mul_nonneg_nonneg; [lia|]. by apply Z.pow_nonneg.
  - assert (0 <= Zpos m / 2 ^ (- e)); [|lia]. apply Z.div_pos; [lia|]. apply Z.pow_pos_nonneg; lia.
Qed.

Lemma degree_range t row side k n : degree t row side k = Some n -> 0 <= n <= u32_max.
Proof.
  unfold degree. destruct (Csv.number t row [side; k]) as [v|]; cbn [mbind option_bind]; [|done]. intros [= <-].
  pose proof (to_u32_range v). unfold u32_max in *. lia.
Qed.

Lemma spec_of_ascii t row side : Forall (fun s => all_chars is_ascii s = true) row ->
  exists r, spec_of t row side = Some r /\ forall x, r = Some x -> spec_ok x.
Proof.
  intros H. unfold spec_of. pose proof (degree_range t row side) as Hr.
  destruct (degree t row side "tp") as [a|] eqn:Ea; [|by apply layout_cell_ascii].
  destruct (degree t row side "pp") as [b|] eqn:Eb; [|by apply layout_cell_ascii].
  eexists. split; [done|]. intros x [= <-]. unfold spec_ok. cbn [tp pp ep dp].
  split; [exact (Hr _ _ Ea)|]. split; [exact (Hr _ _ Eb)|].
  assert (forall k, 0 <= default 1 (degree t row side k) <= u32_max) as Hd.
  { intros k. destruct (degree t row side k) as [n|] eqn:E; cbn [default]; [exact (Hr _ _ E)|unfold u32_max; lia]. }
  split; apply Hd.
Qed.

Lemma candidate_of_ascii t m src row : Forall (fun s => all_chars is_ascii s = true) row ->
  exists a, candidate_of t m src row = Some a /\ mode a = m /\ source a = src.
Proof.
  intros H. unfold candidate_of. destruct m.
  - destruct (layout_cell_ascii t row ["parallel"] H) as (r & -> & _). cbn [mbind option_bind]. by eexists.
  - destruct (spec_of_ascii t row "(p)" H) as (r1 & -> & _). destruct (spec_of_ascii t row "(d)" H) as (r2 & -> & _).
    cbn [mbind option_bind]. by eexists.
Qed.

(** Loading a table of ASCII cells never panics: each row becomes one
    candidate, of the table's mode, in the order of the rows. *)
Theorem candidates_total (t : Csv.Table) (m : DeploymentMode) (src : string) :
  ascii_table t ->
  exists l, candidates_from_table t m src = Some l /\ length l = length (Csv.rows t) /\
    Forall (fun a => mode a = m /\ source a = src) l.
Proof.
  unfold ascii_table, candidates_from_table. intros H.
  assert (exists l, Forall2 (fun row a => candidate_of t m src row = Some a) (Csv.rows t) l /\
    Forall (fun a => mode a = m /\ source a = src) l) as (l & Hl & Hf).
  { induction H as [|row rs H _ (l & Hl & Hf)]; [by exists []|].
    destruct (candidate_of_ascii t m src row H) as (a & Ha & Hm). exists (a :: l). by split; constructor. }
  exists l. split; [by apply mapM_Some|]. split; [|done]. by apply Forall2_length in Hl.
Qed.

(** A layout cell with a character outside ASCII where a key is expected cuts
    the character in two: the reader panics instead of ignoring the key. *)
Theorem parse_cuts_characters :
  parse (String "a" (String (chr 195) (String (chr 169) "1"))) = None /\
  candidates_from_table
    (Csv.mkTable ["(p)parallel"] [[String "a" (String (chr 195) (String (chr 169) "1"))]]) Disagg "pareto.csv" = None.
Proof. split; vm_compute; reflexivity. Qed.

(** A key of three letters ends the reading: the layout that names a mixture
    of experts' tensor degree loses the expert degree after it. *)
Theorem parse_stops_at_long_key : parse "tp1pp1dp2etp1ep2" = Some (Some (mkSpec 1 1 1 2)) /\
  parse "tp1pp1dp2ep2" = Some (Some (mkSpec 1 1 2 2)).
Proof. split; vm_compute; reflexivity. Qed.

(** Only the topology is the candidate's.  A deployment comes of a candidate
    exactly when it is disaggregated and each side has workers and GPUs; its
    topology is then the candidate's (and its GPU total, unless the row had
    none), and everything else is the base's. *)
Theorem apply_overlays (a : AicCandidate) (base : Config) :
  match apply_to a base with
  | Some c =>
      mode a = Disagg /\ c_prefill_workers a <> 0 /\ c_decode_workers a <> 0 /\
      prefill_gpus_per_worker a <> 0 /\ decode_gpus_per_worker a <> 0 /\
      prefill_workers (topology c) = c_prefill_workers a /\ decode_workers (topology c) = c_decode_workers a /\
      prefill_tp (topology c) = prefill_gpus_per_worker a /\ decode_tp (topology c) = decode_gpus_per_worker a /\
      total_gpus (topology c) = (if 0 <? c_total_gpus a then c_total_gpus a else total_gpus (topology base)) /\
      set_topology c (topology base) = base
  | None =>
      mode a = Agg \/ c_prefill_workers a = 0 \/ c_decode_workers a = 0 \/
      prefill_gpus_per_worker a = 0 \/ decode_gpus_per_worker a = 0
  end.
Proof.
  unfold apply_to. destruct (decide (mode a = Agg)) as [E|E]; [by left|].
  destruct (Z.eqb_spec (prefill_gpus_per_worker a) 0), (Z.eqb_spec (decode_gpus_per_worker a) 0),
    (Z.eqb_spec (c_prefill_workers a) 0), (Z.eqb_spec (c_decode_workers a) 0); cbn [orb]; try tauto.
  split; [by destruct (mode a)|]. by destruct base.
Qed.

(** A disaggregated row is rejected, not defaulted, when a worker count cannot
    be read or a layout is missing. *)
Theorem unreadable_rejected (t : Csv.Table) (src : string) (row : list string) (a : AicCandidate) (base : Config) :
  candidate_of t Disagg src row = Some a ->
  Csv.number t row ["(p)"; "workers"] = None \/ Csv.number t row ["(d)"; "workers"] = None \/
  spec_of t row "(p)" = Some None \/ spec_of t row "(d)" = Some None ->
  apply_to a base = None.
Proof.
  intros Ha H. unfold candidate_of in Ha.
  destruct (spec_of t row "(p)") as [p|]; cbn [mbind option_bind] in Ha; [|done].
  destruct (spec_of t row "(d)") as [d|]; cbn [mbind option_bind] in Ha; [|done]. injection Ha as <-.
  unfold apply_to. cbn [mode c_prefill_workers c_decode_workers prefill_gpus_per_worker decode_gpus_per_worker].
  rewrite decide_False by done.
  destruct H as [->|[->|[[= ->]|[= ->]]]]; cbn [default to_u32 gpus_or_0 Z.eqb]; rewrite ?orb_true_r; done.
Qed.
(** An aggregated row has no worker column: its replicas are the whole number
    of workers that fit in the GPU total, computed exactly although it is
    computed in doubles.  No deployment comes of it. *)
Theorem agg_replicas (t : Csv.Table) (src : string) (row : list string) (s : ParallelSpec) (n : Z) (a : AicCandidate)
    (base : Config) :
  candidate_of t Agg src row = Some a -> layout_cell t row ["parallel"] = Some (Some s) ->
  Csv.number t row ["replicas"] = None -> Csv.number t row ["workers"] = None ->
  Csv.number t row ["num_total_gpus"] = Some (of_Z n) -> 0 <= n <= u32_max -> 0 < gpus s ->
  c_prefill_workers a = n / gpus s /\ c_decode_workers a = n / gpus s /\ c_total_gpus a = n /\
  c_prefill_workers a * prefill_gpus_per_worker a <= c_total_gpus a /\ apply_to a base = None.
Proof.
  intros Ha Hs H1 H2 H3 Hn Hg. unfold candidate_of, replicas in Ha. rewrite Hs, H1, H2, H3 in Ha.
  cbn [mbind option_bind gpus_or_0 default] in Ha. rewrite (proj2 (Z.ltb_lt 0 (gpus s))) in Ha by done.
  cbn [default] in Ha. injection Ha as <-. cbn [c_prefill_workers c_decode_workers c_total_gpus prefill_gpus_per_worker].
  assert (gpus s <= u32_max) as Hg2.
  { unfold gpus, u32_wrap, u32_max in *. pose proof (Z.mod_pos_bound (Z.max (tp s) 1 * Z.max (pp s) 1) (2 ^ 32)).
    match goal with |- ?x mod _ <= _ => pose proof (Z.mod_pos_bound x (2 ^ 32)) end. lia. }
  rewrite floor_quotient by done. rewrite to_u32_usize, to_usize_of_Z by (unfold u32_max in *; lia).
  rewrite Z.min_r by lia. split_and!; try done. rewrite Z.mul_comm. apply Z.mul_div_le. lia.
Qed.

(** The numbers on the command line are the configuration's: read back, they
    are the same integers, and the same budget when it is a whole number of
    milliseconds. *)
Theorem search_command_numbers (c : Config) (system backend dir : string) (k : Z) :
  0 <= total_gpus (topology c) <= u32_max -> 0 <= w_isl (workload c) <= u32_max -> 0 <= w_osl (workload c) <= u32_max ->
  slo_ttft_ms (slo c) = of_Z k -> 0 <= k <= 2 ^ 53 ->
  let argv := search_command (from_config c system backend dir) in
  argv !! 9%nat = Some "--total-gpus" /\ argv !! 10%nat ≫= parse_u32 = Some (total_gpus (topology c)) /\
  argv !! 11%nat = Some "--isl" /\ argv !! 12%nat ≫= parse_u32 = Some (w_isl (workload c)) /\
  argv !! 13%nat = Some "--osl" /\ argv !! 14%nat ≫= parse_u32 = Some (w_osl (workload c)) /\
  argv !! 15%nat = Some "--ttft" /\ argv !! 16%nat ≫= parse_f64 = Some (slo_ttft_ms (slo c)).
Proof.
  intros H1 H2 H3 H4 H5 argv. unfold argv, search_command, from_config.
  cbn [run_total_gpus run_isl run_osl ttft_ms app lookup list_lookup mbind option_bind].
  rewrite !parse_u32_pretty, H4, fixed_reads_back by done. done.
Qed.

(** ** Samples *)

Lemma parse_spell_witness : parse "tp8pp1dp1ep8" = Some (Some (mkSpec 8 1 8 1)) /\
  parse (spell (mkSpec 8 0 8 1)) = Some (Some (mkSpec 8 1 8 1)).
Proof.
  split; [vm_compute; reflexivity|]. apply (parse_spell (mkSpec 8 0 8 1)). unfold spec_ok, u32_max. cbn. lia.
Defined.

(** The header and the row of the crate's own test, shortened to the columns
    that are read. *)
Definition disagg_sample : Csv.Table :=
  Csv.mkTable
    ["concurrency"; "(p)workers"; "(d)workers"; "ttft"; "tpot"; "seq/s"; "tokens/s/gpu"; "num_total_gpus";
     "(p)tp"; "(p)pp"; "(p)dp"; "(p)moe_ep"; "(p)parallel"; "(d)tp"; "(d)pp"; "(d)dp"; "(d)moe_ep"; "(d)parallel"]
    [["64"; "4"; "1"; "901.561"; "19.779"; "14.375"; "179.685"; "16"; "1"; "1"; "2"; "2"; "tp1pp1dp2etp1ep2";
      "8"; "1"; "1"; "8"; "tp8pp1dp1etp1ep8"]].

Definition row_sample : list string := default [] (head (Csv.rows disagg_sample)).
Definition candidate_sample : AicCandidate :=
  default (mkCandidate "" Agg None None 0 0 0 0 0 None None None None None ∅)
    (candidate_of disagg_sample Disagg "test" row_sample).

Lemma candidates_total_witness :
  exists l, candidates_from_table disagg_sample Disagg "test" = Some l /\ length l = 1%nat /\
    map label l = ["disagg P[4x2gpu:dp2ep2] D[1x8gpu:tp8ep8]"].
Proof.
  destruct (candidates_total disagg_sample Disagg "test") as (l & Hl & Hn & _).
  - apply (bool_decide_unpack _). vm_compute. exact I.
  - exists l. split; [exact Hl|]. split; [exact Hn|].
    assert (option_map (map label) (candidates_from_table disagg_sample Disagg "test") =
      Some ["disagg P[4x2gpu:dp2ep2] D[1x8gpu:tp8ep8]"]) as H by (vm_compute; reflexivity).
    rewrite Hl in H. injection H as ->. reflexivity.
Defined.

Lemma unreadable_rejected_witness : exists a,
  candidate_of (Csv.mkTable ["(p)parallel"; "(d)parallel"] []) Disagg "test" ["tp1pp1dp2"; "tp8pp1dp1"] = Some a /\
  apply_to a config_default = None.
Proof.
  eexists. split; [vm_compute; reflexivity|].
  apply (unreadable_rejected (Csv.mkTable ["(p)parallel"; "(d)parallel"] []) "test" ["tp1pp1dp2"; "tp8pp1dp1"]);
    [vm_compute; reflexivity|left; vm_compute; reflexivity].
Defined.

Lemma agg_replicas_witness : exists a,
  candidate_of (Csv.mkTable ["num_total_gpus"; "parallel"] []) Agg "test" ["16"; "tp1pp1dp4ep4"] = Some a /\
  c_prefill_workers a = 4.
Proof.
  eexists. split; [vm_compute; reflexivity|].
  apply (agg_replicas (Csv.mkTable ["num_total_gpus"; "parallel"] []) "test" ["16"; "tp1pp1dp4ep4"]
    (mkSpec 1 1 4 4) 16 _ config_default); try (vm_compute; reflexivity).
  unfold u32_max. lia.
Defined.

Lemma search_command_numbers_witness :
  search_command (from_config config_default "h200_sxm" "trtllm" "/tmp/aic") !! 18%nat = Some "20.00" /\
  search_command (from_config config_default "h200_sxm" "trtllm" "/tmp/aic") !! 16%nat ≫= parse_f64 = Some (of_Z 3000).
Proof.
  split; [vm_compute; reflexivity|].
  apply (search_command_numbers config_default "h200_sxm" "trtllm" "/tmp/aic" 3000);
    try reflexivity; unfold u32_max; cbn; lia.
Defined.
End Aic.
