(* ===== verification/Load.v ===== *)
(** * Reading AIConfigurator's output ([crates/tuner/src/lib.rs])

    The walk over the save directory for its result directories and the tables
    read from them.  The file system is a tree: a file with its text, a
    directory with its listing, either of them perhaps unreadable. *)

From Stdlib Require Import ZArith Lia.
From stdpp Require Import base option list sorting strings.
From S2P Require Import Prelude Core Config Text Csv Aic.

Module Load.
Import Text Aic.
Local Open Scope string_scope.
Local Open Scope list_scope.

Inductive Node :=
  | File (text : option string)
  | Dir (entries : option (list (string * Node))).

Definition is_dir (n : Node) : bool := match n with Dir _ => true | File _ => false end.

(** [read_dir], with the error as no entry. *)
Definition read_dir (n : Node) : list (string * Node) :=
  match n with Dir (Some es) => es | _ => [] end.

(** The entry of a name: what [join] leads to. *)
Fixpoint entry (name : string) (es : list (string * Node)) : option Node :=
  match es with
  | [] => None
  | (k, n) :: es => if bool_decide (k = name) then Some n else entry name es
  end.

(** ** The walk *)

Record Found := mkFound { path : string; node : Node; found_mode : DeploymentMode }.

Definition by_name (a b : string * Node) : comparison := String.compare a.1 b.1.

Lemma by_name_le a b : by_name a b <> Gt <-> String.le a.1 b.1.
Proof. unfold by_name, String.le, String.leb. by destruct (String.compare a.1 b.1). Qed.

#[export] Instance by_name_total : TotalCmp by_name.
Proof.
  split.
  - intros a b. unfold by_name. apply String.compare_antisym.
  - intros a b d. rewrite !by_name_le. apply transitivity.
Qed.

(** [MAX_DEPTH] is 5, so there are six levels. *)
Definition LEVELS : nat := 6.

Fixpoint find_result_dirs (levels : nat) (root : string) (n : Node) : list Found :=
  match levels with
  | O => []
  | S levels =>
      concat (map (fun kn =>
        let child := root +:+ "/" +:+ kn.1 in
        if bool_decide (kn.1 = "agg") then [mkFound child kn.2 Agg]
        else if bool_decide (kn.1 = "disagg") then [mkFound child kn.2 Disagg]
        else if bool_decide (kn.1 = "top1") then []
        else find_result_dirs levels child kn.2)
      (sort_by by_name (filter (fun kn => is_dir kn.2 = true) (read_dir n))))
  end.

(** ** The tables *)

(** The first of the names that exists is read; the outer option is a panic of
    the layout reader. *)
Fixpoint load_first (f : Found) (names : list string) : option (result Error (list AicCandidate)) :=
  match names with
  | [] => Some (Ok [])
  | name :: names =>
      match entry name (read_dir (node f)) with
      | None => load_first f names
      | Some (Dir _) | Some (File None) => Some (Err ConfigError)
      | Some (File (Some text)) =>
          match Csv.parse text with
          | Err e => Some (Err e)
          | Ok t => l ← candidates_from_table t (found_mode f) (path f +:+ "/" +:+ name); Some (Ok l)
          end
      end
  end.

Fixpoint load_all (fs : list Found) : option (result Error (list AicCandidate)) :=
  match fs with
  | [] => Some (Ok [])
  | f :: fs =>
      r ← load_first f ["best_config_topn.csv"; "pareto.csv"];
      match r with
      | Err e => Some (Err e)
      | Ok l =>
          r' ← load_all fs;
          match r' with Err e => Some (Err e) | Ok l' => Some (Ok (l ++ l')) end
      end
  end.

Definition load_candidates (root : string) (save_dir : Node) : option (result Error (list AicCandidate)) :=
  load_all (find_result_dirs LEVELS root save_dir).

(** ** Listings in another order

    Two trees are the same when they differ only in the order in which the file
    system lists their directories. *)

Inductive same_tree : Node -> Node -> Prop :=
  | same_file t : same_tree (File t) (File t)
  | same_unreadable : same_tree (Dir None) (Dir None)
  | same_dir es es1 es2 : NoDup es.*1 ->
      Forall2 (fun a b => a.1 = b.1 /\ same_tree a.2 b.2) es es1 -> es1 ≡ₚ es2 ->
      same_tree (Dir (Some es)) (Dir (Some es2)).

Definition same_entry (a b : string * Node) : Prop := a.1 = b.1 /\ same_tree a.2 b.2.

Lemma same_is_dir a b : same_tree a b -> is_dir a = is_dir b.
Proof. by destruct 1. Qed.

Lemma same_entry_names es es1 : Forall2 same_entry es es1 -> es1.*1 = es.*1.
Proof. induction 1 as [|a b es es1 [E _] _ IH]; [done|]. cbn. by rewrite IH, E. Qed.

Lemma same_read a b : same_tree a b -> exists es,
  NoDup (read_dir a).*1 /\ Forall2 same_entry (read_dir a) es /\ es ≡ₚ read_dir b.
Proof.
  destruct 1 as [t| |es es1 es2 Hn Hf Hp]; [exists []..|by exists es1]; cbn; (split; [constructor|by split]).
Qed.

(** A directory lists a name at most once. *)
Lemma entry_elem name es n : NoDup es.*1 -> entry name es = Some n <-> (name, n) ∈ es.
Proof.
  induction es as [|[k m] es IH]; cbn; intros Hn; [split; [done|by intros ?%not_elem_of_nil]|].
  apply NoDup_cons in Hn as [Hk Hn]. rewrite elem_of_cons. case_bool_decide as E.
  - subst k. split; [intros [= ->]; by left|]. intros [[= ->]|H]; [done|].
    exfalso. apply Hk. apply list_elem_of_fmap. by exists (name, n).
  - rewrite IH by done. split; [by right|]. intros [[= -> ->]|H]; [done|done].
Qed.

Lemma entry_same name a b : same_tree a b ->
  match entry name (read_dir a), entry name (read_dir b) with
  | Some n, Some n' => same_tree n n'
  | None, None => True
  | _, _ => False
  end.
Proof.
  intros H. destruct (same_read a b H) as (es & Hn & Hf & Hp). pose proof (same_entry_names _ _ Hf) as E.
  assert (NoDup es.*1) as Hn1 by by rewrite E. assert (NoDup (read_dir b).*1) as Hn2 by by rewrite <- Hp.
  assert (forall n, entry name (read_dir b) = Some n <-> entry name es = Some n) as Hb.
  { intros n. rewrite !entry_elem by done. by rewrite Hp. }
  assert (match entry name (read_dir a), entry name es with
    | Some n, Some n' => same_tree n n' | None, None => True | _, _ => False end) as Hmid.
  { clear - Hf. induction Hf as [|[k n] [k' n'] l l' [Ek Hs] _ IH]; [done|]. cbn in *. subst k'. by case_bool_decide. }
  destruct (entry name es) as [n'|] eqn:Ee.
  - by rewrite (proj2 (Hb n') eq_refl).
  - destruct (entry name (read_dir b)) as [m|] eqn:Em; [|done]. by pose proof (proj1 (Hb m) eq_refl).
Qed.

(** Sorting makes the order of the listing irrelevant. *)
Lemma sorted_same l l' : NoDup l.*1 -> l ≡ₚ l' -> sort_by by_name l = sort_by by_name l'.
Proof.
  intros Hn Hp. apply (sort_by_order_independent by_name); [|done].
  intros [k n1] [k2 n2] H1 H2 He. apply String.compare_eq_iff in He. cbn in He. subst k2. f_equal.
  apply (entry_elem k l n1 Hn) in H1. apply (entry_elem k l n2 Hn) in H2. congruence.
Qed.

Lemma sorted_related l l' : Forall2 same_entry l l' -> Forall2 same_entry (sort_by by_name l) (sort_by by_name l').
Proof.
  assert (forall a b l l', same_entry a b -> Forall2 same_entry l l' ->
    Forall2 same_entry (insert_by by_name a l) (insert_by by_name b l')) as Hins.
  { intros a b k k' Hab Hk. induction Hk as [|x y k k' Hxy Hk IH]; cbn; [constructor; [done|constructor]|].
    assert (by_name a x = by_name b y) as -> by (unfold by_name; by rewrite (proj1 Hab), (proj1 Hxy)).
    destruct (by_name b y); constructor; try done; by constructor. }
  induction 1 as [|a b l l' Hab Hl IH]; [constructor|]. exact (Hins a b _ _ Hab IH).
Qed.

Definition same_found (f g : Found) : Prop :=
  path f = path g /\ found_mode f = found_mode g /\ same_tree (node f) (node g).

Lemma find_same levels : forall root a b, same_tree a b ->
  Forall2 same_found (find_result_dirs levels root a) (find_result_dirs levels root b).
Proof.
  induction levels as [|levels IH]; intros root a b H; cbn [find_result_dirs]; [constructor|].
  destruct (same_read a b H) as (es & Hn & Hf & Hp).
  set (D := fun kn : string * Node => is_dir kn.2 = true).
  assert (Forall2 same_entry (filter D (read_dir a)) (filter D es)) as Hf2.
  { clear Hn Hp. induction Hf as [|x y l l' [Ek Hs] Hf IHf]; [done|]. rewrite !filter_cons. pose proof (same_is_dir _ _ Hs) as Ed.
    destruct (decide (D x)) as [E|E], (decide (D y)) as [E'|E']; unfold D in E, E'; [by constructor|congruence..|done]. }
  assert (NoDup (filter D es).*1) as Hn2.
  { rewrite (same_entry_names _ _ Hf2). eapply sublist_NoDup; [exact Hn|]. apply fmap_sublist, sublist_filter. }
  rewrite <- (sorted_same (filter D es) (filter D (read_dir b)) Hn2) by by rewrite Hp.
  apply sorted_related in Hf2. revert Hf2. generalize (sort_by by_name (filter D (read_dir a))) (sort_by by_name (filter D es)).
  intros l l' Hl. induction Hl as [|[k n] [k' n'] l l' [Ek Hs] _ IHl]; cbn [map concat]; [constructor|].
  cbn [fst snd] in *. subst k'. apply Forall2_app; [|exact IHl].
  repeat case_bool_decide; [by repeat constructor|by repeat constructor|constructor|by apply IH].
Qed.

Lemma load_first_same f g names : same_found f g -> load_first f names = load_first g names.
Proof.
  intros (Hp & Hm & Ht). induction names as [|name names IH]; cbn [load_first]; [done|].
  pose proof (entry_same name (node f) (node g) Ht) as He.
  destruct (entry name (read_dir (node f))) as [n|], (entry name (read_dir (node g))) as [n'|]; try done.
  destruct He as [[t|]| |]; try done. by rewrite Hp, Hm.
Qed.

(** ** Theorems *)

(** The candidates do not depend on the order in which the file system lists
    its directories: two listings of the same tree load alike, errors
    included. *)
Theorem load_order_independent (root : string) (a b : Node) :
  same_tree a b -> load_candidates root a = load_candidates root b.
Proof.
  intros H. unfold load_candidates. pose proof (find_same LEVELS root a b H) as Hf.
  induction Hf as [|f g fs gs Hfg _ IH]; cbn [load_all]; [done|]. by rewrite (load_first_same f g _ Hfg), IH.
Qed.

(** ** A save directory *)

Definition pareto : string := "(p)workers,(d)workers,(p)parallel,(d)parallel,num_total_gpus" +:+ of_char LF +:+
  "4,1,tp1pp1dp2,tp8pp1dp1,16" +:+ of_char LF.

Definition save_tree : Node :=
  Dir (Some [("model", Dir (Some [("run", Dir (Some
    [("disagg", Dir (Some [("top1", Dir None); ("pareto.csv", File (Some pareto))])); ("log", File None)]))]))]).

Definition save_tree_reordered : Node :=
  Dir (Some [("model", Dir (Some [("run", Dir (Some
    [("log", File None); ("disagg", Dir (Some [("pareto.csv", File (Some pareto)); ("top1", Dir None)]))]))]))]).

Lemma same_tree_sample : same_tree save_tree save_tree_reordered.
Proof.
  unfold save_tree, save_tree_reordered.
  assert (forall k a b, same_tree a b -> same_tree (Dir (Some [(k, a)])) (Dir (Some [(k, b)]))) as H1.
  { intros k a b H. apply (same_dir _ [(k, b)]); [apply NoDup_singleton|by repeat constructor|done]. }
  assert (forall k k' a b a' b', k <> k' -> same_tree a b -> same_tree a' b' ->
    same_tree (Dir (Some [(k, a); (k', a')])) (Dir (Some [(k', b'); (k, b)]))) as H2.
  { intros k k' a b a' b' Hk H H'. apply (same_dir _ [(k, b); (k', b')]); [|by repeat constructor|apply Permutation_swap].
    cbn. apply NoDup_cons. split; [|apply NoDup_singleton]. by intros ->%list_elem_of_singleton. }
  apply H1, H1, H2; [done|apply H2; [done|constructor..]|constructor].
Qed.

Lemma load_order_independent_witness :
  option_map (fun r => match r with Ok l => map label l | Err _ => [] end) (load_candidates "aic" save_tree_reordered) =
    Some ["disagg P[4x2gpu:dp2] D[1x8gpu:tp8]"].
Proof.
  rewrite <- (load_order_independent "aic" save_tree save_tree_reordered same_tree_sample). vm_compute. reflexivity.
Defined.
End Load.
