(* ===== verification/Remedy.v ===== *)
(** * Remedies and verdicts ([crates/core/src/remedy.rs], [verdict.rs])

    What to do about the resource that binds, ranked by how strongly each
    recommendation is backed; and the comparison of a run with its prediction. *)

From Stdlib Require Import ZArith Lia Sorted.
From stdpp Require Import base option list numbers gmap strings.
From S2P Require Import Prelude F64 F64Int Core Capacity Config.

(** ** Remedies *)

Module Remedies.
Local Open Scope string_scope.
Local Open Scope Z_scope.

Inductive Evidence := Derived | Untested | Transferred | Measured.

#[export] Instance Evidence_eq_dec : EqDecision Evidence.
Proof. solve_decision. Defined.

(** The derived [Ord]: the order of declaration. *)
Definition evidence_rank (e : Evidence) : Z :=
  match e with Derived => 0 | Untested => 1 | Transferred => 2 | Measured => 3 end.

Definition label (e : Evidence) : string :=
  match e with
  | Measured => "measured"
  | Transferred => "transferred"
  | Untested => "untested"
  | Derived => "derived"
  end.

Record Remedy := mkRemedy {
  knob : string;
  setting : string;
  multiplier : f64;
  evidence : Evidence;
  because : string;
  with_vars : string
}.

Definition command (r : Remedy) (script : string) : string :=
  let vars := knob r +:+ "=" +:+ setting r in
  let vars := if (with_vars r =? "")%string then vars else vars +:+ "," +:+ with_vars r in
  "sbatch -p 16gpus -N 2 --gres=gpu:H200:8 -t 00:15:00" +:+ " " +:+
  "--exclude=25a-hgpn142,25a-hgpn143,25a-hgpn175" +:+ " " +:+
  "--export=ALL," +:+ vars +:+ " " +:+ script.

Definition transfer_remedies : list Remedy :=
  [mkRemedy "KV_XFER_CONCURRENCY" "16" (of_Z 16) Derived
     "upstream serialises the handoff to one buffer in each direction (baseTransBuffer.cpp:109); the pool size is the concurrency"
     ""].

Definition prefill_remedies (b : Planner.MfuBreakdown) : list Remedy :=
  [mkRemedy "EXPERT_PARALLEL" "1" (dec 143 2) Transferred
     "SGLang job 302350 measured EP1 at +43% over EP4 on this model and hardware; removing a per-token all-to-all transfers between stacks"
     "";
   mkRemedy "TORCH_COMPILE" "inductor" (Planner.compute_mfu_worth b (dec 50 2)) Derived
     "the compute phase runs at 25.3% MFU and inductor is the codegen that would change the GEMMs"
     "";
   mkRemedy "MOE_BACKEND" "CUTLASS" f1 Untested
     "AUTO already resolves to CUTLASS on SM90, so this only makes the choice explicit. DEEPGEMM and TRTLLM both refuse anything but SM100/103 and MARLIN needs an NVFP4 checkpoint, so on H200 with fp8 there is no other MoE backend to try -- the neighbouring stack's 17.0-to-19.8 with deep_gemm was vLLM's own implementation, not this flag"
     "";
   mkRemedy "KV_CACHE_DTYPE" "fp8" f1 Transferred
     "halves resident KV, which is what makes TP2 prefill fit at all: 20.9 GiB per rank holds max_num_tokens of in-flight KV in fp8 and not in fp16, and our own three TP2 failures were all fp16"
     "";
   mkRemedy "PREFILL_MAX_NUM_TOKENS" "16384" f1 Transferred
     "four whole ISL-4000 prompts per iteration against upstream's 8192; this is also the quantity our own two models disagree about, so measuring it settles the 14.30-versus-7.53 gap as a side effect"
     "";
   mkRemedy "ALLREDUCE_STRATEGY" "LOWPRECISION" (Planner.allreduce_worth b) Derived
     "the TP all-reduce is 25% of prefill kernel time"
     "";
   mkRemedy "HOST_DISPATCH_SPIN" "1" (Planner.duty_cycle_worth b) Derived
     "9% of wall time is outside the forward pass; the stated cost is one spinning core and this node has 96"
     "";
   mkRemedy "CONTEXT_PARALLEL" "2" f1 Derived
     "splits the sequence rather than the weights, so it lowers prefill LATENCY -- which is what the TTFT gate is written in -- rather than throughput"
     "PREFILL_WORKERS=1,PREFILL_TP=4"].

Definition decode_remedies : list Remedy :=
  [mkRemedy "SPECULATION" "1" (fdiv (dec 1918 2) (dec 1108 2)) Transferred
     "EAGLE3 at one draft token measured ITL p95 11.08 ms against 19.18 baseline on this model and this hardware, with acceptance 1.82 and 12/12 outputs token-identical under greedy sampling; topk=2 cost 5% of goodput and topk=4 collapsed to 3.29"
     "";
   mkRemedy "DECODE_TP" "4" (dec 27 1) Measured
     "one TP8 decode worker delivered 815 tok/s where two TP4 workers reach 2170-2470; Qwen3-235B has 4 KV heads, so TP8 must duplicate them"
     "";
   mkRemedy "CUDA_GRAPH_MAX_BATCH" "96" f1 Untested
     "CudaGraphConfig defaults max_batch_size to 0, so a capture that is merely enabled captures nothing"
     ""].

Definition already_applied (m : Planner.CapacityModel) (r : Remedy) (split : Planner.PdSplit)
    (applied : EngineConf.EngineConfig) : bool :=
  let k := knob r in
  if (k =? "DECODE_TP")%string then Planner.decode_tp split =? 4
  else if (k =? "SPECULATION")%string then
    match Planner.speculation (Planner.m_decode m) with Some _ => true | None => false end
    || EngineConf.enabled (EngineConf.speculation applied)
  else if (k =? "KV_XFER_CONCURRENCY")%string then 16 <=? Planner.xfer_concurrency m
  else if (k =? "EXPERT_PARALLEL")%string then EngineConf.expert_parallel applied =? 1
  else if (k =? "MOE_BACKEND")%string then
    (EngineConf.moe_backend applied =? "CUTLASS")%string || (EngineConf.moe_backend applied =? "AUTO")%string
  else if (k =? "TORCH_COMPILE")%string then negb (EngineConf.torch_compile applied =? "0")%string
  else if (k =? "HOST_DISPATCH_SPIN")%string then EngineConf.host_dispatch_spin applied
  else if (k =? "ALLREDUCE_STRATEGY")%string then negb (EngineConf.allreduce_strategy applied =? "AUTO")%string
  else if (k =? "CONTEXT_PARALLEL")%string then 1 <? EngineConf.context_parallel applied
  else if (k =? "CUDA_GRAPH_MAX_BATCH")%string then 0 <? EngineConf.cuda_graph_max_batch applied
  else if (k =? "KV_CACHE_DTYPE")%string then fle (Planner.kv_dtype_bytes m) f1
  else if (k =? "PREFILL_MAX_NUM_TOKENS")%string then 16384 <=? Planner.max_num_tokens m
  else false.

Definition cmp_remedy : Remedy -> Remedy -> comparison :=
  cmp_then (cmp_rev (cmp_on (fun r => evidence_rank (evidence r))))
           (cmp_rev (cmp_on (fun r => total_key (multiplier r)))).

#[export] Instance cmp_remedy_total : TotalCmp cmp_remedy.
Proof. apply cmp_then_total; apply cmp_rev_total, cmp_on_total. Qed.

Definition table (m : Planner.CapacityModel) (b : Planner.Bottleneck) : list Remedy :=
  match b with
  | Planner.BnKvTransfer => transfer_remedies
  | Planner.BnPrefill => prefill_remedies (Planner.mfu_breakdown (Planner.m_prefill m))
  | Planner.BnDecode => decode_remedies
  end.

Definition remedies_given (m : Planner.CapacityModel) (split : Planner.PdSplit)
    (applied : EngineConf.EngineConfig) : list Remedy :=
  let out := table m (Planner.bottleneck split) in
  let kept := filter (fun r => already_applied m r split applied = false) out in
  sort_by cmp_remedy kept.

Definition remedies (m : Planner.CapacityModel) (split : Planner.PdSplit) : list Remedy :=
  remedies_given m split EngineConf.engine_default.

(** Evidence outranks size. The remedies for a split are the entries of its
    bottleneck's table that the deployment does not already apply, and one with
    stronger evidence comes before any with weaker evidence, whatever their
    multipliers; among equals the larger multiplier comes first. *)
Theorem remedies_ranked (m : Planner.CapacityModel) (split : Planner.PdSplit)
    (applied : EngineConf.EngineConfig) (i j : nat) (r q : Remedy) :
  remedies_given m split applied !! i = Some r ->
  remedies_given m split applied !! j = Some q -> (i <= j)%nat ->
  r ∈ table m (Planner.bottleneck split) /\ already_applied m r split applied = false /\
  (evidence_rank (evidence q) < evidence_rank (evidence r) \/
   evidence q = evidence r /\ total_key (multiplier q) <= total_key (multiplier r)).
Proof.
  intros Hr Hq Hij. unfold remedies_given in Hr, Hq.
  assert (r ∈ filter (fun r => already_applied m r split applied = false) (table m (Planner.bottleneck split))) as Hin.
  { apply (elem_of_sort_by cmp_remedy). by eapply list_elem_of_lookup_2. }
  apply list_elem_of_filter in Hin as [Ha Hin]. split; [done|]. split; [done|].
  pose proof (sorted_by_lookup cmp_remedy _ i j r q (sort_by_sorted cmp_remedy _) Hr Hq Hij) as Hle.
  unfold cmp_le, cmp_remedy, cmp_then, then_cmp, cmp_rev, cmp_on in Hle.
  destruct (Z.compare_spec (evidence_rank (evidence q)) (evidence_rank (evidence r))) as [He|He|He];
    [right|by left|done].
  split; [by destruct (evidence q), (evidence r)|].
  apply Z.compare_ngt_iff in Hle. lia.
Qed.

Lemma remedies_ranked_witness :
  exists s r q, Planner.evaluate Planner.model_default 4 12 4 4 = Some s /\
    remedies Planner.model_default s !! 0%nat = Some r /\
    remedies Planner.model_default s !! 1%nat = Some q /\
    r ∈ table Planner.model_default (Planner.bottleneck s).
Proof.
  destruct (Planner.evaluate Planner.model_default 4 12 4 4) as [s|] eqn:E; [|vm_compute in E; discriminate].
  assert (match Planner.evaluate Planner.model_default 4 12 4 4 with
          | Some s => (2 <=? length (remedies Planner.model_default s))%nat | None => false end = true) as Hl
    by (vm_compute; reflexivity).
  rewrite E in Hl. apply Nat.leb_le in Hl.
  destruct (lookup_lt_is_Some_2 (remedies Planner.model_default s) 0 ltac:(lia)) as [r Hr].
  destruct (lookup_lt_is_Some_2 (remedies Planner.model_default s) 1 ltac:(lia)) as [q Hq].
  exists s, r, q. split; [reflexivity|]. split; [exact Hr|]. split; [exact Hq|].
  apply (remedies_ranked Planner.model_default s EngineConf.engine_default 0 1 r q Hr Hq). lia.
Defined.
End Remedies.

(** ** Verdicts *)

Module Assess.
Local Open Scope string_scope.
Local Open Scope Z_scope.
Local Open Scope s_scope.

Record MeasuredRun := mkRun {
  run_goodput_req_s : f64;
  request_throughput_req_s : f64;
  output_token_throughput : f64;
  ttft_avg_ms : f64;
  ttft_p90_ms : f64;
  itl_avg_ms : f64;
  request_count : f64
}.

Inductive Diagnosis :=
  | Met
  | ItlGate (measured_ms budget_ms : f64)
  | BothGates (itl_ms itl_budget_ms ttft_ms ttft_budget_ms : f64)
  | TtftGate (measured_ms budget_ms : f64)
  | ThroughputShortfall (measured_req_s predicted_req_s : f64) (implicated : Planner.Bottleneck)
  | NothingServed.

Definition implicates (d : Diagnosis) : option Planner.Bottleneck :=
  match d with
  | Met | NothingServed => None
  | ItlGate _ _ => Some Planner.BnDecode
  | BothGates itl itl_b ttft ttft_b =>
      Some (if fgt (fdiv ttft ttft_b) (fdiv itl itl_b) then Planner.BnPrefill else Planner.BnDecode)
  | TtftGate _ _ => Some Planner.BnPrefill
  | ThroughputShortfall _ _ b => Some b
  end.

Record RunVerdict := mkVerdict {
  predicted_goodput_req_s : f64;
  measured : MeasuredRun;
  ratio : f64;
  diagnosis : Diagnosis
}.

Definition assess (run : MeasuredRun) (predicted : f64) (slo : Slo) (binding : Planner.Bottleneck)
    (tolerance : f64) : RunVerdict :=
  let r := if fgt predicted f0 then fdiv (run_goodput_req_s run) predicted else NAN in
  let d :=
    if flt (request_count run) f1 then NothingServed
    else if fge r (fsub f1 tolerance) then Met
    else if fgt (itl_avg_ms run) (slo_itl_ms slo) && fgt (ttft_p90_ms run) (slo_ttft_ms slo) then
      BothGates (itl_avg_ms run) (slo_itl_ms slo) (ttft_p90_ms run) (slo_ttft_ms slo)
    else if fgt (itl_avg_ms run) (slo_itl_ms slo) then ItlGate (itl_avg_ms run) (slo_itl_ms slo)
    else if fgt (ttft_p90_ms run) (slo_ttft_ms slo) then TtftGate (ttft_p90_ms run) (slo_ttft_ms slo)
    else ThroughputShortfall (request_throughput_req_s run) predicted binding in
  mkVerdict predicted run r d.

(** [get] and [as_f64] are those of the JSON library's values. *)
Section json.
Context {J : Type} (get : J -> string -> option J) (as_f64 : J -> option f64).

Definition field (doc : J) (name stat : string) : result string f64 :=
  match (m ← get doc name; v ← get m stat; as_f64 v) with
  | Some x => Ok x
  | None => Err (name +:+ "." +:+ stat +:+ " is missing from the export")
  end.

Definition from_aiperf_json (doc : J) : result string MeasuredRun :=
  a <-? field doc "goodput" "avg" ;;
  b <-? field doc "request_throughput" "avg" ;;
  c <-? field doc "output_token_throughput" "avg" ;;
  d <-? field doc "time_to_first_token" "avg" ;;
  e <-? field doc "time_to_first_token" "p90" ;;
  f <-? field doc "inter_token_latency" "avg" ;;
  g <-? field doc "request_count" "avg" ;;
  Ok (mkRun a b c d e f g).

(** The metrics a verdict is built from. *)
Definition metrics : list (string * string) :=
  [("goodput", "avg"); ("request_throughput", "avg"); ("output_token_throughput", "avg");
   ("time_to_first_token", "avg"); ("time_to_first_token", "p90");
   ("inter_token_latency", "avg"); ("request_count", "avg")].

Definition run_values (r : MeasuredRun) : list f64 :=
  [run_goodput_req_s r; request_throughput_req_s r; output_token_throughput r;
   ttft_avg_ms r; ttft_p90_ms r; itl_avg_ms r; request_count r].
End json.

(** A missing metric is an error, not a zero: parsing succeeds exactly when
    every metric is there, with the values of the document. *)
Theorem aiperf_all_or_nothing {J : Type} (get : J -> string -> option J) (as_f64 : J -> option f64) (doc : J) :
  match from_aiperf_json get as_f64 doc with
  | Ok r => Forall2 (fun m v => field get as_f64 doc m.1 m.2 = Ok v) metrics (run_values r)
  | Err e => Exists (fun m => field get as_f64 doc m.1 m.2 = Err e) metrics
  end.
Proof.
  unfold from_aiperf_json.
  destruct (field get as_f64 doc "goodput" "avg") eqn:E1; cbn [result_bind]; [|by apply Exists_cons_hd].
  destruct (field get as_f64 doc "request_throughput" "avg") eqn:E2; cbn [result_bind];
    [|by apply Exists_cons_tl, Exists_cons_hd].
  destruct (field get as_f64 doc "output_token_throughput" "avg") eqn:E3; cbn [result_bind];
    [|by do 2 apply Exists_cons_tl; apply Exists_cons_hd].
  destruct (field get as_f64 doc "time_to_first_token" "avg") eqn:E4; cbn [result_bind];
    [|by do 3 apply Exists_cons_tl; apply Exists_cons_hd].
  destruct (field get as_f64 doc "time_to_first_token" "p90") eqn:E5; cbn [result_bind];
    [|by do 4 apply Exists_cons_tl; apply Exists_cons_hd].
  destruct (field get as_f64 doc "inter_token_latency" "avg") eqn:E6; cbn [result_bind];
    [|by do 5 apply Exists_cons_tl; apply Exists_cons_hd].
  destruct (field get as_f64 doc "request_count" "avg") eqn:E7; cbn [result_bind];
    [|by do 6 apply Exists_cons_tl; apply Exists_cons_hd].
  by repeat constructor.
Qed.

(** A diagnosis says what happened. [Met] means the measured goodput is
    within tolerance of a positive prediction; a gate is blamed exactly when
    requests were served, the run missed, and that gate was missed, alone or
    with the other; and only a run that met both gates is put down to the
    resource the model says binds. *)
Theorem diagnosis_exact (run : MeasuredRun) (predicted tolerance : f64) (slo : Slo) (b : Planner.Bottleneck) :
  let v := assess run predicted slo b tolerance in
  let served := negb (flt (request_count run) f1) in
  let late := fgt (ttft_p90_ms run) (slo_ttft_ms slo) in
  let slow := fgt (itl_avg_ms run) (slo_itl_ms slo) in
  match diagnosis v with
  | NothingServed => served = false
  | Met => served = true /\ fgt predicted f0 = true /\
      fle (fsub f1 tolerance) (fdiv (run_goodput_req_s run) predicted) = true
  | BothGates i ib t tb => served = true /\ slow = true /\ late = true /\
      (i, ib, t, tb) = (itl_avg_ms run, slo_itl_ms slo, ttft_p90_ms run, slo_ttft_ms slo) /\
      (implicates (diagnosis v) = Some Planner.BnPrefill <-> flt (fdiv i ib) (fdiv t tb) = true)
  | ItlGate i ib => served = true /\ slow = true /\ late = false /\
      (i, ib) = (itl_avg_ms run, slo_itl_ms slo) /\ implicates (diagnosis v) = Some Planner.BnDecode
  | TtftGate t tb => served = true /\ slow = false /\ late = true /\
      (t, tb) = (ttft_p90_ms run, slo_ttft_ms slo) /\ implicates (diagnosis v) = Some Planner.BnPrefill
  | ThroughputShortfall m p i => served = true /\ slow = false /\ late = false /\ i = b /\
      implicates (diagnosis v) = Some b
  end.
Proof.
  cbn zeta. unfold assess. cbn [diagnosis].
  destruct (flt (request_count run) f1); [done|].
  destruct (fgt predicted f0) eqn:Hp.
  2: { assert (fge NAN (fsub f1 tolerance) = false) as ->.
       { destruct (fge NAN (fsub f1 tolerance)) eqn:E; [|done]. by apply fle_nan_r in E. }
       destruct (fgt (itl_avg_ms run) _), (fgt (ttft_p90_ms run) _); cbn [andb]; try done.
       repeat (split; [done|]). cbn [implicates]. 
       change (fgt ?x ?y) with (flt y x). destruct (flt _ _); split; done. }
  destruct (fge _ (fsub f1 tolerance)) eqn:Hm; [done|].
  destruct (fgt (itl_avg_ms run) _), (fgt (ttft_p90_ms run) _); cbn [andb]; try done.
  repeat (split; [done|]). cbn [implicates]. 
  change (fgt ?x ?y) with (flt y x). destruct (flt _ _); split; done.
Qed.
End Assess.
