(* ===== verification/Worker.v ===== *)
(** * Workers ([crates/worker/src])

    The prefill worker ([prefill_worker.rs]) and the decode worker
    ([decode_worker.rs]): a scheduler, a KV pool and an engine driven by one
    loop each, one iteration of which is a function here.  They are proved against
    the [Engine] class. *)

From Stdlib Require Import ZArith Lia.
From stdpp Require Import base option list numbers gmap strings.
From S2P Require Import Prelude F64 F64Int Core Policy Prefill Controller Decode Pool Engine.

(** ** Pages held per request *)

Definition owned (kv : gmap Z (list nat)) : list nat := concat (map_to_list kv).*2.

Lemma owned_empty : owned ∅ = [].
Proof. unfold owned. by rewrite map_to_list_empty. Qed.

Lemma owned_insert kv id bs : kv !! id = None -> owned (<[id := bs]> kv) ≡ₚ bs ++ owned kv.
Proof.
  intros Hn. unfold owned. rewrite (map_to_list_insert kv id bs Hn). done.
Qed.

Lemma owned_delete kv id bs : kv !! id = Some bs -> owned kv ≡ₚ bs ++ owned (delete id kv).
Proof.
  intros Hs. rewrite <- (owned_insert (delete id kv) id bs) by apply lookup_delete_eq.
  by rewrite insert_delete_eq, insert_id.
Qed.

(** [kv.entry(id).or_default().extend(blocks)] *)
Definition extend (kv : gmap Z (list nat)) (id : Z) (bs : list nat) : gmap Z (list nat) :=
  <[id := default [] (kv !! id) ++ bs]> kv.

Lemma owned_extend kv id bs : owned (extend kv id bs) ≡ₚ bs ++ owned kv.
Proof.
  unfold extend. destruct (kv !! id) as [old|] eqn:E; cbn [default].
  - rewrite (owned_delete kv id old E). rewrite <- (insert_delete_eq kv id (old ++ bs)).
    rewrite owned_insert by apply lookup_delete_eq. rewrite <- app_assoc.
    rewrite (Permutation_app_comm old (bs ++ owned _)), <- app_assoc.
    by rewrite (Permutation_app_comm (owned _) old).
  - by rewrite owned_insert.
Qed.

(** [if let Some(blocks) = kv.remove(id) { pool.release(&blocks) }] *)
Definition give_back (kv : gmap Z (list nat)) (pool : BlockPool) (id : Z)
    : option (gmap Z (list nat) * BlockPool) :=
  match kv !! id with
  | Some bs => p ← release pool bs; Some (delete id kv, p)
  | None => Some (kv, pool)
  end.

Fixpoint give_back_all (kv : gmap Z (list nat)) (pool : BlockPool) (ids : list Z)
    : option (gmap Z (list nat) * BlockPool) :=
  match ids with
  | [] => Some (kv, pool)
  | id :: ids => '(kv, pool) ← give_back kv pool id; give_back_all kv pool ids
  end.

Lemma give_back_all_spec ids : forall kv pool, pool_inv pool (owned kv) ->
  exists kv' pool', give_back_all kv pool ids = Some (kv', pool') /\ pool_inv pool' (owned kv') /\
    forall id, kv' !! id = if decide (id ∈ ids) then None else kv !! id.
Proof.
  induction ids as [|i ids IH]; intros kv pool Hinv; cbn [give_back_all].
  { exists kv, pool. split; [done|]. split; [done|]. intros id. rewrite decide_False; [done|].
    apply not_elem_of_nil. }
  assert (exists kv1 pool1, give_back kv pool i = Some (kv1, pool1) /\ pool_inv pool1 (owned kv1) /\
    kv1 = delete i kv) as (kv1 & pool1 & -> & Hinv1 & ->).
  { unfold give_back. destruct (kv !! i) as [bs|] eqn:E.
    - rewrite (owned_delete kv i bs E) in Hinv. destruct (release_spec bs pool _ Hinv) as (p' & -> & Hp').
      cbn. eauto.
    - exists kv, pool. split; [done|]. split; [done|]. by rewrite delete_id. }
  destruct (IH _ _ Hinv1) as (kv' & pool' & He & Hinv' & Hl). exists kv', pool'.
  cbn [mbind option_bind]. split; [done|]. split; [done|]. intros id. rewrite Hl.
  destruct (decide (id ∈ ids)) as [Hin|Hin].
  { rewrite decide_True; [done|by right]. }
  destruct (decide (id = i)) as [->|Hne].
  - rewrite lookup_delete_eq, decide_True; [done|left].
  - rewrite lookup_delete_ne by done. rewrite decide_False; [done|]. by intros [?|?]%elem_of_cons.
Qed.

Lemma give_back_all_size ids : forall kv pool kv' pool', give_back_all kv pool ids = Some (kv', pool') ->
  same_size pool pool'.
Proof.
  induction ids as [|i ids IH]; intros kv pool kv' pool'; cbn [give_back_all]; [by intros [= _ <-]|].
  unfold give_back. destruct (kv !! i) as [bs|]; [|by apply IH].
  destruct (release pool bs) as [p|] eqn:E; cbn [mbind option_bind]; [|done]. intros H%IH.
  eapply same_size_trans; [by eapply release_size|done].
Qed.

Lemma alloc_total pool refs n : pool_inv pool refs ->
  (exists bs p', alloc pool n = Some (Ok bs, p') /\ pool_inv p' (bs ++ refs) /\ length bs = n) \/
  (exists e, alloc pool n = Some (Err e, pool)).
Proof.
  intros Hinv. unfold alloc. destruct (decide (available pool < n)%nat) as [|Hge]; [right; by eexists|left].
  destruct (alloc_loop_spec n pool refs [] Hinv ltac:(lia)) as (bs & p' & -> & Hlen & _ & _ & _ & _ & Hi).
  cbn. eauto.
Qed.

(** ** The prefill worker *)

Module PrefillW.
Local Open Scope Z_scope.

Record PrefillJob := mkJob {
  job_id : RequestId;
  job_prompt : list Z;
  job_deadline_ms : f64;
  job_arrival_ms : f64
}.

Record PrefillComplete := mkComplete {
  pc_id : RequestId;
  pc_first_token : Z;
  pc_prompt_len : Z;
  pc_finished_at_ms : f64
}.

Section worker.
Context {E : Type} `{!Engine E}.

Record PrefillWorker := mkWorker {
  w_id : WorkerId;
  w_engine : E;
  w_sched : Sched.PrefillScheduler;
  w_pool : BlockPool;
  w_block_size : Z;
  w_prompts : gmap Z (list Z);
  w_kv : gmap Z (list nat)
}.

Definition worker_new (id : WorkerId) (e : E) (t : Sched.PrefillTuning) (num_blocks : nat)
    (bs : Z) (wm : f64) : PrefillWorker :=
  mkWorker id e (Sched.sched_new t) (pool_new num_blocks bs wm) bs ∅ ∅.

Definition enqueue (w : PrefillWorker) (job : PrefillJob) : PrefillWorker :=
  mkWorker (w_id w) (w_engine w)
    (Sched.enqueue (w_sched w) (Sched.mkPending (job_id job) (job_arrival_ms job)
       (job_deadline_ms job) (Z.of_nat (length (job_prompt job))) 0))
    (w_pool w) (w_block_size w) (<[job_id job := job_prompt job]> (w_prompts w)) (w_kv w).

Definition slice (l : list Z) (a b : Z) : list Z := take (Z.to_nat (b - a)) (drop (Z.to_nat a) l).

(** The chunk handed to the engine. *)
Definition spec_of (kv : gmap Z (list nat)) (prompt : list Z) (c : Sched.PrefillChunk) (last : Z)
    : PrefillChunkSpec :=
  mkChunkSpec (Sched.cid c) (slice prompt (Sched.start c) last) (Sched.start c)
    (Z.of_nat (length prompt)) (Sched.completes c) (default [] (kv !! Sched.cid c)).

(** The loop that resolves a batch into tokens and pages; [None] is a panic
    of the slice. *)
Fixpoint resolve (prompts : gmap Z (list Z)) (bs : Z) (cs : list Sched.PrefillChunk)
    (kv : gmap Z (list nat)) (pool : BlockPool) (work : PrefillWork)
    : option (gmap Z (list nat) * BlockPool * PrefillWork) :=
  match cs with
  | [] => Some (kv, pool, work)
  | c :: cs =>
      match prompts !! Sched.cid c with
      | None => resolve prompts bs cs kv pool work
      | Some prompt =>
          let last := Z.min (Sched.start c + Sched.tokens c) (Z.of_nat (length prompt)) in
          let held := Z.of_nat (length (default [] (kv !! Sched.cid c))) in
          let extra := sat_sub (blocks_for last bs) held in
          if 0 <? extra then
            if negb (can_admit pool extra) then Some (kv, pool, work)
            else
              '(r, pool1) ← alloc pool (Z.to_nat extra);
              match r with
              | Err _ => Some (kv, pool1, work)
              | Ok blocks =>
                  let kv1 := extend kv (Sched.cid c) blocks in
                  if last <? Sched.start c then None
                  else resolve prompts bs cs kv1 pool1 (work ++ [spec_of kv1 prompt c last])
              end
          else if last <? Sched.start c then None
          else resolve prompts bs cs kv pool (work ++ [spec_of kv prompt c last])
      end
  end.

Definition set_state (w : PrefillWorker) (e : E) (s : Sched.PrefillScheduler) (p : BlockPool)
    (prompts : gmap Z (list Z)) (kv : gmap Z (list nat)) : PrefillWorker :=
  mkWorker (w_id w) e s p (w_block_size w) prompts kv.

(** One iteration of [run], after the waiting jobs have been enqueued, at time
    [now] and with [done_at] the time after the engine returned; what it
    sends, assuming the receiver is there. *)
Definition round (w : PrefillWorker) (now done_at : f64) : option (PrefillWorker * list PrefillComplete) :=
  let '(s1, batch) := Sched.plan (w_sched w) now in
  if decide (Sched.chunks batch = []) then
    Some (set_state w (w_engine w) s1 (w_pool w) (w_prompts w) (w_kv w), [])
  else
    '(kv1, pool1, work) ← resolve (w_prompts w) (w_block_size w) (Sched.chunks batch) (w_kv w) (w_pool w) [];
    if decide (work = []) then Some (set_state w (w_engine w) s1 pool1 (w_prompts w) kv1, [])
    else
      '(e1, answer) ← prefill (w_engine w) work now;
      match answer with
      | Err _ => Some (set_state w e1 s1 pool1 (w_prompts w) kv1, [])
      | Ok outcome =>
          let '(s2, finished) := Sched.complete s1 batch (po_elapsed_ms outcome) in
          let sent := map (fun it => mkComplete it.1 it.2
              (Z.of_nat (length (default [] (w_prompts w !! it.1)))) done_at) (first_tokens outcome) in
          '(kv2, pool2) ← give_back_all kv1 pool1 finished;
          let prompts2 := foldl (fun m id => delete id m) (w_prompts w) finished in
          Some (set_state w e1 s2 pool2 prompts2 kv2, sent)
      end.

(** *** The invariant *)

Record worker_inv (w : PrefillWorker) : Prop := {
  wi_sched : Sched.sched_inv (w_sched w);
  wi_budget : 0 <= Sched.chunk_tokens (Sched.tuning (w_sched w));
  wi_pool : pool_inv (w_pool w) (owned (w_kv w));
  wi_prompt : forall id p, Sched.queue (w_sched w) !! id = Some p ->
    exists prompt, w_prompts w !! id = Some prompt /\ Sched.compute_tokens p = Z.of_nat (length prompt);
  wi_prompts : forall id, is_Some (w_prompts w !! id) -> is_Some (Sched.queue (w_sched w) !! id);
  wi_kv : forall id, is_Some (w_kv w !! id) -> is_Some (Sched.queue (w_sched w) !! id)
}.

Lemma worker_new_inv id e t n bs wm : 0 <= Sched.chunk_tokens t -> worker_inv (worker_new id e t n bs wm).
Proof.
  intros Ht. split; cbn [worker_new w_sched w_pool w_kv w_prompts Sched.sched_new Sched.queue Sched.tuning].
  - apply Sched.sched_new_inv.
  - done.
  - rewrite owned_empty. apply pool_new_inv.
  - intros i p. by rewrite lookup_empty.
  - intros i. rewrite lookup_empty. by intros [? ?].
  - intros i. rewrite lookup_empty. by intros [? ?].
Qed.

Lemma job_enqueue_inv w job : worker_inv w -> Sched.queue (w_sched w) !! job_id job = None ->
  worker_inv (enqueue w job).
Proof.
  intros [H1 H2 H3 H4 H5 H6] Hn.
  split; cbn [enqueue w_sched w_pool w_kv w_prompts Sched.enqueue Sched.queue Sched.tuning Sched.pid].
  - apply Sched.enqueue_inv; [done|cbn; lia].
  - done.
  - done.
  - intros id p [[<- <-]|[Hne Hp]]%lookup_insert_Some.
    + exists (job_prompt job). by rewrite lookup_insert_eq.
    + rewrite lookup_insert_ne by done. by apply H4.
  - intros id Hs. destruct (decide (id = job_id job)) as [->|Hne]; [by rewrite lookup_insert_eq|].
    rewrite lookup_insert_ne in Hs by done. rewrite lookup_insert_ne by done. by apply H5.
  - intros id Hs. destruct (decide (id = job_id job)) as [->|Hne]; [by rewrite lookup_insert_eq|].
    rewrite lookup_insert_ne by done. by apply H6.
Qed.

(** The chunks resolved are a prefix of the batch (all have prompts), and the
    pages stay accounted for. *)
Lemma resolve_spec prompts bs q : forall cs kv pool work,
  pool_inv pool (owned kv) ->
  Forall (fun c => exists prompt, prompts !! Sched.cid c = Some prompt /\
    0 <= Sched.start c <= Z.of_nat (length prompt) /\ 0 < Sched.tokens c) cs ->
  (forall id, is_Some (kv !! id) -> is_Some (q !! id)) ->
  (forall c, c ∈ cs -> is_Some (q !! Sched.cid c)) ->
  exists kv' pool' more, resolve prompts bs cs kv pool work = Some (kv', pool', work ++ more) /\
    pool_inv pool' (owned kv') /\ (forall id, is_Some (kv' !! id) -> is_Some ((q : gmap Z Sched.PendingPrefill) !! id)) /\
    (length more <= length cs)%nat /\
    map (fun s => (ch_id s, ch_completes s)) more =
    map (fun c => (Sched.cid c, Sched.completes c)) (take (length more) cs).
Proof.
  induction cs as [|c cs IH]; intros kv pool work Hinv Hall Hkv Hcs; cbn [resolve].
  { exists kv, pool, []. rewrite app_nil_r. auto. }
  apply Forall_cons in Hall as [(prompt & Hp & Hst & Htok) Hall]. rewrite Hp.
  set (last := Z.min _ _). assert (Sched.start c <= last) as Hlast by lia.
  assert (forall c', c' ∈ cs -> is_Some (q !! Sched.cid c')) as Hcs' by (intros c' ?; apply Hcs; by right).
  assert (forall kv' pool' sp, pool_inv pool' (owned kv') ->
    (forall id, is_Some (kv' !! id) -> is_Some (q !! id)) ->
    (ch_id sp, ch_completes sp) = (Sched.cid c, Sched.completes c) ->
    exists kv'' pool'' more, resolve prompts bs cs kv' pool' (work ++ [sp]) = Some (kv'', pool'', work ++ more) /\
      pool_inv pool'' (owned kv'') /\ (forall id, is_Some (kv'' !! id) -> is_Some (q !! id)) /\
      (length more <= length (c :: cs))%nat /\
      map (fun s => (ch_id s, ch_completes s)) more =
      map (fun c => (Sched.cid c, Sched.completes c)) (take (length more) (c :: cs))) as Hnext.
  { intros kv' pool' sp Hi Hk Hsp.
    destruct (IH kv' pool' (work ++ [sp]) Hi Hall Hk Hcs') as (kv2 & pool2 & more & -> & H1 & H2 & H3 & H4).
    exists kv2, pool2, (sp :: more). rewrite <- app_assoc. split; [done|]. split; [done|]. split; [done|].
    split; [cbn [length]; lia|]. cbn [length take map]. by rewrite Hsp, H4. }
  destruct (0 <? sat_sub _ _).
  2: { rewrite (proj2 (Z.ltb_ge last (Sched.start c))) by done. by apply Hnext. }
  destruct (can_admit pool _); cbn [negb].
  2: { exists kv, pool, []. rewrite app_nil_r. split; [done|]. split; [done|]. split; [done|].
       cbn [length]. split; [lia|done]. }
  destruct (alloc_total pool (owned kv) (Z.to_nat (sat_sub (blocks_for last bs)
    (Z.of_nat (length (default [] (kv !! Sched.cid c)))))) Hinv)
    as [(blocks & pool1 & -> & Hi & _)|[e ->]]; cbn [mbind option_bind].
  2: { exists kv, pool, []. rewrite app_nil_r. split; [done|]. split; [done|]. split; [done|].
       cbn [length]. split; [lia|done]. }
  rewrite (proj2 (Z.ltb_ge last (Sched.start c))) by done. apply Hnext; [|  |done].
  - by rewrite owned_extend.
  - intros id. unfold extend. destruct (decide (id = Sched.cid c)) as [->|Hne].
    + intros _. apply Hcs. left.
    + rewrite lookup_insert_ne by done. apply Hkv.
Qed.

Lemma delete_all_lookup (ids : list Z) : forall (m : gmap Z (list Z)) id,
  foldl (fun m id => delete id m) m ids !! id = if decide (id ∈ ids) then None else m !! id.
Proof.
  induction ids as [|i ids IH]; intros m id; cbn [foldl].
  { rewrite decide_False; [done|]. apply not_elem_of_nil. }
  rewrite IH. destruct (decide (id ∈ ids)) as [Hin|Hin].
  { rewrite decide_True; [done|]. by right. }
  destruct (decide (id = i)) as [->|Hne].
  - rewrite lookup_delete_eq, decide_True; [done|left].
  - rewrite lookup_delete_ne by done. rewrite decide_False; [done|]. by intros [?|?]%elem_of_cons.
Qed.

(** What the chunks of a planned batch look like to the worker. *)
Lemma planned_chunks w batch : worker_inv w ->
  Forall (Sched.chunk_ok (Sched.queue (w_sched w))) (Sched.chunks batch) ->
  Forall (fun c => exists prompt, w_prompts w !! Sched.cid c = Some prompt /\
    0 <= Sched.start c <= Z.of_nat (length prompt) /\ 0 < Sched.tokens c) (Sched.chunks batch) /\
  forall c, c ∈ Sched.chunks batch -> is_Some (Sched.queue (w_sched w) !! Sched.cid c).
Proof.
  intros [H1 _ _ H4 _ _] Hok. split.
  - eapply Forall_impl; [exact Hok|]. intros c (p & Hp & Hst & Ht & _).
    destruct (H4 _ _ Hp) as (prompt & Hpr & Hc). exists prompt. split; [done|].
    destruct (Sched.si_pending _ H1 _ _ Hp) as [_ Hd]. lia.
  - intros c Hc. rewrite Forall_forall in Hok. destruct (Hok c Hc) as (p & Hp & _). eauto.
Qed.

Lemma filtered_ids (l1 : list PrefillChunkSpec) : forall (l2 : list Sched.PrefillChunk),
  map (fun s => (ch_id s, ch_completes s)) l1 = map (fun c => (Sched.cid c, Sched.completes c)) l2 ->
  ch_id <$> filter (fun c => ch_completes c = true) l1 =
  map Sched.cid (filter (fun c => Sched.completes c = true) l2).
Proof.
  induction l1 as [|s l1 IH]; intros [|c l2] H; try done. cbn [map] in H. injection H as Hid Hc H.
  specialize (IH l2 H). rewrite (filter_cons (fun c => ch_completes c = true) s l1), (filter_cons (fun c => Sched.completes c = true) c l2).
  destruct (decide (ch_completes s = true)), (decide (Sched.completes c = true));
    [|congruence|congruence|exact IH].
  cbn [fmap list_fmap map]. f_equal; [done|exact IH].
Qed.

(** A round, cut at the engine's answer. *)
Lemma round_spec w now done_at : worker_inv w ->
  round w now done_at = None /\ (exists work, work <> [] /\ prefill (w_engine w) work now = None) \/
  exists w' sent, round w now done_at = Some (w', sent) /\ worker_inv w' /\
    (Sched.queue (w_sched w') = Sched.queue (w_sched w) /\ sent = [] \/
     exists kv1 pool1 work e1 o, let batch := (Sched.plan (w_sched w) now).2 in
       resolve (w_prompts w) (w_block_size w) (Sched.chunks batch) (w_kv w) (w_pool w) [] = Some (kv1, pool1, work) /\
       work <> [] /\ prefill (w_engine w) work now = Some (e1, Ok o) /\
       map pc_id sent = (first_tokens o).*1 /\
       (length work <= length (Sched.chunks batch))%nat /\
       map (fun s => (ch_id s, ch_completes s)) work =
         map (fun c => (Sched.cid c, Sched.completes c)) (take (length work) (Sched.chunks batch)) /\
       (forall id, is_Some (Sched.queue (w_sched w') !! id) <->
         is_Some (Sched.queue (w_sched w) !! id) /\
         id ∉ map Sched.cid (filter (fun c => Sched.completes c = true) (Sched.chunks batch))) /\
       (forall id, id ∉ map Sched.cid (Sched.chunks batch) ->
          Sched.queue (w_sched w') !! id = Sched.queue (w_sched w) !! id) /\
       (forall c, c ∈ Sched.chunks batch -> exists p, Sched.queue (w_sched w) !! Sched.cid c = Some p /\
          Sched.queue (w_sched w') !! Sched.cid c =
            if Sched.completes c then None else Some (Sched.advance p (Sched.tokens c)))).
Proof.
  intros Hw. pose proof Hw as [H1 H2 H3 H4 H5 H6]. unfold round.
  destruct (Sched.plan_bounds (w_sched w) now H1 H2) as
    (s1 & batch & Hplan & Hq & Hs1 & _ & _ & _ & Hok & Hnd & _).
  pose proof (Sched.plan_tuning (w_sched w) now) as Htun. rewrite Hplan in *. cbn [fst snd] in *.
  assert (forall e kv pool, pool_inv pool (owned kv) ->
    (forall id, is_Some (kv !! id) -> is_Some (Sched.queue (w_sched w) !! id)) ->
    worker_inv (set_state w e s1 pool (w_prompts w) kv)) as Hstay.
  { intros e kv pool Hi Hk. split; cbn [set_state w_sched w_pool w_kv w_prompts]; rewrite ?Hq, ?Htun; done. }
  destruct (decide (Sched.chunks batch = [])) as [He|Hne].
  { right. eexists _, []. split; [reflexivity|]. split; [by apply Hstay|]. left. by cbn. }
  destruct (planned_chunks w batch Hw Hok) as [Hch Hdom].
  destruct (resolve_spec (w_prompts w) (w_block_size w) (Sched.queue (w_sched w)) (Sched.chunks batch)
    (w_kv w) (w_pool w) [] H3 Hch H6 Hdom) as (kv1 & pool1 & work & Hres & Hi1 & Hk1 & Hlen & Hmap).
  cbn [app] in Hres. rewrite Hres. cbn [mbind option_bind].
  destruct (decide (work = [])) as [Hwe|Hwn].
  { right. eexists _, []. split; [reflexivity|]. split; [by apply Hstay|]. left. by cbn. }
  destruct (prefill (w_engine w) work now) as [[e1 [o|er]]|] eqn:Heng; cbn [mbind option_bind];
    [| |left; split; [done|by exists work]].
  2: { right. eexists _, []. split; [reflexivity|]. split; [by apply Hstay|]. left. by cbn. }
  rewrite <- Hq in Hok.
  destruct (Sched.complete_spec s1 batch (po_elapsed_ms o) Hs1 Hok Hnd) as (s2 & Hc & Hs2 & _ & Hoth & Hin).
  pose proof (Sched.complete_budget s1 batch (po_elapsed_ms o)) as Hbud. rewrite Hc in *. cbn [fst] in Hbud.
  set (fin := map Sched.cid (filter (fun c => Sched.completes c = true) (Sched.chunks batch))) in *.
  destruct (give_back_all_spec fin kv1 pool1 Hi1) as (kv2 & pool2 & -> & Hi2 & Hk2). cbn [mbind option_bind].
  assert (forall id, id ∈ fin -> exists c, c ∈ Sched.chunks batch /\ Sched.cid c = id /\ Sched.completes c = true) as Hfin.
  { intros id Hf. apply list_elem_of_fmap in Hf as (c & -> & Hf). apply list_elem_of_filter in Hf as [? ?]. eauto. }
  assert (forall id, Sched.queue s2 !! id = None -> Sched.queue (w_sched w) !! id = None \/ id ∈ fin) as Hgone.
  { intros id Hn. destruct (decide (id ∈ map Sched.cid (Sched.chunks batch))) as [Hb|Hb].
    - right. apply list_elem_of_fmap in Hb as (c & -> & Hb). destruct (Hin c Hb) as (p & _ & Hp2).
      apply list_elem_of_fmap. exists c. split; [done|]. apply list_elem_of_filter.
      destruct (Sched.completes c); [done|congruence].
    - left. rewrite <- Hq, <- Hoth by done. done. }
  assert (forall id, id ∈ fin -> Sched.queue s2 !! id = None) as Hnone.
  { intros id (c & Hb & <- & Hcc)%Hfin. destruct (Hin c Hb) as (p & _ & Hp2). by rewrite Hcc in Hp2. }
  right. eexists _, _. split; [reflexivity|]. split.
  - split; cbn [set_state w_sched w_pool w_kv w_prompts].
    + done.
    + by rewrite Hbud, Htun.
    + done.
    + intros id p Hp. rewrite delete_all_lookup.
      destruct (decide (id ∈ fin)) as [Hf|Hf]; [by rewrite Hnone in Hp|].
      destruct (decide (id ∈ map Sched.cid (Sched.chunks batch))) as [Hb|Hb].
      * apply list_elem_of_fmap in Hb as (c & -> & Hb). destruct (Hin c Hb) as (p0 & Hp0 & Hp2).
        rewrite Hq in Hp0. destruct (H4 _ _ Hp0) as (prompt & Hpr & Hlp). exists prompt. split; [done|].
        destruct (Sched.completes c); [congruence|].
        assert (p = Sched.advance p0 (Sched.tokens c)) as -> by congruence. done.
      * rewrite Hoth, Hq in Hp by done. by apply H4.
    + intros id. rewrite delete_all_lookup. destruct (decide (id ∈ fin)) as [|Hf]; [by intros [? ?]|].
      intros Hp. destruct (Sched.queue s2 !! id) eqn:Eq; [eauto|].
      apply Hgone in Eq as [Eq|Eq]; [|done]. apply H5 in Hp. rewrite Eq in Hp. by destruct Hp.
    + intros id. rewrite Hk2. destruct (decide (id ∈ fin)) as [|Hf]; [by intros [? ?]|].
      intros Hp. destruct (Sched.queue s2 !! id) eqn:Eq; [eauto|].
      apply Hgone in Eq as [Eq|Eq]; [|done]. apply Hk1 in Hp. rewrite Eq in Hp. by destruct Hp.
  - right. exists kv1, pool1, work, e1, o. cbn zeta. cbn [set_state w_sched].
    do 3 (split; [done|]). split; [by rewrite <- list_fmap_compose|]. split; [done|]. split; [done|].
    split; [|rewrite <- Hq; exact (conj Hoth Hin)].
    intros id. split.
    + intros [p Hp]. assert (id ∉ fin) as Hf by (intros Hf; apply Hnone in Hf; congruence). split; [|done].
      destruct (decide (id ∈ map Sched.cid (Sched.chunks batch))) as [Hb|Hb].
      * apply list_elem_of_fmap in Hb as (c & -> & Hb). by apply Hdom.
      * rewrite Hoth, Hq in Hp by done. eauto.
    + intros [Hp Hf]. destruct (Sched.queue s2 !! id) eqn:Eq; [eauto|].
      apply Hgone in Eq as [Eq|Eq]; [|done]. rewrite Eq in Hp. by destruct Hp.
Qed.

(** An engine in order answers. *)
Lemma round_returns `{!EngineLaws E} w now done_at : worker_inv w -> engine_ok (w_engine w) ->
  exists w' sent, round w now done_at = Some (w', sent) /\ worker_inv w'.
Proof.
  intros Hw He. destruct (round_spec w now done_at Hw) as [[_ (work & _ & Hn)]|(w' & sent & H1 & H2 & _)]; [|eauto].
  destruct (prefill_ok (w_engine w) work now He) as (e' & r & H & _). congruence.
Qed.

(** What a round does besides: the engine, the identity of the worker and the
    time of what it sends. *)
Lemma round_engine `{!EngineLaws E} w now done_at w' sent : engine_ok (w_engine w) ->
  round w now done_at = Some (w', sent) ->
  engine_ok (w_engine w') /\ w_id w' = w_id w /\ Forall (fun c => pc_finished_at_ms c = done_at) sent.
Proof.
  intros He. unfold round. destruct (Sched.plan _ _) as [s1 batch].
  destruct (decide _); [by intros [= <- <-]|].
  destruct (resolve _ _ _ _ _ _) as [[[kv1 pool1] work]|]; cbn [mbind option_bind]; [|done].
  destruct (decide _); [by intros [= <- <-]|].
  destruct (prefill_ok (w_engine w) work now He) as (e1 & [o|er] & -> & He1); cbn [mbind option_bind];
    [|by intros [= <- <-]].
  destruct (Sched.complete _ _ _) as [s2 finished].
  destruct (give_back_all _ _ _) as [[kv2 pool2]|]; cbn [mbind option_bind]; [|done].
  intros [= <- <-]. split; [done|]. split; [done|]. apply Forall_forall. by intros c (it & -> & _)%list_elem_of_fmap.
Qed.

(** A request is queued, or announced once when it leaves the queue, or lost. *)
Lemma round_moves `{!EngineLaws E} w now done_at w' sent id : worker_inv w -> engine_ok (w_engine w) ->
  round w now done_at = Some (w', sent) ->
  (has (Sched.queue (w_sched w')) id + zsum (is_id id) (map pc_id sent) <= has (Sched.queue (w_sched w)) id)%Z.
Proof.
  intros Hw Hek Hr. destruct (round_spec w now done_at Hw) as [[Hn _]|(w2 & sent2 & Hr2 & _ & Hcase)]; [congruence|].
  rewrite Hr in Hr2. injection Hr2 as <- <-.
  destruct Hcase as [[-> ->]|(kv1 & pool1 & work & e1 & o & Hres & _ & Heng & -> & _ & Hmap & Hdom & _)]; [cbn; lia|].
  destruct (Sched.plan_bounds (w_sched w) now (wi_sched _ Hw) (wi_budget _ Hw)) as
    (s1 & b & Hplan & _ & _ & _ & _ & _ & Hok & Hnd & _).
  rewrite Hplan in *. cbn [snd] in *.
  set (fin := map Sched.cid (filter (fun c => Sched.completes c = true) (Sched.chunks b))) in *.
  set (told := map Sched.cid (filter (fun c => Sched.completes c = true) (take (length work) (Sched.chunks b)))).
  assert ((first_tokens o).*1 = told) as ->.
  { rewrite (prefill_first_tokens _ _ _ _ _ Hek Heng). exact (filtered_ids _ _ Hmap). }
  assert (told `sublist_of` fin) as Hsub.
  { apply fmap_sublist. rewrite <- (take_drop (length work) (Sched.chunks b)) at 2. rewrite filter_app.
    by apply sublist_inserts_r. }
  assert (NoDup fin) as Hfin.
  { eapply sublist_NoDup; [exact Hnd|]. apply fmap_sublist, sublist_filter. }
  rewrite (ids_NoDup id told) by by eapply sublist_NoDup.
  destruct (decide (id ∈ told)) as [Ht|Ht].
  - rewrite bool_decide_true by done. assert (id ∈ fin) as Hf by by eapply elem_of_sublist.
    rewrite has_None.
    2: { destruct (Sched.queue (w_sched w') !! id) eqn:Eq; [|done]. exfalso.
         assert (is_Some (Sched.queue (w_sched w') !! id)) as Hs by eauto. by apply Hdom in Hs as [_ Hs]. }
    apply list_elem_of_fmap in Hf as (c & -> & Hf). apply list_elem_of_filter in Hf as [_ Hf].
    rewrite Forall_forall in Hok. destruct (Hok c Hf) as (q & Hq & _). by rewrite (has_Some _ _ _ Hq).
  - rewrite bool_decide_false by done. cbn [Z.b2z]. rewrite Z.add_0_r.
    pose proof (has_nonneg (Sched.queue (w_sched w)) id). destruct (Sched.queue (w_sched w') !! id) eqn:Eq.
    + assert (is_Some (Sched.queue (w_sched w') !! id)) as Hs by eauto. apply Hdom in Hs as [[q Hq] _].
      by rewrite (has_Some _ _ _ Eq), (has_Some _ _ _ Hq).
    + rewrite (has_None _ _ Eq). lia.
Qed.

(** *** Theorems *)

(** C21. A prefill worker never leaks or double-frees a page. From a worker
    whose pool accounts for exactly the pages its requests hold, a round
    terminates in such a worker, whatever the engine answers and however many
    chunks found no room; the one thing that can make it panic is the engine's
    own panic on the batch. *)
Theorem prefill_round_accounts (w : PrefillWorker) (now done_at : f64) :
  worker_inv w ->
  match round w now done_at with
  | Some (w', _) => worker_inv w'
  | None => exists work, work <> [] /\ prefill (w_engine w) work now = None
  end.
Proof.
  intros Hw. by destruct (round_spec w now done_at Hw) as [[-> H]|(w' & sent & -> & H & _)].
Qed.

(** Nothing finishes silently while memory lasts: when every chunk of the
    planned batch found its pages, the requests that leave the queue in a
    round are exactly those whose first token is sent. *)
Theorem prefill_round_delivers `{!EngineLaws E} (w w' : PrefillWorker) (now done_at : f64)
    (sent : list PrefillComplete) kv1 pool1 (work : PrefillWork) :
  worker_inv w -> engine_ok (w_engine w) -> round w now done_at = Some (w', sent) ->
  let batch := (Sched.plan (w_sched w) now).2 in
  resolve (w_prompts w) (w_block_size w) (Sched.chunks batch) (w_kv w) (w_pool w) [] = Some (kv1, pool1, work) ->
  length work = length (Sched.chunks batch) ->
  forall id, id ∈ map pc_id sent <->
    is_Some (Sched.queue (w_sched w) !! id) /\ Sched.queue (w_sched w') !! id = None.
Proof.
  intros Hw Hek Hr batch Hres Hlen id.
  destruct (round_spec w now done_at Hw) as [[Hn _]|(w2 & sent2 & Hr2 & Hw2 & Hcase)]; [congruence|].
  rewrite Hr in Hr2. injection Hr2 as <- <-.
  destruct Hcase as [[Hq ->]|(kv2 & pool2 & work2 & e1 & o & Hres2 & _ & Heng & Hsent & _ & Hmap & Hdom & _)].
  { rewrite Hq. cbn [map]. split; [by intros ?%not_elem_of_nil|]. intros [[? Hs] Hn]. congruence. }
  fold batch in Hres2, Hmap, Hdom. rewrite Hres in Hres2. injection Hres2 as <- <- <-.
  rewrite Hlen, firstn_all in Hmap. 
  assert ((first_tokens o).*1 =
    map Sched.cid (filter (fun c => Sched.completes c = true) (Sched.chunks batch))) as Hft.
  { rewrite (prefill_first_tokens _ _ _ _ _ Hek Heng). exact (filtered_ids _ _ Hmap). }
  rewrite Hsent, Hft.
  set (fin := map Sched.cid _) in *. split.
  - intros Hf. split.
    + apply list_elem_of_fmap in Hf as (c & -> & Hf). apply list_elem_of_filter in Hf as [_ Hf].
      destruct (Sched.plan_bounds (w_sched w) now (wi_sched _ Hw) (wi_budget _ Hw)) as
        (s1 & b & Hplan & _ & _ & _ & _ & _ & Hok & _).
      assert (b = batch) as -> by (unfold batch; by rewrite Hplan).
      rewrite Forall_forall in Hok. destruct (Hok c Hf) as (p & Hp & _). eauto.
    + destruct (Sched.queue (w_sched w') !! id) eqn:Eq; [|done]. exfalso.
      assert (is_Some (Sched.queue (w_sched w') !! id)) as Hs by eauto.
      apply Hdom in Hs as [_ Hs]. done.
  - intros [Hs Hn]. destruct (decide (id ∈ fin)) as [|Hf]; [done|]. exfalso.
    assert (is_Some (Sched.queue (w_sched w') !! id)) as [? Hs'] by (apply Hdom; done). congruence.
Qed.

(** A request with nothing to compute is never in a batch: it stays in the queue
    for ever and its first token is never sent, and the worker, whose queue is
    never empty again, never waits. *)
Theorem empty_prompt_waits_forever `{!EngineLaws E} (w w' : PrefillWorker) (now done_at : f64)
    (sent : list PrefillComplete) (id : Z) (p : Sched.PendingPrefill) :
  worker_inv w -> engine_ok (w_engine w) -> round w now done_at = Some (w', sent) ->
  Sched.queue (w_sched w) !! id = Some p -> Sched.remaining p = 0 ->
  Sched.queue (w_sched w') !! id = Some p /\ id ∉ map pc_id sent.
Proof.
  intros Hw Hek Hr Hp Hz. destruct (round_spec w now done_at Hw) as [[Hn _]|(w2 & sent2 & Hr2 & Hw2 & Hcase)]; [congruence|].
  rewrite Hr in Hr2. injection Hr2 as <- <-.
  destruct Hcase as [[-> ->]|(kv1 & pool1 & work & e1 & o & Hres & _ & Heng & Hsent & _ & Hmap & _ & Hoth & _)].
  { split; [done|]. apply not_elem_of_nil. }
  destruct (Sched.plan_bounds (w_sched w) now (wi_sched _ Hw) (wi_budget _ Hw)) as
    (s1 & b & Hplan & _ & _ & _ & _ & _ & Hok & _). rewrite Hplan in *. cbn [snd] in *.
  assert (id ∉ map Sched.cid (Sched.chunks b)) as Hni.
  { intros (c & -> & Hc)%list_elem_of_fmap. rewrite Forall_forall in Hok. destruct (Hok c Hc) as (q & Hq & _ & Ht & _).
    rewrite Hp in Hq. injection Hq as <-. lia. }
  split; [by rewrite Hoth|].
  assert (map pc_id sent = map Sched.cid (filter (fun c => Sched.completes c = true) (take (length work) (Sched.chunks b)))) as ->.
  { rewrite Hsent, (prefill_first_tokens _ _ _ _ _ Hek Heng). exact (filtered_ids _ _ Hmap). }
  intros (c & -> & [_ Hc]%list_elem_of_filter)%list_elem_of_fmap. apply Hni. apply list_elem_of_fmap_2.
  eapply elem_of_sublist; [exact Hc|]. apply sublist_take.
Qed.
End worker.

(** *** Instances *)

Definition tuning_sample : Sched.PrefillTuning :=
  Sched.mkTuning 16384 8 Fcfs true (of_Z 68) (dec 2 1).

(** A worker with a pool of [n] pages of 16 tokens and two prompts queued. *)
Definition sample (n : nat) : PrefillWorker (E := Mock.MockEngine) :=
  let w := worker_new 0 (Mock.mock_prefill_worker "m" [] 2 Mock.cost_sample Mock.Virtual) tuning_sample n 16 f0 in
  enqueue (enqueue w (mkJob 1 [10; 11; 12] (of_Z 3000) f0)) (mkJob 2 [20; 21] (of_Z 3000) f0).

Lemma wsample_inv n : worker_inv (sample n).
Proof.
  apply job_enqueue_inv; [apply job_enqueue_inv; [apply worker_new_inv; done|]|]; reflexivity.
Qed.

Lemma sample_ok n : engine_ok (w_engine (sample n)).
Proof. split; [|discriminate]. intros i q. cbn. by rewrite lookup_empty. Qed.

Lemma prefill_round_accounts_witness :
  exists w' sent, round (sample 4) f0 f1 = Some (w', sent) /\ worker_inv w'.
Proof.
  pose proof (prefill_round_accounts (sample 4) f0 f1 (wsample_inv 4)) as H.
  destruct (round (sample 4) f0 f1) as [[w' sent]|].
  - exists w', sent. split; [reflexivity|exact H].
  - exfalso. destruct H as (work & _ & H). discriminate H.
Defined.

Lemma prefill_round_delivers_witness :
  exists w' sent, round (sample 4) f0 f1 = Some (w', sent) /\
    forall id, id ∈ map pc_id sent <->
      is_Some (Sched.queue (w_sched (sample 4)) !! id) /\ Sched.queue (w_sched w') !! id = None.
Proof.
  destruct (round (sample 4) f0 f1) as [[w' sent]|] eqn:E.
  2: { exfalso. destruct (round_returns (sample 4) f0 f1 (wsample_inv 4) (sample_ok 4)) as (? & ? & H & _). congruence. }
  exists w', sent. split; [reflexivity|].
  destruct (resolve (w_prompts (sample 4)) 16 (Sched.chunks (Sched.plan (w_sched (sample 4)) f0).2)
    (w_kv (sample 4)) (w_pool (sample 4)) []) as [[[kv1 pool1] work]|] eqn:R.
  2: { vm_compute in R. discriminate. }
  apply (prefill_round_delivers (sample 4) w' f0 f1 sent kv1 pool1 work (wsample_inv 4) (sample_ok 4) E).
  - exact R.
  - assert (match resolve (w_prompts (sample 4)) 16 (Sched.chunks (Sched.plan (w_sched (sample 4)) f0).2)
      (w_kv (sample 4)) (w_pool (sample 4)) [] with
      | Some (_, _, work) => length work = length (Sched.chunks (Sched.plan (w_sched (sample 4)) f0).2)
      | None => False end) as Hl by (vm_compute; reflexivity).
    rewrite R in Hl. exact Hl.
Defined.

(** With one page for two requests, the second chunk is dropped from the work
    but not from the batch that is completed: request 2 leaves the queue and no
    first token is ever sent for it. *)
Theorem dropped_chunk_is_lost :
  exists w' sent, round (sample 1) f0 f1 = Some (w', sent) /\
    is_Some (Sched.queue (w_sched (sample 1)) !! 2) /\ Sched.queue (w_sched w') !! 2 = None /\
    map pc_id sent = [1].
Proof.
  destruct (round (sample 1) f0 f1) as [[w' sent]|] eqn:E; [|vm_compute in E; discriminate].
  exists w', sent. split; [done|].
  assert (match round (sample 1) f0 f1 with
    | Some (w', sent) => Sched.queue (w_sched w') !! 2 = None /\ map pc_id sent = [1]
    | None => False end) as H by (vm_compute; done).
  rewrite E in H. split; [by eexists|done].
Qed.
End PrefillW.

(** ** The decode worker *)

Module DecodeW.
Import Decoder.
Local Open Scope Z_scope.

Record DecodeAdmit := mkAdmit {
  ad_id : RequestId;
  ad_first_token : Z;
  ad_prompt_len : Z;
  ad_max_tokens : Z;
  ad_first_token_ms : f64
}.

Inductive DecodeEvent :=
  | EvToken (id : RequestId) (token : Z)
  | EvFinished (id : RequestId) (tokens_emitted : Z).

Section worker.
Context {E : Type} `{!Engine E}.

Record DecodeWorker := mkDWorker {
  d_id : WorkerId;
  d_engine : E;
  d_sched : DecodeScheduler;
  d_pool : BlockPool;
  d_kv : gmap Z (list nat);
  d_block_size : Z
}.

Definition dworker_new (id : WorkerId) (e : E) (s : DecodeScheduler) (num_blocks : nat)
    (bs : Z) (wm : f64) : DecodeWorker :=
  mkDWorker id e s (pool_new num_blocks bs wm) ∅ bs.

Definition set_d (w : DecodeWorker) (e : E) (s : DecodeScheduler) (p : BlockPool)
    (kv : gmap Z (list nat)) : DecodeWorker :=
  mkDWorker (d_id w) e s p kv (d_block_size w).

(** The admission loop over the pending queue: the worker and what is left
    pending. *)
Fixpoint admit_loop (w : DecodeWorker) (pending : list DecodeAdmit) : option (DecodeWorker * list DecodeAdmit) :=
  match pending with
  | [] => Some (w, [])
  | job :: rest =>
      let need := blocks_for (ad_prompt_len job + ad_max_tokens job) (d_block_size w) in
      let d := can_admit (d_sched w) (Pool.can_admit (d_pool w) need) in
      let s1 := note (d_sched w) d in
      if decide (d = Admit) then
        '(r, p1) ← alloc (d_pool w) (Z.to_nat need);
        match r with
        | Err _ => Some (set_d w (d_engine w) s1 p1 (d_kv w), pending)
        | Ok blocks =>
            let kv1 := <[ad_id job := blocks]> (d_kv w) in
            match add_decode_seq (d_engine w)
              (mkSeqSpec (ad_id job) (ad_prompt_len job) (ad_first_token job) (ad_max_tokens job) blocks) with
            | (e1, Err _) =>
                p2 ← release p1 blocks;
                admit_loop (set_d w e1 s1 p2 (delete (ad_id job) kv1)) rest
            | (e1, Ok _) =>
                let s2 := dec_admit s1 (seq_new (ad_id job) (ad_first_token_ms job) (ad_max_tokens job)) in
                admit_loop (set_d w e1 s2 p1 kv1) rest
            end
        end
      else Some (set_d w (d_engine w) s1 (d_pool w) (d_kv w), pending)
  end.

(** The sequences a step finished: their pages go back and the engine forgets
    them. *)
Fixpoint retire (e : E) (kv : gmap Z (list nat)) (pool : BlockPool) (dn : list RunningSeq)
    : option (E * gmap Z (list nat) * BlockPool) :=
  match dn with
  | [] => Some (e, kv, pool)
  | q :: dn =>
      '(kv1, p1) ← give_back kv pool (seq_id q);
      retire (remove_seq e (seq_id q)).1 kv1 p1 dn
  end.

(** One iteration of [run] with the jobs that arrived appended to [pending],
    at time [now] and with [now2] the time after the engine's step; what it
    sends, assuming the receiver is there. *)
Definition step (w : DecodeWorker) (pending : list DecodeAdmit) (now now2 : f64)
    : option (DecodeWorker * list DecodeAdmit * list DecodeEvent) :=
  '(w1, pending1) ← admit_loop w pending;
  if concurrency (d_sched w1) =? 0 then Some (w1, pending1, [])
  else
    '(e1, answer) ← decode_step (d_engine w1) now;
    match answer with
    | Err _ => Some (set_d w1 e1 (d_sched w1) (d_pool w1) (d_kv w1), pending1, [])
    | Ok o =>
        '(s2, dn) ← on_step (d_sched w1) now2 (so_elapsed_ms o) (so_tokens o).*1 (so_finished o);
        '(e2, kv2, p2) ← retire e1 (d_kv w1) (d_pool w1) dn;
        Some (set_d w1 e2 s2 p2 kv2, pending1,
          map (fun it => EvToken it.1 it.2) (so_tokens o) ++
          map (fun q => EvFinished (seq_id q) (tokens_emitted q)) dn)
    end.

(** *** The invariant *)

(** Times the clock produces. *)
Definition clock (x : f64) : Prop := valid x /\ is_finite x = true.

Context `{!EngineLaws E}.

Record dworker_inv (w : DecodeWorker) : Prop := {
  dw_sched : dec_inv (d_sched w);
  dw_engine : engine_ok (d_engine w);
  dw_pool : pool_inv (d_pool w) (owned (d_kv w));
  dw_kv : forall id, is_Some (d_kv w !! id) <-> is_Some (running (d_sched w) !! id);
  dw_clock : forall id q, running (d_sched w) !! id = Some q -> clock (admitted_ms q) /\ clock (seq_last_ms q)
}.

Lemma dworker_new_inv id e s n bs wm : engine_ok e -> running s = ∅ -> flagged s = ∅ ->
  dworker_inv (dworker_new id e s n bs wm).
Proof.
  intros He Hr Hf. split; cbn [dworker_new d_sched d_engine d_pool d_kv].
  - split; [intros i q; by rewrite Hr, lookup_empty|rewrite Hf; set_solver].
  - done.
  - rewrite owned_empty. apply pool_new_inv.
  - intros i. by rewrite Hr, !lookup_empty.
  - intros i q. by rewrite Hr, lookup_empty.
Qed.

(** Requests waiting to be admitted: new ones, each once. *)
Record pending_ok (w : DecodeWorker) (pending : list DecodeAdmit) : Prop := {
  pk_nodup : NoDup (map ad_id pending);
  pk_fresh : forall j, j ∈ pending -> running (d_sched w) !! ad_id j = None;
  pk_clock : forall j, j ∈ pending -> clock (ad_first_token_ms j)
}.

Lemma note_running s d : running (note s d) = running s /\ flagged (note s d) = flagged s.
Proof. by destruct d. Qed.

Lemma note_inv s d : dec_inv s -> dec_inv (note s d).
Proof. intros [H1 H2]. destruct (note_running s d) as [E1 E2]. split; by rewrite ?E1, ?E2. Qed.

Lemma pending_tail w w' j rest : pending_ok w (j :: rest) ->
  (forall id, id <> ad_id j -> running (d_sched w') !! id = running (d_sched w) !! id) -> pending_ok w' rest.
Proof.
  intros [H1 H2 H3] Hsame. cbn [map] in H1. apply NoDup_cons in H1 as [Hn H1]. split; [done| |].
  - intros j' Hj'. rewrite Hsame; [apply H2; by right|]. intros Heq. apply Hn. rewrite <- Heq.
    by apply list_elem_of_fmap_2.
  - intros j' Hj'. apply H3. by right.
Qed.

(** The worker that has taken a job. *)
Definition taken (w : DecodeWorker) (s1 : DecodeScheduler) (e1 : E) (p1 : BlockPool) (blocks : list nat)
    (j : DecodeAdmit) : DecodeWorker :=
  set_d w e1 (dec_admit s1 (seq_new (ad_id j) (ad_first_token_ms j) (ad_max_tokens j))) p1
    (<[ad_id j := blocks]> (d_kv w)).

Lemma taken_ok w s1 e1 p1 blocks j pending : dworker_inv w -> pending_ok w (j :: pending) -> dec_inv s1 ->
  running s1 = running (d_sched w) -> engine_ok e1 -> pool_inv p1 (blocks ++ owned (d_kv w)) ->
  dworker_inv (taken w s1 e1 p1 blocks j) /\ pending_ok (taken w s1 e1 p1 blocks j) pending.
Proof.
  intros [Hs He Hi Hk Hc] Hp Hs1 Hr He1 Hi1. unfold taken. set (q := seq_new _ _ _).
  assert (running (d_sched w) !! ad_id j = None) as Hfresh by (apply (pk_fresh _ _ Hp); left).
  assert (d_kv w !! ad_id j = None) as Hkn.
  { destruct (d_kv w !! ad_id j) eqn:Eq; [|done]. exfalso.
    assert (is_Some (d_kv w !! ad_id j)) as Hss by eauto. apply Hk in Hss. rewrite Hfresh in Hss.
    by destruct Hss. }
  split.
  - split; cbn [set_d d_sched d_engine d_pool d_kv dec_admit set_running running].
    + by apply dec_admit_inv.
    + done.
    + by rewrite owned_insert.
    + intros id. rewrite Hr. destruct (decide (id = ad_id j)) as [->|Hne].
      * cbn [q seq_new seq_id]. rewrite !lookup_insert_eq. split; by eexists.
      * cbn [q seq_new seq_id]. by rewrite !lookup_insert_ne by done.
    + intros id q'. rewrite Hr. intros [[_ <-]|[_ Hq]]%lookup_insert_Some; [|by eapply Hc].
      cbn [q seq_new admitted_ms seq_last_ms]. split; apply (pk_clock _ _ Hp); left.
  - eapply pending_tail; [exact Hp|]. intros id Hne. cbn [set_d d_sched dec_admit set_running running].
    rewrite Hr. cbn [q seq_new seq_id]. by rewrite lookup_insert_ne.
Qed.

(** The engine is told of a job and refuses it, or takes it. *)
Lemma admit_loop_spec pending : forall w, dworker_inv w -> pending_ok w pending ->
  exists w' rest, admit_loop w pending = Some (w', rest) /\ dworker_inv w' /\ pending_ok w' rest /\
    rest `suffix_of` pending /\
    concurrency (d_sched w') <= concurrency (d_sched w) + Z.of_nat (length pending - length rest).
Proof.
  induction pending as [|j pending IH]; intros w Hw Hp; cbn [admit_loop].
  { exists w, []. split; [done|]. split; [done|]. split; [done|]. split; [done|]. cbn [length]. lia. }
  pose proof Hw as [Hs He Hi Hk Hc].
  set (need := blocks_for _ _). set (d := can_admit _ _). set (s1 := note (d_sched w) d).
  destruct (note_running (d_sched w) d) as [Hr _]. fold s1 in Hr.
  assert (dec_inv s1) as Hs1 by by apply note_inv.
  assert (concurrency s1 = concurrency (d_sched w)) as Hcc by (unfold concurrency; by rewrite Hr).
  assert (forall p, pool_inv p (owned (d_kv w)) -> dworker_inv (set_d w (d_engine w) s1 p (d_kv w)) /\
    pending_ok (set_d w (d_engine w) s1 p (d_kv w)) (j :: pending)) as Hstay.
  { intros p Hip. split; [split; cbn [set_d d_sched d_engine d_pool d_kv]; rewrite ?Hr; done|].
    destruct Hp. split; cbn [set_d d_sched]; rewrite ?Hr; done. }
  destruct (decide (d = Admit)) as [Hd|Hd].
  2: { destruct (Hstay (d_pool w) Hi) as [H1 H2]. eexists _, _. split; [reflexivity|].
       split; [done|]. split; [done|]. split; [done|]. cbn [set_d d_sched]. lia. }
  destruct (alloc_total (d_pool w) _ (Z.to_nat need) Hi) as [(blocks & p1 & -> & Hi1 & _)|[er ->]];
    cbn [mbind option_bind].
  2: { destruct (Hstay (d_pool w) Hi) as [H1 H2]. eexists _, _. split; [reflexivity|].
       split; [done|]. split; [done|]. split; [done|]. cbn [set_d d_sched]. lia. }
  assert (running (d_sched w) !! ad_id j = None) as Hfresh by (apply (pk_fresh _ _ Hp); left).
  set (sp := mkSeqSpec _ _ _ _ _). pose proof (add_ok (d_engine w) sp He) as He1.
  destruct (add_decode_seq (d_engine w) sp) as [e1 [u|er]]; cbn [fst] in He1.
  - set (q := seq_new _ _ _).
    destruct (taken_ok w s1 e1 p1 blocks j pending Hw Hp Hs1 Hr He1 Hi1) as [Hw1 Hp1].
    destruct (IH (taken w s1 e1 p1 blocks j) Hw1 Hp1) as (w' & rest & Hal & Hw' & Hp' & Hsuf & Hconc).
    unfold taken in Hal. fold q in Hal. rewrite Hal.
    exists w', rest. split; [done|]. split; [done|]. split; [done|].
      split; [by apply suffix_cons_r|]. cbn [taken set_d d_sched] in Hconc. fold q in Hconc.
      assert (concurrency (dec_admit s1 q) <= concurrency (d_sched w) + 1) as Hca.
      { unfold concurrency, dec_admit. cbn [set_running running]. rewrite Hr. cbn [q seq_new seq_id].
        rewrite map_size_insert. rewrite Hfresh. lia. }
      apply suffix_length in Hsuf. cbn [length]. lia.
  - destruct (release_spec blocks p1 (owned (d_kv w)) Hi1) as (p2 & -> & Hi2). cbn [mbind option_bind].
    destruct (IH (set_d w e1 s1 p2 (delete (ad_id j) (<[ad_id j := blocks]> (d_kv w))))) as
      (w' & rest & -> & Hw' & Hp' & Hsuf & Hconc).
    + rewrite delete_insert_id.
      2: { destruct (d_kv w !! ad_id j) eqn:Eq; [|done]. assert (is_Some (d_kv w !! ad_id j)) as Hss by eauto.
           apply Hk in Hss. rewrite Hfresh in Hss. by destruct Hss. }
      split; cbn [set_d d_sched d_engine d_pool d_kv]; rewrite ?Hr; done.
    + eapply pending_tail; [exact Hp|]. intros id Hne. cbn [set_d d_sched]. by rewrite Hr.
    + exists w', rest. split; [done|]. split; [done|]. split; [done|].
      split; [by apply suffix_cons_r|]. cbn [set_d d_sched] in Hconc.
      apply suffix_length in Hsuf. cbn [length]. lia.
Qed.

Lemma retire_eq dn : forall e kv pool,
  retire e kv pool dn =
  ('(kv', p') ← give_back_all kv pool (map seq_id dn);
   Some (foldl (fun e q => (remove_seq e (seq_id q)).1) e dn, kv', p')).
Proof.
  induction dn as [|q dn IH]; intros e kv pool; cbn [retire map give_back_all foldl]; [done|].
  destruct (give_back kv pool (seq_id q)) as [[kv1 p1]|]; cbn [mbind option_bind]; [|done]. apply IH.
Qed.

Lemma remove_all_ok (dn : list RunningSeq) : forall e, engine_ok e ->
  engine_ok (foldl (fun e q => (remove_seq e (seq_id q)).1) e dn).
Proof. induction dn as [|q dn IH]; intros e He; cbn [foldl]; [done|]. by apply IH, remove_ok. Qed.

Lemma clock_age now q : clock now -> clock (admitted_ms q) -> clock (seq_last_ms q) -> is_nan (age now q) = false.
Proof.
  intros [Vn Fn] [Va Fa] [Vl Fl]. unfold age.
  assert (clock (fmax (seq_last_ms q) (admitted_ms q))) as [Vm Fm].
  { unfold fmax. destruct (is_nan _); [done|]. destruct (is_nan _); [done|]. by destruct (flt _ _). }
  apply (fsub_faithful now _ Vn Vm Fn Fm).
Qed.

(** An iteration, cut at the end of admission. *)
Lemma decode_step_spec (w : DecodeWorker) (pending : list DecodeAdmit) (now now2 : f64) :
  dworker_inv w -> pending_ok w pending -> clock now2 ->
  concurrency (d_sched w) + Z.of_nat (length pending) <= 2 ^ 53 ->
  exists w1 rest w' ev, admit_loop w pending = Some (w1, rest) /\ dworker_inv w1 /\
    step w pending now now2 = Some (w', rest, ev) /\
    dworker_inv w' /\ pending_ok w' rest /\ rest `suffix_of` pending /\
    (forall id, is_Some (running (d_sched w') !! id) -> is_Some (running (d_sched w1) !! id)) /\
    (forall id n, EvFinished id n ∈ ev -> is_Some (running (d_sched w1) !! id) /\
       running (d_sched w') !! id = None /\ d_kv w' !! id = None).
Proof.
  intros Hw Hp Hnow Hsize. unfold step.
  destruct (admit_loop_spec pending w Hw Hp) as (w1 & rest & -> & Hw1 & Hp1 & Hsuf & Hconc).
  exists w1, rest.
  cbn [mbind option_bind]. pose proof Hw1 as [Hs He Hi Hk Hc].
  destruct (Z.eqb_spec (concurrency (d_sched w1)) 0).
  { exists w1, []. repeat (split; [done|]). by intros ? ? ?%not_elem_of_nil. }
  pose proof (step_distinct (d_engine w1)) as Hdist.
  destruct (step_ok (d_engine w1) now He) as (e1 & [o|er] & Hstep & He1); rewrite Hstep; cbn [mbind option_bind].
  2: { eexists _, []. split; [done|]. split; [done|]. split; [reflexivity|].
       split; [by split|]. split; [by destruct Hp1|]. split; [done|]. split; [done|]. by intros ? ? ?%not_elem_of_nil. }
  specialize (Hdist e1 now o He Hstep).
  destruct (on_step_spec (d_sched w1) now2 (so_elapsed_ms o) (so_tokens o).*1 (so_finished o) Hs Hdist)
    as (s2 & dn & -> & Hs2 & Hrun & Hdn & _).
  { lia. }
  { intros q Hq. unfold values in Hq. apply list_elem_of_fmap in Hq as ([id q'] & -> & Hq).
    apply elem_of_map_to_list in Hq. destruct (Hc _ _ Hq). by apply clock_age. }
  cbn [mbind option_bind]. rewrite retire_eq.
  destruct (give_back_all_spec (map seq_id dn) (d_kv w1) (d_pool w1) Hi) as (kv2 & p2 & -> & Hi2 & Hk2).
  cbn [mbind option_bind].
  assert (forall id q, after_tokens (d_sched w1) now2 (so_tokens o).*1 id = Some q ->
    exists q0, running (d_sched w1) !! id = Some q0 /\ seq_id q = seq_id q0 /\
      clock (admitted_ms q) /\ clock (seq_last_ms q)) as Hat.
  { intros id q. unfold after_tokens. destruct (decide _).
    - intros (q0 & Hq0 & ->)%fmap_Some. destruct (Hc _ _ Hq0). exists q0. done.
    - intros Hq. destruct (Hc _ _ Hq). by exists q. }
  assert (forall id, is_Some (after_tokens (d_sched w1) now2 (so_tokens o).*1 id) <->
    is_Some (running (d_sched w1) !! id)) as Hsome.
  { intros id. unfold after_tokens. destruct (decide _); [|done]. by rewrite fmap_is_Some. }
  assert (forall id, id ∈ map seq_id dn <-> id ∈ so_finished o /\ is_Some (running (d_sched w1) !! id)) as Hids.
  { intros id. split.
    - intros (q & -> & Hq)%list_elem_of_fmap. apply Hdn in Hq as (i & Hf & Hq).
      destruct (Hat _ _ Hq) as (q0 & Hq0 & Hsid & _).
      assert (seq_id q = i) as -> by (rewrite Hsid; by apply (di_keys _ Hs)). split; [done|eauto].
    - intros [Hf Hr]. apply Hsome in Hr as [q Hq]. destruct (Hat _ _ Hq) as (q0 & Hq0 & Hsid & _).
      apply list_elem_of_fmap. exists q. split; [|apply Hdn; eauto].
      rewrite Hsid. symmetry. by apply (di_keys _ Hs). }
  assert (forall id, is_Some (kv2 !! id) <-> is_Some (running s2 !! id)) as Hk3.
  { intros id. rewrite Hk2, Hrun. destruct (decide (id ∈ map seq_id dn)) as [Hin|Hnin].
    - apply Hids in Hin as [Hf _]. rewrite decide_True by done. done.
    - rewrite Hk, <- Hsome. destruct (decide (id ∈ so_finished o)) as [Hf|Hf]; [|done].
      split; [|by intros [? ?]]. intros Hr. exfalso. apply Hnin, Hids. split; [done|]. by apply Hsome. }
  eexists _, _. split; [done|]. split; [done|]. split; [reflexivity|]. split; [|split; [|split; [|split]]].
  - split; cbn [set_d d_sched d_engine d_pool d_kv]; [done|by apply remove_all_ok|done|done|].
    intros id q. rewrite Hrun. destruct (decide _); [done|]. intros Hq.
    by destruct (Hat _ _ Hq) as (_ & _ & _ & ?).
  - destruct Hp1 as [N1 N2 N3]. split; cbn [set_d d_sched]; [done| |done].
    intros j Hj. rewrite Hrun. destruct (decide _); [done|]. unfold after_tokens. rewrite (N2 j Hj).
    by destruct (decide _).
  - done.
  - cbn [set_d d_sched]. intros id. rewrite Hrun. destruct (decide _); [by intros []|]. apply Hsome.
  - cbn [set_d d_sched d_kv]. intros id n0 [Hin|Hin]%elem_of_app.
    { apply list_elem_of_fmap in Hin as (? & ? & _). done. }
    apply list_elem_of_fmap in Hin as (q & [= -> _] & Hq).
    assert (seq_id q ∈ map seq_id dn) as Hm by by apply list_elem_of_fmap_2.
    rewrite Hk2, decide_True by done. apply Hids in Hm as [Hf Hr1].
    by rewrite Hrun, decide_True.
Qed.
(** Admission takes a prefix of the queue: what runs, and what the engine was
    given, comes of what there was and of that prefix. *)
Lemma admit_loop_takes `{!EngineTracks E} pending : forall w w' rest, engine_ok (d_engine w) ->
  admit_loop w pending = Some (w', rest) ->
  engine_ok (d_engine w') /\ d_id w' = d_id w /\ exists taken, pending = taken ++ rest /\
    (forall id, is_Some (running (d_sched w') !! id) -> is_Some (running (d_sched w) !! id) \/ id ∈ map ad_id taken) /\
    (forall id, tracked (d_engine w') id -> tracked (d_engine w) id \/ id ∈ map ad_id taken).
Proof.
  induction pending as [|j pending IH]; intros w w' rest He; cbn [admit_loop].
  { intros [= <- <-]. split; [done|]. split; [done|]. exists []. split; [done|]. split; by left. }
  set (d := can_admit _ _). set (s1 := note (d_sched w) d).
  assert (running s1 = running (d_sched w)) as Hr by by destruct (note_running (d_sched w) d).
  assert (forall w1, d_sched w1 = s1 -> d_engine w1 = d_engine w -> d_id w1 = d_id w ->
    engine_ok (d_engine w1) /\ d_id w1 = d_id w /\ exists taken, j :: pending = taken ++ j :: pending /\
    (forall id, is_Some (running (d_sched w1) !! id) -> is_Some (running (d_sched w) !! id) \/ id ∈ map ad_id taken) /\
    (forall id, tracked (d_engine w1) id -> tracked (d_engine w) id \/ id ∈ map ad_id taken)) as Hstay.
  { intros w1 -> -> ->. split; [done|]. split; [done|]. exists []. rewrite Hr. split; [done|]. split; by left. }
  destruct (decide (d = Admit)); [|by intros [= <- <-]; apply Hstay].
  destruct (alloc _ _) as [[[blocks|er] p1]|]; cbn [mbind option_bind]; [|by intros [= <- <-]; apply Hstay|done].
  set (sp := mkSeqSpec _ _ _ _ _).
  pose proof (add_ok (d_engine w) sp He) as He1. pose proof (tracked_add (d_engine w) sp) as Ht1.
  destruct (add_decode_seq (d_engine w) sp) as [e1 [u|er]]; cbn [fst] in He1, Ht1.
  - intros (Ho & Hid & taken & -> & Hrun & Htr)%IH; [|done]. split; [done|]. split; [done|].
    exists (j :: taken). split; [done|]. cbn [map]. split; intros id Hi.
    + apply Hrun in Hi as [Hi|Hi]; [|by right; right]. cbn [set_d d_sched dec_admit set_running running] in Hi.
      rewrite Hr in Hi. destruct (decide (id = ad_id j)) as [->|Hne]; [right; left|left].
      cbn [seq_new seq_id] in Hi. by rewrite lookup_insert_ne in Hi.
    + apply Htr in Hi as [Hi|Hi]; [|by right; right]. cbn [set_d d_engine] in Hi.
      apply Ht1 in Hi as [->|Hi]; [right; left|by left|done].
  - destruct (release _ _) as [p2|]; cbn [mbind option_bind]; [|done].
    intros (Ho & Hid & taken & -> & Hrun & Htr)%IH; [|done]. split; [done|]. split; [done|].
    exists (j :: taken). split; [done|]. cbn [map]. split; intros id Hi.
    + apply Hrun in Hi as [Hi|Hi]; [|by right; right]. cbn [set_d d_sched] in Hi. rewrite Hr in Hi. by left.
    + apply Htr in Hi as [Hi|Hi]; [|by right; right]. cbn [set_d d_engine] in Hi.
      apply Ht1 in Hi as [->|Hi]; [right; left|by left|done].
Qed.

Lemma remove_all_tracked `{!EngineTracks E} (dn : list RunningSeq) id : forall e, engine_ok e ->
  tracked (foldl (fun e q => (remove_seq e (seq_id q)).1) e dn) id -> tracked e id.
Proof.
  induction dn as [|q dn IH]; intros e He; cbn [foldl]; [done|].
  intros H%IH; [|by apply remove_ok]. by eapply tracked_remove.
Qed.

(** What an iteration emits is about sequences the engine was given. *)
Lemma step_tracks `{!EngineTracks E} w pending now now2 w1 rest w' ev : engine_ok (d_engine w1) ->
  admit_loop w pending = Some (w1, rest) -> step w pending now now2 = Some (w', rest, ev) ->
  d_id w' = d_id w1 /\
  (forall id, tracked (d_engine w') id -> tracked (d_engine w1) id) /\
  (forall id token, EvToken id token ∈ ev -> tracked (d_engine w1) id).
Proof.
  intros He Ha. unfold step. rewrite Ha. cbn [mbind option_bind].
  destruct (_ =? 0). { intros [= <- <-]. split; [done|]. split; [done|]. by intros ? ? ?%not_elem_of_nil. }
  pose proof (tokens_tracked (d_engine w1)) as Htok.
  destruct (step_ok (d_engine w1) now He) as (e1 & r & Hst & He1).
  assert (forall id, tracked e1 id -> tracked (d_engine w1) id) as Ht1 by (intros id; by apply (tracked_step _ _ _ _ id He Hst)).
  rewrite Hst. destruct r as [o|er]; cbn [mbind option_bind].
  2: { intros [= <- <-]. split; [done|]. split; [intros id; by apply Ht1|]. by intros ? ? ?%not_elem_of_nil. }
  destruct (on_step _ _ _ _ _) as [[s2 dn]|]; cbn [mbind option_bind]; [|done]. rewrite retire_eq.
  destruct (give_back_all _ _ _) as [[kv2 p2]|]; cbn [mbind option_bind]; [|done].
  intros [= <- <-]. split; [done|]. split.
  - intros id H. cbn [set_d d_engine] in H. by apply Ht1, (remove_all_tracked dn).
  - intros id token [(it & Hit & Hin)%list_elem_of_fmap|(q & Hq & _)%list_elem_of_fmap]%elem_of_app; [|done].
    injection Hit as -> _. eapply (Htok e1 now o); [done|done|]. apply list_elem_of_fmap. by exists it.
Qed.

(** A job whose worst case does not fit the whole pool blocks the queue for
    ever: it stays at its head, and so does everything behind it. *)
Theorem oversized_job_blocks (w : DecodeWorker) (job : DecodeAdmit) (rest : list DecodeAdmit) (now now2 : f64) w' pending' out :
  dworker_inv w ->
  Z.of_nat (total (d_pool w)) < blocks_for (ad_prompt_len job + ad_max_tokens job) (d_block_size w) ->
  step w (job :: rest) now now2 = Some (w', pending', out) -> pending' = job :: rest.
Proof.
  intros Hw Hbig. unfold step. cbn [admit_loop].
  assert (Pool.can_admit (d_pool w) (blocks_for (ad_prompt_len job + ad_max_tokens job) (d_block_size w)) = false) as ->.
  { apply Z.leb_gt. pose proof (available_total _ _ (dw_pool _ Hw)). pose proof (reserve_nonneg (d_pool w)). lia. }
  cbn [can_admit can_admit_over negb]. rewrite decide_False by done. cbn [mbind option_bind].
  destruct (_ =? 0); [by intros [= _ <- _]|]. destruct (decode_step _ _) as [[e1 [o|e]]|]; cbn [mbind option_bind];
    [|by intros [= _ <- _]|done].
  destruct (on_step _ _ _ _ _) as [[s2 dn]|]; cbn [mbind option_bind]; [|done].
  destruct (retire _ _ _ _) as [[[e2 kv2] p2]|]; cbn [mbind option_bind]; [|done]. by intros [= _ <- _].
Qed.

(** A decode worker holds pages for exactly the sequences it runs. From
    such a worker, its engine in order and whatever it answers, an iteration of the loop
    terminates without panicking in such a worker: admission takes jobs from
    the front of the queue, in order; and a sequence reported finished has
    left the batch and holds no page. *)
Theorem decode_step_accounts (w : DecodeWorker) (pending : list DecodeAdmit) (now now2 : f64) :
  dworker_inv w -> pending_ok w pending -> clock now2 ->
  concurrency (d_sched w) + Z.of_nat (length pending) <= 2 ^ 53 ->
  exists w' rest ev, step w pending now now2 = Some (w', rest, ev) /\
    dworker_inv w' /\ pending_ok w' rest /\ rest `suffix_of` pending /\
    (forall id n, EvFinished id n ∈ ev -> running (d_sched w') !! id = None /\ d_kv w' !! id = None).
Proof.
  intros Hw Hp Hnow Hsize.
  destruct (decode_step_spec w pending now now2 Hw Hp Hnow Hsize) as
    (w1 & rest & w' & ev & _ & _ & Hs & Hw' & Hp' & Hsuf & _ & Hfin).
  exists w', rest, ev. repeat (split; [done|]). intros id n Hin. by destruct (Hfin id n Hin).
Qed.

End worker.

Definition dsample : DecodeWorker (E := Mock.MockEngine) :=
  dworker_new 1000 (Mock.mock_decode_worker "m" [] 4 64 Mock.cost_sample Mock.Virtual)
    (dec_new (of_Z 20) (ctl_new (of_Z 20) (of_Z 4) (of_Z 1) (of_Z 64))) 64 16 f0.

Definition jobs_sample : list DecodeAdmit := [mkAdmit 1 5 30 2 (of_Z 1); mkAdmit 2 6 40 8 (of_Z 2)].

Lemma clock_of_Z n : small n -> clock (of_Z n).
Proof. intros. split; auto with f64. Qed.

Lemma dsample_inv : dworker_inv dsample.
Proof. apply dworker_new_inv; [|done|done]. split; [|discriminate]. intros i q. cbn. by rewrite lookup_empty. Qed.

Lemma jobs_sample_ok : pending_ok dsample jobs_sample.
Proof.
  split.
  - apply (bool_decide_unpack _). vm_compute. exact I.
  - intros j _. cbn. by rewrite lookup_empty.
  - intros j Hj. unfold jobs_sample in Hj. rewrite !elem_of_cons in Hj.
    destruct Hj as [->|[->|Hj%not_elem_of_nil]]; [| |done]; by apply clock_of_Z.
Qed.

Lemma decode_step_accounts_witness :
  exists w' rest ev, step dsample jobs_sample (of_Z 3) (of_Z 4) = Some (w', rest, ev) /\ dworker_inv w'.
Proof.
  destruct (decode_step_accounts dsample jobs_sample (of_Z 3) (of_Z 4) dsample_inv jobs_sample_ok
    ltac:(by apply clock_of_Z) ltac:(vm_compute; discriminate)) as (w' & rest & ev & H1 & H2 & _).
  exists w', rest, ev. split; [exact H1|exact H2].
Defined.
End DecodeW.
