(* ===== verification/PrefillLive.v ===== *)
(** * Prefill workers finish what fits ([crates/worker/src/prefill_worker.rs])

    While the pages of all queued prompts fit in the pool, a round resolves the
    whole batch it planned: every chunk is computed, the requests whose prompt is
    done are announced and leave, and the others advance. *)

From Stdlib Require Import ZArith Lia.
From stdpp Require Import base option list numbers gmap.
From S2P Require Import Prelude Sums F64 F64Int Core Pool Policy Prefill Engine Worker.

Module Prefilling.
Import PrefillW.
Local Open Scope Z_scope.

Definition blen (_ : Z) (bs : list nat) : Z := Z.of_nat (length bs).

Lemma owned_length kv : Z.of_nat (length (owned kv)) = msum blen kv.
Proof.
  unfold owned, msum. generalize (map_to_list kv). intros l. induction l as [|[i bs] l IH]; [done|].
  cbn [fmap list_fmap concat snd]. rewrite zsum_cons, length_app. unfold blen in *. cbn [fst snd] in *.
  change (snd <$> l) with (l.*2) in *. lia.
Qed.

Section worker.
Context {E : Type} `{!Engine E} `{!EngineLaws E} `{!EngineServes E}.
Implicit Types w : PrefillWorker (E := E).

Abbreviation queue_of w := (Sched.queue (w_sched w)).

(** The pages a queued prompt takes when it is done. *)
Definition pages (bs : Z) (_ : Z) (p : Sched.PendingPrefill) : Z := blocks_for (Sched.compute_tokens p) bs.

Definition pages_queued w : Z := msum (pages (w_block_size w)) (queue_of w).
Definition capacity w : Z := Z.of_nat (total (w_pool w)) - reserve (w_pool w).

(** No request holds more pages than its prompt takes. *)
Definition held_ok (bs : Z) (q : gmap Z Sched.PendingPrefill) (kv : gmap Z (list nat)) : Prop :=
  forall id p, q !! id = Some p -> Z.of_nat (length (default [] (kv !! id))) <= pages bs id p.

Record tuned (t : Sched.PrefillTuning) : Prop := {
  tu_chunk : 0 < Sched.chunk_tokens t;
  tu_seqs : (0 < Sched.max_seqs t)%nat;
  tu_demote : Sched.demote_hopeless t = true
}.

(** A worker in order, whose scheduler leaves nothing out and whose queue holds
    nothing that is done. *)
Record pserved w : Prop := {
  pv_inv : worker_inv w;
  pv_engine : serves (w_engine w);
  pv_held : held_ok (w_block_size w) (queue_of w) (w_kv w);
  pv_tuned : tuned (Sched.tuning (w_sched w));
  pv_todo : forall id p, queue_of w !! id = Some p -> 0 < Sched.remaining p
}.

(** What the pages of the requests amount to. *)
Lemma held_fits bs q kv : held_ok bs q kv -> (forall id, is_Some (kv !! id) -> is_Some (q !! id)) -> msum blen kv <= msum (pages bs) q.
Proof.
  intros Hh Hd. set (ks := (map_to_list q).*1).
  rewrite (msum_keys blen kv ks), (msum_keys (pages bs) q ks).
  - apply zsum_le. intros id [p Hp]%keys_elem. specialize (Hh id p Hp). unfold part. rewrite Hp.
    destruct (kv !! id) eqn:Ek; cbn [default] in Hh; unfold blen; [done|cbn in Hh; lia].
  - apply NoDup_fst_map_to_list.
  - intros id H. by apply keys_elem.
  - apply NoDup_fst_map_to_list.
  - intros id H. by apply keys_elem, Hd.
Qed.

Lemma extend_length kv id bs : msum blen (extend kv id bs) = msum blen kv + Z.of_nat (length bs).
Proof. rewrite <- !owned_length, owned_extend, length_app. lia. Qed.

Lemma extend_held kv id bs i :
  length (default [] (extend kv id bs !! i)) = (length (default [] (kv !! i)) + if decide (i = id) then length bs else 0)%nat.
Proof.
  unfold extend. destruct (decide (i = id)) as [->|Hne].
  - rewrite lookup_insert_eq. exact (length_app _ _).
  - rewrite lookup_insert_ne by done. lia.
Qed.

(** With room for everything, every chunk of a batch finds its pages. *)
Lemma resolve_all prompts bs q : forall cs kv pool work,
  pool_inv pool (owned kv) -> held_ok bs q kv -> (forall id, is_Some (kv !! id) -> is_Some (q !! id)) ->
  msum (pages bs) q + reserve pool <= Z.of_nat (total pool) ->
  Forall (fun c => exists prompt p, prompts !! Sched.cid c = Some prompt /\ q !! Sched.cid c = Some p /\
    Sched.compute_tokens p = Z.of_nat (length prompt) /\
    0 <= Sched.start c <= Z.of_nat (length prompt) /\ 0 < Sched.tokens c) cs ->
  exists kv' pool' more, resolve prompts bs cs kv pool work = Some (kv', pool', work ++ more) /\
    length more = length cs /\ pool_inv pool' (owned kv') /\ held_ok bs q kv' /\ same_size pool pool' /\
    (forall id, is_Some (kv' !! id) -> is_Some (q !! id)).
Proof.
  induction cs as [|c cs IH]; intros kv pool work Hi Hh Hd Hroom Hall; cbn [resolve].
  { exists kv, pool, []. rewrite app_nil_r. done. }
  apply Forall_cons in Hall as [(prompt & p & Hp & Hq & Hc & Hst & Htok) Hall]. rewrite Hp.
  set (last := Z.min _ _). assert (Sched.start c <= last) as Hlast by lia.
  assert (forall kv1 pool1 sp, pool_inv pool1 (owned kv1) -> held_ok bs q kv1 -> same_size pool pool1 ->
    (forall id, is_Some (kv1 !! id) -> is_Some (q !! id)) ->
    exists kv' pool' more, resolve prompts bs cs kv1 pool1 (work ++ [sp]) = Some (kv', pool', work ++ more) /\
      length more = length (c :: cs) /\ pool_inv pool' (owned kv') /\ held_ok bs q kv' /\ same_size pool pool' /\
      (forall id, is_Some (kv' !! id) -> is_Some (q !! id))) as Hnext.
  { intros kv1 pool1 sp Hi1 Hh1 Hs1 Hd1. destruct (IH kv1 pool1 (work ++ [sp])) as (kv' & pool' & more & -> & Hl & H1 & H2 & H3 & H4); try done.
    { rewrite (same_size_reserve _ _ Hs1), (proj1 Hs1). done. }
    exists kv', pool', (sp :: more). rewrite <- app_assoc. split; [done|]. split; [cbn [length]; by rewrite Hl|].
    split; [done|]. split; [done|]. split; [|done]. by eapply same_size_trans. }
  rewrite (proj2 (Z.ltb_ge last (Sched.start c))) by done.
  set (held := Z.of_nat (length (default [] (kv !! Sched.cid c)))).
  destruct (Z.ltb_spec 0 (sat_sub (blocks_for last bs) held)) as [Hex|Hex]; [|by apply Hnext].
  set (extra := sat_sub (blocks_for last bs) held) in *.
  assert (blocks_for last bs <= blocks_for (Sched.compute_tokens p) bs) as Hbl by (apply blocks_for_mono; lia).
  assert (held + extra <= pages bs (Sched.cid c) p) as Hpg by (unfold extra, sat_sub, pages in *; lia).
  assert (forall blocks, length blocks = Z.to_nat extra -> held_ok bs q (extend kv (Sched.cid c) blocks)) as Hh1.
  { intros blocks Hl id p' Hp'. rewrite extend_held. destruct (decide (id = Sched.cid c)) as [->|Hne].
    - assert (p' = p) as -> by congruence. unfold held in Hpg. lia.
    - specialize (Hh id p' Hp'). lia. }
  assert (forall blocks, forall id, is_Some (extend kv (Sched.cid c) blocks !! id) -> is_Some (q !! id)) as Hd1.
  { intros blocks id. unfold extend. intros [<-|[_ H]]%lookup_insert_is_Some; [by eexists|by apply Hd]. }
  assert (extra + reserve pool <= Z.of_nat (available pool)) as Havail.
  { pose proof (held_fits bs q (extend kv (Sched.cid c) (replicate (Z.to_nat extra) 0%nat)) (Hh1 _ (length_replicate _ _)) (Hd1 _)) as Hf.
    rewrite extend_length, length_replicate in Hf. pose proof (available_rest _ _ Hi) as Har.
    pose proof (owned_length kv). lia. }
  assert (can_admit pool extra = true) as -> by (apply Z.leb_le; lia). cbn [negb].
  destruct (alloc_total pool (owned kv) (Z.to_nat extra) Hi) as [(blocks & pool1 & Hal & Hi1 & Hl)|[er Hal]].
  2: { exfalso. unfold alloc in Hal. pose proof (reserve_nonneg pool). destruct (decide _) as [Hlt|_]; [lia|].
       destruct (alloc_loop _ _ _) as [[]|]; done. }
  rewrite Hal. cbn [mbind option_bind]. apply Hnext; [by rewrite owned_extend|by apply Hh1|by eapply alloc_size|apply Hd1].
Qed.
(** A new prompt that is not empty. *)
Lemma enqueue_serves w job : pserved w -> queue_of w !! job_id job = None -> (0 < length (job_prompt job))%nat ->
  pserved (enqueue w job).
Proof.
  intros [Hi He Hh Ht Hd] Hn Hl. split.
  - by apply job_enqueue_inv.
  - done.
  - cbn [enqueue w_sched w_kv w_block_size Sched.enqueue Sched.queue Sched.pid].
    intros id p [[<- <-]|[_ Hp]]%lookup_insert_Some; [|by apply Hh].
    assert (w_kv w !! job_id job = None) as ->.
    { destruct (w_kv w !! job_id job) eqn:Ek; [|done]. exfalso. assert (is_Some (w_kv w !! job_id job)) as Hs by eauto.
      apply (wi_kv _ Hi) in Hs. rewrite Hn in Hs. by destruct Hs. }
    cbn. unfold pages. apply blocks_for_nonneg. cbn. lia.
  - done.
  - cbn [enqueue w_sched Sched.enqueue Sched.queue Sched.pid].
    intros id p [[<- <-]|[_ Hp]]%lookup_insert_Some; [|by eapply Hd]. unfold Sched.remaining, sat_sub. cbn. lia.
Qed.

(** What a job becomes in the queue. *)
Definition pending_of (job : PrefillJob) : Sched.PendingPrefill :=
  Sched.mkPending (job_id job) (job_arrival_ms job) (job_deadline_ms job) (Z.of_nat (length (job_prompt job))) 0.

Lemma enqueue_all_serves jobs : forall w, pserved w -> NoDup (map job_id jobs) ->
  (forall j, j ∈ jobs -> queue_of w !! job_id j = None) -> Forall (fun j => (0 < length (job_prompt j))%nat) jobs ->
  let w' := foldl enqueue w jobs in
  pserved w' /\ capacity w' = capacity w /\ w_block_size w' = w_block_size w /\
  (forall f, msum f (queue_of w') = zsum (fun j => f (job_id j) (pending_of j)) jobs + msum f (queue_of w)) /\
  (forall id p, queue_of w' !! id = Some p ->
     queue_of w !! id = Some p \/ exists j, j ∈ jobs /\ job_id j = id /\ p = pending_of j).
Proof.
  induction jobs as [|j jobs IH]; intros w Hw Hnd Hf Hl; cbn [foldl].
  { split; [done|]. split; [done|]. split; [done|]. split; [done|]. by left. }
  cbn [map] in Hnd. apply NoDup_cons in Hnd as [Hn Hnd]. apply Forall_cons in Hl as [Hj Hl].
  assert (queue_of w !! job_id j = None) as Hnew by (apply Hf; left).
  destruct (IH (enqueue w j)) as (H1 & H2 & H3 & H4 & H5); [by apply enqueue_serves|done| |done|].
  { intros i Hi. cbn [enqueue w_sched Sched.enqueue Sched.queue Sched.pid]. rewrite lookup_insert_ne; [apply Hf; by right|].
    intros Heq. apply Hn. rewrite Heq. by apply list_elem_of_fmap_2. }
  split; [done|]. split; [exact H2|]. split; [exact H3|]. split.
  - intros f. rewrite H4, zsum_cons. cbn [enqueue w_sched Sched.enqueue Sched.queue Sched.pid].
    rewrite msum_insert by done. unfold pending_of. lia.
  - intros id p [Hp|(i & Hi & <- & ->)]%H5; [|right; exists i; split; [by right|done]].
    cbn [enqueue w_sched Sched.enqueue Sched.queue Sched.pid] in Hp.
    apply lookup_insert_Some in Hp as [[<- <-]|[_ Hp]]; [|by left]. right. exists j. split; [left|done].
Qed.

(** A round that computes the whole batch it planned. *)
Record rounds w (b : Sched.PrefillBatch) (done_at : f64) w' (sent : list PrefillComplete) : Prop := {
  rd_served : pserved w';
  rd_capacity : capacity w' = capacity w /\ w_block_size w' = w_block_size w /\ w_id w' = w_id w;
  rd_some : Sched.chunks b <> [];
  rd_chunks : Forall (Sched.chunk_ok (queue_of w)) (Sched.chunks b);
  rd_once : NoDup (map Sched.cid (Sched.chunks b));
  rd_sent : map pc_id sent = map Sched.cid (filter (fun c => Sched.completes c = true) (Sched.chunks b));
  rd_told : forall x, x ∈ sent -> pc_finished_at_ms x = done_at /\
    exists p, queue_of w !! pc_id x = Some p /\ pc_prompt_len x = Sched.compute_tokens p;
  rd_others : forall id, id ∉ map Sched.cid (Sched.chunks b) -> queue_of w' !! id = queue_of w !! id;
  rd_advance : forall c, c ∈ Sched.chunks b -> exists p, queue_of w !! Sched.cid c = Some p /\
    queue_of w' !! Sched.cid c = if Sched.completes c then None else Some (Sched.advance p (Sched.tokens c))
}.

Lemma planned_prompts w b : worker_inv w -> Forall (Sched.chunk_ok (queue_of w)) (Sched.chunks b) ->
  Forall (fun c => exists prompt p, w_prompts w !! Sched.cid c = Some prompt /\ queue_of w !! Sched.cid c = Some p /\
    Sched.compute_tokens p = Z.of_nat (length prompt) /\
    0 <= Sched.start c <= Z.of_nat (length prompt) /\ 0 < Sched.tokens c) (Sched.chunks b).
Proof.
  intros Hw Hok. eapply Forall_impl; [exact Hok|]. intros c (p & Hp & Hst & Ht & _).
  destruct (wi_prompt _ Hw _ _ Hp) as (prompt & Hpr & Hc). exists prompt, p. split; [done|]. split; [done|]. split; [done|].
  destruct (Sched.si_pending _ (wi_sched _ Hw) _ _ Hp) as [_ Hd]. lia.
Qed.

(** The queue after a round, request by request. *)
Lemma advanced_lookup w b w' done_at sent id p : rounds w b done_at w' sent -> queue_of w' !! id = Some p ->
  queue_of w !! id = Some p \/ exists c p0, c ∈ Sched.chunks b /\ Sched.cid c = id /\ queue_of w !! id = Some p0 /\
    Sched.completes c = false /\ p = Sched.advance p0 (Sched.tokens c).
Proof.
  intros Hr Hp. destruct (decide (id ∈ map Sched.cid (Sched.chunks b))) as [Hin|Hni].
  - apply list_elem_of_fmap in Hin as (c & -> & Hc). destruct (rd_advance _ _ _ _ _ Hr c Hc) as (p0 & Hp0 & Hp').
    rewrite Hp in Hp'. destruct (Sched.completes c) eqn:Ec; [done|]. injection Hp' as ->. right. by exists c, p0.
  - left. by rewrite <- (rd_others _ _ _ _ _ Hr id Hni).
Qed.

Lemma round_serves w now done_at : pserved w -> queue_of w <> ∅ -> pages_queued w <= capacity w ->
  exists w' sent, round w now done_at = Some (w', sent) /\ rounds w (Sched.plan (w_sched w) now).2 done_at w' sent.
Proof.
  intros Hw Hne Hroom. pose proof Hw as [Hi He Hh Ht Hd].
  destruct (round_returns w now done_at Hi (serves_ok _ He)) as (w2 & sent2 & Hr & Hi2).
  exists w2, sent2. split; [exact Hr|]. revert Hr. unfold round.
  destruct (Sched.plan_bounds (w_sched w) now (wi_sched _ Hi) (wi_budget _ Hi)) as
    (s1 & b & Hplan & Hq & Hs1 & _ & _ & _ & Hok & Hnd & _).
  pose proof (Sched.plan_tuning (w_sched w) now) as Htun.
  assert (Sched.chunks (Sched.plan (w_sched w) now).2 <> []) as Hsome.
  { apply map_choose in Hne as (id & p & Hp). destruct Ht as [T1 T2 T3].
    eapply Sched.plan_progress; [apply Hi|done|done|done|exact Hp|by eapply Hd]. }
  rewrite Hplan in *. cbn [fst snd] in *. rewrite decide_False by done.
  destruct (resolve_all (w_prompts w) (w_block_size w) (queue_of w) (Sched.chunks b) (w_kv w) (w_pool w) [])
    as (kv1 & pool1 & work & Hres & Hlen & Hi1 & Hh1 & Hsz & Hd1).
  { apply Hi. } { done. } { apply Hi. } { unfold pages_queued, capacity in Hroom. lia. } { by apply planned_prompts. }
  rewrite Hres. cbn [app mbind option_bind].
  assert (work <> []) as Hwork by (intros ->; by destruct (Sched.chunks b)).
  rewrite decide_False by done.
  destruct (serves_prefill (w_engine w) work now He) as (e1 & o & Eng & He1). rewrite Eng. cbn [mbind option_bind].
  rewrite <- Hq in Hok.
  destruct (Sched.complete_spec s1 b (po_elapsed_ms o) Hs1 Hok Hnd) as (s2 & Hc & Hs2 & _ & Hoth & Hin).
  pose proof (Sched.complete_tuned s1 b (po_elapsed_ms o)) as Hct. rewrite Hc in Hct. cbn zeta in Hct. cbn [fst] in Hct.
  rewrite Hc, Hq in *.
  set (fin := map Sched.cid (filter (fun c => Sched.completes c = true) (Sched.chunks b))) in *.
  destruct (give_back_all_spec fin kv1 pool1 Hi1) as (kv2 & pool2 & Hgb & _ & Hk2). rewrite Hgb. cbn [mbind option_bind].
  intros [= <- <-].
  assert (map fst (first_tokens o) = fin) as Htold.
  { destruct (planned_chunks w b Hi Hok) as [Hch Hdom].
    destruct (resolve_spec (w_prompts w) (w_block_size w) (queue_of w) (Sched.chunks b) (w_kv w) (w_pool w) []
      (wi_pool _ Hi) Hch (wi_kv _ Hi) Hdom) as (kv' & pool' & more & Hres' & _ & _ & _ & Hmap).
    rewrite Hres in Hres'. cbn [app] in Hres'. injection Hres' as <- <- <-. rewrite Hlen, firstn_all in Hmap.
    transitivity (first_tokens o).*1; [done|]. rewrite (prefill_first_tokens _ _ _ _ _ (serves_ok _ He) Eng).
    exact (filtered_ids _ _ Hmap). }
  assert (forall id p, Sched.queue s2 !! id = Some p -> queue_of w !! id = Some p \/ exists c p0, c ∈ Sched.chunks b /\
    Sched.cid c = id /\ queue_of w !! id = Some p0 /\ Sched.completes c = false /\ p = Sched.advance p0 (Sched.tokens c)) as Hadv.
  { intros id p Hp. destruct (decide (id ∈ map Sched.cid (Sched.chunks b))) as [Hb|Hb]; [|left; by rewrite <- Hoth].
    apply list_elem_of_fmap in Hb as (c & -> & Hb). destruct (Hin c Hb) as (p0 & Hp0 & Hp2). rewrite Hp in Hp2.
    destruct (Sched.completes c) eqn:Ec; [done|]. injection Hp2 as ->. right. by exists c, p0. }
  assert (same_size (w_pool w) pool2) as Hsz2 by (eapply same_size_trans; [exact Hsz|by eapply give_back_all_size]).
  split; try done.
  - split; cbn [set_state w_engine w_sched w_kv w_block_size]; [done|done| |destruct Hct as (T1 & T2 & T3), Ht; rewrite Htun in *; split; congruence|].
    + intros id p Hp. rewrite Hk2. destruct (decide (id ∈ fin)).
      { cbn. apply blocks_for_nonneg. pose proof (Sched.si_pending _ Hs2 id p Hp). lia. }
      apply Hadv in Hp as [Hp|(c & p0 & _ & _ & Hp & _ & ->)]; [by apply Hh1|exact (Hh1 id p0 Hp)].
    + intros id p [Hp|(c & p0 & Hc1 & <- & Hp & Hcc & ->)]%Hadv; [by eapply Hd|].
      rewrite Forall_forall in Hok. destruct (Hok c Hc1) as (p1 & Hp1 & _ & Htok & Hcomp). assert (p1 = p0) as -> by congruence.
      rewrite Hcc in Hcomp. symmetry in Hcomp. apply Z.eqb_neq in Hcomp.
      rewrite Sched.advance_remaining; [lia| |done]. by apply (Sched.si_pending _ (wi_sched _ Hi) _ _ Hp).
  - cbn [set_state w_block_size w_id]. split; [|done]. unfold capacity. cbn [set_state w_pool].
    by rewrite (same_size_reserve _ _ Hsz2), (proj1 Hsz2).
  - rewrite map_map. cbn [pc_id]. exact Htold.
  - intros x Hx. apply list_elem_of_fmap in Hx as (it & -> & Hit). cbn [pc_finished_at_ms pc_id pc_prompt_len]. split; [done|].
    assert (it.1 ∈ fin) as Hf by (rewrite <- Htold; by apply list_elem_of_fmap_2).
    apply list_elem_of_fmap in Hf as (c & Hcid & [_ Hf]%list_elem_of_filter). destruct (Hin c Hf) as (p & Hp & _).
    rewrite <- Hcid in Hp. destruct (wi_prompt _ Hi _ _ Hp) as (prompt & -> & Hcp). by exists p.
Qed.
(** *** The account of a round

    Whatever the weights: when a queued request weighs [c] more than what its
    chunk leaves of it, a round loses [c] for each chunk. *)
Lemma rounds_weigh (wq : Z -> Sched.PendingPrefill -> Z) (wc : Z -> Z) (c : Z) w b done_at w' sent :
  rounds w b done_at w' sent ->
  (forall id p n, queue_of w !! id = Some p -> 0 < n < Sched.remaining p -> wq id (Sched.advance p n) + c <= wq id p) ->
  (forall id p, queue_of w !! id = Some p -> wc id + c <= wq id p) ->
  msum wq (queue_of w') + zsum (fun x => wc (pc_id x)) sent + c * Z.of_nat (length (Sched.chunks b)) <= msum wq (queue_of w).
Proof.
  intros Hr Hadv Hdone. set (ks := (map_to_list (queue_of w)).*1).
  assert (NoDup ks) as Hks by apply NoDup_fst_map_to_list.
  set (cids := map Sched.cid (Sched.chunks b)) in *.
  set (fin := map Sched.cid (filter (fun c => Sched.completes c = true) (Sched.chunks b))).
  assert (forall id, id ∈ cids -> id ∈ ks) as Hin.
  { intros id (ch & -> & Hc)%list_elem_of_fmap. apply keys_elem. destruct (rd_advance _ _ _ _ _ Hr ch Hc) as (p & Hp & _). eauto. }
  assert (fin `sublist_of` cids) as Hsub by (apply fmap_sublist, sublist_filter).
  assert (NoDup fin) as Hfin by (eapply sublist_NoDup; [apply (rd_once _ _ _ _ _ Hr)|exact Hsub]).
  rewrite (msum_keys wq (queue_of w') ks Hks), (msum_keys wq (queue_of w) ks Hks).
  2: { intros id H. by apply keys_elem. }
  2: { intros id [p Hp]. apply keys_elem. destruct (advanced_lookup _ _ _ _ _ _ _ Hr Hp) as [H|(? & ? & _ & _ & H & _)]; eauto. }
  assert (zsum (fun x => wc (pc_id x)) sent = zsum (fun id => if decide (id ∈ fin) then wc id else 0) ks) as ->.
  { rewrite <- zsum_map, (rd_sent _ _ _ _ _ Hr). fold fin. apply zsum_within; [done|done|]. intros id. split; [|tauto].
    intros H. split; [|done]. apply Hin. by eapply elem_of_sublist. }
  assert (c * Z.of_nat (length (Sched.chunks b)) = zsum (fun id => if decide (id ∈ cids) then c else 0) ks) as ->.
  { rewrite <- (zsum_within (fun _ => c) cids ks (fun id => id ∈ cids)); [|apply (rd_once _ _ _ _ _ Hr)|done|].
    - rewrite zsum_const. unfold cids. by rewrite length_map.
    - intros id. split; [|tauto]. intros H. split; [by apply Hin|done]. }
  rewrite <- !zsum_plus. apply zsum_le. intros id [p Hp]%keys_elem. unfold part. rewrite Hp.
  destruct (decide (id ∈ cids)) as [Hc|Hc].
  - unfold cids in Hc. apply list_elem_of_fmap in Hc as (ch & -> & Hc).
    destruct (rd_advance _ _ _ _ _ Hr ch Hc) as (p0 & Hp0 & ->). assert (p0 = p) as -> by congruence.
    pose proof (rd_chunks _ _ _ _ _ Hr) as Hok. rewrite Forall_forall in Hok. destruct (Hok ch Hc) as (p1 & Hp1 & _ & Htok & Hcomp).
    assert (p1 = p) as -> by congruence.
    destruct (Sched.completes ch) eqn:Ec.
    + rewrite decide_True; [specialize (Hdone _ _ Hp); lia|]. apply list_elem_of_fmap_2. by apply list_elem_of_filter.
    + symmetry in Hcomp. apply Z.eqb_neq in Hcomp. rewrite decide_False.
      * specialize (Hadv _ _ (Sched.tokens ch) Hp ltac:(lia)). lia.
      * intros (ch' & Hcc & [Hct Hc']%list_elem_of_filter)%list_elem_of_fmap.
        destruct (rd_advance _ _ _ _ _ Hr ch Hc) as (? & _ & H1). destruct (rd_advance _ _ _ _ _ Hr ch' Hc') as (? & _ & H2).
        rewrite Ec in H1. rewrite Hct, <- Hcc, H1 in H2. done.
  - rewrite (rd_others _ _ _ _ _ Hr id Hc), Hp, decide_False; [lia|]. intros H. apply Hc. by eapply elem_of_sublist.
Qed.

(** What is left takes no more pages than before. *)
Lemma rounds_pages w b done_at w' sent : pserved w -> rounds w b done_at w' sent -> pages_queued w' <= pages_queued w.
Proof.
  intros Hw Hr. unfold pages_queued. destruct (rd_capacity _ _ _ _ _ Hr) as (_ & -> & _).
  pose proof (rounds_weigh (pages (w_block_size w)) (fun _ => 0) 0 _ _ _ _ _ Hr) as H. rewrite zsum_zero in H by done.
  enough (msum (pages (w_block_size w)) (queue_of w') + 0 + 0 * Z.of_nat (length (Sched.chunks b)) <=
    msum (pages (w_block_size w)) (queue_of w)) by lia.
  apply H; [by intros; unfold pages; cbn; lia|]. intros id p Hp. unfold pages.
  pose proof (pv_todo _ Hw _ _ Hp). pose proof (blocks_for_nonneg (Sched.compute_tokens p) (w_block_size w)) as Hb.
  unfold Sched.remaining, sat_sub in *. pose proof (Sched.si_pending _ (wi_sched _ (pv_inv _ Hw)) _ _ Hp). lia.
Qed.
End worker.
End Prefilling.
