(* ===== verification/DecodeLive.v ===== *)
(** * Decode workers finish what they admit ([crates/worker/src/decode_worker.rs])

    Over an engine that serves ([EngineServes]), an iteration of the decode loop
    is a function of the tokens still owed to each sequence: what is admitted is
    loaded, every sequence gets one token, and those that got their last are
    reported and forgotten. *)

From Stdlib Require Import ZArith Lia.
From stdpp Require Import base option list numbers gmap.
From S2P Require Import Prelude Sums F64 F64Int Core Pool Controller Decode Engine Worker.

Module Decoding.
Import Decoder DecodeW.
Local Open Scope Z_scope.

(** The tokens a decode engine emits for a budget: the first came from the
    prefill, and one more comes in any case. *)
Definition budget (max_tokens : Z) : Z := Z.max 1 (max_tokens - 1).

(** The tokens owed once the jobs [js] are admitted. *)
Definition load (js : list DecodeAdmit) (m : gmap Z Z) : gmap Z Z :=
  foldl (fun m j => <[ad_id j := budget (ad_max_tokens j)]> m) m js.

Lemma load_app a b m : load (a ++ b) m = load b (load a m).
Proof. apply foldl_app. Qed.

Lemma load_other js : forall m id, id ∉ map ad_id js -> load js m !! id = m !! id.
Proof.
  induction js as [|j js IH]; intros m id Hn; [done|]. cbn [map] in Hn. apply not_elem_of_cons in Hn as [Hne Hn].
  unfold load. cbn [foldl]. fold (load js (<[ad_id j := budget (ad_max_tokens j)]> m)).
  rewrite IH by done. by apply lookup_insert_ne.
Qed.

Lemma load_dom js : forall m id, is_Some (load js m !! id) <-> is_Some (m !! id) \/ id ∈ map ad_id js.
Proof.
  induction js as [|j js IH]; intros m id.
  { cbn. split; [by left|]. intros [H|H%not_elem_of_nil]; done. }
  unfold load. cbn [foldl map]. fold (load js (<[ad_id j := budget (ad_max_tokens j)]> m)).
  rewrite IH, elem_of_cons, lookup_insert_is_Some'. naive_solver.
Qed.

(** What the jobs add to a sum. *)
Lemma load_sum f js : forall m, NoDup (map ad_id js) -> (forall j, j ∈ js -> m !! ad_id j = None) ->
  msum f (load js m) = msum f m + zsum (fun j => f (ad_id j) (budget (ad_max_tokens j))) js.
Proof.
  induction js as [|j js IH]; intros m Hnd Hf; [cbn; lia|]. cbn [map] in Hnd. apply NoDup_cons in Hnd as [Hn Hnd].
  unfold load. cbn [foldl]. fold (load js (<[ad_id j := budget (ad_max_tokens j)]> m)). rewrite zsum_cons, IH; [|done|].
  - rewrite msum_insert by (apply Hf; left). lia.
  - intros i Hi. rewrite lookup_insert_ne; [apply Hf; by right|]. intros Heq. apply Hn. rewrite Heq.
    by apply list_elem_of_fmap_2.
Qed.

Lemma observe_min c itl n : min_cap (observe c itl n) = min_cap c.
Proof.
  unfold observe, overloaded, decrease.
  repeat match goal with |- context [if ?b then _ else _] => destruct b end; done.
Qed.

(** A controller that can admit: its floor is above zero. *)
Record open_cap (c : ItlController) : Prop := {
  oc_inv : ctl_inv c;
  oc_floor : flt f0 (min_cap c) = true
}.

Lemma open_observe c itl n : open_cap c -> 0 <= n <= 2 ^ 53 -> open_cap (observe c itl n).
Proof. intros [H1 H2] Hn. split; [by apply observe_inv|by rewrite observe_min]. Qed.

Lemma open_back_off c : open_cap c -> open_cap (back_off c).
Proof. intros [H1 H2]. split; [by apply back_off_inv|done]. Qed.

Lemma open_admits c : open_cap c -> fge (of_Z 0) (cap c) = false.
Proof.
  intros [H1 H2]. change (fge (of_Z 0) (cap c)) with (fle (cap c) f0).
  destruct (fle (cap c) f0) eqn:E; [|done].
  pose proof (fle_trans _ _ _ (ci_lo c H1) E) as H. rewrite fle_negb_flt, H2 in H; [done|apply regular_not_nan, H1|done].
Qed.

(** *** The sequences a step reports *)

Definition keyed (r : gmap Z RunningSeq) : Prop := map_Forall (fun id q => seq_id q = id) r.

Lemma book_keyed now n ids : forall r, keyed r -> keyed (foldl (book_token now n) r ids).
Proof.
  induction ids as [|i ids IH]; intros r Hr; cbn [foldl]; [done|]. apply IH. unfold book_token.
  destruct (r !! i) as [q|] eqn:E; [|done]. intros id q'. intros [[<- <-]|[_ H]]%lookup_insert_Some; [|by apply (Hr id)].
  exact (Hr _ _ E).
Qed.

Lemma finish_sublist ids : forall r fl dn u, keyed r ->
  exists new, (foldl finish_one (r, fl, dn, u) ids).1.2 = dn ++ new /\ map seq_id new `sublist_of` ids.
Proof.
  induction ids as [|i ids IH]; intros r fl dn u Hr; cbn [foldl].
  { exists []. split; [by rewrite app_nil_r|constructor]. }
  cbn [finish_one]. destruct (r !! i) as [q|] eqn:E.
  - destruct (IH (delete i r) (fl ∖ {[i]}) (dn ++ [q]) u) as (new & -> & Hs).
    { intros id q' [_ H]%lookup_delete_Some. by apply (Hr id). }
    exists (q :: new). split; [by rewrite <- app_assoc|]. cbn [map]. rewrite (Hr _ _ E). by apply sublist_skip.
  - destruct (IH r fl dn (u + 1) Hr) as (new & -> & Hs). exists new. split; [done|]. by apply sublist_cons.
Qed.

Lemma on_step_reports s now ms advanced finished s' dn : dec_inv s -> on_step s now ms advanced finished = Some (s', dn) ->
  map seq_id dn `sublist_of` finished.
Proof.
  intros [Hk _]. unfold on_step. destruct (steering_itl_ms s now) as [steer|]; cbn [mbind option_bind]; [|done].
  destruct (finish_sublist finished (foldl (book_token now (Z.max (tokens_per_step s) 1)) (running s) advanced) (flagged s) []
    (unknown_finish_reports s)) as (new & Hn & Hs); [by apply book_keyed|].
  destruct (foldl finish_one _ _) as [[[r2 fl2] dn2] u]. cbn [fst snd] in Hn.
  destruct (foldl flag_one _ _) as [fl3 dis]. intros [= _ <-]. by rewrite Hn.
Qed.

Lemma on_step_cap s now ms advanced finished s' dn : on_step s now ms advanced finished = Some (s', dn) ->
  exists itl, controller s' = observe (controller s) itl (concurrency s).
Proof.
  unfold on_step. destruct (steering_itl_ms s now) as [steer|]; cbn [mbind option_bind]; [|done].
  destruct (foldl finish_one _ _) as [[[r2 fl2] dn2] u]. destruct (foldl flag_one _ _) as [fl3 dis].
  intros [= <- _]. by eexists.
Qed.

Section worker.
Context {E : Type} `{!Engine E} `{!EngineLaws E} `{!EngineServes E}.
Implicit Types w : DecodeWorker (E := E).

(** A job that fits the pool when nothing else is in it. *)
Definition fits w (j : DecodeAdmit) : Prop :=
  blocks_for (ad_prompt_len j + ad_max_tokens j) (d_block_size w) + reserve (d_pool w) <= Z.of_nat (total (d_pool w)).

(** The worker and its engine run the same sequences, and it admits. *)
Record served w : Prop := {
  sv_inv : dworker_inv w;
  sv_engine : serves (d_engine w);
  sv_owes : forall id, is_Some (owes (d_engine w) !! id) <-> is_Some (running (d_sched w) !! id);
  sv_cap : open_cap (controller (d_sched w))
}.

(** The same worker later on. *)
Definition same_worker w w' : Prop :=
  same_size (d_pool w) (d_pool w') /\ d_block_size w' = d_block_size w /\ d_id w' = d_id w.

Lemma same_worker_trans w1 w2 w3 : same_worker w1 w2 -> same_worker w2 w3 -> same_worker w1 w3.
Proof. intros (H1 & H2 & H3) (H4 & H5 & H6). split; [by eapply same_size_trans|]. split; congruence. Qed.

Lemma same_worker_fits w w' j : same_worker w w' -> fits w j -> fits w' j.
Proof. intros (H1 & H2 & _). unfold fits. rewrite H2, (same_size_reserve _ _ H1). by rewrite (proj1 H1). Qed.

Lemma note_cap s d : open_cap (controller s) -> open_cap (controller (note s d)).
Proof. intros H. destruct d; cbn; [done|done|by apply open_back_off|done]. Qed.

(** With nothing running, a job that fits is admitted. *)
Lemma head_admitted w j : served w -> owes (d_engine w) = ∅ -> fits w j ->
  let need := blocks_for (ad_prompt_len j + ad_max_tokens j) (d_block_size w) in
  can_admit (d_sched w) (Pool.can_admit (d_pool w) need) = Admit.
Proof.
  intros [Hi He Ho Hc] Hz Hfit need.
  assert (running (d_sched w) = ∅) as Hr.
  { apply map_empty. intros id. destruct (running (d_sched w) !! id) eqn:Er; [|done]. exfalso.
    assert (is_Some (running (d_sched w) !! id)) as Hs by eauto. apply Ho in Hs. rewrite Hz, lookup_empty in Hs. by destruct Hs. }
  assert (d_kv w = ∅) as Hk.
  { apply map_empty. intros id. destruct (d_kv w !! id) eqn:Ek; [|done]. exfalso.
    assert (is_Some (d_kv w !! id)) as Hs by eauto. apply (dw_kv _ Hi) in Hs. rewrite Hr, lookup_empty in Hs. by destruct Hs. }
  assert (Pool.can_admit (d_pool w) need = true) as ->.
  { apply Z.leb_le. pose proof (available_rest _ _ (dw_pool _ Hi)) as H. rewrite Hk, owned_empty in H. cbn [length] in H.
    unfold fits in Hfit. fold need in Hfit. lia. }
  unfold can_admit, can_admit_over. cbn [negb]. unfold concurrency, values. rewrite Hr, map_size_empty, map_to_list_empty.
  cbn [fmap list_fmap]. change (Z.of_nat 0) with 0. rewrite open_admits by done.
  by destruct (8 <=? _).
Qed.

(** Admission loads a first part of the queue, all of it new to the engine; with
    nothing running and a job that fits, not an empty part. *)
Lemma admit_serves pending : forall w, served w -> pending_ok w pending ->
  Forall (fun j => ad_max_tokens j <= u32_max) pending ->
  exists w' rest js, admit_loop w pending = Some (w', rest) /\ pending = js ++ rest /\ served w' /\ pending_ok w' rest /\
    same_worker w w' /\ owes (d_engine w') = load js (owes (d_engine w)) /\
    (Forall (fits w) pending -> pending <> [] -> owes (d_engine w') <> ∅).
Proof.
  induction pending as [|j pending IH]; intros w Hw Hp Hsm; cbn [admit_loop].
  { exists w, [], []. done. }
  apply Forall_cons in Hsm as [Hj Hsm]. pose proof Hw as [Hi He Ho Hc].
  set (need := blocks_for _ _). set (d := can_admit _ _). set (s1 := note (d_sched w) d).
  destruct (note_running (d_sched w) d) as [Hr _]. fold s1 in Hr.
  assert (dec_inv s1) as Hs1 by (apply note_inv, Hi).
  assert (open_cap (controller s1)) as Hc1 by by apply note_cap.
  assert (d <> Admit \/ Z.of_nat (available (d_pool w)) < need ->
    served (set_d w (d_engine w) s1 (d_pool w) (d_kv w)) /\ pending_ok (set_d w (d_engine w) s1 (d_pool w) (d_kv w)) (j :: pending) /\
    (Forall (fits w) (j :: pending) -> j :: pending <> [] -> owes (d_engine w) <> ∅)) as Hstay.
  { intros Hno. split; [|split].
    - destruct Hi. split; [split|..]; cbn [set_d d_sched d_engine d_pool d_kv]; rewrite ?Hr; done.
    - destruct Hp. split; cbn [set_d d_sched]; rewrite ?Hr; done.
    - intros Hf _ Hz. apply Forall_cons in Hf as [Hf _]. pose proof (head_admitted w j Hw Hz Hf) as Had. cbv zeta in Had.
      fold need in Had. destruct Hno as [Hno|Hno]; [by apply Hno|].
      unfold can_admit, can_admit_over in Had. destruct (Pool.can_admit (d_pool w) need) eqn:Ea; [|done].
      apply Z.leb_le in Ea. pose proof (reserve_nonneg (d_pool w)). lia. }
  destruct (decide (d = Admit)) as [Hd|Hd].
  2: { destruct (Hstay ltac:(by left)) as (H1 & H2 & H3). eexists _, (j :: pending), []. split; [reflexivity|]. done. }
  assert (need <= Z.of_nat (available (d_pool w))) as Hroom.
  { subst d. unfold can_admit, can_admit_over in Hd. destruct (Pool.can_admit (d_pool w) need) eqn:Ea; [|done].
    apply Z.leb_le in Ea. pose proof (reserve_nonneg (d_pool w)). lia. }
  destruct (alloc (d_pool w) (Z.to_nat need)) as [[r p1]|] eqn:Eal.
  2: { destruct (alloc_total (d_pool w) _ (Z.to_nat need) (dw_pool _ Hi)) as [(? & ? & H & _)|[? H]]; congruence. }
  pose proof (alloc_size _ _ _ _ Eal) as Hsize. cbn [mbind option_bind].
  destruct (alloc_total (d_pool w) _ (Z.to_nat need) (dw_pool _ Hi)) as [(blocks & p2 & H & Hi1 & _)|[er H]].
  2: { exfalso. unfold alloc in H. destruct (decide _) as [Hlt|_]; [lia|].
       destruct (alloc_loop _ _ _) as [[]|]; done. }
  rewrite Eal in H. injection H as -> <-.
  assert (owes (d_engine w) !! ad_id j = None) as Hnew.
  { destruct (owes (d_engine w) !! ad_id j) eqn:Eo; [|done]. exfalso.
    assert (is_Some (owes (d_engine w) !! ad_id j)) as Hs by eauto. apply Ho in Hs.
    rewrite (pk_fresh _ _ Hp j) in Hs by left. by destruct Hs. }
  set (sp := mkSeqSpec _ _ _ _ _). destruct (serves_add (d_engine w) sp He Hnew Hj) as (He1 & Ha & Ho1).
  pose proof (add_ok (d_engine w) sp (serves_ok _ He)) as Hok1.
  destruct (add_decode_seq (d_engine w) sp) as [e1 r1]; cbn [fst snd] in *. subst r1.
  destruct (taken_ok w s1 e1 p1 blocks j pending Hi Hp Hs1 Hr Hok1 Hi1) as [Hi2 Hp2].
  destruct (IH (taken w s1 e1 p1 blocks j)) as (w' & rest & js & Hal & -> & Hw' & Hp' & Hsame & Hload & _).
  { split; [done|done| |exact Hc1]. intros id. cbn [taken set_d d_engine d_sched dec_admit set_running running].
    rewrite Ho1, Hr. cbn [sp sp_id seq_new seq_id]. rewrite !lookup_insert_is_Some', (Ho id). done. }
  { done. } { done. }
  unfold taken in Hal. rewrite Hal. exists w', rest, (j :: js). split; [done|]. split; [done|]. split; [done|].
  split; [done|]. split; [|split].
  - eapply same_worker_trans; [|exact Hsame]. done.
  - rewrite Hload. cbn [taken set_d d_engine]. by rewrite Ho1.
  - intros _ _ Hz. rewrite Hload in Hz. assert (is_Some (load js (owes (d_engine (taken w s1 e1 p1 blocks j))) !! ad_id j)) as Hs.
    { apply load_dom. left. cbn [taken set_d d_engine]. rewrite Ho1. cbn [sp sp_id]. rewrite lookup_insert_eq. by eexists. }
    rewrite Hz, lookup_empty in Hs. by destruct Hs.
Qed.
Lemma remove_all_serves (dn : list RunningSeq) : forall e m, serves e -> owes e = m ->
  (forall id, id ∈ map seq_id dn -> m !! id = None) ->
  serves (foldl (fun e q => (remove_seq e (seq_id q)).1) e dn) /\
  owes (foldl (fun e q => (remove_seq e (seq_id q)).1) e dn) = m.
Proof.
  induction dn as [|q dn IH]; intros e m He Hm Hn; cbn [foldl]; [done|].
  destruct (serves_remove e (seq_id q) He) as [H1 H2]. apply IH; [done| |intros id Hid; apply Hn; by right].
  rewrite H2, Hm, delete_id; [done|]. apply Hn. left.
Qed.

(** What an iteration sends: a token for each sequence, then the ends. *)
Definition reports (toks : list (RequestId * Z)) (dn : list RunningSeq) : list DecodeEvent :=
  map (fun it => EvToken it.1 it.2) toks ++ map (fun q => EvFinished (seq_id q) (tokens_emitted q)) dn.

(** An iteration of the loop: [js] is admitted, and everything loaded advances. *)
Record iterates w pending (js : list DecodeAdmit) w' rest ev : Prop := {
  it_queue : pending = js ++ rest;
  it_served : served w';
  it_pending : pending_ok w' rest;
  it_same : same_worker w w';
  it_owes : owes (d_engine w') = owed_after (load js (owes (d_engine w)));
  it_events : exists toks dn, ev = reports toks dn /\
    toks.*1 ≡ₚ (map_to_list (load js (owes (d_engine w)))).*1 /\ NoDup (map seq_id dn) /\
    (forall id, id ∈ map seq_id dn <-> load js (owes (d_engine w)) !! id = Some 1);
  it_works : Forall (fits w) pending -> pending <> [] \/ owes (d_engine w) <> ∅ -> load js (owes (d_engine w)) <> ∅
}.

Lemma step_serves w pending now now2 : served w -> pending_ok w pending ->
  Forall (fun j => ad_max_tokens j <= u32_max) pending -> clock now2 ->
  concurrency (d_sched w) + Z.of_nat (length pending) <= 2 ^ 53 ->
  exists w' rest ev js, step w pending now now2 = Some (w', rest, ev) /\ iterates w pending js w' rest ev.
Proof.
  intros Hw Hp Hsm Hnow Hsize.
  destruct (decode_step_spec w pending now now2 (sv_inv _ Hw) Hp Hnow Hsize) as
    (w1 & rest & w' & ev & Had & Hi1 & Hstep & Hi' & Hp' & _).
  destruct (admit_serves pending w Hw Hp Hsm) as (w1' & rest' & js & Had' & Hq & Hw1 & Hp1 & Hsame & Hload & Hwork).
  rewrite Had in Had'. injection Had' as <- <-. exists w', rest, ev, js. split; [done|].
  assert (Forall (fits w) pending -> pending <> [] \/ owes (d_engine w) <> ∅ -> load js (owes (d_engine w)) <> ∅) as Hworks.
  { intros Hf [Hne|Hne]; [rewrite <- Hload; by apply Hwork|]. intros Hz. apply Hne, map_empty. intros id.
    destruct (owes (d_engine w) !! id) eqn:Eo; [|done]. exfalso.
    assert (is_Some (load js (owes (d_engine w)) !! id)) as Hs by (apply load_dom; left; eauto).
    rewrite Hz, lookup_empty in Hs. by destruct Hs. }
  destruct (admit_loop_spec pending w (sv_inv _ Hw) Hp) as (w1' & rest' & Had' & _ & _ & _ & Hconc).
  rewrite Had in Had'. injection Had' as <- <-.
  assert (0 <= concurrency (d_sched w1) <= 2 ^ 53) as Hc1 by (unfold concurrency in *; lia). clear Hconc Hsize.
  revert Hstep. unfold step. rewrite Had. cbn [mbind option_bind]. rewrite <- Hload in *.
  pose proof Hw1 as [_ He1 Ho1 Hcap1].
  destruct (Z.eqb_spec (concurrency (d_sched w1)) 0) as [Hz|Hnz].
  - intros [= <- <-]. assert (owes (d_engine w1) = ∅) as Hn.
    { unfold concurrency in Hz. assert (size (running (d_sched w1)) = 0%nat) as Hz' by lia.
      apply map_size_empty_inv in Hz'. apply map_empty. intros id. destruct (owes (d_engine w1) !! id) eqn:Eo; [|done]. exfalso.
      assert (is_Some (owes (d_engine w1) !! id)) as Hs by eauto. apply Ho1 in Hs. rewrite Hz', lookup_empty in Hs. by destruct Hs. }
    split; try done; rewrite <- Hload, ?Hn.
    + done.
    + exists [], []. rewrite map_to_list_empty. split; [done|]. split; [done|]. split; [constructor|]. intros id.
      rewrite lookup_empty. split; [by intros ?%not_elem_of_nil|done].
    + intros Hf H. by destruct (Hworks Hf H).
  - destruct (serves_step (d_engine w1) now He1) as (e1 & o & Ho & Hes & Hoe & Htok & Hnd & Hfin).
    rewrite Ho. cbn [mbind option_bind].
    destruct (on_step _ _ _ _ _) as [[s2 dn]|] eqn:Hon; cbn [mbind option_bind]; [|done]. rewrite retire_eq.
    destruct (give_back_all _ _ _) as [[kv2 p2]|] eqn:Hgb; cbn [mbind option_bind]; [|done]. intros [= <- <-].
    assert (NoDup (so_tokens o).*1) as Hnt by (rewrite Htok; apply NoDup_fst_map_to_list).
    destruct (on_step_spec (d_sched w1) now2 (so_elapsed_ms o) (so_tokens o).*1 (so_finished o) (dw_sched _ Hi1) Hnt)
      as (s2' & dn' & Hon' & _ & Hrun & Hdn & _).
    { lia. }
    { intros q Hin. unfold values in Hin. apply list_elem_of_fmap in Hin as ([id q'] & -> & Hin).
      apply elem_of_map_to_list in Hin. destruct (dw_clock _ Hi1 _ _ Hin). by apply clock_age. }
    rewrite Hon in Hon'. injection Hon' as <- <-.
    assert (forall id, is_Some (after_tokens (d_sched w1) now2 (so_tokens o).*1 id) <-> is_Some (running (d_sched w1) !! id)) as Hsome.
    { intros id. unfold after_tokens. destruct (decide _); [|done]. by rewrite fmap_is_Some. }
    assert (forall id, id ∈ map seq_id dn <-> owes (d_engine w1) !! id = Some 1) as Hids.
    { intros id. split.
      - intros Hin. apply Hfin. eapply elem_of_sublist; [exact Hin|]. eapply on_step_reports; [apply Hi1|exact Hon].
      - intros H1. assert (is_Some (running (d_sched w1) !! id)) as Hr by (apply Ho1; eauto).
        apply Hsome in Hr as [q Hat]. apply list_elem_of_fmap. exists q. split; [|apply Hdn; exists id; by split; [apply Hfin|]].
        unfold after_tokens in Hat. destruct (decide _).
        + apply fmap_Some in Hat as (q0 & Hq0 & ->). cbn. symmetry. by apply (di_keys _ (dw_sched _ Hi1)).
        + symmetry. by apply (di_keys _ (dw_sched _ Hi1)). }
    destruct (remove_all_serves dn e1 (owed_after (owes (d_engine w1))) Hes Hoe) as [Hrs Hro].
    { intros id Hid. apply Hids in Hid. unfold owed_after. by rewrite lookup_omap, Hid. }
    split; rewrite <- ?Hload; cbn [set_d d_engine d_sched d_pool]; [done| |done| |exact Hro| |exact Hworks].
    + split; cbn [set_d d_engine d_sched]; [done|done| |].
      * intros id. rewrite Hro, Hrun. unfold owed_after. rewrite lookup_omap.
        destruct (decide (id ∈ so_finished o)) as [Hf|Hf].
        -- apply Hfin in Hf. rewrite Hf. cbn. split; by intros [].
        -- rewrite Hsome, <- Ho1. destruct (owes (d_engine w1) !! id) as [n|] eqn:En; cbn; [|done].
           destruct (Z.eqb_spec n 1) as [->|Hn1]; [by apply Hfin in En|]. split; by eexists.
      * destruct (on_step_cap _ _ _ _ _ _ _ Hon) as [itl ->]. by apply open_observe.
    + eapply same_worker_trans; [exact Hsame|]. split; [by eapply give_back_all_size|done].
    + exists (so_tokens o), dn. split; [done|]. split; [exact Htok|]. split; [|exact Hids].
      eapply sublist_NoDup; [exact Hnd|]. eapply on_step_reports; [apply Hi1|exact Hon].
Qed.
(** *** The account of an iteration *)

(** A weight of events that depends on the request only. *)
Definition event_weight (wt wf : Z -> Z) (e : DecodeEvent) : Z :=
  match e with EvToken id _ => wt id | EvFinished id _ => wf id end.

(** Whatever the weights: when a job weighs at least what it loads, and a token
    owed at least what is sent for it and [c] more, an iteration loses [c] for
    each sequence loaded. *)
Lemma iterates_weigh (wa : DecodeAdmit -> Z) (wr : Z -> Z -> Z) (wt wf : Z -> Z) (c : Z) w pending js w' rest ev :
  served w -> pending_ok w pending -> iterates w pending js w' rest ev ->
  (forall j, j ∈ pending -> wr (ad_id j) (budget (ad_max_tokens j)) <= wa j) ->
  (forall id n, 2 <= n -> wt id + wr id (n - 1) + c <= wr id n) ->
  (forall id, wt id + wf id + c <= wr id 1) ->
  zsum wa rest + msum wr (owes (d_engine w')) + zsum (event_weight wt wf) ev +
    c * Z.of_nat (size (load js (owes (d_engine w)))) <= zsum wa pending + msum wr (owes (d_engine w)).
Proof.
  intros Hw Hp [Hq Hw' _ _ Ho (toks & dn & -> & Htok & Hnd & Hfin) _] Ha Hr H1.
  set (m := load js (owes (d_engine w))) in *. set (ks := (map_to_list m).*1) in *.
  assert (NoDup ks) as Hks by apply NoDup_fst_map_to_list.
  assert (msum wr m <= msum wr (owes (d_engine w)) + zsum wa js) as Hload.
  { unfold m. destruct Hp as [N1 N2 N3]. rewrite Hq in N1, N2, Ha. rewrite load_sum.
    - apply Zplus_le_compat_l, zsum_le. intros j Hj. apply Ha, elem_of_app. by left.
    - rewrite map_app in N1. by apply NoDup_app in N1 as [N1 _].
    - intros j Hj. destruct (owes (d_engine w) !! ad_id j) eqn:Eo; [|done]. exfalso.
      assert (is_Some (owes (d_engine w) !! ad_id j)) as Hs by eauto. apply (sv_owes _ Hw) in Hs.
      rewrite (N2 j) in Hs by (apply elem_of_app; by left). by destruct Hs. }
  assert (zsum (event_weight wt wf) (reports toks dn) =
    zsum wt ks + zsum (fun id => if decide (m !! id = Some 1) then wf id else 0) ks) as Hev.
  { unfold reports. rewrite zsum_app, !zsum_map. cbn [event_weight]. f_equal.
    - rewrite <- (zsum_map wt fst). apply zsum_perm. exact Htok.
    - rewrite <- (zsum_map wf seq_id). apply zsum_within; [done|done|]. intros id. rewrite Hfin. split; [|by intros [_ H]].
      intros H. split; [|done]. apply keys_elem. by eexists. }
  assert (Forall (fun id => part wr (owed_after m) id + (wt id + (if decide (m !! id = Some 1) then wf id else 0)) + c <= part wr m id) ks) as Hpt.
  { apply Forall_forall. intros id Hid%keys_elem. destruct Hid as [n Hn]. unfold part, owed_after. rewrite lookup_omap, Hn. cbn.
    destruct (Z.eqb_spec n 1) as [->|Hn1].
    - rewrite decide_True by done. specialize (H1 id). lia.
    - rewrite decide_False by congruence.
      assert (1 <= n) as Hpos; [|specialize (Hr id n ltac:(lia)); lia].
      unfold m in Hn. destruct (decide (id ∈ map ad_id js)) as [Hin|Hni].
      + clear -Hn Hin. revert Hn. generalize (owes (d_engine w)). induction js as [|j js' IH] using rev_ind; [by apply not_elem_of_nil in Hin|].
        intros m0. rewrite load_app. cbn [load foldl]. intros [[_ <-]|[Hne H]]%lookup_insert_Some; [unfold budget; lia|].
        eapply IH; [|exact H]. rewrite map_app, elem_of_app in Hin. destruct Hin as [Hin|Hin]; [done|].
        cbn [map] in Hin. by apply list_elem_of_singleton in Hin.
      + rewrite load_other in Hn by done. by apply (owes_pos _ (sv_engine _ Hw) id). }
  assert (msum wr (owes (d_engine w')) = zsum (part wr (owed_after m)) ks) as ->.
  { rewrite Ho. apply msum_keys; [done|]. intros id. unfold owed_after. rewrite lookup_omap. intros [n Hn]. apply keys_elem.
    destruct (m !! id); [by eexists|done]. }
  rewrite (msum_keys wr m ks Hks (fun id H => proj2 (keys_elem m id) H)) in Hload. rewrite Hev, Hq, zsum_app.
  assert (zsum (fun id => part wr (owed_after m) id + (wt id + (if decide (m !! id = Some 1) then wf id else 0)) + c) ks <= zsum (part wr m) ks) as Hall.
  { apply zsum_le. intros id Hid. rewrite Forall_forall in Hpt. by apply Hpt. }
  rewrite !zsum_plus, zsum_const in Hall.
  assert (length ks = size m) as Hlen by (unfold ks; by rewrite length_fmap, length_map_to_list).
  rewrite Hlen in Hall. lia.
Qed.
End worker.
End Decoding.
