(* ===== verification/InProcess.v ===== *)
(** * The deployment in one process ([crates/worker/src/deployment.rs])

    Router, prefill workers and decode workers joined by bounded channels: a
    request is routed and queued at a prefill worker; the first token comes back
    through one pump, which sends it to the client and hands the request to its
    decode worker; the rest comes back through another.  Every task is a state
    machine, and [act] runs one task from one point where it waits to the next.
    Clock readings are arguments. *)

From Stdlib Require Import ZArith Lia.
From stdpp Require Import base option list numbers gmap strings pretty.
From S2P Require Import Prelude F64 F64Int Core Pool Policy Prefill Controller Decode Radix Router Capacity Engine Config Wire Tokenizer Frontend Worker.

Module InProcess.
Import Config.Deployment Frontend.
Local Open Scope Z_scope.

Definition DECODE_ID_BASE : Z := 1000.
Definition CHANNEL_DEPTH : nat := Z.to_nat 4096.

(** ** State *)

(** The sender to the client is the one made for the request of that
    identifier. *)
Record Inflight := mkInflight {
  in_decode_worker : nat;
  in_max_tokens : Z
}.

(** The client's end of a request's channel: what was sent to it, how much of
    that is still in the channel, and whether the receiver is held. *)
Record Client := mkClient {
  c_sent : list StreamChunk;
  c_unread : nat;
  c_listening : bool
}.

(** A prefill worker's task with its job channel; [pn_out] is what it has still
    to send of the last round. *)
Record PrefillNode (E : Type) := mkPNode {
  pn_worker : PrefillW.PrefillWorker (E := E);
  pn_jobs : list PrefillW.PrefillJob;
  pn_out : list PrefillW.PrefillComplete;
  pn_running : bool
}.
Arguments mkPNode {E}.
Arguments pn_worker {E}.
Arguments pn_jobs {E}.
Arguments pn_out {E}.
Arguments pn_running {E}.

Record DecodeNode (E : Type) := mkDNode {
  dn_worker : DecodeW.DecodeWorker (E := E);
  dn_jobs : list DecodeW.DecodeAdmit;
  dn_pending : list DecodeW.DecodeAdmit;
  dn_out : list DecodeW.DecodeEvent;
  dn_running : bool
}.
Arguments mkDNode {E}.
Arguments dn_worker {E}.
Arguments dn_jobs {E}.
Arguments dn_pending {E}.
Arguments dn_out {E}.
Arguments dn_running {E}.

(** Where [pump_prefill] waits: for a completion; to send the first token; to
    send the end of a one-token answer; to hand the request over; to report
    that the decode worker is gone; to take the request off the map. *)
Inductive PrefillPump :=
  | PRecv
  | PToken (c : PrefillW.PrefillComplete) (e : Inflight)
  | PLast (id : RequestId)
  | PAdmit (worker : nat) (a : DecodeW.DecodeAdmit)
  | PGone (id : RequestId)
  | PRemove (id : RequestId).

(** Where [pump_decode] waits. *)
Inductive DecodePump :=
  | DRecv
  | DToken (id : RequestId) (token : Z)
  | DRemove (id : RequestId)
  | DDone (id : RequestId).

Record Deployment (E K : Type) := mkDeployment {
  dcfg : Config;
  tokenizer : K;
  router : Routing.Router;
  prefill : list (PrefillNode E);
  decode : list (DecodeNode E);
  inflight : gmap Z Inflight;
  clients : gmap Z Client;
  starting : list (nat * PrefillW.PrefillJob);
  prefilled : list PrefillW.PrefillComplete;
  events : list DecodeW.DecodeEvent;
  prefill_pump : PrefillPump;
  decode_pump : DecodePump
}.
Arguments mkDeployment {E K}.
Arguments dcfg {E K}.
Arguments tokenizer {E K}.
Arguments router {E K}.
Arguments prefill {E K}.
Arguments decode {E K}.
Arguments inflight {E K}.
Arguments clients {E K}.
Arguments starting {E K}.
Arguments prefilled {E K}.
Arguments events {E K}.
Arguments prefill_pump {E K}.
Arguments decode_pump {E K}.

(** What a task does when it is run: a step, nothing (it waits), or a panic. *)
Inductive Progress (A : Type) :=
  | Moved (a : A)
  | Waits
  | Panics.
Arguments Moved {A} a.
Arguments Waits {A}.
Arguments Panics {A}.

(** What may happen next: a request, a task running to its next wait, a client
    reading or leaving, a task aborted. *)
Inductive Action (J : Type) :=
  | Generate (req : GenerateRequest J) (now : f64)
  | QueueJob (i : nat)
  | CancelStart (i : nat)
  | RunPrefill (i : nat) (now done_at : f64)
  | SendPrefilled (i : nat)
  | PumpPrefill
  | RunDecode (j : nat) (now now2 : f64)
  | SendEvent (j : nat)
  | PumpDecode
  | SyncLoads (now : f64)
  | Read (id : RequestId)
  | HangUp (id : RequestId)
  | AbortPrefill (i : nat)
  | AbortDecode (j : nat).
Arguments Generate {J}.
Arguments QueueJob {J}.
Arguments CancelStart {J}.
Arguments RunPrefill {J}.
Arguments SendPrefilled {J}.
Arguments PumpPrefill {J}.
Arguments RunDecode {J}.
Arguments SendEvent {J}.
Arguments PumpDecode {J}.
Arguments SyncLoads {J}.
Arguments Read {J}.
Arguments HangUp {J}.
Arguments AbortPrefill {J}.
Arguments AbortDecode {J}.

Section deployment.
Context {E K : Type} `{!Engine E} `{!Tokens.Tokenizer K}.
Implicit Types s : Deployment E K.

Definition set_router s r := mkDeployment (dcfg s) (tokenizer s) r (prefill s) (decode s) (inflight s) (clients s)
  (starting s) (prefilled s) (events s) (prefill_pump s) (decode_pump s).
Definition set_prefill s p := mkDeployment (dcfg s) (tokenizer s) (router s) p (decode s) (inflight s) (clients s)
  (starting s) (prefilled s) (events s) (prefill_pump s) (decode_pump s).
Definition set_decode s d := mkDeployment (dcfg s) (tokenizer s) (router s) (prefill s) d (inflight s) (clients s)
  (starting s) (prefilled s) (events s) (prefill_pump s) (decode_pump s).
Definition set_inflight s i := mkDeployment (dcfg s) (tokenizer s) (router s) (prefill s) (decode s) i (clients s)
  (starting s) (prefilled s) (events s) (prefill_pump s) (decode_pump s).
Definition set_clients s c := mkDeployment (dcfg s) (tokenizer s) (router s) (prefill s) (decode s) (inflight s) c
  (starting s) (prefilled s) (events s) (prefill_pump s) (decode_pump s).
Definition set_starting s l := mkDeployment (dcfg s) (tokenizer s) (router s) (prefill s) (decode s) (inflight s) (clients s)
  l (prefilled s) (events s) (prefill_pump s) (decode_pump s).
Definition set_prefilled s l := mkDeployment (dcfg s) (tokenizer s) (router s) (prefill s) (decode s) (inflight s) (clients s)
  (starting s) l (events s) (prefill_pump s) (decode_pump s).
Definition set_events s l := mkDeployment (dcfg s) (tokenizer s) (router s) (prefill s) (decode s) (inflight s) (clients s)
  (starting s) (prefilled s) l (prefill_pump s) (decode_pump s).
Definition set_prefill_pump s p := mkDeployment (dcfg s) (tokenizer s) (router s) (prefill s) (decode s) (inflight s)
  (clients s) (starting s) (prefilled s) (events s) p (decode_pump s).
Definition set_decode_pump s p := mkDeployment (dcfg s) (tokenizer s) (router s) (prefill s) (decode s) (inflight s)
  (clients s) (starting s) (prefilled s) (events s) (prefill_pump s) p.

(** ** Construction ([spawn]) *)

Definition load_default : Routing.WorkerLoad := Routing.mkLoad 0 0 0 f0 f0 f0 f0 f0.

Definition per_worker_rate (c : Config) : f64 :=
  fdiv (fmul (Planner.tok_s_per_gpu_at_tp (cal_prefill (calibration c)) (prefill_tp (topology c)))
          (of_Z (prefill_tp (topology c)))) (of_Z 1000).

Definition initial_cap (c : Config) : f64 :=
  fmul (Planner.concurrency_per_gpu (cal_decode (calibration c))) (of_Z (decode_tp (topology c))).

Definition spawn_prefill (c : Config) (i : nat) (e : E) : PrefillNode E :=
  mkPNode (PrefillW.worker_new (u32_wrap (Z.of_nat i)) e
    (Sched.mkTuning (chunked_prefill_tokens (scheduler c)) (Z.to_nat (max_prefill_seqs (scheduler c)))
       (prefill_policy (scheduler c)) (Config.Deployment.demote_hopeless (scheduler c)) (per_worker_rate c) (dec 2 1))
    (Z.to_nat (num_blocks (kv c))) (Config.Deployment.block_size (kv c)) (admission_watermark (kv c))) [] [] true.

Definition spawn_decode (c : Config) (j : nat) (e : E) : DecodeNode E :=
  let sched0 := Decoder.dec_new (slo_itl_ms (slo c))
    (ctl_new (fmul (slo_itl_ms (slo c)) (itl_safety (scheduler c))) (initial_cap c) (of_Z 8)
       (of_Z (max_decode_seqs (scheduler c)))) in
  let sched := if EngineConf.enabled (EngineConf.speculation (engine c))
    then Decoder.set_tokens_per_step sched0
           (u32_wrap (1 + EngineConf.spec_draft_tokens (EngineConf.speculation (engine c))))
    else sched0 in
  mkDNode (DecodeW.dworker_new (u32_wrap (DECODE_ID_BASE + Z.of_nat j)) e sched
    (Z.to_nat (num_blocks (kv c))) (Config.Deployment.block_size (kv c)) (admission_watermark (kv c))) [] [] [] true.

Definition register_prefill (c : Config) (r : Routing.WorkerRegistry) (n : PrefillNode E) : Routing.WorkerRegistry :=
  let id := PrefillW.w_id (pn_worker n) in
  Routing.register r (Routing.mkWorker id Routing.Prefill ("inproc://prefill/" +:+ display_worker id)
    (prefill_tp (topology c)) true (Routing.mkLoad 0 0 0 f0 f0 (per_worker_rate c) f0 f0)).

Definition register_decode (c : Config) (r : Routing.WorkerRegistry) (n : DecodeNode E) : Routing.WorkerRegistry :=
  let id := DecodeW.d_id (dn_worker n) in
  Routing.register r (Routing.mkWorker id Routing.Decode ("inproc://decode/" +:+ display_worker id)
    (decode_tp (topology c)) true (Routing.mkLoad 0 0 0 (initial_cap c) f0 f0 f0 f0)).

(** [None] is the panic of [f64::clamp] on a limit of decode sequences below 8. *)
Definition spawn (c : Config) (prefill_engines decode_engines : list E) (tok : K)
    : option (result Error (Deployment E K)) :=
  match validate_config c with
  | Err e => Some (Err e)
  | Ok _ =>
      match prefill_engines, decode_engines with
      | [], _ | _, [] => Some (Err ConfigError)
      | _, _ =>
          _ ← ctl_make (fmul (slo_itl_ms (slo c)) (itl_safety (scheduler c))) (initial_cap c) (of_Z 8)
                (of_Z (max_decode_seqs (scheduler c)));
          let ps := imap (spawn_prefill c) prefill_engines in
          let ds := imap (spawn_decode c) decode_engines in
          let reg := foldl (register_decode c) (foldl (register_prefill c) (Routing.registry_new (of_Z 60000)) ps) ds in
          Some (Ok (mkDeployment c tok (Routing.router_new reg (Routing.mkTuning (of_Z 10) (per_worker_rate c) 256))
                ps ds ∅ ∅ [] [] [] PRecv DRecv))
      end
  end.

(** ** What clients and channels take *)

Inductive Sent :=
  | Delivered (s : Deployment E K)
  | Closed
  | Full.

(** [tx.send(chunk).await] on the channel of a request. *)
Definition send_chunk s (id : RequestId) (c : StreamChunk) : Sent :=
  match clients s !! id with
  | Some cl =>
      if negb (c_listening cl) then Closed
      else if (c_unread cl <? CHANNEL_DEPTH)%nat
           then Delivered (set_clients s (<[id := mkClient (c_sent cl ++ [c]) (S (c_unread cl)) true]> (clients s)))
           else Full
  | None => Closed
  end.

Definition read_chunk s (id : RequestId) : Progress (Deployment E K) :=
  match clients s !! id with
  | Some (mkClient sent (S n) true) => Moved (set_clients s (<[id := mkClient sent n true]> (clients s)))
  | _ => Waits
  end.

(** The receiver is dropped, with what is in the channel. *)
Definition hang_up s (id : RequestId) : Deployment E K :=
  set_clients s (alter (fun cl => mkClient (c_sent cl) 0 false) id (clients s)).

(** ** [generate]

    The first half routes the request and opens its channel; the second puts
    the job into the channel of its prefill worker, when there is room. *)
Definition start_request {J} s (req : GenerateRequest J) (now : f64)
    : Progress (Deployment E K * result Error unit) :=
  match Routing.route (router s) (gen_prompt req) now (slo_ttft_ms (slo (dcfg s))) with
  | None => Panics
  | Some (Err _) => Moved (s, Err (Rejected (gen_id req)))
  | Some (Ok d) =>
      let pw := Z.to_nat (Routing.rd_prefill d) in
      let dw := Z.to_nat (u32_wrap (Routing.rd_decode d - DECODE_ID_BASE)) in
      let s := set_clients s (<[gen_id req := mkClient [] 0 true]> (clients s)) in
      let s := set_inflight s (<[gen_id req := mkInflight dw (max_tokens (gen_params req))]> (inflight s)) in
      let job := PrefillW.mkJob (gen_id req) (gen_prompt req)
        (fadd (gen_arrival_ms req) (slo_ttft_ms (slo (dcfg s)))) (gen_arrival_ms req) in
      match prefill s !! pw with
      | None => Panics
      | Some _ => Moved (set_starting s (starting s ++ [(pw, job)]), Ok ())
      end
  end.

(** The receiver is dropped with the call when the worker is gone. *)
Definition queue_job s (i : nat) : Progress (Deployment E K * result Error unit) :=
  match starting s !! i with
  | None => Waits
  | Some (pw, job) =>
      match prefill s !! pw with
      | None => Panics
      | Some n =>
          let s1 := set_starting s (remove_at i (starting s)) in
          if negb (pn_running n) then Moved (hang_up s1 (PrefillW.job_id job), Err EngineError)
          else if (length (pn_jobs n) <? CHANNEL_DEPTH)%nat
               then Moved (set_prefill s1 (<[pw := mkPNode (pn_worker n) (pn_jobs n ++ [job]) (pn_out n) true]> (prefill s)),
                           Ok ())
               else Waits
      end
  end.

(** The caller is dropped while it waits to queue its job. *)
Definition cancel_start s (i : nat) : Progress (Deployment E K) :=
  match starting s !! i with
  | None => Waits
  | Some (_, job) => Moved (hang_up (set_starting s (remove_at i (starting s))) (PrefillW.job_id job))
  end.

(** ** The workers' tasks

    From one receive to the next: the waiting jobs are taken, a round is run,
    and what it sends is sent before the next one. *)
Definition prefill_turn (n : PrefillNode E) (now done_at : f64) : Progress (PrefillNode E) :=
  match pn_out n with
  | _ :: _ => Waits
  | [] =>
      let w := foldl PrefillW.enqueue (pn_worker n) (pn_jobs n) in
      if decide (Sched.queue_depth (PrefillW.w_sched w) = 0%nat) then Waits
      else match PrefillW.round w now done_at with
           | None => Panics
           | Some (w', out) => Moved (mkPNode w' [] out true)
           end
  end.

Definition decode_turn (n : DecodeNode E) (now now2 : f64) : Progress (DecodeNode E) :=
  match dn_out n with
  | _ :: _ => Waits
  | [] =>
      let pending := dn_pending n ++ dn_jobs n in
      if (Decoder.concurrency (DecodeW.d_sched (dn_worker n)) =? 0) && bool_decide (pending = []) then Waits
      else match DecodeW.step (dn_worker n) pending now now2 with
           | None => Panics
           | Some (w', rest, out) => Moved (mkDNode w' [] rest out true)
           end
  end.

Definition run_prefill s (i : nat) (now done_at : f64) : Progress (Deployment E K) :=
  match prefill s !! i with
  | Some n =>
      if negb (pn_running n) then Waits
      else match prefill_turn n now done_at with
           | Moved n' => Moved (set_prefill s (<[i := n']> (prefill s)))
           | Waits => Waits
           | Panics => Panics
           end
  | None => Waits
  end.

Definition run_decode s (j : nat) (now now2 : f64) : Progress (Deployment E K) :=
  match decode s !! j with
  | Some n =>
      if negb (dn_running n) then Waits
      else match decode_turn n now now2 with
           | Moved n' => Moved (set_decode s (<[j := n']> (decode s)))
           | Waits => Waits
           | Panics => Panics
           end
  | None => Waits
  end.

Definition send_prefilled s (i : nat) : Progress (Deployment E K) :=
  match prefill s !! i with
  | Some (mkPNode w jobs (c :: out) true) =>
      if (length (prefilled s) <? CHANNEL_DEPTH)%nat
      then Moved (set_prefilled (set_prefill s (<[i := mkPNode w jobs out true]> (prefill s))) (prefilled s ++ [c]))
      else Waits
  | _ => Waits
  end.

Definition send_event s (j : nat) : Progress (Deployment E K) :=
  match decode s !! j with
  | Some (mkDNode w jobs pending (e :: out) true) =>
      if (length (events s) <? CHANNEL_DEPTH)%nat
      then Moved (set_events (set_decode s (<[j := mkDNode w jobs pending out true]> (decode s))) (events s ++ [e]))
      else Waits
  | _ => Waits
  end.

(** The task is aborted: its receiver goes, with the jobs in it. *)
Definition abort_prefill s (i : nat) : Deployment E K :=
  set_prefill s (alter (fun n => mkPNode (pn_worker n) [] [] false) i (prefill s)).

Definition abort_decode s (j : nat) : Deployment E K :=
  set_decode s (alter (fun n => mkDNode (dn_worker n) [] [] [] false) j (decode s)).

(** ** The pumps *)

Definition token_chunk s (token : Z) : StreamChunk := CToken token (Tokens.decode (tokenizer s) [token]).

(** The admission made of a completion. *)
Definition admit_of (c : PrefillW.PrefillComplete) (e : Inflight) : DecodeW.DecodeAdmit :=
  DecodeW.mkAdmit (PrefillW.pc_id c) (PrefillW.pc_first_token c) (PrefillW.pc_prompt_len c) (in_max_tokens e)
    (PrefillW.pc_finished_at_ms c).

(** A last chunk is sent, whatever becomes of it, and the pump goes on. *)
Definition send_last s (id : RequestId) (c : StreamChunk) (next : Deployment E K -> Deployment E K)
    : Progress (Deployment E K) :=
  match send_chunk s id c with
  | Delivered s1 => Moved (next s1)
  | Closed => Moved (next s)
  | Full => Waits
  end.

Definition pump_prefill s : Progress (Deployment E K) :=
  match prefill_pump s with
  | PRecv =>
      match prefilled s with
      | [] => Waits
      | c :: rest =>
          let s1 := set_prefilled s rest in
          Moved (match inflight s !! PrefillW.pc_id c with
                 | Some e => set_prefill_pump s1 (PToken c e)
                 | None => s1
                 end)
      end
  | PToken c e =>
      match send_chunk s (PrefillW.pc_id c) (token_chunk s (PrefillW.pc_first_token c)) with
      | Closed => Moved (set_prefill_pump s (PRemove (PrefillW.pc_id c)))
      | Full => Waits
      | Delivered s1 =>
          Moved (set_prefill_pump s1
            (if in_max_tokens e <=? 1 then PLast (PrefillW.pc_id c) else PAdmit (in_decode_worker e) (admit_of c e)))
      end
  | PLast id => send_last s id (CDone "length") (fun s => set_prefill_pump s (PRemove id))
  | PAdmit w a =>
      match decode s !! w with
      | None => Panics
      | Some n =>
          if negb (dn_running n) then Moved (set_prefill_pump s (PGone (DecodeW.ad_id a)))
          else if (length (dn_jobs n) <? CHANNEL_DEPTH)%nat
               then Moved (set_prefill_pump (set_decode s
                      (<[w := mkDNode (dn_worker n) (dn_jobs n ++ [a]) (dn_pending n) (dn_out n) true]> (decode s))) PRecv)
               else Waits
      end
  | PGone id => send_last s id CError (fun s => set_prefill_pump s (PRemove id))
  | PRemove id => Moved (set_prefill_pump (set_inflight s (delete id (inflight s))) PRecv)
  end.

Definition pump_decode s : Progress (Deployment E K) :=
  match decode_pump s with
  | DRecv =>
      match events s with
      | [] => Waits
      | DecodeW.EvToken id token :: rest =>
          let s1 := set_events s rest in
          Moved (match inflight s !! id with Some _ => set_decode_pump s1 (DToken id token) | None => s1 end)
      | DecodeW.EvFinished id _ :: rest =>
          let s1 := set_inflight (set_events s rest) (delete id (inflight s)) in
          Moved (match inflight s !! id with Some _ => set_decode_pump s1 (DDone id) | None => s1 end)
      end
  | DToken id token =>
      match send_chunk s id (token_chunk s token) with
      | Closed => Moved (set_decode_pump s (DRemove id))
      | Full => Waits
      | Delivered s1 => Moved (set_decode_pump s1 DRecv)
      end
  | DRemove id => Moved (set_decode_pump (set_inflight s (delete id (inflight s))) DRecv)
  | DDone id => send_last s id (CDone "length") (fun s => set_decode_pump s DRecv)
  end.

(** ** Load reports ([sync_loads], one turn) *)

Definition prefill_load (now : f64) (w : PrefillW.PrefillWorker (E := E)) : Routing.WorkerLoad :=
  let q := PrefillW.w_sched w in
  Routing.mkLoad (Sched.queued_tokens q) (u32_wrap (Z.of_nat (Sched.queue_depth q))) 0 f0 f0 (Sched.rate q) f0 now.

Definition decode_load (now : f64) (w : DecodeW.DecodeWorker (E := E)) : Routing.WorkerLoad :=
  let q := DecodeW.d_sched w in
  Routing.mkLoad 0 0 (u32_wrap (Decoder.concurrency q)) (cap (Decoder.controller q))
    (utilisation (stats (DecodeW.d_pool w))) f0 (ewma_ms (Decoder.controller q)) now.

Definition sync_loads s (now : f64) : Deployment E K :=
  let rt := router s in
  let reg1 := foldl (fun r n => Routing.update_load r (PrefillW.w_id (pn_worker n)) (prefill_load now (pn_worker n)))
    (Routing.registry rt) (prefill s) in
  let reg2 := foldl (fun r n => Routing.update_load r (DecodeW.d_id (dn_worker n)) (decode_load now (dn_worker n)))
    reg1 (decode s) in
  set_router s (Routing.mkRouter reg2 (Routing.prefix_index rt) (Routing.tuning rt)).

(** ** The metrics ([snapshot]) *)

Definition snapshot_prefill (w : PrefillW.PrefillWorker (E := E)) : list (string * f64) :=
  let q := PrefillW.w_sched w in
  let key k := ("prefill" +:+ display_worker (PrefillW.w_id w) +:+ k)%string in
  [(key "_queue_depth", of_nat (Sched.queue_depth q)); (key "_queued_tokens", of_Z (Sched.queued_tokens q));
   (key "_tokens_per_ms", Sched.rate q)]%string.

Definition snapshot_decode (w : DecodeW.DecodeWorker (E := E)) : list (string * f64) :=
  let q := DecodeW.d_sched w in
  let key k := ("decode" +:+ display_worker (DecodeW.d_id w) +:+ k)%string in
  [(key "_concurrency", of_Z (Decoder.concurrency q)); (key "_cap", cap (Decoder.controller q));
   (key "_step_ms", ewma_ms (Decoder.controller q)); (key "_kv_utilisation", utilisation (stats (DecodeW.d_pool w)));
   (key "_refusals", of_Z (Decoder.refused q))]%string.

Definition snapshot s : list (string * f64) :=
  concat (map (fun n => snapshot_prefill (pn_worker n)) (prefill s)) ++
  concat (map (fun n => snapshot_decode (dn_worker n)) (decode s)) ++
  [("inflight"%string, of_nat (size (inflight s)))].

(** ** The tasks together *)

Definition moved {A B} (p : Progress (A * B)) : Progress A :=
  match p with Moved (a, _) => Moved a | Waits => Waits | Panics => Panics end.

Definition act {J} s (a : Action J) : Progress (Deployment E K) :=
  match a with
  | Generate req now => moved (start_request s req now)
  | QueueJob i => moved (queue_job s i)
  | CancelStart i => cancel_start s i
  | RunPrefill i now done_at => run_prefill s i now done_at
  | SendPrefilled i => send_prefilled s i
  | PumpPrefill => pump_prefill s
  | RunDecode j now now2 => run_decode s j now now2
  | SendEvent j => send_event s j
  | PumpDecode => pump_decode s
  | SyncLoads now => Moved (sync_loads s now)
  | Read id => read_chunk s id
  | HangUp id => Moved (hang_up s id)
  | AbortPrefill i => Moved (abort_prefill s i)
  | AbortDecode j => Moved (abort_decode s j)
  end.

(** Actions as they occur: the front end numbers its requests, and the clock
    gives finite times. *)
Definition act_ok {J} s (a : Action J) : Prop :=
  match a with
  | Generate req _ => clients s !! gen_id req = None
  | RunPrefill _ _ done_at => DecodeW.clock done_at
  | RunDecode _ _ now2 => DecodeW.clock now2
  | _ => True
  end.

(** Reached from [s0] with at most 2^53 requests in all. *)
Inductive reach (J : Type) (s0 : Deployment E K) : Deployment E K -> Prop :=
  | reach_start : reach J s0 s0
  | reach_act s (a : Action J) s' : reach J s0 s -> act_ok s a -> act s a = Moved s' ->
      Z.of_nat (size (clients s')) <= 2 ^ 53 -> reach J s0 s'.

(** A given sequence of actions, each of which must move. *)
Fixpoint run_actions {J} s (l : list (Action J)) : option (Deployment E K) :=
  match l with
  | [] => Some s
  | a :: l => match act s a with Moved s' => run_actions s' l | _ => None end
  end.
End deployment.
End InProcess.
