(* ===== verification/InProcessInv.v ===== *)
(** * What holds while the deployment runs ([crates/worker/src/deployment.rs])

    The invariant of the tasks and channels of [InProcess]: where a request is,
    who may still write to its client, and that no task panics. *)

From Stdlib Require Import ZArith Lia.
From stdpp Require Import base option list numbers gmap strings.
From S2P Require Import Prelude F64 F64Int Core Pool Policy Prefill Controller Decode Radix Router Capacity Engine Config Wire Tokenizer Frontend Worker InProcess.

Module Joined.
Import Frontend InProcess.
Local Open Scope Z_scope.

(** Fields of an updated state. *)
Ltac proj := cbn [set_router set_prefill set_decode set_inflight set_clients set_starting set_prefilled set_events
  set_prefill_pump set_decode_pump dcfg tokenizer router prefill decode inflight clients starting prefilled events
  prefill_pump decode_pump] in *.

Section invariant.
Context {E K : Type} {IE : Engine E} {IL : EngineLaws E} {IT : EngineTracks E} {IK : Tokens.Tokenizer K}.
Implicit Types s : Deployment E K.

(** ** Where a request is

    Before decoding it waits to be queued, is with a prefill worker, is on its
    way to a decode worker, or waits there; then it runs there. *)

Definition at_prefill (id : Z) (n : PrefillNode E) : Z :=
  zsum (fun j => is_id id (PrefillW.job_id j)) (pn_jobs n) + has (Sched.queue (PrefillW.w_sched (pn_worker n))) id +
  zsum (fun c => is_id id (PrefillW.pc_id c)) (pn_out n).

Definition waiting (id : Z) (n : DecodeNode E) : Z :=
  zsum (fun a => is_id id (DecodeW.ad_id a)) (dn_jobs n) + zsum (fun a => is_id id (DecodeW.ad_id a)) (dn_pending n).

Definition at_pump (id : Z) (p : PrefillPump) : Z :=
  match p with
  | PRecv => 0
  | PToken c _ => is_id id (PrefillW.pc_id c)
  | PAdmit _ a => is_id id (DecodeW.ad_id a)
  | PLast i | PGone i | PRemove i => is_id id i
  end.

Definition early (id : Z) s : Z :=
  zsum (fun q => is_id id (PrefillW.job_id q.2)) (starting s) + zsum (at_prefill id) (prefill s) +
  zsum (fun c => is_id id (PrefillW.pc_id c)) (prefilled s) + at_pump id (prefill_pump s) +
  zsum (waiting id) (decode s).

Definition runs (id : Z) (n : DecodeNode E) : Z := has (Decoder.running (DecodeW.d_sched (dn_worker n))) id.
Definition decoding (id : Z) s : Z := zsum (runs id) (decode s).

(** What decode engines and their events speak of. *)
Definition about (id : Z) (e : DecodeW.DecodeEvent) : Prop :=
  match e with DecodeW.EvToken i _ | DecodeW.EvFinished i _ => i = id end.

Definition node_mentions (id : Z) (n : DecodeNode E) : Prop :=
  Exists (about id) (dn_out n) \/ tracked (DecodeW.d_engine (dn_worker n)) id.

Definition pump_mentions (id : Z) (p : DecodePump) : Prop :=
  match p with DRecv => False | DToken i _ | DRemove i | DDone i => i = id end.

Definition mentions (id : Z) s : Prop :=
  Exists (about id) (events s) \/ pump_mentions id (decode_pump s) \/ Exists (node_mentions id) (decode s).

(** Who may still write to the client: somebody who finds the map's entry, or
    a pump that has taken the sender out of it. *)
Definition pump_sends (id : Z) (p : PrefillPump) : Prop :=
  match p with
  | PToken c _ => PrefillW.pc_id c = id
  | PAdmit _ a => DecodeW.ad_id a = id
  | PLast i | PGone i => i = id
  | PRecv | PRemove _ => False
  end.

Definition sender (id : Z) s : Prop :=
  (is_Some (inflight s !! id) /\ prefill_pump s <> PRemove id) \/ pump_sends id (prefill_pump s) \/
  (exists token, decode_pump s = DToken id token) \/ decode_pump s = DDone id.

(** ** The invariant *)

Record pnode_ok (n : PrefillNode E) : Prop := {
  pn_inv : PrefillW.worker_inv (pn_worker n);
  pn_engine : engine_ok (PrefillW.w_engine (pn_worker n));
  pn_clocks : Forall (fun c => DecodeW.clock (PrefillW.pc_finished_at_ms c)) (pn_out n)
}.

Record dnode_ok (n : DecodeNode E) : Prop := {
  dn_inv : DecodeW.dworker_inv (dn_worker n);
  dn_clocks : Forall (fun a => DecodeW.clock (DecodeW.ad_first_token_ms a)) (dn_pending n ++ dn_jobs n)
}.

Definition pump_clock (p : PrefillPump) : Prop :=
  match p with
  | PToken c _ => DecodeW.clock (PrefillW.pc_finished_at_ms c)
  | PAdmit _ a => DecodeW.clock (DecodeW.ad_first_token_ms a)
  | _ => True
  end.

(** The tasks are in order. *)
Record nodes_ok s : Prop := {
  no_prefill : Forall pnode_ok (prefill s);
  no_decode : Forall dnode_ok (decode s);
  no_prefilled : Forall (fun c => DecodeW.clock (PrefillW.pc_finished_at_ms c)) (prefilled s);
  no_pump : pump_clock (prefill_pump s)
}.

(** A request is in one place, and decoding speaks only of those that have
    reached it. *)
Record places_ok s : Prop := {
  po_once : forall id, early id s + decoding id s <= has (clients s) id;
  po_mentions : forall id, mentions id s -> early id s = 0 /\ has (clients s) id = 1;
  po_entry : forall id, 0 < early id s -> is_Some (inflight s !! id)
}.

Definition pump_index (n : nat) (p : PrefillPump) : Prop :=
  match p with PToken _ e => (in_decode_worker e < n)%nat | PAdmit w _ => (w < n)%nat | _ => True end.

(** The registry names the workers there are. *)
Definition in_range (p d : nat) (w : Routing.WorkerState) : Prop :=
  match Routing.role w with
  | Routing.Prefill => 0 <= Routing.wid w < Z.of_nat p
  | Routing.Decode => DECODE_ID_BASE <= Routing.wid w < DECODE_ID_BASE + Z.of_nat d
  end.

Definition fits (p d : nat) (r : Routing.WorkerRegistry) : Prop :=
  Routing.reg_inv r /\ map_Forall (fun _ w => in_range p d w) (Routing.reg_workers r).

(** Workers exist where they are looked up. *)
Record routes_ok s : Prop := {
  ro_index : Trie.index_inv (Routing.prefix_index (router s));
  ro_registry : fits (length (prefill s)) (length (decode s)) (Routing.registry (router s));
  ro_small : Z.of_nat (length (decode s)) <= 2 ^ 31;
  ro_starting : Forall (fun q => (q.1 < length (prefill s))%nat) (starting s);
  ro_inflight : map_Forall (fun _ e => (in_decode_worker e < length (decode s))%nat) (inflight s);
  ro_pump : pump_index (length (decode s)) (prefill_pump s)
}.

(** A client whose stream somebody may still write to has seen tokens only. *)
Record streams_ok s : Prop := {
  st_open : forall id, sender id s -> exists cl, clients s !! id = Some cl /\ Forall (fun c => is_token c = true) (c_sent cl);
  st_shape : map_Forall (fun _ cl => stream_shape (c_sent cl)) (clients s);
  st_done : forall id, decode_pump s = DDone id -> inflight s !! id = None
}.

Record joined s : Prop := {
  j_nodes : nodes_ok s;
  j_places : places_ok s;
  j_routes : routes_ok s;
  j_streams : streams_ok s
}.

(** ** Steps that move requests along *)

Definition shifts s s' : Prop := forall id,
  has (clients s') id = has (clients s) id /\
  early id s' <= early id s /\ early id s' + decoding id s' <= early id s + decoding id s /\
  (is_Some (inflight s !! id) -> 0 < early id s' -> is_Some (inflight s' !! id)) /\
  (mentions id s' -> mentions id s \/ 0 < early id s + decoding id s /\ early id s' = 0).

Lemma at_prefill_nonneg id n : 0 <= at_prefill id n.
Proof.
  unfold at_prefill. pose proof (has_nonneg (Sched.queue (PrefillW.w_sched (pn_worker n))) id).
  pose proof (zsum_nonneg (fun j => is_id id (PrefillW.job_id j)) (pn_jobs n) ltac:(intros; apply is_id_nonneg)).
  pose proof (zsum_nonneg (fun c => is_id id (PrefillW.pc_id c)) (pn_out n) ltac:(intros; apply is_id_nonneg)). lia.
Qed.

Lemma waiting_nonneg id n : 0 <= waiting id n.
Proof.
  unfold waiting.
  pose proof (zsum_nonneg (fun a => is_id id (DecodeW.ad_id a)) (dn_jobs n) ltac:(intros; apply is_id_nonneg)).
  pose proof (zsum_nonneg (fun a => is_id id (DecodeW.ad_id a)) (dn_pending n) ltac:(intros; apply is_id_nonneg)). lia.
Qed.

Lemma at_pump_nonneg id p : 0 <= at_pump id p.
Proof. destruct p; cbn [at_pump]; first [done|apply is_id_nonneg]. Qed.

Lemma runs_nonneg id n : 0 <= runs id n.
Proof. apply has_nonneg. Qed.

(** Each kind of place, apart. *)
Lemma early_parts id s :
  0 <= zsum (fun q => is_id id (PrefillW.job_id q.2)) (starting s) /\ 0 <= zsum (at_prefill id) (prefill s) /\
  0 <= zsum (fun c => is_id id (PrefillW.pc_id c)) (prefilled s) /\ 0 <= at_pump id (prefill_pump s) /\
  0 <= zsum (waiting id) (decode s) /\ 0 <= decoding id s.
Proof.
  split_and!; try (apply zsum_nonneg; intros);
    first [apply is_id_nonneg|apply at_prefill_nonneg|apply waiting_nonneg|apply runs_nonneg|apply at_pump_nonneg].
Qed.

Lemma early_nonneg id s : 0 <= early id s.
Proof. pose proof (early_parts id s). unfold early. lia. Qed.

Lemma shifts_places s s' : places_ok s -> shifts s s' -> places_ok s'.
Proof.
  intros [H1 H2 H3] Hs. split; intros id; destruct (Hs id) as (Hc & He & Hd & Hi & Hm); rewrite ?Hc; [pose proof (H1 id); lia| |].
  - intros [H|[Hpos Hz]]%Hm.
    + destruct (H2 id H). pose proof (early_nonneg id s'). split; [lia|done].
    + split; [done|]. pose proof (H1 id). pose proof (early_parts id s). pose proof (has_nonneg (clients s) id). lia.
  - intros Hpos. apply Hi; [|done]. apply H3. lia.
Qed.

Lemma shifts_refl s : shifts s s.
Proof. intros id. split; [done|]. split; [lia|]. split; [lia|]. split; [done|]. by left. Qed.

Lemma shifts_trans s1 s2 s3 : shifts s1 s2 -> shifts s2 s3 -> shifts s1 s3.
Proof.
  intros H H' id. destruct (H id) as (Hc & He & Hd & Hi & Hm), (H' id) as (Hc' & He' & Hd' & Hi' & Hm').
  split; [congruence|]. split; [lia|]. split; [lia|]. split.
  - intros Hs Hpos. apply Hi'; [|done]. apply Hi; [done|lia].
  - pose proof (early_nonneg id s3). intros [[?|[??]]%Hm|[??]]%Hm'; [by left|right; lia..].
Qed.

(** Steps that send nothing to a client. *)
Definition quiet s s' : Prop :=
  (forall id, c_sent <$> clients s' !! id = c_sent <$> clients s !! id) /\
  (forall id, sender id s' -> sender id s) /\
  (forall id, decode_pump s' = DDone id -> inflight s' !! id = None).

Lemma quiet_streams s s' : streams_ok s -> quiet s s' -> streams_ok s'.
Proof.
  intros [H1 H2 H3] (Hc & Hs & Hd). split; [|intros id cl Hcl|done].
  - intros id (cl & Hcl & Ht)%Hs%H1. specialize (Hc id). rewrite Hcl in Hc.
    destruct (clients s' !! id) as [cl'|]; [|done]. injection Hc as Hc. exists cl'. by rewrite Hc.
  - specialize (Hc id). rewrite Hcl in Hc. destruct (clients s !! id) as [cl0|] eqn:E0; [|done].
    injection Hc as Hc. rewrite Hc. by apply (H2 id).
Qed.

(** A step that keeps all in order and moves requests only along. *)
Definition advance s s' : Prop := joined s' /\ shifts s s'.

Lemma advance_intro s s' : joined s -> nodes_ok s' -> shifts s s' -> routes_ok s' -> streams_ok s' -> advance s s'.
Proof. intros Hj Hn Hs Hr Hst. split; [|done]. split; try done. by eapply shifts_places; [apply Hj|]. Qed.

Lemma advance_refl s : joined s -> advance s s.
Proof. intros Hj. split; [done|apply shifts_refl]. Qed.

Lemma advance_trans s1 s2 s3 : advance s1 s2 -> (joined s2 -> advance s2 s3) -> advance s1 s3.
Proof. intros [Hj Hs] H. destruct (H Hj) as [Hj' Hs']. split; [done|by eapply shifts_trans]. Qed.

(** ** Small facts *)

Lemma clients_has (m m' : gmap Z Client) id : c_sent <$> m' !! id = c_sent <$> m !! id -> has m' id = has m id.
Proof.
  intros H. apply has_eq. by destruct (m' !! id), (m !! id).
Qed.

(** What a step leaves alone. *)
Lemma routes_same s s' : router s' = router s -> length (prefill s') = length (prefill s) ->
  length (decode s') = length (decode s) ->
  Forall (fun q => (q.1 < length (prefill s))%nat) (starting s') ->
  (forall id e, inflight s' !! id = Some e -> inflight s !! id = Some e) ->
  pump_index (length (decode s)) (prefill_pump s') -> routes_ok s -> routes_ok s'.
Proof.
  intros Hr Hp Hd Hs Hi Hpp [H1 H2 H4 H5 H6 H7]. split; rewrite ?Hr, ?Hp, ?Hd; try done.
  intros id e He. by apply (H6 id), Hi.
Qed.

Lemma at_prefill_early id s i n : prefill s !! i = Some n -> at_prefill id n <= early id s.
Proof.
  intros H. pose proof (early_parts id s). unfold early.
  pose proof (zsum_elem (at_prefill id) (prefill s) n ltac:(intros; apply at_prefill_nonneg)
    ltac:(by eapply list_elem_of_lookup_2)). lia.
Qed.

Lemma waiting_early id s j n : decode s !! j = Some n -> waiting id n <= early id s /\ runs id n <= decoding id s.
Proof.
  intros H. pose proof (early_parts id s). unfold early.
  pose proof (zsum_elem (waiting id) (decode s) n ltac:(intros; apply waiting_nonneg)
    ltac:(by eapply list_elem_of_lookup_2)).
  pose proof (zsum_elem (runs id) (decode s) n ltac:(intros; apply runs_nonneg)
    ltac:(by eapply list_elem_of_lookup_2)). unfold decoding. lia.
Qed.

Lemma once id s : places_ok s -> 0 <= early id s /\ 0 <= decoding id s /\ early id s + decoding id s <= 1.
Proof.
  intros [H1 _]. specialize (H1 id). pose proof (early_parts id s). pose proof (has_nonneg (clients s) id).
  pose proof (early_nonneg id s). lia.
Qed.

(** ** Clients *)

Lemma clients_advances s m : (forall id, c_sent <$> m !! id = c_sent <$> clients s !! id) -> joined s ->
  advance s (set_clients s m).
Proof.
  intros Hm Hj. pose proof Hj as [[N1 N2 N3 N4] Hp Hr Hst]. apply advance_intro; [done|..].
  - by split.
  - intros id. proj. split; [by apply clients_has|].
    split; [done|]. split; [done|]. split; [done|]. by left.
  - by destruct Hr.
  - eapply quiet_streams; [exact Hst|]. split; [exact Hm|]. split; [done|]. apply Hst.
Qed.

Lemma hang_up_advances s id : joined s -> advance s (hang_up s id).
Proof.
  apply clients_advances. intros i. destruct (decide (i = id)) as [->|Hne].
  - rewrite lookup_alter_eq. by destruct (clients s !! id).
  - by rewrite lookup_alter_ne.
Qed.

Lemma read_advances s id s' : joined s -> read_chunk s id = Moved s' -> advance s s'.
Proof.
  unfold read_chunk. intros Hj. destruct (clients s !! id) as [[sent [|n] [|]]|] eqn:E0; try done. intros [= <-].
  apply clients_advances; [|done]. intros i. destruct (decide (i = id)) as [->|Hne].
  - by rewrite lookup_insert_eq, E0.
  - by rewrite lookup_insert_ne.
Qed.

(** ** Queueing a job *)

Lemma starting_advances s i : joined s -> advance s (set_starting s (remove_at i (starting s))).
Proof.
  intros Hj. pose proof Hj as [[N1 N2 N3 N4] Hp Hr Hst]. apply advance_intro; [done|..].
  - by split.
  - intros id. unfold early, decoding, mentions. proj.
    assert (zsum (fun q => is_id id (PrefillW.job_id q.2)) (remove_at i (starting s)) <=
      zsum (fun q => is_id id (PrefillW.job_id q.2)) (starting s)) as Hle.
    { destruct (starting s !! i) as [q|] eqn:E0.
      - rewrite (zsum_remove _ _ _ _ E0). pose proof (is_id_nonneg id (PrefillW.job_id q.2)). lia.
      - unfold remove_at. apply lookup_ge_None in E0. rewrite take_ge, drop_ge by lia. by rewrite app_nil_r. }
    split; [done|]. split; [lia|]. split; [lia|]. split; [done|]. by left.
  - eapply routes_same; [..|exact Hr]; try done; [apply Forall_remove, Hr|apply Hr].
  - eapply quiet_streams; [exact Hst|]. split; [done|]. split; [done|]. apply Hst.
Qed.

Lemma cancel_advances s i s' : joined s -> cancel_start s i = Moved s' -> advance s s'.
Proof.
  unfold cancel_start. intros Hj. destruct (starting s !! i) as [[pw job]|]; [|done]. intros [= <-].
  eapply advance_trans; [by apply starting_advances|apply hang_up_advances].
Qed.

Lemma at_prefill_push id n job r : at_prefill id (mkPNode (pn_worker n) (pn_jobs n ++ [job]) (pn_out n) r) =
  at_prefill id n + is_id id (PrefillW.job_id job).
Proof. unfold at_prefill. cbn [pn_jobs pn_worker pn_out]. rewrite zsum_app. cbn [zsum foldr]. lia. Qed.

Lemma queue_advances s i s' r : joined s -> queue_job s i = Moved (s', r) -> advance s s'.
Proof.
  unfold queue_job. intros Hj. destruct (starting s !! i) as [[pw job]|] eqn:Hi; [|done].
  destruct (prefill s !! pw) as [n|] eqn:Hn; [|done]. destruct (pn_running n); cbn [negb].
  2: { intros [= <- _]. eapply advance_trans; [by apply starting_advances|apply hang_up_advances]. }
  destruct (_ <? _)%nat; [|done]. intros [= <- _].
  destruct (starting_advances s i Hj) as [[[N1 N2 N3 N4] _ Hr Hst] _]. apply advance_intro; [done|..].
  - split; proj; try done. apply Forall_insert; [done|].
    assert (pnode_ok n) as [] by by eapply Forall_lookup_1. by split.
  - intros id. unfold early, decoding, mentions. proj.
    rewrite (zsum_remove _ _ _ _ Hi), (zsum_insert _ _ _ _ _ Hn). rewrite at_prefill_push. cbn [snd].
    split; [done|]. split; [lia|]. split; [lia|]. split; [done|]. by left.
  - eapply routes_same; [..|exact Hr]; proj; try done; [by rewrite length_insert|apply Hr|apply Hr].
  - eapply quiet_streams; [exact Hst|]. split; [done|]. split; [done|]. apply Hst.
Qed.

(** ** The prefill workers *)

(** A prefill worker's node is replaced by one that holds no more. *)
Lemma pnode_advances s i n n' : joined s -> prefill s !! i = Some n -> pnode_ok n' ->
  (forall id, at_prefill id n' <= at_prefill id n) -> advance s (set_prefill s (<[i := n']> (prefill s))).
Proof.
  intros Hj Hn Hok Hat. pose proof Hj as [[N1 N2 N3 N4] Hp Hr Hst]. apply advance_intro; [done|..].
  - split; proj; try done. by apply Forall_insert.
  - intros id. unfold early, decoding, mentions. proj.
    rewrite (zsum_insert _ _ _ _ _ Hn). specialize (Hat id). split; [done|]. split; [lia|]. split; [lia|]. split; [done|]. by left.
  - eapply routes_same; [..|exact Hr]; proj; try done; [by rewrite length_insert|apply Hr..].
  - eapply quiet_streams; [exact Hst|]. split; [done|]. split; [done|]. apply Hst.
Qed.

Lemma enqueue_all jobs : forall w : PrefillW.PrefillWorker (E := E), PrefillW.worker_inv w ->
  (forall id, zsum (fun j => is_id id (PrefillW.job_id j)) jobs + has (Sched.queue (PrefillW.w_sched w)) id <= 1) ->
  let w' := foldl PrefillW.enqueue w jobs in
  PrefillW.worker_inv w' /\ PrefillW.w_engine w' = PrefillW.w_engine w /\ PrefillW.w_id w' = PrefillW.w_id w /\
  forall id, has (Sched.queue (PrefillW.w_sched w')) id =
    zsum (fun j => is_id id (PrefillW.job_id j)) jobs + has (Sched.queue (PrefillW.w_sched w)) id.
Proof.
  induction jobs as [|j jobs IH]; intros w Hw Hone; cbn [foldl]; [done|].
  assert (Sched.queue (PrefillW.w_sched w) !! PrefillW.job_id j = None) as Hn.
  { specialize (Hone (PrefillW.job_id j)). rewrite zsum_cons, is_id_same in Hone.
    pose proof (zsum_nonneg (fun j0 => is_id (PrefillW.job_id j) (PrefillW.job_id j0)) jobs ltac:(intros; apply is_id_nonneg)).
    destruct (_ !! _) eqn:E0; [|done]. rewrite (has_Some _ _ _ E0) in Hone. lia. }
  assert (forall id, has (Sched.queue (PrefillW.w_sched (PrefillW.enqueue w j))) id =
    has (Sched.queue (PrefillW.w_sched w)) id + is_id id (PrefillW.job_id j)) as He.
  { intros id. cbn [PrefillW.enqueue PrefillW.w_sched Sched.enqueue Sched.queue Sched.pid]. by apply has_insert. }
  destruct (IH (PrefillW.enqueue w j)) as (H1 & H2 & H3 & H4).
  - by apply PrefillW.job_enqueue_inv.
  - intros id. rewrite He. specialize (Hone id). rewrite zsum_cons in Hone. lia.
  - split; [done|]. split; [done|]. split; [done|]. intros id. rewrite H4, He, zsum_cons. lia.
Qed.

(** A round of a worker in order does not panic. *)
Lemma prefill_turn_ok n now done_at : pnode_ok n -> (forall id, at_prefill id n <= 1) -> DecodeW.clock done_at ->
  prefill_turn n now done_at <> Panics /\
  forall n', prefill_turn n now done_at = Moved n' ->
    pnode_ok n' /\ PrefillW.w_id (pn_worker n') = PrefillW.w_id (pn_worker n) /\
    (forall id, at_prefill id n' <= at_prefill id n).
Proof.
  intros [H1 H2 H3] Hone Hd. unfold prefill_turn. destruct (pn_out n) eqn:Hout; [|done].
  destruct (enqueue_all (pn_jobs n) (pn_worker n) H1) as (Hw & He & Hid & Hq).
  { intros id. specialize (Hone id). unfold at_prefill in Hone. rewrite Hout in Hone. cbn [zsum foldr] in Hone. lia. }
  set (w := foldl _ _ _) in *. destruct (decide _); [done|].
  rewrite <- He in H2. destruct (PrefillW.round_returns w now done_at Hw H2) as (w' & sent & Hr & Hw'). rewrite Hr.
  split; [done|]. intros n' [= <-].
  destruct (PrefillW.round_engine w now done_at w' sent H2 Hr) as (He' & Hid' & Hsent). cbn [pn_worker].
  split; [|split; [congruence|]].
  - split; cbn [pn_worker pn_out]; [done|done|]. eapply Forall_impl; [exact Hsent|]. by intros c ->.
  - intros id. unfold at_prefill. cbn [pn_jobs pn_worker pn_out]. rewrite Hout. cbn [zsum foldr].
    pose proof (PrefillW.round_moves w now done_at w' sent id Hw H2 Hr) as Hm. rewrite zsum_map, Hq in Hm. lia.
Qed.

Lemma run_prefill_advances s i now done_at : joined s -> DecodeW.clock done_at ->
  run_prefill s i now done_at <> Panics /\ forall s', run_prefill s i now done_at = Moved s' -> advance s s'.
Proof.
  intros Hj Hd. unfold run_prefill. destruct (prefill s !! i) as [n|] eqn:Hn; [|done].
  destruct (pn_running n); [cbn [negb]|done].
  assert (pnode_ok n) as Hok by (eapply Forall_lookup_1; [apply Hj|done]).
  destruct (prefill_turn_ok n now done_at Hok) as [Hp Ht]; [|done|].
  { intros id. pose proof (at_prefill_early id s i n Hn). pose proof (once id s (j_places _ Hj)). lia. }
  destruct (prefill_turn n now done_at) as [n'| |]; try done. split; [done|]. intros s' [= <-].
  destruct (Ht n' eq_refl) as (H1 & _ & H2). by eapply pnode_advances.
Qed.

Lemma at_prefill_pop id w jobs c out r : at_prefill id (mkPNode w jobs (c :: out) r) =
  at_prefill id (mkPNode w jobs out r) + is_id id (PrefillW.pc_id c).
Proof. unfold at_prefill. cbn [pn_jobs pn_worker pn_out]. rewrite zsum_cons. lia. Qed.

Lemma send_prefilled_advances s i s' : joined s -> send_prefilled s i = Moved s' -> advance s s'.
Proof.
  unfold send_prefilled. intros Hj. destruct (prefill s !! i) as [[w jobs [|c out] [|]]|] eqn:Hn; try done.
  destruct (_ <? _)%nat; [|done]. intros [= <-]. pose proof Hj as [[N1 N2 N3 N4] Hp Hr Hst].
  assert (pnode_ok (mkPNode w jobs (c :: out) true)) as [P1 P2 P3] by by eapply Forall_lookup_1.
  cbn [pn_worker pn_out] in *. apply Forall_cons in P3 as [P3 P4]. apply advance_intro; [done|..].
  - split; proj; try done; [apply Forall_insert; [done|by split]|apply Forall_app; split; [done|by constructor]].
  - intros id. unfold early, decoding, mentions. proj.
    rewrite (zsum_insert _ _ _ _ _ Hn), zsum_app, at_prefill_pop, zsum_cons.
    change (zsum _ []) with 0.
    split; [done|]. split; [lia|]. split; [lia|]. split; [done|]. by left.
  - eapply routes_same; [..|exact Hr]; proj; try done; [by rewrite length_insert|apply Hr..].
  - eapply quiet_streams; [exact Hst|]. split; [done|]. split; [done|]. apply Hst.
Qed.

Lemma abort_prefill_advances s i : joined s -> advance s (abort_prefill s i).
Proof.
  intros Hj. unfold abort_prefill. destruct (prefill s !! i) as [n|] eqn:Hn.
  - rewrite (list_alter_Some _ _ _ _ Hn). eapply pnode_advances; [done|done| |].
    + assert (pnode_ok n) as [] by (eapply Forall_lookup_1; [apply Hj|done]). by split; [..|constructor].
    + intros id. unfold at_prefill. cbn [pn_jobs pn_worker pn_out zsum foldr].
      pose proof (zsum_nonneg (fun j => is_id id (PrefillW.job_id j)) (pn_jobs n) ltac:(intros; apply is_id_nonneg)).
      pose proof (zsum_nonneg (fun c => is_id id (PrefillW.pc_id c)) (pn_out n) ltac:(intros; apply is_id_nonneg)). 
      unfold zsum in *. lia.
  - rewrite list_alter_None by done. apply (advance_refl s) in Hj. by destruct s.
Qed.

(** ** The decode workers *)

(** A decode worker's node is replaced by one that moved its requests on. *)
Definition node_shifts (n n' : DecodeNode E) : Prop := forall id,
  waiting id n' <= waiting id n /\ waiting id n' + runs id n' <= waiting id n + runs id n /\
  (node_mentions id n' -> node_mentions id n \/ 0 < waiting id n + runs id n /\ waiting id n' = 0).

Lemma dnode_advances s j n n' : joined s -> decode s !! j = Some n -> dnode_ok n' -> node_shifts n n' ->
  advance s (set_decode s (<[j := n']> (decode s))).
Proof.
  intros Hj Hn Hok Hat. pose proof Hj as [[N1 N2 N3 N4] Hp Hr Hst]. apply advance_intro; [done|..].
  - split; proj; try done. by apply Forall_insert.
  - intros id. destruct (Hat id) as (H1 & H2 & H3).
    pose proof (once id s Hp) as (_ & _ & Ho). pose proof (early_parts id s) as Hpos.
    destruct (waiting_early id s j n Hn) as [Hw Hd].
    pose proof (zsum_insert (waiting id) (decode s) j n n' Hn) as Z1.
    pose proof (zsum_insert (runs id) (decode s) j n n' Hn) as Z2.
    pose proof (waiting_nonneg id n). pose proof (waiting_nonneg id n').
    pose proof (runs_nonneg id n). pose proof (runs_nonneg id n').
    assert (mentions id (set_decode s (<[j := n']> (decode s))) -> mentions id s \/ node_mentions id n') as Hm.
    { unfold mentions. proj. intros [?|[?|[?|?]%Exists_insert]]; tauto. }
    unfold decoding, early in *. proj. split; [done|]. split; [lia|]. split; [lia|]. split; [done|].
    intros [|[Hm'|[Hpos' Hz]]%H3]%Hm; [by left|left|right].
    + right; right. by eapply Exists_lookup.
    + split; [lia|]. 
      destruct (decide (0 < waiting id n)); [lia|].
      assert (0 < zsum (runs id) (decode s)) by lia. lia.
  - eapply routes_same; [..|exact Hr]; proj; try done; [by rewrite length_insert|apply Hr..].
  - eapply quiet_streams; [exact Hst|]. split; [done|]. split; [done|]. apply Hst.
Qed.

(** The jobs a worker in order takes up: different requests, none of them
    running. *)
Lemma waiting_ids id n : waiting id n = zsum (is_id id) (map DecodeW.ad_id (dn_pending n ++ dn_jobs n)).
Proof. unfold waiting. rewrite zsum_map, zsum_app. lia. Qed.

Lemma node_pending_ok n : dnode_ok n -> (forall id, 0 <= waiting id n + runs id n <= 1) ->
  DecodeW.pending_ok (dn_worker n) (dn_pending n ++ dn_jobs n).
Proof.
  intros [_ H2] Hone. split.
  - apply once_NoDup. intros id. rewrite <- waiting_ids. specialize (Hone id). pose proof (runs_nonneg id n). lia.
  - intros a Ha. specialize (Hone (DecodeW.ad_id a)). rewrite waiting_ids in Hone.
    assert (DecodeW.ad_id a ∈ map DecodeW.ad_id (dn_pending n ++ dn_jobs n)) as Hin%ids_elem by by apply list_elem_of_fmap_2.
    unfold runs in Hone. destruct (_ !! _) eqn:E0; [|done]. rewrite (has_Some _ _ _ E0) in Hone. lia.
  - by rewrite <- Forall_forall.
Qed.

(** An iteration of a worker in order does not panic. *)
Lemma decode_turn_ok n now now2 : dnode_ok n -> (forall id, 0 <= waiting id n + runs id n <= 1) -> DecodeW.clock now2 ->
  Decoder.concurrency (DecodeW.d_sched (dn_worker n)) + Z.of_nat (length (dn_pending n ++ dn_jobs n)) <= 2 ^ 53 ->
  decode_turn n now now2 <> Panics /\
  forall n', decode_turn n now now2 = Moved n' ->
    dnode_ok n' /\ DecodeW.d_id (dn_worker n') = DecodeW.d_id (dn_worker n) /\ node_shifts n n'.
Proof.
  intros [H1 H2] Hone Hc Hsize. unfold decode_turn. destruct (dn_out n) eqn:Hout; [|done].
  pose proof (node_pending_ok n ltac:(by split) Hone) as Hp. pose proof (fun id => waiting_ids id n) as Hwait.
  set (pending := dn_pending n ++ dn_jobs n) in *. set (w := dn_worker n) in *.
  destruct (_ && _); [done|].
  destruct (DecodeW.decode_step_spec w pending now now2 H1 Hp Hc Hsize) as
    (w1 & rest & w' & ev & Ha & Hw1 & Hs & Hw' & Hp' & _ & Hrun & Hfin). rewrite Hs.
  split; [done|]. intros n' [= <-].
  destruct (DecodeW.admit_loop_takes pending w w1 rest (DecodeW.dw_engine _ H1) Ha) as (_ & Hid & taken & Ht & Hrun1 & Htr1).
  destruct (DecodeW.step_tracks w pending now now2 w1 rest w' ev (DecodeW.dw_engine _ Hw1) Ha Hs) as (Hid' & Htr & Htok).
  split; [|split; [cbn [dn_worker]; congruence|]].
  { split; cbn [dn_worker dn_pending dn_jobs]; [done|]. rewrite app_nil_r. apply Forall_forall, Hp'. }
  intros id. specialize (Hone id). rewrite (Hwait id) in *. unfold waiting, runs, node_mentions in *.
  cbn [dn_jobs dn_pending dn_worker dn_out] in *. change (zsum _ []) with 0.
  rewrite <- (zsum_map (is_id id) DecodeW.ad_id rest), Z.add_0_l. rewrite Ht, map_app, zsum_app in *. fold w in Hone |- *.
  pose proof (ids_nonneg id (map DecodeW.ad_id taken)) as Hz. pose proof (ids_nonneg id (map DecodeW.ad_id rest)).
  pose proof (has_nonneg (Decoder.running (DecodeW.d_sched w)) id).
  pose proof (has_nonneg (Decoder.running (DecodeW.d_sched w')) id).
  assert (forall P : Prop, P \/ id ∈ map DecodeW.ad_id taken -> P \/ 0 < zsum (is_id id) (map DecodeW.ad_id taken)) as Htk.
  { intros P [?|?%ids_elem]; [by left|by right]. }
  split; [lia|]. split.
  - destruct (Decoder.running (DecodeW.d_sched w') !! id) eqn:E0; [|rewrite (has_None _ _ E0); lia].
    assert (is_Some (Decoder.running (DecodeW.d_sched w') !! id)) as [[q Hq]|]%Hrun%Hrun1%Htk by eauto; [|lia].
    rewrite (has_Some _ _ _ Hq) in *. lia.
  - intros [Hev|[?|?]%Htr%Htr1%Htk]; [|by left; right|right; lia].
    apply Exists_exists in Hev as ([i token|i k] & Hin & Hab); cbn [about] in Hab; subst i.
    + apply Htok in Hin as [?|?]%Htr1%Htk; [by left; right|right; lia].
    + apply Hfin in Hin as [[[q Hq]|]%Hrun1%Htk _]; right; [rewrite (has_Some _ _ _ Hq) in *; lia|lia].
Qed.

(** The sequences of a worker are requests of different clients. *)
Lemma sequences_bound (running : gmap Z Decoder.RunningSeq) (pending : list DecodeW.DecodeAdmit) (m : gmap Z Client) :
  (forall id, zsum (is_id id) (map DecodeW.ad_id pending) + has running id <= has m id) ->
  (size running + length pending <= size m)%nat.
Proof.
  intros H. assert (NoDup (map DecodeW.ad_id pending)) as Hnd.
  { apply once_NoDup. intros id. specialize (H id). pose proof (has_nonneg running id). pose proof (has_nonneg m id). lia. }
  rewrite <- (length_map DecodeW.ad_id pending), <- (size_list_to_set (C := gset Z) _ Hnd), <- (size_dom running), <- (size_dom m).
  rewrite <- size_union.
  - apply subseteq_size. intros id Hid. apply elem_of_dom. specialize (H id). destruct (has_pos m id) as [a Ha]; [|by eexists].
    pose proof (ids_nonneg id (map DecodeW.ad_id pending)). pose proof (has_nonneg running id).
    apply elem_of_union in Hid as [[a Ha]%elem_of_dom|Hid%elem_of_list_to_set%ids_elem]; [rewrite (has_Some _ _ _ Ha) in *; lia|lia].
  - intros id [a Ha]%elem_of_dom Hid%elem_of_list_to_set%ids_elem. specialize (H id). pose proof (has_nonneg m id).
    rewrite (has_Some _ _ _ Ha) in H. lia.
Qed.

Lemma node_once s j n id : places_ok s -> decode s !! j = Some n -> 0 <= waiting id n + runs id n <= 1.
Proof.
  intros Hp Hn. destruct (waiting_early id s j n Hn). pose proof (once id s Hp). pose proof (waiting_nonneg id n).
  pose proof (runs_nonneg id n). lia.
Qed.

Lemma node_size s j n : places_ok s -> Z.of_nat (size (clients s)) <= 2 ^ 53 -> decode s !! j = Some n ->
  Decoder.concurrency (DecodeW.d_sched (dn_worker n)) + Z.of_nat (length (dn_pending n ++ dn_jobs n)) <= 2 ^ 53.
Proof.
  intros Hp Hsize Hn.
  assert (size (Decoder.running (DecodeW.d_sched (dn_worker n))) + length (dn_pending n ++ dn_jobs n) <= size (clients s))%nat;
    [|unfold Decoder.concurrency; lia].
  apply sequences_bound. intros id. destruct (waiting_early id s j n Hn) as [Hw Hr]. pose proof (po_once _ Hp id).
  rewrite waiting_ids in Hw. unfold runs in Hr. lia.
Qed.

Lemma run_decode_advances s j now now2 : joined s -> DecodeW.clock now2 -> Z.of_nat (size (clients s)) <= 2 ^ 53 ->
  run_decode s j now now2 <> Panics /\ forall s', run_decode s j now now2 = Moved s' -> advance s s'.
Proof.
  intros Hj Hd Hsize. unfold run_decode. destruct (decode s !! j) as [n|] eqn:Hn; [|done].
  destruct (dn_running n); [cbn [negb]|done].
  assert (dnode_ok n) as Hok by (eapply Forall_lookup_1; [apply Hj|done]).
  destruct (decode_turn_ok n now now2 Hok) as [Hp Ht]; [intros id; eapply node_once; [apply Hj|done]|done|eapply node_size; [apply Hj|done|done]|].
  destruct (decode_turn n now now2) as [n'| |]; try done. split; [done|]. intros s' [= <-].
  destruct (Ht n' eq_refl) as (H1 & _ & H2). by eapply dnode_advances.
Qed.

Lemma send_event_advances s j s' : joined s -> send_event s j = Moved s' -> advance s s'.
Proof.
  unfold send_event. intros Hj. destruct (decode s !! j) as [[w jobs pending [|e out] [|]]|] eqn:Hn; try done.
  destruct (_ <? _)%nat; [|done]. intros [= <-]. pose proof Hj as [[N1 N2 N3 N4] Hp Hr Hst].
  assert (dnode_ok (mkDNode w jobs pending (e :: out) true)) as [D1 D2] by by eapply Forall_lookup_1.
  apply advance_intro; [done|..].
  - split; proj; try done. apply Forall_insert; [done|by split].
  - intros id. unfold early, decoding. proj.
    rewrite !(zsum_insert _ _ _ _ _ Hn). split; [done|].
    change (waiting id (mkDNode w jobs pending out true)) with (waiting id (mkDNode w jobs pending (e :: out) true)).
    change (runs id (mkDNode w jobs pending out true)) with (runs id (mkDNode w jobs pending (e :: out) true)).
    split; [lia|]. split; [lia|]. split; [done|]. intros H; left. revert H. unfold mentions. proj.
    assert (node_mentions id (mkDNode w jobs pending (e :: out) true) -> mentions id s) as Hm.
    { intros Hm. right; right. by eapply Exists_lookup. }
    unfold mentions, node_mentions in Hm. cbn [dn_out dn_worker] in Hm. rewrite Exists_app.
    intros [[?|[?|?%Exists_nil]%Exists_cons]|[?|[[?|?]|?]%Exists_insert]]; try done.
    + by left.
    + apply Hm. left. by left.
    + by right; left.
    + apply Hm. left. by right.
    + apply Hm. by right.
    + by right; right.
  - eapply routes_same; [..|exact Hr]; proj; try done; [by rewrite length_insert|apply Hr..].
  - eapply quiet_streams; [exact Hst|]. split; [done|]. split; [done|]. apply Hst.
Qed.

Lemma abort_decode_advances s j : joined s -> advance s (abort_decode s j).
Proof.
  intros Hj. unfold abort_decode. destruct (decode s !! j) as [n|] eqn:Hn.
  - rewrite (list_alter_Some _ _ _ _ Hn). eapply dnode_advances; [done|done| |].
    + assert (dnode_ok n) as [] by (eapply Forall_lookup_1; [apply Hj|done]). split; [done|constructor].
    + intros id. pose proof (waiting_nonneg id n).
      change (waiting id (mkDNode (dn_worker n) [] [] [] false)) with 0.
      change (runs id (mkDNode (dn_worker n) [] [] [] false)) with (runs id n).
      split; [lia|]. split; [lia|]. intros [?%Exists_nil|?]; [done|left; by right].
  - rewrite list_alter_None by done. apply (advance_refl s) in Hj. by destruct s.
Qed.

(** ** Sending to clients *)

Definition sent_to (m : gmap Z Client) (id : Z) (cl : Client) (c : StreamChunk) : gmap Z Client :=
  <[id := mkClient (c_sent cl ++ [c]) (S (c_unread cl)) true]> m.

Lemma send_chunk_delivered s id c s1 : send_chunk s id c = Delivered s1 ->
  exists cl, clients s !! id = Some cl /\ s1 = set_clients s (sent_to (clients s) id cl c).
Proof.
  unfold send_chunk. destruct (clients s !! id) as [cl|]; [|done]. destruct (negb _); [done|].
  destruct (_ <? _)%nat; [|done]. intros [= <-]. by exists cl.
Qed.

(** A chunk goes to a client that may be written to; after a last chunk it may
    not. *)
Lemma sent_streams s s' id cl c : streams_ok s -> sender id s -> clients s !! id = Some cl ->
  clients s' = sent_to (clients s) id cl c ->
  (forall i, sender i s' -> sender i s /\ (i = id -> is_token c = true)) ->
  (forall i, decode_pump s' = DDone i -> inflight s' !! i = None) -> streams_ok s'.
Proof.
  intros [H1 H2 H3] Hid Hcl Hc Hs Hd. split; [| |done].
  - intros i Hi. destruct (Hs i Hi) as [Hi' Htok]. destruct (H1 i Hi') as (cl' & Hcl' & Hall). rewrite Hc. unfold sent_to.
    destruct (decide (i = id)) as [->|Hne].
    + rewrite lookup_insert_eq. eexists. split; [done|]. cbn [c_sent]. rewrite Hcl in Hcl'. injection Hcl' as ->.
      apply Forall_app. split; [done|]. constructor; [by apply Htok|constructor].
    + rewrite lookup_insert_ne by done. by exists cl'.
  - rewrite Hc. intros i cl'. unfold sent_to. intros [[<- <-]|[_ Hi]]%lookup_insert_Some; [|by apply (H2 i)].
    cbn [c_sent]. destruct (H1 id Hid) as (cl' & Hcl' & Hall). rewrite Hcl in Hcl'. injection Hcl' as <-.
    destruct (is_token c) eqn:Ht.
    + exists (c_sent cl ++ [c]), []. rewrite app_nil_r. split; [done|]. split; [|by left].
      apply Forall_app. split; [done|]. by constructor.
    + exists (c_sent cl), [c]. split; [done|]. split; [done|]. right. by exists c.
Qed.

Lemma sent_has m id cl c i : m !! id = Some cl -> has (sent_to m id cl c) i = has m i.
Proof. intros H. unfold sent_to. apply has_replace. by eexists. Qed.

(** ** The pump after prefill *)

Lemma pump_sends_at id p : pump_sends id p -> at_pump id p = 1 /\ (forall i, p <> PRemove i) /\ forall i, pump_sends i p -> i = id.
Proof. destruct p; cbn; intros H; try done; subst; rewrite is_id_same; (split; [done|]); (split; [done|]); by intros. Qed.

Lemma at_pump_remove id p i : at_pump id p = 1 -> at_pump i (PRemove id) <= at_pump i p.
Proof.
  intros Ha. cbn [at_pump]. destruct (decide (i = id)) as [->|Hne]; [rewrite is_id_same; lia|].
  unfold is_id. destruct (Z.eqb_spec id i); [done|]. apply at_pump_nonneg.
Qed.

(** The pump goes on with its request, with or without a chunk sent. *)
Lemma pump_goes_on s m p : joined s -> (forall i, has m i = has (clients s) i) ->
  (forall i, at_pump i p <= at_pump i (prefill_pump s)) -> pump_clock p -> pump_index (length (decode s)) p ->
  streams_ok (set_prefill_pump (set_clients s m) p) -> advance s (set_prefill_pump (set_clients s m) p).
Proof.
  intros Hj Hm Hat Hc Hx Hs. pose proof Hj as [[N1 N2 N3 N4] Hp Hr Hst].
  apply advance_intro; [done|by split| |by destruct Hr|done].
  intros i. unfold early, decoding, mentions. proj. specialize (Hat i).
  split; [done|]. split; [lia|]. split; [lia|]. split; [done|]. by left.
Qed.

Lemma pump_alone s id : joined s -> pump_sends id (prefill_pump s) ->
  ~ (exists token, decode_pump s = DToken id token) /\ decode_pump s <> DDone id.
Proof.
  intros Hj (Ha & _)%pump_sends_at.
  assert (~ mentions id s) as Hn.
  { intros [Hz _]%(po_mentions _ (j_places _ Hj)). pose proof (early_parts id s). unfold early in Hz. lia. }
  split; [intros [t Ht]|intros Ht]; apply Hn; right; left; by rewrite Ht.
Qed.

Lemma pump_sent s id cl c p : joined s -> pump_sends id (prefill_pump s) -> clients s !! id = Some cl ->
  (is_token c = true /\ pump_sends id p \/ p = PRemove id) ->
  streams_ok (set_prefill_pump (set_clients s (sent_to (clients s) id cl c)) p).
Proof.
  intros Hj Hsend Hcl Hp. destruct (pump_sends_at _ _ Hsend) as (_ & Hnr & Hone). destruct (pump_alone s id Hj Hsend) as [Hnt Hnd].
  eapply (sent_streams s _ id cl c (j_streams _ Hj)); proj; [by right; left|done|done| |apply (j_streams _ Hj)].
  intros i. unfold sender. proj. destruct Hp as [[Ht Hp]| ->].
  - destruct (pump_sends_at _ _ Hp) as (_ & _ & Hone'). intros [[Hi _]|[Hi%Hone'|Hi]].
    + split; [left; by split|done].
    + subst i. split; [by right; left|done].
    + split; [by right; right|done].
  - intros [[Hi Hne]|[[]|Hi]].
    + split; [left; by split|]. intros ->. by destruct Hne.
    + split; [by right; right|]. intros ->. by destruct Hi.
Qed.

Lemma pump_closed s id : joined s -> pump_sends id (prefill_pump s) -> streams_ok (set_prefill_pump s (PRemove id)).
Proof.
  intros Hj Hsend. destruct (pump_sends_at _ _ Hsend) as (_ & Hnr & _).
  eapply quiet_streams; [apply Hj|]. split; [done|]. split; [|apply (j_streams _ Hj)].
  intros i. unfold sender. proj. intros [[Hi _]|[[]|Hi]]; [left; by split|by right; right].
Qed.

Lemma set_clients_same s : set_clients s (clients s) = s.
Proof. by destruct s. Qed.

Lemma pump_moves s p : joined s -> (forall i, at_pump i p <= at_pump i (prefill_pump s)) -> pump_clock p ->
  pump_index (length (decode s)) p -> streams_ok (set_prefill_pump s p) -> advance s (set_prefill_pump s p).
Proof.
  intros Hj Ha Hc Hx Hs. pose proof (pump_goes_on s (clients s) p) as H. rewrite set_clients_same in H. by apply H.
Qed.

Lemma pump_removes s id s' : joined s -> pump_sends id (prefill_pump s) ->
  s' = set_prefill_pump s (PRemove id) -> advance s s'.
Proof.
  intros Hj Hsend ->. destruct (pump_sends_at _ _ Hsend) as (Ha & _).
  apply pump_moves; try done; [intros i; by apply at_pump_remove|by apply pump_closed].
Qed.

Lemma send_last_advances s id c s' : joined s -> pump_sends id (prefill_pump s) ->
  send_last s id c (fun s => set_prefill_pump s (PRemove id)) = Moved s' -> advance s s'.
Proof.
  intros Hj Hsend. unfold send_last. destruct (send_chunk s id c) as [s1| |] eqn:Hc; [|intros [= <-]; by eapply pump_removes|done].
  intros [= <-]. apply send_chunk_delivered in Hc as (cl & Hcl & ->). destruct (pump_sends_at _ _ Hsend) as (Ha & _).
  apply pump_goes_on; try done; [intros i; by apply sent_has|intros i; by apply at_pump_remove|apply pump_sent; [done|done|done|by right]].
Qed.

Lemma waiting_push id n a r : waiting id (mkDNode (dn_worker n) (dn_jobs n ++ [a]) (dn_pending n) (dn_out n) r) =
  waiting id n + is_id id (DecodeW.ad_id a).
Proof. unfold waiting. cbn [dn_jobs dn_pending]. rewrite zsum_app. cbn [zsum foldr]. lia. Qed.

(** A completion is taken from the channel. *)
Lemma pump_receives s c rest : joined s -> prefill_pump s = PRecv -> prefilled s = c :: rest ->
  let s1 := set_prefilled s rest in
  advance s (match inflight s !! PrefillW.pc_id c with Some e => set_prefill_pump s1 (PToken c e) | None => s1 end).
Proof.
  intros Hj Hpump Hpre s1. pose proof Hj as [[N1 N2 N3 N4] Hp Hr Hst]. rewrite Hpre in N3. apply Forall_cons in N3 as [N3 N3'].
  destruct (inflight s !! PrefillW.pc_id c) as [e|] eqn:He; (apply advance_intro; [done|..]); try (by split).
  - intros i. unfold early, decoding, mentions, s1. proj. rewrite Hpre, Hpump, zsum_cons.
    cbn [at_pump]. split; [done|]. split; [lia|]. split; [lia|]. split; [done|]. by left.
  - eapply routes_same; [..|exact Hr]; try done; [apply Hr|]. unfold s1. proj. exact (ro_inflight _ Hr _ _ He).
  - eapply quiet_streams; [exact Hst|]. split; [done|]. split; [|apply Hst]. intros i. unfold sender, s1. proj. rewrite Hpump.
    intros [[Hi _]|[Hi|Hi]]; [by left|left|by right; right]. cbn [pump_sends] in Hi. subst i. split; [by eexists|done].
  - intros i. unfold early, decoding, mentions, s1. proj. rewrite Hpre, zsum_cons.
    pose proof (is_id_nonneg i (PrefillW.pc_id c)). split; [done|]. split; [lia|]. split; [lia|]. split; [done|]. by left.
  - by destruct Hr.
  - eapply quiet_streams; [exact Hst|]. split; [done|]. split; [done|apply Hst].
Qed.

(** The request is handed to its decode worker. *)
Lemma pump_hands_over s w a n : joined s -> prefill_pump s = PAdmit w a -> decode s !! w = Some n ->
  advance s (set_prefill_pump (set_decode s
    (<[w := mkDNode (dn_worker n) (dn_jobs n ++ [a]) (dn_pending n) (dn_out n) true]> (decode s))) PRecv).
Proof.
  intros Hj Hpump Hn. pose proof Hj as [[N1 N2 N3 N4] Hp Hr Hst]. rewrite Hpump in N4. apply advance_intro; [done|..].
  - split; proj; try done. apply Forall_insert; [done|]. assert (dnode_ok n) as [D1 D2] by by eapply Forall_lookup_1.
    split; cbn [dn_worker dn_pending dn_jobs]; [done|]. rewrite app_assoc. apply Forall_app. split; [done|].
    constructor; [exact N4|constructor].
  - intros i. unfold early, decoding, mentions. proj.
    rewrite !(zsum_insert _ _ _ _ _ Hn), waiting_push, Hpump. cbn [at_pump].
    change (runs i (mkDNode (dn_worker n) (dn_jobs n ++ [a]) (dn_pending n) (dn_out n) true)) with (runs i n).
    split; [done|]. split; [lia|]. split; [lia|]. split; [done|]. intros [?|[?|[?|?]%Exists_insert]]; left; [by left|by right; left| |by right; right].
    right; right. by eapply Exists_lookup.
  - eapply routes_same; [..|exact Hr]; proj; try done; [by rewrite length_insert|apply Hr].
  - eapply quiet_streams; [exact Hst|]. split; [done|]. split; [|apply Hst]. intros i. unfold sender. proj. rewrite Hpump.
    intros [[Hi _]|[[]|Hi]]; [by left|by right; right].
Qed.

(** The entry is removed. *)
Lemma pump_forgets s id : joined s -> prefill_pump s = PRemove id ->
  advance s (set_prefill_pump (set_inflight s (delete id (inflight s))) PRecv).
Proof.
  intros Hj Hpump. pose proof Hj as [[N1 N2 N3 N4] Hp Hr Hst]. apply advance_intro; [done|..].
  - by split.
  - intros i. pose proof (once i s Hp) as Ho. unfold early, decoding, mentions in *. proj. rewrite Hpump in *. cbn [at_pump] in *.
    pose proof (is_id_nonneg i id). pose proof (early_parts i s) as Hpos. unfold decoding in Hpos.
    split; [done|]. split; [lia|]. split; [lia|]. split; [|by left].
    intros Hs Hp'. destruct (decide (i = id)) as [->|Hne]; [rewrite is_id_same in *; lia|by rewrite lookup_delete_ne].
  - eapply routes_same; [..|exact Hr]; proj; try done; [apply Hr|]. by intros i e [_ ?]%lookup_delete_Some.
  - eapply quiet_streams; [exact Hst|]. split; [done|]. split.
    + intros i. unfold sender. proj. rewrite Hpump. intros [[[e [Hne Hi]%lookup_delete_Some] _]|[[]|Hi]]; [|by right; right].
      left. split; [by eexists|]. by intros [= ->].
    + proj. intros i Hi. apply lookup_delete_None. right. by apply (st_done _ Hst).
Qed.

Lemma pump_prefill_advances s : joined s ->
  pump_prefill s <> Panics /\ forall s', pump_prefill s = Moved s' -> advance s s'.
Proof.
  intros Hj. unfold pump_prefill. destruct (prefill_pump s) as [|c e|id|w a|id|id] eqn:Hpump.
  - destruct (prefilled s) as [|c rest] eqn:Hpre; [done|]. split; [done|]. intros s' [= <-]. by apply pump_receives.
  - assert (pump_sends (PrefillW.pc_id c) (prefill_pump s)) as Hsend by by rewrite Hpump.
    destruct (send_chunk _ _ _) as [s1| |] eqn:Hc; [|split; [done|]; intros s' [= <-]; by eapply pump_removes|done].
    split; [done|]. intros s' [= <-]. apply send_chunk_delivered in Hc as (cl & Hcl & ->).
    assert (pump_clock (PToken c e) /\ pump_index (length (decode s)) (PToken c e)) as [Hk Hx].
    { rewrite <- Hpump. split; apply Hj. }
    destruct (in_max_tokens e <=? 1); (apply pump_goes_on; [done|intros i; by apply sent_has|rewrite Hpump; done|done|done|];
      apply pump_sent; [done|done|done|by left]).
  - assert (pump_sends id (prefill_pump s)) as Hsend by by rewrite Hpump.
    split; [|by intros s'; apply send_last_advances]. unfold send_last. by destruct (send_chunk _ _ _).
  - assert (w < length (decode s))%nat as [n Hn]%lookup_lt_is_Some.
    { pose proof (ro_pump _ (j_routes _ Hj)) as Hx. by rewrite Hpump in Hx. }
    rewrite Hn. destruct (dn_running n) eqn:Hrn; cbn [negb].
    + destruct (_ <? _)%nat; [|done]. split; [done|]. intros s' [= <-]. by apply pump_hands_over.
    + split; [done|]. intros s' [= <-]. apply pump_moves; try done; [by rewrite Hpump|].
      eapply quiet_streams; [apply Hj|]. split; [done|]. split; [|apply (j_streams _ Hj)].
      intros i. unfold sender. proj. rewrite Hpump. intros [[Hi _]|[Hi|Hi]]; [left; by split|by right; left|by right; right].
  - assert (pump_sends id (prefill_pump s)) as Hsend by by rewrite Hpump.
    split; [|by intros s'; apply send_last_advances]. unfold send_last. by destruct (send_chunk _ _ _).
  - split; [done|]. intros s' [= <-]. by apply pump_forgets.
Qed.

(** ** The pump of the decode events *)

Lemma decode_pumped s s' : joined s -> router s' = router s -> prefill s' = prefill s -> decode s' = decode s ->
  starting s' = starting s -> prefilled s' = prefilled s -> prefill_pump s' = prefill_pump s ->
  (forall id, has (clients s') id = has (clients s) id) ->
  (forall id e, inflight s' !! id = Some e -> inflight s !! id = Some e) ->
  (forall id, Exists (about id) (events s') \/ pump_mentions id (decode_pump s') ->
     Exists (about id) (events s) \/ pump_mentions id (decode_pump s)) ->
  (forall id, is_Some (inflight s !! id) -> is_Some (inflight s' !! id) \/ mentions id s) ->
  streams_ok s' -> advance s s'.
Proof.
  intros Hj E1 E2 E3 E4 E5 E6 Hc Hi Hm Hin Hs. pose proof Hj as [[N1 N2 N3 N4] Hp Hr Hst].
  apply advance_intro; [done|..|done].
  - split; by rewrite ?E2, ?E3, ?E5, ?E6.
  - intros id. unfold early, decoding. rewrite E2, E3, E4, E5, E6.
    split; [done|]. split; [lia|]. split; [lia|]. split.
    + intros [?|Hment]%Hin Hpos; [done|]. apply (po_mentions _ Hp) in Hment as [Hz _]. unfold early in Hz. lia.
    + unfold mentions. rewrite E3. specialize (Hm id). tauto.
  - eapply routes_same; [..|exact Hr]; rewrite ?E2, ?E3, ?E4, ?E6; try done; apply Hr.
Qed.

(** A request decoding speaks of is not with the other pump. *)
Lemma mentioned_away s id : joined s -> mentions id s -> ~ pump_sends id (prefill_pump s) /\ prefill_pump s <> PRemove id.
Proof.
  intros Hj [Hz _]%(po_mentions _ (j_places _ Hj)). pose proof (early_parts id s). unfold early in Hz.
  split; [intros [Ha _]%pump_sends_at; lia|]. intros Hp. rewrite Hp in *. cbn [at_pump] in *. rewrite is_id_same in *. lia.
Qed.

Lemma event_receives s e rest : joined s -> decode_pump s = DRecv -> events s = e :: rest ->
  forall s', pump_decode s = Moved s' -> advance s s'.
Proof.
  intros Hj Hpump Hev s'. unfold pump_decode. rewrite Hpump, Hev.
  assert (forall id, about id e -> mentions id s) as Hment by (intros id Ha; left; rewrite Hev; by left).
  assert (forall id, sender id s -> is_Some (inflight s !! id) /\ prefill_pump s <> PRemove id \/ pump_sends id (prefill_pump s)) as Hsend.
  { intros id [?|[?|[[? Hd]|Hd]]]; [by left|by right|by rewrite Hpump in Hd..]. }
  destruct e as [id token|id k]; destruct (inflight s !! id) as [e|] eqn:He; intros [= <-];
    (eapply decode_pumped; [exact Hj|done..| | | |]); proj.
  - done.
  - intros i [Hi|Hi]; left; rewrite Hev; [by right|by left].
  - by left.
  - destruct (mentioned_away s id Hj (Hment id eq_refl)) as [_ Hne].
    eapply quiet_streams; [apply Hj|]. split; [done|]. split; [|done]. intros i. unfold sender. proj.
    intros [?|[?|[[t [= -> _]]|?]]]; [by left|by right; left| |done]. left. split; [by eexists|done].
  - done.
  - intros i [Hi|Hi]; [left; rewrite Hev; by right|by rewrite Hpump in Hi].
  - by left.
  - eapply quiet_streams; [apply Hj|]. split; [done|]. split; [done|]. intros i Hi. proj. congruence.
  - by intros i x [_ ?]%lookup_delete_Some.
  - intros i [Hi|Hi]; left; rewrite Hev; [by right|by left].
  - intros i Hs. destruct (decide (i = id)) as [->|Hne]; [right; by apply Hment|left; by rewrite lookup_delete_ne].
  - destruct (mentioned_away s id Hj (Hment id eq_refl)) as [_ Hne].
    eapply quiet_streams; [apply Hj|]. split; [done|]. split.
    + intros i. unfold sender. proj. intros [[[x [_ Hx]%lookup_delete_Some] ?]|[?|[[t Ht]|[= ->]]]]; [left; split; [by eexists|done]|by right; left|done|].
      left. split; [by eexists|done].
    + proj. intros i [= ->]. apply lookup_delete_eq.
  - by intros i x [_ ?]%lookup_delete_Some.
  - intros i [Hi|Hi]; [left; rewrite Hev; by right|by rewrite Hpump in Hi].
  - intros i Hs. destruct (decide (i = id)) as [->|Hne]; [right; by apply Hment|left; by rewrite lookup_delete_ne].
  - eapply quiet_streams; [apply Hj|]. split; [done|]. split.
    + intros i. unfold sender. proj. rewrite delete_id by done. done.
    + proj. intros i Hi. congruence.
Qed.

(** A pump that holds a sender lets go of it, with or without its chunk. *)
Lemma decode_pump_sends s id c p s' : joined s -> pump_mentions id (decode_pump s) -> sender id s ->
  (p = DRecv \/ p = DRemove id) -> (is_token c = true \/ decode_pump s = DDone id) ->
  (s' = set_decode_pump s p \/ exists s1, send_chunk s id c = Delivered s1 /\ s' = set_decode_pump s1 p) -> advance s s'.
Proof.
  intros Hj Hm Hsend Hp Hc Hs'.
  assert (forall i, sender i (set_decode_pump s p) -> sender i s /\ (i = id -> is_token c = true)) as Hsub.
  { intros i. unfold sender. proj. intros [[Hi Hne]|[Hi|[[t ->]|Hi]]]; [| |by destruct Hp|by subst; destruct Hp].
    - split; [left; by split|]. intros ->. destruct Hc as [?|Hd]; [done|].
      rewrite (st_done _ (j_streams _ Hj) _ Hd) in Hi. by destruct Hi.
    - split; [by right; left|]. intros ->. destruct (mentioned_away s id Hj) as [Hn _]; [by right; left|done]. }
  assert (forall i, pump_mentions i p -> pump_mentions i (decode_pump s)) as Hmen.
  { intros i Hi. destruct Hp as [->| ->]; [done|]. cbn in Hi. by subst i. }
  destruct Hs' as [->|(s1 & Hs1 & ->)].
  - eapply decode_pumped; [exact Hj|done..| | |]; proj; [intros i [?|?%Hmen]; tauto|by left|].
    eapply quiet_streams; [apply Hj|]. split; [done|]. split; [by intros i [? _]%Hsub|]. proj. intros i ->. by destruct Hp.
  - apply send_chunk_delivered in Hs1 as (cl & Hcl & ->).
    eapply decode_pumped; [exact Hj|done..| | | | |]; proj.
    + intros i. by apply sent_has.
    + done.
    + intros i [?|?%Hmen]; tauto.
    + by left.
    + eapply (sent_streams s _ id cl c); proj; [apply Hj|done|done|done|exact Hsub|]. intros i ->. by destruct Hp.
Qed.

Lemma pump_decode_advances s : joined s ->
  pump_decode s <> Panics /\ forall s', pump_decode s = Moved s' -> advance s s'.
Proof.
  intros Hj. split.
  { unfold pump_decode, send_last. destruct (decode_pump s); [destruct (events s) as [|[] ?]|..]; try done; by destruct (send_chunk _ _ _). }
  intros s' H. destruct (decode_pump s) as [|id token|id|id] eqn:Hpump.
  - destruct (events s) as [|e rest] eqn:Hev; [unfold pump_decode in H; by rewrite Hpump, Hev in H|].
    by eapply event_receives.
  - unfold pump_decode in H. rewrite Hpump in H. destruct (send_chunk _ _ _) as [s1| |] eqn:Hc; [| |done]; injection H as <-.
    + eapply (decode_pump_sends s id (token_chunk s token) DRecv); [done|by rewrite Hpump|right; right; left; by eexists|by left|by left|].
      right. by eexists.
    + eapply (decode_pump_sends s id (token_chunk s token) (DRemove id)); [done|by rewrite Hpump|right; right; left; by eexists|by right|by left|].
      by left.
  - unfold pump_decode in H. rewrite Hpump in H. injection H as <-.
    eapply decode_pumped; [exact Hj|done..| | | |]; proj.
    + by intros i x [_ ?]%lookup_delete_Some.
    + intros i [?|[]]. by left.
    + intros i Hs. destruct (decide (i = id)) as [->|Hne]; [|left; by rewrite lookup_delete_ne].
      right; right; left. by rewrite Hpump.
    + eapply quiet_streams; [apply Hj|]. split; [done|]. split; [|done]. intros i. unfold sender. proj.
      intros [[[x [_ Hx]%lookup_delete_Some] ?]|[?|[[t Ht]|Ht]]]; [left; split; [by eexists|done]|by right; left|done|done].
  - unfold pump_decode in H. rewrite Hpump in H. unfold send_last in H.
    destruct (send_chunk s id (CDone "length")) as [s1| |] eqn:Hc; [| |done]; injection H as <-.
    all: eapply (decode_pump_sends s id (CDone "length")); [done|by rewrite Hpump|by right; right; right|by left|by right|].
    + right. by eexists.
    + by left.
Qed.

(** ** Load reports *)

Lemma update_fits p d r id l : fits p d r -> fits p d (Routing.update_load r id l).
Proof.
  intros [Hk Hr]. split; [by apply Routing.update_load_inv|]. unfold Routing.update_load.
  destruct (Routing.reg_workers r !! id) as [w|] eqn:Ew; [|done]. cbn [Routing.reg_workers].
  apply map_Forall_insert_2; [|done]. exact (Hr id w Ew).
Qed.

Lemma update_all_fits {A} (f : A -> WorkerId) (g : A -> Routing.WorkerLoad) p d l : forall r, fits p d r ->
  fits p d (foldl (fun r a => Routing.update_load r (f a) (g a)) r l).
Proof. induction l as [|a l IH]; intros r Hr; cbn [foldl]; [done|]. by apply IH, update_fits. Qed.

Lemma sync_advances s now : joined s -> advance s (sync_loads s now).
Proof.
  intros Hj. pose proof Hj as [[N1 N2 N3 N4] Hp Hr Hst]. apply advance_intro; [done|by split| |  |by destruct Hst].
  - intros i. split; [done|]. split; [reflexivity|]. split; [reflexivity|]. split; [done|]. by left.
  - destruct Hr as [H1 H2 H3 H4 H5 H6]. split; try done. unfold sync_loads. proj. cbn [Routing.registry].
    by apply update_all_fits, update_all_fits.
Qed.

(** ** A new request *)

Lemma live_in_range s ro now w : routes_ok s -> w ∈ Routing.live (Routing.registry (router s)) ro now ->
  Routing.role w = ro /\ in_range (length (prefill s)) (length (decode s)) w.
Proof.
  intros Hr Hw. destruct (ro_registry _ Hr) as [Hk Hf]. apply Routing.live_elem in Hw as [Hw Hl]; [|done].
  split; [|exact (Hf _ _ Hw)]. unfold Routing.is_live in Hl. by apply andb_prop in Hl as [[?%bool_decide_eq_true _]%andb_prop _].
Qed.

(** The state after a request was accepted for the workers [pw] and [dw]. *)
Lemma accepted_joined s id pw dw m job : joined s -> clients s !! id = None -> PrefillW.job_id job = id ->
  (pw < length (prefill s))%nat -> (dw < length (decode s))%nat ->
  joined (set_starting (set_inflight (set_clients s (<[id := mkClient [] 0 true]> (clients s)))
    (<[id := mkInflight dw m]> (inflight s))) (starting s ++ [(pw, job)])).
Proof.
  intros [[N1 N2 N3 N4] Hp Hr Hst] Hnew Hid Hpw Hdw.
  assert (forall i, mentions i s -> i <> id) as Hment.
  { intros i [_ Hi]%(po_mentions _ Hp) ->. by rewrite (has_None _ _ Hnew) in Hi. }
  assert (early id s = 0 /\ decoding id s = 0) as [He0 Hd0].
  { pose proof (po_once _ Hp id) as H1. rewrite (has_None _ _ Hnew) in H1. pose proof (early_nonneg id s).
    pose proof (early_parts id s). lia. }
  split.
  - by split.
  - assert (forall i, early i (set_starting (set_inflight (set_clients s (<[id := mkClient [] 0 true]> (clients s)))
      (<[id := mkInflight dw m]> (inflight s))) (starting s ++ [(pw, job)])) = early i s + is_id i id) as Hearly.
    { intros i. unfold early. proj. rewrite zsum_app. cbn [zsum foldr snd]. rewrite Hid. unfold zsum. lia. }
    split; intros i; rewrite ?Hearly.
    + change (decoding i _) with (decoding i s). proj. rewrite has_insert by done. pose proof (po_once _ Hp i). lia.
    + intros Hi. change (mentions i s) in Hi. pose proof (Hment i Hi). destruct (po_mentions _ Hp i Hi) as [-> Hhas]. proj.
      rewrite has_insert by done. rewrite Hhas. unfold is_id. by destruct (Z.eqb_spec id i).
    + proj. destruct (decide (i = id)) as [->|Hne]; [rewrite lookup_insert_eq; by eexists|]. rewrite lookup_insert_ne by done.
      intros Hpos. apply (po_entry _ Hp). unfold is_id in Hpos. destruct (Z.eqb_spec id i); [by subst|]. cbn in Hpos. lia.
  - destruct Hr as [H1 H2 H4 H5 H6 H7]. split; proj; try done.
    + apply Forall_app. split; [done|]. by constructor.
    + by apply map_Forall_insert_2.
  - assert (forall i, i <> id -> sender i (set_starting (set_inflight (set_clients s (<[id := mkClient [] 0 true]> (clients s)))
      (<[id := mkInflight dw m]> (inflight s))) (starting s ++ [(pw, job)])) -> sender i s) as Hsend.
    { intros i Hne. unfold sender. proj. by rewrite lookup_insert_ne. }
    split; proj.
    + intros i Hi. destruct (decide (i = id)) as [->|Hne].
      * exists (mkClient [] 0 true). split; [by rewrite lookup_insert_eq|constructor].
      * rewrite lookup_insert_ne by done. apply (st_open _ Hst). by apply Hsend.
    + apply map_Forall_insert_2; [|apply Hst]. exists [], []. split; [done|]. split; [constructor|by left].
    + intros i Hi. rewrite lookup_insert_ne; [by apply (st_done _ Hst)|]. intros <-.
      apply (Hment id); [right; left; by rewrite Hi|done].
Qed.

Lemma start_request_joined {J} s (req : GenerateRequest J) now : joined s -> clients s !! gen_id req = None ->
  start_request s req now <> Panics /\ forall s' r, start_request s req now = Moved (s', r) -> joined s'.
Proof.
  intros Hj Hnew. pose proof (j_routes _ Hj) as Hr. unfold start_request.
  destruct (Routing.route_answers (router s) (gen_prompt req) now (slo_ttft_ms (Config.Deployment.slo (dcfg s))) (ro_index _ Hr))
    as [[e ->]|(d & p & w & -> & Hp & Hpid & Hw & Hwid)].
  { split; [done|]. by intros s' r [= <- _]. }
  destruct (live_in_range s _ now p Hr Hp) as [Hpr Hpi], (live_in_range s _ now w Hr Hw) as [Hwr Hwi].
  unfold in_range in Hpi, Hwi. rewrite Hpr in Hpi. rewrite Hwr in Hwi. rewrite Hpid in Hpi. rewrite Hwid in Hwi.
  assert (Z.to_nat (Routing.rd_prefill d) < length (prefill s))%nat as Hlt by lia.
  proj. destruct (lookup_lt_is_Some_2 _ _ Hlt) as [n ->].
  split; [done|]. intros s' r [= <- _].
  apply accepted_joined; try done. pose proof (ro_small _ Hr). unfold u32_wrap, DECODE_ID_BASE in *. rewrite Z.mod_small; lia.
Qed.



(** ** Any task *)

Lemma queue_answers s i : joined s -> queue_job s i <> Panics.
Proof.
  intros Hj. unfold queue_job. destruct (starting s !! i) as [[pw job]|] eqn:Hi; [|done].
  pose proof (ro_starting _ (j_routes _ Hj)) as Hs. eapply Forall_lookup_1 in Hs; [|exact Hi].
  cbn [fst] in Hs. destruct (lookup_lt_is_Some_2 _ _ Hs) as [n ->]. destruct (negb _); [done|]. by destruct (_ <? _)%nat.
Qed.

Definition asks {J} (a : Action J) : bool := match a with Generate _ _ => true | _ => false end.

(** No task panics, and all stays in order. *)
Lemma act_advances {J} s (a : Action J) : joined s -> act_ok s a -> Z.of_nat (size (clients s)) <= 2 ^ 53 ->
  act s a <> Panics /\ forall s', act s a = Moved s' -> joined s' /\ (asks a = false -> shifts s s').
Proof.
  intros Hj Hok Hsize.
  assert (forall s', advance s s' -> joined s' /\ (asks a = false -> shifts s s')) as Hadv by by intros s' [? ?].
  destruct a as [req now|i|i|i now done_at|i| |j now now2|j| |now|id|id|i|j]; cbn [act act_ok asks] in *.
  - destruct (start_request_joined s req now Hj Hok) as [Hp Hs].
    destruct (start_request s req now) as [[s1 r]| |]; cbn [moved]; try done. split; [done|].
    intros s' [= <-]. split; [by eapply Hs|done].
  - pose proof (queue_answers s i Hj) as Hp. pose proof (queue_advances s i) as Hs.
    destruct (queue_job s i) as [[s1 r]| |]; cbn [moved]; try done. split; [done|].
    intros s' [= <-]. by eapply Hadv, Hs.
  - split; [unfold cancel_start; by destruct (starting s !! i) as [[]|]|]. intros s' Hs. by eapply Hadv, cancel_advances.
  - destruct (run_prefill_advances s i now done_at Hj Hok) as [Hp Hs]. split; [done|]. intros s' Hs'. by apply Hadv, Hs.
  - split; [|intros s' Hs; by eapply Hadv, send_prefilled_advances].
    unfold send_prefilled. destruct (prefill s !! i) as [[w jobs [|c out] [|]]|]; try done. by destruct (_ <? _)%nat.
  - destruct (pump_prefill_advances s Hj) as [Hp Hs]. split; [done|]. intros s' Hs'. by apply Hadv, Hs.
  - destruct (run_decode_advances s j now now2 Hj Hok Hsize) as [Hp Hs]. split; [done|]. intros s' Hs'. by apply Hadv, Hs.
  - split; [|intros s' Hs; by eapply Hadv, send_event_advances].
    unfold send_event. destruct (decode s !! j) as [[w jobs pending [|c out] [|]]|]; try done. by destruct (_ <? _)%nat.
  - destruct (pump_decode_advances s Hj) as [Hp Hs]. split; [done|]. intros s' Hs'. by apply Hadv, Hs.
  - split; [done|]. intros s' [= <-]. by apply Hadv, sync_advances.
  - split; [unfold read_chunk; by destruct (clients s !! id) as [[? [|] []]|]|]. intros s' Hs. by eapply Hadv, read_advances.
  - split; [done|]. intros s' [= <-]. by apply Hadv, hang_up_advances.
  - split; [done|]. intros s' [= <-]. by apply Hadv, abort_prefill_advances.
  - split; [done|]. intros s' [= <-]. by apply Hadv, abort_decode_advances.
Qed.

(** A request that is nowhere, and that decoding does not speak of, is let
    alone: its entry in the map stays, and its client gets nothing more. *)
Definition same_for (id : Z) s s' : Prop :=
  inflight s' !! id = inflight s !! id /\ c_sent <$> clients s' !! id = c_sent <$> clients s !! id.

Lemma same_untouched id s s' : inflight s' = inflight s -> clients s' = clients s -> same_for id s s'.
Proof. unfold same_for. by intros -> ->. Qed.

Lemma hang_up_same id s s1 i : inflight s1 = inflight s -> clients s1 = clients s -> same_for id s (hang_up s1 i).
Proof.
  intros E1 E2. split; [exact (f_equal (lookup id) E1)|]. unfold hang_up. proj. rewrite E2.
  destruct (decide (id = i)) as [->|Hne]; [|by rewrite lookup_alter_ne]. rewrite lookup_alter_eq. by destruct (clients s !! i).
Qed.

Lemma send_same id s i c s1 : send_chunk s i c = Delivered s1 -> i <> id -> same_for id s s1.
Proof. intros (cl & Hcl & ->)%send_chunk_delivered Hne. unfold same_for, sent_to. proj. by rewrite lookup_insert_ne. Qed.

Lemma pump_prefill_same s s' id : early id s = 0 -> pump_prefill s = Moved s' -> same_for id s s'.
Proof.
  intros He.
  assert (forall i, at_pump i (prefill_pump s) = 1 -> i <> id) as Hpp.
  { intros i Ha ->. pose proof (early_parts id s). unfold early in He. lia. }
  unfold pump_prefill, send_last. destruct (prefill_pump s) as [|c e|i|w ad|i|i].
  - destruct (prefilled s) as [|c rest]; [done|]. intros [= <-]. destruct (inflight s !! _); by apply same_untouched.
  - destruct (send_chunk _ _ _) as [s1| |] eqn:Hc; [| |done]; intros [= <-]; [|by apply same_untouched].
    apply (send_same _ _ _ _ _ Hc), Hpp, is_id_same.
  - destruct (send_chunk _ _ _) as [s1| |] eqn:Hc; [| |done]; intros [= <-]; [|by apply same_untouched].
    apply (send_same _ _ _ _ _ Hc), Hpp, is_id_same.
  - destruct (decode s !! w); [|done]. destruct (negb _); [intros [= <-]; by apply same_untouched|].
    destruct (_ <? _)%nat; [|done]. intros [= <-]. by apply same_untouched.
  - destruct (send_chunk _ _ _) as [s1| |] eqn:Hc; [| |done]; intros [= <-]; [|by apply same_untouched].
    apply (send_same _ _ _ _ _ Hc), Hpp, is_id_same.
  - intros [= <-]. split; [|done]. proj. rewrite lookup_delete_ne; [done|]. apply Hpp, is_id_same.
Qed.

Lemma pump_decode_same s s' id : ~ mentions id s -> pump_decode s = Moved s' -> same_for id s s'.
Proof.
  intros Hm. assert (forall i, pump_mentions i (decode_pump s) -> i <> id) as Hdp by (intros i Hi ->; apply Hm; by right; left).
  unfold pump_decode, send_last. destruct (decode_pump s) as [|i token|i|i].
  - destruct (events s) as [|[i token|i k] rest] eqn:Hev; [done|..]; intros [= <-].
    + destruct (inflight s !! i); by apply same_untouched.
    + assert (i <> id) as Hne by (intros ->; apply Hm; left; rewrite Hev; by left).
      unfold same_for. destruct (inflight s !! i); proj; by rewrite lookup_delete_ne.
  - destruct (send_chunk _ _ _) as [s1| |] eqn:Hc; [| |done]; intros [= <-]; [|by apply same_untouched].
    apply (send_same _ _ _ _ _ Hc). by apply Hdp.
  - intros [= <-]. split; [|done]. proj. rewrite lookup_delete_ne; [done|]. by apply Hdp.
  - destruct (send_chunk _ _ _) as [s1| |] eqn:Hc; [| |done]; intros [= <-]; [|by apply same_untouched].
    apply (send_same _ _ _ _ _ Hc). by apply Hdp.
Qed.

Lemma act_same {J} s (a : Action J) s' id : act_ok s a -> has (clients s) id = 1 ->
  early id s = 0 -> ~ mentions id s -> act s a = Moved s' -> same_for id s s'.
Proof.
  intros Hok Hhas He Hm.
  destruct a as [req now|i|i|i now done_at|i| |j now now2|j| |now|i|i|i|j]; cbn [act act_ok] in *.
  - unfold start_request. destruct (Routing.route _ _ _ _) as [[e|d]|]; cbn [moved]; [| |done].
    all: try (intros [= <-]; by apply same_untouched).
    destruct (prefill _ !! _); cbn [moved]; [|done]. intros [= <-]. unfold same_for. proj.
    assert (gen_id req <> id) by (intros <-; by rewrite (has_None _ _ Hok) in Hhas). by rewrite !lookup_insert_ne.
  - unfold queue_job. destruct (starting s !! i) as [[pw job]|]; cbn [moved]; [|done]. destruct (prefill s !! pw); cbn [moved]; [|done].
    destruct (negb _); [cbn [moved]; intros [= <-]; by apply hang_up_same|]. destruct (_ <? _)%nat; cbn [moved]; [|done].
    intros [= <-]. by apply same_untouched.
  - unfold cancel_start. destruct (starting s !! i) as [[pw job]|]; [|done]. intros [= <-]. by apply hang_up_same.
  - unfold run_prefill. destruct (prefill s !! i) as [n|]; [|done]. destruct (negb _); [done|].
    destruct (prefill_turn _ _ _); [|done..]. intros [= <-]. by apply same_untouched.
  - unfold send_prefilled. destruct (prefill s !! i) as [[w jobs [|c out] [|]]|]; try done. destruct (_ <? _)%nat; [|done].
    intros [= <-]. by apply same_untouched.
  - by apply pump_prefill_same.
  - unfold run_decode. destruct (decode s !! j) as [n|]; [|done]. destruct (negb _); [done|].
    destruct (decode_turn _ _ _); [|done..]. intros [= <-]. by apply same_untouched.
  - unfold send_event. destruct (decode s !! j) as [[w jobs pending [|c out] [|]]|]; try done. destruct (_ <? _)%nat; [|done].
    intros [= <-]. by apply same_untouched.
  - by apply pump_decode_same.
  - intros [= <-]. by apply same_untouched.
  - unfold read_chunk. destruct (clients s !! i) as [[sent [|n] []]|] eqn:E0; try done. intros [= <-].
    split; [done|]. proj. destruct (decide (i = id)) as [->|Hne]; [by rewrite lookup_insert_eq, E0|by rewrite lookup_insert_ne].
  - intros [= <-]. by apply hang_up_same.
  - intros [= <-]. by apply same_untouched.
  - intros [= <-]. by apply same_untouched.
Qed.

End invariant.
End Joined.
