(* ===== verification/InProcessRun.v ===== *)
(** * Runs of the deployment in one process ([crates/worker/src/deployment.rs])

    A spawned deployment is in order, so it stays in order: the theorems about
    every run, and a run on the mock engine. *)

From Stdlib Require Import ZArith Lia SpecFloat.
From stdpp Require Import base option list numbers gmap strings.
From S2P Require Import Prelude F64 F64Int Core Pool Policy Prefill Controller Decode Radix Router Capacity Engine Config Wire Tokenizer Frontend Worker InProcess InProcessInv.

Module Runs.
Import Frontend InProcess Joined.
Local Open Scope Z_scope.

Section runs.
Context {E K : Type} {IE : Engine E} {IL : EngineLaws E} {IT : EngineTracks E} {IK : Tokens.Tokenizer K}.
Implicit Types s : Deployment E K.

(** ** The start *)

(** Engines to start from: in order, and the decode engines without work. *)
Definition engines_fit (pe de : list E) : Prop :=
  Forall engine_ok pe /\ Forall (fun e => engine_ok e /\ forall id, ~ tracked e id) de /\
  Z.of_nat (length pe) <= 2 ^ 31 /\ Z.of_nat (length de) <= 2 ^ 31.

Lemma register_fits p d r w : fits p d r -> in_range p d w -> fits p d (Routing.register r w).
Proof.
  intros [Hk Hr] Hw. split; [by apply Routing.register_inv|]. cbn [Routing.register Routing.reg_workers].
  by apply map_Forall_insert_2.
Qed.

Lemma register_all_fits {A} (f : A -> Routing.WorkerState) p d (l : list A) : Forall (fun a => in_range p d (f a)) l ->
  forall r, fits p d r -> fits p d (foldl (fun r a => Routing.register r (f a)) r l).
Proof. induction 1 as [|a l Ha _ IH]; intros r Hr; cbn [foldl]; [done|]. by apply IH, register_fits. Qed.

Lemma Forall_imap {A B} (f : nat -> A -> B) (P : B -> Prop) (l : list A) :
  (forall i a, l !! i = Some a -> P (f i a)) -> Forall P (imap f l).
Proof.
  intros H. apply Forall_lookup. intros i b Hb. apply list_lookup_imap_Some in Hb as (a & Ha & ->). by apply H.
Qed.

Lemma spawn_prefill_ok c i e : 0 <= Config.Deployment.chunked_prefill_tokens (Config.Deployment.scheduler c) ->
  engine_ok e -> pnode_ok (spawn_prefill c i e).
Proof.
  intros Hc He. split; cbn [spawn_prefill pn_worker pn_out]; [by apply PrefillW.worker_new_inv|done|constructor].
Qed.

Lemma spawn_decode_ok c j (e : E) : engine_ok e -> dnode_ok (spawn_decode c j e).
Proof.
  intros He. split; [|constructor]. cbn [spawn_decode dn_worker].
  destruct (EngineConf.enabled _); by apply DecodeW.dworker_new_inv.
Qed.

Lemma zsum_imap_zero {A B} (f : B -> Z) (g : nat -> A -> B) (l : list A) :
  (forall i a, f (g i a) = 0) -> zsum f (imap g l) = 0.
Proof.
  intros H. apply zsum_zero. intros b Hb. apply list_elem_of_lookup in Hb as [i Hi].
  apply list_lookup_imap_Some in Hi as (a & _ & ->). apply H.
Qed.

(** A spawned deployment is in order. *)
Lemma spawn_joined c pe de tok s : spawn c pe de tok = Some (Ok s) -> engines_fit pe de ->
  0 <= Config.Deployment.chunked_prefill_tokens (Config.Deployment.scheduler c) -> joined s.
Proof.
  unfold spawn. destruct (Config.Deployment.validate_config c) as [u|]; [|done].
  destruct (ctl_make _ _ _ _) as [ctl|]; [|by destruct pe, de].
  assert (forall r, match pe, de with [], _ | _, [] => Some (Err ConfigError) | _, _ => Some (Ok r) end = Some (Ok s) -> r = s) as Hok.
  { intros r. destruct pe; [done|]. destruct de; [done|]. by intros [= ->]. }
  intros H (Hp & Hd & Hpn & Hdn) Hc. apply Hok in H as <-. clear Hok. split.
  - split; proj; [| |constructor|done].
    + apply Forall_imap. intros i e He. apply spawn_prefill_ok; [done|]. by eapply Forall_lookup_1 in He.
    + apply Forall_imap. intros j e He. apply spawn_decode_ok. eapply Forall_lookup_1 in He; [|done]. apply He.
  - assert (forall id, zsum (at_prefill id) (imap (spawn_prefill c) pe) = 0) as Z1 by (intros id; by apply zsum_imap_zero).
    assert (forall id, zsum (waiting id) (imap (spawn_decode c) de) = 0) as Z2 by (intros id; by apply zsum_imap_zero).
    assert (forall id, zsum (runs id) (imap (spawn_decode c) de) = 0) as Z3.
    { intros id. apply zsum_imap_zero. intros j e. unfold runs. apply has_None. cbn [spawn_decode dn_worker].
      destruct (EngineConf.enabled _); apply lookup_empty. }
    split; intros id; unfold early, decoding, mentions; proj; rewrite ?Z1, ?Z2, ?Z3.
    + rewrite has_None by apply lookup_empty. done.
    + intros [H%Exists_nil|[[]|H]]; [done|]. exfalso. apply Exists_exists in H as (n & Hn & Hm).
      apply list_elem_of_lookup in Hn as [j Hj]. apply list_lookup_imap_Some in Hj as (e & He & ->).
      eapply Forall_lookup_1 in He; [|exact Hd]. destruct He as [_ He]. destruct Hm as [Hm%Exists_nil|Hm]; [done|].
      by apply (He id).
    + intros Hpos. exfalso. revert Hpos. cbn [at_pump]. unfold zsum. cbn [foldr]. lia.
  - split; proj; [apply Trie.radix_new_inv| |by rewrite length_imap|constructor|apply map_Forall_empty|done].
    cbn [Routing.router_new Routing.registry]. rewrite !length_imap. apply register_all_fits.
    { apply Forall_imap. intros j e He. apply lookup_lt_Some in He. unfold in_range. cbn [Routing.role Routing.wid].
      cbn [spawn_decode dn_worker DecodeW.dworker_new DecodeW.d_id]. unfold u32_wrap, DECODE_ID_BASE. rewrite Z.mod_small; lia. }
    apply register_all_fits.
    { apply Forall_imap. intros j e He. apply lookup_lt_Some in He. unfold in_range. cbn [Routing.role Routing.wid].
      cbn [spawn_prefill pn_worker PrefillW.worker_new PrefillW.w_id]. unfold u32_wrap. rewrite Z.mod_small; lia. }
    split; [|apply map_Forall_empty]. intros id w. cbn. by rewrite lookup_empty.
  - split; proj; [|apply map_Forall_empty|done].
    intros id [[[e He] _]|[[]|[[t Ht]|Ht]]]; [|done|done]. proj. by rewrite lookup_empty in He.
Qed.

(** ** Every run *)

Lemma reach_joined J s0 s : joined s0 -> Z.of_nat (size (clients s0)) <= 2 ^ 53 -> reach J s0 s ->
  joined s /\ Z.of_nat (size (clients s)) <= 2 ^ 53.
Proof.
  intros H0 Hs0. induction 1 as [|s a s' _ [Hj Hs] Hok Hact Hs']; [done|]. split; [|done].
  destruct (act_advances s a Hj Hok Hs) as [_ H]. by apply H.
Qed.

(** ** Requests nobody works on *)

(** In no queue, channel, batch or pump, and nothing of it on the way. *)
Definition lost (id : Z) s : Prop :=
  has (clients s) id = 1 /\ early id s = 0 /\ decoding id s = 0 /\ ~ mentions id s.

(** A new request changes the place of no other. *)
Lemma start_elsewhere {J} s (req : GenerateRequest J) now s' r id : start_request s req now = Moved (s', r) ->
  id <> gen_id req ->
  has (clients s') id = has (clients s) id /\ early id s' = early id s /\ decoding id s' = decoding id s /\
  (mentions id s' -> mentions id s).
Proof.
  intros H Hne. unfold start_request in H. destruct (Routing.route _ _ _ _) as [[e|d]|]; [| |done].
  all: try (injection H as <- _; done).
  destruct (prefill _ !! _); [|done]. injection H as <- _. unfold early, decoding, mentions. proj.
  rewrite zsum_app. cbn [zsum foldr snd PrefillW.job_id]. unfold has. rewrite lookup_insert_ne by done.
  split; [done|]. split; [|done]. unfold is_id at 2. destruct (Z.eqb_spec (gen_id req) id); [congruence|]. unfold zsum. cbn. lia.
Qed.

Lemma lost_stays {J} s (a : Action J) s' id : joined s -> Z.of_nat (size (clients s)) <= 2 ^ 53 -> act_ok s a ->
  act s a = Moved s' -> lost id s -> lost id s' /\ same_for id s s'.
Proof.
  intros Hj Hs Hok Hact (Hh & He & Hd & Hm). split; [|by eapply act_same].
  destruct (act_advances s a Hj Hok Hs) as [_ Hadv]. destruct (Hadv s' Hact) as [_ Hsh].
  assert (asks a = false \/ exists req now, a = Generate req now) as [Ha|(req & now & ->)].
  { destruct a; [right; by eexists _, _|left; done..]. }
  - destruct (Hsh Ha id) as (Hc & He' & Hd' & _ & Hm'). pose proof (early_nonneg id s'). pose proof (early_parts id s').
    split; [congruence|]. split; [lia|]. split; [lia|]. intros [?|[? _]]%Hm'; [done|lia].
  - cbn [act act_ok] in *. destruct (start_request s req now) as [[s1 r]| |] eqn:Hst; cbn [moved] in Hact; [|done..].
    injection Hact as <-.
    assert (id <> gen_id req) as Hne by (intros ->; by rewrite (has_None _ _ Hok) in Hh).
    destruct (start_elsewhere s req now s1 r id Hst Hne) as (E1 & E2 & E3 & E4).
    split; [congruence|]. split; [congruence|]. split; [congruence|]. by intros ?%E4.
Qed.
End runs.

(** ** Given runs *)

Section given.
Context {E K : Type} {IE : Engine E} {IK : Tokens.Tokenizer K}.

Definition clockb (t : f64) : bool := valid_binary 53 1024 t && is_finite t.

Definition act_okb {J} (s : Deployment E K) (a : Action J) : bool :=
  match a with
  | Generate req _ => bool_decide (clients s !! gen_id req = None)
  | RunPrefill _ _ t | RunDecode _ _ t => clockb t
  | _ => true
  end.

Fixpoint allowed {J} (s : Deployment E K) (l : list (Action J)) : bool :=
  match l with
  | [] => true
  | a :: l => act_okb s a && match act s a with
      | Moved s' => (Z.of_nat (size (clients s')) <=? 2 ^ 53) && allowed s' l
      | _ => true end
  end.

Lemma act_okb_spec {J} s (a : Action J) : act_okb s a = true -> act_ok s a.
Proof. destruct a; cbn; try done; [by intros ?%bool_decide_eq_true|by intros [? ?]%andb_prop..]. Qed.

Lemma run_actions_reach {J} (d : Deployment E K) (l : list (Action J)) : forall s s', reach J d s -> run_actions s l = Some s' ->
  allowed s l = true -> reach J d s'.
Proof.
  induction l as [|a l IH]; intros s s' Hr; cbn [run_actions allowed]; [by intros [= <-]|].
  destruct (act s a) as [s1| |] eqn:Ha; [|done..]. intros Hrun [Hok [Hs Hl]%andb_prop]%andb_prop.
  apply (IH s1 s'); [|done|done]. eapply reach_act; [exact Hr|by apply act_okb_spec|exact Ha|by apply Z.leb_le].
Qed.
End given.

(** ** Theorems *)

Section theorems.
Context {E K : Type} {IE : Engine E} {IL : EngineLaws E} {IT : EngineTracks E} {IK : Tokens.Tokenizer K}.
Context (c : Config.Deployment.Config) (pe de : list E) (tok : K) (d : Deployment E K) (J : Type).

(** The deployment as [spawn] makes it of a configuration and lawful engines. *)
Definition spawned : Prop := spawn c pe de tok = Some (Ok d) /\ engines_fit pe de /\
  0 <= Config.Deployment.chunked_prefill_tokens (Config.Deployment.scheduler c).

Lemma spawned_size : spawn c pe de tok = Some (Ok d) -> Z.of_nat (size (clients d)) <= 2 ^ 53.
Proof.
  unfold spawn. destruct (Config.Deployment.validate_config c); [|done]. destruct pe; [done|]. destruct de; [done|].
  destruct (ctl_make _ _ _ _); [|done]. intros [= <-]. proj. rewrite map_size_empty. lia.
Qed.

Lemma run_joined s : spawned -> reach J d s -> joined s /\ Z.of_nat (size (clients s)) <= 2 ^ 53.
Proof.
  intros (H & Hfit & Hc) Hr. eapply reach_joined; [by eapply spawn_joined|by apply spawned_size|exact Hr].
Qed.


(** C7. In every state that a deployment of lawful engines reaches, a request is
    in at most one place: waiting to be queued, with one prefill
    worker, between the workers, or with one decode worker; only requests that
    were accepted are anywhere; and decoding speaks of none that has not got
    there. *)
Theorem request_in_one_place (s : Deployment E K) (id : Z) :
  spawned -> reach J d s ->
  0 <= early id s /\ 0 <= decoding id s /\ early id s + decoding id s <= has (clients s) id /\
  (mentions id s -> early id s = 0 /\ has (clients s) id = 1) /\
  (0 < early id s -> is_Some (inflight s !! id)).
Proof.
  intros Hsp Hr. destruct (run_joined s Hsp Hr) as [Hj _]. pose proof (early_nonneg id s). pose proof (early_parts id s).
  destruct (j_places _ Hj) as [H1 H2 H3]. split; [done|]. split; [lia|]. split; [apply H1|]. split; [apply H2|apply H3].
Qed.

(** C11. What a client is sent, over the whole life of its request, is tokens and
    then at most one closing chunk, with nothing after it. *)
Theorem client_streams_close_once (s : Deployment E K) (id : Z) (cl : Client) :
  spawned -> reach J d s -> clients s !! id = Some cl -> stream_shape (c_sent cl).
Proof. intros Hsp Hr Hcl. destruct (run_joined s Hsp Hr) as [Hj _]. exact (st_shape _ (j_streams _ Hj) id cl Hcl). Qed.

(** A request that is lost stays lost: once no task holds it and nothing of it
    is on the way, its client is sent nothing more, and its entry in the map is
    never removed. *)
Theorem lost_request_waits_forever (s s' : Deployment E K) (id : Z) :
  spawned -> reach J d s -> lost id s -> reach J s s' ->
  lost id s' /\ inflight s' !! id = inflight s !! id /\ c_sent <$> clients s' !! id = c_sent <$> clients s !! id.
Proof.
  intros Hsp Hr Hl Hr'. destruct (run_joined s Hsp Hr) as [Hj Hs].
  induction Hr' as [|s1 a s2 Hr1 IH Hok Hact Hs2]; [done|]. destruct IH as (Hl1 & Hi & Hc).
  destruct (reach_joined J s s1 Hj Hs Hr1) as [Hj1 Hs1].
  destruct (lost_stays s1 a s2 id Hj1 Hs1 Hok Hact Hl1) as (Hl2 & Hi2 & Hc2).
  split; [done|]. split; [by rewrite Hi2|by rewrite Hc2].
Qed.
End theorems.
(** ** A run on the mock engine *)

#[local] Existing Instances Mock.mock_engine Mock.mock_laws Mock.mock_tracks Tokens.synthetic.

Definition one_prefill : list Mock.MockEngine := [Mock.mock_prefill_worker "m" [] 4 Mock.cost_sample Mock.Virtual].
Definition one_decode : list Mock.MockEngine := [Mock.mock_decode_worker "m" [] 8 4096 Mock.cost_sample Mock.Virtual].

(** A prompt of three tokens, an answer of [max]. *)
Definition ask (id max : Z) : GenerateRequest unit :=
  mkGenerate id [300; 301; 302] [] (mkParams max (f32_of_Z 0) (f32_of_Z 1) (-1) true None []) f0 true.

Definition spawned_sample : option (result Error (Deployment Mock.MockEngine Tokens.SyntheticTokenizer)) :=
  spawn Config.Deployment.config_default one_prefill one_decode Tokens.Synthetic.

Definition demo : Deployment Mock.MockEngine Tokens.SyntheticTokenizer :=
  match spawned_sample with
  | Some (Ok d) => d
  | _ => mkDeployment Config.Deployment.config_default Tokens.Synthetic
      (Routing.router_new (Routing.registry_new f0) (Routing.mkTuning f0 f0 0)) [] [] ∅ ∅ [] [] [] PRecv DRecv
  end.

Lemma demo_spawned :
  spawn Config.Deployment.config_default one_prefill one_decode Tokens.Synthetic = Some (Ok demo) /\
  engines_fit one_prefill one_decode /\
  0 <= Config.Deployment.chunked_prefill_tokens (Config.Deployment.scheduler Config.Deployment.config_default).
Proof.
  assert (forall i, Mock.mock_ok (Mock.mock_new i Mock.cost_sample Mock.Virtual)) as Hk by (intros i; by apply Mock.mock_new_ok).
  split; [|split; [|done]].
  - unfold demo, spawned_sample, spawn. destruct (Config.Deployment.validate_config _) as [|] eqn:Ev; [|vm_compute in Ev; done].
    by destruct (ctl_make _ _ _ _) eqn:Ec; [|vm_compute in Ec].
  - split; [constructor; [apply Hk|constructor]|]. split; [|by cbn]. constructor; [|constructor]. split; [apply Hk|]. intros id H.
    cbn in H. rewrite lookup_empty in H. by destruct H.
Qed.

Definition to_decode : list (Action unit) :=
  [Generate (ask 7 3) f0; QueueJob 0; RunPrefill 0 f0 f1; SendPrefilled 0; PumpPrefill; PumpPrefill; PumpPrefill].
Definition to_the_end : list (Action unit) :=
  to_decode ++ [RunDecode 0 f1 f1; SendEvent 0; PumpDecode; PumpDecode;
                RunDecode 0 (of_Z 2) (of_Z 2); SendEvent 0; SendEvent 0; PumpDecode; PumpDecode; PumpDecode; PumpDecode].

(** From the prompt to the last token: three tokens, the end, and no entry. *)
Lemma served_end_to_end :
  option_map (fun s => (length <$> (c_sent <$> clients s !! 7), last (default [] (c_sent <$> clients s !! 7)), size (inflight s)))
    (run_actions demo to_the_end) = Some (Some 4%nat, Some (CDone "length"), 0%nat).
Proof. vm_compute. reflexivity. Qed.


Lemma request_in_one_place_witness : exists s, reach unit demo s /\ early 7 s = 1 /\ decoding 7 s <= 0.
Proof.
  assert (option_map (fun s => (early 7 s, has (clients s) 7)) (run_actions demo to_decode) = Some (1, 1)) as Hc by (vm_compute; reflexivity).
  destruct (run_actions demo to_decode) as [s|] eqn:Er; [|discriminate Hc]. injection Hc as Hc1 Hc2. exists s.
  assert (reach unit demo s) as Hr by (eapply run_actions_reach; [apply reach_start|exact Er|]; vm_compute; reflexivity).
  split; [exact Hr|]. split; [exact Hc1|].
  destruct (request_in_one_place Config.Deployment.config_default one_prefill one_decode Tokens.Synthetic demo unit s 7
    demo_spawned Hr) as (_ & _ & H & _). lia.
Defined.

Lemma client_streams_close_once_witness : exists s cl, reach unit demo s /\ clients s !! 7 = Some cl /\
  length (c_sent cl) = 4%nat /\ stream_shape (c_sent cl).
Proof.
  assert (option_map (fun s => length <$> (c_sent <$> clients s !! 7)) (run_actions demo to_the_end) = Some (Some 4%nat)) as Hc
    by (vm_compute; reflexivity).
  destruct (run_actions demo to_the_end) as [s|] eqn:Er; [|discriminate Hc]. cbn [option_map] in Hc. injection Hc as Hc.
  destruct (clients s !! 7) as [cl|] eqn:Ecl; [|discriminate Hc]. injection Hc as Hc. exists s, cl.
  assert (reach unit demo s) as Hr by (eapply run_actions_reach; [apply reach_start|exact Er|]; vm_compute; reflexivity).
  split; [exact Hr|]. split; [done|]. split; [exact Hc|].
  exact (client_streams_close_once Config.Deployment.config_default one_prefill one_decode Tokens.Synthetic demo unit s 7 cl
    demo_spawned Hr Ecl).
Defined.

(** The prefill task is aborted with the job in its channel: the client listens
    to a stream that nothing will end. *)
Lemma lost_request_waits_forever_witness : exists s, reach unit demo s /\ lost 7 s /\
  (exists cl, clients s !! 7 = Some cl /\ c_listening cl = true) /\
  forall s', reach unit s s' -> inflight s' !! 7 = inflight s !! 7 /\ c_sent <$> clients s' !! 7 = c_sent <$> clients s !! 7.
Proof.
  assert (option_map (fun s => (has (clients s) 7, early 7 s, decoding 7 s, (events s, decode_pump s),
      map (fun n => (dn_out n, Mock.m_decode (DecodeW.d_engine (dn_worker n)) !! 7)) (decode s), c_listening <$> clients s !! 7))
    (run_actions demo [Generate (ask 7 3) f0; QueueJob 0; AbortPrefill 0]) =
    Some (1, 0, 0, ([], DRecv), [([], None)], Some true)) as Hc by (vm_compute; reflexivity).
  destruct (run_actions demo _) as [s|] eqn:Er; [|discriminate Hc]. cbn [option_map] in Hc.
  injection Hc as H1 H2 H3 H4 H5 H6 H7.
  assert (reach unit demo s) as Hr by (eapply run_actions_reach; [apply reach_start|exact Er|]; vm_compute; reflexivity).
  assert (lost 7 s) as Hl.
  { split; [exact H1|]. split; [exact H2|]. split; [exact H3|]. unfold mentions. rewrite H4, H5.
    destruct (decode s) as [|n [|]]; [discriminate H6| |discriminate H6]. injection H6 as Hout Hm.
    intros [Hn%Exists_nil|[[]|[[Hn|Hn]|Hn%Exists_nil]%Exists_cons]]; [done| | |done].
    - rewrite Hout in Hn. by apply Exists_nil in Hn.
    - cbn in Hn. rewrite Hm in Hn. by destruct Hn. }
  exists s. split; [exact Hr|]. split; [exact Hl|]. split.
  - destruct (clients s !! 7) as [cl|]; [|discriminate H7]. injection H7 as H7. by exists cl.
  - intros s' Hr'.
    exact (proj2 (lost_request_waits_forever Config.Deployment.config_default one_prefill one_decode Tokens.Synthetic demo unit
      s s' 7 demo_spawned Hr Hl Hr')).
Defined.
End Runs.
