(* ===== verification/InProcessLive.v ===== *)
(** * The deployment in one process does not deadlock ([crates/worker/src/deployment.rs])

    Its channels are bounded and its tasks wait for one another; as long as
    there is work, some task can run or some client has something to read. *)

From Stdlib Require Import ZArith Lia.
From stdpp Require Import base option list numbers gmap strings.
From S2P Require Import Prelude F64 F64Int Core Pool Policy Prefill Controller Decode Radix Router Capacity Engine Config Wire Tokenizer Frontend Worker InProcess InProcessInv InProcessRun.

Module Waiting.
Import Frontend InProcess Joined.
Local Open Scope Z_scope.

(** Steps of the deployment and of clients that read; not new requests, clients
    that leave, reports or aborts. *)
Definition works {J} (a : Action J) : Prop :=
  match a with
  | QueueJob _ | RunPrefill _ _ _ | SendPrefilled _ | PumpPrefill | RunDecode _ _ _ | SendEvent _ | PumpDecode | Read _ => True
  | _ => False
  end.

Section waiting.
Context {E K : Type} {IE : Engine E} {IL : EngineLaws E} {IT : EngineTracks E} {IK : Tokens.Tokenizer K}.
Implicit Types s : Deployment E K.

(** No worker's task was aborted. *)
Definition all_running s : Prop :=
  Forall (fun n => pn_running n = true) (prefill s) /\ Forall (fun n => dn_running n = true) (decode s).

(** A request that was accepted and has not come to its end, or an event that
    has not reached its client. *)
Definition unfinished s : Prop :=
  (exists id, 0 < early id s + decoding id s) \/ events s <> [] \/ decode_pump s <> DRecv \/
  Exists (fun n => dn_out n <> []) (decode s).

Definition can_run J s : Prop := exists (a : Action J) s', works a /\ act_ok s a /\ act s a = Moved s'.

Record settled s : Prop := {
  se_joined : joined s;
  se_size : Z.of_nat (size (clients s)) <= 2 ^ 53;
  se_running : all_running s
}.

(** Since no task panics, one that does not wait runs. *)
Lemma can_intro J s (a : Action J) : settled s -> works a -> act_ok s a -> act s a <> Waits -> can_run J s.
Proof.
  intros [Hj Hs _] Hw Hok Hne. destruct (act_advances s a Hj Hok Hs) as [Hp _].
  destruct (act s a) as [s'| |] eqn:Ha; [|done..]. by exists a, s'.
Qed.

(** A full channel can be read. *)
Lemma full_can J s id c : settled s -> send_chunk s id c = Full -> can_run J s.
Proof.
  intros Hs H. apply (can_intro J s (Read id) Hs); [done..|]. cbn [act]. unfold send_chunk in H. unfold read_chunk.
  destruct (clients s !! id) as [[sent n l]|]; [|done]. cbn [c_listening c_unread negb] in H. destruct l; [|done].
  destruct n as [|n]; [|done]. by destruct (Nat.ltb_spec 0 CHANNEL_DEPTH); [|unfold CHANNEL_DEPTH in *; lia].
Qed.

Lemma send_last_can J s id c next (a : Action J) : settled s -> works a -> act_ok s a ->
  act s a = send_last s id c next -> can_run J s.
Proof.
  intros Hs Hw Hok Ha. unfold send_last in Ha. destruct (send_chunk s id c) eqn:Hc; [..|by eapply full_can].
  all: apply (can_intro J s a Hs Hw Hok); by rewrite Ha.
Qed.

Lemma decode_pump_can J s : settled s -> events s <> [] \/ decode_pump s <> DRecv -> can_run J s.
Proof.
  intros Hs H.
  destruct (decode_pump s) as [|id token|id|id] eqn:Hp.
  - apply (can_intro J s PumpDecode Hs); [done..|]. cbn [act]. unfold pump_decode. rewrite Hp.
    destruct H as [H|[]]; [|done]. by destruct (events s) as [|[]].
  - destruct (send_chunk s id (token_chunk s token)) eqn:Hc; [..|by eapply full_can].
    all: apply (can_intro J s PumpDecode Hs); [done..|]; cbn [act]; unfold pump_decode; by rewrite Hp, Hc.
  - apply (can_intro J s PumpDecode Hs); [done..|]. cbn [act]. unfold pump_decode. by rewrite Hp.
  - eapply (send_last_can J s id _ _ PumpDecode Hs); [done..|]. cbn [act]. unfold pump_decode. by rewrite Hp.
Qed.

Lemma clock_0 : DecodeW.clock f0.
Proof. done. Qed.

Lemma dnode_can J s j n : settled s -> decode s !! j = Some n ->
  dn_out n <> [] \/ dn_jobs n <> [] \/ dn_pending n <> [] \/ (exists id, 0 < runs id n) -> can_run J s.
Proof.
  intros Hs Hn H. assert (dn_running n = true) as Hrun by (eapply (Forall_lookup_1 _ _ _ _ (proj2 (se_running _ Hs)) Hn)).
  destruct (dn_out n) as [|e out] eqn:Hout.
  - apply (can_intro J s (RunDecode j f0 f0) Hs); [done|exact clock_0|]. cbn [act]. unfold run_decode. rewrite Hn, Hrun.
    cbn [negb]. unfold decode_turn. rewrite Hout.
    assert ((Decoder.concurrency (DecodeW.d_sched (dn_worker n)) =? 0) && bool_decide (dn_pending n ++ dn_jobs n = []) = false) as ->.
    { apply andb_false_iff. destruct H as [[]|H]; [done|].
      destruct (decide (dn_pending n ++ dn_jobs n = [])) as [Hnil|Hne]; [left|right; by apply bool_decide_eq_false].
      apply app_eq_nil in Hnil as [Hpn Hjn]. destruct H as [H|[H|[id H]]]; [done..|].
      apply Z.eqb_neq. unfold Decoder.concurrency. unfold runs in H. apply has_pos in H as [q Hq].
      intros Hz. assert (size (Decoder.running (DecodeW.d_sched (dn_worker n))) = 0%nat) as Hz' by lia.
      apply map_size_empty_inv in Hz'. by rewrite Hz', lookup_empty in Hq. }
    destruct (DecodeW.step _ _ _ _) as [[[w rest] out]|]; done.
  - destruct n as [w jobs pending out' r]; cbn in *; subst out' r.
    destruct (Nat.ltb_spec (length (events s)) CHANNEL_DEPTH) as [Hl|Hl].
    + apply (can_intro J s (SendEvent j) Hs); [done..|]. cbn [act]. unfold send_event. rewrite Hn.
      by apply Nat.ltb_lt in Hl as ->.
    + apply decode_pump_can; [done|]. left. intros Hnil. rewrite Hnil in Hl. cbn in Hl. unfold CHANNEL_DEPTH in Hl. lia.
Qed.

Lemma prefill_pump_can J s : settled s -> prefilled s <> [] \/ prefill_pump s <> PRecv -> can_run J s.
Proof.
  intros Hs H.
  destruct (prefill_pump s) as [|c e|id|w a|id|id] eqn:Hp.
  - apply (can_intro J s PumpPrefill Hs); [done..|]. cbn [act]. unfold pump_prefill. rewrite Hp.
    destruct H as [H|[]]; [|done]. by destruct (prefilled s).
  - destruct (send_chunk s (PrefillW.pc_id c) (token_chunk s (PrefillW.pc_first_token c))) eqn:Hc; [..|by eapply full_can].
    all: apply (can_intro J s PumpPrefill Hs); [done..|]; cbn [act]; unfold pump_prefill; by rewrite Hp, Hc.
  - eapply (send_last_can J s id _ _ PumpPrefill Hs); [done..|]. cbn [act]. unfold pump_prefill. by rewrite Hp.
  - pose proof (ro_pump _ (j_routes _ (se_joined _ Hs))) as Hw. rewrite Hp in Hw. cbn [pump_index] in Hw.
    apply lookup_lt_is_Some_2 in Hw as [n Hn].
    destruct (Nat.ltb_spec (length (dn_jobs n)) CHANNEL_DEPTH) as [Hl|Hl].
    + apply (can_intro J s PumpPrefill Hs); [done..|]. cbn [act]. unfold pump_prefill. rewrite Hp, Hn.
      destruct (negb _); [done|]. by apply Nat.ltb_lt in Hl as ->.
    + apply (dnode_can J s w n Hs Hn). right. left. intros Hnil. rewrite Hnil in Hl. cbn in Hl. unfold CHANNEL_DEPTH in Hl. lia.
  - eapply (send_last_can J s id _ _ PumpPrefill Hs); [done..|]. cbn [act]. unfold pump_prefill. by rewrite Hp.
  - apply (can_intro J s PumpPrefill Hs); [done..|]. cbn [act]. unfold pump_prefill. by rewrite Hp.
Qed.

Lemma pnode_can J s i n id : settled s -> prefill s !! i = Some n -> 0 < at_prefill id n -> can_run J s.
Proof.
  intros Hs Hn H. assert (pn_running n = true) as Hrun by (eapply (Forall_lookup_1 _ _ _ _ (proj1 (se_running _ Hs)) Hn)).
  destruct (pn_out n) as [|c out] eqn:Hout.
  - apply (can_intro J s (RunPrefill i f0 f0) Hs); [done|exact clock_0|]. cbn [act]. unfold run_prefill. rewrite Hn, Hrun.
    cbn [negb]. unfold prefill_turn. rewrite Hout.
    destruct (se_joined _ Hs) as [[Hnp _ _ _] [Hone _ _] _ _].
    destruct (enqueue_all (pn_jobs n) (pn_worker n)) as (_ & _ & _ & Hq).
    { by apply (Forall_lookup_1 _ _ _ _ Hnp Hn). }
    { intros i'. pose proof (at_prefill_early i' s i n Hn) as Hle. pose proof (Hone i') as H1. pose proof (early_parts i' s).
      pose proof (has_nonneg (clients s) i'). unfold at_prefill in Hle. rewrite Hout in Hle. cbn [zsum foldr] in Hle. lia. }
    destruct (decide _) as [Hz|_]; [exfalso|by destruct (PrefillW.round _ _ _) as [[]|]].
    apply map_size_empty_inv in Hz. specialize (Hq id). rewrite Hz, (has_None ∅) in Hq by apply lookup_empty.
    unfold at_prefill in H. rewrite Hout in H. cbn [zsum foldr] in H. lia.
  - destruct n as [w jobs out' r]; cbn in *; subst out' r.
    destruct (Nat.ltb_spec (length (prefilled s)) CHANNEL_DEPTH) as [Hl|Hl].
    + apply (can_intro J s (SendPrefilled i) Hs); [done..|]. cbn [act]. unfold send_prefilled. rewrite Hn.
      by apply Nat.ltb_lt in Hl as ->.
    + apply prefill_pump_can; [done|]. left. intros Hnil. rewrite Hnil in Hl. cbn in Hl. unfold CHANNEL_DEPTH in Hl. lia.
Qed.

Lemma starting_can J s q rest : settled s -> starting s = q :: rest -> can_run J s.
Proof.
  intros Hs Hq. destruct q as [pw job].
  pose proof (ro_starting _ (j_routes _ (se_joined _ Hs))) as Hst. rewrite Hq in Hst.
  apply Forall_cons in Hst as [Hpw _]. cbn [fst] in Hpw. apply lookup_lt_is_Some_2 in Hpw as [n Hn].
  destruct (Nat.ltb_spec (length (pn_jobs n)) CHANNEL_DEPTH) as [Hl|Hl].
  - apply (can_intro J s (QueueJob 0) Hs); [done..|]. cbn [act]. unfold queue_job. rewrite Hq. cbn [lookup list_lookup].
    rewrite Hn. destruct (negb _); [done|]. by apply Nat.ltb_lt in Hl as ->.
  - destruct (pn_jobs n) as [|j jobs] eqn:Hj; [cbn in Hl; unfold CHANNEL_DEPTH in Hl; lia|].
    apply (pnode_can J s pw n (PrefillW.job_id j) Hs Hn). unfold at_prefill. rewrite Hj, zsum_cons, is_id_same.
    pose proof (zsum_nonneg (fun j0 => is_id (PrefillW.job_id j) (PrefillW.job_id j0)) jobs ltac:(intros; apply is_id_nonneg)).
    pose proof (zsum_nonneg (fun c => is_id (PrefillW.job_id j) (PrefillW.pc_id c)) (pn_out n) ltac:(intros; apply is_id_nonneg)).
    pose proof (has_nonneg (Sched.queue (PrefillW.w_sched (pn_worker n))) (PrefillW.job_id j)). lia.
Qed.

(** A positive count has a place. *)
Lemma zsum_pos {A} (f : A -> Z) l : 0 < zsum f l -> exists i a, l !! i = Some a /\ 0 < f a.
Proof.
  induction l as [|a l IH]; [done|]. rewrite zsum_cons. intros H. destruct (Z.ltb_spec 0 (f a)) as [Ha|Ha].
  - by exists 0%nat, a.
  - destruct IH as (i & b & Hi & Hb); [lia|]. by exists (S i), b.
Qed.

Lemma unfinished_can J s : settled s -> unfinished s -> can_run J s.
Proof.
  intros Hs [[id H]|[H|[H|H]]]; [|apply decode_pump_can; auto..|].
  - pose proof (early_parts id s) as Hparts. unfold early in H.
    destruct (starting s) as [|q rest] eqn:Hst; [|by eapply starting_can].
    destruct (prefilled s) as [|r rest] eqn:Hpf; [|by apply prefill_pump_can; [|left; rewrite Hpf]].
    destruct (prefill_pump s) eqn:Hpp; [|by apply prefill_pump_can; [|right; rewrite Hpp]..].
    cbn [at_pump] in *. change (zsum _ []) with 0 in *.
    destruct (Z.ltb_spec 0 (zsum (at_prefill id) (prefill s))) as [Hp|Hp].
    { apply zsum_pos in Hp as (i & n & Hn & Hid). by eapply pnode_can. }
    destruct (Z.ltb_spec 0 (zsum (waiting id) (decode s))) as [Hw|Hw].
    + apply zsum_pos in Hw as (j & n & Hn & Hid). apply (dnode_can J s j n Hs Hn). right. unfold waiting in Hid.
      destruct (dn_jobs n); [|by left]. destruct (dn_pending n); [done|by right; left].
    + assert (0 < decoding id s) as Hd by lia.
      apply zsum_pos in Hd as (j & n & Hn & Hid). apply (dnode_can J s j n Hs Hn). right; right; right. by exists id.
  - apply Exists_exists in H as (n & Hin & Hout). apply list_elem_of_lookup in Hin as [j Hn].
    apply (dnode_can J s j n Hs Hn). by left.
Qed.
End waiting.

Section theorems.
Context {E K : Type} {IE : Engine E} {IL : EngineLaws E} {IT : EngineTracks E} {IK : Tokens.Tokenizer K}.
Context (c : Config.Deployment.Config) (pe de : list E) (tok : K) (d : Deployment E K) (J : Type).

(** C10. The bounded channels do not deadlock: in every state a deployment reaches
    with its tasks alive, as long as a request has not come to its end or an event
    has not reached its client, some task can take a step or some client has
    something to read.  So a deployment in which nothing can move has no request
    left, on no queue, channel, batch or pump. *)
Theorem channels_never_deadlock (s : Deployment E K) :
  Runs.spawned c pe de tok d -> reach J d s -> all_running s -> unfinished s -> can_run J s.
Proof.
  intros Hsp Hr Hrun Hun. destruct (Runs.run_joined c pe de tok d J s Hsp Hr) as [Hj Hs].
  apply unfinished_can; [by split|done].
Qed.
End theorems.

(** ** A request that was queued *)

#[local] Existing Instances Mock.mock_engine Mock.mock_laws Mock.mock_tracks Tokens.synthetic.

Lemma channels_never_deadlock_witness : exists s, reach unit Runs.demo s /\ early 7 s = 1 /\ can_run unit s.
Proof.
  assert (option_map (fun s => (early 7 s, 0 <=? decoding 7 s, (forallb pn_running (prefill s), forallb dn_running (decode s))))
    (run_actions Runs.demo [Generate (Runs.ask 7 3) f0; QueueJob 0]) = Some (1, true, (true, true))) as Hc by (vm_compute; reflexivity).
  destruct (run_actions Runs.demo _) as [s|] eqn:Er; [|discriminate Hc]. cbn [option_map] in Hc. injection Hc as H1 H2 H3 H4.
  assert (reach unit Runs.demo s) as Hr
    by (eapply Runs.run_actions_reach; [apply reach_start|exact Er|]; vm_compute; reflexivity).
  exists s. split; [exact Hr|]. split; [exact H1|].
  apply (channels_never_deadlock Config.Deployment.config_default Runs.one_prefill Runs.one_decode Tokens.Synthetic Runs.demo unit s
    Runs.demo_spawned Hr).
  - split; apply List.Forall_forall, List.forallb_forall; [exact H3|exact H4].
  - left. exists 7. apply Z.leb_le in H2. lia.
Defined.
End Waiting.
