(* ===== verification/InProcessServe.v ===== *)
(** * The deployment in one process serves its requests ([crates/worker/src/deployment.rs])

    Over engines that serve, with requests that fit the workers' pages and
    clients that stay, no step of a task loses anything: each of them moves some
    request on. [moves] lists what the steps then are, and [serving] is what
    makes them so and is kept by them. *)

From Stdlib Require Import ZArith Lia.
From stdpp Require Import base option list numbers gmap strings.
From S2P Require Import Prelude Sums F64 F64Int Core Pool Policy Prefill Controller Decode Radix Router Capacity Engine Config Wire Tokenizer Frontend Worker PrefillLive DecodeLive InProcess InProcessInv InProcessRun InProcessLive.

Module Serves.
Import Frontend InProcess Joined Waiting.
Local Open Scope Z_scope.

(** What the requests ask for, by identifier, and what the workers have: pages
    of [page] tokens, [room] of them for requests. *)
Record Sizes := mkSizes {
  asked : Z -> Z;
  prompt : Z -> Z;
  page : Z;
  room : Z
}.

Lemma inserted {A} (l : list A) j k x y : <[j := x]> l !! k = Some y -> k = j /\ x = y \/ j <> k /\ l !! k = Some y.
Proof. intros [(-> & -> & _)|H]%list_lookup_insert_Some; [by left|by right]. Qed.

Section serves.
Context {E K : Type} {IE : Engine E} {IL : EngineLaws E} {IT : EngineTracks E} {IS : EngineServes E} {IK : Tokens.Tokenizer K}.
Context (z : Sizes).
Implicit Types s : Deployment E K.

(** A request with a prompt, whose tokens fit the pages of a worker. *)
Record fine (id : Z) : Prop := {
  fi_max : asked z id <= u32_max;
  fi_prompt : 0 < prompt z id;
  fi_fits : blocks_for (prompt z id + asked z id) (page z) <= room z
}.

(** ** The parts *)

Definition good_job (j : PrefillW.PrefillJob) : Prop :=
  Z.of_nat (length (PrefillW.job_prompt j)) = prompt z (PrefillW.job_id j) /\ fine (PrefillW.job_id j).

Definition good_complete (c : PrefillW.PrefillComplete) : Prop := PrefillW.pc_prompt_len c = prompt z (PrefillW.pc_id c).

Record good_admit (a : DecodeW.DecodeAdmit) : Prop := {
  ga_max : DecodeW.ad_max_tokens a = asked z (DecodeW.ad_id a);
  ga_len : DecodeW.ad_prompt_len a = prompt z (DecodeW.ad_id a);
  ga_many : 2 <= asked z (DecodeW.ad_id a);
  ga_fine : fine (DecodeW.ad_id a)
}.

Definition good_entry (id : Z) (e : Inflight) : Prop := in_max_tokens e = asked z id /\ fine id.

Abbreviation queue_of n := (Sched.queue (PrefillW.w_sched (pn_worker n))).
Abbreviation owed n := (owes (DecodeW.d_engine (dn_worker n))).

Record pnode_serves (n : PrefillNode E) : Prop := {
  ps_worker : Prefilling.pserved (pn_worker n);
  ps_page : PrefillW.w_block_size (pn_worker n) = page z;
  ps_room : Prefilling.capacity (pn_worker n) = room z;
  ps_jobs : Forall good_job (pn_jobs n);
  ps_queue : map_Forall (fun id p => Sched.compute_tokens p = prompt z id) (queue_of n);
  ps_out : Forall good_complete (pn_out n)
}.

Record dnode_serves (n : DecodeNode E) : Prop := {
  ds_worker : Decoding.served (dn_worker n);
  ds_page : DecodeW.d_block_size (dn_worker n) = page z;
  ds_room : Z.of_nat (total (DecodeW.d_pool (dn_worker n))) - reserve (DecodeW.d_pool (dn_worker n)) = room z;
  ds_jobs : Forall good_admit (dn_pending n ++ dn_jobs n)
}.

(** The entry of a request at the pump is the map's, and names its worker. *)
Definition pump_serves s : Prop :=
  match prefill_pump s with
  | PToken c e => good_complete c /\ inflight s !! PrefillW.pc_id c = Some e
  | PAdmit w a => good_admit a /\ exists e, inflight s !! DecodeW.ad_id a = Some e /\ in_decode_worker e = w
  | PGone _ => False
  | _ => True
  end.

Definition dpump_serves (p : DecodePump) : Prop := match p with DRemove _ => False | _ => True end.

(** ** Pages

    Those the prompts on their way to a prefill worker, and with it, will take. *)
Definition job_pages (j : PrefillW.PrefillJob) : Z := blocks_for (Z.of_nat (length (PrefillW.job_prompt j))) (page z).
Definition heading (i : nat) (q : nat * PrefillW.PrefillJob) : Z := if decide (q.1 = i) then job_pages q.2 else 0.

Definition pages_in (n : PrefillNode E) : Z := zsum job_pages (pn_jobs n) + Prefilling.pages_queued (pn_worker n).
Definition roomy s : Prop := forall i n, prefill s !! i = Some n -> zsum (heading i) (starting s) + pages_in n <= room z.

(** ** Homes

    A request that decodes is with one worker, its entry's; its events come from
    there, and nothing follows the last of them. *)
Definition at_home (id : Z) (n : DecodeNode E) : Prop := 0 < waiting id n + runs id n \/ Exists (about id) (dn_out n).

Fixpoint closed (l : list DecodeW.DecodeEvent) : Prop :=
  match l with
  | [] => True
  | DecodeW.EvToken _ _ :: l => closed l
  | DecodeW.EvFinished id _ :: l => ~ Exists (about id) l /\ closed l
  end.

Definition ends (id : Z) (e : DecodeW.DecodeEvent) : Prop :=
  match e with DecodeW.EvFinished i _ => i = id | _ => False end.

Record homed s : Prop := {
  ho_node : forall j n id, decode s !! j = Some n -> at_home id n ->
    exists e, inflight s !! id = Some e /\ in_decode_worker e = j;
  ho_events : forall id, Exists (about id) (events s) -> is_Some (inflight s !! id);
  ho_queue : closed (events s);
  ho_closed : forall j n, decode s !! j = Some n -> closed (events s ++ dn_out n);
  ho_over : forall j n id, decode s !! j = Some n -> Exists (ends id) (events s ++ dn_out n) -> runs id n = 0
}.

(** ** The whole *)

Record serving s : Prop := {
  sv_settled : settled s;
  sv_prefill : Forall pnode_serves (prefill s);
  sv_decode : Forall dnode_serves (decode s);
  sv_starting : Forall (fun q => good_job q.2) (starting s);
  sv_prefilled : Forall good_complete (prefilled s);
  sv_inflight : map_Forall good_entry (inflight s);
  sv_pump : pump_serves s;
  sv_dpump : dpump_serves (decode_pump s);
  sv_clients : map_Forall (fun _ cl => c_listening cl = true) (clients s);
  sv_roomy : roomy s;
  sv_homed : homed s
}.

(** ** The steps *)

(** A node's tasks with their channels changed. *)
Definition with_jobs (n : PrefillNode E) jobs : PrefillNode E := mkPNode (pn_worker n) jobs (pn_out n) true.
Definition with_admits (n : DecodeNode E) jobs : DecodeNode E := mkDNode (dn_worker n) jobs (dn_pending n) (dn_out n) true.

Definition put_prefill s i n : Deployment E K := set_prefill s (<[i := n]> (prefill s)).
Definition put_decode s j n : Deployment E K := set_decode s (<[j := n]> (decode s)).
Definition chunk_to s id cl c : Deployment E K := set_clients s (sent_to (clients s) id cl c).

(** Where the pump goes once the first token is sent. *)
Definition after_token (c : PrefillW.PrefillComplete) (e : Inflight) : PrefillPump :=
  if asked z (PrefillW.pc_id c) <=? 1 then PLast (PrefillW.pc_id c) else PAdmit (in_decode_worker e) (admit_of c e).

Inductive moves s : Deployment E K -> Prop :=
  | mv_queue i pw job n : starting s !! i = Some (pw, job) -> prefill s !! pw = Some n ->
      moves s (put_prefill (set_starting s (remove_at i (starting s))) pw (with_jobs n (pn_jobs n ++ [job])))
  | mv_prefill i n b done_at w' out : prefill s !! i = Some n -> pn_out n = [] ->
      Prefilling.rounds (foldl PrefillW.enqueue (pn_worker n) (pn_jobs n)) b done_at w' out ->
      moves s (put_prefill s i (mkPNode w' [] out true))
  | mv_prefilled i n c out : prefill s !! i = Some n -> pn_out n = c :: out ->
      moves s (set_prefilled (put_prefill s i (mkPNode (pn_worker n) (pn_jobs n) out true)) (prefilled s ++ [c]))
  | mv_receive c e rest : prefill_pump s = PRecv -> prefilled s = c :: rest -> inflight s !! PrefillW.pc_id c = Some e ->
      moves s (set_prefill_pump (set_prefilled s rest) (PToken c e))
  | mv_first c e cl chunk : prefill_pump s = PToken c e -> clients s !! PrefillW.pc_id c = Some cl -> is_token chunk = true ->
      moves s (set_prefill_pump (chunk_to s (PrefillW.pc_id c) cl chunk) (after_token c e))
  | mv_last id cl : prefill_pump s = PLast id -> clients s !! id = Some cl ->
      moves s (set_prefill_pump (chunk_to s id cl (CDone "length")) (PRemove id))
  | mv_hand_over j a n : prefill_pump s = PAdmit j a -> decode s !! j = Some n ->
      moves s (set_prefill_pump (put_decode s j (with_admits n (dn_jobs n ++ [a]))) PRecv)
  | mv_forget id : prefill_pump s = PRemove id -> is_Some (inflight s !! id) ->
      moves s (set_prefill_pump (set_inflight s (delete id (inflight s))) PRecv)
  | mv_decode j n js w' rest ev : decode s !! j = Some n -> dn_out n = [] ->
      Decoding.iterates (dn_worker n) (dn_pending n ++ dn_jobs n) js w' rest ev ->
      Decoding.load js (owed n) <> ∅ ->
      moves s (put_decode s j (mkDNode w' [] rest ev true))
  | mv_event j n ev out : decode s !! j = Some n -> dn_out n = ev :: out ->
      moves s (set_events (put_decode s j (mkDNode (dn_worker n) (dn_jobs n) (dn_pending n) out true)) (events s ++ [ev]))
  | mv_take_token id token rest : decode_pump s = DRecv -> events s = DecodeW.EvToken id token :: rest ->
      is_Some (inflight s !! id) ->
      moves s (set_decode_pump (set_events s rest) (DToken id token))
  | mv_take_end id k rest : decode_pump s = DRecv -> events s = DecodeW.EvFinished id k :: rest ->
      is_Some (inflight s !! id) ->
      moves s (set_decode_pump (set_inflight (set_events s rest) (delete id (inflight s))) (DDone id))
  | mv_token id token cl chunk : decode_pump s = DToken id token -> clients s !! id = Some cl -> is_token chunk = true ->
      moves s (set_decode_pump (chunk_to s id cl chunk) DRecv)
  | mv_done id cl : decode_pump s = DDone id -> clients s !! id = Some cl ->
      moves s (set_decode_pump (chunk_to s id cl (CDone "length")) DRecv)
  | mv_read id sent n : clients s !! id = Some (mkClient sent (S n) true) ->
      moves s (set_clients s (<[id := mkClient sent n true]> (clients s))).

(** ** Every step of a serving deployment is one of these *)

Lemma pump_client s id : serving s -> at_pump id (prefill_pump s) = 1 ->
  is_Some (clients s !! id) /\ is_Some (inflight s !! id).
Proof.
  intros Hs Hat. pose proof (j_places _ (se_joined _ (sv_settled _ Hs))) as Hp. pose proof (early_parts id s) as Hpos.
  assert (0 < early id s) as He by (unfold early; lia). split; [|by apply (po_entry _ Hp)].
  pose proof (po_once _ Hp id). apply has_pos. lia.
Qed.

Lemma mentioned_client s id : serving s -> mentions id s -> is_Some (clients s !! id).
Proof.
  intros Hs Hm. apply (po_mentions _ (j_places _ (se_joined _ (sv_settled _ Hs)))) in Hm as [_ Hm]. apply has_pos. lia.
Qed.

Lemma pump_mentioned s id : pump_mentions id (decode_pump s) -> mentions id s.
Proof. intros H. by right; left. Qed.

(** What is sent to a client arrives. *)
Lemma send_open s id c cl : serving s -> clients s !! id = Some cl ->
  send_chunk s id c = Delivered (chunk_to s id cl c) \/ send_chunk s id c = Full.
Proof.
  intros Hs Hcl. unfold send_chunk. rewrite Hcl, (sv_clients _ Hs id cl Hcl). cbn [negb].
  destruct (_ <? _)%nat; [by left|by right].
Qed.

Lemma jobs_distinct s i n : serving s -> prefill s !! i = Some n -> pn_out n = [] ->
  NoDup (map PrefillW.job_id (pn_jobs n)) /\ (forall j, j ∈ pn_jobs n -> queue_of n !! PrefillW.job_id j = None).
Proof.
  intros Hs Hn Hout.
  assert (forall id, zsum (fun j => is_id id (PrefillW.job_id j)) (pn_jobs n) + has (queue_of n) id <= 1) as Hone.
  { intros id. pose proof (at_prefill_early id s i n Hn) as Hle. pose proof (once id s (j_places _ (se_joined _ (sv_settled _ Hs)))).
    unfold at_prefill in Hle. rewrite Hout in Hle. cbn [zsum foldr] in Hle. lia. }
  split.
  - apply once_NoDup. intros id. rewrite zsum_map. pose proof (has_nonneg (queue_of n) id). specialize (Hone id). lia.
  - intros j Hj. destruct (queue_of n !! PrefillW.job_id j) eqn:Eq; [|done]. exfalso. specialize (Hone (PrefillW.job_id j)).
    rewrite (has_Some _ _ _ Eq) in Hone.
    assert (PrefillW.job_id j ∈ map PrefillW.job_id (pn_jobs n)) as Hin%ids_elem by by apply list_elem_of_fmap_2.
    rewrite zsum_map in Hin. lia.
Qed.

(** A worker that has taken up the jobs in its channel. *)
Lemma taken_up s i n : serving s -> prefill s !! i = Some n -> pn_out n = [] ->
  let w := foldl PrefillW.enqueue (pn_worker n) (pn_jobs n) in
  Prefilling.pserved w /\ Prefilling.capacity w = room z /\ PrefillW.w_block_size w = page z /\
  (forall f, msum f (Sched.queue (PrefillW.w_sched w)) =
     zsum (fun j => f (PrefillW.job_id j) (Prefilling.pending_of j)) (pn_jobs n) + msum f (queue_of n)) /\
  map_Forall (fun id p => Sched.compute_tokens p = prompt z id) (Sched.queue (PrefillW.w_sched w)) /\
  Prefilling.pages_queued w = pages_in n.
Proof.
  intros Hs Hn Hout w. assert (pnode_serves n) as [P1 P2 P3 P4 P5 P6] by (eapply Forall_lookup_1; [apply Hs|done]).
  destruct (jobs_distinct s i n Hs Hn Hout) as [Hnd Hnew].
  destruct (Prefilling.enqueue_all_serves (pn_jobs n) (pn_worker n) P1 Hnd Hnew) as (H1 & H2 & H3 & H4 & H5).
  { eapply Forall_impl; [exact P4|]. intros j [Hl Hf]. pose proof (fi_prompt _ Hf). lia. }
  fold w in H1, H2, H3, H4, H5. split; [done|]. split; [congruence|]. split; [congruence|]. split; [done|]. split.
  - intros id p [Hp|(j & Hj & <- & ->)]%H5; [by apply (P5 id)|]. cbn. rewrite Forall_forall in P4. by apply P4.
  - unfold Prefilling.pages_queued, pages_in, job_pages. rewrite H4, H3, P2. unfold Prefilling.pages_queued. by rewrite P2.
Qed.

Lemma heading_nonneg i l : 0 <= zsum (heading i) l.
Proof.
  apply zsum_nonneg. intros q _. unfold heading, job_pages. destruct (decide _); [|done]. apply blocks_for_nonneg. lia.
Qed.

Lemma prefill_moves s i now done_at s' : serving s -> run_prefill s i now done_at = Moved s' -> moves s s'.
Proof.
  intros Hs. unfold run_prefill. destruct (prefill s !! i) as [n|] eqn:Hn; [|done].
  destruct (pn_running n); [cbn [negb]|done]. unfold prefill_turn. destruct (pn_out n) eqn:Hout; [|done].
  destruct (taken_up s i n Hs Hn Hout) as (H1 & H2 & H3 & _ & _ & H6). set (w := foldl _ _ _) in *.
  destruct (decide _) as [|Hne]; [done|].
  destruct (Prefilling.round_serves w now done_at H1) as (w' & sent & -> & Hr).
  - intros Hz. apply Hne. unfold Sched.queue_depth. by rewrite Hz, map_size_empty.
  - rewrite H2, H6. pose proof (sv_roomy _ Hs i n Hn). pose proof (heading_nonneg i (starting s)). lia.
  - intros [= <-]. by eapply mv_prefill.
Qed.

Lemma decode_moves s j now now2 s' : serving s -> DecodeW.clock now2 -> run_decode s j now now2 = Moved s' -> moves s s'.
Proof.
  intros Hs Hc. unfold run_decode. destruct (decode s !! j) as [n|] eqn:Hn; [|done].
  destruct (dn_running n); [cbn [negb]|done]. unfold decode_turn. destruct (dn_out n) eqn:Hout; [|done].
  pose proof (sv_settled _ Hs) as [Hj Hsize _].
  assert (dnode_serves n) as [D1 D2 D3 D4] by (eapply Forall_lookup_1; [apply Hs|done]).
  assert (dnode_ok n) as Hok by (eapply Forall_lookup_1; [apply Hj|done]).
  assert (DecodeW.pending_ok (dn_worker n) (dn_pending n ++ dn_jobs n)) as Hp.
  { apply node_pending_ok; [done|]. intros id. eapply node_once; [apply Hj|done]. }
  destruct (Decoding.step_serves (dn_worker n) (dn_pending n ++ dn_jobs n) now now2 D1 Hp) as (w' & rest & ev & js & Hst & Hit).
  { eapply Forall_impl; [exact D4|]. intros a [-> _ _ Hf]. apply Hf. }
  { done. }
  { eapply node_size; [apply Hj|done|done]. }
  destruct (_ && _) eqn:Hidle; [done|]. rewrite Hst. intros [= <-]. eapply mv_decode; [done|done|exact Hit|].
  apply (Decoding.it_works _ _ _ _ _ _ Hit).
  - eapply Forall_impl; [exact D4|]. intros a [Hm Hl _ Hf]. unfold Decoding.fits. rewrite Hm, Hl, D2. pose proof (fi_fits _ Hf). lia.
  - apply andb_false_iff in Hidle as [Hz|Hz]; [right|left; by apply bool_decide_eq_false in Hz].
    intros Hno. apply Z.eqb_neq in Hz. apply Hz. unfold Decoder.concurrency.
    assert (Decoder.running (DecodeW.d_sched (dn_worker n)) = ∅) as ->; [|by rewrite map_size_empty].
    apply map_empty. intros id. destruct (_ !! id) eqn:Er; [|done]. exfalso.
    assert (is_Some (owed n !! id)) as Ho by (apply (Decoding.sv_owes _ D1); eauto). rewrite Hno, lookup_empty in Ho. by destruct Ho.
Qed.

Lemma pump_moves_on s s' : serving s -> pump_prefill s = Moved s' -> moves s s'.
Proof.
  intros Hs. pose proof (sv_pump _ Hs) as Hpump. unfold pump_serves in Hpump. unfold pump_prefill, send_last.
  pose proof (fun id => pump_client s id Hs) as Hcl. destruct (prefill_pump s) as [|c e|id|j a|id|id] eqn:Hp; cbn [at_pump] in Hcl.
  - destruct (prefilled s) as [|c rest] eqn:Hpre; [done|].
    assert (is_Some (inflight s !! PrefillW.pc_id c)) as [e He].
    { apply (po_entry _ (j_places _ (se_joined _ (sv_settled _ Hs)))). pose proof (early_parts (PrefillW.pc_id c) s) as Hpos.
      unfold early. rewrite Hpre, zsum_cons, is_id_same in *.
      pose proof (zsum_nonneg (fun x => is_id (PrefillW.pc_id c) (PrefillW.pc_id x)) rest ltac:(intros; apply is_id_nonneg)). lia. }
    rewrite He. intros [= <-]. by eapply mv_receive.
  - destruct (Hcl _ (is_id_same _)) as [[cl Hc] _]. destruct (send_open s _ (token_chunk s (PrefillW.pc_first_token c)) cl Hs Hc) as [-> | ->]; [|done].
    intros [= <-]. destruct Hpump as [_ He]. destruct (sv_inflight _ Hs _ _ He) as [-> _]. by eapply mv_first.
  - destruct (Hcl _ (is_id_same _)) as [[cl Hc] _]. destruct (send_open s id (CDone "length") cl Hs Hc) as [-> | ->]; [|done].
    intros [= <-]. by apply mv_last.
  - destruct (decode s !! j) as [n|] eqn:Hn; [|done].
    assert (dn_running n = true) as ->.
    { eapply (Forall_lookup_1 _ _ _ _ (proj2 (se_running _ (sv_settled _ Hs))) Hn). }
    cbn [negb]. destruct (_ <? _)%nat; [|done]. intros [= <-]. by eapply mv_hand_over.
  - done.
  - intros [= <-]. apply mv_forget; [done|]. by destruct (Hcl _ (is_id_same _)).
Qed.

Lemma dpump_moves_on s s' : serving s -> pump_decode s = Moved s' -> moves s s'.
Proof.
  intros Hs. pose proof (sv_dpump _ Hs) as Hpump. unfold pump_decode, send_last.
  pose proof (fun id H => mentioned_client s id Hs (pump_mentioned s id H)) as Hcl.
  destruct (decode_pump s) as [|id token|id|id] eqn:Hp; cbn [pump_mentions] in Hcl.
  - destruct (events s) as [|[id token|id k] rest] eqn:Hev; [done|..].
    all: assert (is_Some (inflight s !! id)) as Hin by (apply (ho_events _ (sv_homed _ Hs)); rewrite Hev; by left).
    all: pose proof Hin as [e ->]; intros [= <-]; by econstructor.
  - destruct (Hcl _ eq_refl) as [cl Hc]. destruct (send_open s id (token_chunk s token) cl Hs Hc) as [-> | ->]; [|done].
    intros [= <-]. by eapply mv_token.
  - done.
  - destruct (Hcl _ eq_refl) as [cl Hc]. destruct (send_open s id (CDone "length") cl Hs Hc) as [-> | ->]; [|done].
    intros [= <-]. by apply mv_done.
Qed.

(** Whatever a task of a serving deployment does, it moves a request on. *)
Lemma act_moves {J} s (a : Action J) s' : serving s -> works a -> act_ok s a -> act s a = Moved s' -> moves s s'.
Proof.
  intros Hs Hw Hok. pose proof (sv_settled _ Hs) as [_ _ [Hrp Hrd]].
  destruct a as [| i | |i now done_at|i| |j now now2|j| | |id| | |]; try done; cbn [act act_ok] in *.
  - unfold queue_job. destruct (starting s !! i) as [[pw job]|] eqn:Hi; cbn [moved]; [|done].
    destruct (prefill s !! pw) as [n|] eqn:Hn; cbn [moved]; [|done].
    assert (pn_running n = true) as -> by (eapply (Forall_lookup_1 _ _ _ _ Hrp Hn)). cbn [negb].
    destruct (_ <? _)%nat; cbn [moved]; [|done]. intros [= <-]. by eapply mv_queue.
  - by apply prefill_moves.
  - unfold send_prefilled. destruct (prefill s !! i) as [[w jobs [|c out] [|]]|] eqn:Hn; try done. destruct (_ <? _)%nat; [|done].
    intros [= <-]. by apply (mv_prefilled s i _ c out Hn).
  - by apply pump_moves_on.
  - by apply decode_moves.
  - unfold send_event. destruct (decode s !! j) as [[w jobs pending [|e out] [|]]|] eqn:Hn; try done. destruct (_ <? _)%nat; [|done].
    intros [= <-]. by apply (mv_event s j _ e out Hn).
  - by apply dpump_moves_on.
  - unfold read_chunk. destruct (clients s !! id) as [[sent [|n] [|]]|] eqn:Hc; try done. intros [= <-]. by apply mv_read.
Qed.

(** Tasks are where they were, and alive. *)
Lemma moves_running s s' : all_running s -> moves s s' -> all_running s'.
Proof.
  intros [Hp Hd] Hm. destruct Hm; unfold put_prefill, put_decode, chunk_to; split; proj; try done; by apply Forall_insert.
Qed.

Lemma moves_settled {J} s (a : Action J) s' : serving s -> works a -> act_ok s a -> act s a = Moved s' -> settled s'.
Proof.
  intros Hs Hw Hok Ha. pose proof (act_moves s a s' Hs Hw Hok Ha) as Hm. pose proof (sv_settled _ Hs) as [Hj Hsize Hrun].
  destruct (act_advances s a Hj Hok Hsize) as [_ Hadv]. destruct (Hadv s' Ha) as [Hj' Hsh]. split; [done| |by eapply moves_running].
  assert (dom (clients s') = dom (clients s)) as Hdom.
  { apply set_eq. intros id. rewrite !elem_of_dom. destruct (Hsh ltac:(by destruct a) id) as (Hc & _).
    split; intros [x Hx]; rewrite (has_Some _ _ _ Hx) in Hc; apply has_pos; lia. }
  by rewrite <- (size_dom (clients s')), Hdom, size_dom.
Qed.

(** ** Events in order *)

Lemma closed_app l1 l2 : closed (l1 ++ l2) <->
  closed l1 /\ closed l2 /\ (forall id, Exists (ends id) l1 -> ~ Exists (about id) l2).
Proof.
  induction l1 as [|[i t|i k] l1 IH]; cbn [app closed].
  - split; [|tauto]. intros H. split; [done|]. split; [done|]. by intros id ?%Exists_nil.
  - rewrite IH. split; intros (H1 & H2 & H3); (split; [done|]; split; [done|]); intros id Hid; apply H3.
    + by apply Exists_cons in Hid as [[]|Hid].
    + by apply Exists_cons_tl.
  - rewrite IH, Exists_app. split.
    + intros (H0 & H1 & H2 & H3). split; [tauto|]. split; [done|]. intros id [<-|Hid]%Exists_cons; [tauto|by apply H3].
    + intros ([H0 H1] & H2 & H3). split.
      * intros [?|Ha]; [done|]. by apply (H3 i); [left|].
      * split; [done|]. split; [done|]. intros id Hid. apply H3. by right.
Qed.

Lemma ends_about id l : Exists (ends id) l -> Exists (about id) l.
Proof. intros H. eapply Exists_impl; [exact H|]. by intros []. Qed.

Lemma reports_about id toks (dn : list Decoder.RunningSeq) : Exists (about id) (Decoding.reports toks dn) ->
  id ∈ toks.*1 \/ id ∈ map Decoder.seq_id dn.
Proof.
  unfold Decoding.reports. intros [H|H]%Exists_app; [left|right]; apply Exists_exists in H as (e & Hin & Ha);
    apply list_elem_of_fmap in Hin as (x & -> & Hx); cbn in Ha; subst id; by apply list_elem_of_fmap_2.
Qed.

Lemma reports_ends id toks (dn : list Decoder.RunningSeq) : Exists (ends id) (Decoding.reports toks dn) ->
  id ∈ map Decoder.seq_id dn.
Proof.
  unfold Decoding.reports. intros [H|H]%Exists_app; apply Exists_exists in H as (e & Hin & Ha);
    apply list_elem_of_fmap in Hin as (x & -> & Hx); cbn in Ha; [done|]. subst id. by apply list_elem_of_fmap_2.
Qed.

Lemma reports_closed toks (dn : list Decoder.RunningSeq) : NoDup (map Decoder.seq_id dn) -> closed (Decoding.reports toks dn).
Proof.
  intros Hnd. unfold Decoding.reports. apply closed_app. split; [by induction toks as [|[] toks IH]|]. split.
  - induction dn as [|q dn IH]; cbn [map closed]; [done|]. cbn [map] in Hnd. apply NoDup_cons in Hnd as [Hn Hnd].
    split; [|by apply IH]. intros H. apply Hn. by apply (reports_about _ [] dn) in H as [?%not_elem_of_nil|].
  - intros id H. apply Exists_exists in H as (e & Hin & He). apply list_elem_of_fmap in Hin as (x & -> & _). done.
Qed.

(** Where a request of decoding is. *)
Lemma home_once s j k n m id : homed s -> decode s !! j = Some n -> decode s !! k = Some m -> at_home id n -> at_home id m -> j = k.
Proof.
  intros Hh Hn Hm H1 H2. destruct (ho_node _ Hh _ _ _ Hn H1) as (e & He & <-), (ho_node _ Hh _ _ _ Hm H2) as (e' & He' & <-). congruence.
Qed.

(** The sequences an iteration works on were the worker's. *)
Lemma iterated_home n js w' rest ev id : Decoding.served (dn_worker n) ->
  Decoding.iterates (dn_worker n) (dn_pending n ++ dn_jobs n) js w' rest ev ->
  is_Some (Decoding.load js (owed n) !! id) -> 0 < waiting id n + runs id n.
Proof.
  intros Hs Hit Hl. pose proof (waiting_nonneg id n). pose proof (runs_nonneg id n).
  apply Decoding.load_dom in Hl as [Ho|Hj].
  - apply (Decoding.sv_owes _ Hs) in Ho as [q Hq]. enough (runs id n = 1) by lia. by eapply has_Some.
  - enough (0 < waiting id n) by lia. rewrite waiting_ids. apply ids_elem. rewrite (Decoding.it_queue _ _ _ _ _ _ Hit), map_app.
    apply elem_of_app. by left.
Qed.

Lemma iterated_runs n js w' rest ev id r : Decoding.iterates (dn_worker n) (dn_pending n ++ dn_jobs n) js w' rest ev ->
  Decoding.load js (owed n) !! id = None \/ Decoding.load js (owed n) !! id = Some 1 -> runs id (mkDNode w' [] rest ev r) = 0.
Proof.
  intros Hit Hl. unfold runs. cbn [dn_worker]. apply has_None.
  destruct (Decoder.running (DecodeW.d_sched w') !! id) eqn:Er; [|done]. exfalso.
  assert (is_Some (owes (DecodeW.d_engine w') !! id)) as Ho by (apply (Decoding.sv_owes _ (Decoding.it_served _ _ _ _ _ _ Hit)); eauto).
  rewrite (Decoding.it_owes _ _ _ _ _ _ Hit) in Ho. unfold owed_after in Ho. rewrite lookup_omap in Ho.
  destruct Hl as [Hl|Hl]; rewrite Hl in Ho; by destruct Ho.
Qed.

Lemma iterated_speaks n js w' rest ev id : Decoding.iterates (dn_worker n) (dn_pending n ++ dn_jobs n) js w' rest ev ->
  (Exists (about id) ev -> is_Some (Decoding.load js (owed n) !! id)) /\
  (Exists (ends id) ev -> Decoding.load js (owed n) !! id = Some 1) /\ closed ev.
Proof.
  intros Hit. destruct (Decoding.it_events _ _ _ _ _ _ Hit) as (toks & dn & -> & Ht & Hnd & Hf). split_and!.
  - intros [H|H]%reports_about; [|eexists; by apply Hf]. rewrite Ht in H. by apply keys_elem.
  - intros H%reports_ends. by apply Hf.
  - by apply reports_closed.
Qed.

(** ** Homes are kept *)

Lemma homed_same s s' : inflight s' = inflight s -> decode s' = decode s -> events s' = events s -> homed s -> homed s'.
Proof. intros E1 E2 E3 [H1 H2 H3 H4 H5]. split; rewrite ?E1, ?E2, ?E3; done. Qed.

(** What a decode worker has is on one of the lists, once. *)
Lemma heard s id : serving s -> Exists (about id) (events s) -> early id s = 0.
Proof. intros Hs H. by apply (po_mentions _ (j_places _ (se_joined _ (sv_settled _ Hs)))); left. Qed.

Lemma heard_waiting s j n id : serving s -> decode s !! j = Some n -> Exists (about id) (events s ++ dn_out n) -> waiting id n = 0.
Proof.
  intros Hs Hn H. pose proof (sv_settled _ Hs) as [Hj _ _]. pose proof (waiting_early id s j n Hn) as [Hw _].
  pose proof (waiting_nonneg id n). enough (early id s = 0) by lia. apply (po_mentions _ (j_places _ Hj)).
  apply Exists_app in H as [H|H]; [by left|]. right; right. eapply Exists_lookup; [exact Hn|]. by left.
Qed.

Lemma homed_hand_over s j a n : serving s -> prefill_pump s = PAdmit j a -> decode s !! j = Some n ->
  homed (set_prefill_pump (put_decode s j (with_admits n (dn_jobs n ++ [a]))) PRecv).
Proof.
  intros Hs Hp Hn. pose proof (sv_homed _ Hs) as [H1 H2 H3 H4 H5]. pose proof (sv_pump _ Hs) as Hpump.
  unfold pump_serves in Hpump. rewrite Hp in Hpump. destruct Hpump as [_ (e & He & Hw)].
  split; proj; unfold put_decode; proj; [..|done| |].
  - intros k m id [[-> <-]|[_ Hm]]%inserted; [|by apply (H1 k m)].
    intros Hat. destruct (decide (id = DecodeW.ad_id a)) as [->|Hne]; [by exists e|]. apply (H1 j n id Hn).
    destruct Hat as [Hat|Hat]; [left|by right]. unfold with_admits in Hat. rewrite waiting_push in Hat.
    change (runs id (mkDNode _ _ _ _ _)) with (runs id n) in Hat. unfold is_id in Hat.
    destruct (Z.eqb_spec (DecodeW.ad_id a) id); [congruence|]. cbn in Hat. lia.
  - done.
  - intros k m [[-> <-]|[_ Hm]]%inserted; [by apply (H4 j n)|by apply (H4 k m)].
  - intros k m id [[-> <-]|[_ Hm]]%inserted; [by apply (H5 j n)|by apply (H5 k m)].
Qed.

Lemma homed_forget s id : serving s -> prefill_pump s = PRemove id ->
  homed (set_prefill_pump (set_inflight s (delete id (inflight s))) PRecv).
Proof.
  intros Hs Hp. pose proof (sv_homed _ Hs) as [H1 H2 H3 H4 H5]. pose proof (j_places _ (se_joined _ (sv_settled _ Hs))) as Hpl.
  assert (0 < at_pump id (prefill_pump s)) as Hat by (rewrite Hp; cbn [at_pump]; rewrite is_id_same; lia).
  pose proof (early_parts id s) as Hpos. pose proof (once id s Hpl) as Ho.
  assert (~ mentions id s) as Hn by (intros [Hz _]%(po_mentions _ Hpl); unfold early in Hz; lia).
  split; proj; try done.
  - intros j n i Hj Hi. destruct (H1 j n i Hj Hi) as (e & He & Hw). exists e. split; [|done].
    rewrite lookup_delete_ne; [done|]. intros <-. destruct Hi as [Hi|Hi].
    + destruct (waiting_early id s j n Hj) as [W1 W2]. unfold early in *.
      pose proof (zsum_elem (waiting id) (decode s) n ltac:(intros; apply waiting_nonneg) ltac:(by eapply list_elem_of_lookup_2)).
      pose proof (runs_nonneg id n). lia.
    + apply Hn. right; right. eapply Exists_lookup; [exact Hj|]. by left.
  - intros i Hi. rewrite lookup_delete_ne; [by apply H2|]. intros <-. apply Hn. by left.
Qed.

Lemma homed_decode s j n js w' rest ev : serving s -> decode s !! j = Some n -> dn_out n = [] ->
  Decoding.iterates (dn_worker n) (dn_pending n ++ dn_jobs n) js w' rest ev ->
  homed (put_decode s j (mkDNode w' [] rest ev true)).
Proof.
  intros Hs Hn Hout Hit. pose proof (sv_homed _ Hs) as [H1 H2 H3 H4 H5].
  assert (Decoding.served (dn_worker n)) as Hw by (eapply (Forall_lookup_1 _ _ _ _ (sv_decode _ Hs) Hn)).
  pose proof (fun id => iterated_speaks n js w' rest ev id Hit) as Hsp.
  assert (forall id, at_home id (mkDNode w' [] rest ev true) -> at_home id n) as Hback.
  { intros id [Hat|Hat]; left; [|by apply (iterated_home n js w' rest ev id Hw Hit), Hsp].
    destruct (Decoding.load js (owed n) !! id) eqn:El; [by eapply iterated_home; [| |eexists]|].
    rewrite (iterated_runs _ _ _ _ _ id true Hit) in Hat by by left. rewrite waiting_ids in *. cbn [dn_pending dn_jobs] in Hat.
    rewrite app_nil_r in Hat. rewrite (Decoding.it_queue _ _ _ _ _ _ Hit), map_app, zsum_app.
    pose proof (ids_nonneg id (map DecodeW.ad_id js)). pose proof (runs_nonneg id n). lia. }
  assert (forall id, Exists (ends id) (events s) -> Decoding.load js (owed n) !! id = None) as Hover.
  { intros id He. destruct (Decoding.load js (owed n) !! id) eqn:El; [|done]. exfalso.
    pose proof (iterated_home n js w' rest ev id Hw Hit ltac:(by eexists)) as Hat.
    rewrite (H5 j n id Hn) in Hat by (apply Exists_app; by left).
    rewrite (heard_waiting s j n id Hs Hn) in Hat by (apply Exists_app; left; by apply ends_about). lia. }
  unfold put_decode. split; proj; try done.
  - intros k m id [[-> <-]|[_ Hm]]%inserted; [|by apply (H1 k m)]. intros Hat. by apply (H1 j n), Hback.
  - intros k m [[-> <-]|[_ Hm]]%inserted; [|by apply (H4 k m)]. cbn [dn_out]. apply closed_app.
    split; [done|]. split; [by apply (Hsp 0)|]. intros id He Ha. apply Hsp in Ha. rewrite (Hover _ He) in Ha. by destruct Ha.
  - intros k m id [[-> <-]|[_ Hm]]%inserted; [|by apply (H5 k m)]. cbn [dn_out].
    intros [He|He]%Exists_app; (eapply iterated_runs; [exact Hit|]); [left; by apply Hover|right; by apply Hsp].
Qed.

Lemma homed_event s j n ev out : serving s -> decode s !! j = Some n -> dn_out n = ev :: out ->
  homed (set_events (put_decode s j (mkDNode (dn_worker n) (dn_jobs n) (dn_pending n) out true)) (events s ++ [ev])).
Proof.
  intros Hs Hn Hout. pose proof (sv_homed _ Hs) as Hh. pose proof Hh as [H1 H2 H3 H4 H5].
  pose proof (H4 j n Hn) as Hc. rewrite Hout in Hc.
  assert (forall id, about id ev -> at_home id n) as Hat by (intros id Ha; right; rewrite Hout; by left).
  assert (closed (events s ++ [ev])) as Hq.
  { rewrite cons_middle, app_assoc in Hc. by apply closed_app in Hc as (Hc & _). }
  unfold put_decode. split; proj.
  - intros k m id [[-> <-]|[_ Hm]]%inserted; [|by apply (H1 k m)]. intros Hi. apply (H1 j n id Hn).
    destruct Hi as [Hi|Hi]; [by left|right]. rewrite Hout. by right.
  - intros id [Hi|Hi]%Exists_app; [by apply H2|]. apply Exists_cons in Hi as [Hi|Hi%Exists_nil]; [|done].
    destruct (H1 j n id Hn (Hat _ Hi)) as (e & He & _). by eexists.
  - done.
  - intros k m [[-> <-]|[Hne Hm]]%inserted; [cbn [dn_out]; by rewrite <- app_assoc|].
    apply closed_app. pose proof (H4 k m Hm) as Hck. apply closed_app in Hck as (_ & Ho & Hord). split; [done|]. split; [done|].
    intros id [Hi|Hi]%Exists_app Ha; [by apply (Hord id)|]. apply Exists_cons in Hi as [Hi|Hi%Exists_nil]; [|done].
    destruct ev; [done|]. cbn in Hi. subst. apply Hne. eapply (home_once s j k n m id); [done..|by apply Hat|by right].
  - intros k m id [[-> <-]|[Hne Hm]]%inserted.
    + cbn [dn_out]. rewrite <- app_assoc. cbn [app]. rewrite <- Hout. by apply (H5 j n).
    + intros [[Hi|Hi]%Exists_app|Hi]%Exists_app; [apply (H5 k m id Hm), Exists_app; by left| |apply (H5 k m id Hm), Exists_app; by right].
      apply Exists_cons in Hi as [Hi|Hi%Exists_nil]; [|done]. destruct ev; [done|]. cbn in Hi. subst.
      destruct (decide (runs id m = 0)) as [|Hr]; [done|]. exfalso. apply Hne.
      pose proof (runs_nonneg id m). pose proof (waiting_nonneg id m).
      eapply (home_once s j k n m id); [done..|by apply Hat|]. left. lia.
Qed.

Lemma homed_take_token s id token rest : homed s -> events s = DecodeW.EvToken id token :: rest ->
  homed (set_decode_pump (set_events s rest) (DToken id token)).
Proof.
  intros [H1 H2 H3 H4 H5] Hev. rewrite Hev in *. split; proj; try done.
  - intros i Hi. apply H2. by right.
  - intros j n i Hn Hi. apply (H5 j n i Hn). by right.
Qed.

Lemma homed_take_end s id k rest : serving s -> events s = DecodeW.EvFinished id k :: rest ->
  homed (set_decode_pump (set_inflight (set_events s rest) (delete id (inflight s))) (DDone id)).
Proof.
  intros Hs Hev. pose proof (sv_homed _ Hs) as [H1 H2 H3 H4 H5].
  assert (forall j n, decode s !! j = Some n -> ~ at_home id n) as Haway.
  { intros j n Hn [Hat|Hat].
    - rewrite (H5 j n id Hn) in Hat by (rewrite Hev; by left).
      rewrite (heard_waiting s j n id Hs Hn) in Hat by (rewrite Hev; by left). lia.
    - pose proof (H4 j n Hn) as Hc. rewrite Hev in Hc. cbn [app closed] in Hc. apply Hc, Exists_app. by right. }
  rewrite Hev in *. destruct H3 as [H3 H3']. split; proj; try done.
  - intros j n i Hn Hat. rewrite lookup_delete_ne; [by apply (H1 j n)|]. intros <-. by apply (Haway j n Hn).
  - intros i Hi. rewrite lookup_delete_ne; [apply H2; by right|]. by intros <-.
  - intros j n Hn. by apply (H4 j n) in Hn as [_ Hn].
  - intros j n i Hn Hi. apply (H5 j n i Hn). by right.
Qed.

Lemma moves_homed s s' : serving s -> moves s s' -> homed s'.
Proof.
  intros Hs Hm. pose proof (sv_homed _ Hs) as Hh.
  destruct Hm; try (eapply homed_same; [..|exact Hh]; done).
  - by apply homed_hand_over.
  - by apply homed_forget.
  - by eapply homed_decode.
  - by apply homed_event.
  - by apply homed_take_token.
  - by eapply homed_take_end.
Qed.

(** ** Pages are kept *)

Lemma roomy_same s s' : prefill s' = prefill s -> starting s' = starting s -> roomy s -> roomy s'.
Proof. intros E1 E2 H i n. rewrite E1, E2. apply H. Qed.

Lemma moves_roomy s s' : serving s -> moves s s' -> roomy s'.
Proof.
  intros Hs Hm. pose proof (sv_roomy _ Hs) as Hr.
  destruct Hm as [i pw job n Hi Hn|i n b done_at w' out Hn Hout Hrd|i n c out Hn Hout| | | | | | | | | | | |];
    try (eapply roomy_same; [..|exact Hr]; done); unfold put_prefill; intros k m; proj; intros [[-> <-]|[Hne Hm]]%inserted.
  - rewrite (zsum_remove _ _ _ _ Hi). pose proof (Hr pw n Hn) as H. unfold heading at 2. rewrite decide_True by done. cbn [snd].
    unfold pages_in, with_jobs in *. cbn [pn_jobs pn_worker]. rewrite zsum_app. cbn [zsum foldr]. unfold zsum in *. lia.
  - rewrite (zsum_remove _ _ _ _ Hi). pose proof (Hr k m Hm) as H. unfold heading at 2. rewrite decide_False by done. lia.
  - destruct (taken_up s i n Hs Hn Hout) as (H1 & _ & _ & _ & _ & H6).
    pose proof (Prefilling.rounds_pages _ _ _ _ _ H1 Hrd). pose proof (Hr i n Hn). unfold pages_in at 1. cbn [pn_jobs pn_worker].
    change (zsum job_pages []) with 0. lia.
  - by apply Hr.
  - exact (Hr i n Hn).
  - by apply Hr.
Qed.

(** ** The parts are kept *)

Lemma moves_prefill s s' : serving s -> moves s s' ->
  Forall pnode_serves (prefill s') /\ Forall (fun q => good_job q.2) (starting s') /\ Forall good_complete (prefilled s').
Proof.
  intros Hs Hm. pose proof (sv_prefill _ Hs) as Hp. pose proof (sv_starting _ Hs) as Hst. pose proof (sv_prefilled _ Hs) as Hpf.
  destruct Hm as [i pw job n Hi Hn|i n b done_at w' out Hn Hout Hrd|i n c out Hn Hout|c e rest Hpump Hpre| | | | | | | | | | |];
    unfold put_prefill, put_decode, chunk_to; proj; try done.
  - assert (pnode_serves n) as [P1 P2 P3 P4 P5 P6] by (eapply Forall_lookup_1; [apply Hp|done]).
    split; [|split; [by apply Forall_remove|done]]. apply Forall_insert; [done|]. split; cbn [with_jobs pn_worker pn_jobs pn_out]; try done.
    apply Forall_app. split; [done|]. constructor; [|constructor]. exact (Forall_lookup_1 _ _ _ _ Hst Hi).
  - split; [|done]. destruct (taken_up s i n Hs Hn Hout) as (H1 & H2 & H3 & _ & H5 & _).
    destruct (Prefilling.rd_capacity _ _ _ _ _ Hrd) as (C1 & C2 & _). apply Forall_insert; [done|].
    split; cbn [pn_worker pn_jobs pn_out]; [apply Hrd|congruence|congruence|constructor| |].
    + intros id p [Hq|(ch & p0 & _ & _ & Hq & _ & ->)]%(Prefilling.advanced_lookup _ _ _ _ _ _ _ Hrd); [by apply (H5 id)|].
      exact (H5 id p0 Hq).
    + apply Forall_forall. intros x Hx. destruct (Prefilling.rd_told _ _ _ _ _ Hrd x Hx) as (_ & p & Hq & Hl).
      unfold good_complete. rewrite Hl. exact (H5 _ p Hq).
  - assert (pnode_serves n) as [P1 P2 P3 P4 P5 P6] by (eapply Forall_lookup_1; [apply Hp|done]).
    rewrite Hout in P6. apply Forall_cons in P6 as [Hc P6].
    split; [|split; [done|apply Forall_app; split; [done|by constructor]]]. apply Forall_insert; [done|].
    by split; cbn [pn_worker pn_jobs pn_out].
  - split; [done|]. split; [done|]. rewrite Hpre in Hpf. by apply Forall_cons in Hpf as [_ Hpf].
Qed.

Lemma moves_decode s s' : serving s -> moves s s' -> Forall dnode_serves (decode s').
Proof.
  intros Hs Hm. pose proof (sv_decode _ Hs) as Hd. pose proof (sv_pump _ Hs) as Hpump. unfold pump_serves in Hpump.
  destruct Hm as [| | | | | |j a n Hp Hn| |j n js w' rest ev Hn Hout Hit _|j n ev out Hn Hout| | | | |];
    unfold put_prefill, put_decode, chunk_to; proj; try done; (apply Forall_insert; [done|]);
    (assert (dnode_serves n) as [D1 D2 D3 D4] by (eapply Forall_lookup_1; [apply Hd|done])).
  - split; cbn [with_admits dn_worker dn_pending dn_jobs]; try done. rewrite app_assoc. apply Forall_app. split; [done|].
    constructor; [|constructor]. rewrite Hp in Hpump. apply Hpump.
  - destruct (Decoding.it_same _ _ _ _ _ _ Hit) as (S1 & S2 & _). split; cbn [dn_worker dn_pending dn_jobs].
    + apply Hit.
    + congruence.
    + by rewrite (same_size_reserve _ _ S1), (proj1 S1).
    + rewrite app_nil_r. rewrite (Decoding.it_queue _ _ _ _ _ _ Hit) in D4. by apply Forall_app in D4 as [_ D4].
  - by split.
Qed.

Lemma after_token_serves s c e p : serving s -> prefill_pump s = PToken c e -> p = after_token c e ->
  pump_serves (set_prefill_pump s p).
Proof.
  intros Hs Hp ->. pose proof (sv_pump _ Hs) as Hpump. unfold pump_serves in *. rewrite Hp in Hpump. proj.
  destruct Hpump as [Hc He]. destruct (sv_inflight _ Hs _ _ He) as [Hm Hf]. unfold after_token.
  destruct (Z.leb_spec (asked z (PrefillW.pc_id c)) 1); [done|]. split; [|by exists e].
  split; cbn [admit_of DecodeW.ad_id DecodeW.ad_max_tokens DecodeW.ad_prompt_len]; [done|exact Hc|lia|done].
Qed.

Lemma moves_pumps s s' : serving s -> moves s s' -> pump_serves s' /\ dpump_serves (decode_pump s').
Proof.
  intros Hs Hm. pose proof (sv_pump _ Hs) as Hp. pose proof (sv_dpump _ Hs) as Hd.
  destruct Hm as [| | |c e rest Hpump Hpre He|c e cl chunk Hpump| | | | | | |id k rest Hdp Hev Hin| | |]; split; try done.
  - unfold pump_serves. proj. split; [|done]. pose proof (sv_prefilled _ Hs) as Hpf. rewrite Hpre in Hpf. by apply Forall_cons in Hpf as [Hpf _].
  - exact (after_token_serves s c e _ Hs Hpump eq_refl).
  - assert (Exists (about id) (events s)) as Hab by (rewrite Hev; by left).
    pose proof (heard s id Hs Hab) as Hz. pose proof (early_parts id s) as Hpos. unfold early in Hz.
    assert (at_pump id (prefill_pump s) = 0) as Hat by lia.
    unfold pump_serves in *. proj. destruct (prefill_pump s) as [|c e|?|w a|?|?]; cbn [at_pump] in Hat; try done.
    + destruct Hp as [Hc He]. split; [done|]. rewrite lookup_delete_ne; [done|]. intros ->. by rewrite is_id_same in Hat.
    + destruct Hp as [Hc (e & He & Hw)]. split; [done|]. exists e. rewrite lookup_delete_ne; [done|].
      intros ->. by rewrite is_id_same in Hat.
Qed.

Lemma moves_maps s s' : serving s -> moves s s' ->
  map_Forall good_entry (inflight s') /\ map_Forall (fun _ cl => c_listening cl = true) (clients s').
Proof.
  intros Hs Hm. pose proof (sv_inflight _ Hs) as Hi. pose proof (sv_clients _ Hs) as Hc.
  destruct Hm; unfold put_prefill, put_decode, chunk_to, sent_to; proj; (split; try done);
    first [by apply map_Forall_insert_2|by apply map_Forall_delete].
Qed.

(** A serving deployment stays one. *)
Lemma act_serving {J} s (a : Action J) s' : serving s -> works a -> act_ok s a -> act s a = Moved s' ->
  moves s s' /\ serving s'.
Proof.
  intros Hs Hw Hok Ha. pose proof (act_moves s a s' Hs Hw Hok Ha) as Hm. split; [done|].
  destruct (moves_prefill s s' Hs Hm) as (P1 & P2 & P3), (moves_pumps s s' Hs Hm), (moves_maps s s' Hs Hm).
  split; try done; [by eapply moves_settled|by apply (moves_decode s)|by apply (moves_roomy s)|by apply (moves_homed s)].
Qed.

(** ** New requests and load reports *)

Lemma sync_serving s now : serving s -> serving (sync_loads s now).
Proof.
  intros Hs. pose proof Hs as [S1 S2 S3 S4 S5 S6 S7 S8 S9 S10 S11]. pose proof S1 as [Hj Hsize Hrun]. split; try done.
  - split; [|done|done]. by destruct (sync_advances s now Hj).
  - by destruct S11.
Qed.

(** A request as it is meant: of the sizes it is said to have, and the front
    end's number for it is new. *)
Definition asks_for {J} s (req : GenerateRequest J) : Prop :=
  clients s !! gen_id req = None /\ Z.of_nat (length (gen_prompt req)) = prompt z (gen_id req) /\
  max_tokens (gen_params req) = asked z (gen_id req) /\ fine (gen_id req).

(** The state once a request is accepted. *)
Definition accepted {J} s (req : GenerateRequest J) (pw dw : nat) (deadline : f64) : Deployment E K :=
  set_starting (set_inflight (set_clients s (<[gen_id req := mkClient [] 0 true]> (clients s)))
    (<[gen_id req := mkInflight dw (max_tokens (gen_params req))]> (inflight s)))
    (starting s ++ [(pw, PrefillW.mkJob (gen_id req) (gen_prompt req) deadline (gen_arrival_ms req))]).

Lemma start_cases {J} s (req : GenerateRequest J) now s' r : start_request s req now = Moved (s', r) ->
  s' = s \/ exists pw dw deadline, s' = accepted s req pw dw deadline.
Proof.
  unfold start_request. destruct (Routing.route _ _ _ _) as [[e|d]|]; [| |done]; [|by intros [= <- _]; left|..].
  all: try (destruct (prefill _ !! _); [|done]); intros [= <- _]; (by left) || (right; by eexists _, _, _).
Qed.

Lemma accepted_homed {J} s (req : GenerateRequest J) pw dw deadline : serving s -> clients s !! gen_id req = None ->
  homed (accepted s req pw dw deadline).
Proof.
  intros Hs Hnew. pose proof (sv_homed _ Hs) as [H1 H2 H3 H4 H5]. pose proof (j_places _ (se_joined _ (sv_settled _ Hs))) as Hp.
  assert (forall i, has (clients s) i = 1 -> gen_id req <> i) as Hne.
  { intros i Hi <-. by rewrite (has_None _ _ Hnew) in Hi. }
  unfold accepted. split; proj; try done.
  - intros j n i Hn Hat. rewrite lookup_insert_ne; [by apply (H1 j n)|]. apply Hne.
    pose proof (po_once _ Hp i) as Ho. pose proof (has_nonneg (clients s) i). pose proof (early_parts i s).
    destruct Hat as [Hat|Hat].
    + destruct (waiting_early i s j n Hn). lia.
    + apply (po_mentions _ Hp). right; right. eapply Exists_lookup; [exact Hn|]. by left.
  - intros i Hi. rewrite lookup_insert_ne; [by apply H2|]. apply Hne, (po_mentions _ Hp). by left.
Qed.

(** With room for its prompt where it goes, a request is taken in. *)
Lemma start_serving {J} s (req : GenerateRequest J) now s' r : serving s -> asks_for s req ->
  start_request s req now = Moved (s', r) -> roomy s' -> Z.of_nat (size (clients s')) <= 2 ^ 53 -> serving s'.
Proof.
  intros Hs (Hnew & Hl & Hm & Hf) Hst Hroom Hsize.
  pose proof Hs as [[Hj _ Hrun] S2 S3 S4 S5 S6 S7 S8 S9 S10 S11].
  destruct (start_request_joined s req now Hj Hnew) as [_ Hj']. specialize (Hj' s' r Hst).
  destruct (start_cases s req now s' r Hst) as [->|(pw & dw & deadline & ->)]; [done|].
  pose proof (accepted_homed s req pw dw deadline Hs Hnew) as Hh. unfold accepted in *.
  split; proj; try done.
  - apply Forall_app. split; [done|]. constructor; [|constructor]. by split.
  - by apply map_Forall_insert_2.
  - pose proof (j_places _ Hj) as Hp. pose proof (po_once _ Hp (gen_id req)) as Ho. rewrite (has_None _ _ Hnew) in Ho.
    pose proof (early_parts (gen_id req) s) as Hpos. unfold early in Ho.
    assert (at_pump (gen_id req) (prefill_pump s) = 0) as Hat by lia.
    unfold pump_serves in *. proj. destruct (prefill_pump s) as [|c e|?|w a|?|?]; cbn [at_pump] in Hat; try done.
    + destruct S7 as [Hc He]. split; [done|]. rewrite lookup_insert_ne; [done|]. intros Heq. rewrite Heq, is_id_same in Hat. done.
    + destruct S7 as [Hc (e & He & Hw)]. split; [done|]. exists e. rewrite lookup_insert_ne; [done|].
      intros Heq. rewrite Heq, is_id_same in Hat. done.
  - by apply map_Forall_insert_2.
Qed.
End serves.
End Serves.
