(* ===== verification/InProcessDone.v ===== *)
(** * Every request of a serving deployment is answered ([crates/worker/src/deployment.rs])

    Each step of a serving deployment costs something, so its tasks come to
    rest; and what is on the way to a client is never lost, so at rest every
    client has its whole answer. Both are accounts of what the state weighs. *)

From Stdlib Require Import ZArith Lia SpecFloat.
From stdpp Require Import base option list numbers gmap strings.
From S2P Require Import Prelude Sums F64 F64Int Core Pool Policy Prefill Controller Decode Radix Router Capacity Engine Config Wire Tokenizer Frontend Worker PrefillLive DecodeLive InProcess InProcessInv InProcessRun InProcessLive InProcessServe.

Module Done.
Import Frontend InProcess Joined Waiting Serves.
Local Open Scope Z_scope.

(** Where a request is, or what is on its way to its client; queued with the
    tokens left of its prompt, running with those left of its answer. *)
Inductive Stage :=
  | Starting | Job | Queued (left : Z) | Told | Prefilled | First | Last | HandOver | Forget
  | Wait | Running (left : Z) | TokenOut | EndOut | TokenIn | EndIn | TokenHeld | EndHeld
  | Entry.

(** An account: what a request weighs at each stage, and its client with what
    it was sent. *)
Record Account := mkAccount {
  stage : Z -> Stage -> Z;
  held : Z -> Client -> Z
}.

Section accounts.
Context {E K : Type} {IE : Engine E} {IL : EngineLaws E} {IT : EngineTracks E} {IS : EngineServes E} {IK : Tokens.Tokenizer K}.
Context (z : Sizes).
Implicit Types (s : Deployment E K) (a : Account).

Definition weigh_pump a (p : PrefillPump) : Z :=
  match p with
  | PRecv => 0
  | PToken c _ => stage a (PrefillW.pc_id c) First
  | PLast id => stage a id Last
  | PAdmit _ d => stage a (DecodeW.ad_id d) HandOver
  | PGone id => 0
  | PRemove id => stage a id Forget
  end.

Definition weigh_dpump a (p : DecodePump) : Z :=
  match p with DRecv | DRemove _ => 0 | DToken id _ => stage a id TokenHeld | DDone id => stage a id EndHeld end.

Definition weigh_queued a (id : Z) (p : Sched.PendingPrefill) : Z := stage a id (Queued (Sched.remaining p)).

Definition weigh_prefill a (n : PrefillNode E) : Z :=
  zsum (fun j => stage a (PrefillW.job_id j) Job) (pn_jobs n) +
  msum (weigh_queued a) (Sched.queue (PrefillW.w_sched (pn_worker n))) +
  zsum (fun c => stage a (PrefillW.pc_id c) Told) (pn_out n).

Definition weigh_waiting a (l : list DecodeW.DecodeAdmit) : Z := zsum (fun d => stage a (DecodeW.ad_id d) Wait) l.
Definition weigh_running a (n : DecodeNode E) : Z :=
  msum (fun id left => stage a id (Running left)) (owes (DecodeW.d_engine (dn_worker n))).
Definition weigh_out a : DecodeW.DecodeEvent -> Z :=
  Decoding.event_weight (fun id => stage a id TokenOut) (fun id => stage a id EndOut).
Definition weigh_in a : DecodeW.DecodeEvent -> Z :=
  Decoding.event_weight (fun id => stage a id TokenIn) (fun id => stage a id EndIn).

Definition weigh_decode a (n : DecodeNode E) : Z :=
  weigh_waiting a (dn_pending n ++ dn_jobs n) + weigh_running a n + zsum (weigh_out a) (dn_out n).

Definition weigh a s : Z :=
  zsum (fun q => stage a (PrefillW.job_id q.2) Starting) (starting s) + zsum (weigh_prefill a) (prefill s) +
  zsum (fun c => stage a (PrefillW.pc_id c) Prefilled) (prefilled s) + weigh_pump a (prefill_pump s) +
  zsum (weigh_decode a) (decode s) + zsum (weigh_in a) (events s) + weigh_dpump a (decode_pump s) +
  msum (fun id _ => stage a id Entry) (inflight s) + msum (held a) (clients s).

(** A client with one more chunk, or one less to read. *)
Definition given (cl : Client) (c : StreamChunk) : Client := mkClient (c_sent cl ++ [c]) (S (c_unread cl)) true.

(** From stage to stage a request gives up [c], or what its client gains. *)
Record pays a (c : Z) : Prop := {
  pay_start id : stage a id Job + c <= stage a id Starting;
  pay_job id : stage a id (Queued (prompt z id)) <= stage a id Job;
  pay_chunk id left n : 0 < n < left -> stage a id (Queued (left - n)) + c <= stage a id (Queued left);
  pay_prompt id left : 0 < left -> stage a id Told + c <= stage a id (Queued left);
  pay_told id : stage a id Prefilled + c <= stage a id Told;
  pay_prefilled id : stage a id First + c <= stage a id Prefilled;
  pay_only id cl chunk : asked z id <= 1 -> is_token chunk = true ->
    held a id (given cl chunk) + stage a id Last + c <= stage a id First + held a id cl;
  pay_first id cl chunk : 2 <= asked z id -> is_token chunk = true ->
    held a id (given cl chunk) + stage a id HandOver + c <= stage a id First + held a id cl;
  pay_last id cl : held a id (given cl (CDone "length")) + stage a id Forget + c <= stage a id Last + held a id cl;
  pay_forget id : c <= stage a id Forget + stage a id Entry;
  pay_over id : stage a id Wait + c <= stage a id HandOver;
  pay_admit id : 2 <= asked z id -> stage a id (Running (Decoding.budget (asked z id))) <= stage a id Wait;
  pay_step id n : 2 <= n -> stage a id TokenOut + stage a id (Running (n - 1)) + c <= stage a id (Running n);
  pay_end id : stage a id TokenOut + stage a id EndOut + c <= stage a id (Running 1);
  pay_token_out id : stage a id TokenIn + c <= stage a id TokenOut;
  pay_end_out id : stage a id EndIn + c <= stage a id EndOut;
  pay_token_in id : stage a id TokenHeld + c <= stage a id TokenIn;
  pay_end_in id : stage a id EndHeld + c <= stage a id EndIn + stage a id Entry;
  pay_token id cl chunk : is_token chunk = true -> held a id (given cl chunk) + c <= stage a id TokenHeld + held a id cl;
  pay_done id cl : held a id (given cl (CDone "length")) + c <= stage a id EndHeld + held a id cl;
  pay_read id sent n : held a id (mkClient sent n true) + c <= held a id (mkClient sent (S n) true)
}.

Lemma weigh_with_jobs a n job : weigh_prefill a (with_jobs n (pn_jobs n ++ [job])) = weigh_prefill a n + stage a (PrefillW.job_id job) Job.
Proof. unfold weigh_prefill, with_jobs. cbn [pn_worker pn_jobs pn_out]. rewrite zsum_app. cbn [zsum foldr]. unfold zsum. lia. Qed.

(** What a round, and what an iteration, costs. *)
Lemma round_pays a c s i n b done_at w' out : pays a c -> 0 <= c -> serving z s -> prefill s !! i = Some n -> pn_out n = [] ->
  Prefilling.rounds (foldl PrefillW.enqueue (pn_worker n) (pn_jobs n)) b done_at w' out ->
  weigh_prefill a (mkPNode w' [] out true) + c <= weigh_prefill a n.
Proof.
  intros Hp Hc Hs Hn Hout Hr. destruct (taken_up z s i n Hs Hn Hout) as (H1 & H2 & H3 & H4 & H5 & _).
  set (w := foldl _ _ _) in *. unfold weigh_prefill. cbn [pn_worker pn_jobs pn_out]. rewrite Hout.
  pose proof (Prefilling.rounds_weigh (weigh_queued a) (fun id => stage a id Told) c w b done_at w' out Hr) as Hw.
  rewrite H4 in Hw.
  assert (zsum (fun j => weigh_queued a (PrefillW.job_id j) (Prefilling.pending_of j)) (pn_jobs n) <=
    zsum (fun j => stage a (PrefillW.job_id j) Job) (pn_jobs n)) as Hjobs.
  { apply zsum_le. intros j Hj. assert (pnode_serves z n) as Hps by (eapply (Forall_lookup_1 _ _ _ _ (sv_prefill _ _ Hs) Hn)).
    pose proof (ps_jobs _ _ Hps) as Hg. rewrite Forall_forall in Hg. destruct (Hg j Hj) as [Hl _].
    unfold weigh_queued, Sched.remaining, sat_sub. cbn. rewrite Z.sub_0_r, Z.max_r by lia. rewrite Hl. apply (pay_job _ _ Hp). }
  change (zsum _ []) with 0.
  enough (msum (weigh_queued a) (Sched.queue (PrefillW.w_sched w')) + zsum (fun x => stage a (PrefillW.pc_id x) Told) out +
    c * Z.of_nat (length (Sched.chunks b)) <=
    zsum (fun j => weigh_queued a (PrefillW.job_id j) (Prefilling.pending_of j)) (pn_jobs n) +
    msum (weigh_queued a) (Sched.queue (PrefillW.w_sched (pn_worker n)))) as Hall.
  { pose proof (Prefilling.rd_some _ _ _ _ _ Hr) as Hsome. destruct (Sched.chunks b); [done|]. cbn [length] in Hall. nia. }
  apply Hw.
  - intros id p k Hq Hk. unfold weigh_queued. rewrite Sched.advance_remaining.
    + by apply (pay_chunk _ _ Hp).
    + by apply (Sched.si_pending _ (PrefillW.wi_sched _ (Prefilling.pv_inv _ H1)) _ _ Hq).
    + lia.
  - intros id p Hq. apply (pay_prompt _ _ Hp). by apply (Prefilling.pv_todo _ H1 _ _ Hq).
Qed.

Lemma iteration_pays a c s j n js w' rest ev : pays a c -> 0 <= c -> serving z s -> decode s !! j = Some n -> dn_out n = [] ->
  Decoding.iterates (dn_worker n) (dn_pending n ++ dn_jobs n) js w' rest ev ->
  Decoding.load js (owes (DecodeW.d_engine (dn_worker n))) <> ∅ ->
  weigh_decode a (mkDNode w' [] rest ev true) + c <= weigh_decode a n.
Proof.
  intros Hp Hc Hs Hn Hout Hit Hload. assert (dnode_serves z n) as [D1 _ _ D4] by (eapply (Forall_lookup_1 _ _ _ _ (sv_decode _ _ Hs) Hn)).
  pose proof (sv_settled _ _ Hs) as [Hj _ _].
  assert (DecodeW.pending_ok (dn_worker n) (dn_pending n ++ dn_jobs n)) as Hpk.
  { apply node_pending_ok; [eapply Forall_lookup_1; [apply Hj|done]|]. intros id. eapply node_once; [apply Hj|done]. }
  pose proof (Decoding.iterates_weigh (fun d => stage a (DecodeW.ad_id d) Wait) (fun id left => stage a id (Running left))
    (fun id => stage a id TokenOut) (fun id => stage a id EndOut) c _ _ _ _ _ _ D1 Hpk Hit) as Hw.
  unfold weigh_decode, weigh_waiting, weigh_running, weigh_out. cbn [dn_worker dn_pending dn_jobs dn_out]. rewrite app_nil_r, Hout.
  change (zsum _ []) with 0.
  assert (0 < size (Decoding.load js (owes (DecodeW.d_engine (dn_worker n)))))%nat as Hpos.
  { destruct (size _) eqn:Ez; [|lia]. by apply map_size_empty_inv in Ez. }
  enough (c <= c * Z.of_nat (size (Decoding.load js (owes (DecodeW.d_engine (dn_worker n)))))) as Hle; [|nia].
  etrans; [apply Zplus_le_compat_l, Hle|]. rewrite Z.add_comm, <- Z.add_assoc. 
  etrans; [|etrans; [apply Hw|]]; [lia|..|lia].
  - intros d Hd. rewrite Forall_forall in D4. destruct (D4 d Hd) as [-> _ Hm _]. by apply (pay_admit _ _ Hp).
  - intros id k Hk. by apply (pay_step _ _ Hp).
  - intros id. apply (pay_end _ _ Hp).
Qed.

(** The parts of the account a step touches. *)
Lemma weigh_put_prefill a s i n n' : prefill s !! i = Some n ->
  weigh a (put_prefill s i n') = weigh a s - weigh_prefill a n + weigh_prefill a n'.
Proof. intros Hn. unfold weigh, put_prefill. proj. rewrite (zsum_insert _ _ _ _ n' Hn). lia. Qed.

Lemma weigh_put_decode a s j n n' : decode s !! j = Some n ->
  weigh a (put_decode s j n') = weigh a s - weigh_decode a n + weigh_decode a n'.
Proof. intros Hn. unfold weigh, put_decode. proj. rewrite (zsum_insert _ _ _ _ n' Hn). lia. Qed.

Lemma weigh_pump_at a s p : weigh a (set_prefill_pump s p) = weigh a s - weigh_pump a (prefill_pump s) + weigh_pump a p.
Proof. unfold weigh. proj. lia. Qed.

Lemma weigh_dpump_at a s p : weigh a (set_decode_pump s p) = weigh a s - weigh_dpump a (decode_pump s) + weigh_dpump a p.
Proof. unfold weigh. proj. lia. Qed.

Lemma weigh_events_at a s l : weigh a (set_events s l) = weigh a s - zsum (weigh_in a) (events s) + zsum (weigh_in a) l.
Proof. unfold weigh. proj. lia. Qed.

Lemma weigh_prefilled_at a s l : weigh a (set_prefilled s l) = weigh a s -
  zsum (fun c => stage a (PrefillW.pc_id c) Prefilled) (prefilled s) + zsum (fun c => stage a (PrefillW.pc_id c) Prefilled) l.
Proof. unfold weigh. proj. lia. Qed.

Lemma weigh_chunk_to a s id cl c : clients s !! id = Some cl ->
  weigh a (chunk_to s id cl c) = weigh a s - held a id cl + held a id (given cl c).
Proof. intros Hcl. unfold weigh, chunk_to, sent_to, given. proj. rewrite (msum_update _ _ _ _ _ Hcl). lia. Qed.

Lemma weigh_forgets a s id e m : inflight s !! id = Some e -> m = delete id (inflight s) ->
  weigh a (set_inflight s m) = weigh a s - stage a id Entry.
Proof. intros He ->. unfold weigh. proj. rewrite (msum_delete _ (inflight s) _ _ He). lia. Qed.

(** The account of any step. *)
Lemma moves_pay a c s s' : pays a c -> 0 <= c -> serving z s -> moves z s s' -> weigh a s' + c <= weigh a s.
Proof.
  intros Hp Hc Hs Hm. destruct Hm as [i pw job n Hi Hn|i n b done_at w' out Hn Hout Hr|i n x out Hn Hout
    |x e rest Hpump Hpre He|x e cl chunk Hpump Hcl Ht|id cl Hpump Hcl|j d n Hpump Hn|id Hpump [e He]|j n js w' rest ev Hn Hout Hit Hl
    |j n ev out Hn Hout|id token rest Hd Hev Hin|id k rest Hd Hev [e He]|id token cl chunk Hd Hcl Ht|id cl Hd Hcl|id sent n Hcl].
  - rewrite (weigh_put_prefill a _ pw n) by done. rewrite weigh_with_jobs.
    unfold weigh. proj. rewrite (zsum_remove _ _ _ _ Hi). cbn [snd]. pose proof (pay_start _ _ Hp (PrefillW.job_id job)). lia.
  - rewrite (weigh_put_prefill a s i n _ Hn). pose proof (round_pays a c s i n b done_at w' out Hp Hc Hs Hn Hout Hr). lia.
  - rewrite weigh_prefilled_at, (weigh_put_prefill a s i n _ Hn), zsum_app. unfold put_prefill. proj.
    unfold weigh_prefill. cbn [pn_worker pn_jobs pn_out]. rewrite Hout, !zsum_cons. change (zsum _ []) with 0.
    pose proof (pay_told _ _ Hp (PrefillW.pc_id x)). lia.
  - rewrite weigh_pump_at, weigh_prefilled_at. proj. rewrite Hpump, Hpre, zsum_cons. cbn [weigh_pump].
    pose proof (pay_prefilled _ _ Hp (PrefillW.pc_id x)). lia.
  - rewrite weigh_pump_at, (weigh_chunk_to a s _ _ _ Hcl). unfold chunk_to. proj. rewrite Hpump. unfold after_token.
    destruct (Z.leb_spec (asked z (PrefillW.pc_id x)) 1); cbn [weigh_pump admit_of DecodeW.ad_id].
    + pose proof (pay_only _ _ Hp (PrefillW.pc_id x) cl chunk ltac:(lia) Ht). lia.
    + pose proof (pay_first _ _ Hp (PrefillW.pc_id x) cl chunk ltac:(lia) Ht). lia.
  - rewrite weigh_pump_at, (weigh_chunk_to a s _ _ _ Hcl). unfold chunk_to. proj. rewrite Hpump. cbn [weigh_pump].
    pose proof (pay_last _ _ Hp id cl). lia.
  - rewrite weigh_pump_at, (weigh_put_decode a s j n _ Hn). unfold put_decode. proj. rewrite Hpump. cbn [weigh_pump].
    unfold weigh_decode, weigh_waiting, weigh_running, with_admits. cbn [dn_worker dn_pending dn_jobs dn_out].
    rewrite app_assoc, (zsum_app _ _ [d]). cbn [zsum foldr].
    pose proof (pay_over _ _ Hp (DecodeW.ad_id d)). unfold zsum. lia.
  - rewrite weigh_pump_at, (weigh_forgets a s id e _ He) by done. proj. rewrite Hpump. cbn [weigh_pump]. pose proof (pay_forget _ _ Hp id). lia.
  - rewrite (weigh_put_decode a s j n _ Hn). pose proof (iteration_pays a c s j n js w' rest ev Hp Hc Hs Hn Hout Hit Hl). lia.
  - rewrite weigh_events_at, (weigh_put_decode a s j n _ Hn), zsum_app. unfold put_decode. proj.
    unfold weigh_decode. cbn [dn_worker dn_pending dn_jobs dn_out]. rewrite Hout, !zsum_cons. change (zsum _ []) with 0.
    unfold weigh_running. cbn [dn_worker].
    assert (weigh_in a ev + c <= weigh_out a ev); [|lia].
    destruct ev as [id t|id k]; cbn; [pose proof (pay_token_out _ _ Hp id)|pose proof (pay_end_out _ _ Hp id)]; lia.
  - rewrite weigh_dpump_at, weigh_events_at. proj. rewrite Hd, Hev, zsum_cons. cbn [weigh_dpump].
    change (weigh_in a (DecodeW.EvToken id token)) with (stage a id TokenIn). pose proof (pay_token_in _ _ Hp id). lia.
  - rewrite weigh_dpump_at, (weigh_forgets a (set_events s rest) id e _ He), weigh_events_at by done. proj. rewrite Hd, Hev, zsum_cons. cbn [weigh_dpump].
    change (weigh_in a (DecodeW.EvFinished id k)) with (stage a id EndIn). pose proof (pay_end_in _ _ Hp id). lia.
  - rewrite weigh_dpump_at, (weigh_chunk_to a s _ _ _ Hcl). unfold chunk_to. proj. rewrite Hd. cbn [weigh_dpump].
    pose proof (pay_token _ _ Hp id cl chunk Ht). lia.
  - rewrite weigh_dpump_at, (weigh_chunk_to a s _ _ _ Hcl). unfold chunk_to. proj. rewrite Hd. cbn [weigh_dpump].
    pose proof (pay_done _ _ Hp id cl). lia.
  - unfold weigh. proj. rewrite (msum_update _ _ _ _ _ Hcl). pose proof (pay_read _ _ Hp id sent n). lia.
Qed.

(** ** At rest *)

(** What a request weighs when it is accepted. *)
Definition opening a (id : Z) : Z := stage a id Starting + stage a id Entry + held a id (mkClient [] 0 true).

Definition opened a s : Z := msum (fun id _ => opening a id) (clients s).

Lemma weigh_accepted {J} a s (req : GenerateRequest J) pw dw deadline : serving z s -> clients s !! gen_id req = None ->
  weigh a (accepted s req pw dw deadline) = weigh a s + opening a (gen_id req).
Proof.
  intros Hs Hnew. assert (inflight s !! gen_id req = None) as Hi.
  { destruct (inflight s !! gen_id req) as [e|] eqn:He; [|done]. exfalso.
    assert (prefill_pump s <> PRemove (gen_id req)) as Hp.
    { intros Hp. pose proof (po_once _ (j_places _ (se_joined _ (sv_settled _ _ Hs))) (gen_id req)) as Ho.
      rewrite (has_None _ _ Hnew) in Ho. pose proof (early_parts (gen_id req) s) as Hpos. unfold early in Ho.
      rewrite Hp in *. cbn [at_pump] in *. rewrite is_id_same in *. lia. }
    destruct (st_open _ (j_streams _ (se_joined _ (sv_settled _ _ Hs))) (gen_id req)) as (cl & Hcl & _); [left; by split|congruence]. }
  unfold weigh, accepted, opening. proj. rewrite zsum_app, (msum_insert _ _ _ _ Hi), (msum_insert _ _ _ _ Hnew).
  cbn [zsum foldr snd PrefillW.job_id]. unfold zsum. lia.
Qed.

Lemma moves_opened a s s' : moves z s s' -> opened a s' = opened a s.
Proof.
  intros Hm. unfold opened. destruct Hm; try done; unfold chunk_to, sent_to; proj;
    match goal with H : clients s !! _ = Some _ |- _ => rewrite (msum_update _ _ _ _ _ H); lia end.
Qed.

(** When nothing is unfinished, all that weighs is with the clients, or in the
    map. *)
Lemma zsum_is_id {A} (f : A -> Z) (l : list A) : (forall id, zsum (fun x => is_id id (f x)) l <= 0) -> l = [].
Proof.
  destruct l as [|x l]; [done|]. intros H. exfalso. specialize (H (f x)). rewrite zsum_cons, is_id_same in H.
  pose proof (zsum_nonneg (fun y => is_id (f x) (f y)) l ltac:(intros; apply is_id_nonneg)). lia.
Qed.

Lemma has_none {A} (m : gmap Z A) : (forall id, has m id <= 0) -> m = ∅.
Proof.
  intros H. apply map_empty. intros id. specialize (H id). destruct (m !! id) as [x|] eqn:E0; [|done].
  rewrite (has_Some _ _ _ E0) in H. lia.
Qed.

Lemma rest_prefill a n : (forall id, at_prefill id n <= 0) -> weigh_prefill a n = 0.
Proof.
  intros H. unfold weigh_prefill.
  assert (forall id, zsum (fun j => is_id id (PrefillW.job_id j)) (pn_jobs n) <= 0 /\
    has (Sched.queue (PrefillW.w_sched (pn_worker n))) id <= 0 /\ zsum (fun c => is_id id (PrefillW.pc_id c)) (pn_out n) <= 0) as Hp.
  { intros id. specialize (H id). unfold at_prefill in H.
    pose proof (zsum_nonneg (fun j => is_id id (PrefillW.job_id j)) (pn_jobs n) ltac:(intros; apply is_id_nonneg)).
    pose proof (zsum_nonneg (fun c => is_id id (PrefillW.pc_id c)) (pn_out n) ltac:(intros; apply is_id_nonneg)).
    pose proof (has_nonneg (Sched.queue (PrefillW.w_sched (pn_worker n))) id). lia. }
  rewrite (zsum_is_id _ (pn_jobs n) (fun id => proj1 (Hp id))), (has_none _ (fun id => proj1 (proj2 (Hp id)))),
    (zsum_is_id _ (pn_out n) (fun id => proj2 (proj2 (Hp id)))). by rewrite msum_empty.
Qed.

Lemma rest_decode a n : dnode_serves z n -> (forall id, waiting id n + runs id n <= 0) -> dn_out n = [] -> weigh_decode a n = 0.
Proof.
  intros [D1 _ _ _] H Hout. unfold weigh_decode. rewrite Hout.
  assert (forall id, zsum (fun d => is_id id (DecodeW.ad_id d)) (dn_pending n ++ dn_jobs n) <= 0 /\
    has (owes (DecodeW.d_engine (dn_worker n))) id <= 0) as Hp.
  { intros id. specialize (H id). rewrite waiting_ids in H. rewrite <- zsum_map.
    pose proof (ids_nonneg id (map DecodeW.ad_id (dn_pending n ++ dn_jobs n))). pose proof (runs_nonneg id n).
    unfold runs in *. rewrite (has_eq (owes _) (Decoder.running (DecodeW.d_sched (dn_worker n))) id) by apply (Decoding.sv_owes _ D1). lia. }
  unfold weigh_waiting, weigh_running. rewrite (zsum_is_id _ _ (fun id => proj1 (Hp id))), (has_none _ (fun id => proj2 (Hp id))).
  by rewrite msum_empty.
Qed.

Lemma rest_weighs a s : serving z s -> ~ unfinished s ->
  weigh a s = msum (fun id _ => stage a id Entry) (inflight s) + msum (held a) (clients s).
Proof.
  intros Hs Hn.
  assert (forall id, early id s + decoding id s <= 0) as He.
  { intros id. destruct (Z.leb_spec (early id s + decoding id s) 0); [done|]. exfalso. apply Hn. left. by exists id. }
  assert (events s = []) as Hev by (destruct (events s) eqn:E0; [done|]; exfalso; apply Hn; right; left; by rewrite E0).
  assert (decode_pump s = DRecv) as Hd.
  { destruct (decode_pump s) eqn:E0; [done|..]; exfalso; apply Hn; right; right; left; by rewrite E0. }
  assert (Forall (fun n => dn_out n = []) (decode s)) as Hout.
  { apply Forall_forall. intros n Hin. destruct (dn_out n) eqn:E0; [done|]. exfalso. apply Hn. right; right; right.
    apply Exists_exists. exists n. by rewrite E0. }
  pose proof (fun id => early_parts id s) as Hpos. unfold early in *.
  assert (prefill_pump s = PRecv) as Hp.
  { pose proof (sv_pump _ _ Hs) as Hps. unfold pump_serves in Hps.
    destruct (prefill_pump s) as [|c e|id|w d|id|id] eqn:E0; try done; exfalso; cbn [at_pump] in *;
      [pose proof (He (PrefillW.pc_id c))|pose proof (He id)|pose proof (He (DecodeW.ad_id d))|pose proof (He id)];
      rewrite is_id_same in *; [pose proof (Hpos (PrefillW.pc_id c))|pose proof (Hpos id)|pose proof (Hpos (DecodeW.ad_id d))|pose proof (Hpos id)]; lia. }
  unfold weigh. rewrite Hev, Hd, Hp. cbn [weigh_pump weigh_dpump].
  rewrite (zsum_is_id (fun q => PrefillW.job_id q.2) (starting s)) by (intros id; specialize (He id); specialize (Hpos id); lia).
  rewrite (zsum_is_id PrefillW.pc_id (prefilled s)) by (intros id; specialize (He id); specialize (Hpos id); lia).
  rewrite (zsum_zero (weigh_prefill a)), (zsum_zero (weigh_decode a)); [cbn; lia|..].
  - intros n Hin. pose proof (sv_decode _ _ Hs) as Hds. rewrite Forall_forall in Hds, Hout. apply rest_decode; [by apply Hds| |by apply Hout].
    intros id. specialize (He id); specialize (Hpos id).
    pose proof (zsum_elem (waiting id) (decode s) n ltac:(intros; apply waiting_nonneg) Hin).
    pose proof (zsum_elem (runs id) (decode s) n ltac:(intros; apply runs_nonneg) Hin). unfold decoding in *. lia.
  - intros n Hin. apply rest_prefill. intros id. specialize (He id); specialize (Hpos id).
    pose proof (zsum_elem (at_prefill id) (prefill s) n ltac:(intros; apply at_prefill_nonneg) Hin). lia.
Qed.

(** ** The accounts *)

(** Steps still to be taken for a request, chunks its client has to read
    included. *)
Definition decode_cost (id : Z) : Z := 5 * Decoding.budget (asked z id) + 4.

Definition steps_left (id : Z) (st : Stage) : Z :=
  let d := decode_cost id in
  match st with
  | Starting => d + 6 + Z.max 0 (prompt z id)
  | Job => d + 5 + Z.max 0 (prompt z id)
  | Queued n => d + 5 + Z.max 0 n
  | Told => d + 5 | Prefilled => d + 4 | First => d + 3
  | Last => 3 | Forget => 1
  | HandOver => d + 1 | Wait => d
  | Running n => 5 * Z.max 0 n + 4
  | TokenOut | EndOut => 4 | TokenIn | EndIn => 3 | TokenHeld | EndHeld => 2
  | Entry => 0
  end.

Definition costs : Account := mkAccount steps_left (fun _ cl => Z.of_nat (c_unread cl)).

(** What is to come to the client of [id0], counted [k] times: tokens of its
    answer, ends of its stream, and entries of the map. *)
Definition of_one (k id0 : Z) (f : Stage -> Z) (g : Client -> Z) : Account :=
  mkAccount (fun id st => if decide (id = id0) then k * f st else 0) (fun id cl => if decide (id = id0) then k * g cl else 0).

Definition answer (id : Z) : Z := Z.max 1 (asked z id).

Definition tokens_to_come (id : Z) (st : Stage) : Z :=
  match st with
  | Starting | Job | Queued _ | Told | Prefilled | First => answer id
  | HandOver | Wait => Decoding.budget (asked z id)
  | Running n => n
  | TokenOut | TokenIn | TokenHeld => 1
  | Last | Forget | EndOut | EndIn | EndHeld | Entry => 0
  end.

Definition ends_to_come (st : Stage) : Z :=
  match st with Forget | TokenOut | TokenIn | TokenHeld | Entry => 0 | _ => 1 end.

Definition entries_less (st : Stage) : Z :=
  match st with Entry => 1 | TokenOut | TokenIn | TokenHeld | EndHeld => 0 | _ => -1 end.

Definition is_end (c : StreamChunk) : bool := match c with CDone r => bool_decide (r = "length"%string) | _ => false end.
Definition count (f : StreamChunk -> bool) (cl : Client) : Z := zsum (fun c => Z.b2z (f c)) (c_sent cl).

Definition token_account (k id : Z) : Account := of_one k id (tokens_to_come id) (count is_token).
Definition end_account (k id : Z) : Account := of_one k id ends_to_come (count is_end).
Definition entry_account (k id : Z) : Account := of_one k id entries_less (fun _ => 0).

Lemma budget_pos m : 1 <= Decoding.budget m.
Proof. unfold Decoding.budget. lia. Qed.

Lemma costs_pay : pays costs 1.
Proof.
  split; intros; cbn; unfold steps_left, decode_cost; pose proof (budget_pos (asked z id)); lia.
Qed.

Lemma count_given f cl c : count f (given cl c) = count f cl + Z.b2z (f c).
Proof. unfold count, given. cbn [c_sent]. rewrite zsum_app. cbn. lia. Qed.

Lemma given_token cl c : is_token c = true -> count is_token (given cl c) = count is_token cl + 1 /\ count is_end (given cl c) = count is_end cl.
Proof. intros Ht. rewrite !count_given, Ht. destruct c; [cbn; lia|done..]. Qed.

Lemma given_end cl : count is_token (given cl (CDone "length")) = count is_token cl /\
  count is_end (given cl (CDone "length")) = count is_end cl + 1.
Proof. rewrite !count_given. change (is_end (CDone "length")) with true. cbn [is_token Z.b2z]. lia. Qed.

Definition unit_sign (k : Z) : Prop := k = 1 \/ k = -1.

(** Nothing on the way is lost or made up. *)
Ltac account := split; intros; unfold token_account, end_account, entry_account, of_one; cbn [stage held];
  (destruct (decide _) as [->|]; [|lia]);
  repeat match goal with H : is_token ?c = true |- context [given ?cl ?c] => pose proof (given_token cl c H); clear H end;
  try match goal with |- context [given ?cl (CDone _)] => pose proof (given_end cl) end;
  cbn [tokens_to_come ends_to_come entries_less]; unfold answer, Decoding.budget; first [lia|unfold count; cbn [c_sent]; lia].

Lemma token_pays k id : unit_sign k -> pays (token_account k id) 0.
Proof. intros [-> | ->]; account. Qed.

Lemma end_pays k id : unit_sign k -> pays (end_account k id) 0.
Proof. intros [-> | ->]; account. Qed.

Lemma entry_pays k id : unit_sign k -> pays (entry_account k id) 0.
Proof. intros [-> | ->]; account. Qed.

(** ** Runs

    Requests of the sizes they are said to have arrive while there is room for
    their prompts where they go; the tasks take [n] steps in some order, and
    clients read. *)
Inductive run (J : Type) (d : Deployment E K) : nat -> Deployment E K -> Prop :=
  | run_start : run J d 0 d
  | run_ask n s (req : GenerateRequest J) now s' r : run J d n s -> asks_for z s req ->
      start_request s req now = Moved (s', r) -> roomy z s' -> Z.of_nat (size (clients s')) <= 2 ^ 53 -> run J d n s'
  | run_report n s now : run J d n s -> run J d n (sync_loads s now)
  | run_step n s (x : Action J) s' : run J d n s -> works x -> act_ok s x -> act s x = Moved s' -> run J d (S n) s'.

(** Nothing has been asked yet. *)
Definition fresh (d : Deployment E K) : Prop := serving z d /\ ~ unfinished d /\ clients d = ∅ /\ inflight d = ∅.

Lemma run_accounted J d n s : fresh d -> run J d n s ->
  serving z s /\ forall a c, pays a c -> 0 <= c -> weigh a s + c * Z.of_nat n <= opened a s.
Proof.
  intros (Hd & Hn & Hc & Hi). induction 1 as [|n s req now s' r _ [Hs IH] Hq Hst Hroom Hsize|n s now _ [Hs IH]|n s x s' _ [Hs IH] Hw Hok Hact].
  - split; [done|]. intros a c _ _. rewrite (rest_weighs a d Hd Hn). unfold opened. rewrite Hc, Hi, !msum_empty. lia.
  - split; [by eapply start_serving|]. intros a c Hp Hnn. specialize (IH a c Hp Hnn).
    destruct (start_cases s req now s' r Hst) as [->|(pw & dw & deadline & ->)]; [done|].
    rewrite (weigh_accepted a s req pw dw deadline Hs (proj1 Hq)). unfold opened in *. unfold accepted. proj.
    rewrite (msum_insert _ _ _ _ (proj1 Hq)). lia.
  - split; [by apply sync_serving|]. intros a c Hp Hnn. exact (IH a c Hp Hnn).
  - destruct (act_serving z s x s' Hs Hw Hok Hact) as [Hm Hs']. split; [done|]. intros a c Hp Hnn. specialize (IH a c Hp Hnn).
    rewrite (moves_opened a s s' Hm). pose proof (moves_pay a c s s' Hp Hnn Hs Hm). lia.
Qed.

(** The steps a request takes. *)
Definition steps_for (id : Z) : Z := 5 * Decoding.budget (asked z id) + 10 + Z.max 0 (prompt z id).

Lemma costs_opened s : opened costs s = msum (fun id _ => steps_for id) (clients s).
Proof. unfold opened, msum. apply zsum_ext. intros [id cl].
  unfold opening, costs. cbn [stage held steps_left c_unread fst snd]. unfold steps_for, decode_cost. lia.
Qed.

Lemma costs_nonneg s : 0 <= weigh costs s.
Proof.
  assert (forall id st, 0 <= stage costs id st) as Hst.
  { intros id st. cbn. destruct st; cbn; unfold decode_cost; pose proof (budget_pos (asked z id)); lia. }
  assert (forall A (f : A -> Z) (g : A -> Stage) l, 0 <= zsum (fun x => stage costs (f x) (g x)) l) as Hl.
  { intros A f g l. apply zsum_nonneg. intros; apply Hst. }
  unfold weigh. repeat apply Z.add_nonneg_nonneg; try apply zsum_nonneg; intros; try apply Hst.
  - unfold weigh_prefill. repeat apply Z.add_nonneg_nonneg; [apply Hl|apply msum_nonneg; intros; apply Hst|apply Hl].
  - destruct (prefill_pump s); cbn [weigh_pump]; first [done|apply Hst].
  - unfold weigh_decode. repeat apply Z.add_nonneg_nonneg; [apply Hl|apply msum_nonneg; intros; apply Hst|].
    apply zsum_nonneg. intros [] _; cbn [weigh_out Decoding.event_weight]; apply Hst.
  - destruct a; cbn [weigh_in Decoding.event_weight]; apply Hst.
  - destruct (decode_pump s); cbn [weigh_dpump]; first [done|apply Hst].
  - cbn. lia.
Qed.

(** ** Whole answers *)

(** A whole answer, read to its end, and nothing of the request left. *)
Definition answered s (id : Z) (cl : Client) : Prop :=
  (exists toks, c_sent cl = toks ++ [CDone "length"] /\ Forall (fun c => is_token c = true) toks /\
     Z.of_nat (length toks) = answer id) /\
  c_unread cl = 0%nat /\ inflight s !! id = None.

Lemma msum_one {A} (f : Z -> A -> Z) (m : gmap Z A) (id : Z) : (forall i x, i <> id -> f i x = 0) ->
  msum f m = match m !! id with Some x => f id x | None => 0 end.
Proof.
  intros H. destruct (m !! id) as [x|] eqn:E0.
  - rewrite (msum_delete f m id x E0). unfold msum. rewrite zsum_zero; [lia|].
    intros [i y] Hin%elem_of_map_to_list. apply lookup_delete_Some in Hin as [Hne _]. cbn. by apply H.
  - unfold msum. apply zsum_zero. intros [i y] Hin%elem_of_map_to_list. cbn. apply H. intros ->. congruence.
Qed.

Lemma one_opened k id f g s cl : clients s !! id = Some cl -> opened (of_one k id f g) s =
  k * (f Starting + f Entry + g (mkClient [] 0 true)).
Proof.
  intros Hcl. unfold opened. rewrite (msum_one _ _ id), Hcl; unfold opening, of_one; cbn [stage held].
  - rewrite !decide_True by done. lia.
  - intros i x Hne. rewrite !decide_False by done. done.
Qed.

Lemma one_rest k id f g s cl : serving z s -> ~ unfinished s -> clients s !! id = Some cl ->
  weigh (of_one k id f g) s = k * (match inflight s !! id with Some _ => f Entry | None => 0 end + g cl).
Proof.
  intros Hs Hn Hcl. rewrite (rest_weighs _ s Hs Hn), !(msum_one _ _ id), Hcl; unfold of_one; cbn [stage held].
  - rewrite !decide_True by done. destruct (inflight s !! id); lia.
  - intros i x Hne. by rewrite !decide_False.
  - intros i x Hne. by rewrite !decide_False.
Qed.

(** What is counted both ways is exact. *)
Lemma one_exact J d n s id f g cl : fresh d -> run J d n s -> ~ unfinished s -> clients s !! id = Some cl ->
  (forall k, unit_sign k -> pays (of_one k id f g) 0) ->
  match inflight s !! id with Some _ => f Entry | None => 0 end + g cl = f Starting + f Entry + g (mkClient [] 0 true).
Proof.
  intros Hd Hr Hn Hcl Hp. destruct (run_accounted J d n s Hd Hr) as [Hs Hall].
  assert (forall k, unit_sign k -> k * (match inflight s !! id with Some _ => f Entry | None => 0 end + g cl) <=
    k * (f Starting + f Entry + g (mkClient [] 0 true))) as Hk.
  { intros k Hu. specialize (Hall _ 0 (Hp k Hu) ltac:(done)).
    rewrite (one_rest k id f g s cl Hs Hn Hcl), (one_opened k id f g s cl Hcl) in Hall. lia. }
  pose proof (Hk 1 ltac:(by left)). pose proof (Hk (-1) ltac:(by right)). lia.
Qed.

(** Tokens, then at most one closing chunk: with one end, and [n] tokens, that is
    [n] tokens and the end. *)
Lemma shaped_answer cl n : stream_shape (c_sent cl) -> count is_token cl = n -> count is_end cl = 1 ->
  exists toks, c_sent cl = toks ++ [CDone "length"] /\ Forall (fun c => is_token c = true) toks /\ Z.of_nat (length toks) = n.
Proof.
  intros (toks & close & Hsent & Htok & Hclose) Hn He. unfold count in *. rewrite Hsent, zsum_app in *.
  assert (zsum (fun c => Z.b2z (is_token c)) toks = Z.of_nat (length toks) /\ zsum (fun c => Z.b2z (is_end c)) toks = 0) as [T1 T2].
  { clear -Htok. induction Htok as [|c toks Hc _ [IH1 IH2]]; [done|]. rewrite !zsum_cons, IH1, IH2. cbn [length].
    destruct c; [|done..]. cbn [is_token is_end Z.b2z]. lia. }
  rewrite T1, T2 in *. destruct Hclose as [->|(c & -> & Hc)]; [cbn in He; lia|]. exists toks.
  cbn [zsum foldr] in *. rewrite Hc in Hn. cbn [Z.b2z] in Hn. split; [|split; [done|lia]].
  destruct c as [|r|]; cbn [is_end] in He; [done| |cbn in He; lia].
  destruct (bool_decide_reflect (r = "length"%string)) as [->|]; [done|cbn in He; lia].
Qed.

Lemma unread_can J s id sent n : serving z s -> clients s !! id = Some (mkClient sent (S n) true) -> can_run J s.
Proof.
  intros Hs Hcl. apply (can_intro J s (Read id) (sv_settled _ _ Hs)); [done|done|]. cbn [act]. unfold read_chunk. by rewrite Hcl.
Qed.

(** Tasks take so many steps, and when none is left every answer is whole. *)
Lemma run_answers J d n s : fresh d -> run J d n s ->
  Z.of_nat n <= msum (fun id _ => steps_for id) (clients s) /\
  (~ can_run J s -> forall id cl, clients s !! id = Some cl -> answered s id cl).
Proof.
  intros Hd Hr. destruct (run_accounted J d n s Hd Hr) as [Hs Hall]. split.
  - specialize (Hall costs 1 costs_pay ltac:(lia)). rewrite costs_opened in Hall. pose proof (costs_nonneg s). lia.
  - intros Hno id cl Hcl. assert (~ unfinished s) as Hn.
    { intros Hu. apply Hno. apply unfinished_can; [apply Hs|done]. }
    pose proof (one_exact J d n s id _ _ cl Hd Hr Hn Hcl (fun k => token_pays k id)) as Htok.
    pose proof (one_exact J d n s id _ _ cl Hd Hr Hn Hcl (fun k => end_pays k id)) as Hend.
    pose proof (one_exact J d n s id _ _ cl Hd Hr Hn Hcl (fun k => entry_pays k id)) as Hent.
    cbn [tokens_to_come ends_to_come entries_less] in *. unfold count at 2 in Htok. unfold count at 2 in Hend. cbn [c_sent zsum foldr] in *.
    split; [|split].
    + apply shaped_answer; [apply (st_shape _ (j_streams _ (se_joined _ (sv_settled _ _ Hs))) id cl Hcl)|destruct (inflight s !! id); lia|
        destruct (inflight s !! id); lia].
    + destruct (c_unread cl) as [|k] eqn:Hk; [done|]. exfalso. apply Hno.
      destruct cl as [sent u l]. cbn in Hk. subst u. pose proof (sv_clients _ _ Hs id _ Hcl) as Hl. cbn in Hl. subst l.
      by eapply unread_can.
    + destruct (inflight s !! id); [lia|done].
Qed.
End accounts.

(** ** From the start *)

Section start.
Context {E K : Type} {IE : Engine E} {IL : EngineLaws E} {IT : EngineTracks E} {IS : EngineServes E} {IK : Tokens.Tokenizer K}.
Context (c : Config.Deployment.Config) (pe de : list E) (tok : K).
Implicit Types s : Deployment E K.

Definition blank_pool : BlockPool :=
  pool_new (Z.to_nat (Config.Deployment.num_blocks (Config.Deployment.kv c))) (Config.Deployment.block_size (Config.Deployment.kv c))
    (Config.Deployment.admission_watermark (Config.Deployment.kv c)).

(** What requests ask for, and what this configuration has for them. *)
Definition sizes (asked prompt : Z -> Z) : Sizes :=
  mkSizes asked prompt (Config.Deployment.block_size (Config.Deployment.kv c)) (Z.of_nat (total blank_pool) - reserve blank_pool).

(** Engines that serve, and a configuration that leaves no request out: the
    validation accepts a chunk budget or a batch size of 0, with which no batch
    is ever made ([Sched.plan_work_conserving]), and [demote_hopeless] off, with
    which a prompt past its deadline waits for ever. *)
Record provided : Prop := {
  pr_prefill : Forall serves pe;
  pr_decode : Forall (fun e => serves e /\ owes e = ∅) de;
  pr_chunk : 0 < Config.Deployment.chunked_prefill_tokens (Config.Deployment.scheduler c);
  pr_seqs : 0 < Config.Deployment.max_prefill_seqs (Config.Deployment.scheduler c);
  pr_demote : Config.Deployment.demote_hopeless (Config.Deployment.scheduler c) = true;
  pr_cap : valid (initial_cap c) /\ is_nan (initial_cap c) = false;
  pr_limit : 0 <= Config.Deployment.max_decode_seqs (Config.Deployment.scheduler c) <= 2 ^ 53;
  pr_room : 0 <= Z.of_nat (total blank_pool) - reserve blank_pool
}.

Lemma spawn_prefill_serves z i (e : E) : provided -> serves e -> page z = page (sizes (asked z) (prompt z)) ->
  room z = room (sizes (asked z) (prompt z)) -> pnode_serves z (spawn_prefill c i e).
Proof.
  intros [P1 P2 P3 P4 P5 P6 P7 P8] He Hpage Hroom.
  split; cbn [spawn_prefill pn_worker pn_jobs pn_out]; [|done|done|constructor|by intros id p; cbn; rewrite lookup_empty|constructor].
  split; cbn [PrefillW.worker_new PrefillW.w_engine PrefillW.w_sched PrefillW.w_kv PrefillW.w_block_size].
  - apply PrefillW.worker_new_inv. cbn. lia.
  - done.
  - intros id p. cbn. by rewrite lookup_empty.
  - split; cbn; [done|lia|done].
  - intros id p. cbn. by rewrite lookup_empty.
Qed.

Lemma spawn_decode_serves z j (e : E) : provided -> serves e -> owes e = ∅ ->
  fle (of_Z 8) (of_Z (Config.Deployment.max_decode_seqs (Config.Deployment.scheduler c))) = true ->
  page z = page (sizes (asked z) (prompt z)) -> room z = room (sizes (asked z) (prompt z)) -> dnode_serves z (spawn_decode c j e).
Proof.
  intros [P1 P2 P3 P4 P5 [P6 P6'] P7 P8] He Ho Hle Hpage Hroom.
  split; cbn [spawn_decode dn_worker dn_pending dn_jobs]; [|done|done|constructor].
  split; cbn [DecodeW.dworker_new DecodeW.d_engine DecodeW.d_sched].
  - destruct (EngineConf.enabled _); (apply DecodeW.dworker_new_inv; [by apply serves_ok|done|done]).
  - done.
  - intros id. rewrite Ho. destruct (EngineConf.enabled _); cbn; rewrite !lookup_empty; done.
  - assert (Decoding.open_cap (ctl_new (fmul (slo_itl_ms (Config.Deployment.slo c))
      (Config.Deployment.itl_safety (Config.Deployment.scheduler c))) (initial_cap c) (of_Z 8)
      (of_Z (Config.Deployment.max_decode_seqs (Config.Deployment.scheduler c))))) as Ho'.
    { split; [|done]. apply ctl_new_inv; [by apply regular_of_Z|by apply regular_of_Z|done..]. }
    by destruct (EngineConf.enabled _).
Qed.

Lemma spawn_fresh d asked prompt : Runs.spawned c pe de tok d -> provided -> fresh (sizes asked prompt) d.
Proof.
  intros Hsp Hpr. pose proof Hsp as (Hok & Hfit & Hch). pose proof (Runs.spawn_joined c pe de tok d Hok Hfit Hch) as Hj.
  pose proof (Runs.spawned_size c pe de tok d Hok) as Hsize. revert Hok. unfold spawn.
  destruct (Config.Deployment.validate_config c); [|done]. destruct pe as [|e0 pe'] eqn:Epe; [done|]. destruct de as [|e1 de'] eqn:Ede; [done|].
  rewrite <- Epe, <- Ede in *. unfold ctl_make. destruct (fle _ _) eqn:Hle; [|done]. cbn [mbind option_bind]. intros [= <-].
  assert (forall A B (f : nat -> A -> B) (P : B -> Prop) (l : list A), (forall i a, a ∈ l -> P (f i a)) -> Forall P (imap f l)) as Himap.
  { intros A B f P l H. apply Runs.Forall_imap. intros i x Ha. apply H. by eapply list_elem_of_lookup_2. }
  pose proof (pr_prefill Hpr) as Hp. pose proof (pr_decode Hpr) as Hd. rewrite Forall_forall in Hp, Hd.
  split; [|split; [|done]].
  - split; proj; try done.
    + split; [done|done|]. split; proj; apply Himap; done.
    + apply Himap. intros i e He. apply spawn_prefill_serves; [done|by apply Hp|done|done].
    + apply Himap. intros j e He. destruct (Hd e He). by apply spawn_decode_serves.
    + intros i n. proj. intros Hn. apply list_lookup_imap_Some in Hn as (e & He & ->). cbn. apply Hpr.
    + split; proj; try done.
      * intros j n id Hn. apply list_lookup_imap_Some in Hn as (e & He & ->). intros [Hat|Hat%Exists_nil]; [|done]. exfalso.
        change (waiting id (spawn_decode c j e)) with 0 in Hat. unfold runs in Hat. cbn [spawn_decode dn_worker] in Hat.
        rewrite has_None in Hat; [lia|]. destruct (EngineConf.enabled _); apply lookup_empty.
      * intros id Hi%Exists_nil. done.
      * intros j n Hn. apply list_lookup_imap_Some in Hn as (e & He & ->). done.
      * intros j n id Hn. apply list_lookup_imap_Some in Hn as (e & He & ->). intros Hi%Exists_nil. done.
  - intros [[id Hid]|[H|[H|H]]]; try done.
    + pose proof (po_once _ (j_places _ Hj) id) as H1. rewrite (has_None (clients _)) in H1 by apply lookup_empty. lia.
    + apply Exists_exists in H as (n & Hin & Hout). proj. apply list_elem_of_lookup in Hin as [j Hn].
      apply list_lookup_imap_Some in Hn as (e & He & ->). done.
Qed.
End start.

Section theorems.
Context {E K : Type} {IE : Engine E} {IL : EngineLaws E} {IT : EngineTracks E} {IS : EngineServes E} {IK : Tokens.Tokenizer K}.
Context (c : Config.Deployment.Config) (pe de : list E) (tok : K) (d : Deployment E K) (J : Type).

(** C9. Every request is answered in full. Take a deployment that [spawn] made
    over engines that serve (they refuse nothing, do not panic and give each
    sequence the tokens it asked for), whose decode engines start with nothing
    to do, in a configuration ([provided]) with a positive chunk budget and a
    positive number of prompts in a batch, with [demote_hopeless] on, with a
    first cap that is a number and not NaN, with [max_decode_seqs] at most 2^53
    and with pages beyond the reserve; and at most 2^53 requests, each with a
    number of its own, a prompt that is not empty and [max_tokens] within [u32],
    that fit its workers' pages, arriving while there is room for their prompts,
    whose clients stay and whose tasks are not aborted ([run]). Then, in whatever order the tasks run and the
    clients read, the steps taken are at most what the requests have between
    them (prompt tokens, and five for each token of the answer), so the tasks
    come to rest; and at rest every client has read exactly its tokens, one
    where fewer were asked, and then the end of its stream, and nothing of its
    request is left in the deployment. *)
Theorem every_request_is_answered (asked prompt : Z -> Z) (n : nat) (s : Deployment E K) :
  Runs.spawned c pe de tok d -> provided c pe de -> run (sizes c asked prompt) J d n s ->
  Z.of_nat n <= msum (fun id _ => steps_for (sizes c asked prompt) id) (clients s) /\
  (~ can_run J s -> forall id cl, clients s !! id = Some cl -> answered (sizes c asked prompt) s id cl).
Proof.
  intros Hsp Hpr Hr. eapply run_answers; [|exact Hr]. by eapply spawn_fresh.
Qed.
End theorems.

(** ** A request answered in full *)

Section given.
Context {E K : Type} {IE : Engine E} {IK : Tokens.Tokenizer K}.
Implicit Types s : Deployment E K.

(** Nothing anywhere. *)
Definition still s : bool :=
  bool_decide (length (starting s) = 0%nat) && bool_decide (length (prefilled s) = 0%nat) && bool_decide (length (events s) = 0%nat) &&
  match prefill_pump s with PRecv => true | _ => false end && match decode_pump s with DRecv => true | _ => false end &&
  forallb (fun n => bool_decide (length (pn_jobs n) = 0%nat) && bool_decide (length (pn_out n) = 0%nat) &&
    bool_decide (Sched.queue_depth (PrefillW.w_sched (pn_worker n)) = 0%nat)) (prefill s) &&
  forallb (fun n => bool_decide (length (dn_pending n ++ dn_jobs n) = 0%nat) && bool_decide (length (dn_out n) = 0%nat) &&
    (Decoder.concurrency (DecodeW.d_sched (dn_worker n)) =? 0)) (decode s) &&
  forallb (fun x => bool_decide (c_unread x.2 = 0%nat)) (map_to_list (clients s)).

Lemma still_rests J s : still s = true -> ~ can_run J s.
Proof.
  unfold still. rewrite !andb_true_iff, !bool_decide_eq_true, !List.forallb_forall.
  intros (((((((H1 & H2) & H3) & H4) & H5) & H6) & H7) & H8) (x & s' & Hw & _ & Ha).
  apply nil_length_inv in H1, H2, H3. revert Ha. destruct x as [| i | |i now done_at|i| |j now now2|j| | |id| | |]; try done; cbn [act].
  - unfold queue_job. by rewrite H1.
  - unfold run_prefill. destruct (prefill s !! i) as [n|] eqn:Hn; [|done]. destruct (negb _); [done|].
    specialize (H6 n ltac:(apply list_elem_of_In; by eapply list_elem_of_lookup_2)). rewrite !andb_true_iff, !bool_decide_eq_true in H6.
    destruct H6 as ((J1 & J2) & J3). apply nil_length_inv in J1, J2. unfold prefill_turn. rewrite J2, J1. cbn [foldl].
    by rewrite decide_True.
  - unfold send_prefilled. destruct (prefill s !! i) as [[w jobs [|c out] r]|] eqn:Hn; [done| |done].
    specialize (H6 _ ltac:(apply list_elem_of_In; by eapply list_elem_of_lookup_2)). rewrite !andb_true_iff, !bool_decide_eq_true in H6.
    destruct H6 as ((_ & J2) & _). by apply nil_length_inv in J2.
  - unfold pump_prefill. destruct (prefill_pump s); [|done..]. by rewrite H2.
  - unfold run_decode. destruct (decode s !! j) as [n|] eqn:Hn; [|done]. destruct (negb _); [done|].
    specialize (H7 n ltac:(apply list_elem_of_In; by eapply list_elem_of_lookup_2)). rewrite !andb_true_iff, !bool_decide_eq_true in H7.
    destruct H7 as ((J1 & J2) & J3). apply nil_length_inv in J1, J2. unfold decode_turn. rewrite J2, J1, J3. cbn [andb].
    by rewrite bool_decide_true.
  - unfold send_event. destruct (decode s !! j) as [[w jobs pending [|e out] r]|] eqn:Hn; [done| |done].
    specialize (H7 _ ltac:(apply list_elem_of_In; by eapply list_elem_of_lookup_2)). rewrite !andb_true_iff, !bool_decide_eq_true in H7.
    destruct H7 as ((_ & J2) & _). by apply nil_length_inv in J2.
  - unfold pump_decode. destruct (decode_pump s); [|done..]. by rewrite H3.
  - unfold read_chunk. destruct (clients s !! id) as [[sent [|n] l]|] eqn:Hc; [done| |done]. exfalso.
    specialize (H8 (id, mkClient sent (S n) l) ltac:(apply list_elem_of_In; by apply elem_of_map_to_list)).
    by apply bool_decide_eq_true in H8.
Qed.

Definition roomyb z s : bool :=
  forallb (fun x => zsum (heading z x.1) (starting s) + pages_in z x.2 <=? room z) (imap pair (prefill s)).

Lemma roomyb_spec z s : roomyb z s = true -> roomy z s.
Proof.
  unfold roomyb. rewrite List.forallb_forall. intros H i n Hn. apply Z.leb_le.
  apply (H (i, n)), list_elem_of_In. apply (list_elem_of_lookup_2 _ i). by rewrite list_lookup_imap, Hn.
Qed.

Definition worksb {J} (x : Action J) : bool :=
  match x with
  | QueueJob _ | RunPrefill _ _ _ | SendPrefilled _ | PumpPrefill | RunDecode _ _ _ | SendEvent _ | PumpDecode | Read _ => true
  | _ => false
  end.

Lemma steps_run z J (d : Deployment E K) (l : list (Action J)) : forall n s s', run z J d n s -> run_actions s l = Some s' ->
  Runs.allowed s l = true -> forallb worksb l = true -> run z J d (n + length l) s'.
Proof.
  induction l as [|x l IH]; intros n s s' Hr; cbn [run_actions Runs.allowed forallb length].
  { intros [= <-]. by rewrite Nat.add_0_r. }
  destruct (act s x) as [s1| |] eqn:Ha; [|done..]. intros Hrun [Hok [_ Hl]%andb_prop]%andb_prop [Hw Hws]%andb_prop.
  rewrite Nat.add_succ_r, <- Nat.add_succ_l. apply (IH (S n) s1 s'); [|done..].
  eapply run_step; [exact Hr| |by apply Runs.act_okb_spec|exact Ha]. by destruct x.
Qed.
End given.

#[local] Existing Instances Mock.mock_engine Mock.mock_laws Mock.mock_tracks Mock.mock_serving Tokens.synthetic.

Lemma demo_provided : provided Config.Deployment.config_default Runs.one_prefill Runs.one_decode.
Proof.
  assert (forall i, Mock.mock_serves (Mock.mock_new i Mock.cost_sample Mock.Virtual)) as Hs.
  { intros i. split; [by apply Mock.mock_new_ok|]. intros j q. cbn. by rewrite lookup_empty. }
  split; [constructor; [apply Hs|constructor]|constructor; [split; [apply Hs|done]|constructor]|by vm_compute|by vm_compute|by vm_compute|..].
  - split; [by vm_compute|by vm_compute].
  - by vm_compute.
  - by vm_compute.
Qed.

Definition three : Sizes := sizes Config.Deployment.config_default (fun _ => 3) (fun _ => 3).

(** After the request, the steps to the last chunk read. *)
Definition to_rest : list (Action unit) := tail Runs.to_the_end ++ [Read 7; Read 7; Read 7; Read 7].

Definition to_rest_checks (s1 : Deployment Mock.MockEngine Tokens.SyntheticTokenizer) : bool :=
  roomyb three s1 && (Z.of_nat (size (clients s1)) <=? 2 ^ 53) && Runs.allowed s1 to_rest &&
  match run_actions s1 to_rest with
  | Some s => still s && bool_decide (length <$> (c_sent <$> clients s !! 7) = Some 4%nat)
  | None => false
  end.

(** Three tokens asked for, three and the end read, in twenty-one steps. *)
Lemma every_request_is_answered_witness : exists s cl, run three unit Runs.demo 21 s /\ clients s !! 7 = Some cl /\
  length (c_sent cl) = 4%nat /\ steps_for three 7 = 23 /\ answered three s 7 cl.
Proof.
  assert (match start_request Runs.demo (Runs.ask 7 3) f0 with Moved (s1, _) => to_rest_checks s1 | _ => false end = true) as Hc
    by (vm_compute; reflexivity).
  destruct (start_request Runs.demo (Runs.ask 7 3) f0) as [[s1 r]| |] eqn:Hst; [|discriminate..].
  unfold to_rest_checks in Hc. apply andb_prop in Hc as [[[H1 H2]%andb_prop H3]%andb_prop Hc].
  destruct (run_actions s1 to_rest) as [s|] eqn:Hrun; [|discriminate]. apply andb_prop in Hc as [H4 H5%bool_decide_eq_true].
  destruct (clients s !! 7) as [cl|] eqn:Hcl; [|discriminate H5]. injection H5 as H5.
  assert (run three unit Runs.demo 0 s1) as Hr1.
  { apply (run_ask three unit Runs.demo 0 Runs.demo (Runs.ask 7 3) f0 s1 r);
      [apply run_start| |exact Hst|by apply roomyb_spec|by apply Z.leb_le].
    split; [apply lookup_empty|]. split; [reflexivity|]. split; [reflexivity|]. split; vm_compute; done. }
  assert (run three unit Runs.demo 21 s) as Hr.
  { apply (steps_run three unit Runs.demo to_rest 0 s1 s Hr1 Hrun H3). reflexivity. }
  exists s, cl. split; [exact Hr|]. split; [exact Hcl|]. split; [exact H5|]. split; [reflexivity|].
  apply (every_request_is_answered Config.Deployment.config_default Runs.one_prefill Runs.one_decode Tokens.Synthetic Runs.demo unit
    (fun _ => 3) (fun _ => 3) 21 s Runs.demo_spawned demo_provided Hr); [|exact Hcl]. by apply still_rests.
Defined.
End Done.
