(* ===== verification/Sim.v ===== *)
(** * The discrete-event simulator ([crates/sim/src])

    The closed-loop clients, the prefill and decode workers and the KV handoff
    between them, driven by a heap of events ([events.rs], [sim.rs]), and the
    report it produces ([report.rs]).  The schedulers, the router, the
    controller and the cost curves are those of the other components. *)

From Stdlib Require Import ZArith Lia.
From stdpp Require Import base option list numbers pretty gmap strings.
From S2P Require Import Prelude F64 F64Int Core Policy Prefill Controller Decode Pool.
From S2P Require Import Radix Router Capacity Engine Config.

Module Simulation.
Import Deployment.
Local Open Scope Z_scope.

(** ** Events *)

Inductive Event :=
  | Arrival (client : nat)
  | PrefillDone (worker : nat)
  | KvArrived (id : RequestId) (worker : nat)
  | DecodeStep (worker : nat).

Record Scheduled := mkScheduled {
  at_ms : f64;
  ev_seq : Z;
  event : Event
}.

(** [Ord for Scheduled], reversed: the maximum is the earliest event. *)
Definition cmp_scheduled : Scheduled -> Scheduled -> comparison :=
  cmp_rev (cmp_then (cmp_on (fun e => total_key (at_ms e))) (cmp_on ev_seq)).

#[export] Instance cmp_scheduled_total : TotalCmp cmp_scheduled.
Proof. apply cmp_rev_total, cmp_then_total; apply cmp_on_total. Qed.

(** [BinaryHeap::pop]: a maximum and the other elements. *)
Fixpoint heap_pop (h : list Scheduled) : option (Scheduled * list Scheduled) :=
  match h with
  | [] => None
  | x :: h =>
      match heap_pop h with
      | None => Some (x, [])
      | Some (m, rest) =>
          match cmp_scheduled x m with
          | Lt => Some (m, x :: rest)
          | _ => Some (x, m :: rest)
          end
      end
  end.

(** ** State *)

Record PrefillWorkerSim := mkPrefillSim {
  ps_sched : Sched.PrefillScheduler;
  ps_curve : Mock.PrefillCurve;
  ps_busy : bool;
  ps_batch : option (Sched.PrefillBatch * f64);
  ps_busy_ms : f64
}.

Record DecodeWorkerSim := mkDecodeSim {
  ds_sched : Decoder.DecodeScheduler;
  ds_curve : Mock.DecodeCurve;
  ds_pending : list RequestId;
  ds_stepping : bool;
  ds_free : Z;
  ds_total : Z;
  ds_watermark : Z;
  ds_held : gmap Z Z
}.

Record ReqState := mkReq {
  rq_client : nat;
  rq_arrival_ms : f64;
  rq_prompt_len : Z;
  rq_osl : Z;
  rq_decode_worker : nat;
  rq_first_token_ms : option f64;
  rq_last_token_ms : f64
}.

(** The accumulators behind the diagnostics. *)
Record Counters := mkCounters {
  batches : Z;
  batch_seqs : Z;
  batch_tokens : Z;
  deadline_limited : Z;
  demoted_samples : list f64;
  concurrency_samples : list f64;
  peak_concurrency : Z;
  queue_depth_samples : list f64
}.

Record Simulator := mkSim {
  cfg : Config;
  now : f64;
  heap : list Scheduled;
  seq : Z;
  next_id : Z;
  reqs : gmap Z ReqState;
  prefill_ws : list PrefillWorkerSim;
  decode_ws : list DecodeWorkerSim;
  router : Routing.Router;
  xfer_busy : Z;
  xfer_queue : list (RequestId * nat);
  outcomes : list RequestOutcome;
  issued : Z;
  counters : Counters;
  calibrated_concurrency : f64;
  horizon_ms : f64
}.

Definition set_now (s : Simulator) (t : f64) : Simulator :=
  mkSim (cfg s) t (heap s) (seq s) (next_id s) (reqs s) (prefill_ws s) (decode_ws s) (router s)
    (xfer_busy s) (xfer_queue s) (outcomes s) (issued s) (counters s) (calibrated_concurrency s) (horizon_ms s).
Definition set_heap (s : Simulator) (h : list Scheduled) (n : Z) : Simulator :=
  mkSim (cfg s) (now s) h n (next_id s) (reqs s) (prefill_ws s) (decode_ws s) (router s)
    (xfer_busy s) (xfer_queue s) (outcomes s) (issued s) (counters s) (calibrated_concurrency s) (horizon_ms s).
Definition set_reqs (s : Simulator) (r : gmap Z ReqState) : Simulator :=
  mkSim (cfg s) (now s) (heap s) (seq s) (next_id s) r (prefill_ws s) (decode_ws s) (router s)
    (xfer_busy s) (xfer_queue s) (outcomes s) (issued s) (counters s) (calibrated_concurrency s) (horizon_ms s).
Definition set_issued (s : Simulator) (i n : Z) : Simulator :=
  mkSim (cfg s) (now s) (heap s) (seq s) i (reqs s) (prefill_ws s) (decode_ws s) (router s)
    (xfer_busy s) (xfer_queue s) (outcomes s) n (counters s) (calibrated_concurrency s) (horizon_ms s).
Definition set_prefill (s : Simulator) (p : list PrefillWorkerSim) : Simulator :=
  mkSim (cfg s) (now s) (heap s) (seq s) (next_id s) (reqs s) p (decode_ws s) (router s)
    (xfer_busy s) (xfer_queue s) (outcomes s) (issued s) (counters s) (calibrated_concurrency s) (horizon_ms s).
Definition set_decode (s : Simulator) (d : list DecodeWorkerSim) : Simulator :=
  mkSim (cfg s) (now s) (heap s) (seq s) (next_id s) (reqs s) (prefill_ws s) d (router s)
    (xfer_busy s) (xfer_queue s) (outcomes s) (issued s) (counters s) (calibrated_concurrency s) (horizon_ms s).
Definition set_router (s : Simulator) (r : Routing.Router) : Simulator :=
  mkSim (cfg s) (now s) (heap s) (seq s) (next_id s) (reqs s) (prefill_ws s) (decode_ws s) r
    (xfer_busy s) (xfer_queue s) (outcomes s) (issued s) (counters s) (calibrated_concurrency s) (horizon_ms s).
Definition set_xfer (s : Simulator) (b : Z) (q : list (RequestId * nat)) : Simulator :=
  mkSim (cfg s) (now s) (heap s) (seq s) (next_id s) (reqs s) (prefill_ws s) (decode_ws s) (router s)
    b q (outcomes s) (issued s) (counters s) (calibrated_concurrency s) (horizon_ms s).
Definition set_outcomes (s : Simulator) (o : list RequestOutcome) : Simulator :=
  mkSim (cfg s) (now s) (heap s) (seq s) (next_id s) (reqs s) (prefill_ws s) (decode_ws s) (router s)
    (xfer_busy s) (xfer_queue s) o (issued s) (counters s) (calibrated_concurrency s) (horizon_ms s).
Definition set_counters (s : Simulator) (c : Counters) : Simulator :=
  mkSim (cfg s) (now s) (heap s) (seq s) (next_id s) (reqs s) (prefill_ws s) (decode_ws s) (router s)
    (xfer_busy s) (xfer_queue s) (outcomes s) (issued s) c (calibrated_concurrency s) (horizon_ms s).
Definition set_horizon (s : Simulator) (h : f64) : Simulator :=
  mkSim (cfg s) (now s) (heap s) (seq s) (next_id s) (reqs s) (prefill_ws s) (decode_ws s) (router s)
    (xfer_busy s) (xfer_queue s) (outcomes s) (issued s) (counters s) (calibrated_concurrency s) h.

Definition kv_transfer_ms (c : Config) : f64 :=
  let m := model c in
  let bytes_per_token := fmul (fmul (fmul (of_Z 2) (of_Z (num_layers m))) (of_Z (num_kv_heads m))) (of_Z (head_dim m)) in
  let bytes := fmul bytes_per_token (of_Z (w_isl (workload c))) in
  let gib_s := Deployment.kv_xfer_gib_s (calibration c) in
  fadd (dec 5 1) (fmul (fdiv bytes (fmul (fmul (fmul gib_s (of_Z 1024)) (of_Z 1024)) (of_Z 1024))) (of_Z 1000)).

Definition DECODE_ID_BASE : Z := 1000.

(** ** Construction *)

Definition load_default : Routing.WorkerLoad := Routing.mkLoad 0 0 0 f0 f0 f0 f0 f0.

Definition sim_new (c : Config) : Simulator :=
  let t := topology c in
  let curve := Mock.for_worker (cal_prefill (calibration c)) (prefill_tp t) (prefill_tp t) in
  let rate := Mock.tokens_per_ms curve in
  let pool_rate := fmul rate (of_Z (prefill_workers t)) in
  let ps := mkPrefillSim (Sched.sched_new (Sched.mkTuning (chunked_prefill_tokens (scheduler c))
      (Z.to_nat (max_prefill_seqs (scheduler c))) (prefill_policy (scheduler c))
      (Deployment.demote_hopeless (scheduler c)) rate (dec 2 1))) curve false None f0 in
  let dcal := cal_decode (calibration c) in
  let dcurve := Mock.from_calibration dcal (decode_tp t) in
  let target := fmul (slo_itl_ms (slo c)) (itl_safety (scheduler c)) in
  let initial_cap := fmul (Planner.concurrency_per_gpu dcal) (of_Z (decode_tp t)) in
  let blocks := num_blocks (kv c) in
  let watermark := to_usize (fceil (fmul (of_Z blocks) (admission_watermark (kv c)))) in
  let sched0 := Decoder.dec_new (slo_itl_ms (slo c))
      (ctl_new target initial_cap (of_Z 8) (of_Z (max_decode_seqs (scheduler c)))) in
  let sched := if EngineConf.enabled (EngineConf.speculation (engine c))
      then Decoder.set_tokens_per_step sched0
             (u32_wrap (1 + EngineConf.spec_draft_tokens (EngineConf.speculation (engine c))))
      else sched0 in
  let ds := mkDecodeSim sched dcurve [] false blocks blocks watermark ∅ in
  let reg0 := Routing.registry_new (of_Z 60000) in
  let reg1 := foldl (fun r i => Routing.register r (Routing.mkWorker i Routing.Prefill
      ("sim://prefill/" +:+ pretty i) (prefill_tp t) true
      (Routing.mkLoad 0 0 0 f0 f0 rate f0 f0))) reg0 (seqZ 0 (prefill_workers t)) in
  let reg2 := foldl (fun r j => Routing.register r (Routing.mkWorker (DECODE_ID_BASE + j) Routing.Decode
      ("sim://decode/" +:+ pretty j) (decode_tp t) true
      (Routing.mkLoad 0 0 0 initial_cap f0 f0 f0 f0))) reg1 (seqZ 0 (decode_workers t)) in
  let rt := Routing.router_new reg2 (Routing.mkTuning (kv_transfer_ms c)
      (fdiv pool_rate (of_Z (Z.max (prefill_workers t) 1))) 256) in
  mkSim c f0 [] 0 0 ∅ (replicate (Z.to_nat (prefill_workers t)) ps)
    (replicate (Z.to_nat (decode_workers t)) ds) rt 0 [] [] 0
    (mkCounters 0 0 0 0 [] [] 0 []) initial_cap INFINITY.

(** [Simulator::new]: the simulator of [sim_new], unless the controller of a
    decode worker cannot be made. *)
Definition sim_make (c : Config) : option Simulator :=
  if decode_workers (topology c) =? 0 then Some (sim_new c)
  else
    _ ← ctl_make (fmul (slo_itl_ms (slo c)) (itl_safety (scheduler c)))
          (fmul (Planner.concurrency_per_gpu (cal_decode (calibration c))) (of_Z (decode_tp (topology c))))
          (of_Z 8) (of_Z (max_decode_seqs (scheduler c)));
    Some (sim_new c).

(** ** Handlers *)

Definition push (s : Simulator) (t : f64) (e : Event) : Simulator :=
  set_heap s (mkScheduled t (seq s + 1) e :: heap s) (seq s + 1).

Definition prefill_load (t : f64) (p : PrefillWorkerSim) : Routing.WorkerLoad :=
  Routing.mkLoad (Sched.queued_tokens (ps_sched p)) (u32_wrap (Z.of_nat (Sched.queue_depth (ps_sched p)))) 0 f0 f0
    (Sched.rate (ps_sched p)) f0 t.

Definition decode_load (t : f64) (d : DecodeWorkerSim) : Routing.WorkerLoad :=
  Routing.mkLoad 0 0 (u32_wrap (Decoder.concurrency (ds_sched d))) (cap (Decoder.controller (ds_sched d)))
    (fsub f1 (fdiv (of_Z (ds_free d)) (of_Z (Z.max (ds_total d) 1)))) f0
    (ewma_ms (Decoder.controller (ds_sched d))) t.

Definition sync_loads (s : Simulator) : Simulator :=
  let reg0 := Routing.registry (router s) in
  let reg1 := foldl (fun r ip => Routing.update_load r (Z.of_nat ip.1) (prefill_load (now s) ip.2))
    reg0 (imap pair (prefill_ws s)) in
  let reg2 := foldl (fun r jd => Routing.update_load r (DECODE_ID_BASE + Z.of_nat jd.1) (decode_load (now s) jd.2))
    reg1 (imap pair (decode_ws s)) in
  set_router s (Routing.mkRouter reg2 (Routing.prefix_index (router s)) (Routing.tuning (router s))).

(** Handlers return [None] where the source panics: an index out of range, an
    [expect], or the failure of a component they call. *)
Definition try_start_prefill (s : Simulator) (w : nat) : option Simulator :=
  p ← prefill_ws s !! w;
  if ps_busy p then Some s
  else
    let '(sched1, batch) := Sched.plan (ps_sched p) (now s) in
    let idle := mkPrefillSim sched1 (ps_curve p) (ps_busy p) (ps_batch p) (ps_busy_ms p) in
    if decide (Sched.chunks batch = []) then Some (set_prefill s (<[w := idle]> (prefill_ws s)))
    else
      let n := Z.of_nat (length (Sched.chunks batch)) in
      let ms := Mock.batch_ms (ps_curve p) (Sched.total_tokens batch) n in
      let depth := Z.of_nat (Sched.queue_depth sched1) in
      let c := counters s in
      let c1 := mkCounters (batches c + 1) (batch_seqs c + n) (batch_tokens c + Sched.total_tokens batch)
        (if Sched.deadline_limited batch then deadline_limited c + 1 else deadline_limited c)
        (if 0 <? depth
         then demoted_samples c ++ [fdiv (of_Z (Z.of_nat (Sched.demoted_count sched1))) (of_Z depth)]
         else demoted_samples c)
        (concurrency_samples c) (peak_concurrency c) (queue_depth_samples c ++ [of_Z depth]) in
      let charged := fmin ms (fmax (fsub (horizon_ms s) (now s)) f0) in
      let busy := mkPrefillSim sched1 (ps_curve p) true (Some (batch, now s)) (fadd (ps_busy_ms p) charged) in
      Some (push (set_prefill (set_counters s c1) (<[w := busy]> (prefill_ws s))) (fadd (now s) ms) (PrefillDone w)).

Definition on_arrival (s : Simulator) (client : nat) : option Simulator :=
  let id := next_id s in
  let s := set_issued s (next_id s + 1) (issued s + 1) in
  let isl := w_isl (workload (cfg s)) in
  let prompt := replicate (Z.to_nat isl) (id mod 100000 + 1) in
  let s := sync_loads s in
  r ← Routing.route (router s) prompt (now s) (slo_ttft_ms (slo (cfg s)));
  match r with
  | Err _ => None
  | Ok d =>
      let pw := Z.to_nat (Routing.rd_prefill d) in
      let dw := Z.to_nat (Routing.rd_decode d - DECODE_ID_BASE) in
      let s := set_reqs s (<[id := mkReq client (now s) isl (w_osl (workload (cfg s))) dw None (now s)]> (reqs s)) in
      let compute := sat_sub isl (Z.of_nat (Routing.prefix_hit_tokens d)) in
      p ← prefill_ws s !! pw;
      let p' := mkPrefillSim
        (Sched.enqueue (ps_sched p) (Sched.mkPending id (now s) (fadd (now s) (slo_ttft_ms (slo (cfg s)))) compute 0))
        (ps_curve p) (ps_busy p) (ps_batch p) (ps_busy_ms p) in
      let s := set_prefill s (<[pw := p']> (prefill_ws s)) in
      s ← (if cache_bust (workload (cfg s)) then Some s
           else rt ← Routing.note_prefill (router s) (Z.of_nat pw) prompt (now s); Some (set_router s rt));
      try_start_prefill s pw
  end.

(** [drain_xfer_queue]: transfers started while a buffer is free. *)
Fixpoint drain (s : Simulator) (cap : Z) (transfer : f64) (q : list (RequestId * nat)) : Simulator :=
  match q with
  | [] => set_xfer s (xfer_busy s) []
  | (id, dw) :: q' =>
      if xfer_busy s <? cap then
        drain (push (set_xfer s (xfer_busy s + 1) q') (fadd (now s) transfer) (KvArrived id dw)) cap transfer q'
      else set_xfer s (xfer_busy s) q
  end.

Definition drain_xfer_queue (s : Simulator) (transfer : f64) : Simulator :=
  drain s (Z.max (xfer_concurrency (kv (cfg s))) 1) transfer (xfer_queue s).

(** The finished requests stop their first-token clock and queue for a
    transfer. *)
Fixpoint hand_off (s : Simulator) (finished : list RequestId) : option Simulator :=
  match finished with
  | [] => Some s
  | id :: rest =>
      r ← reqs s !! id;
      let r' := mkReq (rq_client r) (rq_arrival_ms r) (rq_prompt_len r) (rq_osl r) (rq_decode_worker r)
        (Some (now s)) (now s) in
      hand_off (set_xfer (set_reqs s (<[id := r']> (reqs s))) (xfer_busy s)
        (xfer_queue s ++ [(id, rq_decode_worker r)])) rest
  end.

Definition on_prefill_done (s : Simulator) (w : nat) : option Simulator :=
  p ← prefill_ws s !! w;
  match ps_batch p with
  | None => Some s
  | Some (batch, started) =>
      let elapsed := fsub (now s) started in
      let '(sched1, finished) := Sched.complete (ps_sched p) batch elapsed in
      let s := set_prefill s (<[w := mkPrefillSim sched1 (ps_curve p) false None (ps_busy_ms p)]> (prefill_ws s)) in
      s ← hand_off s finished;
      try_start_prefill (drain_xfer_queue s (kv_transfer_ms (cfg s))) w
  end.

Definition on_kv_arrived (s : Simulator) (id : RequestId) (w : nat) : option Simulator :=
  let s := set_xfer s (sat_sub (xfer_busy s) 1) (xfer_queue s) in
  let s := drain_xfer_queue s (kv_transfer_ms (cfg s)) in
  d ← decode_ws s !! w;
  let d1 := mkDecodeSim (ds_sched d) (ds_curve d) (ds_pending d ++ [id]) true (ds_free d)
    (ds_total d) (ds_watermark d) (ds_held d) in
  let s1 := set_decode s (<[w := d1]> (decode_ws s)) in
  Some (if ds_stepping d then s1 else push s1 (now s) (DecodeStep w)).

(** [admit_decode], over the pending queue of the worker. *)
Fixpoint admit_decode (rs : gmap Z ReqState) (bs : Z) (t : f64) (d : DecodeWorkerSim) (pending : list RequestId)
    : option DecodeWorkerSim :=
  let keep sched pend free held :=
    mkDecodeSim sched (ds_curve d) pend (ds_stepping d) free (ds_total d) (ds_watermark d) held in
  match pending with
  | [] => Some (keep (ds_sched d) [] (ds_free d) (ds_held d))
  | id :: rest =>
      match rs !! id with
      | None => admit_decode rs bs t (keep (ds_sched d) rest (ds_free d) (ds_held d)) rest
      | Some r =>
          let need := blocks_for (rq_prompt_len r + rq_osl r) bs in
          let headroom := need + ds_watermark d <=? ds_free d in
          let decision := Decoder.can_admit (ds_sched d) headroom in
          let sched1 := Decoder.note (ds_sched d) decision in
          if decide (decision = Decoder.Admit) then
            first ← rq_first_token_ms r;
            let q0 := Decoder.seq_new id first (rq_osl r) in
            let q := Decoder.mkSeq id (Decoder.admitted_ms q0) (Decoder.seq_first_ms q0) t
              (Decoder.tokens_emitted q0) (Decoder.seq_requested q0) in
            admit_decode rs bs t
              (keep (Decoder.admit_at sched1 q t) rest (ds_free d - need) (<[id := need]> (ds_held d))) rest
          else Some (keep sched1 pending (ds_free d) (ds_held d))
      end
  end.

(** [retire] for a finished sequence. *)
Definition retire (s : Simulator) (w : nat) (q : Decoder.RunningSeq) (t : f64) : option Simulator :=
  d ← decode_ws s !! w;
  let id := Decoder.seq_id q in
  let d1 := match ds_held d !! id with
    | Some n => mkDecodeSim (ds_sched d) (ds_curve d) (ds_pending d) (ds_stepping d) (ds_free d + n)
                  (ds_total d) (ds_watermark d) (delete id (ds_held d))
    | None => d
    end in
  let s := set_decode s (<[w := d1]> (decode_ws s)) in
  match reqs s !! id with
  | None => Some s
  | Some r =>
      let o := mkOutcome id (rq_arrival_ms r) (default t (rq_first_token_ms r)) t
        (u32_wrap (rq_prompt_len r)) (Decoder.tokens_emitted q) (rq_osl r) in
      let s := set_outcomes (set_reqs s (delete id (reqs s))) (outcomes s ++ [o]) in
      Some (push s t (Arrival (rq_client r)))
  end.

Fixpoint retire_all (s : Simulator) (w : nat) (t : f64) (dn : list Decoder.RunningSeq) : option Simulator :=
  match dn with
  | [] => Some s
  | q :: dn => s ← retire s w q t; retire_all s w t dn
  end.

(** A running request received a token at [t]. *)
Definition stamp (t : f64) (r : ReqState) : ReqState :=
  mkReq (rq_client r) (rq_arrival_ms r) (rq_prompt_len r) (rq_osl r) (rq_decode_worker r)
    (rq_first_token_ms r) t.

Definition on_decode_step (s : Simulator) (w : nat) : option Simulator :=
  d0 ← decode_ws s !! w;
  d ← admit_decode (reqs s) (Deployment.block_size (kv (cfg s))) (now s) d0 (ds_pending d0);
  let put d' := set_decode s (<[w := d']> (decode_ws s)) in
  let concurrency := Decoder.concurrency (ds_sched d) in
  if concurrency =? 0 then
    match ds_pending d with
    | [] => Some (put (mkDecodeSim (ds_sched d) (ds_curve d) [] false (ds_free d) (ds_total d)
              (ds_watermark d) (ds_held d)))
    | _ => Some (push (put d) (fadd (now s) (Mock.curve_step_ms (ds_curve d) 1)) (DecodeStep w))
    end
  else
    let step_ms := Mock.curve_step_ms (ds_curve d) concurrency in
    let t_done := fadd (now s) step_ms in
    let c := counters s in
    let c1 := mkCounters (batches c) (batch_seqs c) (batch_tokens c) (deadline_limited c) (demoted_samples c)
      (concurrency_samples c ++ [of_Z concurrency]) (Z.max (peak_concurrency c) concurrency)
      (queue_depth_samples c) in
    '(sched1, dn) ← Decoder.on_step_synthetic (ds_sched d) t_done step_ms;
    let d1 := mkDecodeSim sched1 (ds_curve d) (ds_pending d) (ds_stepping d) (ds_free d) (ds_total d)
      (ds_watermark d) (ds_held d) in
    let s1 := set_counters (put d1) c1 in
    let ids := map Decoder.seq_id (Decoder.values sched1) in
    let s2 := set_reqs s1 (foldl (fun m id => alter (stamp t_done) id m) (reqs s1) ids) in
    s3 ← retire_all s2 w t_done dn;
    Some (push s3 t_done (DecodeStep w)).

Definition handle (s : Simulator) (e : Event) : option Simulator :=
  match e with
  | Arrival client => on_arrival s client
  | PrefillDone w => on_prefill_done s w
  | KvArrived id w => on_kv_arrived s id w
  | DecodeStep w => on_decode_step s w
  end.

(** ** The run *)

Definition mean (v : list f64) : f64 :=
  match v with [] => f0 | _ => fdiv (fsum v) (of_nat (length v)) end.

Record Diagnostics := mkDiagnostics {
  simulated_s : f64;
  requests_issued : Z;
  requests_completed : nat;
  mean_prefill_batch_seqs : f64;
  mean_prefill_batch_tokens : f64;
  deadline_limited_frac : f64;
  demoted_frac : f64;
  prefill_busy_frac : f64;
  mean_decode_concurrency : f64;
  peak_decode_concurrency : Z;
  final_decode_cap : f64;
  observed_step_ms : f64;
  decode_refusals : Z;
  prefill_queue_depth : LatencyStats;
  diag_calibrated_concurrency : f64;
  extrapolated_beyond_calibration : bool
}.

Record SimReport := mkSimReport {
  goodput : GoodputReport;
  diagnostics : Diagnostics
}.

Definition finish (s : Simulator) (window_start window_end : f64) : SimReport :=
  let scored := filter (fun o => fge (arrival_ms o) window_start && flt (arrival_ms o) window_end = true) (outcomes s) in
  let window := fdiv (fsub window_end window_start) (of_Z 1000) in
  let g := from_outcomes scored window (slo (cfg s)) in
  let sim_ms := fadd window_end (fmul (grace_s (workload (cfg s))) (of_Z 1000)) in
  let busy := fsum (map ps_busy_ms (prefill_ws s)) in
  let capacity := fmul sim_ms (of_nat (length (prefill_ws s))) in
  let c := counters s in
  let nb := of_Z (Z.max (batches c) 1) in
  let ctl := match decode_ws s with d :: _ => Some (Decoder.controller (ds_sched d)) | [] => None end in
  mkSimReport g (mkDiagnostics (fdiv sim_ms (of_Z 1000)) (issued s) (length (outcomes s))
    (fdiv (of_Z (batch_seqs c)) nb) (fdiv (of_Z (batch_tokens c)) nb) (fdiv (of_Z (deadline_limited c)) nb)
    (mean (demoted_samples c)) (if fgt capacity f0 then fdiv busy capacity else f0)
    (mean (concurrency_samples c)) (peak_concurrency c)
    (match ctl with Some x => cap x | None => f0 end)
    (match ctl with Some x => ewma_ms x | None => f0 end)
    (foldr (fun d n => Decoder.refused (ds_sched d) + n) 0 (decode_ws s))
    (from_samples (queue_depth_samples c)) (calibrated_concurrency s)
    (fgt (of_Z (peak_concurrency c)) (fmul (calibrated_concurrency s) (dec 105 2)))).

(** The event loop; the fuel bounds the number of events, and a run that needs
    more has no result. *)
Fixpoint run_loop (fuel : nat) (s : Simulator) : option Simulator :=
  match fuel with
  | O => None
  | S fuel =>
      match heap_pop (heap s) with
      | None => Some s
      | Some (ev, rest) =>
          let s := set_heap s rest (seq s) in
          if fgt (at_ms ev) (horizon_ms s) then Some s
          else s ← handle (set_now s (at_ms ev)) (event ev); run_loop fuel s
      end
  end.

Definition start (s : Simulator) : Simulator :=
  let w := workload (cfg s) in
  let window_start := fmul (warmup_s w) (of_Z 1000) in
  let window_end := fadd window_start (fmul (benchmark_s w) (of_Z 1000)) in
  let horizon := fadd window_end (fmul (grace_s w) (of_Z 1000)) in
  foldl (fun s client => push s f0 (Arrival (Z.to_nat client))) (set_horizon s horizon)
    (seqZ 0 (w_concurrency w)).

Definition run (fuel : nat) (s : Simulator) : option SimReport :=
  let w := workload (cfg s) in
  let window_start := fmul (warmup_s w) (of_Z 1000) in
  let window_end := fadd window_start (fmul (benchmark_s w) (of_Z 1000)) in
  s ← run_loop fuel (start s);
  Some (finish s window_start window_end).

(** A simulation from its configuration on. *)
Definition simulate (fuel : nat) (c : Config) : option SimReport :=
  s ← sim_make c; run fuel s.

(** ** The invariant

    Every event in flight is accounted for by a component's state.  [x] lists
    the events taken from the heap and not yet answered for. *)

Definition is_arrival (e : Event) : bool := match e with Arrival _ => true | _ => false end.
Definition is_prefill_done (w : nat) (e : Event) : bool :=
  match e with PrefillDone v => (v =? w)%nat | _ => false end.
Definition is_kv_arrived (e : Event) : bool := match e with KvArrived _ _ => true | _ => false end.
Definition is_decode_step (w : nat) (e : Event) : bool :=
  match e with DecodeStep v => (v =? w)%nat | _ => false end.

Definition cnt (P : Event -> bool) (l : list Event) : Z :=
  Z.of_nat (length (filter (fun e => P e = true) l)).

Definition in_flight (x : list Event) (s : Simulator) : list Event := x ++ map event (heap s).

Definition held_sum (m : gmap Z Z) : Z := map_fold (fun _ v n => v + n) 0 m.

(** The pages of a decode worker are never over-committed. *)
Definition pages_ok (d : DecodeWorkerSim) : Prop :=
  0 <= ds_free d /\ 0 <= ds_watermark d /\ map_Forall (fun _ v => 0 <= v) (ds_held d) /\
  ds_free d + held_sum (ds_held d) <= ds_total d.

Definition buffers (c : Config) : Z := Z.max (xfer_concurrency (kv c)) 1.

(** The clients that have an arrival scheduled, and those that have a request
    in flight. *)
Definition arrival_client (e : Event) : option nat := match e with Arrival k => Some k | _ => None end.
Definition clients_of (m : gmap Z ReqState) : list nat := (map_to_list (rq_client <$> m)).*2.
Definition waiting_clients (evs : list Event) (m : gmap Z ReqState) : list nat := omap arrival_client evs ++ clients_of m.

Record core_inv (c : Config) (n : Z) (x : list Event) (s : Simulator) : Prop := {
  ci_cfg : cfg s = c;
  ci_reqs : forall id r, reqs s !! id = Some r -> id < next_id s /\ 0 <= rq_prompt_len r + rq_osl r;
  ci_clients : waiting_clients (in_flight x s) (reqs s) ≡ₚ List.seq 0 (Z.to_nat n);
  ci_loop : cnt is_arrival (in_flight x s) + Z.of_nat (size (reqs s)) = n;
  ci_issued : issued s = Z.of_nat (size (reqs s)) + Z.of_nat (length (outcomes s));
  ci_prefill : forall w p, prefill_ws s !! w = Some p ->
    ps_busy p = bool_decide (is_Some (ps_batch p)) /\
    cnt (is_prefill_done w) (in_flight x s) = Z.b2z (ps_busy p);
  ci_decode : forall w d, decode_ws s !! w = Some d ->
    pages_ok d /\ cnt (is_decode_step w) (in_flight x s) = Z.b2z (ds_stepping d);
  ci_xfer : xfer_busy s = cnt is_kv_arrived (in_flight x s) /\ xfer_busy s <= buffers c
}.

(** No transfer waits while a buffer is free. *)
Definition xfer_full (c : Config) (s : Simulator) : Prop :=
  xfer_queue s = [] \/ xfer_busy s = buffers c.

Definition sim_inv (c : Config) (n : Z) (s : Simulator) : Prop := core_inv c n [] s /\ xfer_full c s.

Lemma cnt_cons P e l : cnt P (e :: l) = Z.b2z (P e) + cnt P l.
Proof.
  unfold cnt. rewrite filter_cons. destruct (P e); cbn [Z.b2z].
  - rewrite decide_True by done. cbn [length]. lia.
  - rewrite decide_False by done. lia.
Qed.

Lemma cnt_perm P l l' : l ≡ₚ l' -> cnt P l = cnt P l'.
Proof. intros H. unfold cnt. by rewrite H. Qed.

Lemma cnt_nonneg P l : 0 <= cnt P l.
Proof. unfold cnt. lia. Qed.

Lemma clients_same m m' : rq_client <$> m' = rq_client <$> m -> clients_of m' = clients_of m.
Proof. unfold clients_of. by intros ->. Qed.

Lemma clients_insert m id r : m !! id = None -> clients_of (<[id := r]> m) ≡ₚ rq_client r :: clients_of m.
Proof. intros H. unfold clients_of. rewrite fmap_insert, map_to_list_insert; [done|]. by rewrite lookup_fmap, H. Qed.

Lemma clients_delete m id r : m !! id = Some r -> clients_of m ≡ₚ rq_client r :: clients_of (delete id m).
Proof. intros H. rewrite <- (insert_delete_id m id r H) at 1. apply clients_insert, lookup_delete_eq. Qed.

(** The invariant depends on the events in flight up to their order. *)
Lemma core_perm c n x y s h k : core_inv c n x s -> in_flight x s ≡ₚ y ++ map event h ->
  core_inv c n y (set_heap s h k).
Proof.
  intros [] Hp. pose proof (fun P => cnt_perm P _ _ Hp) as Hc.
  split; cbn [set_heap cfg reqs next_id issued outcomes prefill_ws decode_ws xfer_busy];
    unfold in_flight; cbn [set_heap heap]; try done.
  - unfold waiting_clients. by rewrite <- Hp.
  - by rewrite <- Hc.
  - intros w p Hw. rewrite <- Hc. by apply ci_prefill0.
  - intros w d Hw. rewrite <- Hc. by apply ci_decode0.
  - by rewrite <- Hc.
Qed.

Lemma push_inv c n e x s t : core_inv c n (e :: x) s -> core_inv c n x (push s t e).
Proof.
  intros H. unfold push. apply (core_perm _ _ _ _ _ _ _ H). unfold in_flight. cbn [map event].
  by rewrite <- Permutation_middle.
Qed.

Lemma heap_pop_spec h m rest : heap_pop h = Some (m, rest) ->
  h ≡ₚ m :: rest /\ Forall (fun y => cmp_le cmp_scheduled y m) rest.
Proof.
  revert m rest. induction h as [|x h IH]; intros m rest; cbn [heap_pop]; [done|].
  destruct (heap_pop h) as [[m' r']|] eqn:E.
  - destruct (IH _ _ eq_refl) as [Hp Hf]. unfold cmp_le in *.
    destruct (cmp_scheduled x m') eqn:Hc; intros [= <- <-].
    2: { split; [rewrite Hp; apply Permutation_swap|]. constructor; [congruence|done]. }
    all: split; [by rewrite Hp|]; constructor;
      [rewrite (cmp_opp cmp_scheduled x m'), Hc; done|].
    all: eapply Forall_impl; [exact Hf|]; intros y Hy.
    all: apply (cmp_le_trans cmp_scheduled y m' x); [done|].
    all: rewrite (cmp_opp cmp_scheduled x m'), Hc; done.
  - intros [= <- <-]. destruct h as [|y h]; [done|]. exfalso. cbn [heap_pop] in E.
    destruct (heap_pop h) as [[a b]|]; [|done]. by destruct (cmp_scheduled y a).
Qed.

Lemma held_sum_insert m id v : 0 <= v -> map_Forall (fun _ v => 0 <= v) m ->
  held_sum (<[id := v]> m) <= v + held_sum m.
Proof.
  intros Hv Hm. unfold held_sum. destruct (m !! id) as [old|] eqn:E.
  - rewrite (map_fold_delete_L _ _ id v (<[id := v]> m)); [|intros; lia|by rewrite lookup_insert_eq].
    rewrite delete_insert_eq. rewrite (map_fold_delete_L _ _ id old m); [|intros; lia|done].
    pose proof (Hm _ _ E). cbn in *. lia.
  - rewrite map_fold_insert_L; [lia|intros; lia|done].
Qed.

Lemma held_sum_delete m id v : m !! id = Some v -> held_sum m = v + held_sum (delete id m).
Proof. intros H. unfold held_sum. rewrite (map_fold_delete_L _ _ id v m); [done|intros; lia|done]. Qed.

(** *** Prefill *)

Lemma set_prefill_inv c n x s w p p' : core_inv c n x s -> prefill_ws s !! w = Some p ->
  ps_busy p' = ps_busy p -> ps_batch p' = ps_batch p ->
  core_inv c n x (set_prefill s (<[w := p']> (prefill_ws s))).
Proof.
  intros [] Hw Hb Hbt. split; try done.
  intros v q [(<- & <- & _)|[_ Hv]]%list_lookup_insert_Some; [|by apply ci_prefill0].
  rewrite Hb, Hbt. by apply ci_prefill0.
Qed.

Lemma start_batch_inv c n x s w p p' : core_inv c n x s -> prefill_ws s !! w = Some p ->
  ps_busy p = false -> ps_busy p' = true -> is_Some (ps_batch p') ->
  core_inv c n (PrefillDone w :: x) (set_prefill s (<[w := p']> (prefill_ws s))).
Proof.
  intros [] Hw Hb Hb' Hbt. destruct (ci_prefill0 _ _ Hw) as [_ Hc]. rewrite Hb in Hc.
  split; cbn [set_prefill cfg reqs next_id issued outcomes prefill_ws decode_ws xfer_busy]; try done;
    unfold in_flight in *; cbn [set_prefill heap app].
  - intros v q [(<- & <- & _)|[Hne Hv]]%list_lookup_insert_Some; rewrite cnt_cons; cbn [is_prefill_done].
    + rewrite Hb', bool_decide_true, Nat.eqb_refl, Hc by done. done.
    + rewrite (proj2 (Nat.eqb_neq w v)) by done. apply ci_prefill0. done.
Qed.

(** A batch that ends was running. *)
Lemma prefill_batched c n x s w p : core_inv c n (PrefillDone w :: x) s -> prefill_ws s !! w = Some p ->
  is_Some (ps_batch p).
Proof.
  intros Hi Hp. destruct (ci_prefill _ _ _ _ Hi _ _ Hp) as [Hb Hn].
  unfold in_flight in Hn. cbn [app] in Hn. rewrite cnt_cons in Hn. cbn [is_prefill_done] in Hn.
  rewrite Nat.eqb_refl in Hn. pose proof (cnt_nonneg (is_prefill_done w) (x ++ map event (heap s))).
  destruct (ps_busy p); cbn [Z.b2z] in Hn; [|lia]. by apply (bool_decide_eq_true_1 _), eq_sym.
Qed.

Lemma end_batch_inv c n x s w p p' : core_inv c n (PrefillDone w :: x) s -> prefill_ws s !! w = Some p ->
  ps_busy p' = false -> ps_batch p' = None ->
  core_inv c n x (set_prefill s (<[w := p']> (prefill_ws s))).
Proof.
  intros [] Hw Hb' Hbt. destruct (ci_prefill0 _ _ Hw) as [_ Hc].
  unfold in_flight in *. cbn [app] in *.
  split; cbn [set_prefill cfg reqs next_id issued outcomes prefill_ws decode_ws xfer_busy]; try done;
    unfold in_flight; cbn [set_prefill heap].
  - intros v q [(<- & <- & _)|[Hne Hv]]%list_lookup_insert_Some.
    + rewrite Hb', Hbt. split; [done|]. rewrite cnt_cons in Hc. cbn [is_prefill_done] in Hc.
      rewrite Nat.eqb_refl in Hc. pose proof (cnt_nonneg (is_prefill_done w) (x ++ map event (heap s))).
      destruct (ps_busy p); cbn [Z.b2z] in *; lia.
    + destruct (ci_prefill0 _ _ Hv) as [H1 H2]. rewrite cnt_cons in H2. cbn [is_prefill_done] in H2.
      rewrite (proj2 (Nat.eqb_neq w v)) in H2 by done. done.
Qed.

Lemma set_counters_inv c n x s k : core_inv c n x s -> core_inv c n x (set_counters s k).
Proof. by intros []. Qed.

Lemma set_router_inv c n x s r : core_inv c n x s -> core_inv c n x (set_router s r).
Proof. by intros []. Qed.

Lemma set_queue_inv c n x s q : core_inv c n x s -> core_inv c n x (set_xfer s (xfer_busy s) q).
Proof. by intros []. Qed.

Lemma try_start_inv c n x s w s' : core_inv c n x s -> try_start_prefill s w = Some s' ->
  core_inv c n x s' /\ xfer_queue s' = xfer_queue s /\ xfer_busy s' = xfer_busy s.
Proof.
  intros Hi. unfold try_start_prefill. destruct (prefill_ws s !! w) as [p|] eqn:Hw; cbn [mbind option_bind]; [|done].
  destruct (ps_busy p) eqn:Hb; [by intros [= <-]|].
  destruct (Sched.plan (ps_sched p) (now s)) as [s1 b].
  destruct (decide _); intros [= <-].
  - split; [|done]. by eapply set_prefill_inv.
  - split; [|done]. apply push_inv.
    match goal with |- core_inv _ _ _ (set_prefill ?sc (<[_ := ?q]> _)) =>
      exact (start_batch_inv c n x sc w p q (set_counters_inv c n x s _ Hi) Hw Hb eq_refl (mk_is_Some _ _ eq_refl)) end.
Qed.

(** *** Transfers *)

(** A transfer takes a free buffer. *)
Lemma start_xfer_inv c n x s id dw q : core_inv c n x s -> xfer_busy s < buffers c ->
  core_inv c n (KvArrived id dw :: x) (set_xfer s (xfer_busy s + 1) q).
Proof.
  intros [] Hlt.
  split; cbn [set_xfer cfg reqs next_id issued outcomes prefill_ws decode_ws xfer_busy]; try done;
    unfold in_flight in *; cbn [set_xfer heap app]; rewrite ?cnt_cons; cbn [is_kv_arrived Z.b2z]; lia.
Qed.

Lemma drain_inv c n x t : forall q s,
  core_inv c n x s -> xfer_queue s = q -> core_inv c n x (drain s (buffers c) t q) /\ xfer_full c (drain s (buffers c) t q).
Proof.
  induction q as [|[id dw] q IH]; intros s Hi Hq; cbn [drain].
  { split; [by apply set_queue_inv|by left]. }
  destruct (Z.ltb_spec (xfer_busy s) (buffers c)) as [Hlt|Hge].
  - apply IH; [|done]. by apply push_inv, start_xfer_inv.
  - split; [by apply set_queue_inv|]. right. cbn [set_xfer xfer_busy]. pose proof (ci_xfer _ _ _ _ Hi). lia.
Qed.

Lemma touch_req_inv c n x s id r r' q : core_inv c n x s -> reqs s !! id = Some r ->
  rq_prompt_len r' = rq_prompt_len r -> rq_osl r' = rq_osl r -> rq_client r' = rq_client r ->
  core_inv c n x (set_xfer (set_reqs s (<[id := r']> (reqs s))) (xfer_busy s) q).
Proof.
  intros [] Hr E1 E2 E3.
  assert (size (<[id := r']> (reqs s)) = size (reqs s)) as Hsz by (rewrite map_size_insert, Hr; done).
  split; cbn [set_xfer set_reqs cfg reqs next_id issued outcomes prefill_ws decode_ws xfer_busy];
    unfold in_flight in *; cbn [set_xfer set_reqs heap]; rewrite ?Hsz; try done.
  - intros i q' [[<- <-]|[_ H']]%lookup_insert_Some; [|by apply ci_reqs0].
    rewrite E1, E2. by apply (ci_reqs0 id).
  - unfold waiting_clients. rewrite (clients_same (reqs s)); [done|].
    rewrite fmap_insert, E3. apply insert_id. by rewrite lookup_fmap, Hr.
Qed.

Lemma hand_off_inv c n x finished : forall s s', core_inv c n x s -> hand_off s finished = Some s' ->
  core_inv c n x s' /\ prefill_ws s' = prefill_ws s.
Proof.
  induction finished as [|id finished IH]; intros s s' Hi; cbn [hand_off]; [by intros [= <-]|].
  destruct (reqs s !! id) as [r|] eqn:Hr; cbn [mbind option_bind]; [|done].
  intros H. apply IH in H; [done|]. by eapply touch_req_inv.
Qed.

(** *** Decode *)

Lemma set_decode_inv c n x s w d d' : core_inv c n x s -> decode_ws s !! w = Some d ->
  ds_stepping d' = ds_stepping d -> pages_ok d' ->
  core_inv c n x (set_decode s (<[w := d']> (decode_ws s))).
Proof.
  intros [] Hw Hs Hp. split; try done.
  intros v q [(<- & <- & _)|[_ Hv]]%list_lookup_insert_Some; [|by apply ci_decode0].
  rewrite Hs. split; [done|]. by apply ci_decode0.
Qed.

Lemma stepping_inv c n x s w d d' : core_inv c n x s -> decode_ws s !! w = Some d ->
  ds_stepping d = false -> ds_stepping d' = true -> pages_ok d' ->
  core_inv c n (DecodeStep w :: x) (set_decode s (<[w := d']> (decode_ws s))).
Proof.
  intros [] Hw Hs Hs' Hp. destruct (ci_decode0 _ _ Hw) as [_ Hc]. rewrite Hs in Hc.
  split; cbn [set_decode cfg reqs next_id issued outcomes prefill_ws decode_ws xfer_busy]; try done;
    unfold in_flight in *; cbn [set_decode heap app].
  - intros v q [(<- & <- & _)|[Hne Hv]]%list_lookup_insert_Some; rewrite cnt_cons; cbn [is_decode_step].
    + rewrite Hs', Nat.eqb_refl, Hc. done.
    + rewrite (proj2 (Nat.eqb_neq w v)) by done. by apply ci_decode0.
Qed.

Lemma resting_inv c n x s w d d' : core_inv c n (DecodeStep w :: x) s -> decode_ws s !! w = Some d ->
  ds_stepping d' = false -> pages_ok d' ->
  core_inv c n x (set_decode s (<[w := d']> (decode_ws s))).
Proof.
  intros [] Hw Hs' Hp. destruct (ci_decode0 _ _ Hw) as [_ Hc].
  unfold in_flight in *. cbn [app] in *.
  split; cbn [set_decode cfg reqs next_id issued outcomes prefill_ws decode_ws xfer_busy]; try done;
    unfold in_flight; cbn [set_decode heap].
  - intros v q [(<- & <- & _)|[Hne Hv]]%list_lookup_insert_Some.
    + split; [done|]. rewrite Hs'. rewrite cnt_cons in Hc. cbn [is_decode_step] in Hc.
      rewrite Nat.eqb_refl in Hc. pose proof (cnt_nonneg (is_decode_step w) (x ++ map event (heap s))).
      destruct (ds_stepping d); cbn [Z.b2z] in *; lia.
    + destruct (ci_decode0 _ _ Hv) as [H1 H2]. rewrite cnt_cons in H2. cbn [is_decode_step] in H2.
      rewrite (proj2 (Nat.eqb_neq w v)) in H2 by done. done.
Qed.

Lemma admit_decode_inv rs bs t pending : forall d d',
  (forall id r, rs !! id = Some r -> 0 <= rq_prompt_len r + rq_osl r) ->
  pages_ok d -> admit_decode rs bs t d pending = Some d' ->
  pages_ok d' /\ ds_stepping d' = ds_stepping d.
Proof.
  induction pending as [|id pending IH]; intros d d' Hrs Hp; cbn [admit_decode].
  { intros [= <-]. done. }
  destruct (rs !! id) as [r|] eqn:Hr.
  2: { intros H. by apply IH in H. }
  set (need := blocks_for _ _). assert (0 <= need) as Hneed by (apply blocks_for_nonneg; by eapply Hrs).
  destruct (decide _) as [Ha|]; [|by intros [= <-]].
  destruct (rq_first_token_ms r); cbn [mbind option_bind]; [|done].
  intros H. apply IH in H; [done|done|]. destruct Hp as (H1 & H2 & H3 & H4).
  assert (need + ds_watermark d <= ds_free d) as Hh.
  { destruct (Z.leb_spec (need + ds_watermark d) (ds_free d)); [done|].
    exfalso. revert Ha. unfold Decoder.can_admit, Decoder.can_admit_over. done. }
  unfold pages_ok. cbn [ds_free ds_watermark ds_held ds_total].
  split; [lia|]. split; [done|]. split; [by apply map_Forall_insert_2|].
  pose proof (held_sum_insert (ds_held d) id need Hneed H3). lia.
Qed.

Lemma retire_inv c n x s w q t s' : core_inv c n x s -> retire s w q t = Some s' ->
  core_inv c n x s' /\ xfer_queue s' = xfer_queue s /\ xfer_busy s' = xfer_busy s.
Proof.
  intros Hi. unfold retire. destruct (decode_ws s !! w) as [d|] eqn:Hw; cbn [mbind option_bind]; [|done].
  set (d1 := match ds_held d !! _ with Some _ => _ | None => _ end).
  destruct (ci_decode _ _ _ _ Hi _ _ Hw) as [Hp _].
  assert (pages_ok d1 /\ ds_stepping d1 = ds_stepping d) as [Hp1 Hs1].
  { unfold d1. destruct (ds_held d !! Decoder.seq_id q) as [v|] eqn:Hv; [|done]. split; [|done].
    destruct Hp as (H1 & H2 & H3 & H4). pose proof (H3 _ _ Hv). cbn in *.
    unfold pages_ok. cbn [ds_free ds_watermark ds_held ds_total]. split; [lia|]. split; [done|].
    split; [by apply map_Forall_delete|]. rewrite (held_sum_delete _ _ _ Hv) in H4. lia. }
  pose proof (set_decode_inv _ _ _ _ _ _ _ Hi Hw Hs1 Hp1) as Hi1.
  set (s1 := set_decode s _) in *. cbn [set_decode reqs outcomes] in *.
  change (reqs s1) with (reqs s). destruct (reqs s !! Decoder.seq_id q) as [r|] eqn:Hr; intros [= <-]; [|done].
  split; [|done]. apply push_inv. destruct Hi1.
  assert (Z.of_nat (size (reqs s)) = 1 + Z.of_nat (size (delete (Decoder.seq_id q) (reqs s)))) as Hsz.
  { rewrite (map_size_delete_Some (Decoder.seq_id q) (reqs s)) by by eexists.
    assert (size (reqs s) <> 0%nat); [|lia].
    intros E. apply map_size_empty_inv in E. rewrite E, lookup_empty in Hr. done. }
  split; cbn [set_outcomes set_reqs cfg reqs next_id issued outcomes prefill_ws decode_ws xfer_busy];
    unfold in_flight in *; cbn [set_outcomes set_reqs heap app]; rewrite ?cnt_cons;
    cbn [is_arrival is_kv_arrived Z.b2z]; try done.
  - intros i r' [_ H']%lookup_delete_Some. by apply ci_reqs0.
  - change (reqs s1) with (reqs s) in ci_clients0. unfold waiting_clients in *. cbn [omap list_omap arrival_client].
    rewrite <- ci_clients0, (clients_delete _ _ _ Hr). apply Permutation_middle.
  - change (reqs s1) with (reqs s) in ci_loop0. lia.
  - change (reqs s1) with (reqs s) in ci_issued0.
    rewrite length_app. cbn [length]. unfold s1 in *. cbn [set_decode issued outcomes] in *. lia.
Qed.

Lemma retire_all_inv c n x w t dn : forall s s', core_inv c n x s -> retire_all s w t dn = Some s' ->
  core_inv c n x s' /\ xfer_queue s' = xfer_queue s /\ xfer_busy s' = xfer_busy s.
Proof.
  induction dn as [|q dn IH]; intros s s' Hi; cbn [retire_all]; [by intros [= <-]|].
  destruct (retire s w q t) as [s1|] eqn:Hr; cbn [mbind option_bind]; [|done].
  destruct (retire_inv _ _ _ _ _ _ _ _ Hi Hr) as (H1 & H2 & H3).
  intros H. destruct (IH _ _ H1 H) as (H4 & H5 & H6). split; [done|]. split; congruence.
Qed.

Lemma stamp_all_spec t ids : forall (m : gmap Z ReqState),
  let m' := foldl (fun m id => alter (stamp t) id m) m ids in
  size m' = size m /\ rq_client <$> m' = rq_client <$> m /\ forall id r', m' !! id = Some r' -> exists r, m !! id = Some r /\
    rq_prompt_len r' = rq_prompt_len r /\ rq_osl r' = rq_osl r.
Proof.
  induction ids as [|i ids IH]; intros m; cbn [foldl]; [split; [done|eauto]|].
  destruct (IH (alter (stamp t) i m)) as (H1 & H3 & H2). split; [|split].
  - rewrite H1. rewrite <- !size_dom. by rewrite dom_alter_L.
  - rewrite H3. apply map_eq. intros id. rewrite !lookup_fmap. destruct (decide (id = i)) as [->|Hne].
    + rewrite lookup_alter_eq. by destruct (m !! i).
    + by rewrite lookup_alter_ne.
  - intros id r' Hr. destruct (H2 _ _ Hr) as (r1 & Hr1 & E1 & E2).
    destruct (decide (id = i)) as [->|Hne].
    + rewrite lookup_alter_eq in Hr1. destruct (m !! i) as [r|]; [|done]. injection Hr1 as <-.
      exists r. done.
    + rewrite lookup_alter_ne in Hr1 by done. eauto.
Qed.

Lemma stamp_all_inv c n x s t ids : core_inv c n x s ->
  core_inv c n x (set_reqs s (foldl (fun m id => alter (stamp t) id m) (reqs s) ids)).
Proof.
  intros []. destruct (stamp_all_spec t ids (reqs s)) as (Hsz & Hcl & Hst).
  split; unfold in_flight in *;
    cbn [set_reqs cfg reqs next_id issued outcomes prefill_ws decode_ws xfer_busy heap]; try rewrite Hsz; try done.
  - intros i r Hr. destruct (Hst _ _ Hr) as (r0 & Hr0 & -> & ->). by apply (ci_reqs0 i).
  - unfold waiting_clients. by rewrite (clients_same _ _ Hcl).
Qed.

(** *** The handlers *)

(** Lengths in the configuration are unsigned. *)
Definition config_ok (c : Config) : Prop :=
  0 <= w_isl (workload c) /\ 0 <= w_osl (workload c) /\ 0 <= w_concurrency (workload c) /\ 0 <= num_blocks (kv c).

(** A new request takes the place of the arrival that issued it. *)
Lemma issue_inv c n x s k r rt : core_inv c n (Arrival k :: x) s -> rq_client r = k -> 0 <= rq_prompt_len r + rq_osl r ->
  core_inv c n x (set_reqs (set_router (set_issued s (next_id s + 1) (issued s + 1)) rt)
    (<[next_id s := r]> (reqs s))).
Proof.
  intros Hi Hk Hr.
  assert (reqs s !! next_id s = None) as Hn.
  { destruct (reqs s !! next_id s) as [r'|] eqn:E; [|done]. apply (ci_reqs _ _ _ _ Hi) in E. lia. }
  destruct Hi. unfold in_flight in *. cbn [app] in *. rewrite cnt_cons in ci_loop0. rewrite cnt_cons in ci_xfer0.
  cbn [is_arrival is_kv_arrived Z.b2z] in *.
  split; unfold in_flight; cbn [set_reqs set_router set_issued cfg reqs next_id issued outcomes
    prefill_ws decode_ws xfer_busy heap app]; try done.
  - intros i r' [[<- <-]|[_ Hr']]%lookup_insert_Some; [split; [lia|done]|].
    destruct (ci_reqs0 _ _ Hr'). lia.
  - unfold waiting_clients in *. cbn [omap list_omap arrival_client] in ci_clients0.
    rewrite (clients_insert _ _ _ Hn), Hk, <- ci_clients0. symmetry. apply Permutation_middle.
  - rewrite map_size_insert_None by done. lia.
  - rewrite map_size_insert_None by done. lia.
Qed.

Lemma on_arrival_inv c n s k s' : config_ok c -> core_inv c n [Arrival k] s -> on_arrival s k = Some s' ->
  core_inv c n [] s' /\ xfer_queue s' = xfer_queue s /\ xfer_busy s' = xfer_busy s.
Proof.
  intros (H1 & H2 & _ & _) Hi. unfold on_arrival. cbn zeta.
  set (s1 := sync_loads _). destruct (Routing.route _ _ _ _) as [[d|]|]; cbn [mbind option_bind]; [|done..].
  set (q := mkReq _ _ _ _ _ _ _). set (s2 := set_reqs s1 _).
  assert (core_inv c n [] s2) as Hi2.
  { apply (issue_inv _ _ _ s k); [done..|]. unfold q, s1.
    cbn [rq_prompt_len rq_osl sync_loads set_router set_issued cfg]. rewrite (ci_cfg _ _ _ _ Hi). lia. }
  assert (xfer_queue s2 = xfer_queue s /\ xfer_busy s2 = xfer_busy s) as [Hq Hb] by done.
  destruct (prefill_ws s2 !! _) as [p|] eqn:Hp; cbn [mbind option_bind]; [|done].
  set (p' := mkPrefillSim _ _ _ _ _).
  pose proof (set_prefill_inv c n [] s2 _ p p' Hi2 Hp eq_refl eq_refl) as Hi3.
  set (s3 := set_prefill s2 _) in *.
  assert (xfer_queue s3 = xfer_queue s /\ xfer_busy s3 = xfer_busy s) as [Hq3 Hb3] by done.
  destruct (cache_bust _); cbn [mbind option_bind].
  - intros H. destruct (try_start_inv _ _ _ _ _ _ Hi3 H) as (H4 & H5 & H6). split; [done|]. split; congruence.
  - destruct (Routing.note_prefill _ _ _ _) as [rt|]; cbn [mbind option_bind]; [|done].
    intros H. destruct (try_start_inv _ _ _ _ _ _ (set_router_inv _ _ _ _ rt Hi3) H) as (H4 & H5 & H6).
    split; [done|]. cbn [set_router xfer_queue xfer_busy] in *. split; congruence.
Qed.

Lemma on_prefill_done_inv c n s w s' : core_inv c n [PrefillDone w] s -> on_prefill_done s w = Some s' -> sim_inv c n s'.
Proof.
  intros Hi. unfold on_prefill_done. destruct (prefill_ws s !! w) as [p|] eqn:Hp; cbn [mbind option_bind]; [|done].
  destruct (ps_batch p) as [[b started]|] eqn:Hb.
  2: { destruct (prefill_batched _ _ _ _ _ _ Hi Hp) as [? E]. congruence. }
  destruct (Sched.complete _ _ _) as [s1 fin].
  set (p' := mkPrefillSim _ _ _ _ _).
  pose proof (end_batch_inv c n [] s w p p' Hi Hp eq_refl eq_refl) as Hi1.
  destruct (hand_off _ fin) as [s2|] eqn:Hh; cbn [mbind option_bind]; [|done].
  destruct (hand_off_inv _ _ _ _ _ _ Hi1 Hh) as [Hi2 _].
  intros H. unfold drain_xfer_queue in H.
  assert (Z.max (xfer_concurrency (kv (cfg s2))) 1 = buffers c) as Hbuf by (by rewrite (ci_cfg _ _ _ _ Hi2)).
  rewrite Hbuf in H.
  destruct (drain_inv c n [] (kv_transfer_ms (cfg s2)) (xfer_queue s2) s2 Hi2 eq_refl) as [Hi3 Hf].
  destruct (try_start_inv _ _ _ _ _ _ Hi3 H) as (H4 & H5 & H6).
  split; [done|]. unfold xfer_full in *. by rewrite H5, H6.
Qed.

(** A transfer that arrives frees its buffer. *)
Lemma release_inv c n x s id w : core_inv c n (KvArrived id w :: x) s ->
  core_inv c n x (set_xfer s (sat_sub (xfer_busy s) 1) (xfer_queue s)).
Proof.
  intros []. unfold in_flight in *. cbn [app] in *. rewrite cnt_cons in ci_loop0. rewrite cnt_cons in ci_xfer0.
  cbn [is_arrival is_kv_arrived Z.b2z] in *. pose proof (cnt_nonneg is_kv_arrived (x ++ map event (heap s))).
  split; unfold in_flight; cbn [set_xfer cfg reqs next_id issued outcomes prefill_ws decode_ws xfer_busy heap]; try done.
  unfold sat_sub. lia.
Qed.

Lemma on_kv_arrived_inv c n s id w s' : core_inv c n [KvArrived id w] s -> on_kv_arrived s id w = Some s' ->
  sim_inv c n s'.
Proof.
  intros Hi. unfold on_kv_arrived.
  pose proof (release_inv _ _ _ _ _ _ Hi) as Hi0. set (s0 := set_xfer s _ _) in *.
  unfold drain_xfer_queue.
  assert (Z.max (xfer_concurrency (kv (cfg s0))) 1 = buffers c) as -> by (by rewrite (ci_cfg _ _ _ _ Hi0)).
  destruct (drain_inv c n [] (kv_transfer_ms (cfg s0)) (xfer_queue s0) s0 Hi0 eq_refl) as [Hi1 Hf].
  change (cfg s0) with (cfg s) in *. set (s1 := drain _ _ _ _) in *.
  destruct (decode_ws s1 !! w) as [d|] eqn:Hd; cbn [mbind option_bind]; [|done]. intros [= <-].
  destruct (ci_decode _ _ _ _ Hi1 _ _ Hd) as [Hp _].
  set (d1 := mkDecodeSim _ _ _ _ _ _ _ _).
  destruct (ds_stepping d) eqn:Hst.
  - split; [|done]. by apply (set_decode_inv c n [] s1 w d d1 Hi1 Hd).
  - split; [|done]. apply push_inv. by apply (stepping_inv c n [] s1 w d d1 Hi1 Hd Hst).
Qed.

Lemma on_decode_step_inv c n s w s' : core_inv c n [DecodeStep w] s -> on_decode_step s w = Some s' ->
  core_inv c n [] s' /\ xfer_queue s' = xfer_queue s /\ xfer_busy s' = xfer_busy s.
Proof.
  intros Hi. unfold on_decode_step.
  destruct (decode_ws s !! w) as [d0|] eqn:Hd0; cbn [mbind option_bind]; [|done].
  destruct (admit_decode _ _ _ _ _) as [d|] eqn:Had; cbn [mbind option_bind]; [|done].
  destruct (ci_decode _ _ _ _ Hi _ _ Hd0) as [Hp0 _].
  destruct (admit_decode_inv _ _ _ _ _ _ (fun i r Hr => proj2 (ci_reqs _ _ _ _ Hi i r Hr)) Hp0 Had) as [Hp Hst].
  destruct (Decoder.concurrency (ds_sched d) =? 0).
  { destruct (ds_pending d) as [|x l] eqn:Hpend; intros [= <-].
    - split; [|done]. by apply (resting_inv c n [] s w d0 _ Hi Hd0).
    - split; [|done]. apply push_inv. by apply (set_decode_inv c n _ s w d0 d Hi Hd0). }
  set (ms := Mock.curve_step_ms _ _). set (t := fadd (now s) ms).
  destruct (Decoder.on_step_synthetic _ _ _) as [[sc dn]|]; cbn [mbind option_bind]; [|done].
  set (d1 := mkDecodeSim _ _ _ _ _ _ _ _). set (k := mkCounters _ _ _ _ _ _ _ _).
  pose proof (set_counters_inv _ _ _ _ k (set_decode_inv c n _ s w d0 d1 Hi Hd0 Hst Hp)) as Hi1.
  set (s1 := set_counters _ k) in *.
  set (ids := map Decoder.seq_id _).
  pose proof (stamp_all_inv _ _ _ _ t ids Hi1) as Hi2. set (s2 := set_reqs s1 _) in *.
  destruct (retire_all s2 w t dn) as [s3|] eqn:Hra; cbn [mbind option_bind]; [|done]. intros [= <-].
  destruct (retire_all_inv _ _ _ _ _ _ _ _ Hi2 Hra) as (Hi3 & Hq & Hb).
  split; [by apply push_inv|]. cbn [push set_heap xfer_queue xfer_busy]. rewrite Hq, Hb. done.
Qed.

(** Handlers do not move the clock. *)
Lemma drain_now t q : forall s b, now (drain s b t q) = now s.
Proof. induction q as [|[id dw] q IH]; intros s b; cbn [drain]; [done|]. destruct (_ <? _); [by rewrite IH|done]. Qed.

Lemma try_start_now s w s' : try_start_prefill s w = Some s' -> now s' = now s.
Proof.
  unfold try_start_prefill. destruct (prefill_ws s !! w) as [p|]; cbn [mbind option_bind]; [|done].
  destruct (ps_busy p); [by intros [= <-]|]. destruct (Sched.plan _ _) as [s1 b]. destruct (decide _); by intros [= <-].
Qed.

Lemma hand_off_now fin : forall s s', hand_off s fin = Some s' -> now s' = now s.
Proof.
  induction fin as [|id fin IH]; intros s s'; cbn [hand_off]; [by intros [= <-]|].
  destruct (reqs s !! id); cbn [mbind option_bind]; [|done]. intros H. by apply IH in H.
Qed.

Lemma retire_all_now w t dn : forall s s', retire_all s w t dn = Some s' -> now s' = now s.
Proof.
  induction dn as [|q dn IH]; intros s s'; cbn [retire_all]; [by intros [= <-]|]. unfold retire.
  destruct (decode_ws s !! w) as [d|]; cbn [mbind option_bind]; [|done]. cbn [set_decode reqs].
  destruct (reqs s !! _); cbn [mbind option_bind]; intros H; by apply IH in H.
Qed.

Lemma handle_now s e s' : handle s e = Some s' -> now s' = now s.
Proof.
  destruct e as [k|w|id w|w]; cbn [handle].
  - unfold on_arrival. cbn zeta. destruct (Routing.route _ _ _ _) as [[d|]|]; cbn [mbind option_bind]; [|done..].
    destruct (_ !! _); cbn [mbind option_bind]; [|done]. destruct (cache_bust _); cbn [mbind option_bind].
    + by intros ->%try_start_now.
    + destruct (Routing.note_prefill _ _ _ _); cbn [mbind option_bind]; [|done]. by intros ->%try_start_now.
  - unfold on_prefill_done. destruct (prefill_ws s !! w) as [p|]; cbn [mbind option_bind]; [|done].
    destruct (ps_batch p) as [[b t]|]; [|by intros [= <-]]. destruct (Sched.complete _ _ _) as [s1 fin].
    destruct (hand_off _ fin) as [s2|] eqn:Hh; cbn [mbind option_bind]; [|done].
    intros ->%try_start_now. unfold drain_xfer_queue. rewrite drain_now. by apply hand_off_now in Hh.
  - unfold on_kv_arrived. destruct (_ !! _) as [d|]; cbn [mbind option_bind]; [|done]. intros [= <-].
    unfold drain_xfer_queue. destruct (ds_stepping d); cbn [push set_heap set_decode now]; by rewrite drain_now.
  - unfold on_decode_step. destruct (decode_ws s !! w) as [d0|]; cbn [mbind option_bind]; [|done].
    destruct (admit_decode _ _ _ _ _) as [d|]; cbn [mbind option_bind]; [|done].
    destruct (_ =? 0); [destruct (ds_pending d); by intros [= <-]|].
    destruct (Decoder.on_step_synthetic _ _ _) as [[sc dn]|]; cbn [mbind option_bind]; [|done].
    destruct (retire_all _ _ _ _) as [s3|] eqn:Hr; cbn [mbind option_bind]; [|done]. intros [= <-].
    by apply retire_all_now in Hr.
Qed.

(** ** Reachable states *)

(** One event fires. *)
Inductive sim_step : Simulator -> Simulator -> Prop :=
  | fire s ev rest s' :
      heap_pop (heap s) = Some (ev, rest) ->
      handle (set_now (set_heap s rest (seq s)) (at_ms ev)) (event ev) = Some s' ->
      sim_step s s'.

Lemma set_now_inv c n x s t : core_inv c n x s -> core_inv c n x (set_now s t).
Proof. by intros []. Qed.

Lemma sim_step_inv c n s s' : config_ok c -> sim_inv c n s -> sim_step s s' -> sim_inv c n s'.
Proof.
  intros Hc [Hi Hf] Hs. destruct Hs as [s ev rest s' Hpop Hh].
  destruct (heap_pop_spec _ _ _ Hpop) as [Hp _].
  assert (core_inv c n [event ev] (set_now (set_heap s rest (seq s)) (at_ms ev))) as Hi1.
  { apply set_now_inv. apply (core_perm _ _ _ _ _ _ _ Hi). unfold in_flight. cbn [app].
    change (event ev :: map event rest) with (map event (ev :: rest)). by apply Permutation_map. }
  set (s1 := set_now _ _) in *.
  assert (xfer_full c s1) as Hf1 by done. clearbody s1. unfold xfer_full in *.
  destruct (event ev) as [k|w|id w|w]; cbn [handle] in Hh.
  - destruct (on_arrival_inv _ _ _ _ _ Hc Hi1 Hh) as (H1 & H2 & H3). split; [done|].
    unfold xfer_full. by rewrite H2, H3.
  - by eapply on_prefill_done_inv.
  - by eapply on_kv_arrived_inv.
  - destruct (on_decode_step_inv _ _ _ _ _ Hi1 Hh) as (H1 & H2 & H3). split; [done|].
    unfold xfer_full. by rewrite H2, H3.
Qed.

Lemma to_usize_nonneg x : 0 <= to_usize x.
Proof.
  destruct x as [s|s| |s m e]; cbn [to_usize]; try destruct s; try done.
  destruct (0 <=? e) eqn:E.
  - apply Z.leb_le in E. pose proof (Z.pow_nonneg 2 e ltac:(lia)). unfold u64_max. nia.
  - apply Z.leb_gt in E. pose proof (Z.div_pos (Zpos m) (2 ^ (- e)) ltac:(lia)
      ltac:(apply Z.pow_pos_nonneg; lia)). unfold u64_max. lia.
Qed.

Lemma new_inv c h : config_ok c -> core_inv c 0 [] (set_horizon (sim_new c) h).
Proof.
  intros (H1 & H2 & H3 & H4). split; unfold in_flight;
    cbn [set_horizon sim_new cfg reqs next_id issued outcomes prefill_ws decode_ws xfer_busy heap app map]; try done.
  - intros w p Hw. apply lookup_replicate in Hw as [-> _]. done.
  - intros w d Hw. apply lookup_replicate in Hw as [-> _].
    split; [|done]. split; [done|]. cbn [ds_watermark ds_held ds_total ds_free].
    split; [apply to_usize_nonneg|]. split; [apply map_Forall_empty|]. unfold held_sum. rewrite map_fold_empty. lia.
  - split; [done|]. unfold buffers. lia.
Qed.

Lemma foldl_ext {A B} (f g : A -> B -> A) (l : list B) (a : A) : (forall a b, f a b = g a b) -> foldl f a l = foldl g a l.
Proof. intros H. revert a. induction l as [|b l IH]; intros a; cbn [foldl]; [done|]. by rewrite H. Qed.

Lemma start_inv c : config_ok c -> sim_inv c (w_concurrency (workload c)) (start (sim_new c)).
Proof.
  intros Hc. unfold start. cbn zeta. change (cfg (sim_new c)) with c.
  set (s0 := set_horizon (sim_new c) _). assert (core_inv c 0 [] s0) as Hi0 by by apply new_inv.
  assert (xfer_queue s0 = []) as Hq0 by done. clearbody s0.
  assert (forall l k s, core_inv c (Z.of_nat k) [] s -> xfer_queue s = [] ->
    sim_inv c (Z.of_nat (k + l)) (foldl (fun s client => push s f0 (Arrival client)) s (List.seq k l))) as Hl.
  { induction l as [|l IH]; intros k s Hi Hq; cbn [foldl List.seq].
    { rewrite Nat.add_0_r. split; [done|by left]. }
    rewrite <- Nat.add_succ_comm. apply IH; [|done]. apply push_inv. destruct Hi.
    split; unfold in_flight in *; cbn [app] in *; rewrite ?cnt_cons; cbn [is_arrival is_kv_arrived Z.b2z]; try done; [|lia].
    unfold waiting_clients in *. cbn [omap list_omap arrival_client app]. rewrite ci_clients0, !Nat2Z.id, seq_S.
    apply Permutation_cons_append. }
  destruct Hc as (_ & _ & H3 & _). specialize (Hl (Z.to_nat (w_concurrency (workload c))) 0%nat s0 Hi0 Hq0).
  cbn [Nat.add] in Hl. rewrite Z2Nat.id in Hl by done. unfold seqZ. rewrite foldl_fmap.
  erewrite foldl_ext; [exact Hl|]. intros s1 i. by rewrite Z.add_0_r, Nat2Z.id.
Qed.

(** What the loop returns is a reachable state, perhaps without the event that
    lies beyond the horizon. *)
Lemma run_loop_reach fuel : forall s s', run_loop fuel s = Some s' ->
  exists s1, rtc sim_step s s1 /\ (s' = s1 \/ exists h, s' = set_heap s1 h (seq s1)).
Proof.
  induction fuel as [|fuel IH]; intros s s'; cbn [run_loop]; [done|].
  destruct (heap_pop (heap s)) as [[ev rest]|] eqn:Hpop.
  2: { intros [= <-]. exists s. split; [apply rtc_refl|by left]. }
  destruct (fgt _ _).
  { intros [= <-]. exists s. split; [apply rtc_refl|right; by eexists]. }
  destruct (handle _ _) as [s2|] eqn:Hh; cbn [mbind option_bind]; [|done].
  intros H. destruct (IH _ _ H) as (s1 & Hr & Hs). exists s1. split; [|done].
  eapply rtc_l; [by econstructor|done].
Qed.

Lemma reachable_inv c s : config_ok c -> rtc sim_step (start (sim_new c)) s ->
  sim_inv c (w_concurrency (workload c)) s.
Proof.
  intros Hc Hr. pose proof (start_inv c Hc) as Hi. induction Hr as [s|s1 s2 s3 Hs _ IH]; [done|].
  apply IH. by eapply sim_step_inv.
Qed.

(** The report adds up: a run that ends issued exactly the requests it
    completed and those still in flight, of which there are at most as many as
    clients. *)
Lemma loop_accounts c fuel s : config_ok c -> run_loop fuel (start (sim_new c)) = Some s ->
  0 <= issued s - Z.of_nat (length (outcomes s)) <= w_concurrency (workload c).
Proof.
  intros Hc Hl. destruct (run_loop_reach _ _ _ Hl) as (s1 & Hr & Hs).
  destruct (reachable_inv c s1 Hc Hr) as [[] _].
  assert (issued s = issued s1 /\ outcomes s = outcomes s1) as [-> ->] by (by destruct Hs as [->|[h ->]]).
  pose proof (cnt_nonneg is_arrival (in_flight [] s1)). lia.
Qed.

(** ** Theorems *)

(** C4. The simulator's bookkeeping never drifts.  In every state reachable from
    the start of a configuration whose lengths are not negative, each of its
    clients, counted from 0, has exactly one request in flight or one arrival
    scheduled, never both, and there is none for anyone else; a worker is busy
    (prefill) or stepping (decode) exactly when one event of its own is
    scheduled; the transfers in progress are those with an arrival scheduled, no
    more than there are buffers, and none waits while a buffer is free; and no
    decode worker hands out more pages than it has. *)
Theorem sim_reachable_inv (c : Config) (s : Simulator) :
  config_ok c -> rtc sim_step (start (sim_new c)) s -> sim_inv c (w_concurrency (workload c)) s.
Proof. apply reachable_inv. Qed.

(** A run that ends issued exactly the requests it completed and those still
    in flight, of which there are at most as many as clients. *)
Theorem run_accounts (c : Config) (fuel : nat) (r : SimReport) :
  config_ok c -> run fuel (sim_new c) = Some r ->
  0 <= requests_issued (diagnostics r) - Z.of_nat (requests_completed (diagnostics r))
    <= w_concurrency (workload c).
Proof.
  intros Hc. unfold run. destruct (run_loop fuel _) as [s|] eqn:Hl; cbn [mbind option_bind]; [|done].
  intros [= <-]. by apply (loop_accounts c fuel s Hc).
Qed.

(** Events fire in order: the event taken from the heap is the earliest,
    and among simultaneous ones the first scheduled; nothing is lost. *)
Theorem events_fire_in_order (h rest : list Scheduled) (ev : Scheduled) :
  heap_pop h = Some (ev, rest) ->
  h ≡ₚ ev :: rest /\
  Forall (fun e => total_key (at_ms ev) < total_key (at_ms e) \/
                   total_key (at_ms ev) = total_key (at_ms e) /\ ev_seq ev <= ev_seq e) rest.
Proof.
  intros Hp. destruct (heap_pop_spec _ _ _ Hp) as [H1 H2]. split; [done|].
  eapply Forall_impl; [exact H2|]. intros e He.
  unfold cmp_le, cmp_scheduled, cmp_rev, cmp_then, then_cmp, cmp_on in He.
  destruct (Z.compare_spec (total_key (at_ms ev)) (total_key (at_ms e))) as [E|E|E]; [right|by left|done].
  split; [done|]. apply Z.compare_ngt_iff in He. lia.
Qed.

Definition config_small : Config :=
  mkConfig model_config_default
    (mkWorkload 16 3 2 16384 4608 f0 (dec 2 1) (dec 1 1) 2026 true)
    (mkTopology 16 1 4 1 4 (of_Z 131) f1 (of_Z 12)) scheduler_default kv_default
    EngineConf.engine_default calibration_default slo_default.

Lemma config_small_ok : config_ok config_small.
Proof. vm_compute. repeat split; discriminate. Qed.

Lemma sim_reachable_inv_witness : sim_inv config_small 2 (start (sim_new config_small)).
Proof. exact (sim_reachable_inv config_small _ config_small_ok (rtc_refl _ _)). Defined.

Lemma run_accounts_witness :
  exists r, run 100 (sim_new config_small) = Some r /\ requests_completed (diagnostics r) = 5%nat /\
    requests_issued (diagnostics r) - 5 <= 2.
Proof.
  destruct (run 100 (sim_new config_small)) as [r|] eqn:E; [|vm_compute in E; discriminate].
  exists r. split; [reflexivity|].
  assert (match run 100 (sim_new config_small) with
          | Some r => requests_completed (diagnostics r) | None => 0%nat end = 5%nat) as H5 by (vm_compute; reflexivity).
  rewrite E in H5. split; [exact H5|].
  pose proof (run_accounts config_small 100 r config_small_ok E) as [_ H]. rewrite H5 in H. exact H.
Defined.

Lemma events_fire_in_order_witness :
  let a := mkScheduled f1 1 (Arrival 0) in let b := mkScheduled f0 2 (DecodeStep 0) in
  let d := mkScheduled f0 3 (PrefillDone 0) in
  heap_pop [a; b; d] = Some (b, [a; d]) /\ [a; b; d] ≡ₚ [b; a; d].
Proof.
  intros a b d. assert (heap_pop [a; b; d] = Some (b, [a; d])) as H by reflexivity.
  split; [exact H|]. apply (events_fire_in_order _ _ _ H).
Defined.
End Simulation.
