(* ===== verification/SimTime.v ===== *)
(** * Times of a simulation ([crates/sim/src/sim.rs], [crates/engine/src/cost.rs])

    The configurations whose derived times are numbers, and what the cost
    curves then yield: batches that end no earlier than they start, and decode
    steps of at least a millisecond that end at a finite time. *)

From Stdlib Require Import ZArith Lia SpecFloat.
From stdpp Require Import base option list numbers gmap strings.
From S2P Require Import Prelude F64 F64Int Clock Core Policy Prefill Controller Decode Pool.
From S2P Require Import Radix Router Capacity Engine Config Sim.

Module Timing.
Import Deployment Simulation.
Local Open Scope Z_scope.

(** ** The configurations considered *)

Definition prefill_curve (c : Config) : Mock.PrefillCurve :=
  Mock.for_worker (cal_prefill (calibration c)) (prefill_tp (topology c)) (prefill_tp (topology c)).

Definition decode_curve (c : Config) : Mock.DecodeCurve :=
  Mock.from_calibration (cal_decode (calibration c)) (decode_tp (topology c)).

(** The end of the simulated span, as [run] computes it. *)
Definition horizon (c : Config) : f64 :=
  let w := workload c in
  fadd (fadd (fmul (warmup_s w) (of_Z 1000)) (fmul (benchmark_s w) (of_Z 1000))) (fmul (grace_s w) (of_Z 1000)).

(** Slopes up to about a quarter of an hour per sequence. *)
Definition slope_limit : f64 := of_Z (2 ^ 20).

(** A configuration with workers, 32-bit lengths, and a calibration from which
    times can be computed. *)
Record runnable (c : Config) : Prop := {
  rn_ok : config_ok c;
  rn_prefill : 1 <= prefill_workers (topology c);
  rn_decode : 1 <= decode_workers (topology c);
  rn_clients : w_concurrency (workload c) <= u32_max;
  rn_limit_seqs : fle (of_Z 8) (of_Z (max_decode_seqs (scheduler c))) = true;
  rn_chunk : 0 <= chunked_prefill_tokens (scheduler c) <= u32_max;
  rn_rate : instant (Mock.tokens_per_ms (prefill_curve c)) /\ flt f0 (Mock.tokens_per_ms (prefill_curve c)) = true;
  rn_overhead : instant (Mock.overhead_ms (prefill_curve c));
  rn_slope : moment (Mock.slope_ms (decode_curve c));
  rn_slope_limit : fle (Mock.slope_ms (decode_curve c)) slope_limit = true;
  rn_transfer : instant (kv_transfer_ms c);
  rn_horizon : moment (horizon c);
  rn_limit : fle (horizon c) (of_Z (2 ^ 51)) = true
}.

(** ** Times computed from the curves *)

Lemma fmul_instant x y : instant x -> moment y -> 0 < ival y -> instant (fmul x y).
Proof.
  intros Hx Hy Hp. destruct (is_finite x) eqn:Fx.
  - destruct Hx as (Vx & Nx & Zx), Hy as [(Vy & Ny & Zy) Fy].
    pose proof (fmul_faithful x y Vx Vy Fx Fy) as Hf. split; [apply Hf|]. split; [apply Hf|].
    apply (fle_ival f0 x) in Zx; [|done..]. change (ival f0) with 0 in Zx.
    eapply faithful_fge; [exact Hf|done|done|]. change (ival f0) with 0. nia.
  - rewrite (infinite_instant x Hx Fx). by destruct (positive_moment y Hy Hp) as (m & e & ->).
Qed.

Lemma fmul_grow x y : instant x -> moment y -> fle f1 y = true -> fle x (fmul x y) = true.
Proof.
  intros Hx Hy H1. apply (instant_le f1 y (instant_of_Z 1 ltac:(lia)) (moment_instant _ Hy)) in H1.
  change (ival f1) with (2 ^ 1074) in H1. destruct (is_finite x) eqn:Fx.
  - pose proof (instant_ival x Hx). destruct Hx as (Vx & Nx & Zx), Hy as [(Vy & Ny & Zy) Fy].
    eapply faithful_fge; [exact (fmul_faithful x y Vx Vy Fx Fy)|done|done|nia].
  - rewrite (infinite_instant x Hx Fx). pose proof ms_pos.
    by destruct (positive_moment y Hy ltac:(lia)) as (m & e & ->).
Qed.

Lemma fdiv_instant x y : moment x -> 0 < ival x -> instant y -> 0 < ival y -> instant (fdiv x y).
Proof.
  intros Hx Hp Hy Hpy. destruct (is_finite y) eqn:Fy.
  - destruct Hx as [(Vx & Nx & Zx) Fx], Hy as (Vy & Ny & Zy).
    pose proof (fdiv_faithful x y Vx Vy Fx Fy ltac:(lia)) as Hf. split; [apply Hf|]. split; [apply Hf|].
    eapply faithful_fge; [exact Hf|done|done|]. change (ival f0) with 0. rewrite Z.sgn_pos by lia.
    pose proof ms_pos. nia.
  - rewrite (infinite_instant y Hy Fy). by destruct (positive_moment x Hx Hp) as (m & e & ->).
Qed.

(** The factor by which sharing a batch speeds prefill up. *)
Definition gain (k : Z) : f64 :=
  fadd f1 (fmul (dec 116 3) (fdiv (fsub (of_Z k) f1) (fmax (fsub (of_Z 5) f1) f1))).

Lemma gain_ok k : 1 <= k <= 5 -> moment (gain k) /\ fle f1 (gain k) = true.
Proof.
  intros H. assert (k = 1 \/ k = 2 \/ k = 3 \/ k = 4 \/ k = 5) as Hk by lia.
  destruct Hk as [->|[->|[->|[->| ->]]]]; repeat split; vm_compute; reflexivity.
Qed.

Lemma rate_gain c n : exists k, 1 <= k <= 5 /\
  Mock.rate_at (prefill_curve c) n = fmul (Mock.tokens_per_ms (prefill_curve c)) (gain k).
Proof.
  unfold Mock.rate_at. cbn [prefill_curve Mock.for_worker Mock.multiseq_saturation Mock.multiseq_gain Mock.tokens_per_ms].
  set (m := Z.max n 1). assert (1 <= m) as Hm by lia.
  assert (exists k, 1 <= k <= 5 /\ fmin (of_Z m) (of_Z 5) = of_Z k) as (k & Hk & ->).
  { destruct (Z.le_gt_cases m 5) as [H|H].
    - exists m. split; [lia|]. destruct (fmin_spec (of_Z m) (of_Z 5)) as ([->|E] & Hl & _);
        [apply of_Z_not_nan..|done|].
      rewrite E in Hl. apply of_Z_le in Hl; [|lia..]. rewrite E. f_equal. lia.
    - exists 5. split; [lia|]. unfold fmin. rewrite !of_Z_not_nan.
      assert (flt (of_Z 5) (of_Z m) = true) as ->; [|done].
      apply (flt_le_trans _ (of_Z 6)); [by apply of_Z_lt|].
      eapply faithful_fge; [apply of_Z_faithful|apply of_Z_valid|apply of_Z_not_nan|].
      rewrite of_Z_ival by done. pose proof ms_pos. nia. }
  by exists k.
Qed.

Section run.
Context (c : Config) (Hc : runnable c).

Lemma batch_ms_instant tokens n : 0 < tokens <= u32_max ->
  instant (Mock.batch_ms (prefill_curve c) tokens n).
Proof.
  intros Ht. unfold Mock.batch_ms. rewrite (proj2 (Z.eqb_neq tokens 0)) by lia.
  destruct (rate_gain c n) as (k & Hk & ->). destruct (gain_ok k Hk) as [Hg H1].
  destruct (rn_rate c Hc) as [Hr Hp]. apply (instant_lt f0 _ (moment_instant _ moment_0) Hr) in Hp.
  change (ival f0) with 0 in Hp.
  assert (0 < ival (gain k)) as Hg0.
  { apply (instant_le f1 _ (instant_of_Z 1 ltac:(lia)) (moment_instant _ Hg)) in H1.
    change (ival f1) with (2 ^ 1074) in H1. pose proof ms_pos. lia. }
  pose proof (fmul_instant _ _ Hr Hg Hg0) as Hm.
  pose proof (fmul_grow _ _ Hr Hg H1) as Hle. apply instant_le in Hle; [|done..].
  assert (Z.abs tokens <= 2 ^ 53) as Hs by (unfold u32_max in Ht; lia).
  assert (instant (fdiv (of_Z tokens) (fmul (Mock.tokens_per_ms (prefill_curve c)) (gain k)))) as Hd.
  { apply fdiv_instant; [split; [apply instant_of_Z; lia|by apply of_Z_finite]| |done|lia].
    rewrite of_Z_ival by done. pose proof ms_pos. nia. }
  pose proof (rn_overhead c Hc) as Ho. destruct (is_finite (Mock.overhead_ms (prefill_curve c))) eqn:Fo.
  - by apply instant_add.
  - rewrite (infinite_instant _ Ho Fo). set (d := fdiv _ _) in *.
    destruct Hd as (_ & Nd & Zd).
    assert (fadd INFINITY d = INFINITY) as -> by (clearbody d; destruct d as [s|[]| |s m e]; done). done.
Qed.

(** A decode step takes at least the twelve milliseconds of the curve's base
    and, within the limits on the slope, ends at a finite time. *)
Lemma step_ms_ok k : 0 < k <= u32_max ->
  let d := Mock.curve_step_ms (decode_curve c) k in
  moment d /\ fle f1 d = true /\ ival d <= 2 ^ (53 + 1074).
Proof.
  intros Hk d. unfold d, Mock.curve_step_ms.
  cbn [decode_curve Mock.from_calibration Mock.from_point Mock.knee Mock.base_ms].
  assert (fle (of_Z k) INFINITY = true) as ->.
  { assert (is_finite (of_Z k) = true) as F by (apply of_Z_finite; unfold small, u32_max in *; lia).
    destruct (of_Z k) as [s|s| |s m e]; done. }
  change (Mock.slope_ms _) with (Mock.slope_ms (decode_curve c)).
  set (sl := Mock.slope_ms (decode_curve c)).
  assert (moment sl) as Hsl by apply (rn_slope c Hc).
  assert (fle sl slope_limit = true) as Hlim by apply (rn_slope_limit c Hc). clearbody sl.
  assert (Z.abs k <= 2 ^ 53) as Hs by (unfold u32_max in Hk; lia).
  assert (moment (of_Z k)) as Hok by (split; [apply instant_of_Z; lia|by apply of_Z_finite]).
  assert (0 < ival (of_Z k)) as Hkp by (rewrite of_Z_ival by done; pose proof ms_pos; nia).
  pose proof (fmul_instant sl (of_Z k) (moment_instant _ Hsl) Hok Hkp) as Hm.
  assert (fle (fmul sl (of_Z k)) (of_Z (2 ^ 52)) = true) as Hmle.
  { destruct Hsl as [(Vs & Ns & Zs) Fs]. destruct Hok as [(Vk & Nk & Zk) Fk].
    eapply faithful_fle; [exact (fmul_faithful sl (of_Z k) Vs Vk Fs Fk)|apply of_Z_valid|apply of_Z_not_nan|].
    apply (fle_ival sl slope_limit) in Hlim; [|done|apply of_Z_valid|done|apply of_Z_not_nan].
    unfold slope_limit in Hlim. rewrite of_Z_ival in Hlim by done.
    apply (fle_ival f0 sl) in Zs; [|done..]. change (ival f0) with 0 in Zs.
    rewrite !of_Z_ival by done. pose proof ms_pos. unfold u32_max in Hk.
    assert (ival sl * (k * 2 ^ 1074) <= (2 ^ 20 * 2 ^ 1074) * (2 ^ 32 * 2 ^ 1074)); [|lia].
    apply Z.mul_le_mono_nonneg; nia. }
  assert (moment (fmul sl (of_Z k))) as Hmm.
  { split; [done|]. eapply finite_le; [done| |exact Hmle|by apply of_Z_finite]. apply instant_of_Z. lia. }
  apply instant_le in Hmle; [|done|apply instant_of_Z; lia]. rewrite of_Z_ival in Hmle by done.
  assert (moment (of_Z 12)) as H12 by (split; [apply instant_of_Z; lia|done]).
  destruct (instant_add (of_Z 12) (fmul sl (of_Z k)) H12 Hm) as [Ha Hge].
  pose proof (instant_ival _ Hm) as Hm0.
  assert (ival (of_Z 12) = 12 * 2 ^ 1074) as E12 by (by apply of_Z_ival).
  assert (moment (fadd (of_Z 12) (fmul sl (of_Z k)))) as Hmom.
  { apply (moment_add _ _ 53); [done|done|lia|]. rewrite E12, (pow2_split 53 1074) by lia. pose proof ms_pos. nia. }
  split; [done|]. split.
  - apply (fle_trans _ (of_Z 12)); [by apply of_Z_le|done].
  - destruct H12 as [(V12 & N12 & _) F12]. destruct Hmm as [(Vm & Nm & _) Fm].
    pose proof (fadd_faithful (of_Z 12) (fmul sl (of_Z k)) V12 Vm F12 Fm) as (_ & _ & Hf).
    rewrite <- Z.mul_1_l at 1. replace (2 ^ (53 + 1074)) with (ival (of_Z (2 ^ 53))).
    + pose proof (faithful_fle _ _ _ (of_Z (2 ^ 53)) (fadd_faithful _ _ V12 Vm F12 Fm)
        (of_Z_valid _) (of_Z_not_nan _)) as Hle.
      rewrite Z.mul_1_l. apply instant_le; [done|apply instant_of_Z; lia|]. apply Hle.
      rewrite E12, of_Z_ival by done. pose proof ms_pos. nia.
    + rewrite of_Z_ival by done. by rewrite pow2_split by lia.
Qed.
End run.

(** ** Costs that can be slept

    On the wall clock a mock engine sleeps for what it computes, and panics on
    what is not a duration ([crates/engine/src/mock.rs]). *)

Definition capped (x : f64) (k : Z) : Prop := moment x /\ ival x <= 2 ^ k * 2 ^ 1074.

Lemma of_Z_pow2 k : 0 <= k <= 1000 -> ival (of_Z (2 ^ k)) = 2 ^ k * 2 ^ 1074.
Proof.
  intros Hk. destruct (of_Z_faithful (2 ^ k)) as (_ & _ & Hf).
  assert (grid (2 ^ k * 2 ^ 1074)) as Hg.
  { split.
    - exists 1, k. split; [lia|]. split; [lia|]. rewrite pow2_split by lia. lia.
    - rewrite <- pow2_split by lia. rewrite Z.abs_eq by (apply Z.pow_nonneg; lia). apply pow2_mono. lia. }
  destruct (Hf _ Hg) as [H1 H2]. lia.
Qed.

Lemma of_Z_pow2_finite k : 0 <= k <= 1000 -> is_finite (of_Z (2 ^ k)) = true.
Proof.
  intros Hk. pose proof (of_Z_pow2 k Hk) as E. pose proof (of_Z_not_nan (2 ^ k)) as Hn.
  destruct (of_Z (2 ^ k)) as [s|s| |s m e]; try done. exfalso. revert E. rewrite <- pow2_split by lia.
  pose proof (pow2_mono (k + 1074) 2074 ltac:(lia)). pose proof (pow2_pos (k + 1074) ltac:(lia)).
  assert (2 ^ 2074 < 2 ^ 2098) by (apply Z.pow_lt_mono_r; lia). destruct s; cbn [ival signed]; lia.
Qed.

Lemma capped_faithful r num den k : faithful r num den -> 0 <= num -> 0 < den -> 0 <= k <= 1000 ->
  num <= den * (2 ^ k * 2 ^ 1074) -> capped r k.
Proof.
  intros Hf Hn Hd Hk Hle. pose proof Hf as (V & N & _).
  assert (instant r) as Hi.
  { split; [done|]. split; [done|]. eapply faithful_fge; [exact Hf|done|done|]. change (ival f0) with 0. lia. }
  assert (fle r (of_Z (2 ^ k)) = true) as H.
  { eapply faithful_fle; [exact Hf|apply of_Z_valid|apply of_Z_not_nan|]. by rewrite of_Z_pow2. }
  assert (instant (of_Z (2 ^ k))) as Hp by (apply instant_of_Z, Z.pow_nonneg; lia).
  split; [split; [done|]|].
  - eapply finite_le; [done|exact Hp|done|by apply of_Z_pow2_finite].
  - apply instant_le in H; [|done..]. by rewrite of_Z_pow2 in H.
Qed.

Lemma capped_of_Z n k : 0 <= n <= 2 ^ k -> 0 <= k <= 1000 -> capped (of_Z n) k.
Proof.
  intros Hn Hk. pose proof ms_pos. apply (capped_faithful _ _ _ k (of_Z_faithful n)); [nia|lia|done|].
  rewrite Z.mul_1_l. apply Z.mul_le_mono_nonneg_r; lia.
Qed.

Lemma capped_zero s k : 0 <= k -> capped (S754_zero s) k.
Proof. intros Hk. split; [done|]. pose proof ms_pos. pose proof (pow2_pos k Hk). cbn [ival]. nia. Qed.

Lemma capped_le x k : instant x -> 0 <= k <= 1000 -> fle x (of_Z (2 ^ k)) = true -> capped x k.
Proof.
  intros Hx Hk H. assert (instant (of_Z (2 ^ k))) as Hp by (apply instant_of_Z, Z.pow_nonneg; lia). split; [split; [done|]|].
  - eapply finite_le; [done|exact Hp|done|by apply of_Z_pow2_finite].
  - apply instant_le in H; [|done..]. by rewrite of_Z_pow2 in H.
Qed.

Lemma capped_add x y k : capped x k -> capped y k -> 0 <= k <= 999 -> capped (fadd x y) (k + 1).
Proof.
  intros [[Hx Fx] Bx] [[Hy Fy] By] Hk. pose proof (instant_ival x Hx). pose proof (instant_ival y Hy).
  apply (capped_faithful _ _ _ (k + 1) (fadd_faithful x y (proj1 Hx) (proj1 Hy) Fx Fy)); [lia..|].
  rewrite (pow2_split k 1) by lia. lia.
Qed.

Lemma capped_mul x y j k : capped x j -> capped y k -> 0 <= j <= 500 -> 0 <= k <= 500 -> capped (fmul x y) (j + k).
Proof.
  intros [[Hx Fx] Bx] [[Hy Fy] By] Hj Hk. pose proof (instant_ival x Hx). pose proof (instant_ival y Hy).
  pose proof ms_pos. pose proof (pow2_pos j ltac:(lia)). pose proof (pow2_pos k ltac:(lia)).
  apply (capped_faithful _ _ _ (j + k) (fmul_faithful x y (proj1 Hx) (proj1 Hy) Fx Fy)); [nia|lia|lia|].
  rewrite (pow2_split j k) by lia.
  assert (ival x * ival y <= (2 ^ j * 2 ^ 1074) * (2 ^ k * 2 ^ 1074)); [|lia].
  by apply Z.mul_le_mono_nonneg.
Qed.

(** Dividing by at least 2^d. *)
Lemma capped_div x y d k : capped x k -> instant y -> 0 <= d -> 2 ^ d * 2 ^ 1074 <= ival y -> d <= k <= 1000 ->
  capped (fdiv x y) (k - d).
Proof.
  intros [[Hx Fx] Bx] Hy Hd Hp Hk. pose proof ms_pos. pose proof (pow2_pos d Hd). pose proof (instant_ival x Hx).
  destruct (is_finite y) eqn:Fy.
  - apply (capped_faithful _ _ _ (k - d) (fdiv_faithful x y (proj1 Hx) (proj1 Hy) Fx Fy ltac:(nia)));
      [rewrite Z.sgn_pos by nia; nia|nia|lia|].
    rewrite Z.sgn_pos, Z.abs_eq, Z.mul_1_r by nia.
    assert (2 ^ k = 2 ^ d * 2 ^ (k - d)) as Ek by (rewrite <- pow2_split by lia; f_equal; lia).
    pose proof (pow2_pos (k - d) ltac:(lia)). rewrite Ek in Bx.
    assert (ival x * 2 ^ 1074 <= (2 ^ d * 2 ^ 1074) * (2 ^ (k - d) * 2 ^ 1074)) as Hx1 by nia.
    etrans; [exact Hx1|]. apply Z.mul_le_mono_nonneg_r; [nia|exact Hp].
  - rewrite (infinite_instant y Hy Fy). destruct x as [s|s| |s m e]; try done; apply capped_zero; lia.
Qed.

Lemma capped_spend ms : capped ms 72 -> is_Some (Mock.spend Mock.Wall ms).
Proof.
  intros H. unfold Mock.spend. destruct (fgt ms f0); [|by eexists].
  assert (instant (of_Z 1000)) as Hk by (apply instant_of_Z; lia).
  assert (capped (fdiv ms (of_Z 1000)) 63) as [[Hi Fi] Hb].
  { apply (capped_div ms (of_Z 1000) 9 72 H Hk); [lia| |lia]. rewrite of_Z_ival by done. pose proof ms_pos. lia. }
  unfold Mock.duration_from_secs. rewrite (proj2 (proj2 Hi)).
  assert (flt (fdiv ms (of_Z 1000)) (of_Z (2 ^ 64)) = true) as ->; [|by eexists].
  apply instant_lt; [done|by apply instant_of_Z|]. rewrite of_Z_pow2 by lia.
  pose proof ms_pos. assert (2 ^ 63 * 2 ^ 1074 < 2 ^ 64 * 2 ^ 1074) by (apply Z.mul_lt_mono_pos_r; lia). lia.
Qed.

(** Calibrations under which no cost is too long for a sleep: a prefill rate of
    at least a token per millisecond, an overhead below 2^64 milliseconds, and
    at most 128 milliseconds for each sequence of a step. *)
Record sleepable (c : Config) : Prop := {
  sl_rate : instant (Mock.tokens_per_ms (prefill_curve c)) /\ fle f1 (Mock.tokens_per_ms (prefill_curve c)) = true;
  sl_overhead : instant (Mock.overhead_ms (prefill_curve c)) /\
    fle (Mock.overhead_ms (prefill_curve c)) (of_Z (2 ^ 64)) = true;
  sl_slope : instant (Mock.slope_ms (decode_curve c)) /\ fle (Mock.slope_ms (decode_curve c)) (of_Z (2 ^ 7)) = true
}.

Lemma sleepable_sleeps c transfer : sleepable c -> Mock.sleeps (Mock.mkCost (prefill_curve c) (decode_curve c) transfer).
Proof.
  intros [[Hr1 Hr2] [Ho1 Ho2] [Hs1 Hs2]]. unfold Mock.sleeps, u64_max. split; cbn [Mock.cost_prefill Mock.cost_decode].
  - intros tokens n Ht. apply capped_spend. unfold Mock.batch_ms.
    destruct (Z.eqb_spec tokens 0); [by apply capped_zero|].
    destruct (rate_gain c n) as (k & Hk & ->). destruct (gain_ok k Hk) as [Hg H1].
    assert (0 < ival (gain k)) as Hg0.
    { apply (instant_le f1 _ (instant_of_Z 1 ltac:(lia)) (moment_instant _ Hg)) in H1.
      change (ival f1) with (2 ^ 1074) in H1. pose proof ms_pos. lia. }
    pose proof (fmul_instant _ _ Hr1 Hg Hg0) as Hm.
    pose proof (fle_trans _ _ _ Hr2 (fmul_grow _ _ Hr1 Hg H1)) as Hge.
    apply (instant_le f1) in Hge; [|by apply instant_of_Z|done]. change (ival f1) with (2 ^ 1074) in Hge.
    destruct (capped_add (Mock.overhead_ms (prefill_curve c))
      (fdiv (of_Z tokens) (fmul (Mock.tokens_per_ms (prefill_curve c)) (gain k))) 64) as [Hm1 Hb1]; [by apply capped_le| |lia|].
    + apply (capped_div _ _ 0 64); [apply capped_of_Z; lia|done|lia|by rewrite Z.pow_0_r, Z.mul_1_l|lia].
    + split; [done|]. etrans; [exact Hb1|]. pose proof ms_pos. apply Z.mul_le_mono_nonneg_r; [lia|]. by apply pow2_mono.
  - intros n Hn. apply capped_spend. unfold Mock.curve_step_ms.
    cbn [decode_curve Mock.from_calibration Mock.from_point Mock.knee Mock.base_ms].
    pose proof (capped_of_Z n 64 ltac:(lia) ltac:(lia)) as Hcn.
    assert (fle (of_Z n) INFINITY = true) as -> by (destruct Hcn as [[_ F] _]; destruct (of_Z n) as [s|s| |s m e]; done).
    change (Mock.slope_ms _) with (Mock.slope_ms (decode_curve c)).
    pose proof (capped_mul _ _ 7 64 (capped_le _ 7 Hs1 ltac:(lia) Hs2) Hcn ltac:(lia) ltac:(lia)) as Hm.
    apply (capped_add _ _ 71); [apply capped_of_Z; lia|exact Hm|lia].
Qed.
End Timing.
