(* ===== verification/SimLive.v ===== *)
(** * The simulator always ends with a report ([crates/sim/src/sim.rs])

    For a runnable configuration no handler reaches a panic ([expect], an index,
    a missing worker) in any state of a run, and the run ends: every event pays
    for the events it causes out of a potential that the advancing clock
    bounds. *)

From Stdlib Require Import ZArith Lia SpecFloat.
From stdpp Require Import base option list numbers gmap strings.
From S2P Require Import Prelude F64 F64Int Clock Core Policy Prefill Controller Decode Pool.
From S2P Require Import Radix Router Capacity Engine Config Sim SimTime.

Module Live.
Import Deployment Simulation Timing.
Local Open Scope Z_scope.

Section run.
Context (c : Config) (Hc : runnable c).

(** ** Where a request is

    Every request of [reqs] is in exactly one place: the queue of a prefill
    worker, the transfer queue, an arrival in flight, or the pending queue or
    the running batch of a decode worker.  [y] lists the requests a handler has
    taken from one place and not yet put in the next. *)

Definition at_prefill (id : Z) (p : PrefillWorkerSim) : Z := has (Sched.queue (ps_sched p)) id.
Definition at_event (id : Z) (e : Event) : Z :=
  match e with KvArrived i _ => is_id id i | _ => 0 end.
Definition at_decode (id : Z) (d : DecodeWorkerSim) : Z :=
  zsum (is_id id) (ds_pending d) + has (Decoder.running (ds_sched d)) id.

Definition places (id : Z) (y : list Z) (x : list Event) (s : Simulator) : Z :=
  zsum (at_prefill id) (prefill_ws s) + zsum (fun q => is_id id q.1) (xfer_queue s) +
  zsum (at_event id) (in_flight x s) + zsum (at_decode id) (decode_ws s) + zsum (is_id id) y.

(** ** What holds between two events *)

Definition workers_p : nat := Z.to_nat (prefill_workers (topology c)).
Definition workers_d : nat := Z.to_nat (decode_workers (topology c)).

Definition event_ok (e : Event) : Prop :=
  match e with
  | Arrival _ => True
  | PrefillDone w => (w < workers_p)%nat
  | KvArrived _ w | DecodeStep w => (w < workers_d)%nat
  end.

Record registry_ok (r : Routing.WorkerRegistry) : Prop := {
  rg_keys : Routing.reg_inv r;
  rg_ids : forall id w, Routing.reg_workers r !! id = Some w -> Routing.healthy w = true /\
    match Routing.role w with
    | Routing.Prefill => 0 <= id < prefill_workers (topology c)
    | Routing.Decode => DECODE_ID_BASE <= id < DECODE_ID_BASE + decode_workers (topology c)
    end;
  rg_prefill : exists w, Routing.reg_workers r !! 0 = Some w /\ Routing.role w = Routing.Prefill;
  rg_decode : exists w, Routing.reg_workers r !! DECODE_ID_BASE = Some w /\ Routing.role w = Routing.Decode;
  rg_stale : Routing.stale_after_ms r = of_Z 60000
}.

Definition batch_ok (q : gmap Z Sched.PendingPrefill) (b : Sched.PrefillBatch) : Prop :=
  Sched.chunks b <> [] /\ Forall (Sched.chunk_ok q) (Sched.chunks b) /\ NoDup (map Sched.cid (Sched.chunks b)).

Record prefill_ok (p : PrefillWorkerSim) : Prop := {
  po_sched : Sched.sched_inv (ps_sched p);
  po_budget : Sched.chunk_tokens (Sched.tuning (ps_sched p)) = chunked_prefill_tokens (scheduler c);
  po_curve : ps_curve p = prefill_curve c;
  po_batch : forall b t, ps_batch p = Some (b, t) -> batch_ok (Sched.queue (ps_sched p)) b
}.

Record decode_ok (d : DecodeWorkerSim) : Prop := {
  do_sched : Decoder.dec_inv (ds_sched d);
  do_curve : ds_curve d = decode_curve c;
  do_times : forall id q, Decoder.running (ds_sched d) !! id = Some q ->
    moment (Decoder.seq_last_ms q) /\ moment (Decoder.admitted_ms q)
}.

Record live (y : list Z) (x : list Event) (s : Simulator) : Prop := {
  l_core : core_inv c (w_concurrency (workload c)) x s;
  l_now : moment (now s);
  l_horizon : horizon_ms s = horizon c;
  l_limit : fle (now s) (horizon c) = true;
  l_prefill_len : length (prefill_ws s) = workers_p;
  l_decode_len : length (decode_ws s) = workers_d;
  l_registry : registry_ok (Routing.registry (router s));
  l_index : Trie.index_inv (Routing.prefix_index (router s));
  l_prefill : Forall prefill_ok (prefill_ws s);
  l_decode : Forall decode_ok (decode_ws s);
  l_places : forall id, places id y x s = has (reqs s) id;
  l_started : forall id r, reqs s !! id = Some r ->
    0 < zsum (at_prefill id) (prefill_ws s) \/ id ∈ y \/ exists t, rq_first_token_ms r = Some t /\ moment t;
  l_reqs : forall id r, reqs s !! id = Some r ->
    (rq_decode_worker r < workers_d)%nat /\ moment (rq_arrival_ms r) /\ fle (rq_arrival_ms r) (now s) = true;
  l_xfer : Forall (fun q => (q.2 < workers_d)%nat) (xfer_queue s);
  l_taken : Forall event_ok x;
  l_heap : Forall (fun e => event_ok (event e) /\ instant (at_ms e) /\ fle (now s) (at_ms e) = true) (heap s)
}.

(** ** The potential

    Milliseconds left before the end of the span; what an event or a request
    may still cause. *)

Definition ends : Z := tick (horizon c) + 1.
Definition left_at (t : f64) : Z := Z.max 0 (ends - tick t).
Definition handoff : Z := ends + 3.
Definition life : Z := w_isl (workload c) + handoff + 2.

Definition pot_event (e : Event) (t : f64) : Z :=
  match e with
  | Arrival _ => life * (left_at t + 1)
  | PrefillDone _ => 0
  | KvArrived _ _ => handoff
  | DecodeStep _ => left_at t + 1
  end.

Definition pot_queue (q : gmap Z Sched.PendingPrefill) : Z :=
  Sched.total_remaining q + (handoff + 1) * Z.of_nat (size q).

Definition pot_reqs (m : gmap Z ReqState) : Z :=
  map_fold (fun _ r n => life * left_at (rq_arrival_ms r) + n) 0 m.

Definition pot (s : Simulator) : Z :=
  zsum (fun e => pot_event (event e) (at_ms e)) (heap s) +
  zsum (fun p => pot_queue (Sched.queue (ps_sched p))) (prefill_ws s) +
  zsum (fun _ => handoff) (xfer_queue s) + pot_reqs (reqs s).
(** *** Counting *)

Lemma at_event_nonneg id e : 0 <= at_event id e.
Proof. destruct e; cbn [at_event]; try done. apply is_id_nonneg. Qed.

Lemma at_decode_nonneg id d : 0 <= at_decode id d.
Proof. unfold at_decode. pose proof (ids_nonneg id (ds_pending d)). pose proof (has_nonneg (Decoder.running (ds_sched d)) id). lia. Qed.

(** Each kind of place holds at most one copy. *)
Lemma places_parts y x s id : live y x s ->
  0 <= zsum (at_prefill id) (prefill_ws s) /\ 0 <= zsum (fun q => is_id id q.1) (xfer_queue s) /\
  0 <= zsum (at_event id) x /\ 0 <= zsum (at_event id) (map event (heap s)) /\
  0 <= zsum (at_decode id) (decode_ws s) /\ 0 <= zsum (is_id id) y /\
  zsum (at_prefill id) (prefill_ws s) + zsum (fun q => is_id id q.1) (xfer_queue s) +
  (zsum (at_event id) x + zsum (at_event id) (map event (heap s))) +
  zsum (at_decode id) (decode_ws s) + zsum (is_id id) y = has (reqs s) id.
Proof.
  intros Hl. rewrite <- (l_places _ _ _ Hl id). unfold places, in_flight. rewrite zsum_app.
  split_and!; try (apply zsum_nonneg; intros;
    first [apply has_nonneg|apply is_id_nonneg|apply at_event_nonneg|apply at_decode_nonneg]). done.
Qed.

(** *** The potential is not negative *)

Lemma ends_pos : 0 < ends.
Proof. unfold ends. pose proof (tick_nonneg (horizon c) (moment_instant _ (rn_horizon c Hc))). lia. Qed.

Lemma left_nonneg t : 0 <= left_at t.
Proof. unfold left_at. lia. Qed.

Lemma life_pos : 0 < life.
Proof. unfold life, handoff. pose proof ends_pos. destruct (rn_ok c Hc) as (Hisl & _). lia. Qed.

Lemma pot_event_nonneg e t : 0 <= pot_event e t.
Proof.
  pose proof life_pos. pose proof (left_nonneg t). pose proof ends_pos. destruct e; cbn [pot_event]; unfold handoff; nia.
Qed.

Lemma pot_reqs_insert m id r : m !! id = None ->
  pot_reqs (<[id := r]> m) = life * left_at (rq_arrival_ms r) + pot_reqs m.
Proof. intros H. unfold pot_reqs. rewrite map_fold_insert_L; [done|intros; lia|done]. Qed.

Lemma pot_reqs_delete m id r : m !! id = Some r ->
  pot_reqs m = life * left_at (rq_arrival_ms r) + pot_reqs (delete id m).
Proof. intros H. unfold pot_reqs. rewrite (map_fold_delete_L _ _ id r m); [done|intros; lia|done]. Qed.

Lemma pot_reqs_replace m id r r' : m !! id = Some r -> rq_arrival_ms r' = rq_arrival_ms r ->
  pot_reqs (<[id := r']> m) = pot_reqs m.
Proof.
  intros H E. rewrite (pot_reqs_delete m id r) by done.
  rewrite (pot_reqs_delete _ id r') by apply lookup_insert_eq. by rewrite delete_insert_eq, E.
Qed.

Lemma pot_reqs_nonneg m : 0 <= pot_reqs m.
Proof.
  induction m as [|id r m Hn IH] using map_ind; [done|]. rewrite pot_reqs_insert by done.
  pose proof life_pos. pose proof (left_nonneg (rq_arrival_ms r)). nia.
Qed.

Lemma remaining_total_nonneg q : 0 <= Sched.total_remaining q.
Proof.
  unfold Sched.total_remaining. induction q as [|id p q Hn IH] using map_ind; [done|].
  rewrite map_fold_insert_L; [|intros; lia|done].
  assert (0 <= Sched.remaining p) by (unfold Sched.remaining, sat_sub; lia). lia.
Qed.

Lemma pot_nonneg s : 0 <= pot s.
Proof.
  pose proof ends_pos. unfold pot.
  pose proof (zsum_nonneg (fun e => pot_event (event e) (at_ms e)) (heap s) ltac:(intros; apply pot_event_nonneg)).
  pose proof (zsum_nonneg (fun _ : RequestId * nat => handoff) (xfer_queue s) ltac:(intros; unfold handoff; lia)).
  pose proof (pot_reqs_nonneg (reqs s)).
  assert (0 <= zsum (fun p => pot_queue (Sched.queue (ps_sched p))) (prefill_ws s)); [|lia].
  apply zsum_nonneg. intros p _. unfold pot_queue. pose proof (remaining_total_nonneg (Sched.queue (ps_sched p))).
  unfold handoff. nia.
Qed.

(** The potential of the time left shrinks as the clock advances. *)
Lemma left_mono a b : instant a -> instant b -> fle a b = true -> left_at b <= left_at a.
Proof. intros Ha Hb H. pose proof (tick_mono a b Ha Hb H). unfold left_at. lia. Qed.

Lemma left_now y x s : live y x s -> 1 <= left_at (now s) <= ends.
Proof.
  intros Hl. pose proof (tick_mono (now s) (horizon c) (moment_instant _ (l_now _ _ _ Hl))
    (moment_instant _ (rn_horizon c Hc)) (l_limit _ _ _ Hl)).
  pose proof (tick_nonneg (now s) (moment_instant _ (l_now _ _ _ Hl))). unfold left_at, ends in *. lia.
Qed.

(** A step of at least a millisecond from now costs a unit of time. *)
Lemma left_step y x s d : live y x s -> instant d -> fle f1 d = true ->
  left_at (fadd (now s) d) + 1 <= left_at (now s).
Proof.
  intros Hl Hd H1. pose proof (left_now _ _ _ Hl) as Hn.
  assert (ival (now s) < clock_limit * 2 ^ 1074) as Hlim.
  { pose proof (l_limit _ _ _ Hl) as H. apply instant_le in H;
      [|apply moment_instant, (l_now _ _ _ Hl)|apply moment_instant, (rn_horizon c Hc)].
    pose proof (rn_limit c Hc) as H2. apply instant_le in H2;
      [|apply moment_instant, (rn_horizon c Hc)|apply instant_of_Z; lia].
    rewrite of_Z_ival in H2 by done. unfold clock_limit. pose proof ms_pos. nia. }
  pose proof (tick_add (now s) d (l_now _ _ _ Hl) Hd Hlim H1). unfold left_at in *. lia.
Qed.
(** ** The handlers' parts

    Each part of a handler has a result, keeps [live], and moves the potential
    as stated. *)

Lemma push_live y x e s t : live y (e :: x) s -> instant t -> fle (now s) t = true ->
  live y x (push s t e) /\ pot (push s t e) = pot s + pot_event e t.
Proof.
  intros Hl Ht Hle. split.
  - pose proof (push_inv _ _ e x s t (l_core _ _ _ Hl)) as Hcore. destruct Hl. apply Forall_cons in l_taken0 as [He Hx].
    split; try done.
    + intros id. change (reqs (push s t e)) with (reqs s). rewrite <- (l_places0 id). unfold places, push, set_heap, in_flight.
      cbn [heap prefill_ws xfer_queue decode_ws map event]. rewrite !zsum_app, !zsum_cons. lia.
    + cbn [push set_heap heap now] in *. constructor; [|done]. cbn [event at_ms]. done.
  - unfold pot, push, set_heap. cbn [heap prefill_ws xfer_queue reqs]. rewrite zsum_cons. cbn [event at_ms]. lia.
Qed.

Lemma pot_set_prefill s w p p' : prefill_ws s !! w = Some p ->
  pot (set_prefill s (<[w := p']> (prefill_ws s))) =
  pot s - pot_queue (Sched.queue (ps_sched p)) + pot_queue (Sched.queue (ps_sched p')).
Proof.
  intros H. unfold pot, set_prefill. cbn [heap prefill_ws xfer_queue reqs].
  rewrite (zsum_insert _ _ _ _ _ H). lia.
Qed.

(** Replacing a prefill worker, while requests move between its queue and the
    ones in hand. *)
Lemma set_prefill_live y y' x x' s w p p' : live y x s -> prefill_ws s !! w = Some p ->
  core_inv c (w_concurrency (workload c)) x' (set_prefill s (<[w := p']> (prefill_ws s))) ->
  Forall event_ok x' -> (forall id, zsum (at_event id) x' = zsum (at_event id) x) ->
  prefill_ok p' ->
  (forall id, at_prefill id p' + zsum (is_id id) y' = at_prefill id p + zsum (is_id id) y) ->
  live y' x' (set_prefill s (<[w := p']> (prefill_ws s))).
Proof.
  intros Hl Hw Hcore Hx' Hxe Hp' Hmove. destruct Hl.
  assert (forall id, zsum (at_prefill id) (<[w := p']> (prefill_ws s)) + zsum (is_id id) y' =
    zsum (at_prefill id) (prefill_ws s) + zsum (is_id id) y) as Hsum.
  { intros id. rewrite (zsum_insert _ _ _ _ _ Hw). pose proof (Hmove id). lia. }
  split; cbn [set_prefill cfg now horizon_ms prefill_ws decode_ws router reqs xfer_queue heap]; try done.
  - by rewrite length_insert.
  - by apply Forall_insert.
  - intros id. rewrite <- (l_places0 id). pose proof (Hsum id). pose proof (Hxe id).
    unfold places, in_flight. cbn [set_prefill prefill_ws decode_ws xfer_queue heap]. rewrite !zsum_app. lia.
  - intros id r Hr. destruct (l_started0 id r Hr) as [H|[H|H]]; [| |by right; right].
    all: assert (0 < zsum (at_prefill id) (<[w := p']> (prefill_ws s)) \/ id ∈ y') as [G|G]; [|by left|by right; left].
    all: rewrite ids_elem; pose proof (Hsum id); pose proof (ids_nonneg id y); pose proof (ids_nonneg id y').
    2: apply ids_elem in H.
    all: pose proof (zsum_nonneg (at_prefill id) (prefill_ws s) ltac:(intros; apply has_nonneg)).
    all: pose proof (zsum_nonneg (at_prefill id) (<[w := p']> (prefill_ws s)) ltac:(intros; apply has_nonneg)); lia.
Qed.

Lemma chunk_sum_pos q cs : Forall (Sched.chunk_ok q) cs -> cs <> [] -> 0 < Sched.chunk_sum cs.
Proof.
  intros H Hne. destruct H as [|ch cs (p & _ & _ & Ht & _) H]; [done|].
  assert (0 <= Sched.chunk_sum cs).
  { clear Hne. induction H as [|ch' cs (p' & _ & _ & Ht' & _) H IH]; [done|].
    unfold Sched.chunk_sum in *. cbn [foldr]. lia. }
  unfold Sched.chunk_sum in *. cbn [foldr]. lia.
Qed.

Lemma counters_live y x s k : live y x s -> live y x (set_counters s k).
Proof. intros []. split; try done. by apply set_counters_inv. Qed.

Lemma start_live y x s w : live y x s -> (w < workers_p)%nat ->
  exists s', try_start_prefill s w = Some s' /\ live y x s' /\ pot s' = pot s.
Proof.
  intros Hl Hw. rewrite <- (l_prefill_len _ _ _ Hl) in Hw. apply lookup_lt_is_Some in Hw as [p Hp].
  assert (prefill_ok p) as Hok by (by eapply Forall_lookup_1; [apply (l_prefill _ _ _ Hl)|]).
  unfold try_start_prefill. rewrite Hp. cbn [mbind option_bind].
  destruct (ps_busy p) eqn:Hb; [by exists s|].
  assert (ps_batch p = None) as Hnone.
  { destruct (ci_prefill _ _ _ _ (l_core _ _ _ Hl) _ _ Hp) as [E _]. rewrite Hb in E.
    destruct (ps_batch p); [by rewrite bool_decide_true in E by (by eexists)|done]. }
  pose proof (rn_chunk c Hc) as Hchunk. destruct Hok as [Hs Hbud Hcur Hbat].
  destruct (Sched.plan_bounds (ps_sched p) (now s) Hs ltac:(lia)) as (s1 & b & Hplan & Hq & Hi & _ & Htot & Hrange & Hck & Hnd & _).
  pose proof (Sched.plan_tuning (ps_sched p) (now s)) as Htun. rewrite Hplan in *. cbn [fst] in Htun.
  assert (Sched.chunk_tokens (Sched.tuning s1) = chunked_prefill_tokens (scheduler c)) as Hb1 by congruence.
  destruct (decide (Sched.chunks b = [])) as [He|Hne].
  - eexists. split; [reflexivity|]. set (p' := mkPrefillSim _ _ _ _ _). split.
    + apply (set_prefill_live y y x x s w p p' Hl Hp); try done.
      * by apply (set_prefill_inv _ _ _ _ _ p); [apply (l_core _ _ _ Hl)| |..].
      * by destruct Hl.
      * split; cbn [p' ps_sched ps_curve ps_batch]; [done..|]. intros b' t' E. congruence.
      * intros id. unfold at_prefill. cbn [p' ps_sched]. by rewrite Hq.
    + rewrite (pot_set_prefill _ _ p) by done. cbn [p' ps_sched]. rewrite Hq. lia.
  - eexists. split; [reflexivity|]. set (k := mkCounters _ _ _ _ _ _ _ _). set (p' := mkPrefillSim _ _ _ _ _).
    pose proof (chunk_sum_pos _ _ Hck Hne) as Hpos.
    pose proof (batch_ms_instant c Hc (Sched.total_tokens b) (Z.of_nat (length (Sched.chunks b))) ltac:(lia)) as Hms.
    rewrite <- Hcur in Hms. set (ms := Mock.batch_ms _ _ _) in *.
    destruct (instant_add (now s) ms (l_now _ _ _ Hl) Hms) as [Hinst Hle].
    assert (live y (PrefillDone w :: x) (set_prefill (set_counters s k) (<[w := p']> (prefill_ws s)))) as Hl'.
    { apply (set_prefill_live y y x _ (set_counters s k) w p p' (counters_live _ _ _ _ Hl) Hp).
      - apply (start_batch_inv _ _ _ (set_counters s k) _ p); try done.
        by apply set_counters_inv, (l_core _ _ _ Hl).
      - constructor; [|by destruct Hl]. cbn [event_ok]. rewrite <- (l_prefill_len _ _ _ Hl). by apply lookup_lt_Some in Hp.
      - intros id. rewrite zsum_cons. done.
      - split; cbn [p' ps_sched ps_curve ps_batch]; [done..|]. intros b' t' [= <- <-]. rewrite Hq. done.
      - intros id. unfold at_prefill. cbn [p' ps_sched]. by rewrite Hq. }
    destruct (push_live _ _ _ _ (fadd (now s) ms) Hl' Hinst Hle) as [Hl2 Hpot]. split; [exact Hl2|].
    rewrite Hpot. cbn [pot_event]. change (prefill_ws s) with (prefill_ws (set_counters s k)).
    rewrite (pot_set_prefill _ _ p) by done. cbn [p' ps_sched]. rewrite Hq. change (pot (set_counters s k)) with (pot s). lia.
Qed.
(** *** Transfers *)

Lemma queue_live y x s : live y x s -> live y x (set_xfer s (xfer_busy s) (xfer_queue s)).
Proof. intros []. split; try done. by apply set_queue_inv. Qed.

Lemma drain_live y x t (Ht : instant t) : forall q s, live y x s -> xfer_queue s = q ->
  live y x (drain s (buffers c) t q) /\ pot (drain s (buffers c) t q) = pot s.
Proof.
  induction q as [|[id dw] q IH]; intros s Hl Hq; cbn [drain].
  { rewrite <- Hq. split; [by apply queue_live|done]. }
  destruct (Z.ltb_spec (xfer_busy s) (buffers c)) as [Hlt|Hge].
  2: { rewrite <- Hq. split; [by apply queue_live|done]. }
  set (s1 := set_xfer s (xfer_busy s + 1) q).
  assert (live y (KvArrived id dw :: x) s1) as Hl1.
  { pose proof (start_xfer_inv _ _ _ _ id dw q (l_core _ _ _ Hl) Hlt) as Hcore. destruct Hl.
    rewrite Hq in l_xfer0. apply Forall_cons in l_xfer0 as [Hdw Hx]. split; try done.
    - intros i. change (reqs s1) with (reqs s). rewrite <- (l_places0 i).
      unfold places, in_flight, s1. cbn [set_xfer prefill_ws xfer_queue decode_ws heap].
      rewrite Hq, !zsum_app, !zsum_cons. cbn [at_event fst]. lia.
    - by constructor. }
  assert (pot s = pot s1 + handoff) as Hp1.
  { unfold pot, s1. cbn [set_xfer prefill_ws xfer_queue reqs heap]. rewrite Hq, zsum_cons. lia. }
  destruct (instant_add (now s) t (l_now _ _ _ Hl) Ht) as [Hi Hle].
  destruct (push_live y x (KvArrived id dw) s1 (fadd (now s) t) Hl1 Hi Hle) as [Hl2 Hp2].
  destruct (IH (push s1 (fadd (now s) t) (KvArrived id dw)) Hl2 eq_refl) as [Hl3 Hp3].
  split; [exact Hl3|]. rewrite Hp3, Hp2, Hp1. cbn [pot_event]. lia.
Qed.

Lemma drain_all_live y x s : live y x s -> let s' := drain_xfer_queue s (kv_transfer_ms (cfg s)) in
  live y x s' /\ pot s' = pot s.
Proof.
  intros Hl. unfold drain_xfer_queue. rewrite (ci_cfg _ _ _ _ (l_core _ _ _ Hl)).
  apply (drain_live y x _ (rn_transfer c Hc)); done.
Qed.

Lemma drain_reqs t q : forall s b, reqs (drain s b t q) = reqs s.
Proof. induction q as [|[id dw] q IH]; intros s b; cbn [drain]; [done|]. destruct (_ <? _); [by rewrite IH|done]. Qed.

(** A request in hand is known. *)
Lemma in_hand y x s id : live y x s -> id ∈ y -> exists r, reqs s !! id = Some r.
Proof.
  intros Hl H. apply ids_elem in H. apply has_pos. pose proof (places_parts _ _ _ id Hl). lia.
Qed.

Lemma hand_off_live x fin : forall s, live fin x s ->
  exists s', hand_off s fin = Some s' /\ live [] x s' /\ pot s' = pot s + handoff * Z.of_nat (length fin).
Proof.
  induction fin as [|id fin IH]; intros s Hl; cbn [hand_off length].
  { exists s. split; [done|]. split; [done|]. lia. }
  destruct (in_hand _ _ _ id Hl ltac:(left)) as [r Hr]. rewrite Hr. cbn [mbind option_bind].
  set (r' := mkReq _ _ _ _ _ _ _). set (s1 := set_xfer _ _ _).
  destruct (l_reqs _ _ _ Hl _ _ Hr) as (Hdw & Harr & Hle).
  assert (live fin x s1) as Hl1.
  { pose proof (touch_req_inv _ _ _ _ _ r r' (xfer_queue s ++ [(id, rq_decode_worker r)]) (l_core _ _ _ Hl) Hr eq_refl eq_refl eq_refl) as Hcore.
    destruct Hl. split; try done.
    - intros i. unfold s1. cbn [set_xfer set_reqs reqs]. rewrite has_replace by (by eexists). rewrite <- (l_places0 i).
      unfold places, in_flight. cbn [set_xfer set_reqs prefill_ws xfer_queue decode_ws heap].
      rewrite !zsum_app, !zsum_cons. cbn [zsum foldr fst]. lia.
    - unfold s1. cbn [set_xfer set_reqs reqs prefill_ws].
      intros i q [[<- <-]|[Hne Hq]]%lookup_insert_Some.
      + right; right. exists (now s). split; [done|exact l_now0].
      + destruct (l_started0 i q Hq) as [H|[H|H]]; [by left| |by right; right].
        apply elem_of_cons in H as [->|H]; [done|by right; left].
    - unfold s1. cbn [set_xfer set_reqs reqs now].
      intros i q [[<- <-]|[Hne Hq]]%lookup_insert_Some; [done|by apply (l_reqs0 i)].
    - unfold s1. cbn [set_xfer set_reqs xfer_queue]. apply Forall_app. split; [done|]. by constructor. }
  assert (pot s1 = pot s + handoff) as Hp1.
  { unfold pot, s1. cbn [set_xfer set_reqs heap prefill_ws xfer_queue reqs].
    rewrite (pot_reqs_replace _ _ r r' Hr eq_refl), zsum_app, zsum_cons. cbn [zsum foldr]. lia. }
  destruct (IH s1 Hl1) as (s' & Hs & Hl' & Hp). exists s'. split; [exact Hs|]. split; [done|]. rewrite Hp, Hp1. lia.
Qed.
End run.
End Live.
