(* ===== verification/SimHandle.v ===== *)
(** * Every handler of the simulator succeeds ([crates/sim/src/sim.rs])

    In a live state each of the four handlers returns a live state, whose
    potential is below what the state and the event were worth. *)

From Stdlib Require Import ZArith Lia SpecFloat.
From stdpp Require Import base option list numbers gmap strings.
From S2P Require Import Prelude F64 F64Int Clock Core Policy Prefill Controller Decode Pool.
From S2P Require Import Radix Router Capacity Engine Config Sim SimTime SimLive.

Module Handlers.
Import Deployment Simulation Timing Live.
Local Open Scope Z_scope.

Section run.
Context (c : Config) (Hc : runnable c).
Local Abbreviation live := (Live.live c).
Local Abbreviation pot := (Live.pot c).
Local Abbreviation pot_event := (Live.pot_event c).
Local Abbreviation workers_p := (Live.workers_p c).
Local Abbreviation workers_d := (Live.workers_d c).

(** What a handler promises. *)
Definition handled (e : Event) : Prop := forall s, live [] [e] s ->
  exists s', handle s e = Some s' /\ live [] [] s' /\ pot s' < pot s + pot_event e (now s).

(** ** A prefill batch ends *)

Lemma prefill_done_live w : handled (PrefillDone w).
Proof.
  intros s Hl. cbn [handle pot_event Live.pot_event]. unfold on_prefill_done.
  pose proof (l_taken _ _ _ _ Hl) as Hx. apply Forall_cons in Hx as [Hw _]. cbn [event_ok] in Hw.
  pose proof Hw as Hw'. rewrite <- (l_prefill_len _ _ _ _ Hl) in Hw'. apply lookup_lt_is_Some in Hw' as [p Hp].
  rewrite Hp. cbn [mbind option_bind].
  pose proof (prefill_batched _ _ _ _ _ _ (l_core _ _ _ _ Hl) Hp) as [[b started] Hb]. rewrite Hb.
  assert (prefill_ok c p) as Hok by (by eapply Forall_lookup_1; [apply (l_prefill _ _ _ _ Hl)|]).
  destruct Hok as [Hs Hbud Hcur Hbat]. destruct (Hbat b started Hb) as (Hne & Hck & Hnd).
  set (el := fsub (now s) started).
  destruct (Sched.complete_spec (ps_sched p) b el Hs Hck Hnd) as (s1 & Hcomp & Hi & Htok & _).
  pose proof (Sched.complete_size (ps_sched p) b el Hs Hck Hnd) as Hsz.
  pose proof (Sched.complete_budget (ps_sched p) b el) as Hbud'.
  rewrite Hcomp in *. cbn [fst] in Hbud'. set (fin := map Sched.cid (filter _ _)) in *. destruct Hsz as (Hfnd & Hfin & Hdom & Hsize).
  set (p' := mkPrefillSim _ _ _ _ _).
  assert (live fin [] (set_prefill s (<[w := p']> (prefill_ws s)))) as Hl1.
  { apply (set_prefill_live c [] fin [PrefillDone w] [] s w p p' Hl Hp).
    - by apply (end_batch_inv _ _ _ _ _ p); [apply (l_core _ _ _ _ Hl)| |..].
    - constructor.
    - done.
    - split; cbn [p' ps_sched ps_curve ps_batch]; [done|congruence|done|done].
    - intros id. unfold at_prefill. cbn [p' ps_sched zsum foldr]. rewrite ids_NoDup by done.
      destruct (decide (id ∈ fin)) as [Hf|Hf].
      + rewrite bool_decide_true by done. destruct (Hfin id Hf) as [q Hq]. rewrite (has_Some _ _ q Hq).
        rewrite has_None; [done|]. apply eq_None_not_Some. rewrite Hdom. tauto.
      + rewrite bool_decide_false by done. cbn [Z.b2z]. rewrite Z.add_0_r, Z.add_0_r. apply has_eq. rewrite Hdom. tauto. }
  destruct (hand_off_live c [] fin _ Hl1) as (s2 & -> & Hl2 & Hp2). cbn [mbind option_bind].
  destruct (drain_all_live c Hc _ _ _ Hl2) as [Hl3 Hp3].
  destruct (start_live c Hc _ _ _ w Hl3 Hw) as (s' & Hs' & Hl4 & Hp4).
  exists s'. split; [exact Hs'|]. split; [exact Hl4|]. rewrite Hp4, Hp3, Hp2.
  rewrite (pot_set_prefill c _ _ p) by done. unfold pot_queue. cbn [p' ps_sched].
  change (Sched.total_remaining (Sched.queue s1)) with (Sched.queued_tokens s1).
  change (Sched.total_remaining (Sched.queue (ps_sched p))) with (Sched.queued_tokens (ps_sched p)).
  pose proof (chunk_sum_pos _ _ Hck Hne). rewrite Htok, Hsize. lia.
Qed.
(** ** The registry *)

(** A worker whose load was reported at [t]. *)
Definition fresh_at (id : Z) (ro : Routing.WorkerRole) (t : f64) (r : Routing.WorkerRegistry) : Prop :=
  exists w, Routing.reg_workers r !! id = Some w /\ Routing.role w = ro /\
    Routing.updated_ms (Routing.load w) = t.

Lemma update_registry r id l : registry_ok c r -> registry_ok c (Routing.update_load r id l).
Proof.
  intros [Hk Hi (wp & Hp & Hrp) (wd & Hd & Hrd) Hs].
  assert (forall k w, Routing.reg_workers r !! k = Some w ->
    exists w', Routing.reg_workers (Routing.update_load r id l) !! k = Some w' /\ Routing.role w' = Routing.role w) as Hrole.
  { intros k w Hw. unfold Routing.update_load. destruct (Routing.reg_workers r !! id) as [w0|] eqn:E; [|by exists w].
    cbn [Routing.reg_workers]. destruct (decide (k = id)) as [->|Hne].
    - assert (w = w0) as -> by congruence. rewrite lookup_insert_eq. by eexists.
    - rewrite lookup_insert_ne by done. by exists w. }
  split.
  - by apply Routing.update_load_inv.
  - intros k w Hw. unfold Routing.update_load in Hw. destruct (Routing.reg_workers r !! id) as [w0|] eqn:E; [|by apply Hi].
    cbn [Routing.reg_workers] in Hw. apply lookup_insert_Some in Hw as [[<- <-]|[_ Hw]]; [|by apply Hi].
    cbn. split; [done|]. by apply (Hi id w0).
  - destruct (Hrole _ _ Hp) as (w & Hw & E). exists w. split; [done|]. congruence.
  - destruct (Hrole _ _ Hd) as (w & Hw & E). exists w. split; [done|]. congruence.
  - unfold Routing.update_load. by destruct (Routing.reg_workers r !! id).
Qed.

Lemma update_keeps_fresh r i l id ro : fresh_at id ro (Routing.updated_ms l) r ->
  fresh_at id ro (Routing.updated_ms l) (Routing.update_load r i l).
Proof.
  intros (w & Hw & Hr & Ht). unfold fresh_at, Routing.update_load.
  destruct (Routing.reg_workers r !! i) as [w0|] eqn:E; [|by exists w]. cbn [Routing.reg_workers].
  destruct (decide (id = i)) as [->|Hne].
  - rewrite lookup_insert_eq. eexists. split; [done|]. cbn. split; [congruence|done].
  - rewrite lookup_insert_ne by done. by exists w.
Qed.

Lemma update_makes_fresh r id l w : Routing.reg_workers r !! id = Some w ->
  fresh_at id (Routing.role w) (Routing.updated_ms l) (Routing.update_load r id l).
Proof.
  intros E. unfold fresh_at, Routing.update_load. rewrite E. cbn [Routing.reg_workers]. rewrite lookup_insert_eq.
  by eexists.
Qed.

(** A round of reports keeps the registry in order and what was fresh fresh. *)
Lemma reports_keep {A} (key : A -> Z) (ld : A -> Routing.WorkerLoad) t l : (forall a, Routing.updated_ms (ld a) = t) ->
  forall r, registry_ok c r ->
  let r' := foldl (fun r a => Routing.update_load r (key a) (ld a)) r l in
  registry_ok c r' /\ forall id ro, fresh_at id ro t r -> fresh_at id ro t r'.
Proof.
  intros Ht. induction l as [|a l IH]; intros r Hr; cbn [foldl]; [done|].
  destruct (IH _ (update_registry r (key a) (ld a) Hr)) as [H1 H2]. split; [done|].
  intros id ro Hf. apply H2. rewrite <- (Ht a) in *. by apply update_keeps_fresh.
Qed.

Lemma now_is_recent t : moment t -> fle (fsub t t) (of_Z 60000) = true.
Proof.
  intros [(Vt & Nt & _) Ft]. eapply faithful_fle; [exact (fsub_faithful t t Vt Vt Ft Ft)|apply of_Z_valid|done|].
  rewrite of_Z_ival by done. pose proof ms_pos. lia.
Qed.

(** Freshly reported workers are live. *)
Lemma fresh_live r id ro t : registry_ok c r -> moment t -> fresh_at id ro t r -> Routing.live r ro t <> [].
Proof.
  intros Hr Ht (w & Hw & Hro & Hu) E. destruct (rg_ids c r Hr id w Hw) as [Hh _].
  assert (w ∈ Routing.live r ro t) as Hin; [|rewrite E in Hin; by apply not_elem_of_nil in Hin].
  apply Routing.live_elem; [apply (rg_keys c r Hr)|]. rewrite (rg_keys c r Hr id w Hw). split; [done|].
  unfold Routing.is_live. rewrite bool_decide_true, Hh, Hu, (rg_stale c r Hr), now_is_recent by done. done.
Qed.

(** [sync_loads] leaves a registry with a live worker of each role. *)
Lemma synced y x s : live y x s -> let r := Routing.registry (router (sync_loads s)) in
  registry_ok c r /\ Routing.live r Routing.Prefill (now s) <> [] /\ Routing.live r Routing.Decode (now s) <> [].
Proof.
  intros Hl r. pose proof (l_registry _ _ _ _ Hl) as Hr0. pose proof (l_now _ _ _ _ Hl) as Hnow.
  unfold sync_loads in r. cbn [set_router router Routing.registry] in r.
  pose proof (l_prefill_len _ _ _ _ Hl) as Hlp. pose proof (l_decode_len _ _ _ _ Hl) as Hld.
  pose proof (rn_prefill c Hc) as Hp. pose proof (rn_decode c Hc) as Hd. unfold Live.workers_p, Live.workers_d in *.
  destruct (prefill_ws s) as [|p ps]; [cbn in Hlp; lia|]. destruct (decode_ws s) as [|d ds]; [cbn in Hld; lia|].
  cbn [imap foldl fst snd] in r.
  set (r0 := Routing.registry (router s)) in *. set (r1 := Routing.update_load r0 (Z.of_nat 0) _) in *.
  destruct (rg_prefill c r0 Hr0) as (wp & Hwp & Hrp).
  assert (fresh_at 0 Routing.Prefill (now s) r1) as Hf1.
  { rewrite <- Hrp. by apply (update_makes_fresh r0 0 (prefill_load (now s) p)). }
  assert (registry_ok c r1) as Hr1 by by apply update_registry. clearbody r1.
  destruct (reports_keep (fun ip => Z.of_nat ip.1) (fun ip => prefill_load (now s) ip.2) (now s)
    (imap (pair ∘ S) ps) ltac:(done) r1 Hr1) as [Hr2 Hk2].
  set (r2 := foldl _ r1 _) in *. clearbody r2. specialize (Hk2 _ _ Hf1).
  destruct (rg_decode c r2 Hr2) as (wd & Hwd & Hrd).
  set (r3 := Routing.update_load r2 _ _) in *.
  assert (fresh_at DECODE_ID_BASE Routing.Decode (now s) r3) as Hf3.
  { rewrite <- Hrd. by apply (update_makes_fresh r2 DECODE_ID_BASE (decode_load (now s) d)). }
  assert (fresh_at 0 Routing.Prefill (now s) r3) as Hf3'.
  { by apply (update_keeps_fresh r2 _ (decode_load (now s) d)). }
  assert (registry_ok c r3) as Hr3 by by apply update_registry. clearbody r3.
  destruct (reports_keep (fun jd => DECODE_ID_BASE + Z.of_nat jd.1) (fun jd => decode_load (now s) jd.2) (now s)
    (imap (pair ∘ S) ds) ltac:(done) r3 Hr3) as [Hr4 Hk4].
  split; [exact Hr4|]. split; eapply fresh_live; eauto.
Qed.

Lemma set_router_live y x s rt : live y x s -> registry_ok c (Routing.registry rt) ->
  Trie.index_inv (Routing.prefix_index rt) -> live y x (set_router s rt).
Proof. intros [] H1 H2. split; try done. by apply set_router_inv. Qed.
(** ** A request arrives *)

Lemma issue_live k r rt s : live [] [Arrival k] s -> registry_ok c (Routing.registry rt) ->
  Trie.index_inv (Routing.prefix_index rt) -> 0 <= rq_prompt_len r + rq_osl r ->
  (rq_decode_worker r < workers_d)%nat -> rq_arrival_ms r = now s -> rq_client r = k ->
  let s' := set_reqs (set_router (set_issued s (next_id s + 1) (issued s + 1)) rt) (<[next_id s := r]> (reqs s)) in
  live [next_id s] [] s' /\ pot s' = pot s + life c * left_at c (now s).
Proof.
  intros Hl Hr Hix Hlen Hdw Harr Hk s'.
  assert (reqs s !! next_id s = None) as Hn.
  { destruct (reqs s !! next_id s) as [r'|] eqn:E; [|done]. apply (ci_reqs _ _ _ _ (l_core _ _ _ _ Hl)) in E. lia. }
  pose proof (issue_inv _ _ _ _ _ _ rt (l_core _ _ _ _ Hl) Hk Hlen) as Hcore.
  split.
  - destruct Hl. split; try done; unfold s'; cbn [set_reqs set_router set_issued reqs prefill_ws now].
    + intros id. rewrite has_insert by done. rewrite <- (l_places0 id). unfold places, in_flight.
      cbn [set_reqs set_router set_issued prefill_ws xfer_queue decode_ws heap app].
      rewrite !zsum_cons. change (zsum (is_id id) []) with 0. cbn [at_event]. lia.
    + intros id q [[<- <-]|[_ Hq]]%lookup_insert_Some; [right; left; by left|].
      destruct (l_started0 id q Hq) as [H|[H|H]]; [by left|by apply not_elem_of_nil in H|by right; right].
    + intros id q [[<- <-]|[_ Hq]]%lookup_insert_Some; [|by apply (l_reqs0 id)].
      rewrite Harr. split; [done|]. split; [done|]. apply fle_refl. by destruct l_now0 as [(_ & ? & _) _].
  - unfold Live.pot, s'. cbn [set_reqs set_router set_issued heap prefill_ws xfer_queue reqs].
    rewrite pot_reqs_insert by done. rewrite Harr. lia.
Qed.

(** A request in hand is nowhere else. *)
Lemma in_hand_only y x s id : live (id :: y) x s ->
  (forall w p, prefill_ws s !! w = Some p -> Sched.queue (ps_sched p) !! id = None) /\
  (forall w d, decode_ws s !! w = Some d -> (id ∉ ds_pending d) /\ Decoder.running (ds_sched d) !! id = None).
Proof.
  intros Hl. destruct (places_parts _ _ _ _ id Hl) as (H1 & H2 & H3 & H4 & H5 & H6 & H7).
  rewrite zsum_cons in *. unfold is_id at 1 in H6. unfold is_id at 2 in H7. rewrite Z.eqb_refl in *. cbn [Z.b2z] in *.
  pose proof (ids_nonneg id y). pose proof (has_nonneg (reqs s) id). split.
  - intros w p Hp. assert (at_prefill id p <= zsum (at_prefill id) (prefill_ws s)) as Hle.
    { apply zsum_elem; [intros; apply has_nonneg|by eapply list_elem_of_lookup_2]. }
    unfold at_prefill at 1 in Hle. destruct (_ !! id) eqn:E; [|done].
    rewrite (has_Some _ _ _ E) in Hle. lia.
  - intros w d Hd. assert (at_decode id d <= zsum (at_decode id) (decode_ws s)) as Hle.
    { apply zsum_elem; [intros; apply at_decode_nonneg|by eapply list_elem_of_lookup_2]. }
    unfold at_decode at 1 in Hle. pose proof (ids_nonneg id (ds_pending d)).
    pose proof (has_nonneg (Decoder.running (ds_sched d)) id). split.
    + rewrite ids_elem. lia.
    + destruct (Decoder.running _ !! id) eqn:E; [|done]. rewrite (has_Some _ _ _ E) in Hle. lia.
Qed.

(** A fresh request enters the queue of a prefill worker. *)
Lemma enqueue_live id y x s w p q : live (id :: y) x s -> prefill_ws s !! w = Some p ->
  Sched.pid q = id -> 0 <= Sched.done_tokens q <= Sched.compute_tokens q ->
  let p' := mkPrefillSim (Sched.enqueue (ps_sched p) q) (ps_curve p) (ps_busy p) (ps_batch p) (ps_busy_ms p) in
  let s' := set_prefill s (<[w := p']> (prefill_ws s)) in
  live y x s' /\ pot s' = pot s + Sched.remaining q + handoff c + 1.
Proof.
  intros Hl Hp Hid Hdone p' s'. destruct (in_hand_only _ _ _ _ Hl) as [Hnone _]. specialize (Hnone w p Hp).
  rewrite <- Hid in Hnone. assert (prefill_ok c p) as [Hs Hbud Hcur Hbat]
    by (by eapply Forall_lookup_1; [apply (l_prefill _ _ _ _ Hl)|]).
  split.
  - apply (set_prefill_live c (id :: y) y x x s w p p' Hl Hp); try done.
    + by apply (set_prefill_inv _ _ _ _ _ p); [apply (l_core _ _ _ _ Hl)| |..].
    + by destruct Hl.
    + split; cbn [p' ps_sched ps_curve ps_batch]; [by apply Sched.enqueue_inv|done|done|].
      intros b t Hb. destruct (Hbat b t Hb) as (H1 & H2 & H3). split; [done|]. split; [|done].
      eapply Forall_impl; [exact H2|]. intros ch (r & Hr & H). exists r. split; [|done].
      cbn [Sched.enqueue Sched.queue]. rewrite lookup_insert_ne; [done|]. intros E. rewrite E in Hnone. congruence.
    + intros i. unfold at_prefill. cbn [p' ps_sched Sched.enqueue Sched.queue].
      rewrite has_insert, zsum_cons by done. rewrite Hid. lia.
  - unfold s'. rewrite (pot_set_prefill c _ _ p) by done. unfold pot_queue. cbn [p' ps_sched Sched.enqueue Sched.queue].
    rewrite map_size_insert_None by done. unfold Sched.total_remaining at 2.
    rewrite map_fold_insert_L; [|intros; lia|done]. fold (Sched.total_remaining (Sched.queue (ps_sched p))). lia.
Qed.

Lemma on_arrival_live k : handled (Arrival k).
Proof.
  intros s Hl. cbn [handle Live.pot_event]. unfold on_arrival. cbn zeta.
  destruct (synced _ _ _ Hl) as (Hreg & Hlp & Hld). set (s1 := sync_loads (set_issued s _ _)).
  change (Routing.registry (router (sync_loads s))) with (Routing.registry (router s1)) in *.
  pose proof (ci_cfg _ _ _ _ (l_core _ _ _ _ Hl)) as Hcfg.
  change (cfg s1) with (cfg s). cbn [set_issued cfg]. rewrite Hcfg.
  change (now s1) with (now s). set (prompt := replicate _ _).
  destruct (Routing.route_total (router s1) prompt (now s) (slo_ttft_ms (slo c)) (l_index _ _ _ _ Hl) Hlp Hld)
    as (d & wp & wd & -> & Hwp & Hpw & Hwd & Hdw). cbn [mbind option_bind].
  apply Routing.live_elem in Hwp as [Hwp Lp]; [|apply (rg_keys c _ Hreg)].
  apply Routing.live_elem in Hwd as [Hwd Ld]; [|apply (rg_keys c _ Hreg)].
  destruct (rg_ids c _ Hreg _ _ Hwp) as [_ Rp]. destruct (rg_ids c _ Hreg _ _ Hwd) as [_ Rd].
  unfold Routing.is_live in Lp, Ld. rewrite !andb_true_iff, bool_decide_eq_true in Lp, Ld.
  destruct Lp as [[Ep _] _], Ld as [[Ed _] _]. rewrite Ep, Hpw in Rp. rewrite Ed, Hdw in Rd.
  set (r := mkReq _ _ _ _ _ _ _). set (pw := Z.to_nat (Routing.rd_prefill d)).
  destruct (rn_ok c Hc) as (Hisl & Hosl & _).
  destruct (issue_live k r (router s1) s Hl Hreg (l_index _ _ _ _ Hl)) as [Hl2 Hp2];
    [cbn; lia|cbn; unfold Live.workers_d; lia|done..|].
  set (s2 := set_reqs _ _) in Hl2, Hp2. change (set_reqs s1 _) with s2.
  assert (pw < workers_p)%nat as Hpwl by (unfold pw, Live.workers_p; lia).
  pose proof Hpwl as Hlt. rewrite <- (l_prefill_len _ _ _ _ Hl2) in Hlt. apply lookup_lt_is_Some in Hlt as [p Hp].
  rewrite Hp. cbn [mbind option_bind]. set (q := Sched.mkPending _ _ _ _ _).
  destruct (enqueue_live (next_id s) [] [] s2 pw p q Hl2 Hp eq_refl) as [Hl3 Hp3].
  { cbn. unfold sat_sub. lia. }
  assert (Sched.remaining q <= w_isl (workload c)) as Hrem by (unfold Sched.remaining, q, sat_sub; cbn; lia).
  set (s3 := set_prefill s2 _) in *.
  assert (exists s', try_start_prefill s3 pw = Some s' /\ live [] [] s' /\ pot s' = pot s3) as Hdirect
    by by apply (start_live c Hc).
  assert (pot s3 < pot s + life c * (left_at c (now s) + 1)) as Hlt3 by (rewrite Hp3, Hp2; unfold life; lia).
  destruct (cache_bust _); cbn [mbind option_bind].
  - destruct Hdirect as (s' & Hs & H1 & H2). exists s'. split; [exact Hs|]. split; [done|]. by rewrite H2.
  - unfold Routing.note_prefill.
    destruct (Trie.insert_spec (Routing.prefix_index (router s3)) (Z.of_nat pw) prompt (now s) (l_index _ _ _ _ Hl3))
      as (ix & Hins & Hixi & _). change (now s3) with (now s). rewrite Hins. cbn [mbind option_bind].
    set (rt := Routing.mkRouter _ ix _).
    destruct (start_live c Hc [] [] (set_router s3 rt) pw) as (s' & Hs & H1 & H2); [|done|].
    + apply set_router_live; [done| |done]. apply (l_registry _ _ _ _ Hl3).
    + exists s'. split; [exact Hs|]. split; [done|]. by rewrite H2.
Qed.
(** ** A transfer arrives *)

(** Replacing a decode worker, while requests move between it and the ones in
    hand. *)
Lemma set_decode_live y y' x x' s w d d' : live y x s -> decode_ws s !! w = Some d ->
  core_inv c (w_concurrency (workload c)) x' (set_decode s (<[w := d']> (decode_ws s))) ->
  Forall (event_ok c) x' -> (forall id, zsum (at_event id) x' = zsum (at_event id) x) ->
  decode_ok c d' ->
  (forall id, at_decode id d' + zsum (is_id id) y' = at_decode id d + zsum (is_id id) y) ->
  (forall id r, id ∈ y -> reqs s !! id = Some r -> id ∈ y' \/ exists t, rq_first_token_ms r = Some t /\ moment t) ->
  live y' x' (set_decode s (<[w := d']> (decode_ws s))).
Proof.
  intros Hl Hw Hcore Hx' Hxe Hd' Hmove Hgone. destruct Hl.
  split; cbn [set_decode cfg now horizon_ms prefill_ws decode_ws router reqs xfer_queue heap]; try done.
  - by rewrite length_insert.
  - by apply Forall_insert.
  - intros id. rewrite <- (l_places0 id). pose proof (Hmove id). pose proof (Hxe id).
    unfold places, in_flight. cbn [set_decode prefill_ws decode_ws xfer_queue heap].
    rewrite (zsum_insert _ _ _ _ _ Hw), !zsum_app. lia.
  - intros id r Hr. destruct (l_started0 id r Hr) as [H|[H|H]]; [by left| |by right; right].
    right. by apply (Hgone id r).
Qed.

(** A request whose KV travels has its first token. *)
Lemma arrived_started id w y x s r : live y (KvArrived id w :: x) s -> reqs s !! id = Some r ->
  exists t, rq_first_token_ms r = Some t /\ moment t.
Proof.
  intros Hl Hr. destruct (places_parts _ _ _ _ id Hl) as (H1 & H2 & H3 & H4 & H5 & H6 & H7).
  rewrite zsum_cons in H3, H7. cbn [at_event] in H3, H7. unfold is_id at 1 in H3. unfold is_id at 2 in H7.
  rewrite Z.eqb_refl in *. cbn [Z.b2z] in *. pose proof (has_nonneg (reqs s) id).
  assert (0 <= zsum (at_event id) x) by (apply zsum_nonneg; intros; apply at_event_nonneg).
  destruct (l_started _ _ _ _ Hl id r Hr) as [H'|[H'|H']]; [lia| |done]. apply ids_elem in H'. lia.
Qed.

Lemma on_kv_arrived_live id w : handled (KvArrived id w).
Proof.
  intros s Hl. cbn [handle Live.pot_event]. unfold on_kv_arrived.
  pose proof (l_taken _ _ _ _ Hl) as Hx. apply Forall_cons in Hx as [Hw _]. cbn [event_ok] in Hw.
  assert (exists r, reqs s !! id = Some r) as [r Hr].
  { apply has_pos. destruct (places_parts _ _ _ _ id Hl) as (H1 & H2 & H3 & H4 & H5 & H6 & H7).
    rewrite zsum_cons in H7. cbn [at_event] in H7. unfold is_id at 2 in H7. rewrite Z.eqb_refl in H7.
    cbn [Z.b2z zsum foldr] in H7. change (zsum (at_event id) []) with 0 in H7. lia. }
  pose proof (arrived_started _ _ _ _ _ _ Hl Hr) as Hfirst.
  set (s0 := set_xfer s _ _).
  assert (live [id] [] s0) as Hl0.
  { pose proof (release_inv _ _ _ _ _ _ (l_core _ _ _ _ Hl)) as Hcore. destruct Hl. split; try done.
    - intros i. change (reqs s0) with (reqs s). rewrite <- (l_places0 i). unfold places, in_flight, s0.
      cbn [set_xfer prefill_ws xfer_queue decode_ws heap app]. rewrite !zsum_cons.
      change (zsum (is_id i) []) with 0. cbn [at_event]. lia.
    - intros i q Hq. destruct (l_started0 i q Hq) as [H|[H|H]]; [by left| |by right; right].
      by apply not_elem_of_nil in H. }
  destruct (drain_all_live c Hc _ _ _ Hl0) as [Hl1 Hp1].
  assert (reqs (drain_xfer_queue s0 (kv_transfer_ms (cfg s0))) = reqs s) as Hreqs by exact (drain_reqs _ _ s0 _).
  set (s1 := drain_xfer_queue s0 _) in *. change (pot s0) with (pot s) in Hp1. clearbody s1.
  pose proof Hw as Hlt. rewrite <- (l_decode_len _ _ _ _ Hl1) in Hlt. apply lookup_lt_is_Some in Hlt as [d Hd].
  rewrite Hd. cbn [mbind option_bind]. set (d1 := mkDecodeSim _ _ _ _ _ _ _ _).
  assert (decode_ok c d) as Hok by (by eapply Forall_lookup_1; [apply (l_decode _ _ _ _ Hl1)|]).
  destruct (ci_decode _ _ _ _ (l_core _ _ _ _ Hl1) _ _ Hd) as [Hpages _].
  assert (forall x', core_inv c (w_concurrency (workload c)) x' (set_decode s1 (<[w := d1]> (decode_ws s1))) ->
    Forall (event_ok c) x' -> (forall i, zsum (at_event i) x' = 0) ->
    live [] x' (set_decode s1 (<[w := d1]> (decode_ws s1)))) as Hset.
  { intros x' Hcore Hx' Hxe. apply (set_decode_live [id] [] [] x' s1 w d d1 Hl1 Hd Hcore Hx' Hxe).
    - destruct Hok as [H1 H2 H3]. by split.
    - intros i. unfold at_decode. cbn [d1 ds_pending ds_sched]. rewrite zsum_app. change (zsum (is_id i) []) with 0. lia.
    - intros i q Hi Hq. apply list_elem_of_singleton in Hi as ->. right. rewrite Hreqs in Hq.
      assert (q = r) as -> by congruence. done. }
  pose proof (left_now c Hc _ _ _ Hl1) as Hleft.
  destruct (ds_stepping d) eqn:Hst.
  - eexists. split; [reflexivity|]. split.
    + apply Hset; [|constructor|done]. by apply (set_decode_inv _ _ _ _ _ d); [apply (l_core _ _ _ _ Hl1)| |..].
    + change (pot (set_decode s1 _)) with (pot s1). unfold handoff. lia.
  - eexists. split; [reflexivity|].
    assert (live [] [DecodeStep w] (set_decode s1 (<[w := d1]> (decode_ws s1)))) as Hl2.
    { apply Hset; [|by constructor|done].
      by apply (stepping_inv _ _ _ _ _ d); [apply (l_core _ _ _ _ Hl1)| |..]. }
    pose proof (l_now _ _ _ _ Hl1) as Hnow.
    destruct (push_live c _ _ _ _ (now s1) Hl2 (moment_instant _ Hnow)) as [Hl3 Hp3];
      [by apply fle_refl; destruct Hnow as [(_ & ? & _) _]|].
    split; [exact Hl3|]. rewrite Hp3. cbn [Live.pot_event]. change (pot (set_decode s1 _)) with (pot s1).
    unfold handoff. lia.
Qed.
End run.
End Handlers.
