(* ===== verification/SimDecode.v ===== *)
(** * The decode step of the simulator succeeds ([crates/sim/src/sim.rs])

    Admission from the pending queue, the step of the running batch and the
    retirement of what finished, in a live state. *)

From Stdlib Require Import ZArith Lia SpecFloat.
From stdpp Require Import base option list numbers gmap strings.
From S2P Require Import Prelude F64 F64Int Clock Core Policy Prefill Controller Decode Pool.
From S2P Require Import Radix Router Capacity Engine Config Sim SimTime SimLive SimHandle.

Module Stepping.
Import Deployment Simulation Timing Live Handlers.
Local Open Scope Z_scope.

(** ** Admission *)

Definition in_batch (d : DecodeWorkerSim) (id : Z) : Z := has (Decoder.running (ds_sched d)) id.

Lemma noted_running s k : Decoder.running (Decoder.note s k) = Decoder.running s.
Proof. by destruct k. Qed.

Lemma noted_inv s k : Decoder.dec_inv s -> Decoder.dec_inv (Decoder.note s k).
Proof. intros [H1 H2]. destruct k; by split. Qed.

(** Admission keeps every request either pending or running. *)
Lemma admit_live c rs bs t : moment t -> forall pending d,
  decode_ok c d ->
  (forall id, id ∈ pending -> exists r t1, rs !! id = Some r /\ rq_first_token_ms r = Some t1 /\ moment t1) ->
  (forall id, zsum (is_id id) pending + in_batch d id <= 1) ->
  exists d', admit_decode rs bs t d pending = Some d' /\ decode_ok c d' /\
    forall id, at_decode id d' = zsum (is_id id) pending + in_batch d id.
Proof.
  intros Ht. induction pending as [|id pending IH]; intros d Hok Hknown Honce; cbn [admit_decode].
  { eexists. split; [done|]. split; [|done]. by destruct Hok. }
  destruct (Hknown id ltac:(left)) as (r & t1 & Hr & Hfirst & Ht1). rewrite Hr, Hfirst.
  set (k := Decoder.can_admit _ _). destruct Hok as [Hs Hcur Htimes].
  destruct (decide (k = Decoder.Admit)) as [Hk|Hk]; cbn [mbind option_bind].
  2: { eexists. split; [done|]. split.
    - split; cbn [ds_sched ds_curve]; [by apply noted_inv|done|]. rewrite noted_running. exact Htimes.
    - intros i. unfold at_decode, in_batch. cbn [ds_pending ds_sched]. by rewrite noted_running. }
  set (q := Decoder.mkSeq _ _ _ _ _ _). set (d1 := mkDecodeSim _ _ _ _ _ _ _ _).
  assert (Decoder.running (ds_sched d) !! id = None) as Hnone.
  { pose proof (Honce id) as H. rewrite zsum_cons in H. unfold is_id at 1 in H. rewrite Z.eqb_refl in H.
    pose proof (ids_nonneg id pending). unfold in_batch in H. destruct (Decoder.running (ds_sched d) !! id) eqn:E; [|done].
    rewrite (has_Some _ _ _ E) in H. cbn [Z.b2z] in H. lia. }
  assert (forall i, in_batch d1 i = in_batch d i + is_id i id) as Hrun.
  { intros i. unfold in_batch, d1. cbn [ds_sched Decoder.admit_at Decoder.dec_admit Decoder.set_running Decoder.running q
      Decoder.seq_id]. rewrite noted_running. by rewrite has_insert. }
  destruct (IH d1) as (d' & -> & Hok' & Hat).
  - split; cbn [d1 ds_sched ds_curve]; [by apply Decoder.dec_admit_inv, noted_inv|done|].
    cbn [Decoder.admit_at Decoder.dec_admit Decoder.set_running Decoder.running].
    rewrite noted_running. intros i q' [[<- <-]|[_ Hq]]%lookup_insert_Some; [|by apply (Htimes i)].
    cbn [Decoder.seq_last_ms Decoder.admitted_ms q]. split; [by apply fmax_moment|done].
  - intros i Hi. apply Hknown. by right.
  - intros i. pose proof (Honce i) as H. rewrite zsum_cons in H. rewrite Hrun. lia.
  - exists d'. split; [done|]. split; [done|]. intros i. rewrite Hat, Hrun, zsum_cons. lia.
Qed.
(** ** The step of the batch *)

(** The ids a synthetic step reports as finished. *)
Definition finishing (s : Decoder.DecodeScheduler) : list Z :=
  map Decoder.seq_id (filter (fun q => Decoder.seq_requested q <= Decoder.tokens_emitted q + 1) (Decoder.values s)).

Lemma finishing_running s id : Decoder.dec_inv s -> id ∈ finishing s -> is_Some (Decoder.running s !! id).
Proof.
  intros [Hk _] H. apply list_elem_of_fmap in H as (q & -> & Hq). apply list_elem_of_filter in Hq as [_ Hq].
  apply list_elem_of_fmap in Hq as ([i q'] & -> & Hin). apply elem_of_map_to_list in Hin. cbn [snd] in *.
  exists q'. by rewrite (Hk _ _ Hin).
Qed.

Lemma after_tokens_id s t adv id q : Decoder.dec_inv s -> Decoder.after_tokens s t adv id = Some q ->
  Decoder.seq_id q = id /\ is_Some (Decoder.running s !! id).
Proof.
  intros [Hk _] H. unfold Decoder.after_tokens in H. destruct (decide _); [|split; [by apply Hk|by exists q]].
  apply fmap_Some in H as (q' & Hq' & ->). split; [exact (Hk _ _ Hq')|by exists q'].
Qed.

Lemma after_tokens_has s t adv id : is_Some (Decoder.after_tokens s t adv id) <-> is_Some (Decoder.running s !! id).
Proof. unfold Decoder.after_tokens. destruct (decide _); [apply fmap_is_Some|done]. Qed.

(** The sequences handed back are the finishing ones, each once; the others
    stay, with times that are numbers. *)
Lemma step_batch s t ms : Decoder.dec_inv s -> Decoder.concurrency s <= 2 ^ 53 -> moment t ->
  (forall id q, Decoder.running s !! id = Some q -> moment (Decoder.seq_last_ms q) /\ moment (Decoder.admitted_ms q)) ->
  exists s' dn, Decoder.on_step_synthetic s t ms = Some (s', dn) /\ Decoder.dec_inv s' /\
    (forall id q, Decoder.running s' !! id = Some q -> moment (Decoder.seq_last_ms q) /\ moment (Decoder.admitted_ms q)) /\
    (forall id, has (Decoder.running s') id + zsum (is_id id) (map Decoder.seq_id dn) = has (Decoder.running s) id).
Proof.
  intros Hi Hcon Ht Htimes. unfold Decoder.on_step_synthetic. fold (finishing s). set (adv := (map_to_list _).*1).
  destruct (Decoder.on_step_spec s t ms adv (finishing s) Hi) as (s' & dn & -> & Hi' & Hrun & Hdn & Hlen & Hmono & _).
  { apply NoDup_fst_map_to_list. }
  { done. }
  { intros q Hq. apply list_elem_of_fmap in Hq as ([i q'] & -> & Hin). apply elem_of_map_to_list in Hin.
    destruct (Htimes _ _ Hin). apply moment_sub_not_nan; [done|]. by apply fmax_moment. }
  exists s', dn. split; [done|]. split; [done|].
  assert (NoDup (finishing s)) as Hnd by (apply Decoder.finished_NoDup; apply Hi).
  assert (forall id, id ∈ finishing s -> id ∈ map Decoder.seq_id dn) as Hsub.
  { intros id Hid. pose proof (finishing_running s id Hi Hid) as Hr. apply (after_tokens_has s t adv id) in Hr as [q Hq].
    apply list_elem_of_fmap. exists q. split; [by rewrite (proj1 (after_tokens_id _ _ _ _ _ Hi Hq))|].
    apply Hdn. by exists id. }
  assert (finishing s ≡ₚ map Decoder.seq_id dn) as Hperm.
  { apply submseteq_length_Permutation; [by apply NoDup_submseteq|]. rewrite length_map. lia. }
  split.
  - intros id q Hq. rewrite Hrun in Hq. destruct (decide _); [done|]. unfold Decoder.after_tokens in Hq.
    destruct (decide _); [|by apply (Htimes id)]. apply fmap_Some in Hq as (q' & Hq' & ->).
    destruct (Htimes _ _ Hq'). done.
  - intros id. rewrite <- (zsum_perm _ _ _ Hperm), ids_NoDup by done.
    destruct (decide (id ∈ finishing s)) as [Hin|Hn].
    + rewrite bool_decide_true by done. destruct (finishing_running s id Hi Hin) as [q Hq].
      rewrite (has_Some _ _ _ Hq), has_None; [done|]. by rewrite Hrun, decide_True.
    + rewrite bool_decide_false by done. rewrite Z.add_0_r. apply has_eq. rewrite Hrun, decide_False by done.
      apply after_tokens_has.
Qed.
Section run.
Context (c : Config) (Hc : runnable c).
Local Abbreviation live := (Live.live c).
Local Abbreviation pot := (Live.pot c).

(** ** Stamps *)

Lemma alter_Some (t : f64) (m : gmap Z ReqState) i r : m !! i = Some r -> alter (stamp t) i m = <[i := stamp t r]> m.
Proof.
  intros H. apply map_eq. intros j. destruct (decide (i = j)) as [<-|Hne].
  - by rewrite lookup_alter_eq, lookup_insert_eq, H.
  - by rewrite lookup_alter_ne, lookup_insert_ne.
Qed.

Lemma alter_None (t : f64) (m : gmap Z ReqState) i : m !! i = None -> alter (stamp t) i m = m.
Proof.
  intros H. apply map_eq. intros j. destruct (decide (i = j)) as [<-|Hne].
  - by rewrite lookup_alter_eq, H.
  - by rewrite lookup_alter_ne.
Qed.

Lemma set_reqs_id s : set_reqs s (reqs s) = s.
Proof. by destruct s. Qed.

(** Stamping one request changes the time of its last token only. *)
Lemma stamp_live y x s t i : live y x s ->
  let s' := set_reqs s (alter (stamp t) i (reqs s)) in live y x s' /\ pot s' = pot s.
Proof.
  intros Hl s'. pose proof (stamp_all_inv _ _ _ _ t [i] (l_core _ _ _ _ Hl)) as Hcore. cbn [foldl] in Hcore.
  destruct (reqs s !! i) as [r|] eqn:Hr.
  2: { unfold s'. by rewrite alter_None, set_reqs_id. }
  unfold s'. rewrite (alter_Some _ _ _ r) in * by done. split.
  - destruct Hl. split; try done; cbn [set_reqs reqs prefill_ws now].
    + intros id. rewrite has_replace by (by eexists). apply l_places0.
    + intros id q [[<- <-]|[_ Hq]]%lookup_insert_Some; [exact (l_started0 i r Hr)|by apply l_started0].
    + intros id q [[<- <-]|[_ Hq]]%lookup_insert_Some; [exact (l_reqs0 i r Hr)|by apply (l_reqs0 id)].
  - unfold Live.pot. cbn [set_reqs heap prefill_ws xfer_queue reqs]. by rewrite (pot_reqs_replace _ _ _ r).
Qed.

Lemma stamp_all_live y x t ids : forall s, live y x s ->
  let s' := set_reqs s (foldl (fun m id => alter (stamp t) id m) (reqs s) ids) in
  live y x s' /\ pot s' = pot s.
Proof.
  induction ids as [|i ids IH]; intros s Hl; cbn [foldl].
  { by rewrite set_reqs_id. }
  destruct (stamp_live y x s t i Hl) as [Hl1 Hp1]. destruct (IH _ Hl1) as [Hl2 Hp2].
  cbn [set_reqs reqs] in *. split; [exact Hl2|]. etransitivity; [exact Hp2|exact Hp1].
Qed.

(** ** Retirement *)

Lemma retire_live y x s w q t : live (Decoder.seq_id q :: y) x s -> (w < workers_d c)%nat -> Forall (event_ok c) x ->
  instant t -> fle (now s) t = true -> left_at c t + 1 <= left_at c (now s) ->
  exists s', retire s w q t = Some s' /\ live y x s' /\ pot s' <= pot s /\ now s' = now s.
Proof.
  intros Hl Hw Hx Ht Hle Hleft. set (id := Decoder.seq_id q) in *.
  pose proof Hw as Hlt. rewrite <- (l_decode_len _ _ _ _ Hl) in Hlt. apply lookup_lt_is_Some in Hlt as [d Hd].
  destruct (in_hand _ _ _ _ id Hl ltac:(left)) as [r Hr].
  destruct (retire s w q t) as [s'|] eqn:E.
  2: { unfold retire in E. rewrite Hd in E. cbn [mbind option_bind set_decode reqs] in E. fold id in E.
       by rewrite Hr in E. }
  exists s'. split; [done|]. destruct (retire_inv _ _ _ _ _ _ _ _ (l_core _ _ _ _ Hl) E) as (Hcore & _).
  unfold retire in E. rewrite Hd in E. cbn [mbind option_bind set_decode reqs] in E. fold id in E. rewrite Hr in E.
  set (d1 := match ds_held d !! id with Some _ => _ | None => _ end) in E.
  assert (ds_sched d1 = ds_sched d /\ ds_curve d1 = ds_curve d /\ ds_pending d1 = ds_pending d) as (E1 & E2 & E3)
    by (unfold d1; by destruct (ds_held d !! id)). clearbody d1.
  set (o := mkOutcome _ _ _ _ _ _ _) in E. injection E as <-.
  destruct (l_reqs _ _ _ _ Hl _ _ Hr) as (_ & Harr & Hbefore).
  pose proof (left_mono c _ _ (moment_instant _ Harr) (moment_instant _ (l_now _ _ _ _ Hl)) Hbefore) as Hmono.
  split; [|split].
  - destruct Hl. split; try done; cbn [push set_outcomes set_reqs set_decode set_heap reqs decode_ws prefill_ws now heap].
    + by rewrite length_insert.
    + apply Forall_insert; [done|]. pose proof (Forall_lookup_1 _ _ _ _ l_decode0 Hd) as [].
      split; by rewrite ?E1, ?E2.
    + intros i. rewrite has_delete by (by eexists). rewrite <- (l_places0 i). unfold places, in_flight.
      cbn [push set_outcomes set_reqs set_decode set_heap decode_ws prefill_ws xfer_queue heap map event].
      rewrite (zsum_insert _ _ _ _ _ Hd), !zsum_app, !zsum_cons. unfold at_decode at 2 3. rewrite E1, E3.
      cbn [at_event]. lia.
    + intros i r' [Hne Hr']%lookup_delete_Some. destruct (l_started0 i r' Hr') as [H|[H|H]]; [by left| |by right; right].
      apply elem_of_cons in H as [->|H]; [done|by right; left].
    + intros i r' [_ Hr']%lookup_delete_Some. by apply (l_reqs0 i).
    + constructor; [|done]. done.
  - unfold Live.pot. cbn [push set_outcomes set_reqs set_decode set_heap heap prefill_ws xfer_queue reqs].
    rewrite zsum_cons, (pot_reqs_delete c _ _ _ Hr). cbn [event at_ms pot_event]. pose proof (life_pos c Hc). nia.
  - done.
Qed.

Lemma retire_all_live x w t dn : (w < workers_d c)%nat -> Forall (event_ok c) x -> instant t -> forall s,
  live (map Decoder.seq_id dn) x s -> fle (now s) t = true -> left_at c t + 1 <= left_at c (now s) ->
  exists s', retire_all s w t dn = Some s' /\ live [] x s' /\ pot s' <= pot s /\ now s' = now s.
Proof.
  intros Hw Hx Ht. induction dn as [|q dn IH]; intros s Hl Hle Hleft; cbn [retire_all map] in *; [by exists s|].
  destruct (retire_live _ x s w q t Hl Hw Hx Ht Hle Hleft) as (s1 & -> & Hl1 & Hp1 & Hn1). cbn [mbind option_bind].
  destruct (IH s1 Hl1) as (s2 & -> & Hl2 & Hp2 & Hn2); [by rewrite Hn1..|].
  exists s2. split; [done|]. split; [done|]. split; [lia|]. congruence.
Qed.
(** ** The handler *)

(** What a decode worker holds is known, once, and has its first token. *)
Lemma held_known x s w d : live [] x s -> decode_ws s !! w = Some d ->
  (forall id, at_decode id d <= 1) /\
  (forall id, 0 < at_decode id d -> exists r t, reqs s !! id = Some r /\ rq_first_token_ms r = Some t /\ moment t).
Proof.
  intros Hl Hd.
  assert (forall id, at_decode id d <= zsum (at_decode id) (decode_ws s)) as Hle.
  { intros id. apply zsum_elem; [intros; apply at_decode_nonneg|by eapply list_elem_of_lookup_2]. }
  split; intros id; [|intros Hpos]; destruct (places_parts _ _ _ _ id Hl) as (H1 & H2 & H3 & H4 & H5 & H6 & H7);
    pose proof (has_nonneg (reqs s) id); specialize (Hle id); [lia|].
  destruct (has_pos (reqs s) id ltac:(lia)) as [r Hr].
  destruct (l_started _ _ _ _ Hl id r Hr) as [Hq|[Hq|(t & Hq)]]; [lia|by apply not_elem_of_nil in Hq|by exists r, t].
Qed.

(** No more sequences run than there are clients. *)
Lemma batch_bound x s w d : live [] x s -> decode_ws s !! w = Some d ->
  Decoder.concurrency (ds_sched d) <= u32_max.
Proof.
  intros Hl Hd. destruct (held_known _ _ _ _ Hl Hd) as [_ Hk].
  assert (dom (Decoder.running (ds_sched d)) ⊆ dom (reqs s)) as Hsub.
  { intros id Hid. apply elem_of_dom in Hid as [q Hq]. apply elem_of_dom.
    destruct (Hk id) as (r & _ & Hr & _); [|by exists r]. unfold at_decode. rewrite (has_Some _ _ _ Hq).
    pose proof (ids_nonneg id (ds_pending d)). lia. }
  apply subseteq_size in Hsub. rewrite !size_dom in Hsub. unfold Decoder.concurrency.
  pose proof (ci_loop _ _ _ _ (l_core _ _ _ _ Hl)). pose proof (cnt_nonneg is_arrival (in_flight x s)).
  pose proof (rn_clients c Hc). lia.
Qed.

(** A step from now ends at a moment, a millisecond nearer the end. *)
Lemma step_end y x s k : live y x s -> 0 < k <= u32_max ->
  let t := fadd (now s) (Mock.curve_step_ms (decode_curve c) k) in
  moment t /\ fle (now s) t = true /\ left_at c t + 1 <= left_at c (now s).
Proof.
  intros Hl Hk. destruct (step_ms_ok c Hc k Hk) as (Hd & H1 & Hbound). pose proof (l_now _ _ _ _ Hl) as Hn.
  split; [|split].
  - apply (moment_add _ _ 54); [done|done|lia|].
    pose proof (l_limit _ _ _ _ Hl) as Hlim. apply instant_le in Hlim;
      [|by apply moment_instant|apply moment_instant, (rn_horizon c Hc)].
    pose proof (rn_limit c Hc) as H2. apply instant_le in H2;
      [|apply moment_instant, (rn_horizon c Hc)|apply instant_of_Z; lia].
    rewrite of_Z_ival in H2 by done. rewrite (pow2_split 54 1074) by lia.
    rewrite (pow2_split 53 1074) in Hbound by lia. pose proof ms_pos. nia.
  - by apply instant_add; [|apply moment_instant].
  - apply (left_step c Hc _ _ _ _ Hl); [by apply moment_instant|done].
Qed.

(** After admission the worker is replaced by one that holds the same
    requests, and may be by any other that holds them with the ones in hand. *)
Lemma admission_live w s : live [] [DecodeStep w] s ->
  exists d0 d, decode_ws s !! w = Some d0 /\
    admit_decode (reqs s) (Deployment.block_size (kv (cfg s))) (now s) d0 (ds_pending d0) = Some d /\
    decode_ok c d /\ pages_ok d /\ Decoder.concurrency (ds_sched d) <= u32_max /\
    forall y' x' d', pages_ok d' -> decode_ok c d' ->
      x' = [DecodeStep w] /\ ds_stepping d' = ds_stepping d \/ x' = [] /\ ds_stepping d' = false ->
      (forall id, at_decode id d' + zsum (is_id id) y' = at_decode id d) ->
      live y' x' (set_decode s (<[w := d']> (decode_ws s))).
Proof.
  intros Hl. pose proof (l_taken _ _ _ _ Hl) as Hx. pose proof Hx as Hlt. apply Forall_cons in Hlt as [Hlt _].
  cbn [event_ok] in Hlt. rewrite <- (l_decode_len _ _ _ _ Hl) in Hlt. apply lookup_lt_is_Some in Hlt as [d0 Hd0].
  assert (decode_ok c d0) as Hok0 by (by eapply Forall_lookup_1; [apply (l_decode _ _ _ _ Hl)|]).
  destruct (held_known _ _ _ _ Hl Hd0) as [Honce Hknown].
  destruct (admit_live c (reqs s) (Deployment.block_size (kv (cfg s))) (now s) (l_now _ _ _ _ Hl) (ds_pending d0) d0 Hok0)
    as (d & Had & Hok & Hat); [|exact Honce|].
  { intros id Hid. destruct (Hknown id) as (r & t & H); [|by exists r, t]. unfold at_decode. apply ids_elem in Hid.
    pose proof (has_nonneg (Decoder.running (ds_sched d0)) id). lia. }
  destruct (ci_decode _ _ _ _ (l_core _ _ _ _ Hl) _ _ Hd0) as [Hp0 _].
  destruct (admit_decode_inv _ _ _ _ _ _ (fun i r Hr => proj2 (ci_reqs _ _ _ _ (l_core _ _ _ _ Hl) i r Hr)) Hp0 Had)
    as [Hp Hst]. change (forall id, at_decode id d = at_decode id d0) in Hat.
  assert (forall y' x' d', pages_ok d' -> decode_ok c d' ->
      x' = [DecodeStep w] /\ ds_stepping d' = ds_stepping d \/ x' = [] /\ ds_stepping d' = false ->
      (forall id, at_decode id d' + zsum (is_id id) y' = at_decode id d) ->
      live y' x' (set_decode s (<[w := d']> (decode_ws s)))) as Hset.
  { intros y' x' d' Hp' Hok' Hcase Hsum. apply (set_decode_live c [] y' _ _ s w d0 d' Hl Hd0); try done.
    - destruct Hcase as [[-> Hs']|[-> Hs']].
      + apply (set_decode_inv _ _ _ _ _ d0); [apply (l_core _ _ _ _ Hl)|done|congruence|done].
      + by apply (resting_inv _ _ _ _ _ d0); [apply (l_core _ _ _ _ Hl)| |..].
    - destruct Hcase as [[-> _]|[-> _]]; [done|constructor].
    - intros id. by destruct Hcase as [[-> _]|[-> _]].
    - intros id. rewrite Hsum, Hat. change (zsum (is_id id) []) with 0. lia.
    - intros id r Hid. by apply not_elem_of_nil in Hid. }
  exists d0, d. split; [done|]. split; [done|]. split; [done|]. split; [done|]. split; [|exact Hset].
  apply (batch_bound [DecodeStep w] (set_decode s (<[w := d]> (decode_ws s))) w).
  - apply Hset; try done; [by left|]. intros id. change (zsum (is_id id) []) with 0. lia.
  - cbn [set_decode decode_ws]. apply list_lookup_insert_eq. by apply lookup_lt_Some in Hd0.
Qed.

Lemma on_decode_step_live w : handled c (DecodeStep w).
Proof.
  intros s Hl. cbn [handle pot_event]. unfold on_decode_step.
  pose proof (l_taken _ _ _ _ Hl) as Hx. pose proof Hx as Hw. apply Forall_cons in Hw as [Hw _]. cbn [event_ok] in Hw.
  destruct (admission_live w s Hl) as (d0 & d & -> & Had & Hok & Hp & Hbound & Hset). cbn [mbind option_bind].
  rewrite Had. cbn [mbind option_bind]. clear Had. pose proof Hok as [Hs Hcur Htimes]. rewrite Hcur.
  destruct (Z.eqb_spec (Decoder.concurrency (ds_sched d)) 0) as [Hzero|Hpos].
  - destruct (ds_pending d) as [|i l] eqn:Hpend.
    + set (d1 := mkDecodeSim _ _ _ _ _ _ _ _). exists (set_decode s (<[w := d1]> (decode_ws s))). split; [done|].
      split; [|pose proof (left_nonneg c (now s)); change (pot (set_decode s _)) with (pot s); lia].
      apply Hset; [done|by split|by right|].
      intros id. unfold at_decode. cbn [d1 ds_pending ds_sched]. rewrite Hpend. change (zsum (is_id id) []) with 0. lia.
    + eexists. split; [reflexivity|]. destruct (step_end _ _ _ 1 Hl ltac:(unfold u32_max; lia)) as (Ht & Hle & Hleft).
      set (t := fadd (now s) _) in *.
      assert (live [] [DecodeStep w] (set_decode s (<[w := d]> (decode_ws s)))) as Hl1.
      { apply Hset; [done|done|by left|]. intros id. change (zsum (is_id id) []) with 0. lia. }
      destruct (push_live c _ _ _ _ t Hl1 (moment_instant _ Ht) Hle) as [Hl2 Hp2].
      split; [exact Hl2|]. rewrite Hp2. cbn [pot_event]. change (pot (set_decode s _)) with (pot s). lia.
  - assert (0 < Decoder.concurrency (ds_sched d) <= u32_max) as Hk by (unfold Decoder.concurrency in *; lia).
    destruct (step_end _ _ _ _ Hl Hk) as (Ht & Hle & Hleft).
    set (ms := Mock.curve_step_ms _ _) in *. set (t := fadd (now s) ms) in *. clearbody t.
    destruct (step_batch (ds_sched d) t ms Hs ltac:(unfold u32_max in Hk; lia) Ht Htimes)
      as (sc & dn & -> & Hs1 & Htimes1 & Hsum). cbn [mbind option_bind].
    set (d1 := mkDecodeSim _ _ _ _ _ _ _ _). set (k := mkCounters _ _ _ _ _ _ _ _).
    assert (live (map Decoder.seq_id dn) [DecodeStep w] (set_decode s (<[w := d1]> (decode_ws s)))) as Hl1.
    { apply Hset; [done|by split|by left|]. intros id. unfold at_decode. cbn [d1 ds_pending ds_sched].
      rewrite <- (Hsum id). lia. }
    apply (counters_live c _ _ _ k) in Hl1. set (s1 := set_counters _ k) in *.
    set (ids := map Decoder.seq_id (Decoder.values sc)).
    destruct (stamp_all_live _ _ t ids s1 Hl1) as [Hl2 Hp2]. set (s2 := set_reqs s1 _) in *.
    destruct (retire_all_live [DecodeStep w] w t dn Hw Hx (moment_instant _ Ht) s2 Hl2 Hle Hleft)
      as (s3 & -> & Hl3 & Hp3 & Hn3). cbn [mbind option_bind].
    eexists. split; [reflexivity|]. change (now s2) with (now s) in Hn3. rewrite <- Hn3 in Hle.
    destruct (push_live c _ _ _ _ t Hl3 (moment_instant _ Ht) Hle) as [Hl4 Hp4]. split; [exact Hl4|].
    rewrite Hp4. cbn [pot_event]. change (pot s1) with (pot s) in Hp2. lia.
Qed.
End run.
End Stepping.
