(* ===== verification/SimEnds.v ===== *)
(** * A simulation ends, and what holds while it runs ([crates/sim/src/sim.rs])

    The start of a run is a live state, the event loop keeps it so and spends
    its potential, and the properties of a run follow. *)

From Stdlib Require Import ZArith Lia SpecFloat.
From stdpp Require Import base option list numbers pretty gmap strings.
From S2P Require Import Prelude F64 F64Int Clock Core Policy Prefill Controller Decode Pool.
From S2P Require Import Radix Router Capacity Engine Config Sim SimTime SimLive SimHandle SimDecode.

Module Ends.
Import Deployment Simulation Timing Live Handlers Stepping.
Local Open Scope Z_scope.

(** The events of a run number at most this many: what each client's first
    arrival is worth. *)
Definition event_bound (c : Config) : Z :=
  w_concurrency (workload c) * (life c * (ends c + 1)).

(** The states of a run: the start, and the state after each event that fires
    within the simulated span. *)
Inductive running (c : Config) : Simulator -> Prop :=
  | run_start : running c (start (sim_new c))
  | run_event s ev rest s' : running c s -> heap_pop (heap s) = Some (ev, rest) ->
      fgt (at_ms ev) (horizon_ms s) = false ->
      handle (set_now (set_heap s rest (seq s)) (at_ms ev)) (event ev) = Some s' -> running c s'.

(** ** The registry of a fresh simulator *)

Lemma register_all (mk : Z -> Routing.WorkerState) l : forall r, Routing.reg_inv r ->
  let r' := foldl (fun r i => Routing.register r (mk i)) r l in
  Routing.reg_inv r' /\ Routing.stale_after_ms r' = Routing.stale_after_ms r /\
  (forall id w, Routing.reg_workers r' !! id = Some w ->
     (exists i, i ∈ l /\ w = mk i) \/ Routing.reg_workers r !! id = Some w) /\
  (forall id w, Routing.reg_workers r !! id = Some w ->
     (exists i, i ∈ l /\ Routing.wid (mk i) = id) \/ Routing.reg_workers r' !! id = Some w) /\
  (forall i, i ∈ l -> exists j, j ∈ l /\ Routing.reg_workers r' !! Routing.wid (mk i) = Some (mk j)).
Proof.
  induction l as [|a l IH]; intros r Hr; cbn [foldl].
  { split; [done|]. split; [done|]. split; [by right|]. split; [by right|]. by intros i ?%not_elem_of_nil. }
  destruct (IH _ (Routing.register_inv r (mk a) Hr)) as (H1 & H2 & H3 & H4 & H5).
  split; [done|]. split; [done|]. split; [|split].
  - intros id w Hw. destruct (H3 id w Hw) as [(i & Hi & E)|H]; [left; exists i; split; [by right|done]|].
    cbn [Routing.register Routing.reg_workers] in H. apply lookup_insert_Some in H as [[_ <-]|[_ H]]; [|by right].
    left. exists a. split; [by left|done].
  - intros id w Hw. destruct (decide (Routing.wid (mk a) = id)) as [E|Hne]; [left; exists a; split; [by left|done]|].
    destruct (H4 id w) as [(i & Hi & E)|H]; [|left; exists i; split; [by right|done]|by right].
    cbn [Routing.register Routing.reg_workers]. by rewrite lookup_insert_ne.
  - intros i Hi. apply elem_of_cons in Hi as [->|Hi].
    + destruct (H4 (Routing.wid (mk a)) (mk a)) as [(j & Hj & E)|H].
      * by apply lookup_insert_eq.
      * destruct (H5 j Hj) as (k & Hk & Hl). exists k. split; [by right|]. by rewrite <- E.
      * exists a. split; [by left|done].
    + destruct (H5 i Hi) as (j & Hj & H). exists j. split; [by right|done].
Qed.

Section run.
Context (c : Config) (Hc : runnable c).
Local Abbreviation live := (Live.live c).
Local Abbreviation pot := (Live.pot c).

Lemma new_registry : registry_ok c (Routing.registry (router (sim_new c))).
Proof.
  unfold sim_new. cbn [router Routing.router_new Routing.registry].
  set (lp := Routing.mkLoad _ _ _ f0 _ _ _ _). set (ld := Routing.mkLoad _ _ _ (fmul _ _) _ _ _ _).
  set (mkp := fun i => Routing.mkWorker i Routing.Prefill ("sim://prefill/" +:+ pretty i) (prefill_tp (topology c)) true lp).
  set (mkd := fun j => Routing.mkWorker (DECODE_ID_BASE + j) Routing.Decode ("sim://decode/" +:+ pretty j)
    (decode_tp (topology c)) true ld).
  set (r0 := Routing.registry_new _).
  assert (Routing.reg_inv r0) as H0 by (intros id w Hw; cbn in Hw; by rewrite lookup_empty in Hw).
  destruct (register_all mkp (seqZ 0 (prefill_workers (topology c))) r0 H0) as (Hi1 & Hs1 & Hof1 & _ & Hin1).
  set (r1 := foldl _ r0 _) in *.
  destruct (register_all mkd (seqZ 0 (decode_workers (topology c))) r1 Hi1) as (Hi2 & Hs2 & Hof2 & Hkeep2 & Hin2).
  set (r2 := foldl _ r1 _) in *. pose proof (rn_prefill c Hc). pose proof (rn_decode c Hc).
  split; [done| | | |by rewrite Hs2, Hs1].
  - intros id w Hw. pose proof (Hi2 id w Hw) as <-. destruct (Hof2 _ w Hw) as [(j & Hj & ->)|Hw1].
    + apply elem_of_seqZ in Hj. cbn. split; [done|]. unfold DECODE_ID_BASE. lia.
    + destruct (Hof1 _ w Hw1) as [(i & Hi & ->)|Hw0]; [|cbn in Hw0; by rewrite lookup_empty in Hw0].
      apply elem_of_seqZ in Hi. cbn. split; [done|]. lia.
  - destruct (Hin1 0) as (j & Hj & Hw); [apply elem_of_seqZ; lia|]. cbn [mkp Routing.wid] in Hw.
    destruct (Hkeep2 0 (mkp j) Hw) as [(i & Hi & E)|H']; [|by exists (mkp j)].
    apply elem_of_seqZ in Hi. cbn [mkd Routing.wid] in E. unfold DECODE_ID_BASE in E. lia.
  - destruct (Hin2 0) as (j & Hj & Hw); [apply elem_of_seqZ; lia|]. by exists (mkd j).
Qed.

(** ** The start *)

Lemma arrivals_cnt l : cnt is_arrival (map Arrival l) = Z.of_nat (length l) /\
  (forall w, cnt (is_prefill_done w) (map Arrival l) = 0) /\ (forall w, cnt (is_decode_step w) (map Arrival l) = 0) /\
  cnt is_kv_arrived (map Arrival l) = 0.
Proof.
  induction l as [|k l (H1 & H2 & H3 & H4)]; [done|]. cbn [map]. rewrite !cnt_cons. cbn [is_arrival is_kv_arrived Z.b2z length].
  split; [lia|]. split; [intros w; rewrite cnt_cons; apply H2|]. split; [intros w; rewrite cnt_cons; apply H3|done].
Qed.

Lemma arrivals_clients l : omap arrival_client (map Arrival l) = l.
Proof. induction l as [|k l IH]; [done|]. cbn [map omap list_omap arrival_client]. by rewrite IH. Qed.

Lemma idle_workers_place id : zsum (at_prefill id) (prefill_ws (sim_new c)) = 0 /\
  zsum (at_decode id) (decode_ws (sim_new c)) = 0.
Proof.
  unfold sim_new. cbn [prefill_ws decode_ws]. split; apply zsum_zero; intros p Hp; apply elem_of_replicate in Hp as [-> _].
  - done.
  - unfold at_decode. cbn [ds_pending ds_sched]. by destruct (EngineConf.enabled _).
Qed.

(** The simulator with the arrivals of all clients still in hand. *)
Lemma idle_live l : l = List.seq 0 (Z.to_nat (w_concurrency (workload c))) ->
  live [] (map Arrival l) (set_horizon (sim_new c) (horizon c)).
Proof.
  intros Hl. assert (Z.of_nat (length l) = w_concurrency (workload c)) as Hlen.
  { destruct (rn_ok c Hc) as (_ & _ & ? & _). rewrite Hl, length_seq. lia. }
  pose proof (new_inv c (horizon c) (rn_ok c Hc)) as Hcore.
  destruct (arrivals_cnt l) as (A1 & A2 & A3 & A4). pose proof (rn_horizon c Hc) as Hh. split; try done.
  - destruct Hcore. unfold in_flight in *. cbn [set_horizon sim_new heap map app] in *. 
    split; unfold in_flight; cbn [set_horizon sim_new heap map]; rewrite ?app_nil_r; try done.
    + unfold waiting_clients. rewrite arrivals_clients, Hl. unfold clients_of. cbn [set_horizon sim_new reqs].
      by rewrite fmap_empty, map_to_list_empty, app_nil_r.
    + rewrite A1. cbn [set_horizon sim_new reqs] in *. change (cnt is_arrival []) with 0 in ci_loop0. lia.
    + intros w p Hp. rewrite A2. by apply (ci_prefill0 w).
    + intros w d Hd. rewrite A3. by apply (ci_decode0 w).
    + rewrite A4. exact ci_xfer0.
  - by destruct Hh as [(_ & _ & ?) _].
  - cbn [set_horizon sim_new prefill_ws]. apply length_replicate.
  - cbn [set_horizon sim_new decode_ws]. apply length_replicate.
  - exact new_registry.
  - apply Trie.radix_new_inv.
  - apply Forall_replicate. split; [apply Sched.sched_new_inv|done..].
  - apply Forall_replicate. split; cbn [ds_sched ds_curve].
    + destruct (EngineConf.enabled _); split; cbn; try set_solver; intros id q Hq; by rewrite lookup_empty in Hq.
    + done.
    + intros id q Hq. exfalso. by destruct (EngineConf.enabled _); cbn in Hq; rewrite lookup_empty in Hq.
  - intros id. destruct (idle_workers_place id) as [E1 E2]. unfold places, in_flight.
    cbn [set_horizon prefill_ws decode_ws xfer_queue heap reqs]. rewrite E1, E2, app_nil_r.
    rewrite zsum_map, (zsum_zero (fun a => at_event id (Arrival a))) by done. by rewrite has_None by apply lookup_empty.
  - apply Forall_fmap, Forall_true. done.
Qed.

Lemma arrivals_live l : forall s, live [] (map (fun k => Arrival (Z.to_nat k)) l) s -> now s = f0 ->
  let s' := foldl (fun s client => push s f0 (Arrival (Z.to_nat client))) s l in
  live [] [] s' /\ pot s' = pot s + Z.of_nat (length l) * (life c * (left_at c f0 + 1)).
Proof.
  induction l as [|k l IH]; intros s Hl Hn; cbn [foldl map length]; [split; [done|lia]|].
  cbn [map] in Hl. destruct (push_live c _ _ _ _ f0 Hl (moment_instant _ moment_0)) as [Hl1 Hp1]; [by rewrite Hn|].
  destruct (IH _ Hl1 Hn) as [Hl2 Hp2]. split; [exact Hl2|]. rewrite Hp2, Hp1. cbn [pot_event]. lia.
Qed.

Lemma start_live_all : live [] [] (start (sim_new c)) /\ pot (start (sim_new c)) = event_bound c.
Proof.
  destruct (rn_ok c Hc) as (_ & _ & Hn & _). unfold start. cbn zeta. change (cfg (sim_new c)) with c. fold (horizon c).
  set (l := seqZ 0 (w_concurrency (workload c))).
  assert (Z.of_nat (length l) = w_concurrency (workload c)) as Hlen by (unfold l; rewrite length_seqZ; lia).
  destruct (arrivals_live l (set_horizon (sim_new c) (horizon c))) as [Hl Hp]; [|done|].
  { replace (map (fun k => Arrival (Z.to_nat k)) l) with (map Arrival (map Z.to_nat l)) by by rewrite map_map.
    apply idle_live. unfold l, seqZ. rewrite map_map. apply list_eq. intros i. rewrite list_lookup_fmap.
    destruct (List.seq 0 _ !! i) as [j|]; [|done]. cbn. by rewrite Z.add_0_r, Nat2Z.id. }
  split; [exact Hl|]. rewrite Hp, Hlen. unfold event_bound.
  assert (left_at c f0 = ends c) as -> by (unfold left_at; change (tick f0) with 0; pose proof (ends_pos c Hc); lia).
  assert (pot (set_horizon (sim_new c) (horizon c)) = 0) as ->; [|lia].
  unfold Live.pot. cbn [set_horizon sim_new heap xfer_queue reqs prefill_ws].
  rewrite (zsum_zero _ (replicate _ _)); [done|]. intros p Hp'. apply elem_of_replicate in Hp' as [-> _].
  unfold pot_queue, Sched.total_remaining. cbn [ps_sched Sched.sched_new Sched.queue].
  rewrite map_fold_empty, map_size_empty. lia.
Qed.
(** ** The loop *)

Lemma all_handled e : handled c e.
Proof.
  destruct e; [by apply on_arrival_live|by apply prefill_done_live|by apply on_kv_arrived_live|by apply on_decode_step_live].
Qed.

(** The event taken from the heap is the earliest: with it in hand the clock
    moves there. *)
Lemma pop_live s ev rest : live [] [] s -> heap_pop (heap s) = Some (ev, rest) ->
  fgt (at_ms ev) (horizon_ms s) = false ->
  let s1 := set_now (set_heap s rest (seq s)) (at_ms ev) in
  live [] [event ev] s1 /\ pot s = pot s1 + pot_event c (event ev) (now s1) /\
  moment (at_ms ev) /\ fle (now s) (at_ms ev) = true.
Proof.
  intros Hl Hpop Hgt s1. destruct (heap_pop_spec _ _ _ Hpop) as [Hp Hmin].
  assert (core_inv c (w_concurrency (workload c)) [event ev] s1) as Hcore.
  { apply set_now_inv. apply (core_perm _ _ _ _ _ _ _ (l_core _ _ _ _ Hl)). unfold in_flight. cbn [app].
    change (event ev :: map event rest) with (map event (ev :: rest)). by apply Permutation_map. }
  pose proof (l_heap _ _ _ _ Hl) as Hh. rewrite Hp in Hh. apply Forall_cons in Hh as [(Hok & Hi & Hle) Hrest].
  rewrite (l_horizon _ _ _ _ Hl) in Hgt. pose proof (rn_horizon c Hc) as Hhz.
  assert (fle (at_ms ev) (horizon c) = true) as Hlim.
  { rewrite fle_negb_flt; [by change (flt (horizon c) (at_ms ev) = false) in Hgt; rewrite Hgt|by destruct Hi as (_ & ? & _)|by destruct Hhz as [(_ & ? & _) _]]. }
  assert (moment (at_ms ev)) as Hm.
  { split; [done|]. by apply (finite_le _ (horizon c)); [|apply moment_instant| |destruct Hhz]. }
  split; [|split; [|done]].
  - destruct Hl. split; try done; unfold s1; cbn [set_now set_heap now heap reqs prefill_ws].
    + intros id. rewrite <- (l_places0 id). unfold places, in_flight. cbn [set_now set_heap prefill_ws xfer_queue decode_ws heap].
      rewrite (zsum_perm _ _ _ (Permutation_map event Hp)). cbn [map app]. lia.
    + intros id r Hr. destruct (l_reqs0 id r Hr) as (H1 & H2 & H3). split; [done|]. split; [done|].
      exact (fle_trans _ _ _ H3 Hle).
    + by constructor.
    + rewrite Forall_forall in *. intros e He. destruct (Hrest e He) as (H1 & H2 & _). split; [done|]. split; [done|].
      apply key_fle; [done|done|]. specialize (Hmin e He).
      unfold cmp_le, cmp_scheduled, cmp_rev, cmp_then, then_cmp, cmp_on in Hmin.
      destruct (Z.compare_spec (total_key (at_ms ev)) (total_key (at_ms e))); [lia|lia|done].
  - unfold Live.pot, s1. cbn [set_now set_heap now heap prefill_ws xfer_queue reqs].
    rewrite (zsum_perm _ _ _ Hp), zsum_cons. lia.
Qed.

Lemma running_live s : running c s -> live [] [] s.
Proof.
  induction 1 as [|s ev rest s' _ IH Hpop Hgt Hh]; [apply start_live_all|].
  destruct (pop_live s ev rest IH Hpop Hgt) as (Hl & _ & _). destruct (all_handled _ _ Hl) as (s1 & E & Hl1 & _).
  congruence.
Qed.

Lemma loop_ends fuel : forall s, live [] [] s -> pot s < Z.of_nat fuel -> exists s', run_loop fuel s = Some s'.
Proof.
  induction fuel as [|fuel IH]; intros s Hl Hf; cbn [run_loop]; [pose proof (pot_nonneg c Hc s); lia|].
  destruct (heap_pop (heap s)) as [[ev rest]|] eqn:Hpop; [|by exists s].
  cbn [set_heap horizon_ms]. destruct (fgt _ _) eqn:Hgt; [by eexists|].
  destruct (pop_live s ev rest Hl Hpop Hgt) as (Hl1 & Hp1 & _). destruct (all_handled _ _ Hl1) as (s2 & E & Hl2 & Hp2).
  rewrite E. cbn [mbind option_bind]. apply IH; [done|lia].
Qed.
End run.

Lemma runnable_make c : runnable c -> sim_make c = Some (sim_new c).
Proof.
  intros Hc. unfold sim_make, ctl_make. rewrite (rn_limit_seqs c Hc). by destruct (_ =? _).
Qed.

Lemma run_ends (c : Config) (fuel : nat) : runnable c -> event_bound c < Z.of_nat fuel ->
  exists r, simulate fuel c = Some r /\
    0 <= requests_issued (diagnostics r) - Z.of_nat (requests_completed (diagnostics r)) <= w_concurrency (workload c).
Proof.
  intros Hc Hf. destruct (start_live_all c Hc) as [Hl Hp]. unfold simulate. rewrite runnable_make by done.
  cbn [mbind option_bind]. unfold run.
  destruct (loop_ends c Hc fuel _ Hl ltac:(lia)) as [s Hs]. rewrite Hs. cbn [mbind option_bind].
  eexists. split; [reflexivity|]. by apply (loop_accounts c fuel s (rn_ok c Hc)).
Qed.

(** ** Theorems *)

(** C2. A simulation of a runnable configuration ends with a report: no handler
    reaches an [expect], an index out of range or a routing failure, the event
    loop stops within the bound (which grows with the clients, the prompt and
    the square of the simulated milliseconds), and the report adds up. *)
Theorem run_total (c : Config) (fuel : nat) :
  runnable c -> event_bound c < Z.of_nat fuel ->
  exists r, simulate fuel c = Some r /\
    0 <= requests_issued (diagnostics r) - Z.of_nat (requests_completed (diagnostics r)) <= w_concurrency (workload c).
Proof. apply run_ends. Qed.

(** Events of a run are well formed and in order: the next one within the span
    is due at a finite time not before the clock, names a worker that exists,
    and its handler succeeds. *)
Theorem next_event_fires (c : Config) (s : Simulator) (ev : Scheduled) (rest : list Scheduled) :
  runnable c -> running c s -> heap_pop (heap s) = Some (ev, rest) -> fgt (at_ms ev) (horizon_ms s) = false ->
  moment (at_ms ev) /\ fle (now s) (at_ms ev) = true /\ event_ok c (event ev) /\
  exists s', handle (set_now (set_heap s rest (seq s)) (at_ms ev)) (event ev) = Some s' /\ now s' = at_ms ev.
Proof.
  intros Hc Hr Hpop Hgt. destruct (pop_live c Hc s ev rest (running_live c Hc s Hr) Hpop Hgt) as (Hl & _ & Hm & Hle).
  split; [done|]. split; [done|]. split; [by pose proof (l_taken _ _ _ _ Hl) as [? _]%Forall_cons|].
  destruct (all_handled c Hc _ _ Hl) as (s' & E & _). exists s'. split; [done|]. by apply handle_now in E.
Qed.

(** C3. Requests are conserved: in every state of a run each request known to the
    simulator is in exactly one place (the queue of a prefill worker, the
    transfer queue, an arrival in flight, or the pending queue or the batch of
    a decode worker), and nothing else is in any of them; it has its first
    token once it has left prefill. *)
Theorem requests_conserved (c : Config) (s : Simulator) (id : RequestId) :
  runnable c -> running c s ->
  zsum (at_prefill id) (prefill_ws s) + zsum (fun q => is_id id q.1) (xfer_queue s) +
  zsum (at_event id) (map event (heap s)) + zsum (at_decode id) (decode_ws s) = has (reqs s) id /\
  forall r, reqs s !! id = Some r -> zsum (at_prefill id) (prefill_ws s) = 0 ->
    exists t, rq_first_token_ms r = Some t /\ moment t.
Proof.
  intros Hc Hr. pose proof (running_live c Hc s Hr) as Hl. split.
  - pose proof (l_places _ _ _ _ Hl id) as H. unfold places, in_flight in H. cbn [app] in H.
    change (zsum (is_id id) []) with 0 in H. lia.
  - intros r Hid Hz. destruct (l_started _ _ _ _ Hl id r Hid) as [H|[H|H]]; [lia|by apply not_elem_of_nil in H|done].
Qed.

(** ** The theorems at the default configuration *)

Lemma config_default_runnable : runnable config_default.
Proof.
  split; try (vm_compute; repeat split; discriminate); try (repeat split; vm_compute; reflexivity).
Qed.

Lemma run_total_witness : exists fuel r, simulate fuel config_default = Some r /\
  0 <= requests_issued (diagnostics r) - Z.of_nat (requests_completed (diagnostics r)) <= w_concurrency workload_default.
Proof.
  exists (S (Z.to_nat (event_bound config_default))).
  apply (run_total config_default _ config_default_runnable). lia.
Defined.
Lemma config_small_runnable : runnable config_small.
Proof.
  split; try (vm_compute; repeat split; discriminate); try (repeat split; vm_compute; reflexivity).
Qed.

Lemma next_event_fires_witness :
  exists s ev rest, running config_small s /\ heap_pop (heap s) = Some (ev, rest) /\
    moment (at_ms ev) /\ event ev = Arrival 0.
Proof.
  exists (start (sim_new config_small)), (mkScheduled f0 1 (Arrival 0)), [mkScheduled f0 2 (Arrival 1)].
  assert (heap_pop (heap (start (sim_new config_small))) =
    Some (mkScheduled f0 1 (Arrival 0), [mkScheduled f0 2 (Arrival 1)])) as Hp by (vm_compute; reflexivity).
  split; [exact (run_start _)|]. split; [exact Hp|]. split; [|reflexivity].
  exact (proj1 (next_event_fires config_small _ _ _ config_small_runnable (run_start _) Hp
    ltac:(vm_compute; reflexivity))).
Defined.

(** After the first arrival, request 0 is in the queue of the prefill worker. *)
Lemma requests_conserved_witness : exists s,
  running config_small s /\ has (reqs s) 0 = 1 /\ zsum (at_prefill 0) (prefill_ws s) = 1 /\
  zsum (at_decode 0) (decode_ws s) <= 0.
Proof.
  set (s0 := start (sim_new config_small)). set (ev := mkScheduled f0 1 (Arrival 0)).
  set (rest := [mkScheduled f0 2 (Arrival 1)]).
  assert (match handle (set_now (set_heap s0 rest (seq s0)) (at_ms ev)) (event ev) with
    Some s => (has (reqs s) 0, zsum (at_prefill 0) (prefill_ws s), zsum (fun q => is_id 0 q.1) (xfer_queue s),
               zsum (at_event 0) (map event (heap s))) | None => (0, 0, 0, 0) end = (1, 1, 0, 0)) as H
    by (vm_compute; reflexivity).
  assert (heap_pop (heap s0) = Some (ev, rest)) as Hpop by (vm_compute; reflexivity).
  assert (fgt (at_ms ev) (horizon_ms s0) = false) as Hgt by (vm_compute; reflexivity).
  destruct (handle (set_now (set_heap s0 rest (seq s0)) (at_ms ev)) (event ev)) as [s|] eqn:E; [|discriminate H].
  exists s. assert (running config_small s) as Hr by exact (run_event _ s0 ev rest s (run_start _) Hpop Hgt E).
  injection H as H1 H2 H3 H4. split; [exact Hr|]. split; [exact H1|]. split; [exact H2|].
  destruct (requests_conserved config_small s 0 config_small_runnable Hr) as [Hc _].
  rewrite H1, H2, H3, H4 in Hc. lia.
Defined.
End Ends.
