(* ===== verification/Report.v ===== *)
(** * What the components report ([crates/sim/src/report.rs],
    [crates/core/src/verdict.rs] [Verdict::summary], [crates/pyext/src/lib.rs] [RustScheduler::stats])

    The lines a person reads and the numbers a monitor polls, with what they
    say of the values they are made from. *)

From Stdlib Require Import ZArith Lia Ascii String.
From stdpp Require Import base option list numbers pretty gmap strings.
From S2P Require Import Prelude F64 F64Int Clock Text Core Controller Decide Capacity Remedy Sim.

Module Report.
Import Text Simulation.
Local Open Scope string_scope.
Local Open Scope list_scope.
Local Open Scope Z_scope.

(** ** A simulated run *)

Definition summary (r : SimReport) : string :=
  let g := goodput r in
  "goodput " +:+ pad_left 6 (fixed 2 (goodput_req_s g)) +:+ " req/s | good " +:+
  pad_left 5 (fixed 1 (fmul (good_frac g) (of_Z 100))) +:+ "% | req/s " +:+ pad_left 6 (fixed 2 (req_per_s g)) +:+
  " | TTFT p99 " +:+ pad_left 7 (fixed 1 (p99 (rep_ttft g))) +:+ " ms | ITL mean " +:+
  pad_left 5 (fixed 2 (lat_mean (rep_itl g))) +:+ " ms | decode C " +:+
  pad_left 5 (fixed 1 (mean_decode_concurrency (diagnostics r))) +:+ " | batch " +:+
  fixed 2 (mean_prefill_batch_seqs (diagnostics r)) +:+ " seq".

Definition extrapolation_caveat (r : SimReport) : string :=
  "decode ran at up to " +:+ pretty (peak_decode_concurrency (diagnostics r)) +:+
  " concurrent sequences but the ITL curve is calibrated at " +:+ fixed 0 (diag_calibrated_concurrency (diagnostics r)) +:+
  "; the goodput above is an extrapolation of an unidentified curve, not a prediction".

Definition small_sample_caveat (r : SimReport) : string :=
  "only " +:+ pretty (Z.of_nat (total_requests (goodput r))) +:+
  " requests fell inside the scored window; widen benchmark_s before comparing runs".

Definition caveats (r : SimReport) : list string :=
  (if extrapolated_beyond_calibration (diagnostics r) then [extrapolation_caveat r] else []) ++
  (if (total_requests (goodput r) <? 100)%nat then [small_sample_caveat r] else []).

(** ** A measured run *)

(** [{:?}] *)
Definition debug_bottleneck (b : Planner.Bottleneck) : string :=
  match b with Planner.BnPrefill => "Prefill" | Planner.BnDecode => "Decode" | Planner.BnKvTransfer => "KvTransfer" end.

Definition verdict_summary (v : Assess.RunVerdict) : string :=
  match Assess.diagnosis v with
  | Assess.Met =>
      "MET: " +:+ fixed 2 (Assess.run_goodput_req_s (Assess.measured v)) +:+ " against " +:+
      fixed 2 (Assess.predicted_goodput_req_s v) +:+ " req/s predicted (" +:+
      fixed 0 (fmul (Assess.ratio v) (of_Z 100)) +:+ "%)"
  | Assess.NothingServed => "NOTHING SERVED: this measured a failure, not the deployment"
  | Assess.ItlGate m b =>
      "ITL GATE: " +:+ fixed 1 m +:+ " ms against a " +:+ fixed 0 b +:+ " ms budget (" +:+ fixed 1 (fdiv m b) +:+
      "x over). Requests were served and were too slow between tokens; TTFT was not the problem."
  | Assess.TtftGate m b =>
      "TTFT GATE: p90 " +:+ fixed 0 m +:+ " ms against a " +:+ fixed 0 b +:+
      " ms budget. Tokens came fast enough once they started."
  | Assess.BothGates i ib t tb =>
      "BOTH GATES: ITL " +:+ fixed 1 i +:+ " ms against " +:+ fixed 0 ib +:+ " (" +:+ fixed 2 (fdiv i ib) +:+
      "x over) and TTFT p90 " +:+ fixed 0 t +:+ " ms against " +:+ fixed 0 tb +:+ " (" +:+ fixed 2 (fdiv t tb) +:+
      "x over). Neither side is fine; the larger miss is " +:+
      (if fgt (fdiv t tb) (fdiv i ib) then "prefill" else "decode") +:+ "."
  | Assess.ThroughputShortfall m p b =>
      "SHORTFALL: " +:+ fixed 2 m +:+ " against " +:+ fixed 2 p +:+
      " req/s with both gates passing, which points at " +:+ debug_bottleneck b +:+ " rather than at a latency."
  end.

(** ** The scheduler's statistics *)

Definition stats (s : Capacity.RustScheduler) : gmap string f64 :=
  let '(away, away_max_ms) := Capacity.absent s (Capacity.last_now_ms s) in
  foldl (fun m kv => <[kv.1 := kv.2]> m) ∅
    [("admitted", of_Z (Capacity.admitted_total s)); ("refused", of_Z (Capacity.paused_total s));
     ("cap", cap (Capacity.rs_controller s)); ("finish_disagreements", f0);
     ("observed_itl_ms", ewma_ms (Capacity.rs_controller s)); ("samples", of_Z (samples (Capacity.rs_controller s)));
     ("absent", of_nat away); ("absent_max_ms", away_max_ms); ("tracked", of_nat (size (Capacity.ledger s)));
     ("concurrency_not_binding", if concurrency_not_binding (Capacity.rs_controller s) then f1 else f0);
     ("steps_observed", of_Z (Capacity.steps_observed s)); ("kv_total_blocks", of_Z (Capacity.rs_kv_total_blocks s));
     ("kv_free_blocks_last", of_Z (Capacity.last_kv_free_blocks s)); ("last_now_ms", Capacity.last_now_ms s)].

(** ** Facts *)

Definition away (e : Capacity.LedgerEntry) : bool := 0 <? Capacity.steps_absent e.

Lemma absent_count now l : forall acc,
  (foldl (Capacity.absent_one now) acc l).1 = (acc.1 + length (filter (fun e => away e = true) l))%nat.
Proof.
  induction l as [|e l IH]; intros acc; cbn [foldl]; [cbn; lia|]. rewrite IH, filter_cons.
  unfold Capacity.absent_one, away. destruct (0 <? Capacity.steps_absent e) eqn:E; cbn [fst].
  - rewrite decide_True by done. cbn [length]. lia.
  - by rewrite decide_False.
Qed.

Lemma absent_size s now : (Capacity.absent s now).1 = size (filter (fun p => away p.2 = true) (Capacity.ledger s)).
Proof.
  unfold Capacity.absent. rewrite absent_count. cbn [fst].
  rewrite <- (length_map_to_list (filter _ _)), map_filter_alt, map_to_list_to_map.
  - induction (map_to_list (Capacity.ledger s)) as [|[i e] l IH]; [done|]. cbn [fmap list_fmap]. rewrite !filter_cons.
    cbn [snd]. destruct (decide (away e = true)); cbn [length]; lia.
  - apply (sublist_NoDup _ (map_to_list (Capacity.ledger s)).*1); [apply NoDup_fst_map_to_list|].
    apply fmap_sublist, sublist_filter.
Qed.

(** ** Theorems *)

(** A report is free of caveats exactly when the run stayed within the
    calibrated concurrency and scored at least a hundred requests; each
    violation is a line of its own, the extrapolation first. *)
Theorem caveats_exact (r : SimReport) :
  (caveats r = [] <-> extrapolated_beyond_calibration (diagnostics r) = false /\ (100 <= total_requests (goodput r))%nat) /\
  (extrapolation_caveat r ∈ caveats r -> small_sample_caveat r ∈ caveats r ->
   caveats r = [extrapolation_caveat r; small_sample_caveat r]).
Proof.
  unfold caveats. split.
  - destruct (extrapolated_beyond_calibration (diagnostics r)), (Nat.ltb_spec (total_requests (goodput r)) 100);
      cbn [app]; (split; [intros H0|intros [H0 H1]]); first [done|lia|split; [done|lia]].
  - destruct (extrapolated_beyond_calibration (diagnostics r)), (total_requests (goodput r) <? 100)%nat;
      cbn [app]; rewrite ?list_elem_of_singleton; intros H1 H2; try done; try (by apply not_elem_of_nil in H1);
      exfalso; unfold extrapolation_caveat, small_sample_caveat in *; discriminate.
Qed.

(** After a decision, the statistics say how many of the tracked requests were
    not offered in it: those that are, are tracked and not absent. *)
Theorem absence_reaches_the_stats (s s' : Capacity.RustScheduler) ids ctx pl cd tg mn arr infl free now r :
  (forall id e, Capacity.ledger s !! id = Some e -> 0 <= Capacity.steps_absent e) ->
  Capacity.decide_call s ids ctx pl cd tg mn arr infl free now = Ok (s', r) ->
  stats s' !! "absent" = Some (of_nat (size (filter (fun p => p.1 ∉ ids) (Capacity.ledger s')))) /\
  stats s' !! "tracked" = Some (of_nat (size (Capacity.ledger s'))) /\ stats s' !! "last_now_ms" = Some now /\
  (forall id, id ∈ ids -> is_Some (Capacity.ledger s' !! id)) /\
  (forall id e, Capacity.ledger s' !! id = Some e -> 0 <= Capacity.steps_absent e).
Proof.
  intros Hpos H. unfold Capacity.decide_call in H.
  destruct (Capacity.validate_lengths _ _) as [u|]; cbn [result_bind] in H; [|done].
  destruct (Capacity.decide_indices _) as [fit psd]. injection H as <- _.
  set (led := Capacity.update_ledger (Capacity.ledger s) ids now).
  assert (forall id e, led !! id = Some e -> away e = negb (bool_decide (id ∈ ids)) /\ 0 <= Capacity.steps_absent e) as Haway.
  { intros id e He. unfold led in He. rewrite Capacity.update_ledger_lookup in He.
    destruct (decide (id ∈ ids)) as [Hin|Hin]; [injection He as <-; by rewrite bool_decide_true|].
    rewrite bool_decide_false by done. destruct (Capacity.ledger s !! id) as [e0|] eqn:E0; cbn in He; [|done].
    pose proof (Hpos _ _ E0). destruct (Capacity.steps_absent e0 + 1 <=? _); [|done]. injection He as <-.
    unfold away. cbn. split; [by apply Z.ltb_lt; lia|lia]. }
  set (st := Capacity.mkRust _ _ _ _ _ _ _ _ _ _ _ _ _).
  unfold stats. rewrite (surjective_pairing (Capacity.absent st _)), absent_size.
  assert (filter (fun p => away p.2 = true) (Capacity.ledger st) = filter (fun p => p.1 ∉ ids) (Capacity.ledger st)) as ->.
  { apply map_filter_ext. intros id e He. cbn. destruct (Haway id e He) as [-> _].
    rewrite negb_true_iff, bool_decide_eq_false. done. }
  split; [done|]. split; [done|]. split; [done|]. split.
  - intros id Hin. unfold st, led. cbn [Capacity.ledger]. rewrite Capacity.update_ledger_lookup, decide_True by done. by eexists.
  - intros id e He. by apply (Haway id).
Qed.

(** ** Samples *)

Definition sched_sample : Capacity.RustScheduler := Capacity.rust_new 96 16384 (of_Z 20) 4096 None.

Lemma absence_reaches_the_stats_witness : exists s1 s2 r1 r2,
  Capacity.decide_call sched_sample [1; 2] [true; true] [8; 8] [0; 0] [0; 0] [9; 9] [f0; f0] [] 500 f0 = Ok (s1, r1) /\
  Capacity.decide_call s1 [1] [true] [8] [0] [0] [9] [f0] [] 500 (of_Z 5000) = Ok (s2, r2) /\
  stats s2 !! "absent" = Some f1 /\ stats s2 !! "absent_max_ms" = Some (of_Z 5000).
Proof.
  destruct (Capacity.decide_call sched_sample [1; 2] [true; true] [8; 8] [0; 0] [0; 0] [9; 9] [f0; f0] [] 500 f0)
    as [[s1 r1]|] eqn:E1; [|by vm_compute in E1].
  assert (forall id e, Capacity.ledger sched_sample !! id = Some e -> 0 <= Capacity.steps_absent e) as H0.
  { intros id e He. cbn in He. by rewrite lookup_empty in He. }
  destruct (absence_reaches_the_stats _ _ _ _ _ _ _ _ _ _ _ _ _ H0 E1) as (_ & _ & _ & _ & H1).
  vm_compute in E1. injection E1 as <- <-.
  match type of H1 with context [Capacity.ledger ?s] => set (s1 := s) in * end.
  destruct (Capacity.decide_call s1 [1] [true] [8] [0] [0] [9] [f0] [] 500 (of_Z 5000)) as [[s2 r2]|] eqn:E2;
    [|by vm_compute in E2].
  destruct (absence_reaches_the_stats _ _ _ _ _ _ _ _ _ _ _ _ _ H1 E2) as (Ha & _).
  exists s1, s2. eexists _, r2. split; [reflexivity|]. split; [exact E2|].
  vm_compute in E2. injection E2 as <- <-. split; vm_compute; reflexivity.
Defined.
End Report.
