(* ===== verification/Tuning.v ===== *)
(** * Judging the candidates ([crates/tuner/src/plan.rs])

    The cross-check of a candidate against the capacity model, the evaluators
    that score a configuration, and the plan that ranks the candidates. *)

From Stdlib Require Import ZArith Lia Ascii.
From stdpp Require Import base option list numbers pretty gmap strings.
From S2P Require Import Prelude F64 F64Int Core Policy Capacity Engine Config Text Csv Aic Sim SimTime SimEnds.

Module Tuning.
Import Text Deployment Aic.
Local Open Scope string_scope.
Local Open Scope Z_scope.
Local Open Scope list_scope.

(** ** Evaluators *)

(** What [evaluate] of the trait returns; [None] is a panic, or a simulation
    that needs more events than its fuel. *)
Class CandidateEvaluator (E : Type) := evaluate_config : E -> Config -> option GoodputReport.

(** The simulator, with a bound on the events it may take. *)
Record SimulationEvaluator := mkSimulation { sim_fuel : nat }.

#[export] Instance simulation_evaluator : CandidateEvaluator SimulationEvaluator :=
  fun e c => r ← Simulation.simulate (sim_fuel e) c; Some (Simulation.goodput r).

(** A measured run, whatever measures it. *)
Record MeasuredRunEvaluator := mkMeasured { measure : Config -> GoodputReport }.

#[export] Instance measured_evaluator : CandidateEvaluator MeasuredRunEvaluator := fun e c => Some (measure e c).

(** ** The cross-check *)

Record CrossCheck := mkCheck {
  aic_output_tok_s_per_gpu : option f64;
  our_output_tok_s_per_gpu : f64;
  ratio : option f64;
  verdict : string;
  note : string
}.

Definition classify (ratio : option f64) : string * string :=
  match ratio with
  | None => ("no-aic-number", "AIConfigurator did not report tokens/s/gpu")
  | Some r =>
      if fle (dec 75 2) r && fle r (dec 1333 3) then ("agree", "within 33 %: " +:+ fixed 2 r +:+ "x")
      else if fgt r (dec 1333 3) then
        ("aic-optimistic", "AIConfigurator predicts " +:+ fixed 2 r +:+
         "x our measured capacity; either its database covers a kernel path this cluster does not run, or our calibration is stale")
      else
        ("aic-pessimistic", "AIConfigurator predicts " +:+ fixed 2 r +:+
         "x our measured capacity; check that the model/system/backend combination is inside its support matrix")
  end.

Definition build (a : AicCandidate) (c : Config) : option CrossCheck :=
  let t := topology c in
  split ← Planner.evaluate (capacity_model c) (u32_wrap (prefill_workers t * prefill_tp t))
    (u32_wrap (decode_workers t * decode_tp t)) (prefill_tp t) (decode_tp t);
  let g := of_Z (Z.max (total_gpus t) 1) in
  let ours := fdiv (fmul (Planner.sustainable_req_s split) (of_Z (w_osl (workload c)))) g in
  let theirs := match predicted_seq_s a with
    | Some s => Some (fdiv (fmul s (of_Z (w_osl (workload c)))) g)
    | None => predicted_tokens_s_per_gpu a
    end in
  let ratio := option_map (fun x => fdiv x (fmax ours MIN_POSITIVE)) theirs in
  Some (mkCheck theirs ours ratio (classify ratio).1 (classify ratio).2).

(** ** The plan *)

Record TuningRow := mkRow {
  row_label : string;
  row_config : Config;
  cross_check : CrossCheck;
  score : GoodputReport
}.

(** The entries of [skipped], with the error instead of its text. *)
Inductive Skipped :=
  | AggregatedLayout (label : string) (gpus : Z)
  | UnreadableTopology (label src : string)
  | Invalid (label : string) (e : Error).

Record TuningPlan := mkPlan {
  plan_rows : list TuningRow;
  skipped : list Skipped
}.

Definition by_output : TuningRow -> TuningRow -> comparison :=
  cmp_rev (cmp_on (fun r => total_key (good_output_tok_s (score r)))).

#[export] Instance by_output_total : TotalCmp by_output.
Proof. apply cmp_rev_total, cmp_on_total. Qed.

Section evaluation.
Context {E : Type} `{!CandidateEvaluator E} (evaluator : E) (base : Config).

(** The body of the loop over the candidates. *)
Definition evaluate_one (plan : TuningPlan) (a : AicCandidate) : option TuningPlan :=
  match apply_to a base with
  | None =>
      let k := match mode a with
        | Agg => AggregatedLayout (label a) (prefill_gpus_per_worker a)
        | Disagg => UnreadableTopology (label a) (source a)
        end in
      Some (mkPlan (plan_rows plan) (skipped plan ++ [k]))
  | Some c =>
      match validate_config c with
      | Err e => Some (mkPlan (plan_rows plan) (skipped plan ++ [Invalid (label a) e]))
      | Ok _ =>
          check ← build a c;
          s ← evaluate_config evaluator c;
          Some (mkPlan (plan_rows plan ++ [mkRow (label a) c check s]) (skipped plan))
      end
  end.

Fixpoint evaluate_all (plan : TuningPlan) (l : list AicCandidate) : option TuningPlan :=
  match l with
  | [] => Some plan
  | a :: l => plan ← evaluate_one plan a; evaluate_all plan l
  end.

Definition evaluate_with (l : list AicCandidate) : option TuningPlan :=
  plan ← evaluate_all (mkPlan [] []) l;
  Some (mkPlan (sort_by by_output (plan_rows plan)) (skipped plan)).
End evaluation.

Definition best (p : TuningPlan) : option TuningRow := head (plan_rows p).

(** The printed table; [describe] is the text of a skipped entry. *)
Definition table_head : string :=
  pad_right 28 "topology" +:+ " " +:+ pad_left 10 "goodput" +:+ " " +:+ pad_left 8 "good%" +:+ " " +:+
  pad_left 9 "TTFT p99" +:+ " " +:+ pad_left 10 "ITL mean" +:+ " " +:+ pad_left 16 "vs aiconfigurator" +:+ of_char LF.

Definition table_row (r : TuningRow) : string :=
  let s := score r in
  pad_right 28 (row_label r) +:+ " " +:+ pad_left 10 (fixed 2 (good_output_tok_s s)) +:+ " " +:+
  pad_left 7 (fixed 1 (fmul (good_frac s) (of_Z 100))) +:+ "% " +:+ pad_left 8 (fixed 0 (p99 (rep_ttft s))) +:+ "ms " +:+
  pad_left 9 (fixed 2 (lat_mean (rep_itl s))) +:+ "ms " +:+ pad_left 16 (verdict (cross_check r)) +:+ of_char LF.

Definition table (describe : Skipped -> string) (p : TuningPlan) : string :=
  foldl (fun s k => s +:+ "skipped: " +:+ describe k +:+ of_char LF)
    (foldl (fun s r => s +:+ table_row r) table_head (plan_rows p)) (skipped p).
(** ** What becomes of one candidate *)

Section judgement.
Context {E : Type} `{!CandidateEvaluator E} (evaluator : E) (base : Config).

Definition judge (a : AicCandidate) : option (TuningRow + Skipped) :=
  match apply_to a base with
  | None => Some (inr (match mode a with
      | Agg => AggregatedLayout (label a) (prefill_gpus_per_worker a)
      | Disagg => UnreadableTopology (label a) (source a) end))
  | Some c =>
      match validate_config c with
      | Err e => Some (inr (Invalid (label a) e))
      | Ok _ => check ← build a c; s ← evaluate_config evaluator c; Some (inl (mkRow (label a) c check s))
      end
  end.

Definition as_row (j : TuningRow + Skipped) : option TuningRow := match j with inl r => Some r | inr _ => None end.
Definition as_skip (j : TuningRow + Skipped) : option Skipped := match j with inl _ => None | inr k => Some k end.

Lemma evaluate_one_judge plan a : evaluate_one evaluator base plan a =
  match judge a with
  | Some (inl r) => Some (mkPlan (plan_rows plan ++ [r]) (skipped plan))
  | Some (inr k) => Some (mkPlan (plan_rows plan) (skipped plan ++ [k]))
  | None => None
  end.
Proof.
  unfold evaluate_one, judge. destruct (apply_to a base) as [c|]; [|by destruct (mode a)].
  destruct (validate_config c); [|done]. destruct (build a c); cbn [mbind option_bind]; [|done].
  by destruct (evaluate_config evaluator c).
Qed.

Lemma evaluate_all_judge l : forall plan, evaluate_all evaluator base plan l =
  js ← mapM judge l; Some (mkPlan (plan_rows plan ++ omap as_row js) (skipped plan ++ omap as_skip js)).
Proof.
  induction l as [|a l IH]; intros plan; cbn [evaluate_all].
  { cbn. rewrite !app_nil_r. by destruct plan. }
  rewrite evaluate_one_judge. cbn. destruct (judge a) as [[r|k]|]; cbn; [| |done]; rewrite IH;
    destruct (mapM judge l) as [js|]; cbn; try done; by rewrite <- !app_assoc.
Qed.

Lemma omap_lengths js : (length (omap as_row js) + length (omap as_skip js) = length js)%nat.
Proof. induction js as [|[r|k] js IH]; [done|..]; cbn in *; lia. Qed.
End judgement.

(** ** Theorems *)

(** C36. A plan accounts for every candidate: it is a row or it is skipped.  A row
    comes of a candidate that describes a deployment, whose configuration
    validates; it carries that configuration's own cross-check and score.  A
    candidate whose deployment validates has its row.  The rows are ranked by
    the rate of good output tokens, and the best row is at least as good as any
    other. *)
Theorem plan_accounts {E : Type} `{!CandidateEvaluator E} (evaluator : E) (base : Config) (l : list AicCandidate)
    (plan : TuningPlan) :
  evaluate_with evaluator base l = Some plan ->
  (length (plan_rows plan) + length (skipped plan) = length l)%nat /\
  (forall r, r ∈ plan_rows plan -> exists a, a ∈ l /\ apply_to a base = Some (row_config r) /\
     validate_config (row_config r) = Ok () /\ row_label r = label a /\
     build a (row_config r) = Some (cross_check r) /\ evaluate_config evaluator (row_config r) = Some (score r)) /\
  (forall a c, a ∈ l -> apply_to a base = Some c -> validate_config c = Ok () ->
     exists r, r ∈ plan_rows plan /\ row_config r = c /\ row_label r = label a) /\
  sorted_by by_output (plan_rows plan) /\
  (forall r r', best plan = Some r -> r' ∈ plan_rows plan ->
     total_key (good_output_tok_s (score r')) <= total_key (good_output_tok_s (score r))).
Proof.
  unfold evaluate_with. rewrite evaluate_all_judge. cbn [plan_rows skipped app].
  destruct (mapM (judge evaluator base) l) as [js|] eqn:Hjs; cbn [mbind option_bind]; [|done].
  intros [= <-]. unfold best. cbn [plan_rows skipped]. apply mapM_Some in Hjs.
  split; [rewrite sort_by_length, omap_lengths; symmetry; by eapply Forall2_length|]. split; [|split; [|split]].
  - intros r Hr. apply elem_of_sort_by, list_elem_of_omap in Hr as (j & Hj & Er). destruct j as [r'|]; [|done]. injection Er as ->.
    apply (Forall2_elem_r _ _ _ _ Hjs) in Hj as (a & Ha & Hjudge). exists a. split; [done|]. unfold judge in Hjudge.
    destruct (apply_to a base) as [c|]; [|by destruct (mode a)]. destruct (validate_config c) as [[]|] eqn:Hv; [|done].
    destruct (build a c) as [k|] eqn:Hk; cbn [mbind option_bind] in Hjudge; [|done].
    destruct (evaluate_config evaluator c) as [sc|] eqn:Hs; cbn [mbind option_bind] in Hjudge; [|done].
    by injection Hjudge as <-.
  - intros a c Ha Hc Hv. apply (Forall2_elem_l _ _ _ _ Hjs) in Ha as (j & Hj & Hjudge). unfold judge in Hjudge.
    rewrite Hc, Hv in Hjudge. destruct (build a c) as [k|]; cbn [mbind option_bind] in Hjudge; [|done].
    destruct (evaluate_config evaluator c) as [sc|]; cbn [mbind option_bind] in Hjudge; [|done]. injection Hjudge as <-.
    eexists. split; [apply elem_of_sort_by, list_elem_of_omap; by eexists|done].
  - exact (sort_by_sorted by_output _).
  - intros r r' Hr Hr'. pose proof (sort_by_sorted by_output (omap as_row js)) as Hs.
    destruct (sort_by by_output (omap as_row js)) as [|x rest]; [done|]. injection Hr as ->.
    apply list_elem_of_lookup in Hr' as [i Hi].
    pose proof (sorted_by_lookup by_output _ 0 i r r' Hs eq_refl Hi ltac:(lia)) as Hle.
    unfold cmp_le, by_output, cmp_rev, cmp_on in Hle. by apply Z.compare_le_iff.
Qed.

(** Judging by simulation ends: with fuel for the events of every deployment
    that validates, and numbers in its capacity model, the plan is made. *)
Theorem simulated_plan_total (fuel : nat) (base : Config) (l : list AicCandidate) :
  (forall a c, a ∈ l -> apply_to a base = Some c -> validate_config c = Ok () ->
     Timing.runnable c /\ Ends.event_bound c < Z.of_nat fuel /\ is_Some (build a c)) ->
  is_Some (evaluate_with (mkSimulation fuel) base l).
Proof.
  intros H. unfold evaluate_with. rewrite evaluate_all_judge.
  destruct (mapM (judge (mkSimulation fuel) base) l) as [js|] eqn:Hjs; cbn [mbind option_bind]; [by eexists|].
  exfalso. apply mapM_None in Hjs. apply Exists_exists in Hjs as (a & Ha & Hnone). unfold judge in Hnone.
  destruct (apply_to a base) as [c|] eqn:Hc; [|done]. destruct (validate_config c) as [[]|] eqn:Hv; [|done].
  destruct (H a c Ha Hc Hv) as (Hrun & Hfuel & [k Hk]). rewrite Hk in Hnone. cbn [mbind option_bind] in Hnone.
  destruct (Ends.run_ends c fuel Hrun Hfuel) as (r & Hr & _). unfold evaluate_config, simulation_evaluator in Hnone.
  cbn [sim_fuel] in Hnone. rewrite Hr in Hnone. done.
Qed.

Lemma classify_bands r :
  ((classify (Some r)).1 = "agree" <-> fle (dec 75 2) r = true /\ fle r (dec 1333 3) = true) /\
  ((classify (Some r)).1 = "aic-optimistic" <-> fgt r (dec 1333 3) = true) /\
  ((classify (Some r)).1 = "aic-pessimistic" <-> flt r (dec 75 2) = true \/ is_nan r = true).
Proof.
  unfold classify. assert (flt (dec 1333 3) (dec 75 2) = false) as Hb by by vm_compute.
  assert (is_nan (dec 1333 3) = false /\ is_nan (dec 75 2) = false) as [N1 N2] by by vm_compute.
  generalize dependent (dec 75 2). generalize dependent (dec 1333 3). intros hi N1 lo Hb N2.
  destruct (is_nan r) eqn:Nr.
  - assert (fle lo r = false /\ fgt r hi = false) as [-> ->] by (by destruct r, lo as [[]|[]| |[]], hi as [[]|[]| |[]]). cbn [andb fst].
    split_and!; split; intros H; try discriminate; try (by destruct H); by right.
  - assert (fle lo r = negb (flt r lo)) as -> by (by apply fle_negb_flt).
    assert (fle r hi = negb (fgt r hi)) as -> by (by apply fle_negb_flt).
    destruct (flt r lo) eqn:E1, (fgt r hi) eqn:E2; cbn [negb andb fst].
    + exfalso. pose proof (flt_trans _ _ _ E2 E1) as H. congruence.
    + split_and!; split; intros H; try discriminate; try (by destruct H); first [done|by left].
    + split_and!; split; intros H; try discriminate; try (by destruct H); done.
    + split_and!; split; intros H; try discriminate; try (by destruct H); done.
Qed.

(** The verdict of a cross-check: agreement within the band, both ends
    included; optimistic above it; pessimistic below it, or when the ratio is
    not a number. *)
Theorem verdict_bands (a : AicCandidate) (c : Config) (k : CrossCheck) :
  build a c = Some k ->
  match ratio k with
  | None => verdict k = "no-aic-number" /\ predicted_seq_s a = None /\ predicted_tokens_s_per_gpu a = None
  | Some r =>
      (verdict k = "agree" <-> fle (dec 75 2) r = true /\ fle r (dec 1333 3) = true) /\
      (verdict k = "aic-optimistic" <-> fgt r (dec 1333 3) = true) /\
      (verdict k = "aic-pessimistic" <-> flt r (dec 75 2) = true \/ is_nan r = true)
  end.
Proof.
  unfold build. destruct (Planner.evaluate _ _ _ _ _) as [split_|]; cbn [mbind option_bind]; [|done].
  intros [= <-]. cbn [ratio verdict].
  destruct (predicted_seq_s a) as [x|]; [|destruct (predicted_tokens_s_per_gpu a) as [x|]];
    cbn [option_map]; [apply classify_bands..|by split].
Qed.
(** ** The crate's own row, judged on the default deployment *)

Definition deployment_sample : Config := default config_default (apply_to candidate_sample config_default).

Lemma deployment_applies : apply_to candidate_sample config_default = Some deployment_sample.
Proof. vm_compute. reflexivity. Qed.

Lemma deployment_runnable : Timing.runnable deployment_sample.
Proof.
  split; try (vm_compute; repeat split; discriminate); try (repeat split; vm_compute; reflexivity).
Qed.

Lemma build_is_some : is_Some (build candidate_sample deployment_sample).
Proof. apply (bool_decide_unpack _). vm_compute. exact I. Qed.

Definition report_default : GoodputReport :=
  mkReport f0 0 0 f0 f0 f0 (of_Z 100) 0 0 0 0 latency_default latency_default false.

Lemma plan_accounts_witness : exists plan r,
  evaluate_with (mkMeasured (fun _ => report_default)) config_default [candidate_sample] = Some plan /\
  r ∈ plan_rows plan /\ row_config r = deployment_sample /\ length (skipped plan) = 0%nat.
Proof.
  assert (is_Some (evaluate_with (mkMeasured (fun _ => report_default)) config_default [candidate_sample])) as [plan E]
    by (apply (bool_decide_unpack _); vm_compute; exact I).
  destruct (plan_accounts (mkMeasured (fun _ => report_default)) config_default [candidate_sample] plan E)
    as (Hn & _ & Hin & _).
  destruct (Hin candidate_sample deployment_sample) as (r & Hr & Hc & _);
    [left|apply deployment_applies|vm_compute; reflexivity|].
  exists plan, r. split; [exact E|]. split; [exact Hr|]. split; [exact Hc|].
  apply list_elem_of_lookup in Hr as [i Hr]. apply lookup_lt_Some in Hr. cbn [length] in Hn. lia.
Defined.

Lemma simulated_plan_total_witness : exists fuel,
  is_Some (evaluate_with (mkSimulation fuel) config_default [candidate_sample]).
Proof.
  exists (S (Z.to_nat (Ends.event_bound deployment_sample))). apply simulated_plan_total.
  intros a c Ha Hc _. apply list_elem_of_singleton in Ha as ->. rewrite deployment_applies in Hc. injection Hc as <-.
  split; [exact deployment_runnable|]. split; [lia|exact build_is_some].
Defined.

(** The row predicts 0.93 of what the capacity model sustains. *)
Lemma verdict_bands_witness : exists k r,
  build candidate_sample deployment_sample = Some k /\ ratio k = Some r /\ fixed 2 r = "0.93" /\ verdict k = "agree".
Proof.
  destruct (build candidate_sample deployment_sample) as [k|] eqn:E; [|destruct build_is_some as [k Hk]; congruence].
  pose proof (verdict_bands candidate_sample deployment_sample k E) as H.
  assert (match build candidate_sample deployment_sample with
          | Some k => option_map (fun r => (fle (dec 75 2) r, fle r (dec 1333 3), fixed 2 r)) (ratio k)
          | None => None end = Some (true, true, "0.93")) as Hc by (vm_compute; reflexivity).
  rewrite E in Hc. destruct (ratio k) as [r|] eqn:Hr; [|discriminate Hc].
  apply (f_equal (default (false, false, ""))) in Hc. cbn [option_map default] in Hc.
  exists k, r. split; [reflexivity|]. split; [exact Hr|]. split; [exact (f_equal snd Hc)|].
  apply H. split; [exact (f_equal (fun x => x.1.1) Hc)|exact (f_equal (fun x => x.1.2) Hc)].
Defined.
End Tuning.
