(* ===== verification/Cli.v ===== *)
(** * The command line ([crates/cli/src/main.rs])

    The commands: what each prints, when it stops with an error, and the
    deployments that [serve] starts.  Parsing of the arguments, TOML, JSON and
    the files are parameters. *)

From Stdlib Require Import ZArith Lia Ascii String.
From stdpp Require Import base option list numbers pretty gmap strings.
From S2P Require Import Prelude F64 F64Int Text Core Pool Policy Prefill Decode Controller Router Capacity Engine Config Wire Tokenizer Frontend Serving Csv Aic Load Remedy Worker InProcess InProcessInv InProcessRun Sim SimTime SimEnds Report Tuning.

Module Cli.
Import Text.
Local Open Scope string_scope.
Local Open Scope list_scope.
Local Open Scope Z_scope.

(** ** Printing and failing *)

Inductive CliError :=
  | Core (e : Error)
  | UnknownPolicy (s : string)
  | Unreadable (path : string)
  | NotJson
  | NotAnExport (why : string)
  | NoCandidates (dir : string)
  | NoTokenizer
  | BadAddress (s : string)
  | NotPrintable.

(** What a command came to; [Crashed] is a panic. *)
Inductive Outcome (A : Type) :=
  | Done (a : A)
  | Failed (e : CliError)
  | Crashed.
Arguments Done {A} a.
Arguments Failed {A} e.
Arguments Crashed {A}.

(** The texts printed so far, and the outcome. *)
Definition Cli (A : Type) : Type := list string * Outcome A.

Definition ret {A} (a : A) : Cli A := ([], Done a).
Definition bail {A} (e : CliError) : Cli A := ([], Failed e).
Definition bind {A B} (m : Cli A) (k : A -> Cli B) : Cli B :=
  match m with
  | (out, Done a) => let (out2, r) := k a in (out ++ out2, r)
  | (out, Failed e) => (out, Failed e)
  | (out, Crashed) => (out, Crashed)
  end.

Definition print (s : string) : Cli unit := ([s], Done ()).
Definition println (s : string) : Cli unit := print (s +:+ Config.Deployment.newline).

(** [?] on a result, and a call that may panic. *)
Definition try {A} (r : result Error A) : Cli A := match r with Ok a => ret a | Err e => bail (Core e) end.
Definition run_ {A} (o : option A) : Cli A := match o with Some a => ret a | None => ([], Crashed) end.
Definition or_bail {A} (o : option A) (e : CliError) : Cli A := match o with Some a => ret a | None => bail e end.

Declare Scope cli_scope.
Delimit Scope cli_scope with cli.
Notation "'do' x := m 'in' k" := (bind m (fun x => k)) (at level 10, x pattern, m at level 200, k at level 200) : cli_scope.
Notation "m ;; k" := (bind m (fun _ => k)) (at level 100, k at level 200, right associativity) : cli_scope.
Local Open Scope cli_scope.

Fixpoint each {A} (f : A -> Cli unit) (l : list A) : Cli unit :=
  match l with [] => ret () | a :: l => f a ;; each f l end.

(** ** Arguments *)

Definition underscore_to_dash (c : Ascii.ascii) : Ascii.ascii := if decide (c = "_"%char) then "-"%char else c.

Fixpoint replace_underscores (s : string) : string :=
  match s with EmptyString => EmptyString | String c s => String (underscore_to_dash c) (replace_underscores s) end.

Definition parse_policy (s : string) : result CliError PrefillPolicy :=
  let n := replace_underscores (to_ascii_lowercase (trim s)) in
  if decide (n = "fcfs") then Ok Fcfs
  else if decide (n = "edf") then Ok Edf
  else if decide (n = "moore-hodgson" \/ n = "mh") then Ok MooreHodgson
  else Err (UnknownPolicy n).

Inductive Command :=
  | Config_ (emit_env : bool)
  | Plan (total_gpus : Z) (prefill_tp decode_tp : list Z) (top : nat) (target : option f64)
  | Verdict (aiperf : string) (expect : option f64) (tolerance : f64)
  | Sim (concurrency prefill_tp prefill_workers : option Z) (json : bool)
  | Sweep (concurrency : list Z) (policy : list string)
  | Tune (save_dir : option string) (system backend : string) (json : bool)
  | Serve (addr : string) (workers : list string) (tokenizer served_model_name : option string).

(** ** [cmd_plan] *)

Definition script : string := "scripts/stage-d-235b-disagg.sbatch".
Definition indent : string := "               ".

Definition plan_head (m : Planner.CapacityModel) : Cli unit :=
  let p := Planner.m_prefill m in
  let b := Planner.mfu_breakdown p in
  let '(lever, worth) := Planner.largest_lever b (dec 50 2) in
  println ("Qwen-shape capacity model  ISL " +:+ pretty (Planner.isl m) +:+ "  OSL " +:+ pretty (Planner.osl m) +:+
    "  TTFT<=" +:+ fixed 0 (slo_ttft_ms (Planner.m_slo m)) +:+ "ms  ITL<=" +:+ fixed 0 (slo_itl_ms (Planner.m_slo m)) +:+
    "ms  assumed good_frac " +:+ fixed 2 (Planner.good_frac m)) ;;
  println ("prefill calibration " +:+ fixed 0 (Planner.tok_s_per_gpu p) +:+ " tok/s/GPU at TP" +:+ pretty (Planner.tp_ref p) +:+
    ", " +:+ fixed 0 (fmul (Planner.tp_allreduce_frac p) (of_Z 100)) +:+ "% of GPU time in TP all-reduce") ;;
  println ("                    " +:+ fixed 0 (Planner.achieved_tflops_per_gpu p) +:+ " TFLOP/s of " +:+
    fixed 0 (Planner.peak_tflops_per_gpu p) +:+ " peak = MFU " +:+ fixed 1 (fmul (Planner.mfu p) (of_Z 100)) +:+
    "%. Reaching 35% would be " +:+ fixed 2 (fdiv (dec 35 2) (fmax (Planner.mfu p) (dec 1 9))) +:+
    "x this prefill throughput,") ;;
  println ("                    of which " +:+ fixed 0 (fmul (fsub f1 (Planner.duty_cycle p)) (of_Z 100)) +:+
    "% of wall time is outside the forward pass (" +:+ fixed 2 (Planner.duty_cycle_worth b) +:+ "x), " +:+
    fixed 0 (fmul (Planner.tp_allreduce_frac p) (of_Z 100)) +:+ "% of kernel") ;;
  println ("                    time is TP all-reduce (" +:+ fixed 2 (Planner.allreduce_worth b) +:+
    "x), and the remaining compute runs at " +:+ fixed 1 (fmul (Planner.compute_mfu b) (of_Z 100)) +:+ "% MFU (" +:+
    fixed 2 (Planner.compute_mfu_worth b (dec 50 2)) +:+ "x to 50%).") ;;
  println ("                    Largest lever: " +:+ lever +:+ " at " +:+ fixed 2 worth +:+
    "x. This is a kernel question, not a topology one -") ;;
  println "                    no P/D split changes MFU." ;;
  println "" ;;
  println (pad_left 5 "P gpu" +:+ " " +:+ pad_left 5 "D gpu" +:+ " " +:+ pad_left 7 "P tp" +:+ " " +:+ pad_left 7 "D tp" +:+
    " " +:+ pad_left 9 "P workers" +:+ " " +:+ pad_left 12 "prefill r/s" +:+ " " +:+ pad_left 11 "decode r/s" +:+ " " +:+
    pad_left 10 "xfer r/s" +:+ " " +:+ pad_left 10 "goodput" +:+ " " +:+ pad_right 11 "binds on" +:+ " " +:+
    pad_left 8 "headroom").

Definition plan_row (s : Planner.PdSplit) : Cli unit :=
  println (pad_left 5 (pretty (Planner.prefill_gpus s)) +:+ " " +:+ pad_left 5 (pretty (Planner.decode_gpus s)) +:+ " " +:+
    pad_left 7 (pretty (Planner.prefill_tp s)) +:+ " " +:+ pad_left 7 (pretty (Planner.decode_tp s)) +:+ " " +:+
    pad_left 9 (pretty (Planner.prefill_workers s)) +:+ " " +:+ pad_left 12 (fixed 2 (Planner.prefill_req_s s)) +:+ " " +:+
    pad_left 11 (fixed 2 (Planner.decode_req_s s)) +:+ " " +:+ pad_left 10 (fixed 2 (Planner.transfer_req_s s)) +:+ " " +:+
    pad_left 10 (fixed 2 (Planner.goodput_req_s s)) +:+ " " +:+
    pad_right 11 (Report.debug_bottleneck (Planner.bottleneck s)) +:+ " " +:+
    pad_left 7 (fixed 1 (Planner.headroom_ratio s)) +:+ "x").

Definition remedy_lines (r : Remedies.Remedy) : Cli unit :=
  let mult := if flt (fabs (fsub (Remedies.multiplier r) f1)) (dec 1 9) then "unblocks"
              else fixed 2 (Remedies.multiplier r) +:+ "x" in
  println ("  " +:+ pad_right 12 (Remedies.label (Remedies.evidence r)) +:+ " " +:+ pad_left 9 mult +:+ "  " +:+
    Remedies.knob r +:+ "=" +:+ Remedies.setting r) ;;
  println (indent +:+ Remedies.because r) ;;
  println (indent +:+ Remedies.command r script).

Definition plan_advice (c : Config.Deployment.Config) (m : Planner.CapacityModel) (best : Planner.PdSplit) : Cli unit :=
  let rs := Remedies.remedies_given m best (Config.Deployment.engine c) in
  let b := Report.debug_bottleneck (Planner.bottleneck best) in
  println "" ;;
  match rs with
  | [] => println ("Best split binds on " +:+ b +:+ ", and every remedy this model knows is already applied.")
  | _ => println ("Best split binds on " +:+ b +:+ ". Ordered by how well each is backed, not by size:")
  end ;;
  each remedy_lines rs.

Definition gap_line (name : string) (have factor : f64) : Cli unit :=
  println ("  " +:+ pad_right 9 name +:+ " " +:+ pad_left 7 (fixed 2 have) +:+
    (if fle factor f1 then " req/s   already there" else " req/s   needs " +:+ fixed 2 factor +:+ "x")).

Definition plan_target (m : Planner.CapacityModel) (best : Planner.PdSplit) (t : f64) : Cli unit :=
  let g := Planner.target_gap m best t in
  let b := Planner.mfu_breakdown (Planner.m_prefill m) in
  let envelope := fixed 2 (fmul (fmul (Planner.duty_cycle_worth b) (Planner.allreduce_worth b))
                             (Planner.compute_mfu_worth b (dec 50 2))) in
  let needed := fixed 2 (Planner.prefill_factor g) in
  println "" ;;
  println ("To reach goodput " +:+ fixed 1 (Planner.target_goodput g) +:+ " at good_frac " +:+
    fixed 2 (Planner.good_frac m) +:+ ", the deployment must sustain " +:+ fixed 2 (Planner.required_req_s g) +:+ " req/s:") ;;
  gap_line "prefill" (Planner.gap_prefill_req_s g) (Planner.prefill_factor g) ;;
  gap_line "decode" (Planner.gap_decode_req_s g) (Planner.decode_factor g) ;;
  gap_line "transfer" (Planner.gap_xfer_req_s g) (Planner.xfer_factor g) ;;
  println ("  prefill MFU " +:+ fixed 1 (fmul (Planner.mfu_now g) (of_Z 100)) +:+ "% today, " +:+
    fixed 1 (fmul (Planner.mfu_required g) (of_Z 100)) +:+ "% required") ;;
  if Planner.within_the_envelope g b
  then println ("  Inside the envelope: the three levers multiply to " +:+ envelope +:+ "x and " +:+ needed +:+ "x is needed.")
  else println ("  OUTSIDE the envelope: the three known levers multiply to " +:+ envelope +:+ "x and " +:+ needed +:+
         "x is needed. Reaching it needs something not in this model.").

Definition plan_note : string :=
  "Note: the decode column extrapolates an ITL-versus-concurrency curve fitted to ONE " +:+ Config.Deployment.newline +:+
  "saturated measurement. Treat it as a shortlist, not a prediction - run `sim` next.".

Definition cmd_plan (c : Config.Deployment.Config) (total : Z) (ptps dtps : list Z) (top : nat) (target : option f64)
    : Cli unit :=
  let m := Config.Deployment.capacity_model c in
  plan_head m ;;
  do splits := run_ (Planner.search m total ptps dtps) in
  each plan_row (take top splits) ;;
  match head splits with Some best => plan_advice c m best | None => ret () end ;;
  match target, head splits with Some t, Some best => plan_target m best t | _, _ => ret () end ;;
  println "" ;;
  println plan_note.

(** ** [cmd_sim] and [cmd_sweep] *)

(** Texts of libraries: TOML, JSON and the derived [{:#?}] of the diagnostics;
    [describe] is the text of an entry the plan skipped.  [fuel] bounds the
    events of a simulation. *)
Record Library := mkLibrary {
  toml : Config.Deployment.Config -> option string;
  report_json : Simulation.SimReport -> option string;
  plan_json : Tuning.TuningPlan -> option string;
  debug_diagnostics : Simulation.Diagnostics -> string;
  describe : Tuning.Skipped -> string;
  fuel : nat
}.

#[local] Existing Instance Tuning.simulation_evaluator.

Section commands.
Context (lib : Library).

Definition set_concurrency (c : Config.Deployment.Config) (n : Z) : Config.Deployment.Config :=
  let w := Config.Deployment.workload c in
  Config.Deployment.mkConfig (Config.Deployment.model c)
    (Config.Deployment.mkWorkload (Config.Deployment.w_isl w) (Config.Deployment.w_osl w) n
       (Config.Deployment.w_max_num_tokens w) (Config.Deployment.w_max_seq_len w) (Config.Deployment.warmup_s w)
       (Config.Deployment.benchmark_s w) (Config.Deployment.grace_s w) (Config.Deployment.w_seed w)
       (Config.Deployment.cache_bust w))
    (Config.Deployment.topology c) (Config.Deployment.scheduler c) (Config.Deployment.kv c)
    (Config.Deployment.engine c) (Config.Deployment.calibration c) (Config.Deployment.slo c).

Definition set_policy (c : Config.Deployment.Config) (p : PrefillPolicy) : Config.Deployment.Config :=
  let s := Config.Deployment.scheduler c in
  Config.Deployment.mkConfig (Config.Deployment.model c) (Config.Deployment.workload c) (Config.Deployment.topology c)
    (Config.Deployment.mkSchedulerConfig (Config.Deployment.chunked_prefill_tokens s) (Config.Deployment.max_prefill_seqs s)
       (Config.Deployment.max_decode_seqs s) (Config.Deployment.itl_safety s) p (Config.Deployment.demote_hopeless s)
       (Config.Deployment.tick_ms s))
    (Config.Deployment.kv c) (Config.Deployment.engine c) (Config.Deployment.calibration c) (Config.Deployment.slo c).

Definition override {A} (set : Config.Deployment.Config -> A -> Config.Deployment.Config) (c : Config.Deployment.Config)
    (v : option A) : Config.Deployment.Config :=
  match v with Some v => set c v | None => c end.

Definition set_prefill_tp (c : Config.Deployment.Config) (n : Z) : Config.Deployment.Config :=
  let t := Config.Deployment.topology c in
  Aic.set_topology c (Config.Deployment.mkTopology (Config.Deployment.total_gpus t) (Config.Deployment.prefill_workers t) n
    (Config.Deployment.decode_workers t) (Config.Deployment.decode_tp t) (Config.Deployment.gpu_gib t)
    (Config.Deployment.kv_dtype_bytes t) (Config.Deployment.activation_gib t)).

Definition set_prefill_workers (c : Config.Deployment.Config) (n : Z) : Config.Deployment.Config :=
  let t := Config.Deployment.topology c in
  Aic.set_topology c (Config.Deployment.mkTopology (Config.Deployment.total_gpus t) n (Config.Deployment.prefill_tp t)
    (Config.Deployment.decode_workers t) (Config.Deployment.decode_tp t) (Config.Deployment.gpu_gib t)
    (Config.Deployment.kv_dtype_bytes t) (Config.Deployment.activation_gib t)).

Definition simulate (c : Config.Deployment.Config) : option Simulation.SimReport :=
  Simulation.simulate (fuel lib) c.

Definition topology_line (t : Config.Deployment.TopologyConfig) : string :=
  "topology: " +:+ pretty (Config.Deployment.prefill_workers t) +:+ "x prefill TP" +:+ pretty (Config.Deployment.prefill_tp t) +:+
  " + " +:+ pretty (Config.Deployment.decode_workers t) +:+ "x decode TP" +:+ pretty (Config.Deployment.decode_tp t) +:+
  "  (" +:+ pretty (Config.Deployment.used_gpus t) +:+ " GPUs)".

Definition cmd_sim (c0 : Config.Deployment.Config) (concurrency prefill_tp prefill_workers : option Z) (json : bool)
    : Cli unit :=
  let c := override set_prefill_workers (override set_prefill_tp (override set_concurrency c0 concurrency) prefill_tp)
             prefill_workers in
  do _ := try (Config.Deployment.validate_config c) in
  do report := run_ (simulate c) in
  if json then do text := or_bail (report_json lib report) NotPrintable in println text
  else
    println (topology_line (Config.Deployment.topology c)) ;;
    println (Report.summary report) ;;
    println "" ;;
    println (debug_diagnostics lib (Simulation.diagnostics report)) ;;
    each (fun w => println (Config.Deployment.newline +:+ "CAVEAT: " +:+ w)) (Report.caveats report).

Definition sweep_head : string :=
  pad_right 16 "policy" +:+ " " +:+ pad_left 5 "N" +:+ " " +:+ pad_left 10 "goodput" +:+ " " +:+ pad_left 8 "good%" +:+ " " +:+
  pad_left 10 "TTFT p99" +:+ " " +:+ pad_left 10 "ITL mean" +:+ " " +:+ pad_left 8 "batch".

Definition sweep_row (p : string) (n : Z) (r : Simulation.SimReport) : string :=
  let g := Simulation.goodput r in
  pad_right 16 p +:+ " " +:+ pad_left 5 (pretty n) +:+ " " +:+ pad_left 10 (fixed 2 (goodput_req_s g)) +:+ " " +:+
  pad_left 7 (fixed 1 (fmul (good_frac g) (of_Z 100))) +:+ "% " +:+ pad_left 9 (fixed 0 (p99 (rep_ttft g))) +:+ "ms " +:+
  pad_left 9 (fixed 2 (lat_mean (rep_itl g))) +:+ "ms " +:+
  pad_left 8 (fixed 2 (Simulation.mean_prefill_batch_seqs (Simulation.diagnostics r))).

(** One row: a configuration that does not validate ends the sweep. *)
Definition sweep_one (c0 : Config.Deployment.Config) (p : string) (policy : PrefillPolicy) (n : Z) : Cli unit :=
  let c := set_policy (set_concurrency c0 n) policy in
  do _ := try (Config.Deployment.validate_config c) in
  do r := run_ (simulate c) in
  println (sweep_row p n r).

Definition cmd_sweep (c : Config.Deployment.Config) (concurrency : list Z) (policies : list string) : Cli unit :=
  println sweep_head ;;
  each (fun p => do policy := match parse_policy p with Ok q => ret q | Err e => bail e end in
                 each (sweep_one c p policy) concurrency) policies.

(** ** [cmd_tune] *)

(** [read] is the directory given, as the walk of [Load] sees it. *)
Definition cmd_tune (read : string -> Load.Node) (c : Config.Deployment.Config) (save_dir : option string)
    (system backend : string) (json : bool) : Cli unit :=
  let out_dir := default "./aic-results" save_dir in
  let run := Aic.from_config c system backend out_dir in
  println "# 1. confirm the combination is inside AIConfigurator's support matrix." ;;
  println "#    Outside it, AIConfigurator falls back to weaker modelling *silently*." ;;
  println (Aic.shell (Aic.support_command run)) ;;
  println "" ;;
  println "# 2. search the layout space." ;;
  println (Aic.shell (Aic.search_command run)) ;;
  println "" ;;
  match save_dir with
  | None =>
      println ("# 3. re-run this command with --save-dir " +:+ out_dir +:+ " to score the candidates") ;;
      println "#    ranked by official score: good_output_tok_s (good output tokens from good requests per benchmark window);" ;;
      println "#    good_frac is only the passing-request fraction, not the ranked metric." ;;
      println "#    which AIConfigurator does not model."
  | Some dir =>
      do loaded := run_ (Load.load_candidates dir (read dir)) in
      do candidates := try loaded in
      match candidates with
      | [] => bail (NoCandidates dir)
      | _ =>
          println ("# 3. " +:+ pretty (Z.of_nat (length candidates)) +:+ " candidate layouts, scored in simulation:") ;;
          do plan := run_ (Tuning.evaluate_with (Tuning.mkSimulation (fuel lib)) c candidates) in
          if json then do text := or_bail (plan_json lib plan) NotPrintable in println text
          else
            println (Tuning.table (describe lib) plan) ;;
            match Tuning.best plan with
            | None => ret ()
            | Some best =>
                println ("best: " +:+ Tuning.row_label best) ;;
                println ("  official score: " +:+ fixed 2 (good_output_tok_s (Tuning.score best)) +:+ " good output tokens/s") ;;
                println ("  cross-check vs AIConfigurator: " +:+ Tuning.verdict (Tuning.cross_check best) +:+ " - " +:+
                  Tuning.note (Tuning.cross_check best))
            end
      end
  end.

(** ** [verdict] *)

(** The split the run is judged against. *)
Definition judged_split (c : Config.Deployment.Config) : option Planner.PdSplit :=
  let t := Config.Deployment.topology c in
  Planner.evaluate (Config.Deployment.capacity_model c)
    (u32_wrap (Config.Deployment.prefill_workers t * Config.Deployment.prefill_tp t))
    (u32_wrap (Config.Deployment.decode_workers t * Config.Deployment.decode_tp t))
    (Config.Deployment.prefill_tp t) (Config.Deployment.decode_tp t).

Definition verdict_lines (c : Config.Deployment.Config) (v : Assess.RunVerdict) : Cli unit :=
  let t := Config.Deployment.topology c in let r := Assess.measured v in
  println (Report.verdict_summary v) ;;
  println "" ;;
  println ("  assuming " +:+ pretty (Config.Deployment.prefill_workers t) +:+ "P" +:+ pretty (Config.Deployment.decode_workers t) +:+
    "D, prefill TP" +:+ pretty (Config.Deployment.prefill_tp t) +:+ ", decode TP" +:+ pretty (Config.Deployment.decode_tp t) +:+
    " -- pass --expect if the run was something else") ;;
  println "" ;;
  println ("  goodput      " +:+ pad_left 8 (fixed 2 (Assess.run_goodput_req_s r)) +:+ " measured   " +:+
    pad_left 8 (fixed 2 (Assess.predicted_goodput_req_s v)) +:+ " predicted") ;;
  println ("  throughput   " +:+ pad_left 8 (fixed 2 (Assess.request_throughput_req_s r)) +:+ " req/s      " +:+
    pad_left 8 (fixed 0 (Assess.output_token_throughput r)) +:+ " tok/s output") ;;
  println ("  TTFT         " +:+ pad_left 8 (fixed 0 (Assess.ttft_avg_ms r)) +:+ " avg ms     " +:+
    pad_left 8 (fixed 0 (Assess.ttft_p90_ms r)) +:+ " p90 ms   budget " +:+ fixed 0 (slo_ttft_ms (Config.Deployment.slo c))) ;;
  println ("  ITL          " +:+ pad_left 8 (fixed 1 (Assess.itl_avg_ms r)) +:+ " avg ms                  budget " +:+
    fixed 0 (slo_itl_ms (Config.Deployment.slo c))) ;;
  println ("  requests     " +:+ pad_left 8 (fixed 0 (Assess.request_count r))).

Definition set_bottleneck (s : Planner.PdSplit) (b : Planner.Bottleneck) : Planner.PdSplit :=
  Planner.mkSplit (Planner.prefill_gpus s) (Planner.decode_gpus s) (Planner.prefill_tp s) (Planner.decode_tp s)
    (Planner.prefill_workers s) (Planner.prefill_req_s s) (Planner.decode_req_s s) (Planner.transfer_req_s s)
    (Planner.sustainable_req_s s) (Planner.goodput_req_s s) b (Planner.headroom_ratio s).

Definition verdict_advice (c : Config.Deployment.Config) (split : Planner.PdSplit) (v : Assess.RunVerdict) : Cli unit :=
  match Assess.implicates (Assess.diagnosis v) with
  | None => ret ()
  | Some b =>
      let rs := Remedies.remedies_given (Config.Deployment.capacity_model c) (set_bottleneck split b)
                  (Config.Deployment.engine c) in
      println "" ;;
      match rs with
      | [] => println ("Every remedy this model knows for " +:+ Report.debug_bottleneck b +:+ " is already applied.")
      | _ =>
          println ("Next, for " +:+ Report.debug_bottleneck b +:+ ", strongest evidence first:") ;;
          each (fun r =>
            println ("  " +:+ pad_right 12 (Remedies.label (Remedies.evidence r)) +:+ " " +:+ Remedies.knob r +:+ "=" +:+
              Remedies.setting r) ;;
            println (indent +:+ Remedies.command r script)) rs
      end
  end.

Definition cmd_verdict {J} (get : J -> string -> option J) (as_f64 : J -> option f64) (read : string -> option string)
    (from_json : string -> option J) (c : Config.Deployment.Config) (aiperf : string) (expect : option f64) (tolerance : f64)
    : Cli unit :=
  do text := or_bail (read aiperf) (Unreadable aiperf) in
  do doc := or_bail (from_json text) NotJson in
  do measured := match Assess.from_aiperf_json get as_f64 doc with Ok m => ret m | Err e => bail (NotAnExport e) end in
  do split := run_ (judged_split c) in
  let predicted := default (Planner.goodput_req_s split) expect in
  let v := Assess.assess measured predicted (Config.Deployment.slo c) (Planner.bottleneck split) tolerance in
  verdict_lines c v ;; verdict_advice c split v.
End commands.

(** ** [cmd_serve] *)

(** The GPUs [base], ..., [base + tp - 1]. *)
Definition gpu_range (base tp : Z) : list Z := map (fun g => u32_wrap (base + Z.of_nat g)) (seq 0 (Z.to_nat tp)).

Definition mock_cost (c : Config.Deployment.Config) : Mock.CostModel :=
  let t := Config.Deployment.topology c in
  Mock.mkCost
    (Mock.for_worker (Config.Deployment.cal_prefill (Config.Deployment.calibration c)) (Config.Deployment.prefill_tp t)
       (Config.Deployment.prefill_tp t))
    (Mock.from_calibration (Config.Deployment.cal_decode (Config.Deployment.calibration c)) (Config.Deployment.decode_tp t)) f0.

Definition mock_prefill (c : Config.Deployment.Config) : list Mock.MockEngine :=
  let t := Config.Deployment.topology c in let tp := Config.Deployment.prefill_tp t in
  map (fun i => Mock.mock_prefill_worker (Config.Deployment.name (Config.Deployment.model c))
                  (gpu_range (u32_wrap (Z.of_nat i * tp)) tp) tp (mock_cost c) Mock.Wall)
    (seq 0 (Z.to_nat (Config.Deployment.prefill_workers t))).

Definition mock_decode (c : Config.Deployment.Config) : list Mock.MockEngine :=
  let t := Config.Deployment.topology c in let tp := Config.Deployment.decode_tp t in
  map (fun j =>
      let base := u32_wrap (u32_wrap (Config.Deployment.prefill_workers t * Config.Deployment.prefill_tp t) +
                            u32_wrap (Z.of_nat j * tp)) in
      Mock.mock_decode_worker (Config.Deployment.name (Config.Deployment.model c)) (gpu_range base tp) tp
        (Config.Deployment.num_blocks (Config.Deployment.kv c)) (mock_cost c) Mock.Wall)
    (seq 0 (Z.to_nat (Config.Deployment.decode_workers t))).

Definition STALE_AFTER_MS : f64 := of_Z 5000.
Definition serving_tuning : Routing.RouterTuning := Routing.mkTuning f0 (of_Z 17) 256.

#[local] Existing Instances Mock.mock_engine Mock.mock_laws Mock.mock_tracks Tokens.synthetic.

Section serve.
Context {F A : Type} (connect_to : string -> F) (parse_addr : string -> option A)
  (load_tokenizer : string -> option ((list Z -> option (list Z)) * (list Z -> option (list Z)))).

(** What the HTTP server is put in front of. *)
Inductive Service :=
  | MockService (d : InProcess.Deployment Mock.MockEngine Tokens.SyntheticTokenizer) (addr : A)
  | RealService (d : Serving.ServingDeployment F Tokens.HfTokenizer) (addr : A).

Definition cmd_serve_real (c : Config.Deployment.Config) (addr : A) (workers : list string)
    (tokenizer served_model_name : option string) : Cli Service :=
  do path := or_bail tokenizer NoTokenizer in
  do tok := try (Tokens.from_file load_tokenizer path) in
  let model_name := default (Config.Deployment.name (Config.Deployment.model c)) served_model_name in
  do d := try (Serving.aggregated connect_to workers (Frontend.bytes model_name) tok serving_tuning
                 (slo_ttft_ms (Config.Deployment.slo c))
                 (of_Z (Z.min (Config.Deployment.num_blocks (Config.Deployment.kv c)) 4096)) STALE_AFTER_MS) in
  ret (RealService d addr).

Definition cmd_serve (c : Config.Deployment.Config) (addr : string) (workers : list string)
    (tokenizer served_model_name : option string) : Cli Service :=
  do _ := try (Config.Deployment.validate_config c) in
  do a := or_bail (parse_addr addr) (BadAddress addr) in
  match workers with
  | _ :: _ => cmd_serve_real c a workers tokenizer served_model_name
  | [] =>
      do r := run_ (InProcess.spawn c (mock_prefill c) (mock_decode c) Tokens.Synthetic) in
      do d := try r in
      ret (MockService d a)
  end.

(** ** [main] *)

Definition load_config (load : string -> result Error Config.Deployment.Config) (path : option string)
    : Cli Config.Deployment.Config :=
  match path with Some p => try (load p) | None => ret Config.Deployment.config_default end.

(** [Some] is a service to run until the process ends. *)
Definition main {J} (lib : Library) (load : string -> result Error Config.Deployment.Config)
    (get : J -> string -> option J) (as_f64 : J -> option f64) (read : string -> option string)
    (from_json : string -> option J) (read_tree : string -> Load.Node) (config : option string) (command : Command)
    : Cli (option Service) :=
  do c := load_config load config in
  match command with
  | Config_ true => print (Config.Deployment.to_env c) ;; ret None
  | Config_ false => do text := or_bail (toml lib c) NotPrintable in println text ;; ret None
  | Plan total ptps dtps top target => cmd_plan c total ptps dtps top target ;; ret None
  | Verdict aiperf expect tolerance => cmd_verdict get as_f64 read from_json c aiperf expect tolerance ;; ret None
  | Sim n tp workers json => cmd_sim lib c n tp workers json ;; ret None
  | Sweep ns ps => cmd_sweep lib c ns ps ;; ret None
  | Tune dir system backend json => cmd_tune lib read_tree c dir system backend json ;; ret None
  | Serve addr workers tokenizer served => do s := cmd_serve c addr workers tokenizer served in ret (Some s)
  end.
End serve.

(** ** The sweep as a table *)

Lemma bind_assoc {A B C} (m : Cli A) (f : A -> Cli B) (g : B -> Cli C) :
  bind (bind m f) g = bind m (fun a => bind (f a) g).
Proof.
  destruct m as [out [a|e|]]; cbn [bind]; [|done..]. destruct (f a) as [out2 [b|e|]]; cbn [bind]; [|done..].
  destruct (g b) as [out3 r]. by rewrite app_assoc.
Qed.

Lemma ret_bind {A B} (a : A) (k : A -> Cli B) : bind (ret a) k = k a.
Proof. unfold bind, ret. by destruct (k a). Qed.

Lemma bail_bind {A B} e (k : A -> Cli B) : bind (bail e) k = bail e.
Proof. done. Qed.

Lemma each_app {A} (f : A -> Cli unit) l1 l2 : each f (l1 ++ l2) = bind (each f l1) (fun _ => each f l2).
Proof. induction l1 as [|a l1 IH]; cbn [each app]; [by rewrite ret_bind|]. by rewrite IH, bind_assoc. Qed.

Lemma each_map {A B} (g : A -> B) (f : B -> Cli unit) l : each f (map g l) = each (fun a => f (g a)) l.
Proof. induction l as [|a l IH]; cbn [each map]; [done|]. by rewrite IH. Qed.

(** What a loop over [l] printed, and where it ended. *)
Lemma each_spec {A} (f : A -> Cli unit) l : exists done rest, l = done ++ rest /\
  Forall (fun a => (f a).2 = Done ()) done /\
  match rest with
  | [] => each f l = (concat (map (fun a => (f a).1) done), Done ())
  | a :: _ => each f l = (concat (map (fun a => (f a).1) done) ++ (f a).1, (f a).2) /\ (f a).2 <> Done ()
  end.
Proof.
  induction l as [|a l (done & rest & -> & Hd & IH)]; [by exists [], []|]. cbn [each].
  destruct (f a) as [out [[]|e|]] eqn:E; cbn [bind].
  - exists (a :: done), rest. split; [done|]. split; [constructor; [by rewrite E|exact Hd]|]. cbn [map concat].
    rewrite E. cbn [fst]. destruct rest as [|b rest]; [by rewrite IH|]. destruct IH as [-> Hb].
    split; [by rewrite app_assoc|done].
  - exists [], (a :: done ++ rest). split; [done|]. split; [constructor|]. by rewrite E.
  - exists [], (a :: done ++ rest). split; [done|]. split; [constructor|]. by rewrite E.
Qed.

(** The sweep in order: each policy is read, then run at each concurrency. *)
Definition sweep_items (ns : list Z) (ps : list string) : list (string + string * Z) :=
  flat_map (fun p => inl p :: map (fun n => inr (p, n)) ns) ps.

Definition cell_config (c : Config.Deployment.Config) (p : string) (n : Z) : result CliError Config.Deployment.Config :=
  match parse_policy p with Ok q => Ok (set_policy (set_concurrency c n) q) | Err e => Err e end.

(** Why an item is refused. *)
Definition refused (c : Config.Deployment.Config) (i : string + string * Z) : option CliError :=
  match i with
  | inl p => match parse_policy p with Ok _ => None | Err e => Some e end
  | inr (p, n) =>
      match cell_config c p n with
      | Ok c' => match Config.Deployment.validate_config c' with Ok _ => None | Err e => Some (Core e) end
      | Err e => Some e
      end
  end.

(** The line an item prints. *)
Definition row_of (lib : Library) (c : Config.Deployment.Config) (i : string + string * Z) : option string :=
  match i with
  | inl _ => None
  | inr (p, n) => match cell_config c p n with
                  | Ok c' => option_map (fun r => (sweep_row p n r +:+ Config.Deployment.newline)%string) (simulate lib c')
                  | Err _ => None
                  end
  end.

(** The configuration an item simulates. *)
Definition simulated (c : Config.Deployment.Config) (i : string + string * Z) : option Config.Deployment.Config :=
  match i with inl _ => None | inr (p, n) => match cell_config c p n with Ok c' => Some c' | Err _ => None end end.

Definition sweep_item (lib : Library) (c : Config.Deployment.Config) (i : string + string * Z) : Cli unit :=
  match i with
  | inl p => match parse_policy p with Ok _ => ret () | Err e => bail e end
  | inr (p, n) => match parse_policy p with Ok q => sweep_one lib c p q n | Err e => bail e end
  end.

Lemma sweep_flat lib c ns ps : cmd_sweep lib c ns ps = bind (println sweep_head) (fun _ => each (sweep_item lib c) (sweep_items ns ps)).
Proof.
  unfold cmd_sweep. f_equal. f_equal. unfold sweep_items.
  induction ps as [|p ps IH]; [done|]. cbn [each flat_map app]. rewrite IH, each_app, each_map. cbn [sweep_item].
  destruct (parse_policy p) as [q|e]; by rewrite ?ret_bind, ?bail_bind.
Qed.

(** One item: its line, its refusal, or a crash of its simulation. *)
Lemma sweep_item_spec lib c i :
  match refused c i with
  | Some e => sweep_item lib c i = bail e
  | None =>
      match simulated c i with
      | None => sweep_item lib c i = ret ()
      | Some c' =>
          Config.Deployment.validate_config c' = Ok () /\
          match simulate lib c' with
          | None => sweep_item lib c i = ([], Crashed)
          | Some _ => exists line, row_of lib c i = Some line /\ sweep_item lib c i = ([line], Done ())
          end
      end
  end.
Proof.
  destruct i as [p|[p n]]; cbn [refused simulated sweep_item row_of]; unfold cell_config; destruct (parse_policy p) as [q|e];
    try done.
  unfold sweep_one. destruct (Config.Deployment.validate_config _) as [[]|e]; [|done]. split; [done|].
  cbn [try bind ret]. destruct (simulate lib _) as [r|]; cbn [run_ bind ret option_map]; [|done]. by eexists.
Qed.

Lemma row_of_policy lib c p : row_of lib c (inl p) = None.
Proof. done. Qed.

(** ** Theorems *)

(** C35. A sweep prints its heading and then one row for each policy and concurrency,
    in order, each of the simulation of that configuration; it stops at the first
    policy it cannot read or configuration that does not validate, with that
    error and after the rows before it; and when the configurations can be run
    with the fuel given it never crashes. *)
Theorem sweep_table (lib : Library) (c : Config.Deployment.Config) (ns : list Z) (ps : list string) :
  exists done rest, sweep_items ns ps = done ++ rest /\
    (cmd_sweep lib c ns ps).1 = (sweep_head +:+ Config.Deployment.newline)%string :: omap (row_of lib c) done /\
    Forall (fun i => refused c i = None) done /\
    match (cmd_sweep lib c ns ps).2 with
    | Done _ => rest = []
    | Failed e => exists i, head rest = Some i /\ refused c i = Some e
    | Crashed => exists i c', head rest = Some i /\ simulated c i = Some c' /\ simulate lib c' = None
    end /\
    ((forall i c', i ∈ sweep_items ns ps -> simulated c i = Some c' -> Config.Deployment.validate_config c' = Ok () ->
        Timing.runnable c' /\ Ends.event_bound c' < Z.of_nat (fuel lib)) ->
     (cmd_sweep lib c ns ps).2 <> Crashed).
Proof.
  rewrite sweep_flat. destruct (each_spec (sweep_item lib c) (sweep_items ns ps)) as (done & rest & Hi & Hd & Hr).
  exists done, rest. split; [exact Hi|].
  assert (Forall (fun i => refused c i = None) done) as Hok.
  { eapply Forall_impl; [exact Hd|]. intros i H. cbn beta in H. pose proof (sweep_item_spec lib c i) as Hs.
    destruct (refused c i); [|done]. by rewrite Hs in H. }
  assert (concat (map (fun i => (sweep_item lib c i).1) done) = omap (row_of lib c) done) as Hrows.
  { clear Hi Hr. induction Hd as [|i l H _ IH]; [done|]. inversion Hok as [|? ? Hn Hok']; subst. cbn [map concat omap list_omap].
    rewrite IH by done. pose proof (sweep_item_spec lib c i) as Hs. rewrite Hn in Hs.
    destruct (simulated c i) as [c'|] eqn:Es.
    - destruct Hs as [_ Hs]. destruct (simulate lib c'); [|by rewrite Hs in H]. destruct Hs as (line & -> & ->). done.
    - rewrite Hs. assert (row_of lib c i = None) as ->; [|done]. destruct i as [p|[p n]]; [done|]. cbn in *.
      by destruct (cell_config c p n). }
  destruct rest as [|i rest].
  - rewrite Hr. cbn [bind println print fst snd app]. rewrite Hrows. done.
  - destruct Hr as [-> Hne]. cbn [bind println print fst snd app]. rewrite Hrows.
    pose proof (sweep_item_spec lib c i) as Hs. destruct (refused c i) as [e|] eqn:Er.
    + rewrite Hs. cbn [bail fst snd]. rewrite app_nil_r. split; [done|]. split; [done|]. split; [by exists i|done].
    + destruct (simulated c i) as [c'|] eqn:Es; [|by rewrite Hs in Hne].
      destruct Hs as [Hv Hs]. destruct (simulate lib c') as [r|] eqn:Esim; [by destruct Hs as (line & _ & Hs); rewrite Hs in Hne|].
      rewrite Hs. cbn [fst snd]. rewrite app_nil_r. split; [done|]. split; [done|]. split; [by exists i, c'|].
      intros Hrun. destruct (Hrun i c') as [Hc Hf]; [rewrite Hi; set_solver|done..|].
      destruct (Ends.run_ends c' (fuel lib) Hc Hf) as (r & Hr' & _). unfold simulate in Esim. congruence.
Qed.

(** ** The mock deployment *)

Definition gpus_of (e : Mock.MockEngine) : list Z := gpus (Mock.m_info e).

Lemma gpu_range_seqZ base tp : 0 <= base -> base + tp <= u32_max + 1 -> gpu_range base tp = seqZ base tp.
Proof.
  intros Hb Hn. unfold gpu_range, seqZ. apply list_eq. intros i. rewrite !list_lookup_fmap.
  destruct (decide (i < Z.to_nat tp)%nat) as [Hi|Hi].
  - rewrite !lookup_seq_lt by done. cbn. f_equal. unfold u32_wrap. unfold u32_max in Hn. rewrite Z.mod_small by lia. lia.
  - by rewrite !lookup_seq_ge by lia.
Qed.

(** Blocks of [tp] one after the other. *)
Lemma blocks_seqZ base tp n : 0 <= tp ->
  concat (map (fun i => seqZ (base + Z.of_nat i * tp) tp) (seq 0 n)) = seqZ base (Z.of_nat n * tp).
Proof.
  intros Htp. induction n as [|n IH]; [done|]. rewrite seq_S, map_app, concat_app, IH. cbn [map concat Nat.add].
  rewrite app_nil_r, Nat2Z.inj_succ, Z.mul_succ_l, seqZ_app by lia. done.
Qed.

Record counts_ok (c : Config.Deployment.Config) : Prop := {
  ct_prefill : 0 <= Config.Deployment.prefill_workers (Config.Deployment.topology c) <= 2 ^ 31;
  ct_decode : 0 <= Config.Deployment.decode_workers (Config.Deployment.topology c) <= 2 ^ 31;
  ct_prefill_tp : 0 <= Config.Deployment.prefill_tp (Config.Deployment.topology c);
  ct_decode_tp : 0 <= Config.Deployment.decode_tp (Config.Deployment.topology c);
  ct_gpus : Config.Deployment.gpus_needed (Config.Deployment.topology c) <= u32_max;
  ct_seqs : fle (of_Z 8) (of_Z (Config.Deployment.max_decode_seqs (Config.Deployment.scheduler c))) = true;
  ct_chunk : 0 <= Config.Deployment.chunked_prefill_tokens (Config.Deployment.scheduler c)
}.

Lemma mock_gpus c : counts_ok c ->
  concat (map gpus_of (mock_prefill c ++ mock_decode c)) =
  seqZ 0 (Config.Deployment.gpus_needed (Config.Deployment.topology c)).
Proof.
  intros [Hp Hd Hpt Hdt Hg _ _]. unfold Config.Deployment.gpus_needed in *. unfold mock_prefill, mock_decode. cbn zeta.
  set (t := Config.Deployment.topology c) in *.
  set (pw := Config.Deployment.prefill_workers t) in *. set (dw := Config.Deployment.decode_workers t) in *.
  set (ptp := Config.Deployment.prefill_tp t) in *. set (dtp := Config.Deployment.decode_tp t) in *.
  unfold u32_max in Hg. rewrite map_app, concat_app, !map_map. cbn [gpus_of Mock.mock_prefill_worker Mock.mock_decode_worker Mock.mock_new Mock.m_info gpus].
  rewrite seqZ_app by nia. f_equal.
  - rewrite <- (Z2Nat.id pw) at 2 by lia. rewrite <- blocks_seqZ by lia. f_equal. apply map_ext_in. intros i Hi.
    apply in_seq in Hi. unfold u32_wrap. rewrite Z.mod_small by nia. by rewrite gpu_range_seqZ by (unfold u32_max; nia).
  - rewrite <- (Z2Nat.id dw) at 2 by lia. rewrite <- blocks_seqZ by lia. f_equal. apply map_ext_in. intros j Hj.
    apply in_seq in Hj. unfold u32_wrap. rewrite !(Z.mod_small (_ * _)) by nia. rewrite Z.mod_small by nia.
    by rewrite gpu_range_seqZ by (unfold u32_max; nia).
Qed.

Lemma mock_fits c : counts_ok c -> Timing.sleepable c -> Runs.engines_fit (mock_prefill c) (mock_decode c).
Proof.
  intros [Hp Hd _ _ _ _ _] Hs. pose proof (Timing.sleepable_sleeps c f0 Hs) as Hcost. split; [|split; [|split]].
  - apply Forall_map, Forall_true. intros i. apply Mock.mock_new_ok. intros _. exact Hcost.
  - apply Forall_map, Forall_true. intros j. split; [apply Mock.mock_new_ok; intros _; exact Hcost|]. intros id H. cbn in H.
    rewrite lookup_empty in H. by destruct H.
  - unfold mock_prefill. rewrite length_map, length_seq. lia.
  - unfold mock_decode. rewrite length_map, length_seq. lia.
Qed.

Lemma mock_spawns c : Config.Deployment.validate_config c = Ok () -> counts_ok c ->
  exists d, InProcess.spawn c (mock_prefill c) (mock_decode c) Tokens.Synthetic = Some (Ok d).
Proof.
  intros Hv [Hp Hd _ _ _ Hs _]. unfold InProcess.spawn, ctl_make. rewrite Hv, Hs. revert Hv. unfold Config.Deployment.validate_config.
  destruct (EngineConf.validate _); [|done].
  destruct (Z.eqb_spec (Config.Deployment.prefill_workers (Config.Deployment.topology c)) 0); [done|].
  destruct (Z.eqb_spec (Config.Deployment.decode_workers (Config.Deployment.topology c)) 0); [done|]. intros _.
  unfold mock_prefill, mock_decode.
  destruct (Z.to_nat (Config.Deployment.prefill_workers _)) eqn:Ep; [lia|].
  destruct (Z.to_nat (Config.Deployment.decode_workers _)) eqn:Ed; [lia|]. cbn [seq map]. by eexists.
Qed.

(** C34. Without engine endpoints [serve] starts the mock deployment of a
    configuration that is valid and also has what [validate] does not look at:
    numbers of workers that are not negative and at most 2^31, no more than
    2^32 - 1 GPUs, at least 8 decode sequences (the floor of the workers'
    controllers), a chunk of tokens that is not negative, and a calibration
    whose costs are durations that can be slept (a prefill rate of at least a
    token per millisecond, an overhead below 2^64 ms, at most 128 ms of a step
    for each sequence).  Then its engines hold the GPUs 0, 1, ... once each and
    no more than there are, and whatever requests (at most 2^53, each with a
    number of its own), hang-ups and interleavings follow, none of its tasks
    panics. *)
Theorem mock_service_runs {F A : Type} (connect_to : string -> F) (parse_addr : string -> option A) load_tokenizer
    (c : Config.Deployment.Config) (addr : string) (a : A) (tokenizer served : option string) :
  Config.Deployment.validate_config c = Ok () -> counts_ok c -> Timing.sleepable c -> parse_addr addr = Some a ->
  exists d, cmd_serve connect_to parse_addr load_tokenizer c addr [] tokenizer served = ([], Done (MockService d a)) /\
    concat (map gpus_of (mock_prefill c ++ mock_decode c)) =
      seqZ 0 (Config.Deployment.gpus_needed (Config.Deployment.topology c)) /\
    Config.Deployment.gpus_needed (Config.Deployment.topology c) <= Config.Deployment.total_gpus (Config.Deployment.topology c) /\
    forall J s (x : InProcess.Action J), InProcess.reach J d s -> InProcess.act_ok s x -> InProcess.act s x <> InProcess.Panics.
Proof.
  intros Hv Hc Hsl Ha. destruct (mock_spawns c Hv Hc) as [d Hd]. exists d.
  split; [unfold cmd_serve; rewrite Hv, Ha; cbn [try or_bail bind ret]; by rewrite Hd|].
  split; [by apply mock_gpus|]. split.
  - revert Hv. unfold Config.Deployment.validate_config. destruct (EngineConf.validate _); [|done].
    destruct (_ || _); [done|]. destruct (Z.ltb_spec (Config.Deployment.total_gpus (Config.Deployment.topology c))
      (Config.Deployment.used_gpus (Config.Deployment.topology c))) as [|H]; [done|]. intros _.
    destruct Hc as [Hp Hdw Hpt Hdt Hg _ _]. unfold Config.Deployment.used_gpus, Config.Deployment.gpus_needed, u32_wrap, u32_max in *.
    rewrite !(Z.mod_small (_ * _)), Z.mod_small in H by nia. exact H.
  - intros J s x Hr Hok.
    destruct (Runs.run_joined c (mock_prefill c) (mock_decode c) Tokens.Synthetic d J s) as [Hj Hs];
      [split; [exact Hd|split; [by apply mock_fits|apply Hc]]|exact Hr|].
    by apply (Joined.act_advances s x Hj Hok Hs).
Qed.

(** With engine endpoints no mock is ever started: [serve] needs the tokenizer,
    and then serves exactly the deployment of those endpoints, whose predictions
    charge nothing for a transfer. *)
Theorem endpoints_exclude_mocks {F A : Type} (connect_to : string -> F) (parse_addr : string -> option A) load_tokenizer
    (c : Config.Deployment.Config) (addr w : string) (ws : list string) (tokenizer served : option string) out service :
  cmd_serve connect_to parse_addr load_tokenizer c addr (w :: ws) tokenizer served = (out, Done service) ->
  exists path tok d a, tokenizer = Some path /\ Tokens.from_file load_tokenizer path = Ok tok /\ parse_addr addr = Some a /\
    service = RealService d a /\
    Serving.aggregated connect_to (w :: ws)
      (Frontend.bytes (default (Config.Deployment.name (Config.Deployment.model c)) served)) tok serving_tuning
      (slo_ttft_ms (Config.Deployment.slo c)) (of_Z (Z.min (Config.Deployment.num_blocks (Config.Deployment.kv c)) 4096))
      STALE_AFTER_MS = Ok d.
Proof.
  unfold cmd_serve. destruct (Config.Deployment.validate_config c) as [u|]; [|done]. cbn [try]. rewrite ret_bind.
  destruct (parse_addr addr) as [a|]; [|done]. cbn [or_bail]. rewrite ret_bind. unfold cmd_serve_real.
  destruct tokenizer as [path|]; [|done]. cbn [or_bail]. rewrite ret_bind.
  destruct (Tokens.from_file load_tokenizer path) as [tok|e] eqn:Et; [|done]. cbn [try]. rewrite ret_bind.
  destruct (Serving.aggregated _ _ _ _ _ _ _ _) as [d|e] eqn:Es; [|done]. cbn [try]. rewrite ret_bind. intros [= <- <-].
  by exists path, tok, d, a.
Qed.

(** ** Samples *)

Lemma policies_read : map parse_policy ["moore-hodgson"; " Moore_Hodgson "; "MH"; "FCFS"; "edf"; "lifo"]%string =
  [Ok MooreHodgson; Ok MooreHodgson; Ok MooreHodgson; Ok Fcfs; Ok Edf; Err (UnknownPolicy "lifo")].
Proof. reflexivity. Qed.

(** A limit of seven decode sequences passes the validation, and is below the
    floor of 8 the workers' controllers are made with: the process panics when it
    starts, and so does a simulation. *)
Definition few_seqs : Config.Deployment.Config :=
  Config.Deployment.mkConfig Config.Deployment.model_config_default Config.Deployment.workload_default
    Config.Deployment.topology_default
    (Config.Deployment.mkSchedulerConfig 16384 8 7 f1 MooreHodgson true f1)
    Config.Deployment.kv_default Config.EngineConf.engine_default Config.Deployment.calibration_default
    slo_default.

Theorem small_decode_limit_panics {F A : Type} (connect_to : string -> F) (parse_addr : string -> option A) load_tokenizer
    (addr : string) (a : A) (tokenizer served : option string) (steps : nat) : parse_addr addr = Some a ->
  Config.Deployment.validate_config few_seqs = Ok () /\
  cmd_serve connect_to parse_addr load_tokenizer few_seqs addr [] tokenizer served = ([], Crashed) /\
  Simulation.simulate steps few_seqs = None.
Proof.
  intros Ha. assert (Config.Deployment.validate_config few_seqs = Ok ()) as Hv by reflexivity.
  split; [exact Hv|]. unfold cmd_serve. rewrite Hv, Ha. cbn [try or_bail bind ret]. unfold Simulation.simulate.
  split; [|by vm_compute]. by vm_compute.
Qed.

(** A calibration with a prefill rate of 0 passes the validation too: every
    batch then costs an infinite time, and the engine panics on the first. *)
Definition no_rate : Config.Deployment.Config :=
  Config.Deployment.mkConfig Config.Deployment.model_config_default Config.Deployment.workload_default
    Config.Deployment.topology_default Config.Deployment.scheduler_default
    Config.Deployment.kv_default Config.EngineConf.engine_default
    (Config.Deployment.mkCalibration (Planner.mkPrefillCal f0 4 (dec 25 2) (dec 91 2) (of_Z 22) (of_Z 1979))
       Planner.decode_cal_default (dec 93 2) (dec 21 1))
    slo_default.

Theorem zero_rate_panics {F A : Type} (connect_to : string -> F) (parse_addr : string -> option A) load_tokenizer
    (addr : string) (a : A) (tokenizer served : option string) : parse_addr addr = Some a ->
  Config.Deployment.validate_config no_rate = Ok () /\ counts_ok no_rate /\
  (exists d, cmd_serve connect_to parse_addr load_tokenizer no_rate addr [] tokenizer served = ([], Done (MockService d a))) /\
  Forall (fun e => prefill e [mkChunkSpec 1 [5] 0 1 true [0%nat]] f0 = None) (mock_prefill no_rate).
Proof.
  intros Ha. assert (Config.Deployment.validate_config no_rate = Ok ()) as Hv by reflexivity.
  assert (counts_ok no_rate) as Hc by (split; vm_compute; intuition discriminate).
  split; [exact Hv|]. split; [exact Hc|]. split.
  - destruct (mock_spawns no_rate Hv Hc) as [d Hd]. exists d. unfold cmd_serve. rewrite Hv, Ha.
    cbn [try or_bail bind ret]. by rewrite Hd.
  - repeat constructor; by vm_compute.
Qed.

(** Two rows, and the policy that cannot be read. *)
Definition library_sample : Library :=
  mkLibrary (fun _ => None) (fun _ => None) (fun _ => None) (fun _ => "") (fun _ => "") 4000.

Lemma sweep_sample : (fun p => (length p.1, p.2)) (cmd_sweep library_sample Simulation.config_small [1; 2] ["fcfs"; "lifo"; "edf"]%string) =
  (3%nat, Failed (UnknownPolicy "lifo")).
Proof. vm_compute. reflexivity. Qed.

Lemma counts_default : counts_ok Config.Deployment.config_default.
Proof. split; vm_compute; intuition discriminate. Qed.

Lemma sleepable_default : Timing.sleepable Config.Deployment.config_default.
Proof. split; repeat split; vm_compute; reflexivity. Qed.

Lemma mock_service_runs_witness : exists d : InProcess.Deployment Mock.MockEngine Tokens.SyntheticTokenizer,
  cmd_serve (F := unit) (fun _ => tt) (fun s => Some s) (fun _ => None) Config.Deployment.config_default "127.0.0.1:8000" [] None None =
    ([], Done (MockService d "127.0.0.1:8000"%string)) /\
  concat (map gpus_of (mock_prefill Config.Deployment.config_default ++ mock_decode Config.Deployment.config_default)) = seqZ 0 16.
Proof.
  destruct (mock_service_runs (F := unit) (fun _ => tt) (fun s => Some s) (fun _ => None) Config.Deployment.config_default
    "127.0.0.1:8000" "127.0.0.1:8000" None None) as (d & H1 & H2 & _); [reflexivity|exact counts_default|exact sleepable_default|reflexivity|].
  exists d. split; [exact H1|exact H2].
Defined.

Lemma endpoints_exclude_mocks_witness : exists service d,
  cmd_serve (fun e => e) (fun s => Some s) (fun _ => Some (Some, Some)) Config.Deployment.config_default "a" ["http://h:8200"]%string
    (Some "tokenizer.json"%string) None = ([], Done service) /\ service = RealService d "a"%string.
Proof.
  destruct (cmd_serve (fun e => e) (fun s => Some s) (fun _ => Some (Some, Some)) Config.Deployment.config_default "a"
    ["http://h:8200"]%string (Some "tokenizer.json"%string) None) as [out [service|e|]] eqn:E; [|discriminate E..].
  destruct (endpoints_exclude_mocks _ _ _ _ _ _ _ _ _ _ _ E) as (path & tok & d & a & _ & _ & Ha & Hs & _).
  injection Ha as <-. exists service, d. split; [|exact Hs]. f_equal. by injection E as <-.
Defined.
End Cli.
