(* ===== verification/Testing.v ===== *)
(** * The repository's unit tests, as programs of the model

    The [#[test]] functions of the crates are translated like the rest of the
    source and run on the model's definitions: a model that strayed from the code
    would fail the code's own tests. A failed assertion is a panic, [None]. *)

From Stdlib Require Import ZArith.
From stdpp Require Import base option list strings.
From S2P Require Import Prelude F64.

(** The body of a test. *)
Definition test : Type := option unit.

Definition assert (b : bool) : test := if b then Some () else None.

Definition assert_eq {A} `{EqDecision A} (a b : A) : test := assert (bool_decide (a = b)).
Definition assert_ne {A} `{EqDecision A} (a b : A) : test := assert (negb (bool_decide (a = b))).

(** [assert_eq!] and [assert_ne!] on doubles. *)
Definition assert_feq (a b : f64) : test := assert (feq a b).
Definition assert_fne (a b : f64) : test := assert (negb (feq a b)).

(** [Result::expect] and [expect_err]; [Option::expect] is the option itself. *)
Definition expect {E A} (r : result E A) : option A := match r with Ok a => Some a | Err _ => None end.
Definition expect_err {E A} (r : result E A) : option E := match r with Ok _ => None | Err e => Some e end.

Definition is_err {E A} (r : result E A) : bool := negb (is_ok r).
Definition is_some {A} (o : option A) : bool := match o with Some _ => true | None => false end.
Definition is_none {A} (o : option A) : bool := negb (is_some o).

(** A loop of a test, over what it runs through. *)
Fixpoint for_each {A S} (l : list A) (s : S) (body : A -> S -> option S) : option S :=
  match l with [] => Some s | a :: l => s ← body a s; for_each l s body end.

Definition passes (t : test) : bool := is_some t.

(** A test module's tests, all of which pass. *)
Definition all_pass (ts : list test) : bool := forallb passes ts.

(** [(a - b).abs() < tolerance] *)
Definition near (a b tolerance : f64) : bool := flt (fabs (fsub a b)) tolerance.
