(* ===== verification/KvTests.v ===== *)
(** * The tests of the key-value cache ([crates/kvcache]) *)

From Stdlib Require Import ZArith.
From stdpp Require Import base option list numbers gmap.
From S2P Require Import Prelude F64 Core Pool Prefix Radix Testing.

Module LibTests.
Local Open Scope Z_scope.

Definition block_count_rounds_up : test :=
  assert_eq (blocks_for 0 128) 0;;
  assert_eq (blocks_for 1 128) 1;;
  assert_eq (blocks_for 128 128) 1;;
  assert_eq (blocks_for 129 128) 2;;
  assert_eq (blocks_for 4000 128) 32.

Lemma lib_tests_pass : all_pass [block_count_rounds_up] = true.
Proof. vm_compute. reflexivity. Qed.
End LibTests.

Module PoolTests.

Definition alloc_and_release_round_trip : test :=
  let p := pool_new 8 128 f0 in
  '(r, p) ← alloc p 3; a ← expect r;
  assert_eq (length (free p)) 5;;
  assert_eq (st_in_use (stats p)) 3;;
  p ← release p a;
  assert_eq (length (free p)) 8;;
  assert_eq (st_in_use (stats p)) 0.

Definition exhaustion_is_an_error_not_a_panic : test :=
  let p := pool_new 2 128 f0 in
  '(r, p) ← alloc p 3;
  assert (is_err r);;
  assert_eq (length (free p)) 2.

Definition watermark_reserves_headroom_for_running_sequences : test :=
  let p := pool_new 100 128 (dec 5 2) in
  assert (can_admit p 95);;
  assert (negb (can_admit p 96)).

Definition cached_blocks_are_reclaimable_but_not_free : test :=
  let p := pool_new 4 128 f0 in
  '(r, p) ← alloc p 4; a ← expect r;
  p ← release_to_cache p a;
  assert_eq (length (free p)) 0;;
  assert_eq (available p) 4;;
  '(r, p) ← alloc p 2; b ← expect r;
  assert_eq (length b) 2;;
  assert_eq (available p) 2.

Definition shared_blocks_survive_one_release : test :=
  let p := pool_new 4 128 f0 in
  '(r, p) ← alloc p 2; a ← expect r;
  p ← incref p a;
  p ← release p a;
  assert_eq (st_in_use (stats p)) 2;;
  p ← release p a;
  assert_eq (st_in_use (stats p)) 0.

Lemma pool_tests_pass : all_pass [alloc_and_release_round_trip; exhaustion_is_an_error_not_a_panic;
  watermark_reserves_headroom_for_running_sequences; cached_blocks_are_reclaimable_but_not_free;
  shared_blocks_survive_one_release] = true.
Proof. vm_compute. reflexivity. Qed.
End PoolTests.

Module PrefixTests.
Import Cache.
Local Open Scope Z_scope.

Definition toks (n : nat) (salt : Z) : list Z := map (fun i => i + salt) (seqZ 0 (Z.of_nat n)).

Definition hashes_chain_so_a_shared_block_is_not_a_shared_prefix : test :=
  let a := block_hashes (toks 8 0) 4 in
  let b_tokens := toks 4 100 ++ toks 4 4 in
  let b := block_hashes b_tokens 4 in
  assert_eq (length a) 2%nat;;
  a0 ← a !! 0%nat; b0 ← b !! 0%nat; assert_ne a0 b0;;
  a1 ← a !! 1%nat; b1 ← b !! 1%nat; assert_ne a1 b1.

Definition partial_tail_block_is_not_cacheable : test :=
  assert_eq (length (block_hashes (toks 7 0) 4)) 1%nat.

Definition round_trip_hit_then_forget : test :=
  let pool := pool_new 16 4 f0 in
  let cache := cache_new 4 true in
  let tokens := toks 12 0 in
  '(r, pool) ← alloc pool 3; blocks ← expect r;
  let cache := insert cache tokens blocks in
  pool ← release_to_cache pool blocks;
  '(m, cache, pool) ← lookup cache tokens pool;
  assert_eq (num_tokens m) 12;;
  assert_eq (Cache.blocks m) blocks;;
  let cache := forget cache blocks in
  pool ← release pool blocks;
  '(m2, cache, pool) ← lookup cache tokens pool;
  assert (match_is_empty m2).

Definition a_disabled_cache_never_reports_a_hit : test :=
  let pool := pool_new 16 4 f0 in
  let cache := cache_new 4 false in
  let tokens := toks 12 0 in
  '(r, pool) ← alloc pool 3; blocks ← expect r;
  let cache := insert cache tokens blocks in
  '(m, cache, pool) ← lookup cache tokens pool;
  assert (match_is_empty m);;
  assert_feq (hit_rate cache) f0.

Lemma prefix_tests_pass : all_pass [hashes_chain_so_a_shared_block_is_not_a_shared_prefix; partial_tail_block_is_not_cacheable;
  round_trip_hit_then_forget; a_disabled_cache_never_reports_a_hit] = true.
Proof. vm_compute. reflexivity. Qed.
End PrefixTests.

Module RadixTests.
Import Trie.

Definition exact_prefix_is_found : test :=
  let ix := radix_new 1 1024 in
  ix ← insert ix 1 [1; 2; 3; 4; 5]%Z f0;
  n ← match_worker ix 1 [1; 2; 3; 4; 5]%Z; assert_eq n 5;;
  n ← match_worker ix 1 [1; 2; 3]%Z; assert_eq n 3;;
  n ← match_worker ix 2 [1; 2; 3]%Z; assert_eq n 0.

Definition a_branch_splits_the_shared_edge : test :=
  let ix := radix_new 1 1024 in
  ix ← insert ix 1 [1; 2; 3; 4]%Z f0;
  ix ← insert ix 2 [1; 2; 9; 9]%Z f1;
  n ← match_worker ix 1 [1; 2; 3; 4]%Z; assert_eq n 4;;
  n ← match_worker ix 2 [1; 2; 9; 9]%Z; assert_eq n 4;;
  n ← match_worker ix 2 [1; 2; 3; 4]%Z; assert_eq n 2;;
  n ← match_worker ix 1 [1; 2; 9; 9]%Z; assert_eq n 2.

Definition the_best_worker_is_the_one_with_the_longest_overlap : test :=
  let ix := radix_new 1 1024 in
  ix ← insert ix 1 [1; 2]%Z f0;
  ix ← insert ix 2 [1; 2; 3; 4; 5; 6]%Z f0;
  m ← match_workers ix [1; 2; 3; 4; 5; 6; 7]%Z;
  n ← m !! 1%Z; assert_eq n 2;;
  n ← m !! 2%Z; assert_eq n 6.

Definition a_partial_edge_match_still_counts : test :=
  let ix := radix_new 1 1024 in
  ix ← insert ix 1 [1; 2; 3; 4]%Z f0;
  n ← match_worker ix 1 [1; 2; 3; 7]%Z; assert_eq n 3.

Definition short_prompts_are_not_indexed : test :=
  let ix := radix_new 4 1024 in
  ix ← insert ix 1 [1; 2]%Z f0;
  assert (radix_is_empty ix).

Definition pruning_removes_cold_leaves_and_keeps_the_tree_walkable : test :=
  let ix := radix_new 1 1024 in
  ix ← insert ix 1 [1; 2; 3]%Z f0;
  ix ← insert ix 1 [7; 8; 9]%Z f0;
  ix ← insert ix 1 [4; 5; 6]%Z (of_Z 10000);
  '(ix, removed) ← prune ix (of_Z 10000) (of_Z 5000);
  assert_eq removed 2;;
  n ← match_worker ix 1 [4; 5; 6]%Z; assert_eq n 3;;
  n ← match_worker ix 1 [1; 2; 3]%Z; assert_eq n 0.

Definition forgetting_a_worker_leaves_the_others_intact : test :=
  let ix := radix_new 1 1024 in
  ix ← insert ix 1 [1; 2; 3]%Z f0;
  ix ← insert ix 2 [1; 2; 3]%Z f0;
  let ix := forget_worker ix 1 in
  n ← match_worker ix 1 [1; 2; 3]%Z; assert_eq n 0;;
  n ← match_worker ix 2 [1; 2; 3]%Z; assert_eq n 3.

Lemma radix_tests_pass : all_pass [exact_prefix_is_found; a_branch_splits_the_shared_edge;
  the_best_worker_is_the_one_with_the_longest_overlap; a_partial_edge_match_still_counts; short_prompts_are_not_indexed;
  pruning_removes_cold_leaves_and_keeps_the_tree_walkable; forgetting_a_worker_leaves_the_others_intact] = true.
Proof. vm_compute. reflexivity. Qed.
End RadixTests.
