(* ===== verification/SchedTests.v ===== *)
(** * The tests of the schedulers ([crates/sched]) *)

From Stdlib Require Import ZArith.
From stdpp Require Import base option list numbers gmap.
From S2P Require Import Prelude F64 F64Int Core Policy Prefill Controller Decode Testing.

Module PolicyTests.
Local Open Scope Z_scope.

Definition job (id : Z) (arrival deadline service : f64) : Job := mkJob id arrival deadline service.

Definition fcfs_preserves_arrival_order : test :=
  let jobs := [job 2 (of_Z 20) (of_Z 3020) (of_Z 100); job 1 (of_Z 10) (of_Z 3010) (of_Z 100)] in
  let o := order_jobs jobs f0 Fcfs in
  assert_eq (on_time o) [1; 2];;
  assert_eq (length (demoted o)) 0%nat.

Definition moore_hodgson_sacrifices_the_hog : test :=
  let jobs := [job 0 f0 (of_Z 100) (of_Z 100); job 1 f0 (of_Z 150) (of_Z 100);
               job 2 f0 (of_Z 160) (of_Z 10); job 3 f0 (of_Z 170) (of_Z 10)] in
  let o := order_jobs jobs f0 MooreHodgson in
  assert_eq (on_time o) [0; 2; 3];;
  assert_eq (demoted o) [1];;
  let edf := order_jobs jobs f0 Edf in
  '(clock, edf_good) ← for_each (on_time edf) (f0, 0) (fun id '(clock, good) =>
    j ← List.find (fun j => job_id j =? id) jobs;
    let clock := fadd clock (service_ms j) in
    Some (clock, if fle clock (job_deadline_ms j) then good + 1 else good));
  assert_eq edf_good 1.

Definition nothing_is_demoted_when_everything_fits : test :=
  let jobs := [job 0 f0 (of_Z 5000) (of_Z 100); job 1 f0 (of_Z 5000) (of_Z 100)] in
  let o := order_jobs jobs f0 MooreHodgson in
  assert_eq (length (on_time o)) 2%nat;;
  assert_eq (length (demoted o)) 0%nat.

Definition every_job_comes_back_exactly_once : test :=
  let jobs := map (fun i => job i f0 (fadd (of_Z 500) (of_Z i)) (of_Z 200)) (seqZ 0 20) in
  let o := order_jobs jobs f0 MooreHodgson in
  let ids := sort_by Z.compare (ordering_all o) in
  assert_eq ids (seqZ 0 20).

Definition uniform_workload_degenerates_to_arrival_order : test :=
  let jobs := map (fun i => job i (fmul (of_Z i) (of_Z 50)) (fadd (fmul (of_Z i) (of_Z 50)) (of_Z 3000)) (of_Z 400)) (seqZ 0 10) in
  let o := order_jobs jobs f0 MooreHodgson in
  assert_eq (take 5 (on_time o)) [0; 1; 2; 3; 4].

Lemma policy_tests_pass : all_pass [fcfs_preserves_arrival_order; moore_hodgson_sacrifices_the_hog;
  nothing_is_demoted_when_everything_fits; every_job_comes_back_exactly_once;
  uniform_workload_degenerates_to_arrival_order] = true.
Proof. vm_compute. reflexivity. Qed.
End PolicyTests.

Module PrefillTests.
Import Sched.
Local Open Scope Z_scope.

Definition tuning : PrefillTuning :=
  mkTuning 16384 8 (policy tuning_default) (demote_hopeless tuning_default) (of_Z 68) (rate_alpha tuning_default).

Definition pending (id : Z) (arrival : f64) (tokens : Z) : PendingPrefill :=
  mkPending id arrival (fadd arrival (of_Z 3000)) tokens 0.

(** [PendingPrefill { deadline_ms, ..p }] *)
Definition due (deadline : f64) (p : PendingPrefill) : PendingPrefill :=
  mkPending (pid p) (parrival_ms p) deadline (compute_tokens p) (done_tokens p).

Definition a_slack_queue_fills_the_batch_for_moe_efficiency : test :=
  let s := sched_new tuning in
  s ← for_each (seqZ 0 4) s (fun i s => Some (enqueue s (pending i f0 4000)));
  let '(s, b) := plan s f0 in
  assert_eq (length (chunks b)) 4%nat;;
  assert_eq (total_tokens b) 16000;;
  assert (negb (deadline_limited b)).

Definition a_tight_queue_collapses_the_batch_to_protect_deadlines : test :=
  let s := sched_new tuning in
  s ← for_each (seqZ 0 4) s (fun i s => Some (enqueue s (due (of_Z 150) (pending i (of_Z (-2850)) 4000))));
  let '(s, b) := plan s f0 in
  assert (length (chunks b) <? 4)%nat;;
  assert (deadline_limited b);;
  assert (fle (est_service_ms b) (of_Z 150)).

Definition the_first_sequence_always_runs_even_when_hopeless : test :=
  let s := sched_new tuning in
  let s := enqueue s (due (of_Z (-1)) (pending 0 (of_Z (-5000)) 4000)) in
  let '(s, b) := plan s f0 in
  assert_eq (length (chunks b)) 1%nat;;
  c ← chunks b !! 0%nat; assert_eq (cid c) 0.

Definition long_prompts_are_chunked_and_only_the_last_chunk_completes : test :=
  let s := sched_new (mkTuning 4096 (max_seqs tuning) (policy tuning) (demote_hopeless tuning) (tokens_per_ms tuning) (rate_alpha tuning)) in
  let s := enqueue s (pending 0 f0 10000) in
  let '(s, b1) := plan s f0 in
  assert_eq (total_tokens b1) 4096;;
  c ← chunks b1 !! 0%nat; assert (negb (completes c));;
  let '(s, _) := complete s b1 (est_service_ms b1) in
  let '(s, b2) := plan s (of_Z 100) in
  c ← chunks b2 !! 0%nat; assert_eq (start c) 4096;;
  assert (negb (completes c));;
  let '(s, _) := complete s b2 (est_service_ms b2) in
  let '(s, b3) := plan s (of_Z 200) in
  assert_eq (total_tokens b3) (10000 - 2 * 4096);;
  c ← chunks b3 !! 0%nat; assert (completes c);;
  let '(s, done) := complete s b3 (est_service_ms b3) in
  assert_eq done [0];;
  assert_eq (queue_depth s) 0%nat.

Definition observed_throughput_updates_the_rate_estimate : test :=
  let s := sched_new tuning in
  let s := enqueue s (pending 0 f0 4000) in
  let '(s, b) := plan s f0 in
  let before := rate s in
  let '(s, _) := complete s b (fmul (est_service_ms b) (of_Z 2)) in
  assert (flt (rate s) before).

Definition a_hopeless_request_does_not_block_the_ones_that_can_still_be_good : test :=
  let s := sched_new tuning in
  let s := enqueue s (due (of_Z (-100)) (pending 0 (of_Z (-4000)) 4000)) in
  s ← for_each (seqZ 1 3) s (fun i s => Some (enqueue s (pending i f0 4000)));
  let '(s, b) := plan s f0 in
  c ← chunks b !! 0%nat; assert_ne (cid c) 0;;
  assert (is_demoted s 0).

Lemma prefill_tests_pass : all_pass [a_slack_queue_fills_the_batch_for_moe_efficiency;
  a_tight_queue_collapses_the_batch_to_protect_deadlines; the_first_sequence_always_runs_even_when_hopeless;
  long_prompts_are_chunked_and_only_the_last_chunk_completes; observed_throughput_updates_the_rate_estimate;
  a_hopeless_request_does_not_block_the_ones_that_can_still_be_good] = true.
Proof. vm_compute. reflexivity. Qed.
End PrefillTests.

Module DecodeTests.
Import Decoder.
Local Open Scope Z_scope.

Definition ctl (target initial_cap mn mx : Z) : option ItlController :=
  ctl_make (of_Z target) (of_Z initial_cap) (of_Z mn) (of_Z mx).

(** [n] observations, of a latency and a concurrency that may depend on the controller. *)
Definition observes (n : nat) (itl : ItlController -> f64) (concurrency : ItlController -> Z) (c : ItlController) : ItlController :=
  Nat.iter n (fun c => Controller.observe c (itl c) (concurrency c)) c.

Definition at_cap (c : ItlController) : Z := to_usize (cap c).

Definition backing_off_lands_below_what_is_actually_running : test :=
  c ← ctl 20 2048 1 2048;
  let c := observes 9 (fun _ => of_Z 30) (fun _ => 40) c in
  assert (flt (cap c) (of_Z 40));;
  assert (fge (cap c) f1).

Definition backing_off_never_raises_the_cap : test :=
  c ← ctl 20 10 1 2048;
  let c := observes 9 (fun _ => of_Z 30) (fun _ => 40) c in
  assert (fle (cap c) (of_Z 10)).

Definition mk : option DecodeScheduler := c ← ctl 20 8 1 8; Some (dec_new (of_Z 20) c).

Definition a_speculating_step_books_more_than_one_token : test :=
  plain ← mk;
  spec ← mk;
  let spec := set_tokens_per_step spec 2 in
  let plain := admit_at plain (seq_new 1 f0 200) f0 in
  let spec := admit_at spec (seq_new 1 f0 200) f0 in
  '(plain, spec) ← for_each (seqZ 1 10) (plain, spec) (fun step '(plain, spec) =>
    let now := fmul (of_Z step) (of_Z 12) in
    '(plain, _) ← on_step plain now (of_Z 12) [1] [];
    '(spec, _) ← on_step spec now (of_Z 12) [1] [];
    Some (plain, spec));
  p ← head (values plain);
  q ← head (values spec);
  assert_eq (tokens_emitted p) 11;;
  assert_eq (tokens_emitted q) 21;;
  assert (remaining_tokens q <? remaining_tokens p).

Definition speculation_cannot_overshoot_the_requested_length : test :=
  s ← mk;
  let s := set_tokens_per_step s 4 in
  let s := admit_at s (seq_new 1 f0 10) f0 in
  s ← for_each (seqZ 1 10) s (fun step s => '(s, _) ← on_step s (fmul (of_Z step) (of_Z 12)) (of_Z 12) [1] []; Some s);
  match head (values s) with
  | Some q => assert (tokens_emitted q <=? 10);; assert_eq (remaining_tokens q) 0
  | None => Some ()
  end.

Definition tokens_per_step_is_at_least_one : test :=
  s ← mk;
  let s := set_tokens_per_step s 0 in
  assert_eq (tokens_per_step s) 1.

Definition seq_at (emitted : Z) (elapsed : f64) (requested : Z) : RunningSeq := mkSeq 0 f0 f0 elapsed emitted requested.

Definition tolerance_depends_on_how_much_of_the_average_is_already_spent : test :=
  let fresh := seq_at 1 f0 200 in
  assert (near (tolerable_itl_ms fresh (of_Z 20)) (of_Z 20) (dec 1 2));;
  let banked := seq_at 150 (fmul (of_Z 149) (of_Z 15)) 200 in
  assert (fgt (tolerable_itl_ms banked (of_Z 20)) (of_Z 33));;
  let spent := seq_at 150 (fmul (of_Z 149) (of_Z 21)) 200 in
  assert (flt (tolerable_itl_ms spent (of_Z 20)) (of_Z 18)).

Definition a_finished_sequence_tolerates_anything : test :=
  assert (is_infinite (tolerable_itl_ms (seq_at 200 (of_Z 4000) 200) (of_Z 20))).

Definition controller_raises_the_cap_while_latency_is_under_budget : test :=
  c ← ctl 20 40 8 256;
  let c := observes 40 (fun _ => of_Z 15) at_cap c in
  assert (fgt (cap c) (of_Z 40));;
  assert (fle (cap c) (of_Z 256)).

Definition an_unbinding_cap_does_not_grow : test :=
  c ← ctl 20 64 8 4096;
  let c := observes 200 (fun _ => of_Z 12) (fun _ => 4) c in
  assert (near (cap c) (of_Z 64) (dec 1 9)).

Definition controller_backs_off_when_latency_crosses_the_target : test :=
  c ← ctl 20 64 8 256;
  let c := observes 40 (fun _ => of_Z 15) at_cap c in
  let hot := cap c in
  let c := observes 10 (fun _ => of_Z 26) (fun _ => 64) c in
  assert (flt (cap c) hot);;
  assert (fge (cap c) (of_Z 8));;
  let c := observes 60 (fun _ => of_Z 26) (fun _ => 64) c in
  assert (concurrency_not_binding c).

Definition the_cap_stops_falling_once_falling_stops_helping : test :=
  c ← ctl 20 64 1 256;
  let c := observes 600 (fun _ => of_Z 92) at_cap c in
  assert (concurrency_not_binding c);;
  assert (fgt (cap c) f1).

Definition a_cap_that_is_binding_is_still_reduced : test :=
  c ← ctl 20 64 1 256;
  let start := cap c in
  let c := observes 600 (fun c => fmul (cap c) (dec 5 1)) at_cap c in
  assert (negb (concurrency_not_binding c));;
  assert (flt (cap c) start);;
  assert (fle (ewma_ms c) (of_Z 20)).

Definition giving_up_is_reversible : test :=
  c ← ctl 20 64 1 256;
  let c := observes 600 (fun _ => of_Z 92) at_cap c in
  assert (concurrency_not_binding c);;
  let c := observes 200 (fun _ => of_Z 5) at_cap c in
  assert (negb (concurrency_not_binding c)).

Definition giving_up_restores_the_throughput_the_throttling_cost : test :=
  c ← ctl 20 128 1 128;
  let c := observes 400 (fun c => fadd (of_Z 90) (fmul (cap c) (dec 5 2))) at_cap c in
  assert (concurrency_not_binding c);;
  assert (fge (cap c) (fmul (of_Z 128) (dec 99 2))).

Definition a_single_fast_step_must_not_rearm_the_collapse : test :=
  c ← ctl 20 128 1 128;
  c ← for_each (seqZ 0 2000) c (fun i c =>
    let step := if i mod 25 =? 0 then of_Z 5 else of_Z 95 in
    Some (Controller.observe c step (at_cap c)));
  assert (fgt (cap c) f1).

Definition admission_stops_at_the_cap : test :=
  c ← ctl 20 2 1 8;
  let s := dec_new (of_Z 20) c in
  let s := dec_admit s (seq_new 1 f0 200) in
  let s := dec_admit s (seq_new 2 f0 200) in
  assert_eq (can_admit s true) AtCap.

Definition wide : option DecodeScheduler := c ← ctl 20 64 1 256; Some (dec_new (of_Z 20) c).

Definition no_kv_headroom_beats_every_other_reason : test :=
  s ← wide; assert_eq (can_admit s false) NoKvHeadroom.

Definition admission_is_refused_when_an_inflight_request_has_no_room_left : test :=
  s ← wide;
  let s := dec_admit s (mkSeq 7 f0 f0 (fmul (of_Z 149) (of_Z 22)) 150 200) in
  let s := set_controller s (observes 10 (fun _ => of_Z 19) (fun _ => 1) (controller s)) in
  assert_eq (can_admit s true) WouldSpoilRunning.

(** Ten steps of 15 ms that advance the first two sequences. *)
Definition ten_steps (s : DecodeScheduler) : option (f64 * DecodeScheduler) :=
  for_each (seqZ 0 10) (f0, s) (fun _ '(now, s) =>
    let now := fadd now (of_Z 15) in
    '(s, _) ← on_step s now (of_Z 15) [1; 2] []; Some (now, s)).

Definition a_starving_request_raises_the_signal_even_while_steps_are_fast : test :=
  s ← wide;
  let s := dec_admit s (seq_new 1 f0 100) in
  let s := dec_admit s (seq_new 2 f0 100) in
  let s := dec_admit s (seq_new 3 f0 100) in
  '(now, s) ← ten_steps s;
  let observed := ewma_ms (controller s) in
  assert (fgt observed (of_Z 20)).

Definition a_healthy_batch_reports_the_step_time : test :=
  s ← wide;
  let s := dec_admit s (seq_new 1 f0 100) in
  let s := dec_admit s (seq_new 2 f0 100) in
  '(now, s) ← ten_steps s;
  let observed := ewma_ms (controller s) in
  assert (near observed (of_Z 15) f1).

Definition stepping_retires_sequences_that_reached_their_token_count : test :=
  s ← wide;
  let s := dec_admit s (seq_new 1 f0 3) in
  '(s, done) ← on_step_synthetic s (of_Z 17) (of_Z 17);
  assert_eq (length done) 0%nat;;
  '(s, done) ← on_step_synthetic s (of_Z 34) (of_Z 17);
  assert_eq (length done) 1%nat;;
  assert_eq (concurrency s) 0;;
  d ← done !! 0%nat; assert_eq (tokens_emitted d) 3.

Definition a_sequence_not_in_advanced_is_not_incremented : test :=
  s ← wide;
  let s := dec_admit s (seq_new 1 f0 10) in
  '(s, done) ← on_step s (of_Z 10) (of_Z 10) [] [];
  assert_eq (length done) 0%nat;;
  q ← List.find (fun r => seq_id r =? 1) (values s);
  assert_eq (tokens_emitted q) 1.

Definition a_sequence_in_finished_is_returned_even_when_not_done : test :=
  s ← wide;
  let s := dec_admit s (seq_new 1 f0 200) in
  '(s, done) ← on_step s (of_Z 10) (of_Z 10) [1] [1];
  assert_eq (length done) 1%nat;;
  assert_eq (concurrency s) 0;;
  d ← done !! 0%nat; assert (negb (is_done d)).

Definition is_done_without_an_engine_finish_report_stays_running : test :=
  s ← wide;
  let s := dec_admit s (seq_new 1 f0 1) in
  '(s, done) ← on_step s (of_Z 10) (of_Z 10) [] [];
  assert_eq (length done) 0%nat;;
  assert_eq (concurrency s) 1;;
  assert_eq (finish_disagreements s) 1;;
  s ← for_each (seqZ 0 5) s (fun _ s => '(s, _) ← on_step s (of_Z 10) (of_Z 10) [] []; Some s);
  assert_eq (finish_disagreements s) 1.

Lemma decode_tests_pass : all_pass [backing_off_lands_below_what_is_actually_running; backing_off_never_raises_the_cap;
  a_speculating_step_books_more_than_one_token; speculation_cannot_overshoot_the_requested_length;
  tokens_per_step_is_at_least_one; tolerance_depends_on_how_much_of_the_average_is_already_spent;
  a_finished_sequence_tolerates_anything; controller_raises_the_cap_while_latency_is_under_budget;
  an_unbinding_cap_does_not_grow; controller_backs_off_when_latency_crosses_the_target;
  the_cap_stops_falling_once_falling_stops_helping; a_cap_that_is_binding_is_still_reduced; giving_up_is_reversible;
  giving_up_restores_the_throughput_the_throttling_cost; a_single_fast_step_must_not_rearm_the_collapse;
  admission_stops_at_the_cap; no_kv_headroom_beats_every_other_reason;
  admission_is_refused_when_an_inflight_request_has_no_room_left;
  a_starving_request_raises_the_signal_even_while_steps_are_fast; a_healthy_batch_reports_the_step_time;
  stepping_retires_sequences_that_reached_their_token_count; a_sequence_not_in_advanced_is_not_incremented;
  a_sequence_in_finished_is_returned_even_when_not_done; is_done_without_an_engine_finish_report_stays_running] = true.
Proof. vm_compute. reflexivity. Qed.
End DecodeTests.
