(* ===== verification/CoreTests.v ===== *)
(** * The tests of the models and configurations ([crates/core]) *)

From Stdlib Require Import ZArith.
From stdpp Require Import base option list numbers gmap strings.
From S2P Require Import Prelude F64 F64Int Core Capacity Testing.

Module CapacityTests.
Import Planner.
Local Open Scope Z_scope.

Definition each_role_is_checked_against_its_own_requirement : test :=
  let m := model_default in
  assert (fits m 2 RolePrefill);;
  assert (negb (fits m 2 RoleDecode));;
  assert (fits m 4 RolePrefill && fits m 4 RoleDecode);;
  assert (fits m 8 RolePrefill && fits m 8 RoleDecode).

Definition the_grouped_gemm_outranks_the_collective : test :=
  let b := mfu_breakdown prefill_cal_default in
  assert (near (compute_mfu b) (dec 253 3) (dec 1 2));;
  let '(lever, worth) := largest_lever b (dec 50 2) in
  assert_eq lever "compute MFU"%string;;
  assert (fgt worth (allreduce_worth b) && fgt worth (duty_cycle_worth b));;
  assert (flt (fmul (allreduce_worth b) (duty_cycle_worth b)) (dec 16 1)).

Definition prefill_mfu_says_the_gap_is_implementation_not_hardware : test :=
  let p := prefill_cal_default in
  let expected_tflops := fdiv (fmul (fmul (fmul (tok_s_per_gpu p) (of_Z 2)) (active_params_b p)) (of_Z (10 ^ 9))) (of_Z (10 ^ 12)) in
  assert (near (achieved_tflops_per_gpu p) expected_tflops (dec 1 6));;
  let m := mfu p in
  assert (fgt m (dec 2 2) && flt m (dec 45 2));;
  assert (fgt (fdiv (dec 35 2) m) (dec 15 1)).

(** [CapacityModel { xfer_concurrency, ..m }] and [{ kv_dtype_bytes, ..m }] *)
Definition with_xfer_concurrency (n : Z) (m : CapacityModel) : CapacityModel :=
  mkModel (isl m) (osl m) (m_slo m) (m_prefill m) (m_decode m) (good_frac m) (itl_safety m) (kv_bytes_per_token m)
    (kv_xfer_gib_s m) n (weights_gib m) (gpu_gib m) (kv_dtype_bytes m) (kv_heads m) (max_num_tokens m)
    (activation_gib m) (decode_resident_tokens m).
Definition with_kv_dtype_bytes (x : f64) (m : CapacityModel) : CapacityModel :=
  mkModel (isl m) (osl m) (m_slo m) (m_prefill m) (m_decode m) (good_frac m) (itl_safety m) (kv_bytes_per_token m)
    (kv_xfer_gib_s m) (xfer_concurrency m) (weights_gib m) (gpu_gib m) x (kv_heads m) (max_num_tokens m)
    (activation_gib m) (decode_resident_tokens m).

Definition the_model_names_the_handoff_when_it_is_the_constraint : test :=
  let m := with_xfer_concurrency 1 model_default in
  s ← evaluate m 8 8 4 8;
  assert_eq (bottleneck s) BnKvTransfer;;
  assert (near (sustainable_req_s s) (dec 586 2) (dec 2 1));;
  assert (fgt (headroom_ratio s) (of_Z 2)).

Definition sixteen_buffers_move_the_constraint_off_the_handoff : test :=
  let m := model_default in
  s ← evaluate m 8 8 4 8;
  assert_ne (bottleneck s) BnKvTransfer.

Definition planning_does_not_extrapolate_by_default : test :=
  let d := decode_cal_default in
  let slo := slo_default in
  c ← max_concurrency_for_slo d 8 slo f1;
  assert (near c (of_Z 53) (dec 1 2)).

Definition the_measured_slope_makes_the_gate_bind_before_the_extrapolation_cap : test :=
  let slo := slo_default in
  let d := mkDecodeCal (concurrency_per_gpu decode_cal_default) (itl_ms_at_ref decode_cal_default)
    (itl_slope_ms decode_cal_default) (dec 15 1) None in
  c ← max_concurrency_for_slo d 8 slo f1;
  assert (near c (dec 739 1) (dec 5 1));;
  assert (flt c (fmul (of_Z 53) (dec 15 1)));;
  a ← decode_req_per_s d 8 200 slo f1;
  b ← decode_req_per_s decode_cal_default 8 200 slo f1;
  assert (fgt a b).

Definition reproduces_the_gwab_record : test :=
  let m := model_default in
  s ← evaluate m 8 8 4 8;
  assert (near (prefill_req_s s) (dec 1559 2) (dec 5 2));;
  assert (near (decode_req_s s) (dec 1538 2) (dec 20 2));;
  assert (near (goodput_req_s s) (dec 1433 2) (dec 25 2)).

Definition tp2_prefill_is_about_nine_percent_faster_per_gpu : test :=
  let c := prefill_cal_default in
  let r := fdiv (tok_s_per_gpu_at_tp c 2) (tok_s_per_gpu_at_tp c 4) in
  assert (near r (dec 10909 4) (dec 1 3));;
  assert (flt (tok_s_per_gpu_at_tp c 8) (tok_s_per_gpu_at_tp c 4)).

Definition tp2_prefill_fits_in_fp8_and_not_in_fp16 : test :=
  let m := model_default in
  assert_feq (kv_dtype_bytes m) f1;;
  assert (fgt (tok_s_per_gpu_at_tp (m_prefill m) 2) (tok_s_per_gpu_at_tp (m_prefill m) 4));;
  assert (fits m 2 RolePrefill);;
  let fp16 := with_kv_dtype_bytes (of_Z 2) model_default in
  assert (fgt (needed_gib_per_rank fp16 2 RolePrefill) (needed_gib_per_rank m 2 RolePrefill)).

Definition decode_needs_far_more_per_rank_than_prefill : test :=
  let m := model_default in
  let p := needed_gib_per_rank m 4 RolePrefill in
  let d := needed_gib_per_rank m 4 RoleDecode in
  assert (fgt d (fmul p (of_Z 2))).

Definition search_only_returns_realisable_splits : test :=
  let m := model_default in
  l ← search m 16 [1; 2; 4; 8] [4; 8];
  for_each l () (fun s _ =>
    assert_eq (prefill_gpus s + decode_gpus s) 16;;
    assert_eq (prefill_gpus s mod prefill_tp s) 0;;
    assert_eq (decode_gpus s mod decode_tp s) 0;;
    assert (1 <=? prefill_workers s)).

Definition decode_slot_seconds_is_osl_times_itl : test :=
  let slo := slo_default in
  assert (near (decode_slot_seconds slo 200) (of_Z 4) (dec 1 9));;
  assert (near (Core.decode_req_per_s slo (of_Z 64) 200) (of_Z 16) (dec 1 9)).

Definition the_in_card_ceiling_matches_what_was_measured : test :=
  let m := model_default in
  let r := in_card_pd_req_s m 16 (of_Z 6804) (of_Z 726) in
  assert (near r (dec 1853 2) (dec 1 1));;
  assert (fgt r (dec 1374 2)).

Definition the_optimal_split_moves_as_prefill_improves : test :=
  let m := model_default in
  let now := prefill_share m (of_Z 6804) (of_Z 726) in
  let target := prefill_share m (of_Z 26667) (of_Z 726) in
  assert (near now (dec 681 3) (dec 1 2));;
  assert (near target (dec 356 3) (dec 1 2));;
  assert (fgt now target).

Lemma capacity_tests_pass : all_pass [each_role_is_checked_against_its_own_requirement; the_grouped_gemm_outranks_the_collective;
  prefill_mfu_says_the_gap_is_implementation_not_hardware; the_model_names_the_handoff_when_it_is_the_constraint;
  sixteen_buffers_move_the_constraint_off_the_handoff; planning_does_not_extrapolate_by_default;
  the_measured_slope_makes_the_gate_bind_before_the_extrapolation_cap; reproduces_the_gwab_record;
  tp2_prefill_is_about_nine_percent_faster_per_gpu; tp2_prefill_fits_in_fp8_and_not_in_fp16;
  decode_needs_far_more_per_rank_than_prefill; search_only_returns_realisable_splits; decode_slot_seconds_is_osl_times_itl;
  the_in_card_ceiling_matches_what_was_measured; the_optimal_split_moves_as_prefill_improves] = true.
Proof. vm_compute. reflexivity. Qed.
End CapacityTests.
