(* ===== verification/DecideTests.v ===== *)
(** * The tests of the live capacity decision ([crates/pyext]) *)

From Stdlib Require Import ZArith.
From stdpp Require Import base option list numbers gmap strings.
From S2P Require Import Prelude F64 F64Int Controller Decide Report Testing.

(** [usize::MAX] *)
Definition usize_max : Z := u64_max.

(** [vec.contains(&i)], and a sorted copy of indices. *)
Definition contains (l : list nat) (i : nat) : bool := bool_decide (i ∈ l).
Definition sorted (l : list nat) : list nat := sort_by (cmp_on Z.of_nat) l.

Module BudgetTests.
Import Decide.Capacity.
Local Open Scope Z_scope.

Definition input (ids : list Z) (is_context : list bool) (prompt_lens context_done_tokens : list Z)
    (arrival_ms : list f64) (inflight : list Z) (max_batch_size max_num_tokens generation_cap : Z) : DecideInput :=
  mkInput ids is_context prompt_lens context_done_tokens arrival_ms inflight max_batch_size max_num_tokens
    [] [] f0 (of_Z 20) Arrival usize_max 0 generation_cap.

Definition disjoint_and_in_range : test :=
  let inp := input [1; 2; 3; 4] [true; false; true; false] [100; 10; 100; 10] [0; 0; 0; 0]
    (map of_Z [0; 1; 2; 3]) [] 64 8192 64 in
  let '(fitting, paused) := decide_indices inp in
  assert (forallb (fun i => negb (contains paused i)) fitting);;
  let all := sorted (fitting ++ paused) in
  assert_eq all [0; 1; 2; 3]%nat;;
  assert (forallb (fun i => (i <? length (ids inp))%nat) all).

Definition inflight_id_appears_in_no_list : test :=
  let '(fitting, paused) := decide_indices (input [10; 20; 30] [false; false; true] [0; 0; 50] [0; 0; 0]
    (map of_Z [0; 1; 2]) [20] 64 8192 64) in
  assert (negb (contains (fitting ++ paused) 1)).

Definition deterministic_across_repeated_calls : test :=
  let inp := input [5; 1; 3; 2; 4] [false; true; false; true; false] [0; 4000; 0; 4000; 0] [0; 0; 0; 0; 0]
    (map of_Z [4; 0; 2; 1; 3]) [] 3 5000 2 in
  let first := decide_indices inp in
  let second := decide_indices inp in
  assert_eq first.1 second.1;;
  assert_eq first.2 second.2.

Definition overflow_past_max_batch_size_is_paused_not_dropped : test :=
  let '(fitting, paused) := decide_indices (input [1; 2; 3; 4] [false; false; false; false] [0; 0; 0; 0] [0; 0; 0; 0]
    (map of_Z [0; 1; 2; 3]) [] 2 8192 64) in
  assert_eq (length fitting) 2%nat;;
  assert_eq (length paused) 2%nat;;
  assert_eq (sorted (fitting ++ paused)) [0; 1; 2; 3]%nat.

Definition generation_cap_below_max_batch_size_still_pauses_the_rest : test :=
  let '(fitting, paused) := decide_indices (input [1; 2; 3] [false; false; false] [0; 0; 0] [0; 0; 0]
    (map of_Z [0; 1; 2]) [] 64 8192 1) in
  assert_eq fitting [0]%nat;;
  assert_eq paused [1; 2]%nat.

Definition context_respects_max_num_tokens_budget : test :=
  let '(fitting, paused) := decide_indices (input [1; 2; 3] [true; true; true] [3000; 3000; 3000] [0; 0; 0]
    (map of_Z [0; 1; 2]) [] 64 6000 64) in
  assert_eq fitting [0; 1]%nat;;
  assert_eq paused [2]%nat.

Definition context_done_tokens_near_prompt_len_is_charged_only_its_remainder : test :=
  let '(fitting, paused) := decide_indices (input [1] [true] [10000] [9990] (map of_Z [0]) [] 64 10 64) in
  assert_eq fitting [0]%nat;;
  assert_eq paused [].

Definition generation_requests_also_charge_the_shared_token_budget : test :=
  let '(fitting, paused) := decide_indices (input [1; 2; 3; 4; 5] [false; false; false; false; false] [0; 0; 0; 0; 0]
    [0; 0; 0; 0; 0] (map of_Z [0; 1; 2; 3; 4]) [] 64 2 64) in
  assert_eq fitting [0; 1]%nat;;
  assert_eq paused [2; 3; 4]%nat.

Lemma budget_tests_pass : all_pass [disjoint_and_in_range; inflight_id_appears_in_no_list;
  deterministic_across_repeated_calls; overflow_past_max_batch_size_is_paused_not_dropped;
  generation_cap_below_max_batch_size_still_pauses_the_rest; context_respects_max_num_tokens_budget;
  context_done_tokens_near_prompt_len_is_charged_only_its_remainder;
  generation_requests_also_charge_the_shared_token_budget] = true.
Proof. vm_compute. reflexivity. Qed.
End BudgetTests.

Module SlackTests.
Import Decide.Capacity.
Local Open Scope Z_scope.

Definition input (ids gen maxnew : list Z) (arrival : list f64) (is_ctx : list bool) (plen done : list Z) (cap : Z)
    (order : DecodeOrder) : DecideInput :=
  mkInput ids is_ctx plen done arrival [] 64 16384 gen maxnew (of_Z 3000) (of_Z 20) order usize_max 0 cap.

Definition the_sequence_that_can_afford_to_wait_is_the_one_that_waits : test :=
  let i := input [1; 2] [191; 6] [200; 200] [f0; f0] [false; false] [4000; 4000] [4000; 4000] 1 in
  let '(fitting, paused) := decide_indices (i Slack) in
  assert_eq fitting [1]%nat;;
  assert_eq paused [0]%nat;;
  let '(fitting, _) := decide_indices (i Arrival) in
  assert_eq fitting [0]%nat.

Definition a_finished_sequence_never_displaces_a_running_one : test :=
  let '(fitting, paused) := decide_indices
    (input [1; 2] [200; 6] [200; 200] [f0; f0] [false; false] [4000; 4000] [4000; 4000] 1 Slack) in
  assert_eq fitting [1]%nat;;
  assert_eq paused [0]%nat.

Definition a_sequence_already_over_budget_is_served_first : test :=
  let '(fitting, _) := decide_indices
    (input [1; 2; 3] [6; 6; 6] [200; 200; 200] (map of_Z [2900; 0; 2900]) [false; false; false]
       [4000; 4000; 4000] [4000; 4000; 4000] 1 Slack) in
  assert_eq fitting [1]%nat.

Definition ties_are_broken_deterministically : test :=
  let '(fitting, _) := decide_indices
    (input [7; 3; 5] [6; 6; 6] [200; 200; 200] [f0; f0; f0] [false; false; false]
       [4000; 4000; 4000] [4000; 4000; 4000] 2 Slack) in
  assert_eq fitting [1; 2]%nat.

Lemma slack_tests_pass : all_pass [the_sequence_that_can_afford_to_wait_is_the_one_that_waits;
  a_finished_sequence_never_displaces_a_running_one; a_sequence_already_over_budget_is_served_first;
  ties_are_broken_deterministically] = true.
Proof. vm_compute. reflexivity. Qed.
End SlackTests.

Module BackpressureTests.
Import Decide.Capacity.
Local Open Scope Z_scope.

Definition mixed (ids : list Z) (is_ctx : list bool) (plen done gen maxnew : list Z) (arrival : list f64)
    (cap free watermark : Z) : DecideInput :=
  mkInput ids is_ctx plen done arrival [] 64 65536 gen maxnew (of_Z 1000) (of_Z 20) Slack free watermark cap.

Definition a_step_that_stalls_a_decode_does_not_start_a_prefill : test :=
  let i cap := mixed [1; 2; 3] [false; false; true] [4000; 4000; 4000] [4000; 4000; 0] [6; 6; 0] [200; 200; 200]
    [f0; f0; f0] cap usize_max 0 in
  let '(fitting, paused) := decide_indices (i 1) in
  assert_eq (length fitting) 1%nat;;
  assert (contains paused 2);;
  let '(fitting, paused) := decide_indices (i 2) in
  assert (contains fitting 2);;
  assert_eq paused [].

Definition the_rule_cannot_starve_prefill_on_a_disaggregated_worker : test :=
  let '(fitting, paused) := decide_indices
    (mixed [1; 2; 3] [false; false; false] [4000; 4000; 4000] [4000; 4000; 4000] [6; 6; 6] [200; 200; 200]
       [f0; f0; f0] 1 usize_max 0) in
  assert_eq (length fitting) 1%nat;;
  assert_eq (length paused) 2%nat.

Definition the_watermark_holds_back_new_work_and_not_work_in_progress : test :=
  let i free := mixed [1; 2] [true; true] [4000; 4000] [0; 2000] [0; 0] [200; 200] [f0; f0] 8 free 100 in
  let '(fitting, paused) := decide_indices (i 10) in
  assert_eq paused [0]%nat;;
  assert_eq fitting [1]%nat;;
  let '(fitting, _) := decide_indices (i 1000) in
  assert_eq (length fitting) 2%nat.

Lemma backpressure_tests_pass : all_pass [a_step_that_stalls_a_decode_does_not_start_a_prefill;
  the_rule_cannot_starve_prefill_on_a_disaggregated_worker;
  the_watermark_holds_back_new_work_and_not_work_in_progress] = true.
Proof. vm_compute. reflexivity. Qed.
End BackpressureTests.

Module LedgerTests.
Import Decide.Capacity.
Local Open Scope string_scope.
Local Open Scope list_scope.
Local Open Scope Z_scope.

(** [TRTLLM_RS_DECODE_ORDER] is not set. *)
Definition sched : RustScheduler := rust_new 96 16384 (of_Z 20) 4096 None.

(** [s.update_ledger(ids, now)], of the ledger. *)
Definition seen (s : RustScheduler) (ids : list Z) (now : f64) : RustScheduler :=
  mkRust (rs_max_batch_size s) (rs_max_num_tokens s) (rs_kv_total_blocks s) (rs_itl_budget_ms s) (rs_decode_order s)
    (update_ledger (ledger s) ids now) (rs_kv_watermark_blocks s) (rs_controller s) (admitted_total s)
    (paused_total s) (steps_observed s) (last_kv_free_blocks s) (last_now_ms s).

(** [for step in from..=from + n - 1 { s.update_ledger(ids, step as f64 * ms) }] *)
Fixpoint steps_from (from : Z) (s : RustScheduler) (ids : list Z) (n : nat) (ms : Z) : RustScheduler :=
  match n with
  | O => s
  | S n => steps_from (from + 1) (seen s ids (fmul (of_Z from) (of_Z ms))) ids n ms
  end.
Definition steps (s : RustScheduler) (ids : list Z) (n ms : Z) : RustScheduler := steps_from 1 s ids (Z.to_nat n) ms.

Definition requests_that_stop_being_offered_are_counted_not_forgotten : test :=
  let s := seen sched (seqZ 0 74) f0 in
  assert_eq (absent s f0).1 0%nat;;
  let s := steps s (seqZ 0 26) 1000 14 in
  assert_eq (absent s (of_Z 14000)).1 48%nat;;
  assert (fgt (absent s (of_Z 14000)).2 (of_Z 13000)).

Definition a_request_that_returns_is_no_longer_absent : test :=
  let s := seen sched [1; 2; 3] f0 in
  let s := seen s [1; 3] (of_Z 12) in
  assert_eq (absent s (of_Z 12)).1 1%nat;;
  let s := seen s [1; 2; 3] (of_Z 24) in
  assert_eq (absent s (of_Z 24)).1 0%nat.

Definition ids_are_forgotten_rather_than_accumulated : test :=
  let s := seen sched [1; 2; 3] f0 in
  let s := steps s [1] (LEDGER_FORGET_STEPS + 5) 12 in
  assert_eq (size (ledger s)) 1%nat.

Definition the_absence_reaches_the_stats : test :=
  let s := seen sched [1; 2] f0 in
  let s := seen s [1] (of_Z 5000) in
  let s := mkRust (rs_max_batch_size s) (rs_max_num_tokens s) (rs_kv_total_blocks s) (rs_itl_budget_ms s)
    (rs_decode_order s) (ledger s) (rs_kv_watermark_blocks s) (rs_controller s) (admitted_total s)
    (paused_total s) (steps_observed s) (last_kv_free_blocks s) (of_Z 5000) in
  let m := Report.stats s in
  a ← m !! "absent"; assert_feq a f1;;
  o ← m !! "absent_max_ms"; assert (fge o (of_Z 5000));;
  t ← m !! "tracked"; assert_feq t (of_Z 2).

Lemma ledger_tests_pass : all_pass [requests_that_stop_being_offered_are_counted_not_forgotten;
  a_request_that_returns_is_no_longer_absent; ids_are_forgotten_rather_than_accumulated;
  the_absence_reaches_the_stats] = true.
Proof. vm_compute. reflexivity. Qed.
End LedgerTests.
