(* ===== verification/DeployTests.v ===== *)
(** * The tests of the statistics, remedies, verdicts and configurations ([crates/core]) *)

From Stdlib Require Import ZArith String.
From stdpp Require Import base option list numbers gmap strings.
From S2P Require Import Prelude F64 F64Int Text Core Capacity Config Remedy Report Testing CoreTests.

(** [matches!(d, Diagnosis::ItlGate { .. })] and the like. *)
Definition is_itl_gate (d : Assess.Diagnosis) : bool := match d with Assess.ItlGate _ _ => true | _ => false end.
Definition is_ttft_gate (d : Assess.Diagnosis) : bool := match d with Assess.TtftGate _ _ => true | _ => false end.
Definition is_both_gates (d : Assess.Diagnosis) : bool := match d with Assess.BothGates _ _ _ _ => true | _ => false end.
Definition is_met (d : Assess.Diagnosis) : bool := match d with Assess.Met => true | _ => false end.
Definition is_nothing_served (d : Assess.Diagnosis) : bool := match d with Assess.NothingServed => true | _ => false end.

Module StatsTests.
Local Open Scope Z_scope.

Definition outcome (id : Z) (ttft itl : f64) : RequestOutcome :=
  mkOutcome id f0 ttft (fadd ttft (fmul itl (of_Z 199))) 4000 200 200.

Definition percentiles_are_nearest_rank : test :=
  let s := from_samples (map of_Z (seqZ 1 100)) in
  assert_feq (p50 s) (of_Z 50);;
  assert_feq (p99 s) (of_Z 99);;
  assert_feq (lat_max s) (of_Z 100).

Definition a_request_is_scored_on_its_own_budgets_not_a_percentile : test :=
  let slo := slo_default in
  let outs := map (fun i => outcome i (of_Z 500) (of_Z 17)) (seqZ 0 9) ++ [outcome 9 (of_Z 6000) (of_Z 17)] in
  let r := from_outcomes outs (of_Z 10) slo in
  assert_eq (good_requests r) 9%nat;;
  assert (near (good_frac r) (dec 90 2) (dec 1 9));;
  assert (passed r);;
  assert_eq (late_first_token r) 1%nat;;
  assert (fgt (p99 (rep_ttft r)) (slo_ttft_ms slo)).

Definition mean_itl_uses_gaps_not_tokens : test :=
  assert (near (mean_itl_ms (outcome 0 (of_Z 100) (of_Z 20))) (of_Z 20) (dec 1 9)).

Lemma stats_tests_pass : all_pass [percentiles_are_nearest_rank;
  a_request_is_scored_on_its_own_budgets_not_a_percentile; mean_itl_uses_gaps_not_tokens] = true.
Proof. vm_compute. reflexivity. Qed.
End StatsTests.

Module RemedyTests.
Import Planner Remedies.
Local Open Scope string_scope.
Local Open Scope list_scope.
Local Open Scope Z_scope.

(** [slice.windows(2)] *)
Definition windows2 {A} (l : list A) : list (A * A) := zip l (tl l).
Definition find (name : string) (r : list Remedy) : option Remedy := List.find (fun x => knob x =? name)%string r.
Definition offered (name : string) (r : list Remedy) : bool := existsb (fun x => knob x =? name)%string r.
Definition serial : CapacityModel := CapacityTests.with_xfer_concurrency 1 model_default.

Definition remedies_are_ordered_by_how_well_they_are_backed : test :=
  let m := model_default in
  split ← evaluate m 8 8 4 4;
  let r := remedies m split in
  assert (negb (bool_decide (length r = 0%nat)));;
  for_each (windows2 r) () (fun '(a, b) _ => assert (evidence_rank (evidence b) <=? evidence_rank (evidence a))).

Definition every_bottleneck_has_at_least_one_remedy : test :=
  let m := model_default in
  for_each [(8, 8, 4, 4); (12, 4, 4, 4); (4, 12, 4, 4)] () (fun '(p, d, ptp, dtp) _ =>
    split ← evaluate m p d ptp dtp;
    assert (negb (bool_decide (length (remedies m split) = 0%nat))));;
  split ← evaluate serial 8 8 4 8;
  assert_eq (bottleneck split) BnKvTransfer;;
  assert (negb (bool_decide (length (remedies serial split) = 0%nat))).

Definition prefill_multipliers_track_the_mfu_breakdown : test :=
  let m := model_default in
  let b := mfu_breakdown (m_prefill m) in
  split ← evaluate m 4 12 4 4;
  assert_eq (bottleneck split) BnPrefill;;
  let r := remedies m split in
  allreduce ← find "ALLREDUCE_STRATEGY" r;
  assert (near (multiplier allreduce) (allreduce_worth b) (dec 1 9));;
  compile ← find "TORCH_COMPILE" r;
  assert (near (multiplier compile) (compute_mfu_worth b (dec 50 2)) (dec 1 9));;
  assert (fgt (multiplier compile) (multiplier allreduce)).

Definition a_remedy_emits_a_command_that_carries_its_dependencies : test :=
  let m := model_default in
  split ← evaluate m 4 12 4 4;
  let r := remedies m split in
  cp ← find "CONTEXT_PARALLEL" r;
  let cmd := command cp "scripts/stage-d-235b-disagg.sbatch" in
  assert (Text.contains cmd "CONTEXT_PARALLEL=2");;
  assert (Text.contains cmd "PREFILL_WORKERS=1" && Text.contains cmd "PREFILL_TP=4");;
  for_each r () (fun x _ => assert (negb (Text.contains (setting x) " "))).

Definition a_remedy_already_applied_is_not_offered : test :=
  let m := model_default in
  split ← evaluate m 12 4 4 4;
  assert_eq (decode_tp split) 4;;
  assert (negb (offered "DECODE_TP" (remedies m split)));;
  split8 ← evaluate m 12 8 4 8;
  let r8 := remedies m split8 in
  if bool_decide (bottleneck split8 = BnDecode) then assert (offered "DECODE_TP" r8) else Some ().

Definition the_transfer_remedy_disappears_once_it_is_configured : test :=
  split ← evaluate serial 8 8 4 8;
  assert (offered "KV_XFER_CONCURRENCY" (remedies serial split));;
  let m := model_default in
  assert (16 <=? xfer_concurrency m);;
  split ← evaluate m 8 8 4 8;
  assert (negb (offered "KV_XFER_CONCURRENCY" (remedies m split))).

Definition the_tp8_decode_finding_is_labelled_measured : test :=
  let m := model_default in
  split ← evaluate m 12 4 4 4;
  assert_eq (bottleneck split) BnDecode;;
  match find "DECODE_TP" (remedies m split) with
  | Some tp => assert_eq (evidence tp) Measured
  | None => Some ()
  end.

Lemma remedy_tests_pass : all_pass [remedies_are_ordered_by_how_well_they_are_backed;
  every_bottleneck_has_at_least_one_remedy; prefill_multipliers_track_the_mfu_breakdown;
  a_remedy_emits_a_command_that_carries_its_dependencies; a_remedy_already_applied_is_not_offered;
  the_transfer_remedy_disappears_once_it_is_configured; the_tp8_decode_finding_is_labelled_measured] = true.
Proof. vm_compute. reflexivity. Qed.

(** *** What is already applied *)

Definition knobs (r : list Remedy) : list string := map knob r.

Definition the_default_deployment_has_one_thing_left_to_try : test :=
  let m := model_default in
  split ← evaluate m 8 8 2 4;
  assert_eq (knobs (remedies_given m split EngineConf.engine_default)) ["SPECULATION"].

(** The default configuration with speculation on. *)
Definition speculative_engine : EngineConf.EngineConfig :=
  let e := EngineConf.engine_default in
  let s := EngineConf.speculation e in
  EngineConf.mkEngine (EngineConf.attn_backend e) (EngineConf.moe_backend e) (EngineConf.allreduce_strategy e)
    (EngineConf.expert_parallel e) (EngineConf.prefill_attention_dp e) (EngineConf.chunked_prefill e)
    (EngineConf.cuda_graph_max_batch e) (EngineConf.torch_compile e) (EngineConf.host_dispatch_spin e)
    (EngineConf.block_reuse e)
    (EngineConf.mkSpecConfig true (EngineConf.spec_model s) (EngineConf.spec_draft_tokens s))
    (EngineConf.context_parallel e).
Definition speculative : Deployment.Config :=
  let c := Deployment.config_default in
  Deployment.mkConfig (Deployment.model c) (Deployment.workload c) (Deployment.topology c) (Deployment.scheduler c)
    (Deployment.kv c) speculative_engine (Deployment.calibration c) (Deployment.slo c).

Definition taking_the_last_decode_remedy_moves_the_constraint_to_prefill : test :=
  let m := Deployment.capacity_model speculative in
  split ← evaluate m 8 8 2 4;
  assert_eq (bottleneck split) BnPrefill;;
  let r := remedies_given m split speculative_engine in
  assert (negb (offered "SPECULATION" r));;
  assert (offered "TORCH_COMPILE" r).

(** [CapacityModel { kv_dtype_bytes: 2.0, max_num_tokens: 8192, .. }] and
    [EngineConfig { expert_parallel: 4, .. }] *)
Definition stock_model : CapacityModel :=
  let m := model_default in
  mkModel (isl m) (osl m) (m_slo m) (m_prefill m) (m_decode m) (good_frac m) (itl_safety m) (kv_bytes_per_token m)
    (kv_xfer_gib_s m) (xfer_concurrency m) (weights_gib m) (gpu_gib m) (of_Z 2) (kv_heads m) 8192
    (activation_gib m) (decode_resident_tokens m).
Definition stock_engine : EngineConf.EngineConfig :=
  let e := EngineConf.engine_default in
  EngineConf.mkEngine (EngineConf.attn_backend e) (EngineConf.moe_backend e) (EngineConf.allreduce_strategy e)
    4 (EngineConf.prefill_attention_dp e) (EngineConf.chunked_prefill e)
    (EngineConf.cuda_graph_max_batch e) (EngineConf.torch_compile e) (EngineConf.host_dispatch_spin e)
    (EngineConf.block_reuse e) (EngineConf.speculation e) (EngineConf.context_parallel e).

Definition a_stock_deployment_is_told_everything : test :=
  split ← evaluate stock_model 4 12 2 4;
  assert_eq (bottleneck split) BnPrefill;;
  let r := remedies_given stock_model split stock_engine in
  for_each ["EXPERT_PARALLEL"; "KV_CACHE_DTYPE"; "PREFILL_MAX_NUM_TOKENS"] () (fun expected _ =>
    assert (offered expected r)).

Lemma applied_tests_pass : all_pass [the_default_deployment_has_one_thing_left_to_try;
  taking_the_last_decode_remedy_moves_the_constraint_to_prefill; a_stock_deployment_is_told_everything] = true.
Proof. vm_compute. reflexivity. Qed.
End RemedyTests.

Module VerdictTests.
Import Planner Assess.
Local Open Scope string_scope.
Local Open Scope list_scope.
Local Open Scope Z_scope.

Definition job_316849 : MeasuredRun :=
  mkRun f0 (dec 4077099667664089 15) (dec 8154120626840386 13) (dec 9957859168108107 13) (dec 298090 2)
    (dec 911448738791695 13) (of_Z 518).

Definition job_325590 : MeasuredRun :=
  mkRun (dec 22 2) (dec 1371 2) (of_Z 2738) (of_Z 4863) (of_Z 5113) (dec 211 1) (of_Z 1754).

(** [m] with other goodput, throughput, inter-token latency, TTFT p90 or request count. *)
Definition changed (m : MeasuredRun) (goodput throughput itl ttft count : option f64) : MeasuredRun :=
  mkRun (default (run_goodput_req_s m) goodput) (default (request_throughput_req_s m) throughput)
    (output_token_throughput m) (ttft_avg_ms m) (default (ttft_p90_ms m) ttft) (default (itl_avg_ms m) itl)
    (default (request_count m) count).

Definition judge (m : MeasuredRun) (b : Bottleneck) : RunVerdict := assess m (dec 1430 2) slo_default b (dec 15 2).

Definition a_failed_gate_points_at_the_side_that_owns_it : test :=
  assert_eq (implicates (ItlGate (of_Z 91) (of_Z 20))) (Some BnDecode);;
  assert_eq (implicates (TtftGate (of_Z 5000) (of_Z 3000))) (Some BnPrefill);;
  assert_eq (implicates Met) None;;
  assert_eq (implicates NothingServed) None.

Definition the_first_complete_run_is_diagnosed_as_the_itl_gate : test :=
  let v := judge job_316849 BnDecode in
  match diagnosis v with
  | ItlGate measured_ms budget_ms =>
      assert (near measured_ms (dec 9114 2) (dec 1 2));;
      assert (near budget_ms (of_Z 20) (dec 1 2))
  | _ => None
  end;;
  assert (Text.contains (Report.verdict_summary v) "TTFT was not the problem").

Definition the_gate_that_passed_is_not_blamed : test :=
  assert (negb (is_ttft_gate (diagnosis (judge job_316849 BnDecode)))).

Definition a_run_that_meets_its_prediction_says_so : test :=
  let m := changed job_316849 (Some (dec 135 1)) None (Some (of_Z 16)) None None in
  assert (is_met (diagnosis (judge m BnDecode))).

Definition passing_both_gates_and_still_falling_short_implicates_a_resource : test :=
  let m := changed job_316849 (Some (of_Z 5)) (Some (of_Z 5)) (Some (of_Z 16)) (Some (of_Z 1500)) None in
  match diagnosis (judge m BnKvTransfer) with
  | ThroughputShortfall _ _ implicates => assert_eq implicates BnKvTransfer
  | _ => None
  end.

Definition zero_requests_is_a_failure_not_a_shortfall : test :=
  let m := changed job_316849 None None None None (Some f0) in
  assert (is_nothing_served (diagnosis (judge m BnDecode))).

(** Enough of a JSON document for the test's: a number, or an object's fields. *)
Inductive Doc := Num (x : f64) | Empty | Field (name : string) (value rest : Doc).
Fixpoint get (d : Doc) (name : string) : option Doc :=
  match d with
  | Field n v rest => if (n =? name)%string then Some v else get rest name
  | Num _ | Empty => None
  end.
Definition as_f64 (d : Doc) : option f64 := match d with Num x => Some x | _ => None end.

Definition a_missing_metric_is_an_error_not_a_zero : test :=
  let doc := Field "goodput" (Field "avg" (Num f1) Empty) Empty in
  err ← expect_err (from_aiperf_json get as_f64 doc);
  assert (Text.contains err "request_throughput").

Definition two_failed_gates_are_not_reported_as_one : test :=
  let v := judge job_325590 BnDecode in
  assert (is_both_gates (diagnosis v));;
  let s := Report.verdict_summary v in
  assert (negb (Text.contains s "was not the problem"));;
  assert (Text.contains s "Neither side is fine").

Definition the_larger_miss_is_the_one_named : test :=
  let v := judge job_325590 BnDecode in
  assert_eq (implicates (diagnosis v)) (Some BnPrefill);;
  assert (Text.contains (Report.verdict_summary v) "prefill").

Definition a_single_failed_gate_still_says_the_other_one_held : test :=
  let v := judge (changed job_325590 None None None (Some (dec 29809 1)) None) BnDecode in
  assert (is_itl_gate (diagnosis v));;
  assert (Text.contains (Report.verdict_summary v) "TTFT was not the problem").

Lemma verdict_tests_pass : all_pass [a_failed_gate_points_at_the_side_that_owns_it;
  the_first_complete_run_is_diagnosed_as_the_itl_gate; the_gate_that_passed_is_not_blamed;
  a_run_that_meets_its_prediction_says_so; passing_both_gates_and_still_falling_short_implicates_a_resource;
  zero_requests_is_a_failure_not_a_shortfall; a_missing_metric_is_an_error_not_a_zero;
  two_failed_gates_are_not_reported_as_one; the_larger_miss_is_the_one_named;
  a_single_failed_gate_still_says_the_other_one_held] = true.
Proof. vm_compute. reflexivity. Qed.
End VerdictTests.

(** The text of a refusal is its constructor, which the tests that look for
    words in it are read as naming. *)
Module EngineConfTests.
Import Planner EngineConf.
Local Open Scope string_scope.
Local Open Scope list_scope.
Local Open Scope Z_scope.

(** [EngineConfig { attn_backend, moe_backend, cuda_graph_max_batch, speculation.enabled, context_parallel, .. }] *)
Definition engine (attn moe : string) (graph : Z) (speculate : bool) (cp : Z) : EngineConfig :=
  let e := engine_default in
  let s := speculation e in
  mkEngine attn moe (allreduce_strategy e) (expert_parallel e) (prefill_attention_dp e) (chunked_prefill e) graph
    (torch_compile e) (host_dispatch_spin e) (block_reuse e)
    (mkSpecConfig speculate (spec_model s) (spec_draft_tokens s)) cp.
Definition with_moe (moe : string) : EngineConfig := engine "TRTLLM" moe 96 false 1.

Definition a_misspelt_backend_is_rejected_with_the_alternatives : test :=
  e ← expect_err (validate (with_moe "DEEP_GEMM"));
  match e with
  | NotOneOf name _ => assert_eq name "moe_backend";; assert (bool_decide ("DEEPGEMM" ∈ MOE_BACKENDS))
  | _ => None
  end;;
  assert (is_err (validate (engine "flashinfer" "AUTO" 96 false 1))).

Definition the_defaults_validate : test := expect (validate engine_default).

Definition a_zero_graph_capture_is_rejected_as_the_mistake_it_usually_is : test :=
  e ← expect_err (validate (engine "TRTLLM" "AUTO" 0 false 1));
  match e with EmptyGraph => Some () | _ => None end.

Definition the_graph_must_be_captured_at_the_speculative_batch_size : test :=
  let s := eagle3_topk1 in
  assert_eq (graph_batch_for s 96) 192;;
  assert_eq (graph_batch_for s 64) 128.

Definition an_uncharted_combination_is_refused_and_says_why : test :=
  e ← expect_err (validate (engine "TRTLLM" "AUTO" 96 true 2));
  match e with CpWithSpeculation => Some () | _ => None end.

Definition deepgemm_is_refused_on_hopper_and_the_message_says_why : test :=
  let c := with_moe "DEEPGEMM" in
  e ← expect_err (validate_for c h200_fp8);
  match e with NeedsSm100 b _ => assert_eq b "DEEPGEMM" | _ => None end;;
  let b200 := mkHardware 100 "nvfp4" in
  expect (validate_for c b200).

Definition marlin_is_refused_for_the_checkpoint_not_the_gpu : test :=
  e ← expect_err (validate_for (with_moe "MARLIN") h200_fp8);
  match e with NeedsNvfp4 _ => Some () | _ => None end.

Definition cutlass_is_the_only_moe_backend_h200_fp8_can_run : test :=
  let hw := h200_fp8 in
  for_each ["AUTO"; "CUTLASS"] () (fun good _ => expect (validate_for (with_moe good) hw));;
  for_each ["DEEPGEMM"; "TRTLLM"; "MARLIN"] () (fun bad _ => assert (is_err (validate_for (with_moe bad) hw))).

Definition the_defaults_run_on_the_target_hardware : test := expect (validate_for engine_default h200_fp8).

Lemma engine_conf_tests_pass : all_pass [a_misspelt_backend_is_rejected_with_the_alternatives; the_defaults_validate;
  a_zero_graph_capture_is_rejected_as_the_mistake_it_usually_is;
  the_graph_must_be_captured_at_the_speculative_batch_size; an_uncharted_combination_is_refused_and_says_why;
  deepgemm_is_refused_on_hopper_and_the_message_says_why; marlin_is_refused_for_the_checkpoint_not_the_gpu;
  cutlass_is_the_only_moe_backend_h200_fp8_can_run; the_defaults_run_on_the_target_hardware] = true.
Proof. vm_compute. reflexivity. Qed.
End EngineConfTests.

Module ConfigTests.
Import Deployment.
Local Open Scope Z_scope.

Definition default_config_is_valid_and_is_4p2d_on_narrow_prefill : test :=
  let c := config_default in
  expect (validate_config c);;
  let t := topology c in
  assert_eq (prefill_workers t) 4;;
  assert_eq (prefill_tp t) 2;;
  assert_eq (decode_workers t) 2;;
  assert_eq (decode_tp t) 4;;
  assert_eq (w_concurrency (workload c)) 80;;
  let m := capacity_model c in
  assert (Planner.fits m (prefill_tp t) Planner.RolePrefill);;
  assert (Planner.fits m (decode_tp t) Planner.RoleDecode);;
  assert_eq (prefill_workers t * prefill_tp t + decode_workers t * decode_tp t) 16.

(** [c.topology.prefill_workers = 8] *)
Definition overcommitted : Config :=
  let c := config_default in
  let t := topology c in
  mkConfig (model c) (workload c)
    (mkTopology (total_gpus t) 8 (prefill_tp t) (decode_workers t) (decode_tp t) (gpu_gib t) (kv_dtype_bytes t)
       (activation_gib t))
    (scheduler c) (kv c) (engine c) (calibration c) (slo c).

Definition overcommitting_gpus_is_rejected : test := assert (is_err (validate_config overcommitted)).

Lemma config_tests_pass : all_pass [default_config_is_valid_and_is_4p2d_on_narrow_prefill;
  overcommitting_gpus_is_rejected] = true.
Proof. vm_compute. reflexivity. Qed.
End ConfigTests.
