(* ===== verification/NetTests.v ===== *)
(** * The tests of the services around the engines ([crates/router], [transfer], [wire], [worker], [frontend]) *)

From Stdlib Require Import ZArith String.
From stdpp Require Import base option list numbers pretty gmap strings.
From S2P Require Import Prelude F64 F64Int Text Core Radix Router Wire Tokenizer Frontend Dynamo Transfer Testing.

Module RouterTests.
Import Routing.
Local Open Scope Z_scope.

(** [RouterTuning::default()] *)
Definition tuning_default : RouterTuning := mkTuning (of_Z 10) (of_Z 17) 256.

Definition load (queued concurrency : Z) (rate : f64) : WorkerLoad :=
  mkLoad queued 0 concurrency (of_Z 64) f0 rate f0 f0.

Definition worker (id : Z) (role : WorkerRole) (queued : Z) (rate : f64) : WorkerState :=
  mkWorker id role ("http://w" +:+ pretty id)%string 2 true (load queued 0 rate).

Definition registry (prefill : list (Z * Z * f64)) : WorkerRegistry :=
  let r := foldl (fun r '(id, queued, rate) => register r (worker id Prefill queued rate))
             (registry_new (of_Z 5000)) prefill in
  register r (worker 100 Decode 0 f0).

Definition prompt (n : nat) (t : Z) : list Z := replicate n t.

(** A route that neither panics nor fails. *)
Definition routed (rt : Router) (p : list Z) : option RoutingDecision := r ← route rt p f0 (of_Z 3000); expect r.

Definition the_shortest_predicted_wait_wins : test :=
  let router := router_new (registry [(1, 40000, of_Z 17); (2, 0, of_Z 17)]) tuning_default in
  d ← routed router (prompt (Z.to_nat 4000) 1);
  assert_eq (rd_prefill d) 2;;
  assert_eq (rd_decode d) 100;;
  assert (negb (predicted_late d)).

Definition a_prefix_hit_is_priced_in_milliseconds_not_bonus_points : test :=
  let router := router_new (registry [(1, 20000, of_Z 17); (2, 0, of_Z 17)]) tuning_default in
  let p := prompt (Z.to_nat 4000) 5 in
  router ← note_prefill router 1 p f0;
  d ← routed router p;
  assert_eq (rd_prefill d) 2;;
  let shrunk := update_load (Routing.registry router) 1 (mkLoad 1000 0 0 f0 f0 (of_Z 17) f0 f0) in
  let router := mkRouter shrunk (prefix_index router) (tuning router) in
  d ← routed router p;
  assert_eq (rd_prefill d) 1;;
  assert_eq (prefix_hit_tokens d) (Z.to_nat 4000).

Definition a_request_that_cannot_make_its_budget_is_flagged_at_routing_time : test :=
  let router := router_new (registry [(1, 200000, of_Z 17)]) tuning_default in
  d ← routed router (prompt (Z.to_nat 4000) 1);
  assert (predicted_late d).

Definition an_empty_or_stale_pool_is_an_error_not_a_default : test :=
  let r := register (registry_new (of_Z 1000)) (worker 1 Prefill 0 (of_Z 17)) in
  let router := router_new r tuning_default in
  a ← route router [1; 2; 3] f0 (of_Z 3000); e ← expect_err a;
  match e with NoDecodeWorker => Some () | NoPrefillWorker => None end;;
  b ← route router [1; 2; 3] (of_Z 10000) (of_Z 3000); e ← expect_err b;
  match e with NoPrefillWorker => Some () | NoDecodeWorker => None end.

Definition the_decode_worker_with_the_most_headroom_wins : test :=
  let with_concurrency id n := mkWorker id Decode ("http://w" +:+ pretty id)%string 2 true (load 0 n f0) in
  let r := register (registry_new (of_Z 5000)) (worker 1 Prefill 0 (of_Z 17)) in
  let r := register (register r (with_concurrency 10 60)) (with_concurrency 11 10) in
  d ← routed (router_new r tuning_default) [1; 2; 3];
  assert_eq (rd_decode d) 11.

Lemma router_tests_pass : all_pass [the_shortest_predicted_wait_wins;
  a_prefix_hit_is_priced_in_milliseconds_not_bonus_points;
  a_request_that_cannot_make_its_budget_is_flagged_at_routing_time;
  an_empty_or_stale_pool_is_an_error_not_a_default; the_decode_worker_with_the_most_headroom_wins] = true.
Proof. vm_compute. reflexivity. Qed.
End RouterTests.

Module TransferTests.
Import Transfer.
Local Open Scope Z_scope.

Definition ranks (es : list ReshardEdge) : list Z := sort_by (cmp_on id) (map dst_rank es).

(** [Vec::dedup] *)
Fixpoint dedup (l : list Z) : list Z :=
  match l with
  | a :: ((b :: _) as l') => if decide (a = b) then dedup l' else a :: dedup l'
  | _ => l
  end.

Definition tp2_to_tp8_replicates_each_head_across_two_ranks : test :=
  p ← expect (plan (mkReshard 4 2 8));
  assert_eq (length (edges p)) 8%nat;;
  assert_eq (dst_replication (reshard p)) 2;;
  assert (near (amplification p) (of_Z 2) (dec 1 9));;
  let head3 := filter (fun e => head e = 3) (edges p) in
  assert_eq (length head3) 2%nat;;
  assert (forallb (fun e => src_rank e =? 1) head3);;
  assert_eq (ranks head3) [6; 7].

Definition same_tp_is_one_edge_per_head : test :=
  p ← expect (plan (identity 4 4));
  assert_eq (length (edges p)) 4%nat;;
  for_each (edges p) () (fun e _ => assert_eq (src_rank e) (head e);; assert_eq (dst_rank e) (head e));;
  assert (near (amplification p) f1 (dec 1 9)).

Definition every_destination_rank_is_covered_exactly_once : test :=
  for_each [1; 2; 4; 8; 16] () (fun dst_tp _ =>
    p ← expect (plan (mkReshard 4 2 dst_tp));
    let ranks := dedup (ranks (edges p)) in
    assert_eq (Z.of_nat (length ranks)) dst_tp;;
    l ← last ranks; assert_eq (l + 1) dst_tp).

Definition a_tp_that_does_not_divide_the_heads_is_rejected : test := assert (is_err (plan (mkReshard 4 2 6))).

Definition a_4000_token_prompt_moves_about_366_mib : test :=
  stats ← expect (transfer local_default (mkTransferRequest 1 [] [] 4000 (identity 4 8)));
  assert (moved_data stats);;
  let mib := fdiv (fdiv (of_Z (bytes stats)) (of_Z 1024)) (of_Z 1024) in
  assert (near mib (of_Z 366) (of_Z 2));;
  assert (fgt (elapsed_ms stats) f0).

Definition replication_costs_wire_time_but_not_payload_bytes : test :=
  let mk r := mkTransferRequest 1 [] [] 4000 r in
  same ← expect (transfer local_default (mk (identity 4 4)));
  hetero ← expect (transfer local_default (mk (mkReshard 4 2 8)));
  assert_eq (bytes same) (bytes hetero);;
  assert (fgt (elapsed_ms hetero) (elapsed_ms same)).

Lemma transfer_tests_pass : all_pass [tp2_to_tp8_replicates_each_head_across_two_ranks; same_tp_is_one_edge_per_head;
  every_destination_rank_is_covered_exactly_once; a_tp_that_does_not_divide_the_heads_is_rejected;
  a_4000_token_prompt_moves_about_366_mib; replication_costs_wire_time_but_not_payload_bytes] = true.
Proof. vm_compute. reflexivity. Qed.
End TransferTests.

Module WireTests.
Import Stream.
Local Open Scope string_scope.
Local Open Scope list_scope.
Local Open Scope Z_scope.

(** A byte string in which [\r] and [\n] are escapes and an apostrophe is a double quote. *)
Fixpoint escaped (l : list Z) : list Z :=
  match l with
  | 92 :: 114 :: l' => CR :: escaped l'
  | 92 :: 110 :: l' => LF :: escaped l'
  | 39 :: l' => 34 :: escaped l'
  | b :: l' => b :: escaped l'
  | [] => []
  end.
Definition b (s : string) : list Z := escaped (Frontend.bytes s).

#[local] Instance SseEvent_eq_dec : EqDecision SseEvent.
Proof. solve_decision. Defined.

(** [SseEvent::data] *)
Definition data (s : string) : SseEvent := mkEvent None (b s).

Definition parses_multiline_sse_data_and_ignores_metadata : test :=
  r ← expect (parse_sse_frame (b ": keepalive\nevent: token\nid: 7\ndata: first\ndata: second\r\n"));
  assert_eq r (Some (mkEvent (Some (b "token")) (b "first\nsecond"))).

Definition recognizes_lf_and_crlf_frame_boundaries : test :=
  assert_eq (sse_frame_end (b "data: x\n\nrest")) (Some (7, 2))%nat;;
  assert_eq (sse_frame_end (b "data: x\r\n\r\nrest")) (Some (7, 4))%nat.

Definition recognizes_cr_only_and_mixed_line_ending_boundaries : test :=
  assert_eq (sse_frame_end (b "data: x\r\rrest")) (Some (7, 2))%nat;;
  assert_eq (sse_frame_end (b "data: x\r\n\nrest")) (Some (7, 3))%nat;;
  assert_eq (sse_frame_end (b "data: x\n\r\nrest")) (Some (7, 3))%nat.

Definition parses_cr_only_sse_lines : test :=
  r ← expect (parse_sse_frame (b "event: token\rdata: first\rdata: second\r"));
  assert_eq r (Some (mkEvent (Some (b "token")) (b "first\nsecond"))).

(** [block_on]; a test that is not answered does not pass. *)
Definition block_on {A} (r : Awaited A) : option A := match r with Ready a => Some a | Pending => None end.

Definition concrete_http_transport_decodes_chunked_sse_frames : test :=
  let chunks := [Chunk (b "data: {'token_id':1,'text':'a'}\r"); Chunk (b "\n\r\ndata: {'finish_reason':'eos'}\n\n"); Ended] in
  let t := mkHttp (Some chunks) [] in
  '(t, r) ← next_event (S (transport_size t)) t; r ← block_on r; ev ← expect r;
  assert_eq ev (Some (data "{'token_id':1,'text':'a'}"));;
  '(t, r) ← next_event (S (transport_size t)) t; r ← block_on r; ev ← expect r;
  assert_eq ev (Some (data "{'finish_reason':'eos'}"));;
  expect (http_cancel t).2.

Lemma wire_tests_pass : all_pass [parses_multiline_sse_data_and_ignores_metadata;
  recognizes_lf_and_crlf_frame_boundaries; recognizes_cr_only_and_mixed_line_ending_boundaries;
  parses_cr_only_sse_lines; concrete_http_transport_decodes_chunked_sse_frames] = true.
Proof. vm_compute. reflexivity. Qed.
End WireTests.

Module ServiceTests.
Local Open Scope string_scope.
Local Open Scope list_scope.
Local Open Scope Z_scope.

Definition ascii_round_trips_and_keeps_its_length : test :=
  let hello := Frontend.bytes "hello" in
  let ids := Tokens.synthetic_encode hello in
  assert_eq (length ids) 5%nat;;
  assert_eq (Tokens.synthetic_decode ids) hello.

(** The requests the JSON library reads from the tests' texts. *)
Definition max_completion_tokens_wins_over_the_legacy_field : test :=
  let r := Frontend.mkChat None [] (Some 10) (Some 200) None None None None None in
  assert_eq (max_tokens (Frontend.sampling_of (J := unit) r)) 200.

Definition defaults_match_the_benchmark_shape : test :=
  let r := Frontend.mkChat None [Frontend.mkMessage (Frontend.bytes "user") (Frontend.bytes "hi")]
    None None None None None None None in
  let s := Frontend.sampling_of (J := unit) r in
  assert_eq (max_tokens s) 200;;
  assert (SpecFloat.SFeqb (temperature _ s) (f32_of_Z 0));;
  assert (ignore_eos _ s);;
  assert_eq (Frontend.flatten_prompt r) (Frontend.bytes "user: hi").

Lemma service_tests_pass : all_pass [ascii_round_trips_and_keeps_its_length;
  max_completion_tokens_wins_over_the_legacy_field; defaults_match_the_benchmark_shape] = true.
Proof. vm_compute. reflexivity. Qed.
End ServiceTests.

Module DynamoTests.
Import Stream Dynamo.
Local Open Scope string_scope.
Local Open Scope list_scope.
Local Open Scope Z_scope.

(** The values [serde_json::json!] makes, and the outputs the runtime makes. *)
Inductive Value := Texts (l : list (list Z)) | Ids (l : list Z) | U32 (n : Z) | F32 (x : f32) | Flag (b : bool).
Inductive Output := OToken (t : Z) (text : list Z) | OCancelled | OLength | OEos | OStop | OContentFilter
  | OError (reason : string + list Z).

#[local] Instance value_json : JsonOf Value := {
  of_texts := Texts; of_ids := Ids; of_u32 := U32; of_f32 := F32; of_bool := Flag
}.
#[local] Instance output : EngineOutput Output := {
  out_token := OToken; out_cancelled := OCancelled; out_length := OLength; out_eos := OEos; out_stop := OStop;
  out_content_filter := OContentFilter; out_error := OError
}.

#[local] Instance f32_eq_dec : EqDecision f32.
Proof. intros x y. unfold Decision. decide equality; (apply Z.eq_dec || apply Pos.eq_dec || apply bool_dec). Defined.
#[local] Instance Value_eq_dec : EqDecision Value.
Proof. solve_decision. Defined.

(** The [f32] nearest to [n / 10]. *)
Definition tenths (n : Z) : f32 := SpecFloat.SFdiv 24 128 (f32_of_Z n) (f32_of_Z 10).

Definition request (ids : list Z) (c : StopConditions) (s : SamplingOptions) (special : option bool) : PreprocessedRequest :=
  mkPre ids false false false false false false false false false c s (mkOutput false false false false special) None.

Definition converts_supported_stop_and_output_controls_to_wire_extras : test :=
  let r := request [1; 2; 3]
    (mkStop (Some 9) (Some [Frontend.bytes "<END>"]) (Some [9]) (Some [10]) None (Some 2) None (Some false))
    (mkSampling None None None false false (Some (tenths 7)) (Some (tenths 9)) (Some 8) (Some 4) (Some (tenths 11))
       (Some (tenths 2)) (Some (tenths 3)) None (Some true)) (Some false) in
  '(converted, _) ← expect (convert_request (J := Value) config_default 0 f0 r);
  let p := params converted in
  assert_eq (max_tokens p) 9;;
  assert_eq (temperature _ p) (tenths 7);;
  assert_eq (top_p _ p) (tenths 9);;
  assert_eq (top_k _ p) 8;;
  assert_eq (seed _ p) (Some 4);;
  assert_eq (ignore_eos _ p) false;;
  assert_eq (extra _ p)
    [("stop", Texts [Frontend.bytes "<END>"]); ("stop_token_ids", Ids [9; 10]); ("min_tokens", U32 2);
     ("repetition_penalty", F32 (tenths 11)); ("presence_penalty", F32 (tenths 2));
     ("frequency_penalty", F32 (tenths 3)); ("include_stop_str_in_output", Flag true);
     ("skip_special_tokens", Flag false)].

Definition rejects_multiple_outputs_before_starting_transport : test :=
  let r := request [1] (mkStop None None None None None None None None)
    (mkSampling (Some 2) None None false false None None None None None None None None None) None in
  error ← expect_err (convert_request (J := Value) config_default 0 f0 r);
  match error with InvalidArgument m => assert (Text.contains m "n") | _ => None end.

Definition preserves_all_supported_terminal_reasons : test :=
  let finish reason := to_dynamo_output (O := Output) (Terminal (Frontend.bytes reason)) in
  match finish "eos" with OEos => Some () | _ => None end;;
  match finish "content_filter" with OContentFilter => Some () | _ => None end;;
  match finish "unknown" with OError _ => Some () | _ => None end.

Lemma dynamo_tests_pass : all_pass [converts_supported_stop_and_output_controls_to_wire_extras;
  rejects_multiple_outputs_before_starting_transport; preserves_all_supported_terminal_reasons] = true.
Proof. vm_compute. reflexivity. Qed.
End DynamoTests.
