(* ===== verification/TuneTests.v ===== *)
(** * The tests of the engine's costs, the mock engine, the tuner and the simulator's clock
    ([crates/engine], [crates/tuner], [crates/sim/src/events.rs]) *)

From Stdlib Require Import ZArith String.
From stdpp Require Import base option list numbers gmap strings.
From S2P Require Import Prelude F64 F64Int Text Core Csv Capacity Engine Config Aic Sim Tuning Testing.

Module CostTests.
Import Planner Mock.
Local Open Scope Z_scope.

Definition multiseq_gain_matches_the_measurement : test :=
  let c := mkPrefillCurve (dec 31111 3) f0 (dec 116 3) (of_Z 5) in
  assert (near (rate_at c 1) (dec 31111 3) (dec 1 6));;
  assert (near (rate_at c 5) (dec 3472 2) (dec 5 2));;
  assert (near (rate_at c 9) (rate_at c 5) (dec 1 9)).

Definition a_tp2_worker_is_faster_per_gpu_than_a_tp4_one : test :=
  let tp2 := for_worker prefill_cal_default 2 2 in
  let tp4 := for_worker prefill_cal_default 4 4 in
  assert (fgt (fdiv (tokens_per_ms tp2) (of_Z 2)) (fdiv (tokens_per_ms tp4) (of_Z 4))).

Definition decode_curve_reproduces_its_calibration_point : test :=
  let d := from_calibration decode_cal_default 8 in
  assert (near (curve_step_ms d 53) (dec 1723 2) (dec 1 2)).

Definition the_intercept_is_not_identified_by_one_point : test :=
  let shallow := from_point (of_Z 53) (dec 1723 2) (of_Z 15) in
  let steep := from_point (of_Z 53) (dec 1723 2) (of_Z 2) in
  assert (near (curve_step_ms shallow 53) (curve_step_ms steep 53) (dec 1 2));;
  let c_shallow := fdiv (fsub (of_Z 20) (base_ms shallow)) (slope_ms shallow) in
  let c_steep := fdiv (fsub (of_Z 20) (base_ms steep)) (slope_ms steep) in
  assert (fgt c_shallow (fmul c_steep (dec 18 1))).

Lemma cost_tests_pass : all_pass [multiseq_gain_matches_the_measurement; a_tp2_worker_is_faster_per_gpu_than_a_tp4_one;
  decode_curve_reproduces_its_calibration_point; the_intercept_is_not_identified_by_one_point] = true.
Proof. vm_compute. reflexivity. Qed.
End CostTests.

Module MockTests.
Import Planner Mock.
Local Open Scope Z_scope.

Definition cost : CostModel := mkCost (for_worker prefill_cal_default 2 2) (from_calibration decode_cal_default 8) f0.

Definition chunk (id : Z) (tokens : nat) (completes : bool) : PrefillChunkSpec :=
  mkChunkSpec id (replicate tokens 7) 0 (Z.of_nat tokens) completes [].

Definition decoder : MockEngine := mock_decode_worker "m" (seqZ 0 8) 8 8192 cost Virtual.
Definition seq_spec (id max_tokens : Z) : DecodeSeqSpec := mkSeqSpec id 4000 1 max_tokens [].

(** [e.add_decode_seq(..).await.expect("add")], and a step. *)
Definition add (e : MockEngine) (s : DecodeSeqSpec) : option MockEngine :=
  let '(e, r) := mock_add e s in expect r;; Some e.
Definition step (e : MockEngine) : option (MockEngine * DecodeStepOutcome) :=
  '(e, r) ← mock_step e f0; o ← expect r; Some (e, o).

Definition only_completed_chunks_emit_a_first_token : test :=
  let e := mock_prefill_worker "m" [0; 1] 2 cost Virtual in
  '(_, r) ← mock_prefill e [chunk 1 (Z.to_nat 4000) true; chunk 2 (Z.to_nat 4000) false] f0; out ← expect r;
  assert_eq (length (first_tokens out)) 1%nat;;
  t ← first_tokens out !! 0%nat; assert_eq t.1 1;;
  assert (fgt (po_elapsed_ms out) f0).

Definition decode_steps_cost_more_as_the_batch_grows : test :=
  e ← add decoder (seq_spec 1 200);
  '(e, one) ← step e;
  e ← for_each (seqZ 2 38) e (fun i e => add e (seq_spec i 200));
  '(e, many) ← step e;
  assert (fgt (so_elapsed_ms many) (so_elapsed_ms one));;
  assert_eq (size (m_decode e)) 39%nat.

Definition a_sequence_retires_after_its_token_budget : test :=
  e ← add decoder (seq_spec 1 3);
  '(e, out) ← step e;
  assert_eq (so_finished out) [];;
  '(e, out) ← step e;
  assert_eq (so_finished out) [1];;
  assert_eq (size (m_decode e)) 0%nat.

Definition an_idle_decode_engine_costs_nothing : test :=
  '(_, out) ← step decoder;
  assert_feq (so_elapsed_ms out) f0;;
  assert_eq (so_tokens out) [].

Lemma mock_tests_pass : all_pass [only_completed_chunks_emit_a_first_token; decode_steps_cost_more_as_the_batch_grows;
  a_sequence_retires_after_its_token_budget; an_idle_decode_engine_costs_nothing] = true.
Proof. vm_compute. reflexivity. Qed.
End MockTests.

Module EventsTests.
Import Simulation.
Local Open Scope Z_scope.

(** [std::iter::from_fn(|| h.pop())] *)
Fixpoint drain (fuel : nat) (h : list Scheduled) : list Scheduled :=
  match fuel with
  | O => []
  | S fuel => match heap_pop h with Some (x, h) => x :: drain fuel h | None => [] end
  end.

Definition the_heap_pops_in_time_then_insertion_order : test :=
  let h := [mkScheduled (of_Z 10) 1 (PrefillDone 0)] in
  let h := mkScheduled (of_Z 5) 2 (PrefillDone 1) :: h in
  let h := mkScheduled (of_Z 5) 0 (PrefillDone 2) :: h in
  assert_eq (map ev_seq (drain (length h) h)) [0; 2; 1].

Lemma events_tests_pass : all_pass [the_heap_pops_in_time_then_insertion_order] = true.
Proof. vm_compute. reflexivity. Qed.
End EventsTests.

Module TableTests.
Import Text.
Local Open Scope string_scope.
Local Open Scope list_scope.
Local Open Scope Z_scope.

(** Lines, each with its line feed, and a quoted field. *)
Definition lines (l : list string) : string := foldr (fun s t => s +:+ of_char LF +:+ t) "" l.
Definition quoted (s : string) : string := of_char DQUOTE +:+ s +:+ of_char DQUOTE.

Definition quoted_fields_and_embedded_commas_survive : test :=
  t ← expect (Csv.parse (lines ["a,b"; "1," +:+ quoted "x,y"]));
  assert_eq (Csv.header t) ["a"; "b"];;
  row ← Csv.rows t !! 0%nat; assert_eq (row !! 1%nat) (Some "x,y").

Definition columns_are_found_by_pattern_not_position : test :=
  t ← expect (Csv.parse (lines ["(p)parallel,(d)parallel,tokens/s/gpu"; "tp2pp1,tp8pp1,446.85"]));
  row ← Csv.rows t !! 0%nat;
  assert_eq (Csv.cell t row ["(p)"; "parallel"]) (Some "tp2pp1");;
  assert_eq (Csv.cell t row ["(d)"; "parallel"]) (Some "tp8pp1");;
  n ← Csv.number t row ["tokens/s/gpu"]; assert_feq n (dec 44685 2).

Definition a_missing_column_is_none_not_a_wrong_answer : test :=
  t ← expect (Csv.parse (lines ["a,b"; "1,2"]));
  assert (is_none (Csv.column t ["ttft"]));;
  row ← Csv.rows t !! 0%nat; assert (is_none (Csv.number t row ["ttft"])).

Definition a_trailing_newline_does_not_produce_a_phantom_row : test :=
  t ← expect (Csv.parse (lines ["a"; "1"; "2"]));
  assert_eq (length (Csv.rows t)) 2%nat.

Lemma table_tests_pass : all_pass [quoted_fields_and_embedded_commas_survive; columns_are_found_by_pattern_not_position;
  a_missing_column_is_none_not_a_wrong_answer; a_trailing_newline_does_not_produce_a_phantom_row] = true.
Proof. vm_compute. reflexivity. Qed.
End TableTests.

Module AicTests.
Import Text Deployment Aic TableTests.
Local Open Scope string_scope.
Local Open Scope list_scope.
Local Open Scope Z_scope.

#[local] Instance ParallelSpec_eq_dec : EqDecision ParallelSpec.
Proof. solve_decision. Defined.

Definition DISAGG_CSV : string := lines
  ["model,isl,osl,prefix,concurrency,request_rate," +:+
   "(p)bs,(p)global_bs,(p)workers,(d)bs,(d)global_bs,(d)workers," +:+
   "ttft,tpot,request_latency,seq/s,seq/s/gpu,tokens/s,tokens/s/gpu,tokens/s/user," +:+
   "(p)seq/s/worker,(d)seq/s/worker,num_total_gpus," +:+
   "(p)tp,(p)pp,(p)dp,(p)moe_tp,(p)moe_ep,(p)parallel,(d)tp,(d)pp,(d)dp,(d)moe_tp,(d)moe_ep,(d)parallel";
   "Qwen/Qwen3-235B-A22B-FP8,4000,200,0,64,14.375," +:+
   "1,2,4,64,64,1," +:+
   "901.561,19.779,4837.582,14.375,0.898,2874.96,179.685,50.559," +:+
   "3.993,16.26,16," +:+
   "1,1,2,1,2,tp1pp1dp2etp1ep2,8,1,1,1,8,tp8pp1dp1etp1ep8"].

(** The candidates of a text, and the first of them. *)
Definition candidates (text : string) (m : DeploymentMode) : option (list AicCandidate) :=
  t ← expect (Csv.parse text); candidates_from_table t m "test".
Definition first (text : string) (m : DeploymentMode) : option AicCandidate := l ← candidates text m; l !! 0%nat.

Definition parallel_specs_round_trip : test :=
  a ← parse "tp4pp1"; assert_eq a (Some (mkSpec 4 1 1 1));;
  a ← parse "TP8PP1EP8"; assert_eq a (Some (mkSpec 8 1 8 1));;
  a ← parse ""; assert (is_none a);;
  a ← parse "nonsense"; assert (is_none a).

Definition gpus_per_worker_counts_dp : test :=
  a ← parse "tp1pp1dp2"; assert_eq (gpus <$> a) (Some 2);;
  a ← parse "tp8pp1dp1"; assert_eq (gpus <$> a) (Some 8);;
  a ← parse "tp2pp2"; assert_eq (gpus <$> a) (Some 4).

Definition the_real_disagg_row_parses_as_4p1d_on_16_gpus : test :=
  c ← first DISAGG_CSV Disagg;
  assert_eq (c_prefill_workers c) 4;;
  assert_eq (prefill_gpus_per_worker c) 2;;
  assert_eq (c_decode_workers c) 1;;
  assert_eq (decode_gpus_per_worker c) 8;;
  assert_eq (c_total_gpus c) 16;;
  assert_eq (c_prefill_workers c * prefill_gpus_per_worker c + c_decode_workers c * decode_gpus_per_worker c)
    (c_total_gpus c);;
  s ← predicted_seq_s c; assert_feq s (dec 14375 3);;
  t ← predicted_tpot_ms c; assert_feq t (dec 19779 3);;
  cfg ← apply_to c config_default;
  assert_eq (prefill_workers (topology cfg)) 4;;
  assert_eq (prefill_tp (topology cfg)) 2;;
  assert_eq (decode_tp (topology cfg)) 8;;
  expect (validate_config cfg).

Definition a_row_without_worker_counts_is_rejected : test :=
  c ← first (lines ["(p)parallel,(d)parallel"; "tp1pp1dp2,tp8pp1dp1"]) Disagg;
  assert_eq (c_prefill_workers c) 0;;
  assert (is_none (apply_to c config_default)).

Definition agg_replicas_are_derived_from_the_gpu_total : test :=
  c ← first (lines ["num_total_gpus,tp,pp,dp,moe_ep,parallel,seq/s"; "16,1,1,4,4,tp1pp1dp4etp1ep4,7.06"]) Agg;
  assert_eq (prefill_gpus_per_worker c) 4;;
  assert_eq (c_prefill_workers c) 4;;
  assert (is_none (apply_to c config_default));;
  assert (String.prefix "agg " (label c)).

Definition the_support_check_comes_before_the_search : test :=
  let run := from_config config_default "h200_sxm" "trtllm" "/tmp/aic" in
  assert (contains (shell (support_command run)) "cli support");;
  let search := shell (search_command run) in
  assert (contains search "--ttft 3000");;
  assert (contains search "--tpot 20.00");;
  assert (contains search "--total-gpus 16").

Lemma aic_tests_pass : all_pass [parallel_specs_round_trip; gpus_per_worker_counts_dp;
  the_real_disagg_row_parses_as_4p1d_on_16_gpus; a_row_without_worker_counts_is_rejected;
  agg_replicas_are_derived_from_the_gpu_total; the_support_check_comes_before_the_search] = true.
Proof. vm_compute. reflexivity. Qed.
End AicTests.

(** The tests of the plan that run no simulation. *)
Module PlanTests.
Import Text Deployment Aic Tuning TableTests AicTests.
Local Open Scope string_scope.
Local Open Scope list_scope.
Local Open Scope Z_scope.

Definition short_base : Config :=
  let c := config_default in
  let w := workload c in
  mkConfig (model c) (mkWorkload (w_isl w) (w_osl w) 48 (w_max_num_tokens w) (w_max_seq_len w) (of_Z 2) (of_Z 6)
    (of_Z 8) (w_seed w) (cache_bust w)) (topology c) (scheduler c) (kv c) (engine c) (calibration c) (slo c).

Definition two_rows : option (list AicCandidate) :=
  candidates (lines
    ["(p)workers,(p)tp,(p)pp,(p)dp,(p)moe_ep,(d)workers,(d)tp,(d)pp,(d)dp,(d)moe_ep,num_total_gpus,seq/s,tokens/s/gpu";
     "4,1,1,2,2,1,8,1,1,8,16,14.375,179.685"; "2,4,1,1,4,1,8,1,1,8,16,9.0,112.5"]) Disagg.

(** [GoodputReport { req_per_s, good_output_tok_s, ..Default::default() }] *)
Definition report (req_per_s good_output_tok_s : f64) : GoodputReport :=
  mkReport f0 0 0 f0 req_per_s f0 good_output_tok_s 0 0 0 0 latency_default latency_default false.

Definition measured_score_wins_even_when_its_request_rate_is_lower : test :=
  let evaluator := mkMeasured (fun cfg =>
    let tp2 := prefill_tp (topology cfg) =? 2 in
    report (if tp2 then of_Z 100 else of_Z 20) (if tp2 then of_Z 10 else of_Z 100)) in
  rows ← two_rows;
  plan ← evaluate_with evaluator short_base rows;
  assert_eq (length (plan_rows plan)) 2%nat;;
  r0 ← plan_rows plan !! 0%nat; r1 ← plan_rows plan !! 1%nat;
  assert_eq (prefill_tp (topology (row_config r0))) 4;;
  assert_feq (good_output_tok_s (score r0)) (of_Z 100);;
  assert_feq (req_per_s (score r0)) (of_Z 20);;
  assert_feq (req_per_s (score r1)) (of_Z 100).

(** An evaluator whose measurement panics. *)
Inductive Panicking := Panic.
#[local] Instance panicking : CandidateEvaluator Panicking := fun _ _ => None.

Definition too_wide : option (list AicCandidate) :=
  candidates (lines ["(p)workers,(p)tp,(p)pp,(p)dp,(d)workers,(d)tp,(d)pp,(d)dp,num_total_gpus"; ""; "4,8,1,1,1,8,1,1,16"])
    Disagg.

Definition invalid_candidates_are_skipped_before_the_measured_evaluator_runs : test :=
  rows ← too_wide;
  plan ← evaluate_with Panic short_base rows;
  assert_eq (length (plan_rows plan)) 0%nat;;
  assert_eq (length (skipped plan)) 1%nat.

(** The simulator is given no step, which shows that it is not run. *)
Definition a_topology_that_does_not_fit_is_skipped_not_silently_resized : test :=
  cands ← candidates
    (lines ["(p)workers,(p)tp,(p)pp,(p)dp,(d)workers,(d)tp,(d)pp,(d)dp,num_total_gpus"; "4,8,1,1,1,8,1,1,16"]) Disagg;
  plan ← evaluate_with (mkSimulation 0) short_base cands;
  assert_eq (length (plan_rows plan)) 0%nat;;
  assert_eq (length (skipped plan)) 1%nat.

Lemma plan_tests_pass : all_pass [measured_score_wins_even_when_its_request_rate_is_lower;
  invalid_candidates_are_skipped_before_the_measured_evaluator_runs;
  a_topology_that_does_not_fit_is_skipped_not_silently_resized] = true.
Proof. vm_compute. reflexivity. Qed.
End PlanTests.
